(* ===== verification/_CoqProject ===== *)
-Q . S2P
Prelude.v
JsNumber.v
JsRounding.v
JsString.v
JsValue.v
JsDate.v
JsJson.v
JsonRoundTrip.v
Effects.v
Amounts.v
SdkConfig.v
SdkTypes.v
Schemas.v
Base.v
Clients.v
ReactAsync.v
ReactHooks.v
Cli.v
WebParsers.v
WebApi.v
WebErrors.v
Assets.v
Timeline.v
Storage.v
Wallet.v
Notifications.v
TxHistory.v
Contracts.v
Actions.v
InvoiceForm.v
Marketplace.v
InvoiceTable.v
InvoiceViews.v
PoolPage.v
Preferences.v
EventViews.v
Registration.v
Charts.v
Queries.v
Dialogs.v
Dashboard.v
InvoiceServer.v
SecurityHeaders.v
ActionHooks.v
InvoiceDisplay.v
InvoiceGrid.v
Wire.v
MarketPage.v
DatePicker.v
Quickstart.v
LpPage.v
FormPage.v
Calculators.v
StatViews.v
ProfilePage.v
CreateDialog.v
Markup.v
DialogViews.v
FrameViews.v
SettingsPage.v
Console.v
Skeletons.v
TableView.v
DetailPage.v
PageViews.v
FormView.v
ProfileView.v
PublicPages.v
HomePage.v
LpView.v
CalcViews.v
LoadingPages.v
