(* ===== verification/Prelude.v ===== *)
(** * TrusTrove: a verification development of the TypeScript code base

    TrusTrove is a trade-finance application on Stellar: issuers tokenise invoices, liquidity
    providers fund them from a pool, buyers confirm the delivery and repay.  The repository
    holds an SDK that builds, signs and submits contract calls ([packages/sdk]), its React
    bindings ([packages/sdk-react]), a command line ([packages/cli]), a quickstart and a web
    app ([apps/web]); next to them an indexer in Go and the contracts in Rust, which the
    TypeScript code calls over HTTP and RPC.  This development models the TypeScript code.

    ** How code is modelled

    A pure function is a function with the name it has in the source.  A function that may
    throw returns [res]; one that talks to the outside runs in the logged monad [M] of [Effects],
    where the environment answers every request arbitrarily and each request is an entry of
    the log, in order.  A component or hook with state is a [state] record and a [step] over
    the events it receives: what the user does, what settles and when, in any order.  A
    closure keeps the values of its render by storing them in the state or in the event.
    Numbers are binary64 with their rounding, bigints are integers, strings are Latin-1 code
    units; an untyped value is a [jsval].  What is not source (the RPC server, Horizon, the
    wallet, zod, the Stellar SDK, date-fns, the formats of the browser, the query client) is an
    argument, and what is assumed of it is a class of laws that an instance shows to hold.

    ** The platform

    - [Prelude]: results, lists, options, automation;
    - [JsNumber], [JsRounding]: numbers and bigints, and what rounding does to them;
    - [JsString], [JsValue], [JsDate], [JsJson], [JsonRoundTrip]: strings, untyped values, dates,
      JSON and URIs, and that what was printed is read back;
    - [Effects]: the logged monad and its [trace_spec] rules.

    ** The SDK and its clients

    - [Amounts], [SdkConfig], [SdkTypes], [Schemas]: [packages/sdk/src] [amounts.ts], [config.ts] (with
      the heap of the configuration), [types/index.ts], [types/schemas.ts];
    - [Base], [Clients]: [base.ts] and [clients/*.ts].  A write signs one transaction, submits it
      again only where it cannot be queued, polls, and ends after a bounded number of requests;
    - [ReactAsync], [ReactHooks]: [packages/sdk-react/src]; the latest request wins;
    - [Cli], [Quickstart]: [packages/cli/src] and [examples/sdk-quickstart].

    ** The web app: data and session

    - [WebParsers], [WebApi], [Wire]: [lib/parsers.ts], [lib/api.ts]; responses are typed whichever way
      they were parsed, amounts arrive exactly, and the walk over all pages is complete;
    - [WebErrors], [Assets], [Timeline]: [lib/errors.ts], [toast.tsx], [assets.ts],
      [invoiceTimeline.ts], [invoicePdf.ts];
    - [Storage], [Preferences]: [lib/storage.ts], the small stores, theme and settings;
    - [Wallet]: the session store, Freighter, the account watcher, connecting and the login;
    - [Notifications], [EventViews]: the notification history and the four views of events;
    - [TxHistory]: the transaction history and its cursors;
    - [Contracts], [Actions], [ActionHooks], [Queries]: what the hooks call and how they report it.
      [Contracts] is the interface; the SDK's clients implement it ([sdk_contracts_safe]);
    - [InvoiceServer], [SecurityHeaders]: the server render and the middleware.

    ** The web app: pages

    - [InvoiceForm], [DatePicker], [FormPage]: creating an invoice.  [InvoiceForm] has the checks and
      the submission with its compensation, [FormPage] the form around them, [CreateDialog] the
      dialog of the dashboard it is in;
    - [Marketplace], [MarketPage]: filters, presets, rows, and the page over one storage;
    - [InvoiceTable], [InvoiceGrid], [InvoiceViews], [InvoiceDisplay]: the table, the card, the detail
      page, and what they show;
    - [PoolPage], [LpPage]: the preview and the handlers of the liquidity provider page, and the
      page with the confirmation over them;
    - [Registration], [ProfilePage]: registering a business, and the profile page with the
      panels of the connected wallet;
    - [Charts], [Calculators], [StatViews]: chart geometry and derived figures, the calculators
      with their controls, and the figures of the landing, analytics and dashboard pages;
    - [Dashboard], [Dialogs]: the dashboard and the frame of the pages, dialogs and the focus
      trap.

    ** The web app: what is rendered

    A component returns a tree of elements with handlers ([Markup]); its theorems say what one
    action of a user on that tree sends, so that the guards the step functions assume are those
    the page enforces, and some drive a component only through the tree of each render.

    - [Markup]: elements, the bubbling of a click and what it does to the control clicked, keys,
      fields, submission with required fields, names of controls, and the rules by which what a
      tree offers follows from its parts ([offers]);
    - [DialogViews], [FrameViews]: the dialogs, with the registration dialog driven through its
      renders, and the bar with the bell, the wallet button and the theme toggle;
    - [SettingsPage]: the settings page, its sections mounted anew by each change;
    - [Console]: the invoice card and the consoles it is in, keyed and not;
    - [TableView], [DetailPage], [PageViews]: the table, the page of an invoice, the marketplace and
      the dashboard, composed as the pages compose them;
    - [FormView]: the two steps of the invoice form with the picker, used through their controls;
    - [ProfileView]: the profile page with its dialog and the transaction history;
    - [LpView], [CalcViews]: the liquidity provider page with the dialog that confirms, and the
      calculators, used through their sliders, lists and tabs;
    - [PublicPages], [HomePage], [Skeletons], [LoadingPages]: the ticker, the feed, documentation,
      help and error pages, the landing page, the frames, and what is shown while loading.

    ** What the theorems show

    Money: amounts survive printing, parsing and the wire; an amount typed in a form is off by
    one stroop at most, and the figures of the calculators are exact as shown; a call that
    moves funds is made once, after its allowance, its checks and its confirmation.  Ordering:
    late answers do not replace newer ones, in the hooks, the preview and the watcher;
    histories, presets and panels are not mixed up between wallets.  Failures: every error
    path of an action is reported, the creation of an invoice is taken back, corrupt storage
    is kept.  Shape: parsed data has its declared types.  Pages: one action sends at most one
    event, which the state allows; the marketplace and the form never throw when they are used
    through what they render; an action on an invoice is offered in the statuses it is for and to
    the role it is for, a default to every role.  Limits: what is drawn stays in its box, whatever
    the rounding; the due dates that can be chosen are known in every time zone, and so are the
    shapes of the indexer's answers that are read exactly.  The web server: the policy a browser
    reads has the documented directives and no other.  Where the code does not do what it means
    to, a lemma shows the run in which it fails.

    ** Bounds

    The walk over all invoices asks for at most 100 pages, the constant of the source, and a
    submitted transaction is polled as often as the source does (30 times); both recurse on
    what remains.  The JSON parser has two units of fuel per character and two more, and
    [JsonRoundTrip] shows that one per character is enough for what was printed.  Other loops
    recurse on lists or on the attempts left.

    ** Not modelled

    Class names, styles and animations (a removed element is gone at once, where framer-motion
    keeps it for its exit); the markup of the charts, whose texts and controls are modelled;
    wrappers of UI libraries ([components/ui]); configuration of Next.js, Tailwind, Playwright
    and Storybook; tests and mocks.  Third-party code: which rows the virtualiser renders, which
    elements of the document can take the focus, the calendar widget, the option parser of the
    command line, fonts and text metrics of PDFs are arguments.  The Go indexer and the Rust
    contracts are other languages; the model meets them as arbitrary answers. *)

From Stdlib Require Export ZArith Lia Ascii Sorting.Sorted.
From stdpp Require Export base tactics list strings gmap option numbers.

(** [append] computes on constructors under [cbn]. *)
#[global] Arguments String.append !s1 s2 /.

(** ** Results of fallible code

    A TypeScript function that may throw is a function into [result E A]: [Ok a]
    is a normal return and [Throw e] an exception carrying the thrown value. *)
Inductive result (E A : Type) : Type :=
  | Ok (a : A)
  | Throw (e : E).
Arguments Ok {E A} a.
Arguments Throw {E A} e.

#[export] Instance result_ret E : MRet (result E) := fun _ a => Ok a.
#[export] Instance result_bind E : MBind (result E) := fun _ _ f m =>
  match m with Ok a => f a | Throw e => Throw e end.
#[export] Instance result_fmap E : FMap (result E) := fun _ _ f m =>
  match m with Ok a => Ok (f a) | Throw e => Throw e end.

Definition is_ok {E A} (r : result E A) : bool :=
  match r with Ok _ => true | Throw _ => false end.

(** [try { m } catch (e) { h e }]. *)
Definition try_catch {E A} (m : result E A) (h : E -> result E A) : result E A :=
  match m with Ok a => Ok a | Throw e => h e end.

(** [xs.map(f)] where [f] may throw: the first exception, in list order, wins. *)
Fixpoint map_result {E A B} (f : A -> result E B) (l : list A) : result E (list B) :=
  match l with
  | [] => Ok []
  | x :: rest =>
      match f x with
      | Throw e => Throw e
      | Ok y => match map_result f rest with Ok ys => Ok (y :: ys) | Throw e => Throw e end
      end
  end.

Create HintDb trove.

Section ResultLemmas.
Context {E A B : Type}.

Lemma bind_ok (m : result E A) (f : A -> result E B) b :
m ≫= f = Ok b <-> exists a, m = Ok a /\ f a = Ok b.
Proof.
destruct m as [a|e]; cbn; split;
  [by exists a | by intros (x & [= <-] & Hf) | done | by intros (x & [=] & _)].
Qed.

Lemma bind_throw (m : result E A) (f : A -> result E B) e :
m ≫= f = Throw e <-> m = Throw e \/ exists a, m = Ok a /\ f a = Throw e.
Proof.
destruct m as [a|e']; cbn; split;
  [intros; right; by exists a | by intros [[=]|(x & [= <-] & Hf)]
  | intros [= ->]; by left | by intros [[= ->]|(x & [=] & _)]].
Qed.

Lemma map_result_ok (f : A -> result E B) l ys :
map_result f l = Ok ys <-> Forall2 (fun x y => f x = Ok y) l ys.
Proof.
revert ys; induction l as [|x l IH]; intros ys; cbn.
- split; [intros [= <-]; constructor | intros H; by inversion H].
- destruct (f x) eqn:Hx.
  + destruct (map_result f l) eqn:Hl.
    * split.
      -- intros [= <-]. constructor; [done | by apply IH].
      -- intros H; inversion H as [|? y ? ys' Hy Hrest]; subst.
         apply IH in Hrest. congruence.
    * split; [done | intros H; inversion H as [|? y ? ys' Hy Hrest]; subst].
      apply IH in Hrest. congruence.
  + split; [done | intros H; inversion H; congruence].
Qed.

Lemma map_result_length (f : A -> result E B) l ys :
map_result f l = Ok ys -> length ys = length l.
Proof. rewrite map_result_ok. intros H. symmetry. by eapply Forall2_length. Qed.

Lemma map_result_throw (f : A -> result E B) l e :
map_result f l = Throw e -> exists x, x ∈ l /\ f x = Throw e.
Proof.
induction l as [|x l IH]; cbn; [done|].
destruct (f x) eqn:Hx; [destruct (map_result f l) eqn:Hl|]; intros [= <-].
- destruct IH as (y & ? & ?); [done|]. exists y. split; [by right | done].
- exists x. split; [by left | done].
Qed.
End ResultLemmas.



(** Splits every hypothesis that says a bind succeeded. *)
Ltac inv_bind :=
  repeat match goal with
  | H : _ ≫= _ = Ok _ |- _ => apply bind_ok in H as (? & ? & ?)
  | H : Ok _ = Ok _ |- _ => injection H as H
  | H : Throw _ = Throw _ |- _ => injection H as H
  | H : Ok _ = Throw _ |- _ => discriminate H
  | H : Throw _ = Ok _ |- _ => discriminate H
  end; subst.

(** Case analysis on the scrutinee of the innermost match of the goal. *)
Ltac case_goal := repeat (case_match; simplify_eq/=).

(** ** Option helpers: [??] and [||] on optional values. *)

(** [a ?? b]. *)
Definition nullish {A} (a : option A) (b : A) : A := default b a.

(** [a ?? b] where [b] may itself be absent. *)
Definition or_nullish {A} (a b : option A) : option A :=
  match a with Some x => Some x | None => b end.

(** [a || b] for strings: the empty string is falsy. *)
Definition str_or (a b : string) : string :=
  if String.eqb a "" then b else a.

(** [a || b] for a possibly absent string (an environment variable, say). *)
Definition opt_str_or (a : option string) (b : string) : string :=
  match a with Some s => str_or s b | None => b end.

(** Truthiness of a possibly absent string. *)
Definition opt_str_truthy (a : option string) : bool :=
  match a with Some s => negb (String.eqb s "") | None => false end.

Lemma str_or_nonempty a b : a <> "" -> str_or a b = a.
Proof. intros H. unfold str_or. destruct (String.eqb_spec a ""); done. Qed.

Lemma opt_str_truthy_spec a :
  opt_str_truthy a = true <-> exists s, a = Some s /\ s <> "".
Proof.
  destruct a as [s|]; cbn; [|naive_solver].
  destruct (String.eqb_spec s ""); naive_solver.
Qed.

(** ** Stable sorting

    [Array.prototype.sort] is stable.  [after y x] says that the comparator puts [y]
    strictly after [x]; each element is inserted behind those that are not after it. *)
Section StableSort.
Context {A : Type} (after : A -> A -> bool).

Fixpoint insert_by (x : A) (l : list A) : list A :=
  match l with
  | [] => [x]
  | y :: r => if after y x then x :: y :: r else y :: insert_by x r
  end.
Definition sort_by (l : list A) : list A := foldl (fun acc x => insert_by x acc) [] l.

Lemma insert_by_perm x l : insert_by x l ≡ₚ x :: l.
Proof.
  induction l as [|y l IH]; cbn; [done|]. destruct (after y x); [done|].
  rewrite IH. apply Permutation_swap.
Qed.

Lemma foldl_insert_perm l acc : foldl (fun acc x => insert_by x acc) acc l ≡ₚ l ++ acc.
Proof.
  revert acc. induction l as [|x l IH]; intros acc; [done|]. cbn.
  rewrite IH, insert_by_perm. symmetry. apply Permutation_middle.
Qed.
Lemma sort_by_perm l : sort_by l ≡ₚ l.
Proof. unfold sort_by. rewrite foldl_insert_perm. by rewrite app_nil_r. Qed.
End StableSort.

(** Sorting by a key, largest first. *)
Section SortKey.
Context {A : Type} (key : A -> Z).
Local Abbreviation after := (fun y x => Z.ltb (key y) (key x)).
Local Abbreviation descending := (fun a b => (key b <= key a)%Z).

Lemma insert_key_sorted x l :
  StronglySorted descending l -> StronglySorted descending (insert_by after x l).
Proof.
  induction 1 as [|y l Hl IH Hy]; cbn; [repeat constructor|].
  destruct (Z.ltb_spec (key y) (key x)).
  - constructor; [by constructor|]. constructor; [lia|]. eapply List.Forall_impl; [|exact Hy]. cbn. lia.
  - constructor; [exact IH|]. rewrite insert_by_perm. by constructor.
Qed.

Lemma sort_key_sorted l : StronglySorted descending (sort_by after l).
Proof.
  unfold sort_by. assert (H : StronglySorted descending ([] : list A)) by constructor.
  revert H. generalize ([] : list A). induction l as [|x l IH]; intros acc H; [done|].
  cbn. by apply IH, insert_key_sorted.
Qed.

Lemma insert_key_stable k x l : StronglySorted descending l ->
  List.filter (fun y => Z.eqb (key y) k) (insert_by after x l) =
  List.filter (fun y => Z.eqb (key y) k) l ++ List.filter (fun y => Z.eqb (key y) k) [x].
Proof.
  induction 1 as [|y l Hl IH Hy]; cbn; [done|].
  destruct (Z.ltb_spec (key y) (key x)).
  - cbn. assert (Hno : key x = k -> List.filter (fun y => Z.eqb (key y) k) (y :: l) = []).
    { intros Hx. assert (Hall : Forall (fun z => key z < k)%Z (y :: l)).
      { constructor; [lia|]. eapply List.Forall_impl; [|exact Hy]. cbn. lia. }
      clear -Hall. induction Hall as [|z r Hz _ IHr]; cbn; [done|].
      destruct (Z.eqb_spec (key z) k); [lia|done]. }
    cbn in Hno. destruct (Z.eqb_spec (key x) k) as [Hx|]; [by rewrite (Hno Hx)|by rewrite app_nil_r].
  - cbn in IH. cbn. rewrite IH. by destruct (Z.eqb (key y) k).
Qed.

(** Elements with equal keys keep their order. *)
Lemma sort_key_stable k l :
  List.filter (fun y => Z.eqb (key y) k) (sort_by after l) = List.filter (fun y => Z.eqb (key y) k) l.
Proof.
  unfold sort_by. assert (H : StronglySorted descending ([] : list A)) by constructor.
  enough (Hacc : forall acc, StronglySorted descending acc ->
    List.filter (fun y => Z.eqb (key y) k) (foldl (fun acc x => insert_by after x acc) acc l) =
    List.filter (fun y => Z.eqb (key y) k) acc ++ List.filter (fun y => Z.eqb (key y) k) l) by (by rewrite Hacc).
  induction l as [|x l IH]; intros acc Hs; [by rewrite app_nil_r|]. cbn [foldl].
  rewrite IH by (by apply insert_key_sorted). rewrite insert_key_stable by done.
  rewrite <- app_assoc. f_equal. cbn. by destruct (Z.eqb (key x) k).
Qed.
End SortKey.
