(* ===== verification/JsNumber.v ===== *)
(** * JavaScript numbers and bigints

    A JavaScript [number] is an IEEE-754 binary64 value; it is modelled by
    [spec_float] of the Standard Library at precision 53 and maximal exponent
    1024, so rounding, NaN, the infinities and the signed zeros are all there
    and every operation evaluates.  A [bigint] is a [Z].  This file holds what the
    TypeScript sources use of the two types: conversions between them, comparison,
    the four operations, [Number.isInteger], [Math.floor], [Math.round], [toFixed]
    and decimal rendering. *)

From S2P Require Import Prelude.
From Stdlib Require Import SpecFloat.
Local Open Scope Z_scope.

Abbreviation num := spec_float.

#[export] Instance num_eq_dec : EqDecision num.
Proof. solve_decision. Defined.

Module Num.
Definition prec : Z := 53.
Definition emax : Z := 1024.

Definition nan : num := S754_nan.
Definition zero : num := S754_zero false.
Definition infinity : num := S754_infinity false.

(** ** Conversions *)

(** [Number(z)] for a bigint [z]: round to nearest, ties to even. *)
Definition of_Z (z : Z) : num := binary_normalize prec emax z 0 false.

(** The number nearest to [p / q] (sign [s]). *)
Definition of_ratio (s : bool) (p q : positive) : num :=
let '(m, e, l) := SFdiv_core_binary prec emax (Zpos p) 0 (Zpos q) 0 in
binary_round_aux prec emax s m e l.

(** The number nearest to [m * 10 ^ e]: the value of a decimal literal. *)
Definition of_decimal (s : bool) (m : Z) (e : Z) : num :=
match m with
| Zpos p =>
    if 0 <=? e then binary_normalize prec emax (cond_Zopp s (Zpos p * 10 ^ e)) 0 s
    else of_ratio s p (Z.to_pos (10 ^ (- e)))
| _ => S754_zero s
end.

(** The exact value of a finite number, as numerator and positive denominator. *)
Definition exact (x : num) : option (Z * positive) :=
match x with
| S754_zero _ => Some (0, 1%positive)
| S754_finite s m e =>
    if 0 <=? e then Some (cond_Zopp s (Zpos m * 2 ^ e), 1%positive)
    else Some (cond_Zopp s (Zpos m), Z.to_pos (2 ^ (- e)))
| _ => None
end.

(** The integer a number denotes, when it is one. *)
Definition to_Z (x : num) : option Z :=
match exact x with
| Some (p, q) => if p mod Zpos q =? 0 then Some (p / Zpos q) else None
| None => None
end.

(** [Number.isInteger], [Number.isFinite]. *)
Definition is_integer (x : num) : bool :=
match to_Z x with Some _ => true | None => false end.
Definition is_finite (x : num) : bool :=
match x with S754_zero _ | S754_finite _ _ _ => true | _ => false end.

(** [Number.isSafeInteger]. *)
Definition is_safe_integer (x : num) : bool :=
match to_Z x with Some z => Z.abs z <=? 2 ^ 53 - 1 | None => false end.

Definition is_nan (x : num) : bool :=
match x with S754_nan => true | _ => false end.

(** Truthiness: every number but NaN and the zeros. *)
Definition truthy (x : num) : bool :=
match x with S754_nan | S754_zero _ => false | _ => true end.

(** ** Comparison and arithmetic (NaN compares false with everything) *)
Definition eqb (x y : num) : bool := SFeqb x y.
Definition ltb (x y : num) : bool := SFltb x y.
Definition leb (x y : num) : bool := SFleb x y.
Definition gtb (x y : num) : bool := SFltb y x.

Definition add (x y : num) : num := SFadd prec emax x y.
Definition sub (x y : num) : num := SFsub prec emax x y.
Definition mul (x y : num) : num := SFmul prec emax x y.
Definition div (x y : num) : num := SFdiv prec emax x y.

(** [Math.floor] and [Math.round] ([floor (x + 1/2)], computed exactly); both
  return non-finite values and zeros unchanged. *)
Definition floor (x : num) : num :=
match x, exact x with
| S754_finite _ _ _, Some (p, q) => of_Z (p / Zpos q)
| _, _ => x
end.
Definition round (x : num) : num :=
match x, exact x with
| S754_finite s _ _, Some (p, q) =>
    let r := (2 * p + Zpos q) / (2 * Zpos q) in
    if r =? 0 then S754_zero s else of_Z r
| _, _ => x
end.

(** ** Decimal digits *)

Fixpoint digits_fuel (fuel : nat) (z : Z) (acc : string) : string :=
match fuel with
| O => acc
| S f =>
    let acc' := String (ascii_of_nat (48 + Z.to_nat (z mod 10))) acc in
    if z <? 10 then acc' else digits_fuel f (z / 10) acc'
end.

(** The decimal digits of a natural number; a number of [b] bits has at most [b]
  decimal digits, so the fuel suffices. *)
Definition digits (z : Z) : string := digits_fuel (S (Z.to_nat (Z.log2 z))) z "".

(** [BigInt.prototype.toString]. *)
Definition bigint_to_string (z : Z) : string :=
if z <? 0 then String "-" (digits (- z)) else digits z.

Fixpoint zeros (n : nat) : string :=
match n with O => EmptyString | S k => String "0" (zeros k) end.

Definition str_len (s : string) : Z := Z.of_nat (String.length s).

(** Digit string of [n] with the decimal point [f] places from the right, padded
  with zeros so that at least one digit precedes the point. *)
Definition point_digits (n : Z) (f : nat) : string :=
let d := digits n in
let d := zeros (S f - String.length d) +:+ d in
let k := (String.length d - f)%nat in
if (f =? 0)%nat then d
else String.substring 0 k d +:+ String "." (String.substring k f d).

(** The integer nearest to [x * 10^f], the larger one on a tie, for [x >= 0]. *)
Definition scaled (p : Z) (q : positive) (f : nat) : Z :=
(2 * p * 10 ^ Z.of_nat f + Zpos q) / (2 * Zpos q).

(** *** [Number.prototype.toString]

  [shortest p q k e] looks for [k] significant digits whose value is the number
  again; [e] is the position of the decimal point ([10^(e-1) <= p/q < 10^e]). *)
Definition digits_candidate (p : Z) (q : positive) (k e : Z) : Z :=
if 0 <=? k - e then (2 * p * 10 ^ (k - e) + Zpos q) / (2 * Zpos q)
else (2 * p + Zpos q * 10 ^ (e - k)) / (2 * Zpos q * 10 ^ (e - k)).

Fixpoint shortest (fuel : nat) (x : num) (p : Z) (q : positive) (k e : Z) : Z * Z :=
let s := digits_candidate p q k e in
match fuel with
| O => (s, k)
| S f =>
    if (s <? 10 ^ k) && bool_decide (of_decimal false s (e - k) = x) then (s, k)
    else shortest f x p q (k + 1) e
end.

(** The [e] with [10^(e-1) <= p/q < 10^e]. *)
Fixpoint point_up (fuel : nat) (p q : Z) (e : Z) : Z :=
match fuel with
| O => e
| S f => if p <? q * 10 ^ e then e else point_up f p q (e + 1)
end.
Fixpoint point_down (fuel : nat) (p q : Z) (e : Z) : Z :=
match fuel with
| O => e
| S f => if p * 10 ^ (- e) <? q then point_down f p q (e - 1) else e + 1
end.
Definition point_pos (p : Z) (q : positive) : Z :=
if Zpos q <=? p then point_up 400 p (Zpos q) 1 else point_down 400 p (Zpos q) (-1).

Definition exponent_suffix (n : Z) : string :=
String "e" (if 0 <=? n - 1 then String "+" (digits (n - 1))
            else String "-" (digits (1 - n))).

(** The rendering of [s * 10^(n-k)], [s] of [k] digits. *)
Definition render (s k n : Z) : string :=
let d := digits s in
if (k <=? n) && (n <=? 21) then d +:+ zeros (Z.to_nat (n - k))
else if (0 <? n) && (n <=? 21) then
  String.substring 0 (Z.to_nat n) d +:+
  String "." (String.substring (Z.to_nat n) (Z.to_nat (k - n)) d)
else if (-6 <? n) && (n <=? 0) then "0." +:+ zeros (Z.to_nat (- n)) +:+ d
else if k =? 1 then d +:+ exponent_suffix n
else String.substring 0 1 d +:+ String "." (String.substring 1 (Z.to_nat (k - 1)) d)
       +:+ exponent_suffix n.

Definition to_string (x : num) : string :=
match x with
| S754_nan => "NaN"
| S754_infinity false => "Infinity"
| S754_infinity true => "-Infinity"
| S754_zero _ => "0"
| S754_finite sg m e =>
    match exact (S754_finite false m e) with
    | Some (p, q) =>
        let n := point_pos p q in
        let '(s, k) := shortest 17 (S754_finite false m e) p q 1 n in
        (if sg then "-" else "") +:+ render s k n
    | None => ""
    end
end.

(** *** [Number.prototype.toFixed(f)] *)
Definition to_fixed (x : num) (f : nat) : string :=
match exact x with
| None => to_string x
| Some (p, q) =>
    if 10 ^ 21 * Zpos q <=? Z.abs p then to_string x
    else (if p <? 0 then "-" else "") +:+ point_digits (scaled (Z.abs p) q f) f
end.

(** *** [toLocaleString("en-US")] with exactly two fraction digits

  The rounding and grouping of ECMA-402: the exact value of the number is rounded
  half away from zero, the integer part is grouped by three. *)
Fixpoint group3 (fuel : nat) (s : string) : string :=
match fuel with
| O => s
| S f =>
    let n := String.length s in
    if (n <=? 3)%nat then s
    else group3 f (String.substring 0 (n - 3) s) +:+
         String "," (String.substring (n - 3) 3 s)
end.

Definition sign_bit (x : num) : bool :=
match x with
| S754_zero s | S754_infinity s | S754_finite s _ _ => s
| S754_nan => false
end.

Definition to_locale2 (x : num) : option string :=
match exact x with
| None => None
| Some (p, q) =>
    let n := scaled (Z.abs p) q 2 in
    let d := digits (n / 100) in
    Some ((if sign_bit x then "-" else "") +:+ group3 (String.length d) d +:+ "." +:+
          (let c := digits (n mod 100) in zeros (2 - String.length c) +:+ c))
end.
End Num.

Example num_tests :
  Num.to_string (Num.of_decimal false 1 (-1)) = "0.1" /\
  Num.to_string (Num.of_Z 123456789012345678901234) = "1.2345678901234569e+23" /\
  Num.to_string (Num.of_Z 9007199254740993) = "9007199254740992" /\
  Num.to_string (Num.add (Num.of_decimal false 1 (-1)) (Num.of_decimal false 2 (-1)))
    = "0.30000000000000004" /\
  Num.to_string (Num.of_decimal true 15 (-9)) = "-1.5e-8" /\
  Num.to_fixed (Num.of_decimal false 1005 (-3)) 2 = "1.00" /\
  Num.to_fixed (Num.of_decimal false 25 (-1)) 0 = "3" /\
  Num.to_fixed (Num.div (Num.of_Z 12345678) (Num.of_Z 10000000)) 7 = "1.2345678" /\
  Num.to_locale2 (Num.of_Z 1234567) = Some "1,234,567.00" /\
  Num.to_Z (Num.of_Z (-42)) = Some (-42) /\
  Num.to_Z (Num.of_decimal false 15 (-1)) = None /\
  Num.to_string (Num.of_decimal false 5 (-324)) = "5e-324" /\
  Num.to_string (Num.of_Z (10 ^ 21)) = "1e+21" /\
  Num.to_string (Num.of_Z 120) = "120" /\ Num.to_string (Num.of_decimal false 12345 (-2)) = "123.45" /\
  Num.round (Num.of_decimal true 25 (-1)) = Num.of_Z (-2).
Proof. vm_compute. repeat split. Qed.

(** ** Exactness of small integers

    Up to [2^53] a bigint survives the conversion to a number unchanged: the lemma
    below is what lets the rest of the development move integer-valued fields between
    the two types. *)
Section Exactness.
Local Notation digits2 := digits2_pos.

Lemma digits2_lower m : 2 ^ (Zpos (digits2 m) - 1) <= Zpos m.
Proof.
induction m as [m IH|m IH|]; cbn [digits2_pos]; [| |done];
  rewrite Pos2Z.inj_succ; replace (Z.succ _ - 1) with (Z.succ (Zpos (digits2 m) - 1)) by lia;
  rewrite Z.pow_succ_r by lia; lia.
Qed.

Lemma digits2_upper m : Zpos m < 2 ^ Zpos (digits2 m).
Proof.
induction m as [m IH|m IH|]; cbn [digits2_pos]; [| |done];
  rewrite Pos2Z.inj_succ, Z.pow_succ_r by lia; lia.
Qed.

Lemma iter_xO_value (m : positive) d : Zpos (Pos.iter xO m d) = Zpos m * 2 ^ Zpos d.
Proof.
induction d as [|d IH] using Pos.peano_ind; [cbn; lia|].
rewrite Pos.iter_succ, Pos2Z.inj_xO, IH, Pos2Z.inj_succ, Z.pow_succ_r by lia. lia.
Qed.

Lemma iter_xO_digits (m : positive) d :
Zpos (digits2 (Pos.iter xO m d)) = Zpos (digits2 m) + Zpos d.
Proof.
induction d as [|d IH] using Pos.peano_ind; [cbn; lia|].
rewrite Pos.iter_succ. cbn [digits2_pos]. rewrite !Pos2Z.inj_succ, IH. lia.
Qed.

(** A 53-digit significand with an exponent in range is already canonical. *)
Lemma round_aux_canonical s m e :
Zpos (digits2 m) = 53 -> -1074 <= e -> e <= 971 ->
binary_round_aux Num.prec Num.emax s (Zpos m) e loc_Exact = S754_finite s m e.
Proof.
intros Hd Hlo Hhi.
assert (Hf : fexp Num.prec Num.emax (Zdigits2 (Zpos m) + e) - e = 0).
{ unfold fexp, emin, Num.prec, Num.emax, Zdigits2. lia. }
unfold binary_round_aux, shr_fexp. rewrite Hf. cbn [shr shr_record_of_loc shr_m].
cbn [loc_of_shr_record round_nearest_even]. rewrite Hf. cbn [shr shr_record_of_loc shr_m].
unfold Num.prec, Num.emax. destruct (Z.leb_spec e (1024 - 53)); [done|lia].
Qed.

Lemma round_small s m :
Zpos (digits2 m) <= 53 ->
exists mz ez, binary_round Num.prec Num.emax s m 0 = S754_finite s mz ez /\
  ez = Zpos (digits2 m) - 53 /\ Zpos mz = Zpos m * 2 ^ (- ez).
Proof.
intros Hd. unfold binary_round.
assert (Hf : fexp Num.prec Num.emax (Zpos (digits2 m) + 0) = Zpos (digits2 m) - 53).
{ unfold fexp, emin, Num.prec, Num.emax. lia. }
rewrite Hf. unfold shl_align. rewrite Z.sub_0_r.
destruct (Zpos (digits2 m) - 53) as [|p|p] eqn:Hs; [| lia |].
- exists m, 0. split; [apply round_aux_canonical; lia | split; [done | cbn; lia]].
- exists (Pos.iter xO m p), (Zneg p). split; [|split; [done|]].
  + apply round_aux_canonical; [rewrite iter_xO_digits|..]; lia.
  + rewrite iter_xO_value. done.
Qed.

Lemma exact_to_Z s m ez mz :
ez <= 0 -> Zpos mz = Zpos m * 2 ^ (- ez) ->
Num.to_Z (S754_finite s mz ez) = Some (cond_Zopp s (Zpos m)).
Proof.
intros He Hm. unfold Num.to_Z, Num.exact.
assert (Hpow : 0 < 2 ^ (- ez)) by (apply Z.pow_pos_nonneg; lia).
destruct (Z.leb_spec 0 ez).
- assert (ez = 0) as -> by lia. cbn in Hm. rewrite Z.mod_1_r, Z.div_1_r. cbn.
  f_equal. destruct s; cbn; lia.
- rewrite Z2Pos.id by lia.
  replace (cond_Zopp s (Zpos mz)) with (cond_Zopp s (Zpos m) * 2 ^ (- ez))
    by (destruct s; cbn [cond_Zopp]; rewrite Hm; lia).
  rewrite Z.mod_mul by lia. cbn. rewrite Z.div_mul by lia. done.
Qed.

Lemma digits2_small m : Zpos m < 2 ^ 53 -> Zpos (digits2 m) <= 53.
Proof.
intros Hm. pose proof (digits2_lower m).
destruct (Z.le_gt_cases (Zpos (digits2 m)) 53); [done|].
pose proof (Z.pow_le_mono_r 2 53 (Zpos (digits2 m) - 1) ltac:(lia) ltac:(lia)). lia.
Qed.
End Exactness.

(** A bigint of magnitude at most [2^53] converts to a number that denotes it. *)
Lemma of_Z_exact z : Z.abs z <= 2 ^ 53 -> Num.to_Z (Num.of_Z z) = Some z.
Proof.
  intros Hz. destruct (Z.eq_dec (Z.abs z) (2 ^ 53)) as [Heq|Hne].
  { assert (z = 2 ^ 53 \/ z = - 2 ^ 53) as [-> | ->] by lia; by vm_compute. }
  destruct z as [|m|m]; [done| |]; unfold Num.of_Z, binary_normalize.
  - destruct (round_small false m) as (mz & ez & -> & Hez & Hm); [apply digits2_small; lia|].
    pose proof (digits2_small m ltac:(lia)). by rewrite (exact_to_Z false m) by (lia || done).
  - destruct (round_small true m) as (mz & ez & -> & Hez & Hm); [apply digits2_small; lia|].
    pose proof (digits2_small m ltac:(lia)). by rewrite (exact_to_Z true m) by (lia || done).
Qed.

Lemma of_Z_is_integer z : Z.abs z <= 2 ^ 53 -> Num.is_integer (Num.of_Z z) = true.
Proof. intros Hz. unfold Num.is_integer. by rewrite of_Z_exact. Qed.

Lemma of_Z_inj a b :
  Z.abs a <= 2 ^ 53 -> Z.abs b <= 2 ^ 53 -> Num.of_Z a = Num.of_Z b -> a = b.
Proof.
  intros Ha Hb H. apply of_Z_exact in Ha, Hb. rewrite H, Hb in Ha. by injection Ha.
Qed.

(** ** Comparison of small integers *)
Lemma digits2_lt m1 m2 : Zpos (digits2_pos m1) < Zpos (digits2_pos m2) -> Zpos m1 < Zpos m2.
Proof.
  intros H. pose proof (digits2_upper m1). pose proof (digits2_lower m2).
  pose proof (Z.pow_le_mono_r 2 (Zpos (digits2_pos m1)) (Zpos (digits2_pos m2) - 1) ltac:(lia) ltac:(lia)).
  lia.
Qed.

(** Positive significands compare like the integers they stand for. *)
Lemma compare_scaled m1 m2 mz1 mz2 ez1 ez2 :
  ez1 = Zpos (digits2_pos m1) - 53 -> ez2 = Zpos (digits2_pos m2) - 53 ->
  ez1 <= 0 -> ez2 <= 0 ->
  Zpos mz1 = Zpos m1 * 2 ^ (- ez1) -> Zpos mz2 = Zpos m2 * 2 ^ (- ez2) ->
  match ez1 ?= ez2 with Lt => Lt | Gt => Gt | Eq => Pos.compare_cont Eq mz1 mz2 end = (Zpos m1 ?= Zpos m2).
Proof.
  intros He1 He2 H1 H2 Hm1 Hm2. destruct (Z.compare_spec ez1 ez2) as [E|E|E].
  - change (Pos.compare_cont Eq mz1 mz2) with (Zpos mz1 ?= Zpos mz2). rewrite Hm1, Hm2, E.
    symmetry. apply Zmult_compare_compat_r. rewrite <- E. apply Z.lt_gt, Z.pow_pos_nonneg; lia.
  - symmetry. apply Z.compare_lt_iff, digits2_lt. lia.
  - symmetry. apply Z.compare_gt_iff, digits2_lt. lia.
Qed.

Lemma of_Z_finite s m : Zpos m < 2 ^ 53 ->
  exists mz ez, Num.of_Z (cond_Zopp s (Zpos m)) = S754_finite s mz ez /\
    ez = Zpos (digits2_pos m) - 53 /\ ez <= 0 /\ Zpos mz = Zpos m * 2 ^ (- ez).
Proof.
  intros Hm. apply digits2_small in Hm.
  destruct (round_small s m Hm) as (mz & ez & E & He & Hz). exists mz, ez.
  split; [|split; [done | split; [lia | done]]]. by destruct s.
Qed.

Lemma of_Z_compare a b : Z.abs a < 2 ^ 53 -> Z.abs b < 2 ^ 53 ->
  SFcompare (Num.of_Z a) (Num.of_Z b) = Some (a ?= b).
Proof.
  intros Ha Hb.
  destruct a as [|m1|m1]; [| destruct (of_Z_finite false m1) as (z1 & e1 & E1 & He1 & Hn1 & Hz1); [lia|]
                           | destruct (of_Z_finite true m1) as (z1 & e1 & E1 & He1 & Hn1 & Hz1); [lia|]];
  (destruct b as [|m2|m2]; [| destruct (of_Z_finite false m2) as (z2 & e2 & E2 & He2 & Hn2 & Hz2); [lia|]
                           | destruct (of_Z_finite true m2) as (z2 & e2 & E2 & He2 & Hn2 & Hz2); [lia|]]);
  cbn [cond_Zopp] in *; try change (- Zpos m1) with (Zneg m1) in E1;
  try change (- Zpos m2) with (Zneg m2) in E2; try rewrite E1; try rewrite E2; try reflexivity.
  - pose proof (compare_scaled m1 m2 z1 z2 e1 e2 He1 He2 Hn1 Hn2 Hz1 Hz2) as H.
    cbn [SFcompare]. rewrite <- H. by destruct (e1 ?= e2).
  - pose proof (compare_scaled m1 m2 z1 z2 e1 e2 He1 He2 Hn1 Hn2 Hz1 Hz2) as H.
    cbn [SFcompare]. change (Zneg m1 ?= Zneg m2) with (CompOpp (Zpos m1 ?= Zpos m2)).
    rewrite <- H. by destruct (e1 ?= e2).
Qed.

Lemma of_Z_ltb a b : Z.abs a < 2 ^ 53 -> Z.abs b < 2 ^ 53 ->
  Num.ltb (Num.of_Z a) (Num.of_Z b) = (a <? b).
Proof.
  intros Ha Hb. unfold Num.ltb, SFltb. rewrite of_Z_compare by done. unfold Z.ltb. by destruct (a ?= b).
Qed.
Lemma of_Z_leb a b : Z.abs a < 2 ^ 53 -> Z.abs b < 2 ^ 53 ->
  Num.leb (Num.of_Z a) (Num.of_Z b) = (a <=? b).
Proof.
  intros Ha Hb. unfold Num.leb, SFleb. rewrite of_Z_compare by done. unfold Z.leb. by destruct (a ?= b).
Qed.

(** ** Integral results *)
Lemma shr_fexp_exp m e l : e <= (shr_fexp Num.prec Num.emax m e l).2.
Proof. unfold shr_fexp, shr. destruct (_ - e); cbn; lia. Qed.

Lemma round_aux_exp s m e l s' m' e' :
  binary_round_aux Num.prec Num.emax s m e l = S754_finite s' m' e' -> e <= e'.
Proof.
  unfold binary_round_aux. pose proof (shr_fexp_exp m e l) as H1.
  destruct (shr_fexp Num.prec Num.emax m e l) as [mrs e1]. cbn in H1.
  pose proof (shr_fexp_exp (round_nearest_even (shr_m mrs) (loc_of_shr_record mrs)) e1 loc_Exact) as H2.
  destruct (shr_fexp Num.prec Num.emax _ e1 loc_Exact) as [mrs' e2]. cbn in H2.
  destruct (shr_m mrs'); [done| |done]. destruct (e2 <=? _); [|done]. intros [= <- <- <-]. lia.
Qed.

Lemma to_Z_integral s m e : 0 <= e -> Num.to_Z (S754_finite s m e) = Some (cond_Zopp s (Zpos m * 2 ^ e)).
Proof.
  intros He. unfold Num.to_Z, Num.exact. destruct (Z.leb_spec 0 e); [|lia].
  by rewrite Z.mod_1_r, Z.div_1_r.
Qed.

Lemma binary_round_integral s m :
  Num.is_finite (binary_round Num.prec Num.emax s m 0) = true -> 2 ^ 53 <= Zpos m ->
  exists z, Num.to_Z (binary_round Num.prec Num.emax s m 0) = Some z.
Proof.
  intros Hf Hm. pose proof (digits2_upper m) as Hd.
  assert (53 < Zpos (digits2_pos m)).
  { destruct (Z.le_gt_cases (Zpos (digits2_pos m)) 53) as [Hle|]; [|done].
    pose proof (Z.pow_le_mono_r 2 _ _ ltac:(lia) Hle). lia. }
  unfold binary_round in *.
  assert (Ha : shl_align m 0 (fexp Num.prec Num.emax (Zpos (digits2_pos m) + 0)) = (m, 0)).
  { unfold shl_align. replace (fexp _ _ _ - 0) with (Zpos (digits2_pos m) - 53)
      by (unfold fexp, emin, Num.prec, Num.emax; lia).
    destruct (_ - 53) eqn:E; [done|done|lia]. }
  rewrite Ha in *. destruct (binary_round_aux Num.prec Num.emax s (Zpos m) 0 loc_Exact) as [b|b| |b m' e'] eqn:E;
    [by exists 0|done|done|]. apply round_aux_exp in E. eexists. by apply to_Z_integral.
Qed.

Lemma of_Z_integral z : Num.is_finite (Num.of_Z z) = true -> exists z', Num.to_Z (Num.of_Z z) = Some z'.
Proof.
  destruct (Z.le_gt_cases (Z.abs z) (2 ^ 53)); [intros _; exists z; by apply of_Z_exact|].
  destruct z as [|m|m]; [by exists 0| |]; intros Hf; apply binary_round_integral; [done|lia|done|lia].
Qed.

(** [Math.round] of a finite number is an integer, unless it overflows. *)
Lemma round_integral x : Num.is_finite (Num.round x) = true -> exists z, Num.to_Z (Num.round x) = Some z.
Proof.
  destruct x as [b|b| |s m e]; [by exists 0|done|done|]. unfold Num.round.
  destruct (Num.exact (S754_finite s m e)) as [[p q]|] eqn:E.
  - destruct (_ =? 0); [by exists 0|]. apply of_Z_integral.
  - unfold Num.exact in E. destruct (0 <=? e) in E; discriminate.
Qed.

(** ** [Math.max], [Math.min] and the order *)
(** [Math.max] and [Math.min]; the sources never compare two zeros of different signs. *)
Definition math_max (a b : num) : num :=
  if Num.is_nan a || Num.is_nan b then Num.nan else if Num.ltb a b then b else a.
Definition math_min (a b : num) : num :=
  if Num.is_nan a || Num.is_nan b then Num.nan else if Num.ltb b a then b else a.

Lemma compare_opp a b : SFcompare b a = CompOpp <$> SFcompare a b.
Proof.
  destruct a as [s|s| |s m e], b as [s'|s'| |s' m' e']; try done; try (by destruct s); try (by destruct s');
    try (by destruct s, s').
  pose proof (Pos.compare_cont_antisym m m' Eq) as Hm. cbn [CompOpp] in Hm.
  destruct s, s'; try done; cbn; rewrite (Z.compare_antisym e e'); destruct (e ?= e'); cbn; try done;
    rewrite <- Hm; by destruct (Pos.compare_cont Eq m m').
Qed.

Lemma leb_ltb a b : Num.is_nan a = false -> Num.is_nan b = false -> Num.leb a b = negb (Num.ltb b a).
Proof.
  intros Ha Hb. unfold Num.leb, Num.ltb, SFleb, SFltb. rewrite compare_opp.
  assert (exists c, SFcompare b a = Some c) as [c ->].
  { destruct a as [s|s| |s m e], b as [s'|s'| |s' m' e']; try done; cbn;
      try (by eexists); try (destruct s; by eexists); try (destruct s'; by eexists); try (destruct s, s'; by eexists). }
  by destruct c.
Qed.

Lemma max_nan a b : Num.is_nan a = false -> Num.is_nan b = false -> Num.is_nan (math_max a b) = false.
Proof. intros Ha Hb. unfold math_max. rewrite Ha, Hb. cbn. by case_match. Qed.

Lemma leb_refl a : Num.is_nan a = false -> Num.leb a a = true.
Proof.
  intros Ha. rewrite leb_ltb by done. unfold Num.ltb, SFltb.
  pose proof (compare_opp a a) as H. by destruct (SFcompare a a) as [[]|].
Qed.

Lemma max_leb a b : Num.is_nan a = false -> Num.is_nan b = false ->
  Num.leb b (math_max a b) = true.
Proof.
  intros Ha Hb. unfold math_max. rewrite Ha, Hb. cbn [orb].
  destruct (Num.ltb a b) eqn:H; [by apply leb_refl|]. by rewrite leb_ltb, H.
Qed.
