(* ===== verification/JsRounding.v ===== *)
(** * What rounding does to numbers

    The operations of [JsNumber.v] round their exact result to 53 bits.  This file gives
    a number its value as a rational and shows what every caller relies on: the result is
    one of the two neighbours of the exact value on a grid of powers of two, so it never
    crosses a number that is itself representable, and its relative error is below
    [2 ^ -52].  The operations are those on finite numbers with a non-negative result. *)

From Stdlib Require Import SpecFloat QArith Qpower Lqa.
From S2P Require Import Prelude JsNumber.
Local Open Scope Z_scope.

(** ** Powers of two and values *)
Definition pow2 (e : Z) : Q := Qpower (2 # 1) e.

Lemma pow2_pos e : (0 < pow2 e)%Q.
Proof. by apply Qpower_0_lt. Qed.
Lemma pow2_add a b : (pow2 (a + b) == pow2 a * pow2 b)%Q.
Proof. by apply Qpower_plus. Qed.
Lemma pow2_Z e : 0 <= e -> (pow2 e == inject_Z (2 ^ e))%Q.
Proof. intros He. symmetry. by apply (Zpower_Qpower 2 e). Qed.
Lemma pow2_split a b : a <= b -> (pow2 b == inject_Z (2 ^ (b - a)) * pow2 a)%Q.
Proof. intros H. rewrite <- pow2_Z by lia. rewrite <- pow2_add. by replace (b - a + a) with b by lia. Qed.
Lemma pow2_le a b : a <= b -> (pow2 a <= pow2 b)%Q.
Proof.
  intros H. rewrite (pow2_split a b H). pose proof (pow2_pos a).
  assert (1 <= 2 ^ (b - a)) as H1 by (apply (Z.pow_le_mono_r 2 0); lia).
  rewrite Zle_Qle in H1. change (inject_Z 1) with 1%Q in H1. nra.
Qed.

Lemma inject_pos z : 0 < z -> (0 < inject_Z z)%Q.
Proof. intros H. change 0%Q with (inject_Z 0). by rewrite <- Zlt_Qlt. Qed.
Lemma inject_nonneg z : 0 <= z -> (0 <= inject_Z z)%Q.
Proof. intros H. change 0%Q with (inject_Z 0). by rewrite <- Zle_Qle. Qed.

(** The value of a finite number. *)
Definition value (x : num) : Q :=
  match x with
  | S754_finite s m e => inject_Z (cond_Zopp s (Zpos m)) * pow2 e
  | _ => 0
  end.

(** Numbers as the operations produce them. *)
Definition valid (x : num) : Prop := valid_binary Num.prec Num.emax x = true.
Abbreviation fexp64 := (fexp Num.prec Num.emax).

Lemma fexp64_eq e : fexp64 e = Z.max (e - 53) (-1074).
Proof. reflexivity. Qed.

(** ** Locations *)
(** [x] lies between [m] and [m + 1] in units of [2 ^ e], and [l] tells if it is [m], or on
    which side of the middle it is. *)
Definition placed (x : Q) (m e : Z) (l : location) : Prop :=
  match l with
  | loc_Exact => (x == inject_Z m * pow2 e)%Q
  | loc_Inexact c => (inject_Z m * pow2 e < x)%Q /\ (x ?= (inject_Z m + (1 # 2)) * pow2 e)%Q = c
  end.
Record located (x : Q) (m e : Z) (l : location) : Prop := {
  loc_low : (inject_Z m * pow2 e <= x)%Q;
  loc_high : (x < inject_Z (m + 1) * pow2 e)%Q;
  loc_place : placed x m e l }.

Lemma located_eq x y m e l : (x == y)%Q -> located x m e l -> located y m e l.
Proof.
  intros E [Hl Hh Hx]. split; [by rewrite <- E|by rewrite <- E|].
  destruct l as [|c]; cbn [placed] in *; rewrite <- E; done.
Qed.

Definition inexact (r : shr_record) : bool := shr_r r || shr_s r.
Abbreviation record_loc := loc_of_shr_record.

Lemma record_of_loc m l : shr_m (shr_record_of_loc m l) = m /\ record_loc (shr_record_of_loc m l) = l.
Proof. by destruct l as [|[]]. Qed.

Lemma placed_inexact x r e : placed x (shr_m r) e (record_loc r) ->
  if inexact r then (inject_Z (shr_m r) * pow2 e < x)%Q else (x == inject_Z (shr_m r) * pow2 e)%Q.
Proof. destruct r as [m [] []]; cbn; intros H; apply H. Qed.

Lemma shr_1_m r : 0 <= shr_m r -> shr_m (shr_1 r) = shr_m r / 2.
Proof.
  intros Hm. rewrite <- Z.div2_div. destruct r as [[|p|p] a b]; [done| |easy]. by destruct p.
Qed.
Lemma shr_1_loc r : 0 <= shr_m r -> record_loc (shr_1 r) =
  if Z.even (shr_m r) then (if inexact r then loc_Inexact Lt else loc_Exact)
  else loc_Inexact (if inexact r then Gt else Eq).
Proof. destruct r as [[|p|p] a b]; cbn; [by destruct a, b| |lia]; intros _. by destruct p, a, b. Qed.

Lemma shr_1_located x r e : 0 <= shr_m r -> located x (shr_m r) e (record_loc r) ->
  located x (shr_m (shr_1 r)) (e + 1) (record_loc (shr_1 r)).
Proof.
  intros Hm [Hl Hh He]. apply placed_inexact in He. rewrite shr_1_m, shr_1_loc by done.
  pose proof (pow2_add e 1) as Hp. change (pow2 1) with (2 # 1)%Q in Hp. pose proof (pow2_pos e) as H0.
  rewrite Zeven_mod. pose proof (Z.div_mod (shr_m r) 2 ltac:(lia)) as Hd.
  pose proof (Z.mod_pos_bound (shr_m r) 2 ltac:(lia)) as Hb.
  set (q := shr_m r / 2) in *. set (t := shr_m r mod 2) in *.
  assert (Hq : (inject_Z (shr_m r) == 2 * inject_Z q + inject_Z t)%Q).
  { rewrite Hd at 1. rewrite inject_Z_plus, inject_Z_mult. reflexivity. }
  rewrite inject_Z_plus in Hh. change (inject_Z 1) with 1%Q in Hh.
  assert (t = 0 \/ t = 1) as [Ht|Ht] by lia; rewrite Ht in *;
    change (inject_Z 0) with 0%Q in Hq; change (inject_Z 1) with 1%Q in Hq;
    (split; [destruct (inexact r); nra|rewrite inject_Z_plus; change (inject_Z 1) with 1%Q; destruct (inexact r); nra|]);
    cbn [Z.eqb Pos.eqb]; destruct (inexact r); cbn [placed].
  - rewrite Hq in He, Hh. rewrite Hp. split; [lra|]. apply (proj1 (Qlt_alt _ _)). lra.
  - rewrite He, Hp, Hq. ring.
  - rewrite Hq in He. rewrite Hp. split; [lra|]. apply (proj1 (Qgt_alt _ _)). lra.
  - rewrite Hq in He. rewrite Hp. split; [lra|]. apply (proj1 (Qeq_alt _ _)). rewrite He. ring.
Qed.

Lemma iter_pos_succ {A} (f : A -> A) p : forall x, SpecFloat.iter_pos f (Pos.succ p) x = f (SpecFloat.iter_pos f p x).
Proof.
  assert (Hc : forall p x, SpecFloat.iter_pos f p (f x) = f (SpecFloat.iter_pos f p x)).
  { clear. induction p as [p IH|p IH|]; intros x; cbn; [by rewrite !IH|by rewrite !IH|done]. }
  induction p as [p IH|p IH|]; intros x; [| |done].
  - change (SpecFloat.iter_pos f (Pos.succ p) (SpecFloat.iter_pos f (Pos.succ p) x) =
            f (SpecFloat.iter_pos f p (SpecFloat.iter_pos f p (f x)))).
    by rewrite !IH, !Hc.
  - change (SpecFloat.iter_pos f p (SpecFloat.iter_pos f p (f x)) =
            f (SpecFloat.iter_pos f p (SpecFloat.iter_pos f p x))).
    by rewrite !Hc.
Qed.

Lemma shr_located x r e n : 0 <= n -> 0 <= shr_m r -> located x (shr_m r) e (record_loc r) ->
  let '(r', e') := shr r e n in
  e' = e + n /\ shr_m r' = shr_m r / 2 ^ n /\ located x (shr_m r') e' (record_loc r').
Proof.
  intros Hn Hm Hl. destruct n as [|n|n]; [cbn; by rewrite Z.div_1_r, Z.add_0_r| |lia].
  cbn [shr]. split; [done|]. induction n as [|n IH] using Pos.peano_ind.
  - cbn [SpecFloat.iter_pos]. split; [by rewrite shr_1_m|by apply shr_1_located].
  - destruct IH as [IHm IHl]; [lia|]. rewrite iter_pos_succ.
    assert (0 <= shr_m r / 2 ^ Zpos n) by (apply Z.div_pos; lia).
    rewrite shr_1_m by (by rewrite IHm). split.
    + rewrite IHm, Pos2Z.inj_succ, Z.pow_succ_r, Z.div_div, (Z.mul_comm 2) by lia. done.
    + rewrite Pos2Z.inj_succ. replace (e + Z.succ (Zpos n)) with (e + Zpos n + 1) by lia.
      rewrite <- shr_1_m by (by rewrite IHm). apply shr_1_located; [by rewrite IHm|done].
Qed.

Lemma digits_bounds m : 0 < m -> 2 ^ (Zdigits2 m - 1) <= m < 2 ^ Zdigits2 m /\ 0 < Zdigits2 m.
Proof. destruct m as [|m|m]; [done| |done]. intros _. pose proof (digits2_lower m). pose proof (digits2_upper m). by cbn. Qed.
Lemma digits_unique m d : 0 < d -> 2 ^ (d - 1) <= m < 2 ^ d -> Zdigits2 m = d.
Proof.
  intros Hd Hm. assert (0 < 2 ^ (d - 1)) by lia. destruct (digits_bounds m) as [Hb H0]; [lia|].
  apply Z.le_antisymm.
  - assert (Zdigits2 m - 1 < d); [|lia]. apply (Z.pow_lt_mono_r_iff 2); lia.
  - assert (d - 1 < Zdigits2 m); [|lia]. apply (Z.pow_lt_mono_r_iff 2); lia.
Qed.
Lemma digits_le m d : 0 <= m < 2 ^ d -> 0 <= d -> Zdigits2 m <= d.
Proof.
  intros Hm Hd. destruct (Z.eq_dec m 0) as [->|]; [done|]. destruct (digits_bounds m) as [Hb H0]; [lia|].
  assert (Zdigits2 m - 1 < d); [|lia]. apply (Z.pow_lt_mono_r_iff 2); lia.
Qed.
Lemma digits_nonneg m : 0 <= Zdigits2 m.
Proof. by destruct m. Qed.

(** The first shift leaves at most 53 digits, at the exponent of the format. *)
Lemma shr_fexp_spec x m e l : 0 <= m -> e <= fexp64 (Zdigits2 m + e) -> located x m e l ->
  let '(r, e1) := shr_fexp Num.prec Num.emax m e l in
  e1 = fexp64 (Zdigits2 m + e) /\ 0 <= shr_m r < 2 ^ 53 /\ located x (shr_m r) e1 (record_loc r) /\
  (e1 = -1074 \/ 2 ^ 52 <= shr_m r).
Proof.
  intros Hm He Hl. unfold shr_fexp. set (n := fexp64 (Zdigits2 m + e) - e).
  destruct (record_of_loc m l) as [Hrm Hre].
  pose proof (shr_located x (shr_record_of_loc m l) e n ltac:(lia) ltac:(by rewrite Hrm)) as H.
  rewrite Hrm, Hre in H. specialize (H Hl). destruct (shr _ e n) as [r e1]. destruct H as (-> & Hr & Hloc).
  split; [lia|]. assert (Hn : n = Z.max (Zdigits2 m + e - 53) (-1074) - e) by done.
  rewrite fexp64_eq in He. clearbody n. rewrite Hr. pose proof (digits_nonneg m).
  destruct (Z.eq_dec m 0) as [->|Hm0].
  { rewrite Z.div_0_l by (apply Z.pow_nonzero; lia). rewrite Hr, Z.div_0_l in Hloc by (apply Z.pow_nonzero; lia).
    split; [lia|]. split; [done|]. left. change (Zdigits2 0) with 0 in *. lia. }
  destruct (digits_bounds m) as [Hb H0]; [lia|]. rewrite Hr in Hloc.
  assert (Hp : 0 < 2 ^ n) by (apply Z.pow_pos_nonneg; lia).
  split; [split; [by apply Z.div_pos|]|split; [done|]].
  - apply Z.div_lt_upper_bound; [done|]. rewrite <- Z.pow_add_r by lia.
    eapply Z.lt_le_trans; [apply Hb|]. apply Z.pow_le_mono_r; lia.
  - destruct (Z.eq_dec (e + n) (-1074)); [by left|right].
    apply Z.div_le_lower_bound; [done|]. rewrite <- Z.pow_add_r by lia.
    etransitivity; [|apply Hb]. apply Z.pow_le_mono_r; lia.
Qed.

(** ** Rounding *)
(** [k] is a neighbour of [x] on the grid of [2 ^ e], and [x] itself if it is on the grid;
    the grid has at least 53 digits for [x], unless it is the finest one. *)
Record neighbour (x : Q) (e k : Z) : Prop := {
  nb_exp : -1074 <= e;
  nb_range : 0 <= k <= 2 ^ 53;
  nb_fine : e = -1074 \/ (inject_Z (2 ^ 52) * pow2 e <= x)%Q;
  nb_above : forall f, (inject_Z f * pow2 e <= x)%Q -> f <= k;
  nb_below : forall f, (x <= inject_Z f * pow2 e)%Q -> k <= f;
  nb_close_low : (inject_Z k * pow2 e - pow2 e < x)%Q;
  nb_close_high : (x < inject_Z k * pow2 e + pow2 e)%Q;
  nb_near_low : (inject_Z k * pow2 e - pow2 e * (1 # 2) <= x)%Q;
  nb_near_high : (x <= inject_Z k * pow2 e + pow2 e * (1 # 2))%Q }.

(** The number [r] of sign [s] stands for [k] on the grid of [2 ^ e]. *)
Definition stands_for (e k : Z) (s : bool) (r : num) : Prop :=
  match r with
  | S754_finite s' m e' => s' = s /\ (inject_Z (Zpos m) * pow2 e' == inject_Z k * pow2 e)%Q /\ valid r
  | S754_zero s' => s' = s /\ k = 0
  | S754_infinity s' => s' = s /\ (pow2 1024 <= inject_Z k * pow2 e)%Q
  | S754_nan => False
  end.
Definition rounded (x : Q) (s : bool) (r : num) : Prop := exists e k, neighbour x e k /\ stands_for e k s r.

Lemma scaled_le a b e : (inject_Z a * pow2 e <= inject_Z b * pow2 e)%Q <-> a <= b.
Proof. rewrite (Zle_Qle a b). pose proof (pow2_pos e). split; intros; nra. Qed.
Lemma scaled_lt a b e : (inject_Z a * pow2 e < inject_Z b * pow2 e)%Q <-> a < b.
Proof. rewrite (Zlt_Qlt a b). pose proof (pow2_pos e). split; intros; nra. Qed.

Lemma located_neighbour x m e l : 0 <= m < 2 ^ 53 -> -1074 <= e -> (e = -1074 \/ 2 ^ 52 <= m) ->
  located x m e l -> neighbour x e (round_nearest_even m l).
Proof.
  intros Hm He Hf [Hl Hh Hx]. pose proof (pow2_pos e) as Hp.
  assert (Hm1 : (inject_Z (m + 1) == inject_Z m + 1)%Q) by (rewrite inject_Z_plus; reflexivity).
  assert (Hup : forall f, (inject_Z f * pow2 e <= x)%Q -> f <= m).
  { intros f H. apply Z.lt_succ_r. change (Z.succ m) with (m + 1). apply (scaled_lt _ _ e). lra. }
  assert (Hdown : forall f, (x <= inject_Z f * pow2 e)%Q -> m <= f).
  { intros f H. apply (scaled_le _ _ e). lra. }
  assert (Hfine : e = -1074 \/ (inject_Z (2 ^ 52) * pow2 e <= x)%Q).
  { destruct Hf as [->|Hf]; [by left|right]. apply (scaled_le _ _ e) in Hf. lra. }
  assert ((round_nearest_even m l = m /\ (x <= inject_Z m * pow2 e + pow2 e * (1 # 2))%Q) \/
          (round_nearest_even m l = m + 1 /\ (inject_Z m * pow2 e < x)%Q /\
           (inject_Z m * pow2 e + pow2 e * (1 # 2) <= x)%Q)) as [[-> Hn]|[-> [Hne Hn]]].
  { destruct l as [|[]]; cbn [placed round_nearest_even] in *.
    - left. split; [done|]. lra.
    - destruct Hx as [Hx Hc%Qeq_alt]. destruct (Z.even m); [left|right]; (split; [done|]); [lra|split; [done|lra]].
    - destruct Hx as [Hx Hc%Qlt_alt]. left. split; [done|]. lra.
    - destruct Hx as [Hx Hc%Qgt_alt]. right. split; [done|]. split; [done|]. lra. }
  - split; try done; [lia|lra| |lra]. rewrite Hm1 in Hh. lra.
  - split; try done; [lia| | | | | |].
    + intros f H. specialize (Hup f H). lia.
    + intros f H. apply Z.le_succ_l. apply (scaled_lt _ _ e). lra.
    + rewrite Hm1. lra.
    + lra.
    + rewrite Hm1. lra.
    + lra.
Qed.

Lemma valid_finite s m e : valid (S754_finite s m e) <-> fexp64 (Zdigits2 (Zpos m) + e) = e /\ e <= 971.
Proof.
  unfold valid, valid_binary, bounded, canonical_mantissa. rewrite andb_true_iff, Z.eqb_eq, Z.leb_le. reflexivity.
Qed.

Lemma pow2_scaled a k e n : 0 <= a -> 2 ^ a <= k -> n <= a + e -> (pow2 n <= inject_Z k * pow2 e)%Q.
Proof.
  intros Ha Hk Hn. apply Qle_trans with (pow2 (a + e)); [by apply pow2_le|].
  rewrite pow2_add, (pow2_Z a) by done. by apply scaled_le.
Qed.

(** The second shift only undoes a carry. *)
Lemma carry_spec k e1 : 0 <= k <= 2 ^ 53 -> -1074 <= e1 -> (e1 = -1074 \/ 2 ^ 52 <= k) -> forall s,
  stands_for e1 k s
    (let '(mrs, e2) := shr_fexp Num.prec Num.emax k e1 loc_Exact in
     match shr_m mrs with
     | Z0 => S754_zero s
     | Zpos m => if Z.leb e2 971 then S754_finite s m e2 else S754_infinity s
     | _ => S754_nan
     end).
Proof.
  intros Hk He Hf s. unfold shr_fexp. cbn [shr_record_of_loc]. destruct (Z.eq_dec k (2 ^ 53)) as [->|Hmax].
  - replace (fexp64 (Zdigits2 (2 ^ 53) + e1) - e1) with 1
      by (rewrite fexp64_eq; change (Zdigits2 (2 ^ 53)) with 54; lia).
    change (shr {| shr_m := 2 ^ 53; shr_r := false; shr_s := false |} e1 1)
      with ({| shr_m := 2 ^ 52; shr_r := false; shr_s := false |}, e1 + 1).
    cbn iota beta. change (shr_m _) with (Zpos (2 ^ 52)). destruct (Z.leb_spec (e1 + 1) 971).
    + split; [done|]. split.
      * rewrite pow2_add. change (pow2 1) with (inject_Z 2). rewrite (Qmult_comm (pow2 e1)), Qmult_assoc.
        rewrite <- inject_Z_mult. reflexivity.
      * apply valid_finite. rewrite fexp64_eq. change (Zdigits2 _) with 53. lia.
    + split; [done|]. apply (pow2_scaled 53); lia.
  - assert (Hd : Zdigits2 k <= 53) by (apply digits_le; lia).
    assert (Hs : shr {| shr_m := k; shr_r := false; shr_s := false |} e1 (fexp64 (Zdigits2 k + e1) - e1) =
                 ({| shr_m := k; shr_r := false; shr_s := false |}, e1)).
    { rewrite fexp64_eq. destruct (_ - e1) eqn:E; [done|lia|done]. }
    rewrite Hs. cbn iota beta. cbn [shr_m]. destruct k as [|k|k]; [by split| |lia].
    destruct (Z.leb_spec e1 971).
    + split; [done|]. split; [reflexivity|]. apply valid_finite. rewrite fexp64_eq.
      destruct Hf as [->|Hf]; [lia|]. rewrite (digits_unique (Zpos k) 53) by (rewrite ?Z.sub_1_r; cbn; lia). lia.
    + split; [done|]. destruct Hf as [->|Hf]; [lia|]. apply (pow2_scaled 52); lia.
Qed.

Lemma round_aux_spec x s m e l : 0 <= m -> e <= fexp64 (Zdigits2 m + e) -> located x m e l ->
  rounded x s (binary_round_aux Num.prec Num.emax s m e l).
Proof.
  intros Hm He Hl. unfold binary_round_aux. pose proof (shr_fexp_spec x m e l Hm He Hl) as H1.
  destruct (shr_fexp Num.prec Num.emax m e l) as [r e1]. destruct H1 as (He1 & Hr & Hloc & Hf).
  rewrite fexp64_eq in He1.
  pose proof (located_neighbour x (shr_m r) e1 _ Hr ltac:(lia) Hf Hloc) as Hn.
  exists e1, (round_nearest_even (shr_m r) (loc_of_shr_record r)). split; [done|].
  apply carry_spec; [apply Hn|apply Hn|]. destruct (nb_fine _ _ _ Hn) as [|H]; [by left|right]. by apply (nb_above _ _ _ Hn).
Qed.

(** ** The operations *)
(** Finite, not negative, and as an operation produces it. *)
Definition plain (x : num) : Prop :=
  match x with S754_zero false => True | S754_finite false m e => valid x | _ => False end.

Lemma zero_plain : plain Num.zero.
Proof. done. Qed.

Lemma rounded_zero : rounded 0 false Num.zero.
Proof.
  exists (-1074), 0. split; [|done]. pose proof (pow2_pos (-1074)).
  assert (E : (inject_Z 0 * pow2 (-1074) == 0)%Q) by (apply Qmult_0_l).
  split; [lia|lia|by left| | |lra|lra|lra|lra]; intros f Hf; apply (scaled_le _ _ (-1074)); lra.
Qed.

Lemma neighbour_eq x y e k : (x == y)%Q -> neighbour x e k -> neighbour y e k.
Proof.
  intros E [? ? Hf Ha Hb Hl Hh Hnl Hnh]. split; try done; rewrite <- ?E; try done.
  - intros f. rewrite <- E. apply Ha.
  - intros f. rewrite <- E. apply Hb.
Qed.
#[export] Instance rounded_proper : Proper (Qeq ==> eq ==> eq ==> iff) rounded.
Proof.
  intros x y E s _ <- r _ <-. unfold rounded. split; intros (e & k & Hn & Hs); exists e, k; (split; [|done]).
  - by eapply neighbour_eq.
  - by eapply neighbour_eq; [symmetry|].
Qed.

Lemma located_exact m e : 0 <= m -> located (inject_Z m * pow2 e) m e loc_Exact.
Proof. intros Hm. split; [lra|apply scaled_lt; lia|reflexivity]. Qed.

Lemma valid_digits s m e : valid (S754_finite s m e) -> e = Z.max (Zdigits2 (Zpos m) + e - 53) (-1074).
Proof. intros [H _]%valid_finite. by rewrite fexp64_eq in H. Qed.

Lemma digits_mul a b : 0 < a -> 0 < b -> Zdigits2 a + Zdigits2 b - 1 <= Zdigits2 (a * b).
Proof.
  intros Ha Hb. destruct (digits_bounds a Ha) as [[Ha1 _] Ha2], (digits_bounds b Hb) as [[Hb1 _] Hb2].
  destruct (digits_bounds (a * b)) as [[_ H] _]; [lia|]. apply Z.lt_succ_r.
  assert (Zdigits2 a + Zdigits2 b - 2 < Zdigits2 (a * b)); [|lia]. apply (Z.pow_lt_mono_r_iff 2); [lia|apply digits_nonneg|].
  eapply Z.le_lt_trans; [|exact H]. replace (_ + _ - 2) with ((Zdigits2 a - 1) + (Zdigits2 b - 1)) by lia.
  rewrite Z.pow_add_r by lia. apply Z.mul_le_mono_nonneg; lia.
Qed.

Lemma mul_rounded x y : plain x -> plain y -> rounded (value x * value y) false (Num.mul x y).
Proof.
  destruct x as [[]|?| |[] m1 e1]; try done; destruct y as [[]|?| |[] m2 e2]; try done; cbn [plain];
    intros Hx Hy; cbn [Num.mul SFmul xorb value cond_Zopp];
    try (rewrite ?Qmult_0_l, ?Qmult_0_r; apply rounded_zero).
  unfold Num.mul, SFmul. cbn [xorb].
  assert (E : (inject_Z (Zpos m1) * pow2 e1 * (inject_Z (Zpos m2) * pow2 e2) ==
               inject_Z (Zpos (m1 * m2)) * pow2 (e1 + e2))%Q).
  { rewrite pow2_add, Pos2Z.inj_mul, inject_Z_mult. ring. }
  rewrite E. apply round_aux_spec; [done| |by apply located_exact].
  apply valid_digits in Hx, Hy. pose proof (digits_mul (Zpos m1) (Zpos m2) ltac:(lia) ltac:(lia)).
  rewrite fexp64_eq, Pos2Z.inj_mul. pose proof (digits_bounds (Zpos m1)). pose proof (digits_bounds (Zpos m2)). lia.
Qed.

Lemma new_location_spec n r : 0 <= r -> 0 < n ->
  new_location n r = if r =? 0 then loc_Exact else loc_Inexact (2 * r ?= n).
Proof.
  intros Hr Hn. unfold new_location, new_location_even, new_location_odd. rewrite Zeven_mod.
  pose proof (Z.div_mod n 2 ltac:(lia)). pose proof (Z.mod_pos_bound n 2 ltac:(lia)).
  destruct (Z.eqb_spec (n mod 2) 0); [done|]. destruct (r =? 0); [done|]. f_equal.
  destruct (Z.compare_spec (2 * r + 1) n), (Z.compare_spec (2 * r) n); try done; lia.
Qed.

Lemma digits_mono a b : 0 <= a <= b -> Zdigits2 a <= Zdigits2 b.
Proof.
  intros H. destruct (Z.eq_dec a 0) as [->|]; [apply digits_nonneg|].
  destruct (digits_bounds b) as [Hb H0]; [lia|]. apply digits_le; lia.
Qed.

Lemma digits_shift m s : 0 < m -> 0 <= s -> Zdigits2 (m * 2 ^ s) = Zdigits2 m + s.
Proof.
  intros Hm Hs. destruct (digits_bounds m Hm) as [[Hl Hh] H0]. apply digits_unique; [lia|].
  replace (Zdigits2 m + s - 1) with (Zdigits2 m - 1 + s) by lia. rewrite !Z.pow_add_r by lia.
  assert (0 < 2 ^ s) by (apply Z.pow_pos_nonneg; lia). nia.
Qed.

(** A quotient has at least as many digits as the difference, so it is rounded once. *)
Lemma digits_div a b : 0 < a -> 0 < b -> Zdigits2 a - Zdigits2 b <= Zdigits2 (a / b).
Proof.
  intros Ha Hb. destruct (Z.le_gt_cases (Zdigits2 a - Zdigits2 b) 0); [pose proof (digits_nonneg (a / b)); lia|].
  destruct (digits_bounds a Ha) as [[Hl _] _], (digits_bounds b Hb) as [[_ Hh] H0].
  assert (Hq : 2 ^ (Zdigits2 a - Zdigits2 b - 1) <= a / b).
  { apply Z.div_le_lower_bound; [done|]. etransitivity; [|exact Hl].
    replace (Zdigits2 a - 1) with (Zdigits2 b + (Zdigits2 a - Zdigits2 b - 1)) by lia.
    rewrite Z.pow_add_r by lia. apply Z.mul_le_mono_nonneg_r; [|lia]. apply Z.pow_nonneg. lia. }
  assert (H1 : 0 < 2 ^ (Zdigits2 a - Zdigits2 b - 1)) by (apply Z.pow_pos_nonneg; lia).
  destruct (digits_bounds (a / b)) as [[_ Hd] _]; [lia|].
  assert (Zdigits2 a - Zdigits2 b - 1 < Zdigits2 (a / b)); [|lia].
  apply (Z.pow_lt_mono_r_iff 2); [lia|apply digits_nonneg|lia].
Qed.

Lemma located_div a b e : 0 <= a -> 0 < b ->
  located (inject_Z a / inject_Z b * pow2 e) (a / b) e (new_location b (a mod b)).
Proof.
  intros Ha Hb. pose proof (Z.div_mod a b ltac:(lia)) as Hd. pose proof (Z.mod_pos_bound a b Hb) as Hm.
  rewrite new_location_spec by lia. set (q := a / b) in *. set (r := a mod b) in *. pose proof (pow2_pos e) as Hp.
  pose proof (inject_pos b Hb) as HB. set (f := (inject_Z r / inject_Z b)%Q).
  assert (Hf : (f * inject_Z b == inject_Z r)%Q) by (unfold f; field; lra).
  assert (Hx : (inject_Z a / inject_Z b == inject_Z q + f)%Q).
  { rewrite Hd at 1. rewrite inject_Z_plus, inject_Z_mult. unfold f. field. lra. }
  assert (Hr : (0 <= inject_Z r < inject_Z b)%Q) by (split; [apply inject_nonneg; lia|rewrite <- Zlt_Qlt; lia]).
  assert (Hr0 : (0 <= f)%Q) by nra. assert (Hr1 : (f < 1)%Q) by nra.
  eapply located_eq; [symmetry; by rewrite Hx|]. split; [nra|rewrite inject_Z_plus; change (inject_Z 1) with 1%Q; nra|].
  destruct (Z.eqb_spec r 0) as [Hr00|Hne]; cbn [placed].
  - rewrite Hr00 in Hf. change (inject_Z 0) with 0%Q in Hf. assert (f == 0)%Q as -> by nra. ring.
  - assert (Hpos : (0 < inject_Z r)%Q) by (apply inject_pos; lia). split; [nra|].
    assert (H2 : (inject_Z (2 * r) == 2 * inject_Z r)%Q) by (rewrite inject_Z_mult; reflexivity).
    destruct (Z.compare_spec (2 * r) b) as [E|E|E].
    + apply (proj1 (Qeq_alt _ _)). rewrite <- E in Hf, HB. rewrite H2 in Hf, HB. assert (f == 1 # 2)%Q as -> by nra. ring.
    + apply (proj1 (Qlt_alt _ _)). rewrite Zlt_Qlt, H2 in E. nra.
    + apply (proj1 (Qgt_alt _ _)). rewrite Zlt_Qlt, H2 in E. nra.
Qed.

Lemma div_core_rounded m1 e1 m2 e2 : 0 < m1 -> 0 < m2 ->
  rounded (inject_Z m1 * pow2 e1 / (inject_Z m2 * pow2 e2)) false
    (let '(m, e, l) := SFdiv_core_binary Num.prec Num.emax m1 e1 m2 e2 in
     binary_round_aux Num.prec Num.emax false m e l).
Proof.
  intros H1 H2. unfold SFdiv_core_binary. rewrite fexp64_eq.
  set (e := Z.min _ _). set (s := e1 - e2 - e).
  assert (Hs : 0 <= s) by lia.
  replace (match s with 0 => m1 | Zpos _ => Z.shiftl m1 s | Zneg _ => 0 end) with (m1 * 2 ^ s).
  2:{ destruct s as [|s|s]; [by rewrite Z.mul_1_r|by rewrite Z.shiftl_mul_pow2|lia]. }
  assert (Hp : 0 < 2 ^ s) by (apply Z.pow_pos_nonneg; lia).
  destruct (Z.div_eucl (m1 * 2 ^ s) m2) as [q r] eqn:E.
  assert (q = m1 * 2 ^ s / m2) as -> by (unfold Z.div; by rewrite E).
  assert (r = (m1 * 2 ^ s) mod m2) as -> by (unfold Z.modulo; by rewrite E).
  assert (Hx : (inject_Z m1 * pow2 e1 / (inject_Z m2 * pow2 e2) ==
                inject_Z (m1 * 2 ^ s) / inject_Z m2 * pow2 e)%Q).
  { rewrite inject_Z_mult, <- pow2_Z by done. replace e1 with (s + e + e2) by lia. rewrite !pow2_add.
    pose proof (pow2_pos e2). pose proof (inject_pos m2 H2).
    field. lra. }
  rewrite Hx. apply round_aux_spec.
  - apply Z.div_pos; lia.
  - pose proof (digits_div (m1 * 2 ^ s) m2 ltac:(lia) H2) as Hd. rewrite digits_shift in Hd by lia.
    rewrite fexp64_eq. lia.
  - apply located_div; lia.
Qed.

Lemma div_rounded x y : plain x -> plain y -> (0 < value y)%Q -> rounded (value x / value y) false (Num.div x y).
Proof.
  destruct x as [[]|?| |[] m1 e1]; try done; destruct y as [[]|?| |[] m2 e2]; try done; cbn [plain];
    intros Hx Hy Hv; cbn [value cond_Zopp] in *; try (by apply Qlt_irrefl in Hv).
  - unfold Qdiv. rewrite Qmult_0_l. apply rounded_zero.
  - unfold Num.div, SFdiv. cbn [xorb]. by apply div_core_rounded.
Qed.

Lemma of_ratio_rounded p q : rounded (Zpos p # q) false (Num.of_ratio false p q).
Proof.
  unfold Num.of_ratio.
  assert (E : (Zpos p # q == inject_Z (Zpos p) * pow2 0 / (inject_Z (Zpos q) * pow2 0))%Q).
  { change (pow2 0) with 1%Q. rewrite !Qmult_1_r. apply Qmake_Qdiv. }
  rewrite E. by apply div_core_rounded.
Qed.

Lemma align_spec m e e' :
  let '(mz, ez) := shl_align m e e' in
  ez = Z.min e e' /\ Zpos mz = Zpos m * 2 ^ (e - ez) .
Proof.
  unfold shl_align. destruct (e' - e) as [|d|d] eqn:E.
  - rewrite Z.sub_diag. split; lia.
  - rewrite Z.sub_diag. split; lia.
  - split; [lia|]. rewrite iter_xO_value. f_equal. f_equal. lia.
Qed.

Lemma align_value m e e' :
  let '(mz, ez) := shl_align m e e' in (inject_Z (Zpos mz) * pow2 ez == inject_Z (Zpos m) * pow2 e)%Q.
Proof.
  pose proof (align_spec m e e') as H. destruct (shl_align m e e') as [mz ez]. destruct H as [-> ->].
  rewrite inject_Z_mult, <- Qmult_assoc, <- pow2_split by lia. reflexivity.
Qed.

Lemma binary_round_rounded s m e :
  rounded (inject_Z (Zpos m) * pow2 e) s (binary_round Num.prec Num.emax s m e).
Proof.
  unfold binary_round. pose proof (align_spec m e (fexp64 (Zpos (digits2_pos m) + e))) as H.
  pose proof (align_value m e (fexp64 (Zpos (digits2_pos m) + e))) as Hv.
  destruct (shl_align _ _ _) as [mz ez]. destruct H as [He Hm]. rewrite <- Hv.
  apply round_aux_spec; [done| |by apply located_exact].
  rewrite Hm, digits_shift by lia. rewrite fexp64_eq in *. cbn [Zdigits2]. lia.
Qed.

Lemma normalize_rounded z e : 0 <= z -> rounded (inject_Z z * pow2 e) false (binary_normalize Num.prec Num.emax z e false).
Proof.
  intros Hz. destruct z as [|z|z]; [|apply binary_round_rounded|lia].
  eapply rounded_proper; [apply Qmult_0_l|done|done|apply rounded_zero].
Qed.

Lemma of_Z_rounded z : 0 <= z -> rounded (inject_Z z) false (Num.of_Z z).
Proof.
  intros Hz. assert (E : (inject_Z z == inject_Z z * pow2 0)%Q) by (change (pow2 0) with 1%Q; ring).
  rewrite E. by apply normalize_rounded.
Qed.

(** A number rounds to itself. *)
Lemma plain_rounded x : plain x -> rounded (value x) false x.
Proof.
  destruct x as [[]|?| |[] m e]; try done; [intros _; apply rounded_zero|].
  cbn [plain value cond_Zopp]. intros Hv. pose proof (valid_digits _ _ _ Hv) as He.
  destruct (digits_bounds (Zpos m)) as [[Hl Hh] H0]; [done|].
  assert (Hm : Zpos m < 2 ^ 53) by (eapply Z.lt_le_trans; [exact Hh|apply Z.pow_le_mono_r; lia]).
  exists e, (Zpos m). split; [|by split]. pose proof (pow2_pos e).
  split; [lia|lia| |by intros f ?%scaled_le|by intros f ?%scaled_le|lra|lra|lra|lra].
  destruct (Z.eq_dec e (-1074)); [by left|right]. apply scaled_le.
  replace 52 with (Zdigits2 (Zpos m) - 1) by lia. done.
Qed.

Lemma aligned_sum m1 e1 m2 e2 (op : Z -> Z -> Z) (opq : Q -> Q -> Q)
  (Hop : forall a b p, (inject_Z (op a b) * p == opq (inject_Z a * p) (inject_Z b * p))%Q)
  (Hp : Proper (Qeq ==> Qeq ==> Qeq) opq) :
  let ez := Z.min e1 e2 in
  (inject_Z (op (Zpos (fst (shl_align m1 e1 ez))) (Zpos (fst (shl_align m2 e2 ez)))) * pow2 ez ==
   opq (inject_Z (Zpos m1) * pow2 e1) (inject_Z (Zpos m2) * pow2 e2))%Q.
Proof.
  cbn zeta. set (ez := Z.min e1 e2). rewrite Hop.
  pose proof (align_value m1 e1 ez) as H1. pose proof (align_value m2 e2 ez) as H2.
  pose proof (align_spec m1 e1 ez) as A1. pose proof (align_spec m2 e2 ez) as A2.
  destruct (shl_align m1 e1 ez) as [a ea], (shl_align m2 e2 ez) as [b eb]. cbn [fst].
  destruct A1 as [A1 _], A2 as [A2 _]. replace ea with ez in H1 by lia. replace eb with ez in H2 by lia.
  by rewrite H1, H2.
Qed.

Lemma add_rounded x y : plain x -> plain y -> rounded (value x + value y) false (Num.add x y).
Proof.
  destruct x as [[]|?| |[] m1 e1]; try done; destruct y as [[]|?| |[] m2 e2]; try done; cbn [plain];
    intros Hx Hy; cbn [value cond_Zopp].
  - apply rounded_zero.
  - eapply rounded_proper; [apply Qplus_0_l|done|done|]. exact (plain_rounded (S754_finite false m2 e2) Hy).
  - eapply rounded_proper; [apply Qplus_0_r|done|done|]. exact (plain_rounded (S754_finite false m1 e1) Hx).
  - unfold Num.add, SFadd. cbn [cond_Zopp].
    rewrite <- (aligned_sum m1 e1 m2 e2 Z.add Qplus).
    + by apply normalize_rounded.
    + intros a b p. rewrite inject_Z_plus. ring.
    + solve_proper.
Qed.

Lemma sub_rounded x y : plain x -> plain y -> (value y <= value x)%Q ->
  rounded (value x - value y) false (Num.sub x y).
Proof.
  destruct x as [[]|?| |[] m1 e1]; try done; destruct y as [[]|?| |[] m2 e2]; try done; cbn [plain];
    intros Hx Hy; cbn [value cond_Zopp]; intros Hle.
  - apply rounded_zero.
  - exfalso. pose proof (pow2_pos e2). pose proof (inject_pos (Zpos m2) ltac:(lia)). nra.
  - eapply rounded_proper; [|done|done|exact (plain_rounded (S754_finite false m1 e1) Hx)].
    cbn [value cond_Zopp]. ring.
  - unfold Num.sub, SFsub. cbn [cond_Zopp].
    pose proof (aligned_sum m1 e1 m2 e2 Z.sub Qminus) as E. cbn zeta in E.
    specialize (E ltac:(intros a b p; unfold Z.sub; rewrite inject_Z_plus, inject_Z_opp; ring) ltac:(solve_proper)).
    rewrite <- E. apply normalize_rounded, (scaled_le _ _ (Z.min e1 e2)). rewrite E.
    change (inject_Z 0) with 0%Q. lra.
Qed.

(** ** What callers rely on *)
Lemma plain_bound f : plain f -> (0 <= value f < pow2 1024)%Q.
Proof.
  destruct f as [[]|?| |[] m e]; try done; cbn [plain value cond_Zopp]; intros Hv.
  pose proof (pow2_pos e). pose proof (inject_nonneg (Zpos m) ltac:(lia)). split; [nra|].
  pose proof (valid_digits _ _ _ Hv) as He. apply valid_finite in Hv as [_ Hv].
  destruct (digits_bounds (Zpos m)) as [[_ Hh] _]; [done|].
  apply Qlt_le_trans with (inject_Z (2 ^ 53) * pow2 e)%Q.
  - apply scaled_lt. eapply Z.lt_le_trans; [exact Hh|]. apply Z.pow_le_mono_r; lia.
  - rewrite <- pow2_Z, <- pow2_add by lia. apply pow2_le. lia.
Qed.

(** A number is on every grid that is not finer than its own precision allows. *)
Lemma plain_grid f e : plain f -> -1074 <= e ->
  (exists z, 0 <= z /\ (value f == inject_Z z * pow2 e)%Q) \/ (-1074 < e /\ (value f < inject_Z (2 ^ 52) * pow2 e)%Q).
Proof.
  destruct f as [[]|?| |[] m ef]; try done; cbn [plain value cond_Zopp]; intros Hv He.
  - left. exists 0. split; [done|]. symmetry. apply Qmult_0_l.
  - pose proof (valid_digits _ _ _ Hv) as Hd. destruct (Z.le_gt_cases e ef) as [H|H].
    + left. exists (Zpos m * 2 ^ (ef - e)). split; [apply Z.mul_nonneg_nonneg; [lia|apply Z.pow_nonneg; lia]|].
      rewrite inject_Z_mult, <- Qmult_assoc, <- pow2_split by lia. reflexivity.
    + right. split; [lia|]. destruct (digits_bounds (Zpos m)) as [[_ Hh] _]; [done|].
      apply Qlt_le_trans with (inject_Z (2 ^ 53) * pow2 ef)%Q.
      * apply scaled_lt. eapply Z.lt_le_trans; [exact Hh|]. apply Z.pow_le_mono_r; lia.
      * rewrite <- !pow2_Z, <- !pow2_add by lia. apply pow2_le. lia.
Qed.

Lemma stands_value e k r : stands_for e k false r -> (inject_Z k * pow2 e < pow2 1024)%Q ->
  plain r /\ (value r == inject_Z k * pow2 e)%Q.
Proof.
  destruct r as [s|s| |s m e']; cbn [stands_for].
  - intros [-> ->] _. split; [done|]. symmetry. apply Qmult_0_l.
  - intros [_ H] H'. exfalso. lra.
  - done.
  - intros (-> & H & Hv) _. by split.
Qed.

(** Rounding never goes past a representable number. *)
Lemma rounded_le x r f : rounded x false r -> plain f -> (x <= value f)%Q -> plain r /\ (value r <= value f)%Q.
Proof.
  intros (e & k & Hn & Hs) Hf Hx. pose proof (plain_bound f Hf) as [_ Hb].
  destruct (plain_grid f e Hf (nb_exp _ _ _ Hn)) as [(z & Hz & Hv)|[He Hv]].
  - assert (k <= z) as Hk by (apply (nb_below _ _ _ Hn); lra). apply (scaled_le _ _ e) in Hk.
    destruct (stands_value e k r Hs) as [Hp Hr]; [lra|]. split; [done|lra].
  - exfalso. destruct (nb_fine _ _ _ Hn) as [|H]; [lia|]. lra.
Qed.

Lemma rounded_ge x r f : rounded x false r -> plain r -> plain f -> (value f <= x)%Q -> (value f <= value r)%Q.
Proof.
  intros (e & k & Hn & Hs) Hr Hf Hx.
  assert (Hv : (value r == inject_Z k * pow2 e)%Q).
  { destruct r as [s|s| |[] m e']; try done; cbn [stands_for value cond_Zopp] in *; [|apply Hs].
    destruct Hs as [_ ->]. symmetry. apply Qmult_0_l. }
  destruct (plain_grid f e Hf (nb_exp _ _ _ Hn)) as [(z & Hz & Hz')|[He Hlt]].
  - assert (z <= k) as Hk by (apply (nb_above _ _ _ Hn); lra). apply (scaled_le _ _ e) in Hk. lra.
  - destruct (nb_fine _ _ _ Hn) as [|H]; [lia|]. apply (nb_above _ _ _ Hn), (scaled_le _ _ e) in H. lra.
Qed.

(** The error is below one part in [2 ^ 52], above the subnormal numbers. *)
Lemma rounded_error x r : rounded x false r -> plain r -> (pow2 (-1022) <= x)%Q ->
  (x - x * pow2 (-52) < value r < x + x * pow2 (-52))%Q.
Proof.
  intros (e & k & Hn & Hs) Hr Hx.
  assert (Hv : (value r == inject_Z k * pow2 e)%Q).
  { destruct r as [s|s| |[] m e']; try done; cbn [stands_for value cond_Zopp] in *; [|apply Hs].
    destruct Hs as [_ ->]. symmetry. apply Qmult_0_l. }
  assert (He : (pow2 e <= x * pow2 (-52))%Q).
  { destruct (nb_fine _ _ _ Hn) as [->|H].
    - change (-1074) with (-1022 + -52). rewrite pow2_add. pose proof (pow2_pos (-52)). nra.
    - rewrite <- pow2_Z in H by lia. replace e with (52 + e + -52) at 1 by lia. rewrite !pow2_add.
      pose proof (pow2_pos (-52)). nra. }
  destruct Hn. lra.
Qed.

(** ** Comparison *)
Lemma compare_value x y : plain x -> plain y -> SFcompare x y = Some (Qcompare (value x) (value y)).
Proof.
  destruct x as [[]|?| |[] m1 e1]; try done; destruct y as [[]|?| |[] m2 e2]; try done; cbn [plain]; intros Hx Hy.
  - cbn [SFcompare]. f_equal. symmetry. apply (proj1 (Qlt_alt _ _)). cbn [value cond_Zopp].
    by apply Qmult_lt_0_compat; [apply inject_pos|apply pow2_pos].
  - cbn [SFcompare]. f_equal. symmetry. apply (proj1 (Qgt_alt _ _)). cbn [value cond_Zopp].
    by apply Qmult_lt_0_compat; [apply inject_pos|apply pow2_pos].
  - assert (Hlt : forall m e m' e', valid (S754_finite false m e) -> valid (S754_finite false m' e') -> e < e' ->
             (inject_Z (Zpos m) * pow2 e < inject_Z (Zpos m') * pow2 e')%Q).
    { clear. intros m e m' e' H H' He. apply valid_digits in H, H'.
      destruct (digits_bounds (Zpos m)) as [[_ Hh] _], (digits_bounds (Zpos m')) as [[Hl _] _]; try done.
      apply Qlt_le_trans with (inject_Z (2 ^ 53) * pow2 e)%Q.
      - apply scaled_lt. eapply Z.lt_le_trans; [exact Hh|]. apply Z.pow_le_mono_r; lia.
      - rewrite (pow2_split e e'), Qmult_assoc, <- inject_Z_mult by lia. apply scaled_le.
        apply Z.le_trans with (2 ^ 52 * 2 ^ (e' - e)).
        + rewrite <- Z.pow_add_r by lia. apply Z.pow_le_mono_r; lia.
        + apply Z.mul_le_mono_nonneg_r; [apply Z.pow_nonneg; lia|]. etransitivity; [|exact Hl]. apply Z.pow_le_mono_r; lia. }
    cbn [SFcompare value cond_Zopp]. f_equal. destruct (Z.compare_spec e1 e2) as [->|H|H].
    + change (Pos.compare_cont Eq m1 m2) with (Zpos m1 ?= Zpos m2). symmetry.
      destruct (Z.compare_spec (Zpos m1) (Zpos m2)) as [->|H|H].
      * by apply (proj1 (Qeq_alt _ _)).
      * by apply Qlt_alt, scaled_lt.
      * by apply Qgt_alt, scaled_lt.
    + symmetry. apply (proj1 (Qlt_alt _ _)). by apply Hlt.
    + symmetry. apply (proj1 (Qgt_alt _ _)). by apply Hlt.
Qed.

Lemma leb_value x y : plain x -> plain y -> Num.leb x y = true <-> (value x <= value y)%Q.
Proof.
  intros Hx Hy. unfold Num.leb, SFleb. rewrite compare_value by done.
  rewrite Qle_alt. by destruct (value x ?= value y)%Q.
Qed.
Lemma ltb_value x y : plain x -> plain y -> Num.ltb x y = true <-> (value x < value y)%Q.
Proof.
  intros Hx Hy. unfold Num.ltb, SFltb. rewrite compare_value by done.
  rewrite Qlt_alt. by destruct (value x ?= value y)%Q.
Qed.

(** ** Integers *)
Lemma of_Z_plain z : 0 <= z <= 2 ^ 53 -> plain (Num.of_Z z) /\ (value (Num.of_Z z) == inject_Z z)%Q.
Proof.
  intros Hz. destruct (of_Z_rounded z ltac:(lia)) as (e & k & Hn & Hs).
  assert (He : e <= 0 \/ 2 ^ 52 * 2 ^ e <= z).
  { destruct (nb_fine _ _ _ Hn) as [->|H]; [by left|]. destruct (Z.le_gt_cases e 0); [by left|right].
    rewrite pow2_Z, <- inject_Z_mult, <- Zle_Qle in H by lia. done. }
  destruct (Z.le_gt_cases e 0) as [Hle|Hgt].
  - assert (E : (inject_Z z == inject_Z (z * 2 ^ (- e)) * pow2 e)%Q).
    { rewrite inject_Z_mult, <- pow2_Z, <- Qmult_assoc, <- pow2_add by lia. replace (- e + e) with 0 by lia.
      change (pow2 0) with 1%Q. ring. }
    assert (k = z * 2 ^ (- e)) as ->.
    { apply Z.le_antisymm; [apply (nb_below _ _ _ Hn)|apply (nb_above _ _ _ Hn)]; lra. }
    destruct (stands_value _ _ _ Hs) as [Hp Hv].
    { rewrite <- E, pow2_Z, <- Zlt_Qlt by lia. eapply Z.le_lt_trans; [apply Hz|]. apply Z.pow_lt_mono_r; lia. }
    split; [done|]. by rewrite Hv, <- E.
  - destruct He as [|He]; [lia|].
    assert (e = 1 /\ z = 2 ^ 53) as [-> ->].
    { assert (2 ^ 1 <= 2 ^ e) by (apply Z.pow_le_mono_r; lia). assert (e < 2); [|lia].
      destruct (Z.lt_ge_cases e 2); [done|]. assert (2 ^ 2 <= 2 ^ e) by (apply Z.pow_le_mono_r; lia). lia. }
    split; [by vm_compute|]. by vm_compute.
Qed.

Lemma exact_value x p q : plain x -> Num.exact x = Some (p, q) -> (value x == p # q)%Q /\ 0 <= p.
Proof.
  destruct x as [[]|?| |[] m e]; try done; cbn [plain value cond_Zopp Num.exact].
  { intros _ [= <- <-]. split; [reflexivity|lia]. }
  intros Hv. destruct (Z.leb_spec 0 e); intros [= <- <-].
  - split; [|apply Z.mul_nonneg_nonneg; [lia|apply Z.pow_nonneg; lia]].
    rewrite pow2_Z, <- inject_Z_mult by lia. reflexivity.
  - split; [|lia]. assert (Hp : 0 < 2 ^ (- e)) by (apply Z.pow_pos_nonneg; lia).
    rewrite Qmake_Qdiv, Z2Pos.id, <- pow2_Z by lia.
    assert (E : (pow2 e * pow2 (- e) == 1)%Q) by (rewrite <- pow2_add; by replace (e + - e) with 0 by lia).
    pose proof (pow2_pos (- e)). apply Qmult_inj_r with (pow2 (- e)); [lra|].
    rewrite <- Qmult_assoc, E. field. lra.
Qed.

(** [Math.floor] of a small number is the integer below it. *)
Lemma floor_value x : plain x -> (value x < inject_Z (2 ^ 53))%Q ->
  exists z, Num.to_Z (Num.floor x) = Some z /\ Num.floor x = Num.of_Z z /\ 0 <= z < 2 ^ 53 /\
    (inject_Z z <= value x < inject_Z (z + 1))%Q.
Proof.
  destruct x as [[]|?| |[] m e] eqn:Ex; try done.
  { intros _ _. exists 0. repeat split; done. }
  rewrite <- Ex. intros Hp Hb. destruct (Num.exact x) as [[p q]|] eqn:E.
  2:{ exfalso. rewrite Ex in E. unfold Num.exact in E. destruct (0 <=? e); discriminate. }
  destruct (exact_value x p q Hp E) as [Hv H0]. exists (p / Zpos q).
  assert (Num.floor x = Num.of_Z (p / Zpos q)) as -> by (rewrite Ex in *; unfold Num.floor; by rewrite E).
  rewrite Hv in *. unfold Qle, Qlt in *. cbn [Qnum Qden inject_Z] in *. rewrite ?Z.mul_1_r in *.
  pose proof (Z.div_mod p (Zpos q) ltac:(lia)). pose proof (Z.mod_pos_bound p (Zpos q) ltac:(lia)).
  assert (0 <= p / Zpos q) by (apply Z.div_pos; lia).
  assert (p / Zpos q < 2 ^ 53) by (apply Z.div_lt_upper_bound; lia).
  split; [apply of_Z_exact; lia|]. split; [done|]. split; [done|]. nia.
Qed.

(** ** Decimal amounts *)
Lemma of_decimal_rounded m d : 0 < m -> 0 <= d ->
  rounded (inject_Z m / inject_Z (10 ^ d)) false (Num.of_decimal false m (- d)).
Proof.
  intros Hm Hd. destruct m as [|p|p]; try done. unfold Num.of_decimal.
  destruct (Z.leb_spec 0 (- d)).
  - replace d with 0 by lia. cbn [Z.opp Z.pow cond_Zopp]. rewrite Z.mul_1_r.
    assert (E : (inject_Z (Zpos p) / inject_Z 1 == inject_Z (Zpos p) * pow2 0)%Q).
    { change (pow2 0) with 1%Q. change (inject_Z 1) with 1%Q. field. }
    rewrite E. by apply normalize_rounded.
  - rewrite Z.opp_involutive. assert (Hp : 0 < 10 ^ d) by (apply Z.pow_pos_nonneg; lia).
    assert (E : (inject_Z (Zpos p) / inject_Z (10 ^ d) == Zpos p # Z.to_pos (10 ^ d))%Q).
    { rewrite Qmake_Qdiv, Z2Pos.id by done. reflexivity. }
    rewrite E. apply of_ratio_rounded.
Qed.

Lemma rounded_plain x r n : rounded x false r -> 0 <= n <= 2 ^ 53 -> (x <= inject_Z n)%Q ->
  plain r /\ (value r <= inject_Z n)%Q.
Proof.
  intros Hr Hn Hx. destruct (of_Z_plain n Hn) as [Hp Hv]. rewrite <- Hv in Hx |- *. by apply (rounded_le x).
Qed.

Lemma decimal_positive m d : 0 < m < 2 ^ 50 -> 0 <= d <= 7 ->
  let f := Num.of_decimal false m (- d) in
  Num.is_finite f = true /\ Num.leb f Num.zero = false /\ Num.truthy f = true.
Proof.
  intros Hm Hd. cbn zeta. pose proof (of_decimal_rounded m d ltac:(lia) ltac:(lia)) as Hf.
  set (f := Num.of_decimal false m (- d)) in *. set (x := (inject_Z m / inject_Z (10 ^ d))%Q) in *.
  assert (H10 : 1 <= 10 ^ d <= 10 ^ 7) by (split; [apply (Z.pow_le_mono_r 10 0)|apply Z.pow_le_mono_r]; lia).
  assert (HQ : (1 <= inject_Z (10 ^ d) <= 10000000 # 1)%Q).
  { change 1%Q with (inject_Z 1). change (10000000 # 1)%Q with (inject_Z (10 ^ 7)). rewrite <- !Zle_Qle. lia. }
  assert (HmQ : (1 <= inject_Z m <= inject_Z (2 ^ 50))%Q).
  { change 1%Q with (inject_Z 1). rewrite <- !Zle_Qle. lia. }
  assert (Hx : (x * inject_Z (10 ^ d) == inject_Z m)%Q) by (unfold x; field; lra).
  assert (Hxl : (1 # 16777216 <= x)%Q) by (apply Qle_shift_div_l; lra).
  destruct (rounded_plain x f (2 ^ 50) Hf) as [Hp _]; [lia|apply Qle_shift_div_r; nra|].
  assert (Htiny : (pow2 (-1022) <= 1 # 16777216)%Q) by (apply (pow2_le (-1022) (-24)); lia).
  pose proof (rounded_error x f Hf Hp ltac:(lra)) as [He _].
  assert (Hu : (pow2 (-52) == 1 # 4503599627370496)%Q) by reflexivity. rewrite Hu in He.
  assert (Hv : (0 < value f)%Q) by lra. split; [by destruct f as [[]|?| |[] ??]|]. split.
  - destruct (Num.leb f Num.zero) eqn:E; [|done]. apply leb_value in E; [|done|done].
    change (value Num.zero) with 0%Q in E. lra.
  - by destruct f as [[]|?| |[] ??].
Qed.

(** Scaling a decimal amount to its smallest unit in floating point, and dropping the
    fraction, loses at most one unit. *)
Lemma decimal_floor m d : 0 < m -> 0 <= d <= 7 -> m * 10 ^ (7 - d) < 2 ^ 50 ->
  let units := Num.floor (Num.mul (Num.of_decimal false m (- d)) (Num.of_Z 10000000)) in
  exists z, Num.to_Z units = Some z /\ units = Num.of_Z z /\ m * 10 ^ (7 - d) - 1 <= z <= m * 10 ^ (7 - d).
Proof.
  intros Hm Hd HN. cbn zeta. set (N := m * 10 ^ (7 - d)) in *.
  assert (Hp : 0 < 10 ^ d) by (apply Z.pow_pos_nonneg; lia).
  assert (Hp7 : 10 ^ (7 - d) * 10 ^ d = 10 ^ 7) by (rewrite <- Z.pow_add_r by lia; f_equal; lia).
  assert (Hp1 : 0 < 10 ^ (7 - d)) by (apply Z.pow_pos_nonneg; lia).
  pose proof (inject_pos _ Hp) as HQ. pose proof (inject_pos m Hm) as HmQ.
  set (x := (inject_Z m / inject_Z (10 ^ d))%Q).
  assert (Hx : (x * inject_Z (10 ^ 7) == inject_Z N)%Q).
  { unfold x, N. rewrite <- Hp7, !inject_Z_mult. field. lra. }
  pose proof (of_decimal_rounded m d Hm ltac:(lia)) as Hf. fold x in Hf.
  set (f := Num.of_decimal false m (- d)) in *. change (inject_Z (10 ^ 7)) with (10000000 # 1)%Q in Hx.
  assert (HNQ : (1 <= inject_Z N < inject_Z (2 ^ 50))%Q).
  { change 1%Q with (inject_Z 1). rewrite <- Zle_Qle, <- Zlt_Qlt. nia. }
  change (inject_Z (2 ^ 50)) with (1125899906842624 # 1)%Q in HNQ.
  destruct (rounded_plain x f (2 ^ 50) Hf) as [Hfp _]; [lia|change (inject_Z (2 ^ 50)) with (1125899906842624 # 1)%Q; lra|].
  assert (Hu : (pow2 (-52) == 1 # 4503599627370496)%Q) by reflexivity.
  assert (Htiny : (pow2 (-1022) <= 1 # 16777216)%Q) by (apply (pow2_le (-1022) (-24)); lia).
  pose proof (rounded_error x f Hf Hfp ltac:(lra)) as He. rewrite Hu in He.
  destruct (of_Z_plain 10000000 ltac:(lia)) as [Htp Htv]. change (inject_Z 10000000) with (10000000 # 1)%Q in Htv.
  pose proof (mul_rounded f (Num.of_Z 10000000) Hfp Htp) as Hg. set (g := Num.mul f _) in *. rewrite Htv in Hg.
  destruct (rounded_plain _ g (2 ^ 52) Hg) as [Hgp _]; [lia|change (inject_Z (2 ^ 52)) with (4503599627370496 # 1)%Q; lra|].
  pose proof (rounded_error _ g Hg Hgp ltac:(lra)) as He'. rewrite Hu in He'.
  assert (Hclose : (inject_Z N - 1 < value g < inject_Z N + 1)%Q) by lra.
  destruct (floor_value g Hgp) as (z & Hz & Hzf & Hz0 & Hzl & Hzh).
  { change (inject_Z (2 ^ 53)) with (9007199254740992 # 1)%Q. lra. }
  exists z. split; [done|]. split; [done|]. rewrite inject_Z_plus in Hzh. change (inject_Z 1) with 1%Q in Hzh.
  assert (N - 2 < z < N + 1); [|lia]. rewrite !Zlt_Qlt.
  unfold Z.sub. rewrite !inject_Z_plus. change (inject_Z (-(2))) with (- (2))%Q. change (inject_Z 1) with 1%Q. lra.
Qed.

(** [Math.floor] of a quotient of integers is the integer quotient. *)
Lemma div_floor a b : 0 <= a < 2 ^ 52 -> 0 < b < 2 ^ 52 ->
  Num.floor (Num.div (Num.of_Z a) (Num.of_Z b)) = Num.of_Z (a / b).
Proof.
  intros Ha Hb. destruct (of_Z_plain a ltac:(lia)) as [Hap Hav], (of_Z_plain b ltac:(lia)) as [Hbp Hbv].
  pose proof (inject_pos b ltac:(lia)) as HbQ. pose proof (inject_nonneg a ltac:(lia)) as HaQ.
  pose proof (div_rounded (Num.of_Z a) (Num.of_Z b) Hap Hbp ltac:(rewrite Hbv; done)) as Hr.
  set (r := Num.div _ _) in *. rewrite Hav, Hbv in Hr. set (x := (inject_Z a / inject_Z b)%Q) in *.
  assert (Hxb : (x * inject_Z b == inject_Z a)%Q) by (unfold x; field; lra).
  pose proof (Z.div_mod a b ltac:(lia)) as Hd. pose proof (Z.mod_pos_bound a b ltac:(lia)) as Hm.
  set (n := a / b) in *. assert (Hn : 0 <= n <= a) by (split; [apply Z.div_pos|apply Z.div_le_upper_bound]; nia).
  assert (Hnx : (inject_Z n <= x)%Q).
  { apply Qle_shift_div_l; [done|]. rewrite <- inject_Z_mult, <- Zle_Qle. nia. }
  assert (Hxn : (x * inject_Z b <= inject_Z (n + 1) * inject_Z b - 1)%Q).
  { assert (H1 : (inject_Z a + inject_Z 1 <= inject_Z ((n + 1) * b))%Q) by (rewrite <- inject_Z_plus, <- Zle_Qle; nia).
    rewrite inject_Z_mult in H1. change (inject_Z 1) with 1%Q in H1. lra. }
  assert (HaQ' : (inject_Z a < 4503599627370496 # 1)%Q).
  { change (4503599627370496 # 1)%Q with (inject_Z (2 ^ 52)). rewrite <- Zlt_Qlt. lia. }
  assert (Hb1 : (1 <= inject_Z b)%Q) by (change 1%Q with (inject_Z 1); rewrite <- Zle_Qle; lia).
  destruct (rounded_plain x r (2 ^ 52) Hr) as [Hrp _]; [lia|change (inject_Z (2 ^ 52)) with (4503599627370496 # 1)%Q; nra|].
  destruct (of_Z_plain n ltac:(lia)) as [Hnp Hnv].
  pose proof (rounded_ge x r (Num.of_Z n) Hr Hrp Hnp ltac:(lra)) as Hlow. rewrite Hnv in Hlow.
  assert (Hhigh : (value r < inject_Z (n + 1))%Q).
  { destruct (Z.eq_dec a 0) as [Ha0|Ha0].
    - rewrite Ha0 in Hxb. change (inject_Z 0) with 0%Q in Hxb.
      destruct (rounded_plain x r 0 Hr) as [_ H0]; [lia|change (inject_Z 0) with 0%Q; nra|].
      rewrite inject_Z_plus. pose proof (inject_nonneg n ltac:(lia)). change (inject_Z 1) with 1%Q.
      change (inject_Z 0) with 0%Q in H0. lra.
    - assert (1 <= inject_Z a)%Q by (change 1%Q with (inject_Z 1); rewrite <- Zle_Qle; lia).
      assert (Hbb : (inject_Z b <= 4503599627370496 # 1)%Q).
      { change (4503599627370496 # 1)%Q with (inject_Z (2 ^ 52)). rewrite <- Zle_Qle. lia. }
      assert (Hu : (pow2 (-52) == 1 # 4503599627370496)%Q) by reflexivity.
      assert (Htiny : (pow2 (-1022) <= 1 # 4503599627370496)%Q) by (apply (pow2_le (-1022) (-52)); lia).
      assert (Hxl : (1 # 4503599627370496 <= x)%Q) by (apply Qle_shift_div_l; [done|]; nra).
      pose proof (rounded_error x r Hr Hrp ltac:(lra)) as [_ He]. rewrite Hu in He.
      assert (value r * inject_Z b < inject_Z (n + 1) * inject_Z b)%Q by nra. nra. }
  destruct (floor_value r Hrp) as (z & _ & -> & Hz & Hzl & Hzh).
  { eapply Qlt_trans; [exact Hhigh|]. rewrite <- Zlt_Qlt. lia. }
  f_equal. assert (n < z + 1 /\ z < n + 1); [|lia]. rewrite !Zlt_Qlt. split; lra.
Qed.

(** ** Exact differences *)
Lemma plain_inj x y : plain x -> plain y -> (value x == value y)%Q -> x = y.
Proof.
  intros Hx Hy E. pose proof (compare_value x y Hx Hy) as H. apply Qeq_alt in E. rewrite E in H.
  destruct x as [[]|?| |[] m e], y as [[]|?| |[] m' e']; try done. cbn [SFcompare] in H. injection H as H.
  destruct (Z.compare_spec e e') as [->| |]; [|done|done]. by apply Pos.compare_eq in H as ->.
Qed.

Lemma rounded_exact x r f : rounded x false r -> plain f -> (x == value f)%Q -> r = f.
Proof.
  intros Hr Hf E. destruct (rounded_le x r f Hr Hf) as [Hp Hle]; [lra|].
  pose proof (rounded_ge x r f Hr Hp Hf ltac:(lra)). apply plain_inj; [done|done|lra].
Qed.

Lemma sub_of_Z a b : 0 <= b <= a -> a <= 2 ^ 53 -> Num.sub (Num.of_Z a) (Num.of_Z b) = Num.of_Z (a - b).
Proof.
  intros Hb Ha. destruct (of_Z_plain a ltac:(lia)) as [Hap Hav], (of_Z_plain b ltac:(lia)) as [Hbp Hbv],
    (of_Z_plain (a - b) ltac:(lia)) as [Hcp Hcv].
  assert (E : (inject_Z (a - b) == inject_Z a - inject_Z b)%Q).
  { unfold Z.sub. rewrite inject_Z_plus, inject_Z_opp. reflexivity. }
  apply (rounded_exact (value (Num.of_Z a) - value (Num.of_Z b))); [|done|rewrite Hav, Hbv, Hcv, E; reflexivity].
  apply sub_rounded; [done|done|]. rewrite Hav, Hbv, <- Zle_Qle. lia.
Qed.

(** A difference of integers in the wrong order is below every positive number. *)
Lemma sub_negative a b f : 0 <= a < b -> b <= 2 ^ 53 -> plain f -> (0 < value f)%Q ->
  Num.ltb (Num.sub (Num.of_Z a) (Num.of_Z b)) f = true.
Proof.
  intros Ha Hb Hf Hv. destruct (of_Z_plain a ltac:(lia)) as [Hap Hav], (of_Z_plain b ltac:(lia)) as [Hbp Hbv].
  destruct f as [[]|?| |[] mf ef]; try done.
  assert (Hneg : (value (Num.of_Z a) < value (Num.of_Z b))%Q) by (rewrite Hav, Hbv, <- Zlt_Qlt; lia).
  destruct (Num.of_Z a) as [[]|?| |[] m1 e1]; try done; destruct (Num.of_Z b) as [[]|?| |[] m2 e2]; try done;
    cbn [value cond_Zopp] in Hneg; try (by apply Qlt_irrefl in Hneg).
  - exfalso. pose proof (pow2_pos e1). pose proof (inject_pos (Zpos m1) ltac:(lia)). nra.
  - unfold Num.sub, SFsub. cbn [cond_Zopp]. pose proof (aligned_sum m1 e1 m2 e2 Z.sub Qminus) as E. cbn zeta in E.
    specialize (E ltac:(intros a' b' p; unfold Z.sub; rewrite inject_Z_plus, inject_Z_opp; ring) ltac:(solve_proper)).
    set (z := (_ - _)%Z) in *. assert (Hz : z < 0).
    { apply (scaled_lt _ _ (Z.min e1 e2)). rewrite E. change (inject_Z 0) with 0%Q. lra. }
    destruct z as [|p|p]; [lia|lia|]. cbn [binary_normalize].
    destruct (binary_round_rounded true p (Z.min e1 e2)) as (e & k & Hn & Hs).
    destruct (binary_round _ _ true p _) as [s|s| |s m' e']; try done; cbn [stands_for] in Hs;
      destruct Hs as [-> _]; done.
Qed.

(** ** The nearest number, and monotonicity *)
Lemma rounded_value x r : rounded x false r -> plain r ->
  exists e k, neighbour x e k /\ (value r == inject_Z k * pow2 e)%Q.
Proof.
  intros (e & k & Hn & Hs) Hr. exists e, k. split; [done|].
  destruct r as [s|s| |[] m e']; try done; cbn [stands_for value cond_Zopp] in *; [|apply Hs].
  destruct Hs as [_ ->]. symmetry. apply Qmult_0_l.
Qed.

Lemma near_up x e k z : neighbour x e k -> (inject_Z z * pow2 e <= x)%Q ->
  (inject_Z k * pow2 e - x <= x - inject_Z z * pow2 e)%Q.
Proof.
  intros Hn Hz. pose proof (nb_above _ _ _ Hn z Hz) as Hk. destruct Hn as [_ _ _ _ _ _ _ Hl Hh].
  destruct (Z.eq_dec k z) as [->|Hne]; [lra|]. assert (z <= k - 1) as H by lia. apply (scaled_le _ _ e) in H.
  unfold Z.sub in H. rewrite inject_Z_plus in H. change (inject_Z (- (1))) with (- (1))%Q in H. lra.
Qed.
Lemma near_down x e k z : neighbour x e k -> (x <= inject_Z z * pow2 e)%Q ->
  (x - inject_Z k * pow2 e <= inject_Z z * pow2 e - x)%Q.
Proof.
  intros Hn Hz. pose proof (nb_below _ _ _ Hn z Hz) as Hk. destruct Hn as [_ _ _ _ _ _ _ Hl Hh].
  destruct (Z.eq_dec k z) as [->|Hne]; [lra|]. assert (k + 1 <= z) as H by lia. apply (scaled_le _ _ e) in H.
  rewrite inject_Z_plus in H. change (inject_Z 1) with 1%Q in H. lra.
Qed.

(** Rounding keeps the order. *)
Lemma rounded_mono x y r r' : rounded x false r -> rounded y false r' -> plain r -> plain r' -> (x < y)%Q ->
  (value r <= value r')%Q.
Proof.
  intros Hx Hy Hr Hr' Hlt. destruct (Qlt_le_dec (value r') (value r)) as [Hgt|]; [exfalso|done].
  assert (Hry : (y < value r)%Q).
  { destruct (Qlt_le_dec y (value r)) as [|H]; [done|]. pose proof (rounded_ge y r' r Hy Hr' Hr H). lra. }
  assert (Hrx : (value r' < x)%Q).
  { destruct (Qlt_le_dec (value r') x) as [|H]; [done|]. pose proof (rounded_le x r r' Hx Hr' H) as [_ H']. lra. }
  destruct (rounded_value x r Hx Hr) as (e & k & Hn & Hv), (rounded_value y r' Hy Hr') as (e' & k' & Hn' & Hv').
  assert (H1 : (value r - x <= x - value r')%Q).
  { destruct (plain_grid r' e Hr' (nb_exp _ _ _ Hn)) as [(z & _ & Hz)|[_ Hc]].
    - pose proof (near_up x e k z Hn ltac:(lra)). lra.
    - destruct (nb_fine _ _ _ Hn) as [->|Hf]; [|pose proof (near_up x e k (2 ^ 52) Hn Hf); lra].
      destruct (plain_grid r' (-1074) Hr' ltac:(lia)) as [(z & _ & Hz)|[? _]]; [|lia].
      pose proof (near_up x (-1074) k z Hn ltac:(lra)). lra. }
  assert (H2 : (y - value r' <= value r - y)%Q).
  { destruct (plain_grid r e' Hr (nb_exp _ _ _ Hn')) as [(z & _ & Hz)|[He Hc]].
    - pose proof (near_down y e' k' z Hn' ltac:(lra)). lra.
    - destruct (nb_fine _ _ _ Hn') as [|Hf]; [lia|]. lra. }
  lra.
Qed.

(** Exact sums and products of integers. *)
Lemma add_of_Z a b : 0 <= a -> 0 <= b -> a + b <= 2 ^ 53 -> Num.add (Num.of_Z a) (Num.of_Z b) = Num.of_Z (a + b).
Proof.
  intros Ha Hb Hs. destruct (of_Z_plain a ltac:(lia)) as [Hap Hav], (of_Z_plain b ltac:(lia)) as [Hbp Hbv],
    (of_Z_plain (a + b) ltac:(lia)) as [Hcp Hcv].
  apply (rounded_exact (value (Num.of_Z a) + value (Num.of_Z b))); [by apply add_rounded|done|].
  rewrite Hav, Hbv, Hcv, inject_Z_plus. reflexivity.
Qed.
Lemma mul_of_Z a b : 0 <= a <= 2 ^ 53 -> 0 <= b <= 2 ^ 53 -> a * b <= 2 ^ 53 -> Num.mul (Num.of_Z a) (Num.of_Z b) = Num.of_Z (a * b).
Proof.
  intros Ha Hb Hs. destruct (of_Z_plain a ltac:(lia)) as [Hap Hav], (of_Z_plain b ltac:(lia)) as [Hbp Hbv],
    (of_Z_plain (a * b) ltac:(nia)) as [Hcp Hcv].
  apply (rounded_exact (value (Num.of_Z a) * value (Num.of_Z b))); [by apply mul_rounded|done|].
  rewrite Hav, Hbv, Hcv, inject_Z_mult. reflexivity.
Qed.

Lemma plain_nan x : plain x -> Num.is_nan x = false.
Proof. by destruct x. Qed.
Lemma plain_nonneg x : plain x -> (0 <= value x)%Q.
Proof. intros H. apply plain_bound in H. lra. Qed.

(** A share of a number: the quotient of a number by one that is not less is at most 1. *)
Lemma div_share x y : plain x -> plain y -> (0 < value y)%Q -> (value x <= value y)%Q ->
  plain (Num.div x y) /\ (0 <= value (Num.div x y) <= 1)%Q.
Proof.
  intros Hx Hy Hpos Hle. pose proof (div_rounded x y Hx Hy Hpos) as Hr.
  destruct (rounded_plain _ _ 1 Hr) as [Hp H1]; [lia|apply Qle_shift_div_r; [done|change (inject_Z 1) with 1%Q; lra]|].
  split; [done|]. split; [by apply plain_nonneg|done].
Qed.

(** Scaling by a share does not exceed the number. *)
Lemma mul_share x y : plain x -> plain y -> (0 <= value x <= 1)%Q ->
  plain (Num.mul x y) /\ (0 <= value (Num.mul x y) <= value y)%Q.
Proof.
  intros Hx Hy Hs. pose proof (plain_nonneg y Hy). destruct (rounded_le _ _ y (mul_rounded x y Hx Hy) Hy) as [Hp Hle]; [nra|].
  split; [done|]. split; [by apply plain_nonneg|done].
Qed.

Lemma sub_share x y : plain x -> plain y -> (value y <= value x)%Q ->
  plain (Num.sub x y) /\ (0 <= value (Num.sub x y) <= value x)%Q.
Proof.
  intros Hx Hy Hle. pose proof (plain_nonneg y Hy).
  destruct (rounded_le _ _ x (sub_rounded x y Hx Hy Hle) Hx) as [Hp H']; [lra|].
  split; [done|]. split; [by apply plain_nonneg|done].
Qed.

(** ** [Math.max] and [Math.min] *)
Lemma math_max_cases a b : plain a -> plain b ->
  (math_max a b = a \/ math_max a b = b) /\ (value a <= value (math_max a b))%Q /\ (value b <= value (math_max a b))%Q.
Proof.
  intros Ha Hb. unfold math_max. rewrite !plain_nan by done. cbn [orb]. pose proof (ltb_value a b Ha Hb) as H.
  destruct (Num.ltb a b).
  - split; [by right|]. pose proof (proj1 H eq_refl). split; lra.
  - split; [by left|]. destruct (Qlt_le_dec (value a) (value b)) as [E|E]; [by apply H in E|]. split; lra.
Qed.
Lemma math_min_cases a b : plain a -> plain b ->
  (math_min a b = a \/ math_min a b = b) /\ (value (math_min a b) <= value a)%Q /\ (value (math_min a b) <= value b)%Q.
Proof.
  intros Ha Hb. unfold math_min. rewrite !plain_nan by done. cbn [orb]. pose proof (ltb_value b a Hb Ha) as H.
  destruct (Num.ltb b a).
  - split; [by right|]. pose proof (proj1 H eq_refl). split; lra.
  - split; [by left|]. destruct (Qlt_le_dec (value b) (value a)) as [E|E]; [by apply H in E|]. split; lra.
Qed.
