(* ===== verification/JsString.v ===== *)
(** * JavaScript strings

    A model string is a sequence of 8-bit characters read as UTF-16 code units below
    256, so [length], indexing and slicing agree with JavaScript on that repertoire.
    The few characters outside it that the modelled code writes are carried by otherwise
    unused control codes: the em dash ([em_dash], 0x97), and in [EventViews] the ellipsis
    (0x85) and a flag (0x7F).

    The file holds the string methods the sources call ([trim], [toLowerCase],
    [includes], [startsWith], [slice], [padStart], [padEnd], [split], [join]), the
    digit parser behind [BigInt(s)] and [Number(s)], and the hexadecimal codec of
    Node's [Buffer]. *)

From S2P Require Import Prelude JsNumber.
From Stdlib Require Import SpecFloat.
Local Open Scope Z_scope.

Definition code (c : ascii) : Z := Z.of_nat (nat_of_ascii c).
Definition chr (z : Z) : ascii := ascii_of_nat (Z.to_nat z).
Definition in_range (lo hi : Z) (c : ascii) : bool := (lo <=? code c) && (code c <=? hi).

Definition em_dash : string := String (chr 151) "".

Module Str.
Abbreviation len := String.length.

(** ** Character classes *)
Definition is_digit : ascii -> bool := in_range 48 57.
Definition is_space (c : ascii) : bool :=
in_range 9 13 c || (code c =? 32) || (code c =? 160).
Definition lower (c : ascii) : ascii :=
if in_range 65 90 c || (in_range 192 222 c && negb (code c =? 215))
then chr (code c + 32) else c.
Definition upper (c : ascii) : ascii :=
if in_range 97 122 c then chr (code c - 32) else c.

Fixpoint map_str (f : ascii -> ascii) (s : string) : string :=
match s with EmptyString => EmptyString | String c r => String (f c) (map_str f r) end.
Fixpoint all (p : ascii -> bool) (s : string) : bool :=
match s with EmptyString => true | String c r => p c && all p r end.

Definition to_lower : string -> string := map_str lower.
(** [toUpperCase], exact on the ASCII strings the sources apply it to. *)
Definition to_upper : string -> string := map_str upper.

(** ** Trimming *)
Fixpoint trim_start (s : string) : string :=
match s with
| String c r => if is_space c then trim_start r else s
| EmptyString => EmptyString
end.
Fixpoint trim_end (s : string) : string :=
match s with
| EmptyString => EmptyString
| String c r =>
    match trim_end r with
    | EmptyString => if is_space c then EmptyString else String c EmptyString
    | r' => String c r'
    end
end.
Definition trim (s : string) : string := trim_end (trim_start s).

(** ** Searching *)
Definition starts_with (s p : string) : bool := String.prefix p s.
Fixpoint includes (s p : string) : bool :=
String.prefix p s || match s with EmptyString => false | String _ r => includes r p end.
Definition includes_any (s : string) (ps : list string) : bool := existsb (includes s) ps.

(** ** Slicing, padding, joining *)
Fixpoint take (n : nat) (s : string) : string :=
match n, s with S k, String c r => String c (take k r) | _, _ => EmptyString end.
Fixpoint drop (n : nat) (s : string) : string :=
match n, s with S k, String _ r => drop k r | _, _ => s end.
(** [s.slice(a, b)] for [0 <= a <= b], and [s.slice(-n)]. *)
Definition slice (a b : nat) (s : string) : string := take (b - a) (drop a s).
Definition slice_last (n : nat) (s : string) : string := drop (len s - n) s.

Fixpoint repeat (n : nat) (c : ascii) : string :=
match n with O => EmptyString | S k => String c (repeat k c) end.
Definition pad_start (n : nat) (c : ascii) (s : string) : string := repeat (n - len s) c +:+ s.
Definition pad_end (n : nat) (c : ascii) (s : string) : string := s +:+ repeat (n - len s) c.

Fixpoint join (sep : string) (l : list string) : string :=
match l with
| [] => ""
| [s] => s
| s :: r => s +:+ sep +:+ join sep r
end.

(** [s.split(c)] for a one-character separator. *)
Fixpoint split (c : ascii) (s : string) : list string :=
match s with
| EmptyString => [EmptyString]
| String d r =>
    if Ascii.eqb c d then EmptyString :: split c r
    else match split c r with
         | w :: ws => String d w :: ws
         | [] => [String d EmptyString]
         end
end.

(** ** Digits *)
Definition digit_val (c : ascii) : Z := code c - 48.
Fixpoint digits_acc (acc : Z) (s : string) : Z :=
match s with EmptyString => acc | String c r => digits_acc (10 * acc + digit_val c) r end.
(** The value of a string of decimal digits. *)
Definition digits_val : string -> Z := digits_acc 0.

Fixpoint span_digits (s : string) : string * string :=
match s with
| String c r =>
    if is_digit c then let '(d, rest) := span_digits r in (String c d, rest)
    else (EmptyString, s)
| EmptyString => (EmptyString, EmptyString)
end.
Definition nonempty (s : string) : bool := negb (String.eqb s "").

Definition radix_digit (c : ascii) : Z :=
if is_digit c then code c - 48
else if in_range 97 102 c then code c - 87
else if in_range 65 70 c then code c - 55 else 99.
Fixpoint radix_acc (b acc : Z) (s : string) : option Z :=
match s with
| EmptyString => Some acc
| String c r => if radix_digit c <? b then radix_acc b (b * acc + radix_digit c) r else None
end.

(** The [0x], [0o], [0b] literals that [BigInt] and [Number] accept. *)
Definition parse_radix (s : string) : option (option Z) :=
match s with
| String z (String m r) =>
    if Ascii.eqb z "0"%char && nonempty r then
      let m := lower m in
      if Ascii.eqb m "x"%char then Some (radix_acc 16 0 r)
      else if Ascii.eqb m "o"%char then Some (radix_acc 8 0 r)
      else if Ascii.eqb m "b"%char then Some (radix_acc 2 0 r) else None
    else None
| _ => None
end.

(** An optional sign. *)
Definition sign (s : string) : bool * string :=
match s with
| String c r =>
    if Ascii.eqb c "-"%char then (true, r)
    else if Ascii.eqb c "+"%char then (false, r) else (false, s)
| EmptyString => (false, s)
end.

(** [BigInt(s)] ([None] where it throws a SyntaxError). *)
Definition parse_bigint (s : string) : option Z :=
let t := trim s in
match parse_radix t with
| Some r => r
| None =>
    if String.eqb t "" then Some 0
    else let '(neg, d) := sign t in
         if nonempty d && all is_digit d then Some (cond_Zopp neg (digits_val d)) else None
end.

(** The exponent part of a decimal literal: [None] when malformed. *)
Definition parse_exponent (s : string) : option Z :=
match s with
| EmptyString => Some 0
| String c r =>
    if Ascii.eqb (lower c) "e"%char then
      let '(neg, d) := sign r in
      if nonempty d && all is_digit d then Some (cond_Zopp neg (digits_val d)) else None
    else None
end.

(** [Number(s)]. *)
Definition parse_number (s : string) : num :=
let t := trim s in
match parse_radix t with
| Some (Some z) => Num.of_Z z
| Some None => Num.nan
| None =>
    if String.eqb t "" then Num.zero
    else
      let '(neg, u) := sign t in
      if String.eqb u "Infinity" then S754_infinity neg
      else
        let '(ip, r) := span_digits u in
        let '(fp, r) := match r with
                        | String c r' => if Ascii.eqb c "."%char then span_digits r' else ("", r)
                        | EmptyString => ("", r)
                        end in
        if nonempty (ip +:+ fp) then
          match parse_exponent r with
          | Some e => Num.of_decimal neg (digits_val (ip +:+ fp)) (e - Z.of_nat (len fp))
          | None => Num.nan
          end
        else Num.nan
end.

(** The exponent at the start of a string, 0 where there is none. *)
Definition exponent_prefix (s : string) : Z :=
match s with
| String c r =>
    if Ascii.eqb (lower c) "e"%char then
      let '(neg, d) := sign r in
      let '(ds, _) := span_digits d in
      if nonempty ds then cond_Zopp neg (digits_val ds) else 0
    else 0
| EmptyString => 0
end.

(** [parseFloat(s)]: the longest prefix that is a decimal literal. *)
Definition parse_float (s : string) : num :=
let '(neg, u) := sign (trim_start s) in
if starts_with u "Infinity" then S754_infinity neg
else
  let '(ip, r) := span_digits u in
  let '(fp, r) := match r with
                  | String c r' => if Ascii.eqb c "."%char then span_digits r' else ("", r)
                  | EmptyString => ("", r)
                  end in
  if nonempty (ip +:+ fp)
  then Num.of_decimal neg (digits_val (ip +:+ fp)) (exponent_prefix r - Z.of_nat (len fp))
  else Num.nan.

(** [parseInt(s, 10)]. *)
Definition parse_int (s : string) : num :=
let '(neg, u) := sign (trim_start s) in
let '(ds, _) := span_digits u in
if nonempty ds then Num.of_decimal neg (digits_val ds) 0 else Num.nan.

(** [s.replace(/c/g, "")]. *)
Fixpoint remove_char (c : ascii) (s : string) : string :=
match s with
| String a r => if Ascii.eqb a c then remove_char c r else String a (remove_char c r)
| EmptyString => EmptyString
end.
End Str.

(** ** [Buffer.from(s, "hex")] and [buffer.toString("hex")] *)
Module Hex.
Definition digit (z : Z) : ascii := if z <? 10 then chr (48 + z) else chr (87 + z).

Fixpoint encode (bs : list Z) : string :=
match bs with
| [] => ""
| b :: r => String (digit (b / 16)) (String (digit (b mod 16)) (encode r))
end.

(** Node stops at the first pair that is not two hexadecimal digits. *)
Fixpoint decode (s : string) : list Z :=
match s with
| String a (String b r) =>
    if (Str.radix_digit a <? 16) && (Str.radix_digit b <? 16)
    then (16 * Str.radix_digit a + Str.radix_digit b) :: decode r
    else []
| _ => []
end.
End Hex.

Example js_string_tests :
  Str.trim "  a b " = "a b" /\ Str.to_lower "TyPe" = "type" /\
  Str.includes "Failed to fetch" "fetch" = true /\ Str.slice_last 4 "abcdef" = "cdef" /\
  Str.split "." "12.5" = ["12"; "5"] /\ Str.parse_bigint " -12 " = Some (-12) /\
  Str.parse_bigint "0xff" = Some 255 /\ Str.parse_bigint "1.5" = None /\
  Str.parse_bigint "" = Some 0 /\ Str.parse_number "1e-1" = Num.of_decimal false 1 (-1) /\
  Str.parse_number ".5." = Num.nan /\ Str.parse_number "Infinityx" = Num.nan /\
  Str.parse_number "12.50" = Num.of_decimal false 125 (-1) /\
  Hex.decode "abFF0" = [171; 255] /\ Hex.encode [171; 255] = "abff" /\
  Str.pad_start 7 "0" "12" = "0000012".
Proof. vm_compute. repeat split. Qed.

(** ** Lemmas on digits, padding and slicing *)
Lemma app_len a b : Str.len (a +:+ b) = (Str.len a + Str.len b)%nat.
Proof. induction a as [|c a IH]; cbn; [done|]. f_equal. apply IH. Qed.

Lemma app_nil_str (a : string) : a +:+ "" = a.
Proof. induction a as [|c a IH]; cbn; [done|]. f_equal. apply IH. Qed.

Lemma app_assoc_str (a b c : string) : (a +:+ b) +:+ c = a +:+ (b +:+ c).
Proof. induction a as [|x a IH]; cbn; [done|]. f_equal. apply IH. Qed.

Lemma take_drop_str n s : Str.take n s +:+ Str.drop n s = s.
Proof.
  revert s; induction n as [|n IH]; intros [|c s]; cbn; [done..|]. f_equal. apply IH.
Qed.

Lemma take_len n s : (n <= Str.len s)%nat -> Str.len (Str.take n s) = n.
Proof.
  revert s; induction n as [|n IH]; intros [|c s]; cbn; [done|done|lia|]. intros. f_equal.
  apply IH. lia.
Qed.

Lemma drop_len n s : Str.len (Str.drop n s) = (Str.len s - n)%nat.
Proof. revert s; induction n as [|n IH]; intros [|c s]; cbn; [done|done|done|]. apply IH. Qed.

Lemma take_app_exact a b : Str.take (Str.len a) (a +:+ b) = a.
Proof. induction a as [|c a IH]; cbn; [by destruct b|]. f_equal. apply IH. Qed.

Lemma take_ge n s : (Str.len s <= n)%nat -> Str.take n s = s.
Proof.
  revert s; induction n as [|n IH]; intros [|c s]; cbn; [done|lia|done|]. intros.
  f_equal. apply IH. lia.
Qed.

Lemma repeat_len n c : Str.len (Str.repeat n c) = n.
Proof. induction n; cbn; congruence. Qed.

Lemma pad_start_len n c s : (Str.len s <= n)%nat -> Str.len (Str.pad_start n c s) = n.
Proof. intros H. unfold Str.pad_start. rewrite app_len, repeat_len. lia. Qed.

Lemma pad_end_len n c s : (Str.len s <= n)%nat -> Str.len (Str.pad_end n c s) = n.
Proof. intros H. unfold Str.pad_end. rewrite app_len, repeat_len. lia. Qed.

Lemma all_app p a b : Str.all p (a +:+ b) = Str.all p a && Str.all p b.
Proof. induction a as [|c a IH]; cbn; [done|]. rewrite IH. by destruct (p c). Qed.

Lemma all_repeat p n c : p c = true -> Str.all p (Str.repeat n c) = true.
Proof. intros H. induction n; cbn; [done|]. by rewrite H. Qed.

Lemma all_take p n s : Str.all p s = true -> Str.all p (Str.take n s) = true.
Proof.
  intros H. rewrite <- (take_drop_str n s), all_app in H. by apply andb_prop in H as [? _].
Qed.

Lemma nat_of_digit z : 0 <= z < 10 ->
  nat_of_ascii (ascii_of_nat (48 + Z.to_nat z)) = (48 + Z.to_nat z)%nat.
Proof. intros H. apply nat_ascii_embedding. lia. Qed.

Lemma digit_char_val z : 0 <= z < 10 -> Str.digit_val (ascii_of_nat (48 + Z.to_nat z)) = z.
Proof. intros H. unfold Str.digit_val, code. rewrite nat_of_digit by lia. lia. Qed.

Lemma digit_char_is_digit z :
  0 <= z < 10 -> Str.is_digit (ascii_of_nat (48 + Z.to_nat z)) = true.
Proof.
  intros H. unfold Str.is_digit, in_range, code. rewrite nat_of_digit by lia.
  rewrite andb_true_iff, !Z.leb_le. lia.
Qed.

Lemma digits_acc_app a s t : Str.digits_acc a (s +:+ t) = Str.digits_acc (Str.digits_acc a s) t.
Proof. revert a; induction s as [|c s IH]; intros a; cbn; [done | apply IH]. Qed.

Lemma digits_acc_shift a s :
  Str.digits_acc a s = a * 10 ^ Z.of_nat (Str.len s) + Str.digits_val s.
Proof.
  unfold Str.digits_val. revert a; induction s as [|c s IH]; intros a.
  - cbn. lia.
  - cbn [Str.digits_acc String.length]. rewrite IH, (IH (10 * 0 + _)).
    rewrite Nat2Z.inj_succ, Z.pow_succ_r by lia. lia.
Qed.

Lemma digits_val_app s t :
  Str.digits_val (s +:+ t) = Str.digits_val s * 10 ^ Z.of_nat (Str.len t) + Str.digits_val t.
Proof. unfold Str.digits_val at 1. rewrite digits_acc_app. apply digits_acc_shift. Qed.

Lemma digits_val_zeros n : Str.digits_val (Str.repeat n "0") = 0.
Proof. unfold Str.digits_val. induction n as [|n IH]; [done | exact IH]. Qed.

Lemma digits_val_bound s :
  Str.all Str.is_digit s = true -> 0 <= Str.digits_val s < 10 ^ Z.of_nat (Str.len s).
Proof.
  induction s as [|c s IH]; cbn [Str.all]; [done|].
  intros [Hc Hs]%andb_prop. specialize (IH Hs).
  unfold Str.digits_val. cbn [Str.digits_acc]. rewrite digits_acc_shift.
  unfold Str.is_digit, in_range, Str.digit_val in *. rewrite andb_true_iff, !Z.leb_le in Hc.
  cbn [String.length]. rewrite Nat2Z.inj_succ, Z.pow_succ_r by lia. nia.
Qed.

(** The first [k] of [n] digits are the quotient by [10^(n-k)]. *)
Lemma digits_val_take k s :
  Str.all Str.is_digit s = true -> (k <= Str.len s)%nat ->
  Str.digits_val (Str.take k s) = Str.digits_val s / 10 ^ Z.of_nat (Str.len s - k).
Proof.
  intros Hs Hk. rewrite <- (take_drop_str k s) at 2. rewrite digits_val_app, drop_len.
  assert (Hd : Str.all Str.is_digit (Str.drop k s) = true).
  { rewrite <- (take_drop_str k s), all_app in Hs. by apply andb_prop in Hs as [_ ?]. }
  apply digits_val_bound in Hd. rewrite drop_len in Hd.
  rewrite Z.div_add_l by lia. rewrite Z.div_small by lia. lia.
Qed.

Section DigitsFuel.
Lemma digits_fuel_spec f z acc :
0 <= z < 2 ^ Z.of_nat f ->
exists n : nat, forall a, Str.digits_acc a (Num.digits_fuel f z acc) =
                          Str.digits_acc (a * 10 ^ Z.of_nat n + z) acc.
Proof.
revert z acc. induction f as [|f IH]; intros z acc Hz.
{ exists O. intros a. cbn in Hz. assert (z = 0) as -> by lia. cbn. f_equal. lia. }
rewrite Nat2Z.inj_succ, Z.pow_succ_r in Hz by lia.
pose proof (Z.mod_pos_bound z 10 ltac:(lia)). cbn [Num.digits_fuel].
destruct (Z.ltb_spec z 10).
- exists 1%nat. intros a. cbn [Str.digits_acc]. rewrite digit_char_val by lia.
  rewrite Z.mod_small by lia. f_equal. lia.
- destruct (IH (z / 10) (String (ascii_of_nat (48 + Z.to_nat (z mod 10))) acc)) as [n Hn].
  { split; [apply Z.div_pos; lia | apply Z.div_lt_upper_bound; lia]. }
  exists (S n). intros a. rewrite Hn. cbn [Str.digits_acc]. rewrite digit_char_val by lia.
  f_equal. rewrite Nat2Z.inj_succ, Z.pow_succ_r by lia. pose proof (Z.div_mod z 10). lia.
Qed.

Lemma digits_fuel_len f z acc k :
0 <= z < 10 ^ Z.of_nat (S k) ->
(Str.len (Num.digits_fuel f z acc) <= S k + Str.len acc)%nat.
Proof.
revert z acc k. induction f as [|f IH]; intros z acc k Hz; cbn [Num.digits_fuel]; [lia|].
destruct (Z.ltb_spec z 10); [cbn; lia|].
destruct k as [|k]; [cbn in Hz; lia|].
rewrite Nat2Z.inj_succ, Z.pow_succ_r in Hz by lia.
specialize (IH (z / 10) (String (ascii_of_nat (48 + Z.to_nat (z mod 10))) acc) k).
cbn [String.length] in IH. etrans; [apply IH|lia].
split; [apply Z.div_pos; lia | apply Z.div_lt_upper_bound; lia].
Qed.

Lemma digits_fuel_nonempty f z acc : Num.digits_fuel (S f) z acc <> "".
Proof.
revert z acc; induction f as [|f IH]; intros z acc; cbn [Num.digits_fuel].
- by case_match.
- case_match; [done | apply IH].
Qed.

Lemma digits_fuel_all f z acc :
0 <= z -> Str.all Str.is_digit acc = true ->
Str.all Str.is_digit (Num.digits_fuel f z acc) = true.
Proof.
revert z acc; induction f as [|f IH]; intros z acc Hz Hacc; cbn [Num.digits_fuel]; [done|].
pose proof (Z.mod_pos_bound z 10 ltac:(lia)).
assert (Str.all Str.is_digit (String (ascii_of_nat (48 + Z.to_nat (z mod 10))) acc) = true).
{ cbn [Str.all]. by rewrite digit_char_is_digit, Hacc by lia. }
case_match; [done|]. apply IH; [apply Z.div_pos; lia | done].
Qed.
End DigitsFuel.

(** [digits] prints, [digits_val] reads back. *)
Lemma digits_val_digits z : 0 <= z -> Str.digits_val (Num.digits z) = z.
Proof.
  intros Hz. unfold Num.digits, Str.digits_val.
  destruct (digits_fuel_spec (S (Z.to_nat (Z.log2 z))) z "") as [n Hn].
  - split; [done|]. rewrite Nat2Z.inj_succ, Z2Nat.id by apply Z.log2_nonneg.
    destruct (Z.eq_dec z 0) as [->|]; [done|]. apply Z.log2_spec. lia.
  - rewrite Hn. cbn. lia.
Qed.

Lemma digits_all z : 0 <= z -> Str.all Str.is_digit (Num.digits z) = true.
Proof. intros. by apply digits_fuel_all. Qed.

Lemma digits_len z k : 0 <= z < 10 ^ Z.of_nat (S k) -> (Str.len (Num.digits z) <= S k)%nat.
Proof. intros Hz. unfold Num.digits. etrans; [by apply digits_fuel_len|]. cbn. lia. Qed.

Lemma digits_nonempty z : Num.digits z <> "".
Proof. apply digits_fuel_nonempty. Qed.

#[export] Hint Rewrite app_len app_nil_str app_assoc_str repeat_len drop_len : str.
#[export] Hint Resolve digits_all all_take digits_nonempty : trove.
