(* ===== verification/JsValue.v ===== *)
(** * JavaScript values

    The TypeScript sources handle untyped data in three places: values decoded from a
    contract or an HTTP response, stored JSON, and whatever a [catch] clause receives.
    [jsval] is the common universe: an object is an association list in property
    order, an exception is a [jsval] (an [JErr] for instances of [Error]).  Own data
    properties with string keys are modelled; prototypes and accessors are not. *)

From S2P Require Import Prelude JsNumber JsString.
From Stdlib Require Import SpecFloat.
Local Open Scope Z_scope.

(** The error classes the program distinguishes or declares. *)
Inductive errclass : Type :=
  | CError | CTypeError | CRangeError | CSyntaxError | CZodError
  | CTransactionTimeoutError | CSimulationError | CMissingReturnValueError
  | CTransactionSendError | CTransactionFailedError | CTransactionTryAgainLaterError
  | CListInvoicesError | CAppError | CFreighterError
  | CHorizonRateLimitError | CHorizonOperationsError.

#[export] Instance errclass_eq_dec : EqDecision errclass.
Proof. solve_decision. Defined.

Inductive jsval : Type :=
  | JUndef
  | JNull
  | JBool (b : bool)
  | JNum (n : num)
  | JBig (z : Z)
  | JStr (s : string)
  | JSym
  | JFun
  | JArr (l : list jsval)
  | JObj (fields : list (string * jsval))
  | JMap (entries : list (jsval * jsval))
  | JBytes (bs : list Z)
  | JErr (c : errclass) (msg : string) (props : list (string * jsval)).

(** Fallible code throws a [jsval]. *)
Abbreviation res := (result jsval).

Definition mk_error (msg : string) : jsval := JErr CError msg [].
Definition throw_error {A} (msg : string) : res A := Throw (mk_error msg).

(** [err.name]. *)
Definition class_name (c : errclass) : string :=
  match c with
  | CError => "Error" | CTypeError => "TypeError" | CRangeError => "RangeError"
  | CSyntaxError => "SyntaxError" | CZodError => "ZodError"
  | CTransactionTimeoutError => "TransactionTimeoutError"
  | CSimulationError => "SimulationError"
  | CMissingReturnValueError => "MissingReturnValueError"
  | CTransactionSendError => "TransactionSendError"
  | CTransactionFailedError => "TransactionFailedError"
  | CTransactionTryAgainLaterError => "TransactionTryAgainLaterError"
  | CListInvoicesError => "ListInvoicesError" | CAppError => "AppError"
  | CFreighterError => "FreighterError"
  | CHorizonRateLimitError => "HorizonRateLimitError"
  | CHorizonOperationsError => "HorizonOperationsError"
  end.

(** ** [typeof], [instanceof], truthiness *)
Definition is_string (v : jsval) : bool := match v with JStr _ => true | _ => false end.

(** [typeof v === "object" && v !== null]. *)
Definition is_object (v : jsval) : bool :=
  match v with JArr _ | JObj _ | JMap _ | JBytes _ | JErr _ _ _ => true | _ => false end.

Definition is_array (v : jsval) : bool := match v with JArr _ => true | _ => false end.

Definition instance_of (c : errclass) (v : jsval) : bool :=
  match v with JErr c' _ _ => bool_decide (c = c') | _ => false end.
(** [v instanceof Error]: every class above extends [Error]. *)
Definition is_error (v : jsval) : bool := match v with JErr _ _ _ => true | _ => false end.

Definition truthy (v : jsval) : bool :=
  match v with
  | JUndef | JNull => false
  | JBool b => b
  | JNum n => Num.truthy n
  | JBig z => negb (z =? 0)
  | JStr s => negb (String.eqb s "")
  | _ => true
  end.

Definition is_nullish (v : jsval) : bool := match v with JUndef | JNull => true | _ => false end.

(** [a ?? b] and [a || b]. *)
Definition js_nullish (a b : jsval) : jsval := if is_nullish a then b else a.
Definition js_or (a b : jsval) : jsval := if truthy a then a else b.

(** ** Objects *)
Definition fields := list (string * jsval).

Fixpoint get (fs : fields) (k : string) : option jsval :=
  match fs with
  | [] => None
  | (k', v) :: r => if String.eqb k k' then Some v else get r k
  end.

(** [o[k]] ([undefined] when absent). *)
Definition prop (fs : fields) (k : string) : jsval := default JUndef (get fs k).

(** [o[k] = v]: in place when the key exists, at the end otherwise. *)
Fixpoint set (fs : fields) (k : string) (v : jsval) : fields :=
  match fs with
  | [] => [(k, v)]
  | (k', v') :: r => if String.eqb k k' then (k', v) :: r else (k', v') :: set r k v
  end.

(** [Object.assign(target, source)]. *)
Definition assign (target source : fields) : fields :=
  foldl (fun acc kv => set acc kv.1 kv.2) target source.

(** Property access on an arbitrary non-nullish value; arrays and primitives have
    none of the properties the sources ask for. *)
Definition has_field (v : jsval) (k : string) : bool :=
  match v with
  | JObj fs => match get fs k with Some _ => true | None => false end
  | JErr _ _ ps => String.eqb k "message" || String.eqb k "name" ||
                   match get ps k with Some _ => true | None => false end
  | _ => false
  end.
Definition field (v : jsval) (k : string) : jsval :=
  match v with
  | JObj fs => prop fs k
  | JErr c m ps =>
      if String.eqb k "message" then JStr m
      else if String.eqb k "name" then JStr (class_name c) else prop ps k
  | _ => JUndef
  end.

(** [v?.k]. *)
Definition opt_field (v : jsval) (k : string) : jsval :=
  if is_nullish v then JUndef else field v k.

(** A [TypeError], and below the access [v.k] on a value that may be nullish. *)
Definition type_error {A} (m : string) : res A := Throw (JErr CTypeError m []).
(** ** Conversions *)

(** [BigInt(n)] and [BigInt(s)]. *)
Definition bigint_of_num (n : num) : res Z :=
  match Num.to_Z n with
  | Some z => Ok z
  | None => Throw (JErr CRangeError ("The number " +:+ Num.to_string n +:+
      " cannot be converted to a BigInt because it is not an integer") [])
  end.
Definition bigint_of_str (s : string) : res Z :=
  match Str.parse_bigint s with
  | Some z => Ok z
  | None => Throw (JErr CSyntaxError ("Cannot convert " +:+ s +:+ " to a BigInt") [])
  end.

(** [String(v)]. *)
Fixpoint to_str (v : jsval) : string :=
  match v with
  | JUndef => "undefined"
  | JNull => "null"
  | JBool true => "true"
  | JBool false => "false"
  | JNum n => Num.to_string n
  | JBig z => Num.bigint_to_string z
  | JStr s => s
  | JSym => "Symbol()"
  | JFun => "function"
  | JArr l => Str.join "," (map (fun x => if is_nullish x then "" else to_str x) l)
  | JObj _ => "[object Object]"
  | JMap _ => "[object Map]"
  | JBytes bs => Str.join "," (map Num.bigint_to_string bs)
  | JErr c m _ => if String.eqb m "" then class_name c else class_name c +:+ ": " +:+ m
  end.

Definition member (v : jsval) (k : string) : res jsval :=
  if is_nullish v then type_error ("Cannot read properties of " +:+ to_str v) else Ok (field v k).

(** [Number(v)]: objects convert through their string. *)
Definition to_number (v : jsval) : res num :=
  match v with
  | JUndef => Ok Num.nan
  | JNull => Ok Num.zero
  | JBool b => Ok (Num.of_Z (if b then 1 else 0))
  | JNum n => Ok n
  | JBig z => Ok (Num.of_Z z)
  | JStr s => Ok (Str.parse_number s)
  | JSym => Throw (JErr CTypeError "Cannot convert a Symbol value to a number" [])
  | _ => Ok (Str.parse_number (to_str v))
  end.

(** ** Lemmas on objects *)
Lemma get_set_eq fs k v : get (set fs k v) k = Some v.
Proof.
  induction fs as [|[k' v'] fs IH]; cbn; [by rewrite String.eqb_refl|].
  destruct (String.eqb_spec k k') as [->|]; cbn; [by rewrite String.eqb_refl|].
  destruct (String.eqb_spec k k'); [done | apply IH].
Qed.

Lemma get_set_ne fs k k' v : k <> k' -> get (set fs k v) k' = get fs k'.
Proof.
  intros Hne. induction fs as [|[k1 v1] fs IH]; cbn.
  - destruct (String.eqb_spec k' k); congruence.
  - destruct (String.eqb_spec k k1) as [->|]; cbn.
    + destruct (String.eqb_spec k' k1); [congruence|done].
    + destruct (String.eqb_spec k' k1); [done | apply IH].
Qed.

Lemma set_keys fs k v : (set fs k v).*1 = if bool_decide (k ∈ fs.*1) then fs.*1 else fs.*1 ++ [k].
Proof.
  induction fs as [|[k' v'] fs IH]; cbn; [done|].
  destruct (String.eqb_spec k k') as [->|Hne].
  - by rewrite bool_decide_true by (left; done).
  - cbn. rewrite IH. repeat case_bool_decide; try done; set_solver.
Qed.

Lemma set_NoDup fs k v : NoDup fs.*1 -> NoDup (set fs k v).*1.
Proof.
  intros H. rewrite set_keys. case_bool_decide; [done|].
  apply list.NoDup_app. split; [done|]. split; [set_solver | apply NoDup_singleton].
Qed.

Lemma assign_get fs src k :
  get (assign fs src) k =
    match get (reverse src) k with Some v => Some v | None => get fs k end.
Proof.
  unfold assign. revert fs. induction src as [|[k1 v1] src IH] using rev_ind; intros fs; cbn.
  - done.
  - rewrite foldl_app, reverse_app. cbn.
    destruct (String.eqb_spec k k1) as [->|Hne]; [apply get_set_eq|].
    rewrite get_set_ne by done. apply IH.
Qed.

Lemma instance_of_error c v : instance_of c v = true -> is_error v = true.
Proof. by destruct v. Qed.
