(* ===== verification/JsDate.v ===== *)
(** * Dates: the calendar of ECMAScript time values

    [new Date(ms)], [toISOString] and [Date.UTC] work on the proleptic Gregorian
    calendar.  Days are counted from 1970-01-01; [civil] is the date of a day and
    [day_of_civil] its inverse. *)

From S2P Require Import Prelude JsNumber JsString JsValue.
Local Open Scope Z_scope.

Module Date.
(** The day number of January 1st of year [y] ([DayFromYear] of ECMA-262). *)
Definition day_from_year (y : Z) : Z :=
365 * (y - 1970) + (y - 1969) / 4 - (y - 1901) / 100 + (y - 1601) / 400.

Definition leap (y : Z) : bool :=
(y mod 4 =? 0) && (negb (y mod 100 =? 0) || (y mod 400 =? 0)).

(** The year of a day: an estimate from the mean length of a year, corrected by one. *)
Definition year_of_day (d : Z) : Z :=
let y := 1970 + (400 * d) / 146097 in
if d <? day_from_year y then y - 1
else if day_from_year (y + 1) <=? d then y + 1 else y.

(** Days before month [m] (1 to 12). *)
Definition days_before (lp : bool) (m : Z) : Z :=
let l := if lp then 1 else 0 in
if m <=? 1 then 0 else if m =? 2 then 31 else if m =? 3 then 59 + l
else if m =? 4 then 90 + l else if m =? 5 then 120 + l else if m =? 6 then 151 + l
else if m =? 7 then 181 + l else if m =? 8 then 212 + l else if m =? 9 then 243 + l
else if m =? 10 then 273 + l else if m =? 11 then 304 + l else if m =? 12 then 334 + l
else 365 + l.

Fixpoint month_search (fuel : nat) (lp : bool) (m n : Z) : Z :=
match fuel with
| O => m
| S f => if n <? days_before lp (m + 1) then m else month_search f lp (m + 1) n
end.
Definition month_of (lp : bool) (n : Z) : Z := month_search 11 lp 1 n.

(** Year, month (1 to 12) and day of the month of day [d]. *)
Definition civil (d : Z) : Z * Z * Z :=
let y := year_of_day d in
let n := d - day_from_year y in
let m := month_of (leap y) n in
(y, m, n - days_before (leap y) m + 1).

Definition day_of_civil (y m d : Z) : Z := day_from_year y + days_before (leap y) m + d - 1.

Definition ms_per_day : Z := 86400000.

(** The time value of [new Date(x)]: [None] for an invalid date. *)
Definition time_clip (x : num) : option Z :=
match Num.exact x with
| Some (p, q) =>
    if Z.abs p <=? 8640000000000000 * Zpos q then Some (Z.quot p (Zpos q)) else None
| None => None
end.

Definition pad2 (z : Z) : string := Str.pad_start 2 "0" (Num.bigint_to_string z).

Definition iso_year (y : Z) : string :=
if (0 <=? y) && (y <=? 9999) then Str.pad_start 4 "0" (Num.bigint_to_string y)
else (if y <? 0 then "-" else "+") +:+ Str.pad_start 6 "0" (Num.bigint_to_string (Z.abs y)).

Definition iso_date (t : Z) : string :=
let '(y, m, d) := civil (t / ms_per_day) in
iso_year y +:+ "-" +:+ pad2 m +:+ "-" +:+ pad2 d.

Definition iso_time (t : Z) : string :=
let s := t mod ms_per_day in
pad2 (s / 3600000) +:+ ":" +:+ pad2 (s / 60000 mod 60) +:+ ":" +:+ pad2 (s / 1000 mod 60) +:+ "." +:+
Str.pad_start 3 "0" (Num.bigint_to_string (s mod 1000)) +:+ "Z".

(** [new Date(x).toISOString()]. *)
Definition toISOString (x : num) : res string :=
match time_clip x with
| None => Throw (JErr CRangeError "Invalid time value" [])
| Some t => Ok (iso_date t +:+ "T" +:+ iso_time t)
end.

(** [Date.parse] of [YYYY-MM-DDTHH:mm:ssZ], with optional milliseconds, as RFC 3339
    timestamps of UTC are written, and of [YYYY-MM-DD], which is midnight in UTC too; any
    other string is taken as invalid. *)
Definition int_of (s : string) : option Z :=
if Str.nonempty s && Str.all Str.is_digit s then Some (Str.digits_val s) else None.
Definition field_at (a n : nat) (s : string) : option Z := int_of (Str.slice a (a + n) s).
Definition sep (i : nat) (c : string) (s : string) : bool := String.eqb (Str.slice i (S i) s) c.

Definition in_bounds (lo hi z : Z) : bool := (lo <=? z) && (z <=? hi).
(** The day of [YYYY-MM-DD] at the start of a string. *)
Definition date_part (s : string) : option Z :=
y ← field_at 0 4 s; mo ← field_at 5 2 s; d ← field_at 8 2 s;
if sep 4 "-" s && sep 7 "-" s &&
   in_bounds 1 12 mo && in_bounds 1 (days_before (leap y) (mo + 1) - days_before (leap y) mo) d
then Some (day_of_civil y mo d) else None.
Definition parse_utc (s : string) : option Z :=
day ← date_part s;
if (Str.len s =? 10)%nat then Some (day * ms_per_day)
else
  h ← field_at 11 2 s; mi ← field_at 14 2 s; sec ← field_at 17 2 s;
  ms ← (if sep 19 "." s && sep 23 "Z" s && (Str.len s =? 24)%nat then field_at 20 3 s
        else if sep 19 "Z" s && (Str.len s =? 20)%nat then Some 0 else None);
  if sep 10 "T" s && sep 13 ":" s && sep 16 ":" s &&
     in_bounds 0 23 h && in_bounds 0 59 mi && in_bounds 0 59 sec
  then Some (day * ms_per_day + h * 3600000 + mi * 60000 + sec * 1000 + ms)
  else None.
Definition parse (s : string) : num :=
match parse_utc s with Some t => Num.of_Z t | None => Num.nan end.
End Date.

Example date_tests :
  Date.civil 0 = (1970, 1, 1) /\ Date.civil 19782 = (2024, 2, 29) /\
  Date.civil (-1) = (1969, 12, 31) /\ Date.civil 11016 = (2000, 2, 29) /\
  Date.civil (-25509) = (1900, 2, 28) /\ Date.civil (-25508) = (1900, 3, 1) /\
  Date.toISOString (Num.of_Z 1700000000123) = Ok "2023-11-14T22:13:20.123Z" /\
  Date.parse "2023-11-14T22:13:20.123Z" = Num.of_Z 1700000000123 /\
  Date.parse "2023-11-14T22:13:20Z" = Num.of_Z 1700000000000 /\
  Date.parse "2023-11-14" = Num.of_Z 1699920000000 /\ Date.parse "2023-02-29" = Num.nan /\
  Date.parse "2023-02-29T00:00:00Z" = Num.nan /\ Date.parse "yesterday" = Num.nan /\
  Date.toISOString (Num.of_Z (-1)) = Ok "1969-12-31T23:59:59.999Z" /\
  Date.toISOString (Num.of_Z 253402300800000) = Ok "+010000-01-01T00:00:00.000Z".
Proof. vm_compute. repeat split. Qed.

(** ** The calendar is a bijection *)
Lemma leap_length y :
  Date.day_from_year (y + 1) - Date.day_from_year y = if Date.leap y then 366 else 365.
Proof.
  unfold Date.day_from_year, Date.leap.
  destruct (Z.eqb_spec (y mod 4) 0), (Z.eqb_spec (y mod 100) 0), (Z.eqb_spec (y mod 400) 0);
    cbn [andb orb negb]; Z.to_euclidean_division_equations; lia.
Qed.

Lemma year_of_day_spec d :
  Date.day_from_year (Date.year_of_day d) <= d < Date.day_from_year (Date.year_of_day d + 1).
Proof.
  unfold Date.year_of_day.
  set (y := 1970 + 400 * d / 146097).
  assert (H1 : Date.day_from_year (y - 1) <= d)
    by (unfold y, Date.day_from_year; Z.to_euclidean_division_equations; lia).
  assert (H2 : d < Date.day_from_year (y + 2))
    by (unfold y, Date.day_from_year; Z.to_euclidean_division_equations; lia).
  destruct (Z.ltb_spec d (Date.day_from_year y)).
  - replace (y - 1 + 1) with y by lia. lia.
  - destruct (Z.leb_spec (Date.day_from_year (y + 1)) d); [|lia].
    replace (y + 1 + 1) with (y + 2) by lia. lia.
Qed.

Lemma month_search_spec fuel lp m n :
  Date.days_before lp m <= n < Date.days_before lp 13 -> m + Z.of_nat fuel = 12 ->
  let r := Date.month_search fuel lp m n in
  m <= r <= 12 /\ Date.days_before lp r <= n < Date.days_before lp (r + 1).
Proof.
  revert m. induction fuel as [|fuel IH]; intros m Hn Hf; cbn [Date.month_search].
  - replace m with 12 in * by lia. split; [lia | exact Hn].
  - destruct (Z.ltb_spec n (Date.days_before lp (m + 1))); [split; lia|].
    destruct (IH (m + 1)) as [H1 H2]; [lia | lia |]. split; [lia | done].
Qed.

Lemma month_of_spec (lp : bool) (n : Z) :
  0 <= n < (if lp then 366 else 365) ->
  1 <= Date.month_of lp n <= 12 /\
  Date.days_before lp (Date.month_of lp n) <= n < Date.days_before lp (Date.month_of lp n + 1).
Proof.
  intros H. apply month_search_spec; [|reflexivity].
  change (0 <= n < 365 + (if lp then 1 else 0)). destruct lp; lia.
Qed.

(** The date of a day is a date, and names that day. *)
Lemma civil_spec d :
  let '(y, m, dd) := Date.civil d in
  Date.day_of_civil y m dd = d /\ 1 <= m <= 12 /\
  1 <= dd <= Date.days_before (Date.leap y) (m + 1) - Date.days_before (Date.leap y) m.
Proof.
  unfold Date.civil, Date.day_of_civil. cbn zeta.
  pose proof (year_of_day_spec d) as Hy. pose proof (leap_length (Date.year_of_day d)) as Hl.
  set (y := Date.year_of_day d) in *. set (n := d - Date.day_from_year y).
  assert (Hn : 0 <= n < (if Date.leap y then 366 else 365)) by (destruct (Date.leap y); lia).
  destruct (month_of_spec (Date.leap y) n Hn) as [Hm Hd].
  split; [lia|]. split; [done|]. lia.
Qed.
