(* ===== verification/JsJson.v ===== *)
(** * JSON and URI encoding

    [JSON.parse], [JSON.stringify], [encodeURIComponent] and [URLSearchParams] as the
    web app uses them, on Latin-1 strings: a [\u] escape above 255 becomes a question
    mark, and there is no [toJSON], replacer or indentation. *)

From S2P Require Import Prelude JsNumber JsString JsValue.
Local Open Scope Z_scope.

Module Json.
Definition is_ws (c : ascii) : bool :=
Ascii.eqb c " " || (code c =? 9) || (code c =? 10) || (code c =? 13).
Fixpoint skip (s : string) : string :=
match s with String c r => if is_ws c then skip r else s | EmptyString => "" end.

(** *** Numbers: the longest prefix of the JSON grammar *)
Definition int_part (s : string) : option (string * string) :=
match s with
| String "0" r => Some ("0", r)
| String c _ => if Str.is_digit c then Some (Str.span_digits s) else None
| EmptyString => None
end.
Definition frac_part (s : string) : option (string * string) :=
match s with
| String "." r => let '(d, r') := Str.span_digits r in
                  if Str.nonempty d then Some ("." +:+ d, r') else None
| _ => Some ("", s)
end.
Definition exp_part (s : string) : option (string * string) :=
match s with
| String c r =>
    if Ascii.eqb c "e" || Ascii.eqb c "E" then
      let '(sg, r1) := match r with
                       | String d r' => if Ascii.eqb d "+" || Ascii.eqb d "-"
                                        then (String d "", r') else ("", r)
                       | EmptyString => ("", r)
                       end in
      let '(d, r2) := Str.span_digits r1 in
      if Str.nonempty d then Some ("e" +:+ sg +:+ d, r2) else None
    else Some ("", s)
| EmptyString => Some ("", s)
end.
Definition number (s : string) : option (jsval * string) :=
let '(neg, s) := match s with String "-" r => ("-", r) | _ => ("", s) end in
'(i, s) ← int_part s; '(f, s) ← frac_part s; '(e, s) ← exp_part s;
Some (JNum (Str.parse_number (neg +:+ i +:+ f +:+ e)), s).

(** *** Strings, after the opening quote *)
Definition hex4 (a b c d : ascii) : option Z :=
let v x := Str.radix_digit x in
if (v a <? 16) && (v b <? 16) && (v c <? 16) && (v d <? 16)
then Some (((v a * 16 + v b) * 16 + v c) * 16 + v d) else None.

Definition escape_char (c : ascii) : option ascii :=
if Ascii.eqb c "034" then Some "034"%char else if Ascii.eqb c "\" then Some "\"%char
else if Ascii.eqb c "/" then Some "/"%char else if Ascii.eqb c "b" then Some (chr 8)
else if Ascii.eqb c "f" then Some (chr 12) else if Ascii.eqb c "n" then Some (chr 10)
else if Ascii.eqb c "r" then Some (chr 13) else if Ascii.eqb c "t" then Some (chr 9) else None.

Fixpoint string_body (s : string) : option (string * string) :=
match s with
| EmptyString => None
| String c r =>
    if Ascii.eqb c "034" then Some ("", r)
    else if Ascii.eqb c "\" then
      match r with
      | String "u" (String a (String b (String d (String e r')))) =>
          n ← hex4 a b d e; '(t, rest) ← string_body r';
          Some (String (if n <? 256 then chr n else "?"%char) t, rest)
      | String x r' => y ← escape_char x; '(t, rest) ← string_body r'; Some (String y t, rest)
      | EmptyString => None
      end
    else if code c <? 32 then None
    else '(t, rest) ← string_body r; Some (String c t, rest)
end.

(** *** Values: [fuel] bounds the nesting and the number of members *)
Fixpoint value (fuel : nat) (s : string) : option (jsval * string) :=
match fuel with
| O => None
| S f =>
    match skip s with
    | String "{" r =>
        match skip r with
        | String "}" r' => Some (JObj [], r')
        | _ => members f [] r
        end
    | String "[" r =>
        match skip r with
        | String "]" r' => Some (JArr [], r')
        | _ => elements f [] r
        end
    | String "034" r => '(t, r') ← string_body r; Some (JStr t, r')
    | String "t" (String "r" (String "u" (String "e" r))) => Some (JBool true, r)
    | String "f" (String "a" (String "l" (String "s" (String "e" r)))) => Some (JBool false, r)
    | String "n" (String "u" (String "l" (String "l" r))) => Some (JNull, r)
    | t => number t
    end
end
with members (fuel : nat) (acc : fields) (s : string) : option (jsval * string) :=
match fuel with
| O => None
| S f =>
    match skip s with
    | String "034" r =>
        '(k, r) ← string_body r;
        match skip r with
        | String ":" r =>
            '(v, r) ← value f r;
            match skip r with
            | String "," r => members f (set acc k v) r
            | String "}" r => Some (JObj (set acc k v), r)
            | _ => None
            end
        | _ => None
        end
    | _ => None
    end
end
with elements (fuel : nat) (acc : list jsval) (s : string) : option (jsval * string) :=
match fuel with
| O => None
| S f =>
    '(v, r) ← value f s;
    match skip r with
    | String "," r => elements f (acc ++ [v]) r
    | String "]" r => Some (JArr (acc ++ [v]), r)
    | _ => None
    end
end.

(** Every call consumes a character or is followed by one that does, so twice the
    length is enough fuel. *)
Definition parse (s : string) : res jsval :=
match value (2 * Str.len s + 2) s with
| Some (v, r) => if String.eqb (skip r) "" then Ok v
                 else Throw (JErr CSyntaxError "Unexpected token in JSON" [])
| None => Throw (JErr CSyntaxError "Unexpected token in JSON" [])
end.

(** *** [JSON.stringify] *)
Definition quote_char (c : ascii) : string :=
let n := code c in
if Ascii.eqb c "034" then String "\" (String "034" "")
else if Ascii.eqb c "\" then "\\"
else if n =? 8 then "\b" else if n =? 12 then "\f" else if n =? 10 then "\n"
else if n =? 13 then "\r" else if n =? 9 then "\t"
else if n <? 32 then "\u00" +:+ String (Hex.digit (n / 16)) (String (Hex.digit (n mod 16)) "")
else String c "".
Fixpoint quote_body (s : string) : string :=
match s with EmptyString => "" | String c r => quote_char c +:+ quote_body r end.
Definition quote (s : string) : string := String "034" (quote_body s +:+ String "034" "").

Fixpoint keep_some {A} (l : list (option A)) : list A :=
match l with [] => [] | Some a :: r => a :: keep_some r | None :: r => keep_some r end.

(** [None] is [undefined]. *)
Fixpoint stringify (v : jsval) : res (option string) :=
let member kv := match stringify kv.2 with
                 | Ok (Some t) => Ok (Some (quote kv.1 +:+ ":" +:+ t))
                 | Ok None => Ok None
                 | Throw e => Throw e
                 end in
match v with
| JUndef | JSym | JFun => Ok None
| JNull => Ok (Some "null")
| JBool b => Ok (Some (if b then "true" else "false"))
| JNum n => Ok (Some (if Num.is_finite n then Num.to_string n else "null"))
| JBig _ => Throw (JErr CTypeError "Do not know how to serialize a BigInt" [])
| JStr s => Ok (Some (quote s))
| JArr l =>
    ts ← map_result stringify l;
    Ok (Some ("[" +:+ Str.join "," (map (default "null") ts) +:+ "]"))
| JObj fs =>
    ts ← map_result member fs; Ok (Some ("{" +:+ Str.join "," (keep_some ts) +:+ "}"))
| JErr _ _ ps =>
    ts ← map_result member ps; Ok (Some ("{" +:+ Str.join "," (keep_some ts) +:+ "}"))
| JMap _ => Ok (Some "{}")
| JBytes bs =>
    Ok (Some ("{" +:+ Str.join "," (imap (fun i b =>
      quote (Num.bigint_to_string (Z.of_nat i)) +:+ ":" +:+ Num.bigint_to_string b) bs) +:+ "}"))
end.
End Json.

Module Uri.
(** UTF-8 of a Latin-1 code unit, percent-encoded. *)
Definition hexd (z : Z) : ascii := if z <? 10 then chr (48 + z) else chr (55 + z).
Definition pct (n : Z) : string := String "%" (String (hexd (n / 16)) (String (hexd (n mod 16)) "")).
Definition percent (c : ascii) : string :=
let n := code c in
if n <? 128 then pct n else pct (192 + n / 64) +:+ pct (128 + n mod 64).

Definition alnum (c : ascii) : bool :=
in_range 48 57 c || in_range 65 90 c || in_range 97 122 c.
Definition char_in (s : string) (c : ascii) : bool := Str.includes s (String c "").

Fixpoint encode_with (keep : ascii -> bool) (space : string) (s : string) : string :=
match s with
| EmptyString => ""
| String c r =>
    (if keep c then String c "" else if Ascii.eqb c " " then space else percent c) +:+
    encode_with keep space r
end.

(** [encodeURIComponent]. *)
Definition encode_component : string -> string :=
encode_with (fun c => alnum c || char_in "-_.!~*'()" c) "%20".

(** [URLSearchParams.toString()] of appended pairs. *)
Definition encode_form : string -> string :=
encode_with (fun c => alnum c || char_in "*-._" c) "+".
Definition query (params : list (string * string)) : string :=
Str.join "&" (map (fun kv => encode_form kv.1 +:+ "=" +:+ encode_form kv.2) params).
End Uri.

Definition dq : string := String (chr 34) "".
Example json_tests :
  Json.parse (" {" +:+ dq +:+ "a" +:+ dq +:+ ": [1, -2.5e1, true, null, " +:+ dq +:+ "x\n\u0041" +:+ dq +:+ "] } ")
    = Ok (JObj [("a", JArr [JNum (Num.of_Z 1); JNum (Num.of_Z (-25)); JBool true; JNull;
                            JStr ("x" +:+ String (chr 10) "A")])]) /\
  is_ok (Json.parse "[1,]") = false /\ is_ok (Json.parse "01") = false /\
  is_ok (Json.parse "") = false /\ is_ok (Json.parse "nul") = false /\
  Json.parse "[[],{}]" = Ok (JArr [JArr []; JObj []]) /\
  Json.stringify (JObj [("a", JArr [JUndef; JNum (Num.of_decimal false 15 (-1))]); ("b", JUndef);
                        ("c", JStr ("q" +:+ dq))]) =
    Ok (Some ("{" +:+ dq +:+ "a" +:+ dq +:+ ":[null,1.5]," +:+ dq +:+ "c" +:+ dq +:+ ":" +:+ dq +:+ "q\" +:+
              dq +:+ dq +:+ "}")) /\
  Uri.encode_component "a b/c" = "a%20b%2Fc" /\
  Uri.query [("status", "Listed"); ("q", "a b")] = "status=Listed&q=a+b".
Proof. vm_compute. repeat split. Qed.

(** Quoting and reading back: every string survives. *)
Lemma string_body_char c s t rest :
  Json.string_body s = Some (t, rest) ->
  Json.string_body (Json.quote_char c +:+ s) = Some (String c t, rest).
Proof.
  intros H. destruct c as [[] [] [] [] [] [] [] []]; vm_compute Json.quote_char;
    cbn -[Str.radix_digit]; rewrite ?H; try reflexivity;
    vm_compute (Json.hex4 _ _ _ _); cbn; by rewrite ?H.
Qed.

Lemma string_body_quote s rest :
  Json.string_body (Json.quote_body s +:+ String "034" rest) = Some (s, rest).
Proof.
  induction s as [|c s IH]; [reflexivity|]. cbn [Json.quote_body].
  rewrite app_assoc_str. by apply string_body_char.
Qed.
