(* ===== verification/JsonRoundTrip.v ===== *)
(** * [JSON.parse] reads back what [JSON.stringify] printed

    The caches of the web app are values printed to [localStorage] and parsed on the next
    load.  A value made of [null], booleans, strings, numbers that print as JSON numbers,
    arrays and objects without repeated keys survives ([parse_stringify]); a run of the
    parser on the printed text needs one unit of fuel for each of its characters. *)

From S2P Require Import Prelude JsNumber JsString JsValue JsJson.

Module RoundTrip.
(** The values that survive. *)
Definition num_ok (n : num) : bool :=
  Num.is_finite n &&
  match Json.number (Num.to_string n) with Some (JNum m, "") => bool_decide (m = n) | _ => false end.
Fixpoint storable (v : jsval) : bool :=
  match v with
  | JNull | JBool _ | JStr _ => true
  | JNum n => num_ok n
  | JArr l => forallb storable l
  | JObj fs => bool_decide (NoDup fs.*1) && forallb (fun kv => storable kv.2) fs
  | _ => false
  end.

(** What may follow a value in a printed text. *)
Definition delim (s : string) : bool :=
  match s with "" => true | String c _ => Json.is_ws c || Ascii.eqb c "," || Ascii.eqb c "]" || Ascii.eqb c "}" end.
(** White space around a text. *)
Definition blank (s : string) : bool := Str.all Json.is_ws s.
(** A printed value starts with none of these, and with no blank. *)
Definition starts (s : string) : bool :=
  match s with "" => false | String c _ => negb (Json.is_ws c || Ascii.eqb c "]" || Ascii.eqb c "}") end.
End RoundTrip.
Import RoundTrip.

(** ** Numbers *)
Lemma span_digits_delim s d r rest : Str.span_digits s = (d, r) -> delim rest = true ->
  Str.span_digits (s +:+ rest) = (d, r +:+ rest).
Proof.
  revert d r. induction s as [|c s IH]; intros d r H Hrest; cbn in *.
  - injection H as <- <-. destruct rest as [|c rest]; [done|]. cbn in *.
    destruct c as [[] [] [] [] [] [] [] []]; try discriminate Hrest; reflexivity.
  - destruct (Str.is_digit c); [|by injection H as <- <-].
    destruct (Str.span_digits s) as [d' r'] eqn:E. injection H as <- <-. by rewrite (IH _ _ eq_refl Hrest).
Qed.

Lemma int_part_delim s i r rest : Json.int_part s = Some (i, r) -> delim rest = true ->
  Json.int_part (s +:+ rest) = Some (i, r +:+ rest).
Proof.
  destruct s as [|c s]; [done|]. intros H Hrest.
  assert (Hc : c = "0"%char \/ c <> "0"%char) by (destruct (Ascii.ascii_dec c "0"); auto).
  destruct Hc as [->|Hc]; [cbn in *; by injection H as <- <-|].
  assert (E : forall s, Json.int_part (String c s) = if Str.is_digit c then Some (Str.span_digits (String c s)) else None).
  { intros s'. destruct c as [[] [] [] [] [] [] [] []]; try reflexivity. by destruct Hc. }
  change (String c s +:+ rest) with (String c (s +:+ rest)). rewrite E in *.
  destruct (Str.is_digit c); [|done]. injection H as H.
  f_equal. exact (span_digits_delim (String c s) i r rest H Hrest).
Qed.

Lemma frac_part_delim s f r rest : Json.frac_part s = Some (f, r) -> delim rest = true ->
  Json.frac_part (s +:+ rest) = Some (f, r +:+ rest).
Proof.
  intros H Hrest. destruct s as [|c s].
  - cbn in *. injection H as <- <-. destruct rest as [|c rest]; [done|]. cbn in Hrest.
    destruct c as [[] [] [] [] [] [] [] []]; try discriminate Hrest; reflexivity.
  - assert (E : forall s, Json.frac_part (String c s) = if Ascii.eqb c "." then
       (let '(d, r') := Str.span_digits s in if Str.nonempty d then Some ("." +:+ d, r') else None)
       else Some ("", String c s)).
    { intros s'. by destruct c as [[] [] [] [] [] [] [] []]. }
    change (String c s +:+ rest) with (String c (s +:+ rest)). rewrite E in *.
    destruct (Ascii.eqb c "."); [|by injection H as <- <-].
    destruct (Str.span_digits s) as [d r'] eqn:Es. rewrite (span_digits_delim _ _ _ _ Es Hrest).
    destruct (Str.nonempty d); [by injection H as <- <-|done].
Qed.

Lemma exp_part_delim s e r rest : Json.exp_part s = Some (e, r) -> delim rest = true ->
  Json.exp_part (s +:+ rest) = Some (e, r +:+ rest).
Proof.
  intros H Hrest. destruct s as [|c s]; cbn in H |- *.
  - injection H as <- <-. destruct rest as [|c rest]; [done|]. cbn in Hrest |- *.
    destruct c as [[] [] [] [] [] [] [] []]; try discriminate Hrest; reflexivity.
  - destruct (Ascii.eqb c "e" || Ascii.eqb c "E") eqn:He; [|by injection H as <- <-].
    destruct s as [|d s]; cbn in H |- *; [done|].
    destruct (Ascii.eqb d "+" || Ascii.eqb d "-").
    + destruct (Str.span_digits s) as [ds r'] eqn:Es. rewrite (span_digits_delim _ _ _ _ Es Hrest).
      destruct (Str.nonempty ds); [by injection H as <- <-|done].
    + change (String d (s +:+ rest)) with (String d s +:+ rest).
      destruct (Str.span_digits (String d s)) as [ds r'] eqn:Es.
      rewrite (span_digits_delim _ _ _ _ Es Hrest).
      destruct (Str.nonempty ds); [by injection H as <- <-|done].
Qed.

Lemma number_delim s v rest : Json.number s = Some (v, "") -> delim rest = true ->
  Json.number (s +:+ rest) = Some (v, rest).
Proof.
  intros H Hrest. destruct s as [|c s]; [done|].
  assert (E : forall s, Json.number (String c s) =
    (let '(neg, s0) := if Ascii.eqb c "-" then ("-", s) else ("", String c s) in
     '(i, s1) ← Json.int_part s0; '(f, s2) ← Json.frac_part s1; '(e, s3) ← Json.exp_part s2;
     Some (JNum (Str.parse_number (neg +:+ i +:+ f +:+ e)), s3))).
  { intros s'. by destruct c as [[] [] [] [] [] [] [] []]. }
  change (String c s +:+ rest) with (String c (s +:+ rest)). rewrite E in *. clear E.
  assert (Hs : (if Ascii.eqb c "-" then ("-", s +:+ rest) else ("", String c (s +:+ rest))) =
    (let '(neg, s0) := if Ascii.eqb c "-" then ("-", s) else ("", String c s) in (neg, s0 +:+ rest))).
  { by destruct (Ascii.eqb c "-"). }
  rewrite Hs. destruct (if Ascii.eqb c "-" then _ else _) as [neg s0]. clear Hs.
  destruct (Json.int_part s0) as [[i s1]|] eqn:Hi; cbn in H; [|done].
  rewrite (int_part_delim _ _ _ _ Hi Hrest). cbn.
  destruct (Json.frac_part s1) as [[f s2]|] eqn:Hf; cbn in H; [|done].
  rewrite (frac_part_delim _ _ _ _ Hf Hrest). cbn.
  destruct (Json.exp_part s2) as [[e s3]|] eqn:He; cbn in H; [|done].
  rewrite (exp_part_delim _ _ _ _ He Hrest). cbn. by injection H as <- ->.
Qed.

(** A printed number starts like one. *)
Lemma number_head s v r : Json.number s = Some (v, r) ->
  exists c s', s = String c s' /\ (c = "-"%char \/ Str.is_digit c = true).
Proof.
  intros H. destruct s as [|c s]; [done|]. exists c, s. split; [done|].
  destruct (Ascii.ascii_dec c "-") as [->|Hc]; [by left|right].
  destruct (Str.is_digit c) eqn:Hd; [done|].
  destruct c as [[] [] [] [] [] [] [] []]; cbn in H, Hd; solve [discriminate|by destruct Hc].
Qed.

(** ** Values *)
Definition reads (v : jsval) (t : string) : Prop :=
  forall fuel rest, (Str.len t <= fuel)%nat -> delim rest = true ->
    Json.value fuel (t +:+ rest) = Some (v, rest).
Definition prints (v : jsval) (t : string) : Prop :=
  Json.stringify v = Ok (Some t) /\ starts t = true /\ reads v t.

Lemma skip_starts t rest : starts t = true -> Json.skip (t +:+ rest) = t +:+ rest.
Proof. destruct t as [|c t]; [done|]. cbn. by destruct (Json.is_ws c). Qed.

Lemma prints_num n : num_ok n = true -> exists t, prints (JNum n) t.
Proof.
  unfold num_ok. destruct (Num.is_finite n) eqn:Hf; [|done]. cbn [andb].
  destruct (Json.number (Num.to_string n)) as [[[| | |m| | | | | | | | |] []]|] eqn:Hn; try done.
  intros ->%bool_decide_eq_true_1. exists (Num.to_string n).
  destruct (number_head _ _ _ Hn) as (c & s & Hs & Hc).
  assert (Hc' : starts (Num.to_string n) = true /\
    forall f r, Json.value (S f) (Num.to_string n +:+ r) = Json.number (Num.to_string n +:+ r)).
  { rewrite Hs. destruct c as [[] [] [] [] [] [] [] []]; cbn in Hc;
      first [by destruct Hc|by split; [|intros f r; cbn]]. }
  destruct Hc' as [Hst Hv]. split; [cbn; by rewrite Hf|]. split; [done|].
  intros fuel rest Hlen Hrest. destruct fuel as [|f]; [by rewrite Hs in Hlen; cbn in Hlen; lia|].
  rewrite Hv. by apply number_delim.
Qed.

(** The parser on the first character of a string, an array and an object. *)
Lemma value_str f r :
  Json.value (S f) (String "034" r) = ('(t, r') ← Json.string_body r; Some (JStr t, r')).
Proof. reflexivity. Qed.
Lemma value_arr f r : Json.value (S f) (String "[" r) =
  match Json.skip r with String "]" r' => Some (JArr [], r') | _ => Json.elements f [] r end.
Proof. reflexivity. Qed.
Lemma value_obj f r : Json.value (S f) (String "{" r) =
  match Json.skip r with String "}" r' => Some (JObj [], r') | _ => Json.members f [] r end.
Proof. reflexivity. Qed.
Lemma members_key f acc r : Json.members (S f) acc (String "034" r) =
  ('(k, r) ← Json.string_body r;
   match Json.skip r with
   | String ":" r =>
       '(v, r) ← Json.value f r;
       match Json.skip r with
       | String "," r => Json.members f (set acc k v) r
       | String "}" r => Some (JObj (set acc k v), r)
       | _ => None
       end
   | _ => None
   end).
Proof. reflexivity. Qed.

Lemma prints_str s : prints (JStr s) (Json.quote s).
Proof.
  split; [done|]. split; [done|]. intros fuel rest Hlen _. destruct fuel as [|f]; [cbn in Hlen; lia|].
  unfold Json.quote. cbn [String.append]. rewrite app_assoc_str, value_str. cbn [String.append].
  by rewrite string_body_quote.
Qed.

Lemma delim_skip c rest : Json.is_ws c = false -> Json.skip (String c rest) = String c rest.
Proof. cbn [Json.skip]. by intros ->. Qed.

Lemma starts_len t : starts t = true -> (1 <= Str.len t)%nat.
Proof. destruct t; cbn; [done|lia]. Qed.

Lemma join_cons t ts : Str.join "," (t :: ts) = match ts with [] => t | _ => t +:+ "," +:+ Str.join "," ts end.
Proof. by destruct ts. Qed.

Lemma elements_reads vs ts : Forall2 (fun v t => starts t = true /\ reads v t) vs ts -> vs <> [] ->
  forall fuel acc rest, (Str.len (Str.join "," ts) + 1 <= fuel)%nat ->
  Json.elements fuel acc (Str.join "," ts +:+ String "]" rest) = Some (JArr (acc ++ vs), rest).
Proof.
  induction 1 as [|v t vs ts [Hst Hr] Hall IH]; [done|]. intros _ fuel acc rest Hlen.
  destruct fuel as [|f]; [lia|]. rewrite join_cons in *. destruct Hall as [|v' t' vs ts H' Hall].
  - cbn [Json.elements]. rewrite Hr by (done || lia). reflexivity.
  - rewrite !app_len in Hlen. cbn [Str.len String.length] in Hlen. rewrite !app_assoc_str. cbn [Json.elements].
    rewrite Hr by (done || lia). cbn [mbind option_bind String.append].
    rewrite (delim_skip "," _ eq_refl), IH; [|done|unfold Str.len in *; lia].
    by rewrite <- app_assoc.
Qed.

Definition member_text (kv : string * jsval) (t : string) : Prop := exists u,
  t = Json.quote kv.1 +:+ ":" +:+ u /\ starts u = true /\ reads kv.2 u.

Lemma set_fresh fs k v : k ∉ fs.*1 -> set fs k v = fs ++ [(k, v)].
Proof.
  induction fs as [|[k' v'] fs IH]; cbn; [done|]. intros H. apply not_elem_of_cons in H as [Hne H].
  destruct (String.eqb_spec k k'); [done|]. by rewrite IH.
Qed.

Lemma members_reads fs ts : Forall2 member_text fs ts -> fs <> [] ->
  forall fuel acc rest, (Str.len (Str.join "," ts) + 1 <= fuel)%nat -> NoDup (acc ++ fs).*1 ->
  Json.members fuel acc (Str.join "," ts +:+ String "}" rest) = Some (JObj (acc ++ fs), rest).
Proof.
  induction 1 as [|[k v] t fs ts (u & -> & Hst & Hr) Hall IH]; [done|]. intros _ fuel acc rest Hlen Hnd.
  cbn [fst snd] in *.
  assert (Hfresh : set acc k v = acc ++ [(k, v)]).
  { apply set_fresh. rewrite fmap_app in Hnd. apply list.NoDup_app in Hnd as (_ & Hd & _). set_solver. }
  assert (Hu : forall f r, (Str.len u <= f)%nat -> delim r = true ->
    Json.members (S f) acc ((Json.quote k +:+ ":" +:+ u) +:+ r) =
    match Json.skip r with
    | String "," r' => Json.members f (acc ++ [(k, v)]) r'
    | String "}" r' => Some (JObj (acc ++ [(k, v)]), r')
    | _ => None
    end).
  { intros f r Hf Hd. unfold Json.quote. cbn [String.append]. rewrite !app_assoc_str.
    rewrite members_key. cbn [String.append]. rewrite string_body_quote. cbn [mbind option_bind].
    change (Json.skip (String ":" (u +:+ r))) with (String ":" (u +:+ r)). cbn iota beta.
    rewrite Hr by done. cbn [mbind option_bind]. by rewrite Hfresh. }
  destruct fuel as [|f]; [lia|]. rewrite join_cons in *. destruct Hall as [|kv' t' fs ts H' Hall].
  - rewrite Hu; [reflexivity| |done]. rewrite !app_len in Hlen. unfold Str.len in *. cbn [String.length] in *. lia.
  - rewrite !app_len in Hlen. cbn [String.length] in Hlen.
    rewrite (app_assoc_str _ ("," +:+ _)), Hu; [|unfold Str.len in *; cbn in Hlen |- *; lia|done].
    cbn [String.append]. rewrite (delim_skip "," _ eq_refl), IH; [by rewrite <- app_assoc|done|unfold Str.len in *; cbn in Hlen |- *; lia|].
    by rewrite <- app_assoc.
Qed.

(** A first character that opens no empty array or object goes to the members. *)
Lemma value_nonempty f t r : starts t = true ->
  Json.value (S f) (String "[" (t +:+ r)) = Json.elements f [] (t +:+ r).
Proof.
  intros Hst. rewrite value_arr, skip_starts by done. destruct t as [|c t]; [done|].
  cbn in Hst. cbn [String.append]. destruct c as [[] [] [] [] [] [] [] []]; try done; discriminate Hst.
Qed.

Lemma prints_arr l : Forall (fun v => exists t, prints v t) l -> exists t, prints (JArr l) t.
Proof.
  intros H. assert (exists ts, map_result Json.stringify l = Ok (map Some ts) /\
    Forall2 (fun v t => starts t = true /\ reads v t) l ts) as (ts & Hts & Hall).
  { induction H as [|v l (t & Ht & Hst & Hr) _ (ts & IH & Hall)]; [by exists []|].
    exists (t :: ts). cbn. rewrite Ht, IH. split; [done|]. by constructor. }
  exists ("[" +:+ Str.join "," ts +:+ "]"). split; [|split; [done|]].
  - cbn [Json.stringify]. rewrite Hts. cbn. do 4 f_equal. by rewrite map_map, map_id.
  - intros fuel rest Hlen Hrest. rewrite !app_len in Hlen. cbn [Str.len String.length] in Hlen.
    destruct fuel as [|f]; [lia|]. cbn [String.append]. rewrite app_assoc_str. cbn [String.append].
    destruct Hall as [|v t l ts [Hst Hr] Hall]; [reflexivity|].
    assert (Hj : starts (Str.join "," (t :: ts)) = true).
    { rewrite join_cons. destruct ts; [done|]. destruct t; [done|]. exact Hst. }
    rewrite value_nonempty by done.
    apply (elements_reads (v :: l) (t :: ts)); [by constructor|done|unfold Str.len in *; lia].
Qed.

Lemma value_members f t r :
  Json.value (S f) (String "{" (String "034" t +:+ r)) = Json.members f [] (String "034" t +:+ r).
Proof. reflexivity. Qed.

Lemma prints_obj fs : NoDup fs.*1 -> Forall (fun kv => exists t, prints kv.2 t) fs -> exists t, prints (JObj fs) t.
Proof.
  intros Hnd H. cbn [Json.stringify].
  set (member := fun kv : string * jsval => match Json.stringify kv.2 with
    | Ok (Some t) => Ok (Some (Json.quote kv.1 +:+ ":" +:+ t)) | Ok None => Ok None | Throw e => Throw e end).
  assert (exists ts, map_result member fs = Ok (map Some ts) /\ Forall2 member_text fs ts) as (ts & Hts & Hall).
  { clear Hnd. induction H as [|kv fs (u & Hu & Hst & Hr) _ (ts & IH & Hall)]; [by exists []|].
    exists ((Json.quote kv.1 +:+ ":" +:+ u) :: ts). cbn. unfold member at 1. rewrite Hu, IH. split; [done|].
    constructor; [by exists u|done]. }
  exists ("{" +:+ Str.join "," ts +:+ "}"). split; [|split; [done|]].
  - cbn [Json.stringify]. fold member. rewrite Hts. cbn.
    enough (Json.keep_some (map Some ts) = ts) as -> by done.
    clear. induction ts as [|t ts IH]; cbn; [done|]. by rewrite IH.
  - intros fuel rest Hlen Hrest. rewrite !app_len in Hlen. cbn [Str.len String.length] in Hlen.
    destruct fuel as [|f]; [lia|]. cbn [String.append]. rewrite app_assoc_str. cbn [String.append].
    destruct Hall as [|kv t fs ts (u & -> & Hst & Hr) Hall]; [reflexivity|].
    assert (exists j, Str.join "," ((Json.quote kv.1 +:+ ":" +:+ u) :: ts) = String "034" j) as [j Hj].
    { rewrite join_cons. destruct ts; by eexists. }
    rewrite Hj, value_members, <- Hj.
    apply (members_reads (kv :: fs)); [constructor; [by exists u|done]|done|rewrite Hj in Hlen |- *; unfold Str.len in *; lia|done].
Qed.

(** Induction over the values nested in a value. *)
Lemma storable_prints : forall v, storable v = true -> exists t, prints v t.
Proof.
  fix IH 1. intros v. destruct v as [| |b|n| |s| | |l|fs| | |]; intros Hv; try discriminate Hv.
  - exists "null". split; [done|]. split; [done|]. intros [|f] rest Hlen _; [cbn in Hlen; lia|reflexivity].
  - exists (if b then "true" else "false"). split; [done|]. split; [by destruct b|].
    intros [|f] rest Hlen _; [destruct b; cbn in Hlen; lia|by destruct b].
  - by apply prints_num.
  - exists (Json.quote s). apply prints_str.
  - apply prints_arr. cbn [storable] in Hv. revert Hv. induction l as [|v l IHl]; intros Hv; [constructor|].
    cbn [forallb] in Hv. apply andb_prop in Hv as [Hv Hl]. constructor; [by apply IH|by apply IHl].
  - cbn [storable] in Hv. apply andb_prop in Hv as [Hnd%bool_decide_eq_true_1 Hv]. apply prints_obj; [done|].
    clear Hnd. revert Hv. induction fs as [|[k v] fs IHf]; intros Hv; [constructor|].
    cbn [forallb] in Hv. apply andb_prop in Hv as [Hv Hl]. constructor; [by apply IH|by apply IHf].
Qed.

(** The text of a value may have white space after it. *)
Lemma parse_padded v ws : storable v = true -> blank ws = true ->
  exists t, Json.stringify v = Ok (Some t) /\ t <> "" /\ Json.parse (t +:+ ws) = Ok v.
Proof.
  intros (t & Ht & Hst & Hr)%storable_prints Hws. exists t. split; [done|]. split; [by intros ->|].
  assert (Hd : delim ws = true /\ Json.skip ws = "").
  { clear -Hws. induction ws as [|c ws IH]; [done|]. cbn in Hws |- *. apply andb_prop in Hws as [-> Hws].
    split; [done|]. apply IH, Hws. }
  unfold Json.parse. rewrite Hr; [|rewrite app_len; lia|apply Hd]. by rewrite (proj2 Hd).
Qed.
Lemma parse_stringify v : storable v = true ->
  exists t, Json.stringify v = Ok (Some t) /\ t <> "" /\ Json.parse t = Ok v.
Proof. intros Hv. destruct (parse_padded v "" Hv eq_refl) as (t & Ht & Hne & Hp). rewrite app_nil_str in Hp. by exists t. Qed.

Lemma set_storable fs k v : forallb (fun kv => storable kv.2) fs = true -> storable v = true ->
  forallb (fun kv => storable kv.2) (set fs k v) = true.
Proof.
  intros Hf Hv. induction fs as [|[k' v'] fs IH]; cbn; [by rewrite Hv|].
  cbn in Hf. apply andb_prop in Hf as [Hv' Hf]. destruct (String.eqb k k'); cbn; [by rewrite Hv|].
  by rewrite Hv', IH.
Qed.

(** A cached value with every kind of member. *)
Example parse_stringify_sample :
  let v := JArr [JObj [("name", JStr "a,b]"); ("at", JNum (Num.of_Z 1700000000123)); ("none", JNull)];
                 JArr []; JObj []; JBool true; JNum (Num.of_decimal true 15 (-1))] in
  storable v = true /\ (Json.stringify v ≫= (fun t => Json.parse (default "" t))) = Ok v.
Proof. vm_compute. split; reflexivity. Qed.
