(* ===== verification/Effects.v ===== *)
(** * Effects: a logged state-and-exception monad

    Code that awaits network calls, signs with the wallet, sleeps or toasts is modelled
    by [M Env Ev A]: a function of a [world] (the state of everything outside the
    program, plus the log of what the program did so far) that returns a result and the
    new world.  The environment is a parameter throughout: nothing is assumed about
    how the RPC server, Horizon or the wallet answer.  [trace_spec m P] states a
    property of the log entries [m] adds together with its result, and composes along
    [bind], [catch] and [finally]. *)

From S2P Require Import Prelude JsValue.

Record world (Env Ev : Type) : Type := World { w_env : Env; w_log : list Ev }.
Arguments World {Env Ev}.
Arguments w_env {Env Ev}.
Arguments w_log {Env Ev}.

Definition M (Env Ev A : Type) : Type := world Env Ev -> res A * world Env Ev.

#[export] Instance M_ret Env Ev : MRet (M Env Ev) := fun _ a w => (Ok a, w).
#[export] Instance M_bind Env Ev : MBind (M Env Ev) := fun _ _ f m w =>
  match m w with
  | (Ok a, w') => f a w'
  | (Throw e, w') => (Throw e, w')
  end.

Section Operations.
Context {Env Ev : Type}.

(** A value computed without effects. *)
Definition lift {A} (r : res A) : M Env Ev A := fun w => (r, w).
Definition raise {A} (e : jsval) : M Env Ev A := fun w => (Throw e, w).

(** One interaction with the environment; the log entry may mention its outcome. *)
Definition io {A} (entry : res A -> Ev) (op : Env -> res A * Env) : M Env Ev A :=
fun w => let '(r, e) := op (w_env w) in (r, World e (w_log w ++ [entry r])).

(** An action of the program that the environment cannot make fail. *)
Definition emit (e : Ev) : M Env Ev () := fun w => (Ok tt, World (w_env w) (w_log w ++ [e])).

(** Reads the state outside the program. *)
Definition gets {A} (f : Env -> A) : M Env Ev A := fun w => (Ok (f (w_env w)), w).

(** [try { m } catch (e) { h(e) }]: effects of [m] are not undone. *)
Definition catch {A} (m : M Env Ev A) (h : jsval -> M Env Ev A) : M Env Ev A :=
fun w => match m w with
         | (Ok a, w') => (Ok a, w')
         | (Throw e, w') => h e w'
         end.

(** The outcome of [m] as a value: what the code after a [try] block sees. *)
Definition attempt {A} (m : M Env Ev A) : M Env Ev (res A) := fun w => let '(r, w') := m w in (Ok r, w').

(** [try { m } finally { f }]. *)
Definition finally {A} (m : M Env Ev A) (f : M Env Ev ()) : M Env Ev A :=
fun w => let '(r, w') := m w in
         match f w' with
         | (Ok _, w'') => (r, w'')
         | (Throw e, w'') => (Throw e, w'')
         end.

(** Runs code whose log entries are part of a larger vocabulary. *)
Definition relabel {Ev' A} (f : Ev -> Ev') (m : M Env Ev A) : M Env Ev' A :=
fun w => let '(r, w') := m (World (w_env w) []) in
         (r, World (w_env w') (w_log w ++ map f (w_log w'))).

(** The log entries and the result of running [m]. *)
Definition run {A} (m : M Env Ev A) (env : Env) : res A * list Ev :=
let '(r, w) := m (World env []) in (r, w_log w).

Definition trace_spec {A} (m : M Env Ev A) (P : list Ev -> res A -> Prop) : Prop :=
forall w, exists l, w_log (m w).2 = w_log w ++ l /\ P l (m w).1.

Definition emits {A} (P : Ev -> Prop) (m : M Env Ev A) : Prop :=
trace_spec m (fun l _ => Forall P l).
End Operations.

(** ** Rules *)
Section Rules.
Context {Env Ev : Type}.
Implicit Types (A B : Type).

Lemma trace_weaken {A} (m : M Env Ev A) (P Q : list Ev -> res A -> Prop) :
trace_spec m P -> (forall l r, P l r -> Q l r) -> trace_spec m Q.
Proof. intros H HPQ w. destruct (H w) as (l & ? & ?). eauto. Qed.

Lemma trace_conj {A} (m : M Env Ev A) (P Q : list Ev -> res A -> Prop) :
trace_spec m P -> trace_spec m Q -> trace_spec m (fun l r => P l r /\ Q l r).
Proof.
intros HP HQ w. destruct (HP w) as (l & Hl & HPl), (HQ w) as (l' & Hl' & HQl).
exists l. split; [done|]. split; [done|].
rewrite Hl in Hl'. apply app_inv_head in Hl'. by subst.
Qed.

Lemma trace_run {A} (m : M Env Ev A) P env :
trace_spec m P -> P (run m env).2 (run m env).1.
Proof.
intros H. destruct (H (World env [])) as (l & Hl & HP). unfold run.
destruct (m (World env [])) as [r w]. cbn in *. by subst.
Qed.

Lemma trace_lift {A} (r : res A) (P : list Ev -> res A -> Prop) :
P [] r -> trace_spec (lift (Env := Env) r) P.
Proof. intros H w. exists []. by rewrite app_nil_r. Qed.

Lemma trace_ret {A} (a : A) (P : list Ev -> res A -> Prop) :
P [] (Ok a) -> trace_spec (mret a : M Env Ev A) P.
Proof. intros H w. exists []. by rewrite app_nil_r. Qed.

Lemma trace_raise {A} e (P : list Ev -> res A -> Prop) :
P [] (Throw e) -> trace_spec (raise (Env := Env) e) P.
Proof. intros H w. exists []. by rewrite app_nil_r. Qed.

Lemma trace_gets {A} (f : Env -> A) (P : list Ev -> res A -> Prop) :
(forall a, P [] (Ok a)) -> trace_spec (gets f) P.
Proof. intros H w. exists []. split; [by rewrite app_nil_r | apply H]. Qed.

Lemma trace_io {A} entry op (P : list Ev -> res A -> Prop) :
(forall r, P [entry r] r) -> trace_spec (io (Env := Env) entry op) P.
Proof. intros H w. unfold io. destruct (op (w_env w)) as [r e]. exists [entry r]. eauto. Qed.

Lemma trace_emit e (P : list Ev -> res () -> Prop) :
P [e] (Ok tt) -> trace_spec (emit (Env := Env) e) P.
Proof. intros H w. exists [e]. eauto. Qed.

Lemma trace_relabel {Ev' A} (f : Ev -> Ev') (m : M Env Ev A) P (Q : list Ev' -> res A -> Prop) :
trace_spec m P -> (forall l r, P l r -> Q (map f l) r) -> trace_spec (relabel f m) Q.
Proof.
intros Hm HPQ w. unfold relabel. destruct (Hm (World (w_env w) [])) as (l & Hl & HP).
destruct (m (World (w_env w) [])) as [r w']. cbn in *. exists (map f l). subst. eauto.
Qed.

Lemma trace_bind {A B} (m : M Env Ev A) (k : A -> M Env Ev B) P (Q : A -> list Ev -> res B -> Prop)
  (R : list Ev -> res B -> Prop) :
trace_spec m P ->
(forall a, trace_spec (k a) (Q a)) ->
(forall l e, P l (Throw e) -> R l (Throw e)) ->
(forall l1 a l2 r, P l1 (Ok a) -> Q a l2 r -> R (l1 ++ l2) r) ->
trace_spec (m ≫= k) R.
Proof.
intros Hm Hk HT HO w. destruct (Hm w) as (l1 & Hl1 & HP).
unfold mbind, M_bind. destruct (m w) as [[a|e] w'] eqn:E; cbn in *.
- destruct (Hk a w') as (l2 & Hl2 & HQ). exists (l1 ++ l2).
  split; [by rewrite Hl2, Hl1, app_assoc | eauto].
- exists l1. eauto.
Qed.

Lemma trace_catch {A} (m : M Env Ev A) (h : jsval -> M Env Ev A) P (Q : jsval -> list Ev -> res A -> Prop)
  (R : list Ev -> res A -> Prop) :
trace_spec m P ->
(forall e, trace_spec (h e) (Q e)) ->
(forall l a, P l (Ok a) -> R l (Ok a)) ->
(forall l1 e l2 r, P l1 (Throw e) -> Q e l2 r -> R (l1 ++ l2) r) ->
trace_spec (catch m h) R.
Proof.
intros Hm Hk HO HT w. destruct (Hm w) as (l1 & Hl1 & HP).
unfold catch. destruct (m w) as [[a|e] w'] eqn:E; cbn in *.
- exists l1. eauto.
- destruct (Hk e w') as (l2 & Hl2 & HQ). exists (l1 ++ l2).
  split; [by rewrite Hl2, Hl1, app_assoc | eauto].
Qed.

(** The same rules backwards: what the first action must establish for the rest. *)
Lemma trace_seq {A B} (m : M Env Ev A) (k : A -> M Env Ev B) (R : list Ev -> res B -> Prop) :
trace_spec m (fun l r => match r with
                         | Ok a => trace_spec (k a) (fun l' => R (l ++ l'))
                         | Throw e => R l (Throw e)
                         end) ->
trace_spec (m ≫= k) R.
Proof.
intros Hm w. destruct (Hm w) as (l1 & Hl1 & HP).
unfold mbind, M_bind. destruct (m w) as [[a|e] w'] eqn:E; cbn in *.
- destruct (HP w') as (l2 & Hl2 & HQ). exists (l1 ++ l2).
  split; [by rewrite Hl2, Hl1, app_assoc | done].
- exists l1. eauto.
Qed.

Lemma trace_try {A} (m : M Env Ev A) (h : jsval -> M Env Ev A) (R : list Ev -> res A -> Prop) :
trace_spec m (fun l r => match r with
                         | Ok a => R l (Ok a)
                         | Throw e => trace_spec (h e) (fun l' => R (l ++ l'))
                         end) ->
trace_spec (catch m h) R.
Proof.
intros Hm w. destruct (Hm w) as (l1 & Hl1 & HP).
unfold catch. destruct (m w) as [[a|e] w'] eqn:E; cbn in *.
- exists l1. eauto.
- destruct (HP w') as (l2 & Hl2 & HQ). exists (l1 ++ l2).
  split; [by rewrite Hl2, Hl1, app_assoc | done].
Qed.

Lemma trace_attempt {A B} (m : M Env Ev A) (k : res A -> M Env Ev B) (R : list Ev -> res B -> Prop) :
trace_spec m (fun l r => trace_spec (k r) (fun l' => R (l ++ l'))) -> trace_spec (attempt m ≫= k) R.
Proof.
intros Hm w. destruct (Hm w) as (l1 & Hl1 & HP). unfold attempt, mbind, M_bind.
destruct (m w) as [r w'] eqn:E; cbn in *. destruct (HP w') as (l2 & Hl2 & HQ). exists (l1 ++ l2).
by rewrite Hl2, Hl1, app_assoc.
Qed.

Lemma trace_finally {A} (m : M Env Ev A) (f : M Env Ev ()) (R : list Ev -> res A -> Prop) :
trace_spec m (fun l r => trace_spec f (fun l' r' =>
  R (l ++ l') (match r' with Ok _ => r | Throw e => Throw e end))) ->
trace_spec (finally m f) R.
Proof.
intros Hm w. destruct (Hm w) as (l1 & Hl1 & HP). unfold finally.
destruct (m w) as [r w'] eqn:E; cbn in *. destruct (HP w') as (l2 & Hl2 & HQ).
destruct (f w') as [[u|e] w''] eqn:E'; cbn in *; exists (l1 ++ l2);
  (split; [by rewrite Hl2, Hl1, app_assoc | done]).
Qed.

Lemma trace_emit_seq {B} e (k : () -> M Env Ev B) (R : list Ev -> res B -> Prop) :
trace_spec (k tt) (fun l => R (e :: l)) -> trace_spec (emit e ≫= k) R.
Proof. intros H. apply trace_seq, trace_emit. exact H. Qed.

Lemma trace_assoc {A B C} (m : M Env Ev A) (k : A -> M Env Ev B) (f : B -> M Env Ev C) R :
trace_spec ((m ≫= k) ≫= f) R -> trace_spec (m ≫= fun a => k a ≫= f) R.
Proof.
intros H w. specialize (H w). unfold mbind, M_bind in *.
by destruct (m w) as [[a|e] w'].
Qed.

Lemma emits_lift {A} P (r : res A) : emits P (lift (Env := Env) (Ev := Ev) r).
Proof. apply trace_lift. constructor. Qed.
Lemma emits_ret {A} P (a : A) : emits P (mret a : M Env Ev A).
Proof. apply trace_ret. constructor. Qed.
Lemma emits_raise {A} P e : emits P (raise (A := A) (Env := Env) (Ev := Ev) e).
Proof. apply trace_raise. constructor. Qed.
Lemma emits_gets {A} P (f : Env -> A) : emits P (gets (Ev := Ev) f).
Proof. apply trace_gets. intros a. constructor. Qed.
Lemma emits_io {A} (P : Ev -> Prop) entry (op : Env -> res A * Env) :
(forall r, P (entry r)) -> emits P (io entry op).
Proof. intros H. apply trace_io. intros r. by repeat constructor. Qed.
Lemma emits_emit (P : Ev -> Prop) e : P e -> emits P (emit (Env := Env) e).
Proof. intros H. apply trace_emit. by repeat constructor. Qed.
Lemma emits_bind {A B} P (m : M Env Ev A) (k : A -> M Env Ev B) :
emits P m -> (forall a, emits P (k a)) -> emits P (m ≫= k).
Proof.
intros Hm Hk.
apply (trace_bind _ _ (fun l _ => Forall P l) (fun _ l _ => Forall P l)); [done..|].
intros. by apply Forall_app.
Qed.
Lemma emits_catch {A} P (m : M Env Ev A) h :
emits P m -> (forall e, emits P (h e)) -> emits P (catch m h).
Proof.
intros Hm Hh.
apply (trace_catch _ _ (fun l _ => Forall P l) (fun _ l _ => Forall P l)); [done..|].
intros. by apply Forall_app.
Qed.
Lemma emits_weaken {A} (P Q : Ev -> Prop) (m : M Env Ev A) :
emits P m -> (forall e, P e -> Q e) -> emits Q m.
Proof. intros H HPQ. eapply trace_weaken; [exact H|]. cbn. intros. by eapply Forall_impl. Qed.
End Rules.

Create HintDb effects.
#[export] Hint Resolve emits_lift emits_gets emits_ret emits_raise emits_io emits_emit emits_bind emits_catch : effects.
