(* ===== verification/Amounts.v ===== *)
(** * SDK amounts ([packages/sdk/src/amounts.ts])

    Stroop amounts are bigints; [toUsdc] renders one with two decimals and [fromUsdc]
    parses a decimal string.  The theorems give the value [fromUsdc] computes for every
    accepted string, and that parsing a rendered amount loses exactly the sub-cent
    part. *)

From Stdlib Require Import SpecFloat.
From S2P Require Import Prelude JsNumber JsRounding JsString JsValue.
Local Open Scope Z_scope.

Definition STROOPS_PER_USDC : Z := 10000000.

Definition toUsdc (stroops : Z) : string :=
  let negative := stroops <? 0 in
  let magnitude := if negative then - stroops else stroops in
  let whole := Z.quot magnitude STROOPS_PER_USDC in
  let fraction := Z.rem magnitude STROOPS_PER_USDC in
  let fractionStr := Str.slice 0 2 (Str.pad_start 7 "0" (Num.bigint_to_string fraction)) in
  let isZero := (whole =? 0) && String.eqb fractionStr "00" in
  (if negative && negb isZero then "-" else "") +:+
  Num.bigint_to_string whole +:+ "." +:+ fractionStr.

(** The regular expression [/^-?\d+(\.\d+)?$/]. *)
Definition usdc_re (t : string) : bool :=
  let t := match t with
           | String c r => if Ascii.eqb c "-"%char then r else t
           | EmptyString => t
           end in
  let '(ip, r) := Str.span_digits t in
  Str.nonempty ip &&
  match r with
  | EmptyString => true
  | String c fp => Ascii.eqb c "."%char && Str.nonempty fp && Str.all Str.is_digit fp
  end.

Definition fromUsdc (usdc : string) : res Z :=
  let trimmed := Str.trim usdc in
  if negb (usdc_re trimmed) then
    throw_error ("Invalid USDC amount: " +:+ String (chr 34) (usdc +:+ String (chr 34) ""))
  else
    let negative := Str.starts_with trimmed "-" in
    let magnitude := if negative then Str.drop 1 trimmed else trimmed in
    let parts := Str.split "." magnitude in
    let intPart := nth 0 parts "" in
    let fracPart := nth 1 parts "" in
    let paddedFrac := Str.slice 0 7 (Str.pad_end 7 "0" fracPart) in
    stroops ← bigint_of_str (intPart +:+ paddedFrac);
    mret (if negative then - stroops else stroops).

Example amounts_tests :
  toUsdc 10000000 = "1.00" /\ toUsdc 10005000000 = "1000.50" /\ toUsdc 0 = "0.00" /\
  toUsdc (-5) = "0.00" /\ toUsdc (-123456789) = "-12.34" /\
  fromUsdc "1000.50" = Ok 10005000000 /\ fromUsdc "1" = Ok 10000000 /\
  fromUsdc " -0.01 " = Ok (-100000) /\ fromUsdc "0.12345678" = Ok 1234567 /\
  is_ok (fromUsdc "1.") = false /\ is_ok (fromUsdc "1e3") = false.
Proof. vm_compute. repeat split. Qed.

(** ** Helper lemmas *)
Section Helpers.
Lemma digit_not c : Str.is_digit c = true ->
Str.is_space c = false /\ Ascii.eqb c "-"%char = false /\ Ascii.eqb "."%char c = false.
Proof.
unfold Str.is_digit, Str.is_space, in_range. intros [H1 H2]%andb_prop.
apply Z.leb_le in H1, H2. repeat split.
- apply orb_false_iff; split; [apply orb_false_iff; split|]; try lia.
- destruct (Ascii.eqb_spec c "-"); [subst; exfalso; by apply H1 | done].
- destruct (Ascii.eqb_spec "."%char c); [subst; exfalso; by apply H1 | done].
Qed.

Lemma trim_start_id c s : Str.is_space c = false -> Str.trim_start (String c s) = String c s.
Proof. intros H. cbn. by rewrite H. Qed.

Lemma trim_end_digit s t :
Str.all Str.is_digit t = true -> t <> "" -> Str.trim_end (s +:+ t) = s +:+ t.
Proof.
intros Ht Hne.
assert (Hbase : Str.trim_end t = t).
{ induction t as [|c t IH]; [done|]. cbn in Ht. apply andb_prop in Ht as [Hc Ht].
  destruct t as [|d t]; cbn.
  - by rewrite (proj1 (digit_not c Hc)).
  - cbn in IH. rewrite IH by done. done. }
induction s as [|c s IH]; cbn; [done|]. rewrite IH.
destruct (s +:+ t) eqn:Hst; [|done].
exfalso. apply (f_equal Str.len) in Hst. rewrite app_len in Hst. destruct t; cbn in Hst; [done|lia].
Qed.

Lemma span_digits_app ip r :
Str.all Str.is_digit ip = true ->
match r with EmptyString => True | String c _ => Str.is_digit c = false end ->
Str.span_digits (ip +:+ r) = (ip, r).
Proof.
intros Hip Hr. induction ip as [|c ip IH]; cbn.
- destruct r; [done|]. cbn. by rewrite Hr.
- cbn in Hip. apply andb_prop in Hip as [Hc Hip]. rewrite Hc, IH by done. done.
Qed.

Lemma split_digits s : Str.all Str.is_digit s = true -> Str.split "." s = [s].
Proof.
induction s as [|c s IH]; [done|]. cbn [Str.all]. intros [Hc Hs]%andb_prop.
cbn [Str.split]. by rewrite (proj2 (proj2 (digit_not c Hc))), IH.
Qed.

Lemma split_dot ip fp :
Str.all Str.is_digit ip = true -> Str.all Str.is_digit fp = true ->
Str.split "." (ip +:+ String "." fp) = [ip; fp].
Proof.
intros Hip Hfp. induction ip as [|c ip IH]; cbn [String.append Str.split].
- by rewrite Ascii.eqb_refl, split_digits.
- cbn [Str.all] in Hip. apply andb_prop in Hip as [Hc Hip].
  by rewrite (proj2 (proj2 (digit_not c Hc))), IH.
Qed.

Lemma parse_radix_digits s : Str.all Str.is_digit s = true -> Str.parse_radix s = None.
Proof.
destruct s as [|a [|b s]]; [done|done|]. cbn [Str.all Str.parse_radix].
intros [_ [Hb _]%andb_prop]%andb_prop. case_match; [|done].
unfold Str.is_digit in Hb. apply andb_prop in Hb as [Hb1 Hb2].
apply Z.leb_le in Hb1, Hb2.
assert (Hlow : Str.lower b = b).
{ unfold Str.lower, in_range. destruct (Z.leb_spec 65 (code b)); [lia|].
  destruct (Z.leb_spec 192 (code b)); [lia|]. done. }
rewrite Hlow.
repeat match goal with |- context[Ascii.eqb b ?d] =>
  destruct (Ascii.eqb_spec b d) as [->|_]; [exfalso; by apply Hb2|] end.
done.
Qed.

Lemma trim_digits s : Str.all Str.is_digit s = true -> Str.trim s = s.
Proof.
intros Hs. unfold Str.trim. destruct s as [|c s]; [done|].
pose proof Hs as [Hc _]%andb_prop. rewrite trim_start_id by apply (digit_not c Hc).
by apply (trim_end_digit "").
Qed.

Lemma bigint_of_digits s :
Str.all Str.is_digit s = true -> s <> "" -> bigint_of_str s = Ok (Str.digits_val s).
Proof.
intros Hs Hne. unfold bigint_of_str, Str.parse_bigint.
rewrite trim_digits, parse_radix_digits by done.
destruct (String.eqb_spec s ""); [done|].
assert (Str.sign s = (false, s)) as ->.
{ destruct s as [|c s]; [done|]. pose proof Hs as [Hc _]%andb_prop. cbn.
  rewrite (proj1 (proj2 (digit_not c Hc))).
  destruct (Ascii.eqb_spec c "+"); [subst; cbv in Hc; done | done]. }
unfold Str.nonempty. destruct (String.eqb_spec s ""); [done|]. by rewrite Hs.
Qed.
End Helpers.

(** A decimal literal the parser accepts: optional sign, digits, optional fraction. *)
Definition usdc_literal (neg : bool) (ip fp : string) : string :=
  (if neg then "-" else "") +:+ ip +:+ (if Str.nonempty fp then String "." fp else "").

Section Literal.
Context (neg : bool) (ip fp : string).
Hypothesis Hip : Str.all Str.is_digit ip = true.
Hypothesis Hip0 : ip <> "".
Hypothesis Hfp : Str.all Str.is_digit fp = true.

Let body := ip +:+ (if Str.nonempty fp then String "." fp else "").

Lemma body_head : exists c r, body = String c r /\ Str.is_digit c = true.
Proof.
unfold body. destruct ip as [|c r]; [done|]. cbn. cbn in Hip.
apply andb_prop in Hip as [Hc _]. eauto.
Qed.

Lemma literal_trim : Str.trim (usdc_literal neg ip fp) = usdc_literal neg ip fp.
Proof.
destruct body_head as (c & r & Hb & Hc). unfold usdc_literal, Str.trim. fold body.
rewrite Hb.
assert (Str.trim_start ((if neg then "-" else "") +:+ String c r) =
        (if neg then "-" else "") +:+ String c r) as ->.
{ destruct neg; [done|]. apply trim_start_id. apply (digit_not c Hc). }
rewrite <- Hb. unfold body. rewrite <- app_assoc_str.
destruct (Str.nonempty fp) eqn:Hn.
- replace (_ +:+ String "." fp)
    with ((((if neg then "-" else "") +:+ ip) +:+ ".") +:+ fp) by (rewrite !app_assoc_str; reflexivity).
  apply trim_end_digit; [done|]. by destruct fp.
- rewrite app_nil_str. by apply trim_end_digit.
Qed.

Lemma literal_re : usdc_re (usdc_literal neg ip fp) = true.
Proof.
destruct body_head as (c & r & Hb & Hc).
unfold usdc_re, usdc_literal. fold body.
assert (match (if neg then "-" else "") +:+ body with
        | String c r => if Ascii.eqb c "-"%char then r else (if neg then "-" else "") +:+ body
        | EmptyString => (if neg then "-" else "") +:+ body
        end = body) as ->.
{ destruct neg; [done|]. cbn. rewrite Hb. by rewrite (proj1 (proj2 (digit_not c Hc))). }
unfold body. rewrite span_digits_app; [|done|by destruct (Str.nonempty fp)].
assert (Str.nonempty ip = true) as -> by (by destruct ip). cbn [andb].
destruct (Str.nonempty fp) eqn:Hn; [|done]. by rewrite Ascii.eqb_refl, Hn, Hfp.
Qed.

(** The value is the literal's decimal value in stroops, truncated toward zero. *)
Lemma fromUsdc_literal :
fromUsdc (usdc_literal neg ip fp) =
Ok (cond_Zopp neg (Str.digits_val (ip +:+ fp) * 10 ^ 7 / 10 ^ Z.of_nat (Str.len fp))).
Proof.
destruct body_head as (c & r & Hb & Hc).
unfold fromUsdc. rewrite literal_trim, literal_re. cbn [negb].
assert (Hneg : Str.starts_with (usdc_literal neg ip fp) "-" = neg).
{ unfold usdc_literal. fold body. rewrite Hb. destruct neg; [reflexivity|].
  cbn [String.append].
  unfold Str.starts_with. cbn [String.prefix].
  destruct (ascii_dec "-" c) as [<-|]; [by cbv in Hc | done]. }
rewrite Hneg.
assert ((if neg then Str.drop 1 (usdc_literal neg ip fp) else usdc_literal neg ip fp) = body)
  as -> by (unfold usdc_literal; fold body; by destruct neg).
assert (Hsplit : nth 0 (Str.split "." body) "" = ip /\ nth 1 (Str.split "." body) "" = fp).
{ unfold body. destruct (Str.nonempty fp) eqn:Hn.
  - by rewrite split_dot.
  - rewrite app_nil_str, split_digits by done. by destruct fp. }
destruct Hsplit as [-> ->].
set (pf := Str.slice 0 7 (Str.pad_end 7 "0" fp)).
assert (Hpad : Str.all Str.is_digit (Str.pad_end 7 "0" fp) = true).
{ unfold Str.pad_end. by rewrite all_app, Hfp, all_repeat. }
assert (Hplen : (7 <= Str.len (Str.pad_end 7 "0" fp))%nat).
{ unfold Str.pad_end. rewrite app_len, repeat_len. lia. }
assert (Hpf : Str.all Str.is_digit pf = true /\ Str.len pf = 7%nat /\
              Str.digits_val pf = Str.digits_val fp * 10 ^ 7 / 10 ^ Z.of_nat (Str.len fp)).
{ unfold pf, Str.slice. cbn [Str.drop]. change (7 - 0)%nat with 7%nat.
  split; [by apply all_take|]. split; [by apply take_len|].
  rewrite digits_val_take by done. unfold Str.pad_end.
  rewrite digits_val_app, digits_val_zeros, repeat_len, app_len, repeat_len, Z.add_0_r.
  destruct (le_lt_dec (Str.len fp) 7).
  - replace (_ + _ - 7)%nat with O by lia. rewrite Z.div_1_r.
    assert (10 ^ 7 = 10 ^ Z.of_nat (7 - Str.len fp) * 10 ^ Z.of_nat (Str.len fp)) as ->
      by (rewrite <- Z.pow_add_r by lia; f_equal; lia).
    by rewrite Z.mul_assoc, Z.div_mul by lia.
  - replace (7 - Str.len fp)%nat with O by lia. rewrite Z.mul_1_r, Nat.add_0_r.
    assert (10 ^ Z.of_nat (Str.len fp) = 10 ^ Z.of_nat (Str.len fp - 7) * 10 ^ 7) as ->
      by (rewrite <- Z.pow_add_r by lia; f_equal; lia).
    by rewrite Z.div_mul_cancel_r by lia. }
destruct Hpf as (Hpa & Hpl & Hpv).
rewrite bigint_of_digits; [|by rewrite all_app, Hip|by destruct ip].
assert (Hv : Str.digits_val (ip +:+ pf) =
             Str.digits_val (ip +:+ fp) * 10 ^ 7 / 10 ^ Z.of_nat (Str.len fp)).
{ rewrite !digits_val_app, Hpl, Hpv.
  rewrite Z.mul_add_distr_r.
  replace (Str.digits_val ip * 10 ^ Z.of_nat (Str.len fp) * 10 ^ 7)
    with (Str.digits_val ip * 10 ^ 7 * 10 ^ Z.of_nat (Str.len fp)) by lia.
  rewrite Z.div_add_l by lia. done. }
rewrite Hv. by destruct neg.
Qed.
End Literal.

(** [Number] and [parseFloat] read the same literals, as the decimal they spell. *)
Section Floats.
Context (ip fp : string).
Hypothesis Hip : Str.all Str.is_digit ip = true.
Hypothesis Hip0 : ip <> "".
Hypothesis Hfp : Str.all Str.is_digit fp = true.
Let text := usdc_literal false ip fp.

Lemma text_head : exists c r, text = String c r /\ Str.is_digit c = true.
Proof. exact (body_head ip fp Hip Hip0). Qed.

Lemma digit_sign c r : Str.is_digit c = true -> Str.sign (String c r) = (false, String c r).
Proof.
  intros Hc. cbn. rewrite (proj1 (proj2 (digit_not c Hc))).
  destruct (Ascii.eqb_spec c "+"); [subst; by cbv in Hc|done].
Qed.

Lemma digit_no_infinity c r : Str.is_digit c = true ->
  String.eqb (String c r) "Infinity" = false /\ Str.starts_with (String c r) "Infinity" = false.
Proof.
  intros Hc. split.
  - destruct (String.eqb_spec (String c r) "Infinity") as [E|]; [|done]. injection E as -> _. by cbv in Hc.
  - unfold Str.starts_with. cbn [String.prefix]. destruct (ascii_dec "I" c) as [<-|]; [by cbv in Hc|done].
Qed.

Lemma text_radix : Str.parse_radix text = None.
Proof.
  unfold text, usdc_literal. cbn [String.append]. destruct (Str.nonempty fp) eqn:Hn.
  - destruct ip as [|a [|b s]]; [done| |].
    + cbn [String.append Str.parse_radix]. by case_match.
    + pose proof (parse_radix_digits (String a (String b s)) Hip) as H. cbn [String.append].
      cbn [Str.parse_radix] in *. destruct (Ascii.eqb a "0"); [|done]. cbn [andb] in *.
      assert (Str.nonempty (s +:+ String "." fp) = true) as -> by (by destruct s). cbn [Str.all] in Hip.
      apply andb_prop in Hip as [_ [Hb _]%andb_prop]. clear H.
      pose proof (parse_radix_digits (String "0" (String b "0")) ltac:(cbn; by rewrite Hb)) as H.
      cbn in H. repeat (destruct (Ascii.eqb (Str.lower b) _); [done|]). done.
  - rewrite app_nil_str. by apply parse_radix_digits.
Qed.

Lemma text_spans : exists r, Str.span_digits text = (ip, r) /\
  match r with String c r' => if Ascii.eqb c "."%char then Str.span_digits r' else ("", r) | EmptyString => ("", r) end = (fp, "").
Proof.
  unfold text, usdc_literal. cbn [String.append]. eexists. split.
  - apply span_digits_app; [done|]. by destruct (Str.nonempty fp).
  - destruct (Str.nonempty fp) eqn:Hn; [|by destruct fp].
    rewrite Ascii.eqb_refl. rewrite <- (app_nil_str fp) at 1. by apply span_digits_app.
Qed.

Lemma nonempty_digits : Str.nonempty (ip +:+ fp) = true.
Proof. by destruct ip. Qed.

Lemma parse_number_literal :
  Str.parse_number text = Num.of_decimal false (Str.digits_val (ip +:+ fp)) (- Z.of_nat (Str.len fp)).
Proof.
  unfold Str.parse_number. unfold text. rewrite literal_trim by done. fold text. rewrite text_radix.
  destruct text_head as (c & r & Ht & Hc). destruct text_spans as (r' & Hs & Hr).
  rewrite Ht in *. cbn [String.eqb]. rewrite digit_sign by done.
  rewrite (proj1 (digit_no_infinity c r Hc)), Hs, Hr, nonempty_digits. done.
Qed.

Lemma parse_float_literal :
  Str.parse_float text = Num.of_decimal false (Str.digits_val (ip +:+ fp)) (- Z.of_nat (Str.len fp)).
Proof.
  unfold Str.parse_float. destruct text_head as (c & r & Ht & Hc). destruct text_spans as (r' & Hs & Hr).
  rewrite Ht in *. rewrite trim_start_id by apply (digit_not c Hc). rewrite digit_sign by done.
  rewrite (proj2 (digit_no_infinity c r Hc)), Hs, Hr, nonempty_digits. done.
Qed.
End Floats.

(** Going through a JavaScript number, [Math.floor(amount * 10_000_000)] gives the stroops of
    such a literal that has at most seven decimals, or one stroop less. *)
Lemma float_stroops ip fp (Hip : Str.all Str.is_digit ip = true) (Hip0 : ip <> "")
  (Hfp : Str.all Str.is_digit fp = true) (Hd : (Str.len fp <= 7)%nat) N :
  fromUsdc (usdc_literal false ip fp) = Ok N -> 0 < N < 2 ^ 50 ->
  let f := Num.of_decimal false (Str.digits_val (ip +:+ fp)) (- Z.of_nat (Str.len fp)) in
  (Num.is_finite f = true /\ Num.leb f Num.zero = false /\ Num.truthy f = true) /\
  exists z, bigint_of_num (Num.floor (Num.mul f (Num.of_Z 10000000))) = Ok z /\ N - 1 <= z <= N.
Proof.
  rewrite fromUsdc_literal by done. cbn [cond_Zopp]. set (m := Str.digits_val (ip +:+ fp)).
  set (d := Z.of_nat (Str.len fp)). intros [= <-]. assert (Hp : 0 < 10 ^ d) by (apply Z.pow_pos_nonneg; lia).
  assert (E : 10 ^ 7 = 10 ^ (7 - d) * 10 ^ d) by (rewrite <- Z.pow_add_r by lia; f_equal; lia).
  rewrite E, Z.mul_assoc, Z.div_mul by lia. intros HN.
  assert (0 < m) by (destruct (Z.le_gt_cases m 0); [|done]; assert (0 <= 10 ^ (7 - d)) by (apply Z.pow_nonneg; lia); nia).
  assert (m < 2 ^ 50) by (assert (1 <= 10 ^ (7 - d)) by (apply (Z.pow_le_mono_r 10 0); lia); nia).
  split; [apply decimal_positive; lia|]. destruct (decimal_floor m d) as (z & Hz & _ & Hb); [done|lia|lia|].
  exists z. unfold bigint_of_num. by rewrite Hz.
Qed.

(** ** Properties *)

(** On every string of the accepted shape (surrounding white space aside)
    the parser returns the decimal value in stroops, truncated toward zero past seven
    fractional digits. *)
Theorem fromUsdc_value (neg : bool) (ip fp : string)
    (Hip : Str.all Str.is_digit ip = true) (Hip0 : ip <> "")
    (Hfp : Str.all Str.is_digit fp = true) :
  fromUsdc (usdc_literal neg ip fp) =
  Ok (cond_Zopp neg (Str.digits_val (ip +:+ fp) * 10 ^ 7 / 10 ^ Z.of_nat (Str.len fp))).
Proof. by apply fromUsdc_literal. Qed.

Lemma fromUsdc_value_witness :
  fromUsdc (usdc_literal true "12" "345678912") = Ok (- 123456789).
Proof. exact (fromUsdc_value true "12" "345678912" eq_refl ltac:(discriminate) eq_refl). Defined.

Lemma fromUsdc_total_or_throws s :
  fromUsdc s = throw_error ("Invalid USDC amount: " +:+ String (chr 34) (s +:+ String (chr 34) ""))
  \/ usdc_re (Str.trim s) = true.
Proof. unfold fromUsdc. destruct (usdc_re (Str.trim s)); [by right | by left]. Qed.

(** The literal [toUsdc] prints. *)
Lemma toUsdc_literal z :
  exists neg ip fp, toUsdc z = usdc_literal neg ip fp /\
    Str.all Str.is_digit ip = true /\ ip <> "" /\ Str.all Str.is_digit fp = true /\
    Str.len fp = 2%nat /\
    Str.digits_val ip = Z.abs z / 10 ^ 7 /\
    Str.digits_val fp = Z.abs z mod 10 ^ 7 / 10 ^ 5 /\
    neg = (z <? 0) && negb (Z.abs z <? 10 ^ 5).
Proof.
  unfold toUsdc.
  replace (if z <? 0 then - z else z) with (Z.abs z) by (destruct (Z.ltb_spec z 0); lia).
  unfold STROOPS_PER_USDC. rewrite Z.quot_div_nonneg, Z.rem_mod_nonneg by lia.
  set (w := Z.abs z / 10000000). set (f := Z.abs z mod 10000000).
  assert (Hw : 0 <= w) by (apply Z.div_pos; lia).
  assert (Hf : 0 <= f < 10000000) by (apply Z.mod_pos_bound; lia).
  unfold Num.bigint_to_string.
  destruct (Z.ltb_spec f 0); [lia|]. destruct (Z.ltb_spec w 0); [lia|].
  set (fp := Str.slice 0 2 (Str.pad_start 7 "0" (Num.digits f))).
  assert (Hflen : (Str.len (Num.digits f) <= 7)%nat) by (apply (digits_len f 6); cbn; lia).
  assert (Hall : Str.all Str.is_digit (Str.pad_start 7 "0" (Num.digits f)) = true).
  { unfold Str.pad_start. rewrite all_app, all_repeat, digits_all by (done || lia). done. }
  assert (Hlen : Str.len (Str.pad_start 7 "0" (Num.digits f)) = 7%nat) by by apply pad_start_len.
  assert (Hfpl : Str.len fp = 2%nat) 
    by (unfold fp, Str.slice; cbn [Str.drop]; rewrite take_len; [done | rewrite Hlen; cbn; lia]).
  assert (Hfpv : Str.digits_val fp = f / 10 ^ 5).
  { unfold fp, Str.slice. cbn [Str.drop]. rewrite digits_val_take by (done || (rewrite Hlen; cbn; lia)).
    rewrite Hlen. unfold Str.pad_start.
    rewrite digits_val_app, digits_val_zeros, digits_val_digits by lia. done. }
  assert (Hfpa : Str.all Str.is_digit fp = true) by by apply all_take.
  exists ((z <? 0) && negb ((w =? 0) && String.eqb fp "00")), (Num.digits w), fp.
  split; [|split; [by apply digits_all|split; [apply digits_nonempty|]]].
  { unfold usdc_literal. destruct fp as [|c r] eqn:Hfp; [done|]. done. }
  repeat split; [done|done|by rewrite digits_val_digits|done|].
  f_equal. f_equal.
  assert (Hz : String.eqb fp "00" = (Str.digits_val fp =? 0)).
  { destruct fp as [|a [|b [|]]]; try done. cbn in Hfpa.
    apply andb_prop in Hfpa as [Ha [Hb _]%andb_prop].
    unfold Str.digits_val. cbn [Str.digits_acc]. unfold Str.digit_val.
    unfold Str.is_digit, in_range in Ha, Hb. rewrite andb_true_iff, !Z.leb_le in Ha, Hb.
    destruct (String.eqb_spec (String a (String b "")) "00") as [[= -> ->]|Hne]; [done|].
    symmetry. apply Z.eqb_neq. intros Hz0. apply Hne.
    assert (code a = 48 /\ code b = 48) as [Hca Hcb] by lia.
    assert (forall c, code c = 48 -> c = "0"%char) as Hc.
    { intros c Hc. rewrite <- (ascii_nat_embedding c). unfold code in Hc.
      by replace (nat_of_ascii c) with 48%nat by lia. }
    by rewrite (Hc a), (Hc b). }
  rewrite Hz, Hfpv.
  pose proof (Z.div_mod (Z.abs z) 10000000 ltac:(lia)).
  pose proof (Z.div_mod f 100000 ltac:(lia)). pose proof (Z.mod_pos_bound f 100000 ltac:(lia)).
  fold w in H2. change (Z.abs z mod 10000000) with f in H2. change (10 ^ 5) with 100000 in *.
  destruct (Z.ltb_spec (Z.abs z) 100000).
  - apply andb_true_intro. split; apply Z.eqb_eq; lia.
  - apply andb_false_iff. rewrite !Z.eqb_neq. lia.
Qed.

(** C11: parsing a rendered amount gives the amount back with the digits below a
    cent dropped (toward zero). *)
Theorem fromUsdc_toUsdc (z : Z) : fromUsdc (toUsdc z) = Ok (Z.quot z 100000 * 100000).
Proof.
  destruct (toUsdc_literal z) as (neg & ip & fp & -> & Hip & Hip0 & Hfp & Hl & Hv & Hv' & Hn).
  rewrite fromUsdc_literal by done. rewrite Hl, digits_val_app, Hl, Hv, Hv'.
  change (Z.of_nat 2) with 2. f_equal.
  pose proof (Z.div_mod (Z.abs z) (10 ^ 7) ltac:(lia)).
  set (w := Z.abs z / 10 ^ 7) in *. set (f := Z.abs z mod 10 ^ 7) in *.
  assert (Hq : Z.abs z / 100000 = w * 100 + f / 10 ^ 5).
  { rewrite H. replace (10 ^ 7 * w + f) with (w * 100 * 100000 + f) by lia.
    rewrite Z.div_add_l by lia. done. }
  replace ((w * 10 ^ 2 + f / 10 ^ 5) * 10 ^ 7) with ((w * 10 ^ 2 + f / 10 ^ 5) * 100000 * 10 ^ 2)
    by lia.
  rewrite Z.div_mul by lia. rewrite Hn.
  change (10 ^ 2) with 100. change (10 ^ 5) with 100000 in *. rewrite <- Hq.
  destruct (Z.ltb_spec z 0) as [Hz|Hz]; cbn [andb].
  - rewrite Z.abs_neq by lia. replace (Z.quot z 100000) with (- ((- z) / 100000)).
    2: { rewrite <- Z.quot_div_nonneg, Z.quot_opp_l by lia. lia. }
    destruct (Z.ltb_spec (- z) 100000); cbn; [rewrite Z.div_small by lia; done | lia].
  - rewrite Z.abs_eq, <- Z.quot_div_nonneg by lia. done.
Qed.
