(* ===== verification/SdkConfig.v ===== *)
(** * Configuration
    ([packages/sdk/src/config.ts], [apps/web/lib/env.ts], [sdkConfig.ts], [config.ts])

    The SDK keeps one mutable [activeConfig] whose nested objects could be aliased by
    callers, so the module state is a heap: [configureSDK] and [getConfig] allocate, and
    the theorems relate them to the plain merge of records.  The web app's environment
    reader and start-up wiring are functions of the environment variables. *)

From S2P Require Import Prelude JsValue.
Local Open Scope Z_scope.

(** [process.env]; [None] where the global [process] does not exist. *)
Abbreviation process := (option (gmap string string)).
Definition env_get (p : process) (k : string) : option string := p ≫= fun e => e !! k.

(** [Networks] of the Stellar SDK. *)
Class Networks := { TESTNET : string; PUBLIC : string }.

Record ContractIds := {
  id_registry : string; id_invoice : string; id_pool : string; id_escrow : string; id_agentRegistry : string }.
Record UsdcConfig := { usdc_issuer : string; usdc_assetCode : string }.
Record SDKConfig := {
  cfg_horizonUrl : string; cfg_sorobanRpcUrl : string; cfg_networkPassphrase : string;
  cfg_contractIds : ContractIds; cfg_usdc : UsdcConfig }.

(** [Partial<SDKConfig>] and the partial nested objects: a key that is not written is
    [None]. *)
Record PartialIds := {
  p_registry : option string; p_invoice : option string; p_pool : option string;
  p_escrow : option string; p_agentRegistry : option string }.
Record PartialUsdc := { p_issuer : option string; p_assetCode : option string }.
Record PartialConfig := {
  p_horizonUrl : option string; p_sorobanRpcUrl : option string;
  p_networkPassphrase : option string;
  p_contractIds : option PartialIds; p_usdc : option PartialUsdc }.

(** ** Defaults *)
Definition DEFAULT_CONTRACTS (p : process) : ContractIds := {|
  id_registry := opt_str_or (env_get p "NEXT_PUBLIC_REGISTRY_CONTRACT_ID") "";
  id_invoice := opt_str_or (env_get p "NEXT_PUBLIC_INVOICE_CONTRACT_ID") "";
  id_pool := opt_str_or (env_get p "NEXT_PUBLIC_POOL_CONTRACT_ID") "";
  id_escrow := opt_str_or (env_get p "NEXT_PUBLIC_ESCROW_CONTRACT_ID") "";
  id_agentRegistry := opt_str_or (env_get p "NEXT_PUBLIC_AGENT_REGISTRY_CONTRACT_ID") "" |}.

Definition DEFAULT_USDC (p : process) : UsdcConfig := {|
  usdc_issuer := opt_str_or (env_get p "NEXT_PUBLIC_USDC_ISSUER")
              "GBBD47IF6LWK7P7MDEVSCWR7DPUWV3NY3DTQEVFL4NAT4AQH3ZLLFLA5";
  usdc_assetCode := opt_str_or (env_get p "NEXT_PUBLIC_USDC_ASSET_CODE") "USDC" |}.

Section Defaults.
Context `{Networks}.

Record DefaultNetwork := {
dn_network : string; dn_horizonUrl : string; dn_sorobanRpcUrl : string;
dn_networkPassphrase : string }.

Definition DEFAULT_NETWORK (p : process) : DefaultNetwork := {|
dn_network := opt_str_or (env_get p "NEXT_PUBLIC_STELLAR_NETWORK") "testnet";
dn_horizonUrl := opt_str_or (env_get p "NEXT_PUBLIC_HORIZON_URL")
                   "https://horizon-testnet.stellar.org";
dn_sorobanRpcUrl := opt_str_or (env_get p "NEXT_PUBLIC_SOROBAN_RPC_URL")
                      "https://soroban-testnet.stellar.org";
dn_networkPassphrase := opt_str_or (env_get p "NEXT_PUBLIC_NETWORK_PASSPHRASE") TESTNET |}.

Definition initial_config (p : process) : SDKConfig := {|
cfg_horizonUrl := dn_horizonUrl (DEFAULT_NETWORK p);
cfg_sorobanRpcUrl := dn_sorobanRpcUrl (DEFAULT_NETWORK p);
cfg_networkPassphrase := dn_networkPassphrase (DEFAULT_NETWORK p);
cfg_contractIds := DEFAULT_CONTRACTS p;
cfg_usdc := DEFAULT_USDC p |}.
End Defaults.

(** ** The specification: merging records *)
Definition merge_ids (c : ContractIds) (p : PartialIds) : ContractIds := {|
  id_registry := default (id_registry c) (p_registry p);
  id_invoice := default (id_invoice c) (p_invoice p);
  id_pool := default (id_pool c) (p_pool p);
  id_escrow := default (id_escrow c) (p_escrow p);
  id_agentRegistry := default (id_agentRegistry c) (p_agentRegistry p) |}.

Definition merge_usdc (u : UsdcConfig) (p : PartialUsdc) : UsdcConfig := {|
  usdc_issuer := default (usdc_issuer u) (p_issuer p);
  usdc_assetCode := default (usdc_assetCode u) (p_assetCode p) |}.

Definition merge_config (c : SDKConfig) (p : PartialConfig) : SDKConfig := {|
  cfg_horizonUrl := default (cfg_horizonUrl c) (p_horizonUrl p);
  cfg_sorobanRpcUrl := default (cfg_sorobanRpcUrl c) (p_sorobanRpcUrl p);
  cfg_networkPassphrase := default (cfg_networkPassphrase c) (p_networkPassphrase p);
  cfg_contractIds := from_option (merge_ids (cfg_contractIds c)) (cfg_contractIds c) (p_contractIds p);
  cfg_usdc := from_option (merge_usdc (cfg_usdc c)) (cfg_usdc c) (p_usdc p) |}.

(** ** The implementation: [activeConfig] in a heap

    An object is a node at a location; the top-level object refers to its two nested
    objects. *)
Abbreviation loc := nat (only parsing).
Record TopNode := {
  t_horizonUrl : string; t_sorobanRpcUrl : string; t_networkPassphrase : string;
  t_contractIds : loc; t_usdc : loc }.
Inductive node := NTop (t : TopNode) | NIds (c : ContractIds) | NUsdc (u : UsdcConfig).
Abbreviation heap := (gmap loc node).

(** The module state: the heap and the location the variable [activeConfig] holds. *)
Record sdk_state := { st_heap : heap; st_active : loc }.

Definition alloc (h : heap) (n : node) : loc * heap :=
  let l := fresh (dom h) in (l, <[l := n]> h).

(** The record a top-level object stands for. *)
Definition read_config (h : heap) (l : loc) : option SDKConfig :=
  match h !! l with
  | Some (NTop t) =>
      match h !! t_contractIds t, h !! t_usdc t with
      | Some (NIds c), Some (NUsdc u) =>
          Some {| cfg_horizonUrl := t_horizonUrl t; cfg_sorobanRpcUrl := t_sorobanRpcUrl t;
                  cfg_networkPassphrase := t_networkPassphrase t; cfg_contractIds := c; cfg_usdc := u |}
      | _, _ => None
      end
  | _ => None
  end.

(** Building [{ ...c, contractIds: {...}, usdc: {...} }]: three fresh objects. *)
Definition alloc_config (h : heap) (c : SDKConfig) : loc * heap :=
  let '(li, h) := alloc h (NIds (cfg_contractIds c)) in
  let '(lu, h) := alloc h (NUsdc (cfg_usdc c)) in
  alloc h (NTop {| t_horizonUrl := cfg_horizonUrl c; t_sorobanRpcUrl := cfg_sorobanRpcUrl c;
                   t_networkPassphrase := cfg_networkPassphrase c;
                   t_contractIds := li; t_usdc := lu |}).

Definition configureSDK (s : sdk_state) (p : PartialConfig) : option sdk_state :=
  c ← read_config (st_heap s) (st_active s);
  let '(l, h) := alloc_config (st_heap s) (merge_config c p) in
  Some {| st_heap := h; st_active := l |}.

(** [getConfig()] returns the location of a fresh copy. *)
Definition getConfig (s : sdk_state) : option (loc * sdk_state) :=
  c ← read_config (st_heap s) (st_active s);
  let '(l, h) := alloc_config (st_heap s) c in
  Some (l, {| st_heap := h; st_active := st_active s |}).

Definition sorobanServerUrl (s : sdk_state) : option string :=
  cfg_sorobanRpcUrl <$> read_config (st_heap s) (st_active s).

(** The objects a holder of location [l] can write_node to. *)
Definition reachable (h : heap) (l : loc) : gset loc :=
  match h !! l with
  | Some (NTop t) => {[ l; t_contractIds t; t_usdc t ]}
  | _ => {[ l ]}
  end.

(** A caller that overwrites an object it holds. *)
Definition write_node (s : sdk_state) (l : loc) (n : node) : sdk_state :=
  {| st_heap := <[l := n]> (st_heap s); st_active := st_active s |}.

Definition active_config (s : sdk_state) : option SDKConfig :=
  read_config (st_heap s) (st_active s).

(** ** The web app's environment ([env.ts]) and start-up ([sdkConfig.ts]) *)
Definition DEFAULT_USDC_ISSUER : string :=
  "GBBD47IF6LWK7P7MDEVSCWR7DPUWV3NY3DTQEVFL4NAT4AQH3ZLLFLA5".

Definition USDC_ISSUER (e : gmap string string) : string :=
  opt_str_or (e !! "NEXT_PUBLIC_USDC_ISSUER") DEFAULT_USDC_ISSUER.

(** [process.env.X || undefined]. *)
Definition env_or_undefined (e : gmap string string) (k : string) : option string :=
  match e !! k with Some s => if String.eqb s "" then None else Some s | None => None end.

Record NetworkEnv := {
  n_horizonUrl : option string; n_sorobanRpcUrl : option string;
  n_networkPassphrase : option string; n_contractIds : PartialIds;
  n_usdcAssetCode : option string }.

Definition readNetworkEnv (e : gmap string string) : NetworkEnv := {|
  n_horizonUrl := env_or_undefined e "NEXT_PUBLIC_HORIZON_URL";
  n_sorobanRpcUrl := env_or_undefined e "NEXT_PUBLIC_SOROBAN_RPC_URL";
  n_networkPassphrase := env_or_undefined e "NEXT_PUBLIC_NETWORK_PASSPHRASE";
  n_contractIds := {|
    p_registry := env_or_undefined e "NEXT_PUBLIC_REGISTRY_CONTRACT_ID";
    p_invoice := env_or_undefined e "NEXT_PUBLIC_INVOICE_CONTRACT_ID";
    p_pool := env_or_undefined e "NEXT_PUBLIC_POOL_CONTRACT_ID";
    p_escrow := env_or_undefined e "NEXT_PUBLIC_ESCROW_CONTRACT_ID";
    p_agentRegistry := env_or_undefined e "NEXT_PUBLIC_AGENT_REGISTRY_CONTRACT_ID" |};
  n_usdcAssetCode := env_or_undefined e "NEXT_PUBLIC_USDC_ASSET_CODE" |}.

(** [Object.entries(ids).filter(([, id]) => Boolean(id))] keeps the truthy entries;
    [None] stands for both an unset and an emptied key. *)
Definition truthy_ids (p : PartialIds) : PartialIds :=
  let keep o := match o with Some s => if String.eqb s "" then None else Some s | None => None end in
  {| p_registry := keep (p_registry p); p_invoice := keep (p_invoice p);
     p_pool := keep (p_pool p); p_escrow := keep (p_escrow p);
     p_agentRegistry := keep (p_agentRegistry p) |}.

Definition ids_empty (p : PartialIds) : bool :=
  match p with
  | {| p_registry := None; p_invoice := None; p_pool := None; p_escrow := None;
       p_agentRegistry := None |} => true
  | _ => false
  end.

Definition buildSDKConfig (e : gmap string string) : PartialConfig :=
  let env := readNetworkEnv e in
  let ids := truthy_ids (n_contractIds env) in
  {| p_usdc := Some {| p_issuer := Some (USDC_ISSUER e);
                       p_assetCode := Some (nullish (n_usdcAssetCode env) "USDC") |};
     p_horizonUrl := n_horizonUrl env;
     p_sorobanRpcUrl := n_sorobanRpcUrl env;
     p_networkPassphrase := n_networkPassphrase env;
     p_contractIds := if ids_empty ids then None else Some ids |}.

Definition initSDKConfig (e : gmap string string) (s : sdk_state) : option sdk_state :=
  configureSDK s (buildSDKConfig e).

(** ** The required-variables check ([config.ts] of the web app) *)
Definition REQUIRED_ENV_VARS : list string :=
  ["NEXT_PUBLIC_INVOICE_CONTRACT_ID"; "NEXT_PUBLIC_POOL_CONTRACT_ID";
   "NEXT_PUBLIC_REGISTRY_CONTRACT_ID"].

Record ConfigValidation := { missing : list string; isConfigured : bool }.

(** The module caches the first validation; a warning is logged when it computes one
    with missing variables. *)
Definition validateConfig (cached : option ConfigValidation) (e : gmap string string) :
    ConfigValidation * option ConfigValidation * list string :=
  match cached with
  | Some v => (v, cached, [])
  | None =>
      let missing := List.filter (fun k => negb (opt_str_truthy (e !! k))) REQUIRED_ENV_VARS in
      let warnings :=
        if (0 <? Z.of_nat (length missing))%Z
        then ["[TrusTrove] Missing required environment variables: " +:+
              String.concat ", " missing]
        else [] in
      let v := {| missing := missing; isConfigured := bool_decide (length missing = O) |} in
      (v, Some v, warnings)
  end.

(** ** Lemmas *)
Lemma alloc_fresh h n l h' :
  alloc h n = (l, h') -> h !! l = None /\ h' = <[l := n]> h.
Proof.
  unfold alloc. intros [= <- <-]. split; [|done].
  apply not_elem_of_dom. apply is_fresh.
Qed.

(** Allocating leaves every existing object in place. *)
Lemma alloc_config_extends h c l h' :
  alloc_config h c = (l, h') -> h ⊆ h' /\ read_config h' l = Some c /\
  (forall k, k ∈ reachable h' l -> h !! k = None).
Proof.
  unfold alloc_config.
  destruct (alloc h (NIds (cfg_contractIds c))) as [li h1] eqn:E1.
  destruct (alloc h1 (NUsdc (cfg_usdc c))) as [lu h2] eqn:E2.
  intros E3. apply alloc_fresh in E1 as [Hli ->], E2 as [Hlu ->], E3 as [Hl ->].
  apply lookup_insert_None in Hlu as [Hlu Hne1].
  apply lookup_insert_None in Hl as [Hl Hne2]. apply lookup_insert_None in Hl as [Hl Hne3].
  split; [|split].
  - transitivity (<[li := NIds (cfg_contractIds c)]> h); [by apply insert_subseteq|].
    etransitivity; apply insert_subseteq; by rewrite ?lookup_insert_None.
  - unfold read_config. rewrite lookup_insert_eq. cbn.
    rewrite (lookup_insert_ne _ l li), (lookup_insert_ne _ lu li), lookup_insert_eq by congruence.
    rewrite (lookup_insert_ne _ l lu), lookup_insert_eq by congruence. by destruct c.
  - unfold reachable. rewrite lookup_insert_eq. cbn. intros k. set_solver.
Qed.

Lemma read_config_mono h h' l c :
  h ⊆ h' -> read_config h l = Some c -> read_config h' l = Some c.
Proof.
  intros Hsub. unfold read_config.
  destruct (h !! l) as [[t|?|?]|] eqn:El; try done.
  destruct (h !! t_contractIds t) as [[?|ci|?]|] eqn:Ei; try done.
  destruct (h !! t_usdc t) as [[?|?|u]|] eqn:Eu; try done.
  rewrite (lookup_weaken _ _ _ _ El Hsub), (lookup_weaken _ _ _ _ Ei Hsub),
    (lookup_weaken _ _ _ _ Eu Hsub). done.
Qed.

(** The objects behind the active configuration. *)
Definition footprint (s : sdk_state) : gset loc := reachable (st_heap s) (st_active s).

Lemma write_outside s k n :
  k ∉ footprint s -> active_config (write_node s k n) = active_config s /\
                     footprint (write_node s k n) = footprint s.
Proof.
  unfold footprint, active_config, write_node, read_config, reachable. cbn. intros Hk.
  destruct (st_heap s !! st_active s) as [[t|c|u]|] eqn:E.
  - rewrite !lookup_insert_ne, E by set_solver. cbn.
    rewrite !lookup_insert_ne by set_solver. done.
  - rewrite !lookup_insert_ne, E by set_solver. done.
  - rewrite !lookup_insert_ne, E by set_solver. done.
  - rewrite !lookup_insert_ne, E by set_solver. done.
Qed.

Lemma writes_outside (ws : list (loc * node)) s :
  Forall (fun w => w.1 ∉ footprint s) ws ->
  active_config (foldl (fun s w => write_node s w.1 w.2) s ws) = active_config s.
Proof.
  revert s. induction ws as [|[k n] ws IH]; intros s H; [done|]. cbn.
  apply Forall_cons_iff in H as [Hk Hws]. destruct (write_outside s k n Hk) as [Ha Hf].
  rewrite IH; [done|]. by rewrite Hf.
Qed.

Lemma footprint_allocated s c k :
  active_config s = Some c -> k ∈ footprint s -> is_Some (st_heap s !! k).
Proof.
  unfold active_config, read_config, footprint, reachable. repeat case_match; try done.
  set_solver.
Qed.

(** ** Properties *)

(** [configureSDK] on the heap implements the record merge: the new active
    configuration is the old one with the written keys replaced, nested objects merged
    key by key. *)
Theorem configureSDK_merges s p c (Hc : active_config s = Some c) :
  exists s', configureSDK s p = Some s' /\ active_config s' = Some (merge_config c p).
Proof.
  unfold configureSDK. fold (active_config s). rewrite Hc. cbn -[alloc_config merge_config].
  destruct (alloc_config (st_heap s) (merge_config c p)) as [l h] eqn:E.
  apply alloc_config_extends in E as (_ & Hr & _).
  exists {| st_heap := h; st_active := l |}. by split.
Qed.

(** [getConfig] returns a copy: it reads as the active configuration, and
    whatever a caller writes through it, at any depth and any number of times, leaves
    the active configuration unchanged. *)
Theorem getConfig_isolated s c (Hc : active_config s = Some c) :
  exists l s', getConfig s = Some (l, s') /\ read_config (st_heap s') l = Some c /\
    forall ws, Forall (fun w => w.1 ∈ reachable (st_heap s') l) ws ->
      active_config (foldl (fun s w => write_node s w.1 w.2) s' ws) = Some c.
Proof.
  unfold getConfig. fold (active_config s). rewrite Hc. cbn -[alloc_config merge_config].
  destruct (alloc_config (st_heap s) c) as [l h] eqn:E.
  apply alloc_config_extends in E as (Hsub & Hr & Hfr).
  exists l, {| st_heap := h; st_active := st_active s |}. split; [done|]. split; [done|].
  intros ws Hws.
  assert (Hc' : active_config {| st_heap := h; st_active := st_active s |} = Some c)
    by (unfold active_config in *; by eapply read_config_mono).
  rewrite writes_outside; [done|]. eapply Forall_impl; [|exact Hws]. intros [k n] Hk Hk'. cbn in Hk, Hk'.
  assert (footprint {| st_heap := h; st_active := st_active s |} = footprint s) as Hf.
  { unfold footprint, reachable. cbn. unfold active_config, read_config in Hc.
    destruct (st_heap s !! st_active s) as [n'|] eqn:En; [|done].
    by rewrite (lookup_weaken _ _ _ _ En Hsub). }
  rewrite Hf in Hk'. destruct (footprint_allocated s c k Hc Hk') as [? Hs].
  by rewrite (Hfr k Hk) in Hs.
Qed.

Definition sample_networks : Networks := {| TESTNET := "test"; PUBLIC := "public" |}.
Definition sample_state : sdk_state :=
  let '(l, h) := alloc_config ∅ (initial_config (H := sample_networks) None) in
  {| st_heap := h; st_active := l |}.

Lemma configureSDK_merges_witness :
  exists c s', active_config sample_state = Some c /\
    configureSDK sample_state (buildSDKConfig ∅) = Some s' /\
    active_config s' = Some (merge_config c (buildSDKConfig ∅)).
Proof.
  destruct (configureSDK_merges sample_state (buildSDKConfig ∅) _ eq_refl) as (s' & H1 & H2).
  eauto.
Defined.

Lemma getConfig_isolated_witness :
  exists l s', getConfig sample_state = Some (l, s') /\
    active_config (write_node s' l (NUsdc {| usdc_issuer := "x"; usdc_assetCode := "y" |})) =
    active_config sample_state.
Proof.
  destruct (getConfig_isolated sample_state _ eq_refl) as (l & s' & H1 & H2 & H3).
  exists l, s'. split; [exact H1|].
  apply (H3 [(l, NUsdc {| usdc_issuer := "x"; usdc_assetCode := "y" |})]).
  constructor; [|constructor]. cbn. unfold reachable.
  destruct (st_heap s' !! l) as [[t|?|?]|]; set_solver.
Defined.

(** After start-up the SDK and the web app agree on the USDC issuer, and
    every network setting the environment leaves unset (or empty) keeps the value the
    SDK had. *)
Theorem initSDKConfig_agrees e s c (Hc : active_config s = Some c) :
  exists s' c', initSDKConfig e s = Some s' /\ active_config s' = Some c' /\
    usdc_issuer (cfg_usdc c') = USDC_ISSUER e /\
    cfg_sorobanRpcUrl c' = opt_str_or (e !! "NEXT_PUBLIC_SOROBAN_RPC_URL") (cfg_sorobanRpcUrl c) /\
    cfg_networkPassphrase c' =
      opt_str_or (e !! "NEXT_PUBLIC_NETWORK_PASSPHRASE") (cfg_networkPassphrase c) /\
    id_pool (cfg_contractIds c') =
      opt_str_or (e !! "NEXT_PUBLIC_POOL_CONTRACT_ID") (id_pool (cfg_contractIds c)).
Proof.
  destruct (configureSDK_merges s (buildSDKConfig e) c Hc) as (s' & H1 & H2).
  exists s', (merge_config c (buildSDKConfig e)). split; [done|]. split; [done|].
  assert (Henv : forall k d, default d (env_or_undefined e k) = opt_str_or (e !! k) d).
  { intros k d. unfold env_or_undefined, opt_str_or, str_or. destruct (e !! k) as [x|]; [|done].
    by destruct (String.eqb x ""). }
  split; [done|]. split; [apply Henv|]. split; [apply Henv|].
  rewrite <- Henv. unfold merge_config, buildSDKConfig. cbn [cfg_contractIds p_contractIds].
  set (ids := truthy_ids _).
  assert (Hids : p_pool ids = env_or_undefined e "NEXT_PUBLIC_POOL_CONTRACT_ID").
  { cbn. unfold env_or_undefined. destruct (e !! _) as [x|]; [|done].
    by destruct (String.eqb x "") eqn:E; [|rewrite E]. }
  rewrite <- Hids. clearbody ids.
  destruct (ids_empty ids) eqn:E; cbn; [|done].
  by destruct ids as [[] [] [] [] []].
Qed.

Lemma initSDKConfig_agrees_witness :
  exists s' c', initSDKConfig {["NEXT_PUBLIC_USDC_ISSUER" := "GX"]} sample_state = Some s' /\
    active_config s' = Some c' /\ usdc_issuer (cfg_usdc c') = "GX".
Proof.
  destruct (initSDKConfig_agrees {["NEXT_PUBLIC_USDC_ISSUER" := "GX"]} sample_state _ eq_refl)
    as (s' & c' & H1 & H2 & H3 & _).
  exists s', c'. split; [exact H1|]. split; [exact H2|]. rewrite H3. reflexivity.
Defined.

Lemma validateConfig_cached v e : validateConfig (Some v) e = (v, Some v, []).
Proof. done. Qed.

(** [isConfigured] holds exactly when every required variable is present. *)
Lemma validateConfig_spec e :
  isConfigured (validateConfig None e).1.1 = true <->
  Forall (fun k => opt_str_truthy (e !! k) = true) REQUIRED_ENV_VARS.
Proof.
  unfold validateConfig. cbn [fst isConfigured]. rewrite bool_decide_eq_true.
  induction REQUIRED_ENV_VARS as [|k l IH]; cbn; [by split|].
  destruct (opt_str_truthy (e !! k)) eqn:E; cbn; rewrite Forall_cons_iff, ?E; [naive_solver|].
  split; [done | by intros [? _]].
Qed.
