(* ===== verification/SdkTypes.v ===== *)
(** * The SDK's data model ([packages/sdk/src/types/index.ts])

    The string unions are inductive types with their wire names; the interfaces are
    records.  [x?: T | null] is [option (option T)]: [None] is an absent key, [Some None]
    an explicit null.  The [*_of] functions read a decoded JavaScript object as the
    interface TypeScript claims it has. *)

From S2P Require Import Prelude JsNumber JsString JsValue.
Local Open Scope Z_scope.

Inductive InvoiceStatus := Created | Listed | Funded | Active | Confirmed | Repaid | Defaulted.
Inductive AssetType := USDC | XLM.
Inductive Role := Issuer | Buyer.

#[export] Instance InvoiceStatus_eq_dec : EqDecision InvoiceStatus.
Proof. solve_decision. Defined.
#[export] Instance AssetType_eq_dec : EqDecision AssetType.
Proof. solve_decision. Defined.

Definition all_statuses : list InvoiceStatus :=
  [Created; Listed; Funded; Active; Confirmed; Repaid; Defaulted].

Definition status_name (s : InvoiceStatus) : string :=
  match s with
  | Created => "Created" | Listed => "Listed" | Funded => "Funded" | Active => "Active"
  | Confirmed => "Confirmed" | Repaid => "Repaid" | Defaulted => "Defaulted"
  end.

Definition status_of_name (s : string) : option InvoiceStatus :=
  list_find (fun x => status_name x = s) all_statuses ≫= fun p => Some p.2.

Definition asset_name (a : AssetType) : string := match a with USDC => "USDC" | XLM => "XLM" end.
Definition asset_of_name (s : string) : option AssetType :=
  if String.eqb s "USDC" then Some USDC else if String.eqb s "XLM" then Some XLM else None.

Definition role_name (r : Role) : string := match r with Issuer => "issuer" | Buyer => "buyer" end.
Definition role_of_name (s : string) : option Role :=
  if String.eqb s "issuer" then Some Issuer else if String.eqb s "buyer" then Some Buyer else None.

Record Profile := {
  prof_address : string; prof_role : Role; prof_verified : bool; prof_registeredAt : num }.

Record Invoice := {
  inv_id : string;
  inv_issuer : string;
  inv_buyer : string;
  inv_faceValue : Z;
  inv_asset : AssetType;
  inv_discountBps : num;
  inv_fundedAmount : Z;
  inv_dueDate : num;
  inv_status : InvoiceStatus;
  inv_createdAt : num;
  inv_fundedAt : option num;
  inv_shippedAt : option num;
  inv_issuerConfirmed : bool;
  inv_buyerConfirmed : bool;
  inv_buyerConfirmedAt : option (option num);
  inv_repaidAt : option num;
  inv_defaultedAt : option (option num);
  inv_attestationAgentId : option (option string);
  inv_riskScoreBps : option (option num);
  inv_evidenceHash : option (option string);
  inv_attestedAt : option (option num) }.

Record PoolStats := {
  ps_totalDeposits : Z; ps_totalFunded : Z; ps_availableLiquidity : Z;
  ps_utilizationRateBps : num; ps_totalYieldDistributed : Z;
  ps_activeInvoiceCount : num; ps_totalShares : Z }.

Record LPPosition := {
  lp_shares : Z; lp_usdcValue : Z; lp_yieldEarned : Z; lp_depositCount : num }.

Record Agent := {
  ag_agentId : string; ag_pubkey : string; ag_active : bool; ag_registeredAt : num }.

(** ** Reading an object at an interface *)
Definition as_str (v : jsval) : option string := match v with JStr s => Some s | _ => None end.
Definition as_num (v : jsval) : option num := match v with JNum n => Some n | _ => None end.
Definition as_big (v : jsval) : option Z := match v with JBig z => Some z | _ => None end.
Definition as_bool (v : jsval) : option bool := match v with JBool b => Some b | _ => None end.
Definition as_nullable {A} (f : jsval -> option A) (v : jsval) : option (option A) :=
  match v with JNull => Some None | _ => Some <$> f v end.
Definition as_optional {A} (f : jsval -> option A) (v : jsval) : option (option A) :=
  match v with JUndef => Some None | _ => Some <$> f v end.

Definition profile_of (v : jsval) : option Profile :=
  match v with
  | JObj fs =>
      a ← as_str (prop fs "address"); r ← as_str (prop fs "role") ≫= role_of_name;
      b ← as_bool (prop fs "verified"); n ← as_num (prop fs "registeredAt");
      Some {| prof_address := a; prof_role := r; prof_verified := b; prof_registeredAt := n |}
  | _ => None
  end.

Definition invoice_of (v : jsval) : option Invoice :=
  match v with
  | JObj fs =>
      id ← as_str (prop fs "id"); issuer ← as_str (prop fs "issuer");
      buyer ← as_str (prop fs "buyer"); face ← as_big (prop fs "faceValue");
      asset ← as_str (prop fs "asset") ≫= asset_of_name;
      disc ← as_num (prop fs "discountBps"); funded ← as_big (prop fs "fundedAmount");
      due ← as_num (prop fs "dueDate"); st ← as_str (prop fs "status") ≫= status_of_name;
      created ← as_num (prop fs "createdAt");
      fundedAt ← as_nullable as_num (prop fs "fundedAt");
      shippedAt ← as_nullable as_num (prop fs "shippedAt");
      ic ← as_bool (prop fs "issuerConfirmed"); bc ← as_bool (prop fs "buyerConfirmed");
      bca ← as_optional (as_nullable as_num) (prop fs "buyerConfirmedAt");
      repaidAt ← as_nullable as_num (prop fs "repaidAt");
      da ← as_optional (as_nullable as_num) (prop fs "defaultedAt");
      agent ← as_optional (as_nullable as_str) (prop fs "attestationAgentId");
      risk ← as_optional (as_nullable as_num) (prop fs "riskScoreBps");
      ev ← as_optional (as_nullable as_str) (prop fs "evidenceHash");
      att ← as_optional (as_nullable as_num) (prop fs "attestedAt");
      Some {| inv_id := id; inv_issuer := issuer; inv_buyer := buyer; inv_faceValue := face;
              inv_asset := asset; inv_discountBps := disc; inv_fundedAmount := funded;
              inv_dueDate := due; inv_status := st; inv_createdAt := created;
              inv_fundedAt := fundedAt; inv_shippedAt := shippedAt;
              inv_issuerConfirmed := ic; inv_buyerConfirmed := bc;
              inv_buyerConfirmedAt := bca; inv_repaidAt := repaidAt;
              inv_defaultedAt := da; inv_attestationAgentId := agent;
              inv_riskScoreBps := risk; inv_evidenceHash := ev; inv_attestedAt := att |}
  | _ => None
  end.

Definition poolstats_of (v : jsval) : option PoolStats :=
  match v with
  | JObj fs =>
      d ← as_big (prop fs "totalDeposits"); f ← as_big (prop fs "totalFunded");
      l ← as_big (prop fs "availableLiquidity"); u ← as_num (prop fs "utilizationRateBps");
      y ← as_big (prop fs "totalYieldDistributed"); c ← as_num (prop fs "activeInvoiceCount");
      s ← as_big (prop fs "totalShares");
      Some {| ps_totalDeposits := d; ps_totalFunded := f; ps_availableLiquidity := l;
              ps_utilizationRateBps := u; ps_totalYieldDistributed := y;
              ps_activeInvoiceCount := c; ps_totalShares := s |}
  | _ => None
  end.

Definition lpposition_of (v : jsval) : option LPPosition :=
  match v with
  | JObj fs =>
      s ← as_big (prop fs "shares"); u ← as_big (prop fs "usdcValue");
      y ← as_big (prop fs "yieldEarned"); c ← as_num (prop fs "depositCount");
      Some {| lp_shares := s; lp_usdcValue := u; lp_yieldEarned := y; lp_depositCount := c |}
  | _ => None
  end.

Definition agent_of (v : jsval) : option Agent :=
  match v with
  | JObj fs =>
      i ← as_str (prop fs "agentId"); p ← as_str (prop fs "pubkey");
      a ← as_bool (prop fs "active"); r ← as_num (prop fs "registeredAt");
      Some {| ag_agentId := i; ag_pubkey := p; ag_active := a; ag_registeredAt := r |}
  | _ => None
  end.

(** A value used at an interface.  TypeScript does not check the claim: what a value of
    another shape would do is not modelled, and the [parse*_typed] theorems show that
    parsed values have the shape. *)
Definition typed {A} (f : jsval -> option A) (v : jsval) : res A :=
  match f v with
  | Some a => Ok a
  | None => Throw (JErr CTypeError "value outside its declared type" [])
  end.

Lemma status_of_name_spec s n : status_of_name n = Some s <-> status_name s = n.
Proof.
  split.
  - unfold status_of_name. destruct (list_find _ _) as [[i x]|] eqn:E; [|done].
    apply list_find_Some in E as (_ & Hx & _). by intros [= <-].
  - intros <-. by destruct s.
Qed.

Lemma all_statuses_complete s : s ∈ all_statuses.
Proof. destruct s; set_solver. Qed.
