(* ===== verification/Schemas.v ===== *)
(** * Runtime schemas ([packages/sdk/src/types/schemas.ts])

    zod is a third-party library: [Zod] lists the combinators the file calls, and
    [ZodLaws] states what the zod documentation says each one does with a value.  The
    coercions, [toCamelCase], [normalize] and the schemas themselves are the file's own
    code.  [RefZod] is a small instance, so that the schemas can be evaluated. *)

From S2P Require Import Prelude JsNumber JsString JsValue SdkTypes.
Local Open Scope Z_scope.

(** What running a schema gives: a value, a list of issues, or an exception thrown by
    a preprocessing function (zod does not catch it). *)
Inductive zresult (A : Type) : Type :=
  | ZOk (a : A)
  | ZIssues (issues : list jsval)
  | ZThrow (e : jsval).
Arguments ZOk {A} a.
Arguments ZIssues {A} issues.
Arguments ZThrow {A} e.

Class Zod := {
  schema : Type;
  z_run : schema -> jsval -> zresult jsval;
  z_message : list jsval -> string;
  z_string : (string -> bool) -> string -> schema;
  z_enum : list string -> schema;
  z_bigint : schema;
  z_number : schema;
  z_boolean : schema;
  z_preprocess : (jsval -> res jsval) -> schema -> schema;
  z_nullable : schema -> schema;
  z_optional : schema -> schema;
  z_default : jsval -> schema -> schema;
  z_object : list (string * schema) -> schema }.

(** The members of an object schema are run in shape order; a member's exception
    escapes even when an earlier member has an issue; unknown keys are stripped; a key
    that is absent and parses to [undefined] stays absent. *)
Section Shape.
Context {S : Type} (run : S -> jsval -> zresult jsval).

Fixpoint run_shape (shape : list (string * S)) (fs : fields) : zresult fields :=
match shape with
| [] => ZOk []
| (k, s) :: rest =>
    match run s (prop fs k), run_shape rest fs with
    | ZThrow e, _ => ZThrow e
    | _, ZThrow e => ZThrow e
    | ZIssues i, ZIssues j => ZIssues (i ++ j)
    | ZIssues i, ZOk _ => ZIssues i
    | ZOk _, ZIssues j => ZIssues j
    | ZOk v, ZOk out =>
        match v, get fs k with
        | JUndef, None => ZOk out
        | _, _ => ZOk ((k, v) :: out)
        end
    end
end.
End Shape.

(** A run that rejects with at least one issue. *)
Definition rejects (r : zresult jsval) : Prop := exists i l, r = ZIssues (i :: l).

(** What the combinators do with each kind of value, as documented by zod 3. *)
Class ZodLaws (Z : Zod) := {
  run_string p m s : p s = true -> z_run (z_string p m) (JStr s) = ZOk (JStr s);
  run_string_bad p m s : p s = false -> rejects (z_run (z_string p m) (JStr s));
  run_string_type p m v : is_string v = false -> rejects (z_run (z_string p m) v);
  run_enum l s : s ∈ l -> z_run (z_enum l) (JStr s) = ZOk (JStr s);
  run_enum_bad l v : (forall s, s ∈ l -> v <> JStr s) -> rejects (z_run (z_enum l) v);
  run_bigint z : z_run z_bigint (JBig z) = ZOk (JBig z);
  run_bigint_type v : as_big v = None -> rejects (z_run z_bigint v);
  run_number n : Num.is_nan n = false -> z_run z_number (JNum n) = ZOk (JNum n);
  run_number_nan n : Num.is_nan n = true -> rejects (z_run z_number (JNum n));
  run_number_type v : as_num v = None -> rejects (z_run z_number v);
  run_boolean b : z_run z_boolean (JBool b) = ZOk (JBool b);
  run_boolean_type v : as_bool v = None -> rejects (z_run z_boolean v);
  run_preprocess f s v :
    z_run (z_preprocess f s) v =
      match f v with Ok v' => z_run s v' | Throw e => ZThrow e end;
  run_nullable s v :
    z_run (z_nullable s) v = match v with JNull => ZOk JNull | _ => z_run s v end;
  run_optional s v :
    z_run (z_optional s) v = match v with JUndef => ZOk JUndef | _ => z_run s v end;
  run_default d s v :
    z_run (z_default d s) v = z_run s (match v with JUndef => d | _ => v end);
  run_object shape fs :
    z_run (z_object shape) (JObj fs) =
      match run_shape z_run shape fs with
      | ZOk out => ZOk (JObj out) | ZIssues i => ZIssues i | ZThrow e => ZThrow e
      end }.

(** ** Coercions *)
Definition bigint_pre (v : jsval) : res jsval :=
  match v with
  | JBig _ => Ok v
  | JNum n => JBig <$> bigint_of_num n
  | JStr s => JBig <$> bigint_of_str s
  | _ => Ok (JBig 0)
  end.

Definition number_pre (v : jsval) : res jsval :=
  match v with
  | JNum _ => Ok v
  | JBig z => Ok (JNum (Num.of_Z z))
  | JStr s => Ok (JNum (Str.parse_number s))
  | _ => Ok (JNum Num.zero)
  end.

Definition boolean_pre (v : jsval) : res jsval := Ok (JBool (truthy v)).

Definition nullable_number_pre (v : jsval) : res jsval :=
  match v with
  | JUndef | JNull => Ok JNull
  | JBig z => if z =? 0 then Ok JNull else Ok (JNum (Num.of_Z z))
  | JNum n => if Num.eqb n Num.zero then Ok JNull else Ok v
  | JStr s => Ok (JNum (Str.parse_number s))
  | _ => Ok JNull
  end.

(** The invoice id: a string as is, bytes in hexadecimal, anything else as
    [String(val || "")]. *)
Definition id_pre (v : jsval) : res jsval :=
  match v with
  | JStr _ => Ok v
  | JBytes bs => Ok (JStr (Hex.encode bs))
  | _ => Ok (JStr (to_str (js_or v (JStr ""))))
  end.

(** [/_([a-z0-9])/g] replaced by the upper-case letter. *)
Fixpoint toCamelCase (s : string) : string :=
  match s with
  | String "_" (String c r as t) =>
      if in_range 97 122 c || Str.is_digit c then String (Str.upper c) (toCamelCase r)
      else String "_" (toCamelCase t)
  | String c t => String c (toCamelCase t)
  | EmptyString => ""
  end.

(** [Object.assign({}, v)] and the string-keyed entries of a [Map]. *)
Fixpoint indexed (i : Z) (l : list jsval) : fields :=
  match l with [] => [] | x :: r => (Num.bigint_to_string i, x) :: indexed (i + 1) r end.

Definition own_fields (v : jsval) : fields :=
  match v with
  | JObj fs => fs
  | JErr _ _ ps => ps
  | JArr l => indexed 0 l
  | JBytes bs => indexed 0 (map (fun b => JNum (Num.of_Z b)) bs)
  | _ => []
  end.

Definition string_entries (m : list (jsval * jsval)) : fields :=
  omap (fun kv => match kv.1 with JStr k => Some (k, kv.2) | _ => None end) m.

Definition raw_object (native : jsval) : fields :=
  match native with
  | JMap m => assign [] (string_entries m)
  | _ => assign [] (own_fields native)
  end.

Definition camel_object (raw : fields) : fields :=
  assign [] (map (fun kv => (toCamelCase kv.1, kv.2)) raw).

Definition normalize (native : jsval) : fields :=
  if negb (truthy native) || negb (is_object native) then []
  else camel_object (raw_object native).

(** ** Formats *)
Definition base32 (c : ascii) : bool := in_range 65 90 c || in_range 50 55 c.

(** [/^[GC][A-Z2-7]{55}$/] *)
Definition stellar_address (s : string) : bool :=
  match s with
  | String c r => (Ascii.eqb c "G" || Ascii.eqb c "C") && Nat.eqb (Str.len r) 55 && Str.all base32 r
  | EmptyString => false
  end.

Definition hex_char (c : ascii) : bool :=
  in_range 97 102 c || in_range 65 70 c || Str.is_digit c.

(** [/^[a-fA-F0-9]{64}$/] *)
Definition invoice_id_format (s : string) : bool := Nat.eqb (Str.len s) 64 && Str.all hex_char s.

(** ** The schemas *)
Section Schemas.
Context {zod : Zod}.

Definition bigintSchema : schema := z_preprocess bigint_pre z_bigint.
Definition numberSchema : schema := z_preprocess number_pre z_number.
Definition booleanSchema : schema := z_preprocess boolean_pre z_boolean.
Definition nullableNumberSchema : schema := z_preprocess nullable_number_pre (z_nullable z_number).
Definition addressSchema : schema := z_string stellar_address "Invalid Stellar address format".
Definition stringSchema : schema := z_string (fun _ => true) "".

Definition profile_shape : list (string * schema) := [
("address", addressSchema);
("role", z_enum ["issuer"; "buyer"]);
("verified", booleanSchema);
("registeredAt", numberSchema)].
Definition profileSchema : schema := z_object profile_shape.

Definition invoice_shape : list (string * schema) := [
("id", z_preprocess id_pre (z_string invoice_id_format "Invalid invoice ID format"));
("issuer", addressSchema);
("buyer", addressSchema);
("faceValue", bigintSchema);
("asset", z_default (JStr "USDC") (z_enum ["USDC"; "XLM"]));
("discountBps", numberSchema);
("fundedAmount", bigintSchema);
("dueDate", numberSchema);
("status", z_enum (map status_name all_statuses));
("createdAt", numberSchema);
("fundedAt", nullableNumberSchema);
("shippedAt", nullableNumberSchema);
("issuerConfirmed", booleanSchema);
("buyerConfirmed", booleanSchema);
("buyerConfirmedAt", z_optional nullableNumberSchema);
("repaidAt", nullableNumberSchema);
("defaultedAt", z_optional nullableNumberSchema);
("attestationAgentId", z_optional (z_nullable stringSchema));
("riskScoreBps", z_optional (z_nullable z_number));
("evidenceHash", z_optional (z_nullable stringSchema));
("attestedAt", z_optional nullableNumberSchema)].
Definition invoiceSchema : schema := z_object invoice_shape.

Definition poolStats_shape : list (string * schema) := [
("totalDeposits", bigintSchema);
("totalFunded", bigintSchema);
("availableLiquidity", bigintSchema);
("utilizationRateBps", numberSchema);
("totalYieldDistributed", bigintSchema);
("activeInvoiceCount", numberSchema);
("totalShares", bigintSchema)].
Definition poolStatsSchema : schema := z_object poolStats_shape.

Definition lpPosition_shape : list (string * schema) := [
("shares", bigintSchema);
("usdcValue", bigintSchema);
("yieldEarned", bigintSchema);
("depositCount", numberSchema)].
Definition lpPositionSchema : schema := z_object lpPosition_shape.

Definition agent_shape : list (string * schema) := [
("agentId", z_string Str.nonempty "Agent ID is required");
("pubkey", addressSchema);
("active", booleanSchema);
("registeredAt", numberSchema)].
Definition agentSchema : schema := z_object agent_shape.

(** [schema.parse(v)] throws the issues as a [ZodError]. *)
Definition zod_error (issues : list jsval) : jsval :=
JErr CZodError (z_message issues) [("issues", JArr issues)].

Definition parse (s : schema) (v : jsval) : res jsval :=
match z_run s v with
| ZOk a => Ok a
| ZIssues i => Throw (zod_error i)
| ZThrow e => Throw e
end.

(** [schema.safeParse(v)]: [inl] data, [inr] the error; exceptions of the
    preprocessing functions still escape. *)
Definition safeParse (s : schema) (v : jsval) : res (jsval + jsval) :=
match z_run s v with
| ZOk a => Ok (inl a)
| ZIssues i => Ok (inr (zod_error i))
| ZThrow e => Throw e
end.

Definition parseProfile (native : jsval) : res jsval := parse profileSchema (JObj (normalize native)).
Definition parseInvoice (native : jsval) : res jsval := parse invoiceSchema (JObj (normalize native)).
Definition parsePoolStats (native : jsval) : res jsval := parse poolStatsSchema (JObj (normalize native)).
Definition parseLPPosition (native : jsval) : res jsval := parse lpPositionSchema (JObj (normalize native)).
Definition parseAgent (native : jsval) : res jsval := parse agentSchema (JObj (normalize native)).
End Schemas.

(** ** A reference instance *)
Module RefZod.
Inductive zs : Type :=
| ZsString (p : string -> bool) (m : string)
| ZsEnum (l : list string)
| ZsBigint | ZsNumber | ZsBoolean
| ZsPre (f : jsval -> res jsval) (s : zs)
| ZsNullable (s : zs)
| ZsOptional (s : zs)
| ZsDefault (d : jsval) (s : zs)
| ZsObject (shape : list (string * zs)).

Definition issue (m : string) : zresult jsval := ZIssues [JStr m].

Fixpoint run (s : zs) (v : jsval) : zresult jsval :=
match s with
| ZsString p m =>
    match v with JStr x => if p x then ZOk v else issue m | _ => issue "Expected string" end
| ZsEnum l =>
    match v with
    | JStr x => if existsb (String.eqb x) l then ZOk v else issue "Invalid enum value"
    | _ => issue "Invalid enum value"
    end
| ZsBigint => match v with JBig _ => ZOk v | _ => issue "Expected bigint" end
| ZsNumber =>
    match v with
    | JNum n => if Num.is_nan n then issue "Expected number" else ZOk v
    | _ => issue "Expected number"
    end
| ZsBoolean => match v with JBool _ => ZOk v | _ => issue "Expected boolean" end
| ZsPre f s' => match f v with Ok v' => run s' v' | Throw e => ZThrow e end
| ZsNullable s' => match v with JNull => ZOk JNull | _ => run s' v end
| ZsOptional s' => match v with JUndef => ZOk JUndef | _ => run s' v end
| ZsDefault d s' => run s' (match v with JUndef => d | _ => v end)
| ZsObject shape =>
    match v with
    | JObj fs =>
        match run_shape run shape fs with
        | ZOk out => ZOk (JObj out) | ZIssues i => ZIssues i | ZThrow e => ZThrow e
        end
    | _ => issue "Expected object"
    end
end.

#[export] Instance ref_zod : Zod := {|
schema := zs; z_run := run; z_message := fun l => Str.join ", " (map to_str l);
z_string := ZsString; z_enum := ZsEnum; z_bigint := ZsBigint; z_number := ZsNumber;
z_boolean := ZsBoolean; z_preprocess := ZsPre; z_nullable := ZsNullable;
z_optional := ZsOptional; z_default := ZsDefault; z_object := ZsObject |}.

Lemma existsb_in x l : existsb (String.eqb x) l = true <-> x ∈ l.
Proof.
rewrite existsb_exists. split.
- intros (y & Hy & E). apply String.eqb_eq in E as ->. by apply list_elem_of_In.
- intros H. exists x. split; [by apply list_elem_of_In | apply String.eqb_refl].
Qed.

#[export] Instance ref_zod_laws : ZodLaws ref_zod.
Proof.
split; cbn; try done; unfold rejects, issue.
- by intros p m s ->.
- intros p m s ->. eauto.
- intros p m v Hv. destruct v; try done; eauto.
- intros l s H. apply existsb_in in H. by rewrite H.
- intros l v H. destruct v as [| | | | |s| | | | | | |]; eauto.
  destruct (existsb (String.eqb s) l) eqn:E; eauto.
  apply existsb_in in E. by destruct (H s).
- intros v H. destruct v; try done; eauto.
- by intros n ->.
- intros n ->. eauto.
- intros v H. destruct v; try done; eauto.
- intros v H. destruct v; try done; eauto.
Qed.
End RefZod.

(** ** Lemmas: what a successful run says *)
Section Runs.
Context {zod : Zod} {laws : ZodLaws zod}.

Lemma rejects_not_ok r v : rejects r -> r <> ZOk v.
Proof. by intros (i & l & ->). Qed.
Lemma rejects_not_throw r e : rejects r -> r <> ZThrow e.
Proof. by intros (i & l & ->). Qed.

Lemma run_string_ok p m v r :
z_run (z_string p m) v = ZOk r -> exists s, r = JStr s /\ v = JStr s /\ p s = true.
Proof.
destruct (is_string v) eqn:Hv; [|intros H; by destruct (rejects_not_ok _ _ (run_string_type p m v Hv) H)].
destruct v; try done. destruct (p s) eqn:Hp.
- rewrite run_string by done. intros [= <-]. eauto.
- intros H. by destruct (rejects_not_ok _ _ (run_string_bad p m s Hp) H).
Qed.

Lemma run_enum_ok l v r :
z_run (z_enum l) v = ZOk r -> exists s, r = JStr s /\ v = JStr s /\ s ∈ l.
Proof.
intros H. assert (Hd : (exists s, s ∈ l /\ v = JStr s) \/ forall s, s ∈ l -> v <> JStr s).
{ destruct v as [| | | | |s| | | | | | |]; try (right; congruence).
  destruct (decide (s ∈ l)); [left; eauto | right; congruence]. }
destruct Hd as [(s & Hs & ->)|Hd].
- rewrite run_enum in H by done. simplify_eq. eauto.
- by destruct (rejects_not_ok _ _ (run_enum_bad l v Hd) H).
Qed.

Lemma run_number_ok v r :
z_run z_number v = ZOk r -> exists n, v = JNum n /\ r = JNum n /\ Num.is_nan n = false.
Proof.
destruct (as_num v) as [n|] eqn:Hv.
- destruct v; try done. injection Hv as ->. destruct (Num.is_nan n) eqn:E.
  + intros H. by destruct (rejects_not_ok _ _ (run_number_nan n E) H).
  + rewrite run_number by done. intros [= <-]. eauto.
- intros H. by destruct (rejects_not_ok _ _ (run_number_type v Hv) H).
Qed.

Lemma run_bigintSchema v :
z_run bigintSchema v =
  match bigint_pre v with Ok (JBig z) => ZOk (JBig z) | Ok _ => ZIssues [] | Throw e => ZThrow e end.
Proof.
unfold bigintSchema. rewrite run_preprocess.
destruct v; cbn; try apply run_bigint;
  [destruct (bigint_of_num n) | destruct (bigint_of_str s)]; cbn; try apply run_bigint; done.
Qed.

Lemma run_bigintSchema_ok v r : z_run bigintSchema v = ZOk r -> exists z, r = JBig z.
Proof.
rewrite run_bigintSchema. destruct (bigint_pre v) as [[]|]; intros; simplify_eq; eauto.
Qed.

Lemma run_numberSchema_ok v r :
z_run numberSchema v = ZOk r -> exists n, r = JNum n /\ Num.is_nan n = false.
Proof.
unfold numberSchema. rewrite run_preprocess. destruct (number_pre v); [|done].
intros H. apply run_number_ok in H as (n & -> & -> & ?). eauto.
Qed.

Lemma run_booleanSchema v : z_run booleanSchema v = ZOk (JBool (truthy v)).
Proof. unfold booleanSchema. rewrite run_preprocess. cbn. apply run_boolean. Qed.

Lemma run_nullableNumberSchema_ok v r :
z_run nullableNumberSchema v = ZOk r -> exists n, as_nullable as_num r = Some n.
Proof.
unfold nullableNumberSchema. rewrite run_preprocess. destruct (nullable_number_pre v) as [v'|]; [|done].
rewrite run_nullable. intros H. destruct v'; simplify_eq/=; try (by eexists);
  apply run_number_ok in H as (n' & _ & -> & _); by eexists.
Qed.

Lemma run_optional_ok {A} s (f : jsval -> option A) v r :
(forall v r, z_run s v = ZOk r -> exists a, f r = Some a) ->
z_run (z_optional s) v = ZOk r -> exists a, as_optional f r = Some a.
Proof.
intros Hs. rewrite run_optional. intros H.
assert (Hr : (exists a, f r = Some a) \/ r = JUndef) by (destruct v; simplify_eq; eauto).
destruct Hr as [[a Ha]| ->]; [|by eexists].
destruct r; cbn; try (by eexists); rewrite Ha; by eexists.
Qed.

Lemma run_nullable_ok {A} s (f : jsval -> option A) v r :
(forall v r, z_run s v = ZOk r -> exists a, f r = Some a) ->
z_run (z_nullable s) v = ZOk r -> exists a, as_nullable f r = Some a.
Proof.
intros Hs. rewrite run_nullable. intros H.
assert (Hr : (exists a, f r = Some a) \/ r = JNull) by (destruct v; simplify_eq; eauto).
destruct Hr as [[a Ha]| ->]; [|by eexists].
destruct r; cbn; try (by eexists); rewrite Ha; by eexists.
Qed.

(** Only the preprocessing of a string or a fractional number can throw. *)
Lemma run_string_no_throw p m v e : z_run (z_string p m) v <> ZThrow e.
Proof.
destruct (is_string v) eqn:Hv.
- destruct v; try done. destruct (p s) eqn:Hp; [by rewrite run_string|].
  by apply rejects_not_throw, run_string_bad.
- by apply rejects_not_throw, run_string_type.
Qed.

Lemma run_id_no_throw p m v e : z_run (z_preprocess id_pre (z_string p m)) v <> ZThrow e.
Proof.
rewrite run_preprocess. destruct (id_pre v) eqn:E; [apply run_string_no_throw|].
by destruct v.
Qed.

Lemma run_shape_prop (shape : list (string * schema)) fs out :
NoDup shape.*1 -> run_shape z_run shape fs = ZOk out ->
Forall (fun ks => z_run ks.2 (prop fs ks.1) = ZOk (prop out ks.1)) shape /\
(forall k, k ∈ out.*1 -> k ∈ shape.*1) /\ NoDup out.*1.
Proof.
revert out. induction shape as [|[k s] rest IH]; intros out Hnd; cbn.
{ intros [= <-]. split; [constructor|]. split; [set_solver | constructor]. }
apply list.NoDup_cons in Hnd as [Hk Hnd].
destruct (z_run s (prop fs k)) as [v| |] eqn:Hs;
  destruct (run_shape z_run rest fs) as [out'| |] eqn:Hr; try done.
destruct (IH out' Hnd eq_refl) as (IHa & IHb & IHc).
assert (Hk' : get out' k = None).
{ destruct (get out' k) eqn:E; [|done]. exfalso. apply Hk, IHb.
  clear -E. induction out' as [|[k' v'] out' IH]; [done|]. cbn in *.
  destruct (String.eqb_spec k k') as [->|]; [by left | right; eauto]. }
assert (Hother : forall w, Forall (fun ks => z_run ks.2 (prop fs ks.1) =
           ZOk (prop ((k, w) :: out') ks.1)) rest).
{ intros w. rewrite List.Forall_forall in IHa |- *. intros [k1 s1] Hin. cbn.
  specialize (IHa _ Hin). cbn in IHa. rewrite IHa. unfold prop. cbn.
  destruct (String.eqb_spec k1 k) as [->|]; [|done].
  exfalso. apply Hk. apply list_elem_of_fmap. exists (k, s1). by rewrite list_elem_of_In. }
destruct v; try destruct (get fs k); intros H; simplify_eq/=;
  (split; [constructor; [cbn; rewrite Hs; unfold prop; cbn; by rewrite ?String.eqb_refl, ?Hk'|]; auto
          | split; [set_solver | try constructor; auto; set_solver]]).
Qed.
End Runs.

(** A successful parse of an object schema runs every member successfully. *)
Section Parsing.
Context {zod : Zod} {laws : ZodLaws zod}.

Lemma parse_object_ok shape fs r :
NoDup shape.*1 -> parse (z_object shape) (JObj fs) = Ok r ->
exists out, r = JObj out /\
  Forall (fun ks => z_run ks.2 (prop fs ks.1) = ZOk (prop out ks.1)) shape.
Proof.
unfold parse. intros Hnd. rewrite run_object.
destruct (run_shape z_run shape fs) as [out| |] eqn:E; intros [= <-].
exists out. split; [done|]. by apply run_shape_prop.
Qed.
End Parsing.

(** Splits the result of [parse_object_ok] at a concrete shape into one equation per
    member, and replaces each by what the member's run lemma says. *)
Ltac inv_shape :=
  repeat match goal with
  | H : Forall _ (_ :: _) |- _ => apply list.Forall_cons in H as [? H]
  | H : Forall _ [] |- _ => clear H
  end; cbn [fst snd] in *.

Ltac inv_member :=
  match goal with
  | H : z_run bigintSchema _ = ZOk _ |- _ => apply run_bigintSchema_ok in H as (? & ?)
  | H : z_run numberSchema _ = ZOk _ |- _ => apply run_numberSchema_ok in H as (? & ? & ?)
  | H : z_run booleanSchema _ = ZOk _ |- _ => rewrite run_booleanSchema in H
  | H : z_run nullableNumberSchema _ = ZOk _ |- _ =>
      apply run_nullableNumberSchema_ok in H as (? & ?)
  | H : z_run addressSchema _ = ZOk _ |- _ => apply run_string_ok in H as (? & ? & ? & ?)
  | H : z_run (z_string _ _) _ = ZOk _ |- _ => apply run_string_ok in H as (? & ? & ? & ?)
  | H : z_run (z_enum _) _ = ZOk _ |- _ => apply run_enum_ok in H as (? & ? & ? & ?)
  | H : ZOk _ = ZOk _ |- _ => injection H as H
  end.

Section WellTyped.
Context {zod : Zod} {laws : ZodLaws zod}.

Lemma run_optional_nullable_number v r :
z_run (z_optional nullableNumberSchema) v = ZOk r ->
exists n, as_optional (as_nullable as_num) r = Some n.
Proof. apply run_optional_ok. apply run_nullableNumberSchema_ok. Qed.

Lemma run_optional_nullable_string v r :
z_run (z_optional (z_nullable stringSchema)) v = ZOk r ->
exists n, as_optional (as_nullable as_str) r = Some n.
Proof.
apply run_optional_ok. intros v' r'. apply run_nullable_ok. intros v1 r1 H.
apply run_string_ok in H as (s & -> & _). by eexists.
Qed.

Lemma run_optional_nullable_plain v r :
z_run (z_optional (z_nullable z_number)) v = ZOk r ->
exists n, as_optional (as_nullable as_num) r = Some n.
Proof.
apply run_optional_ok. intros v' r'. apply run_nullable_ok. intros v1 r1 H.
apply run_number_ok in H as (n & _ & -> & _). by eexists.
Qed.

Lemma run_id_ok v r :
z_run (z_preprocess id_pre (z_string invoice_id_format "Invalid invoice ID format")) v = ZOk r ->
exists s, r = JStr s /\ invoice_id_format s = true.
Proof.
rewrite run_preprocess. destruct (id_pre v); [|done]. intros H.
apply run_string_ok in H as (s & -> & _ & Hs). eauto.
Qed.

Lemma run_asset_ok v r :
z_run (z_default (JStr "USDC") (z_enum ["USDC"; "XLM"])) v = ZOk r ->
exists a, as_str r ≫= asset_of_name = Some a.
Proof.
rewrite run_default. intros H. apply run_enum_ok in H as (s & -> & _ & Hs). cbn.
rewrite !elem_of_cons in Hs. destruct Hs as [-> | [-> | Hs]]; [by eexists.. | set_solver].
Qed.

Lemma run_status_ok v r :
z_run (z_enum (map status_name all_statuses)) v = ZOk r ->
exists st, as_str r ≫= status_of_name = Some st.
Proof.
intros H. apply run_enum_ok in H as (s & -> & _ & Hs). cbn.
apply list_elem_of_fmap in Hs as (st & -> & _). exists st. by apply status_of_name_spec.
Qed.

Lemma run_role_ok v r :
z_run (z_enum ["issuer"; "buyer"]) v = ZOk r -> exists a, as_str r ≫= role_of_name = Some a.
Proof.
intros H. apply run_enum_ok in H as (s & -> & _ & Hs). cbn.
rewrite !elem_of_cons in Hs. destruct Hs as [-> | [-> | Hs]]; [by eexists.. | set_solver].
Qed.

(** C13: what [parseInvoice] returns is an [Invoice]: every declared field
    is present with its declared type, the id is 64 hexadecimal characters and both
    parties are well-formed Stellar addresses. *)
Theorem parseInvoice_typed native r (H : parseInvoice native = Ok r) :
exists inv, invoice_of r = Some inv /\ invoice_id_format (inv_id inv) = true /\
  stellar_address (inv_issuer inv) = true /\ stellar_address (inv_buyer inv) = true.
Proof.
unfold parseInvoice in H. apply parse_object_ok in H as (out & -> & HF);
  [|by apply (bool_decide_unpack _)].
unfold invoice_shape in HF. inv_shape.
repeat match goal with
| H : z_run (z_preprocess id_pre _) _ = ZOk _ |- _ => apply run_id_ok in H as (? & ? & ?)
| H : z_run (z_default _ _) _ = ZOk _ |- _ => apply run_asset_ok in H as (? & ?)
| H : z_run (z_enum (map _ _)) _ = ZOk _ |- _ => apply run_status_ok in H as (? & ?)
| H : z_run (z_optional nullableNumberSchema) _ = ZOk _ |- _ =>
    apply run_optional_nullable_number in H as (? & ?)
| H : z_run (z_optional (z_nullable stringSchema)) _ = ZOk _ |- _ =>
    apply run_optional_nullable_string in H as (? & ?)
| H : z_run (z_optional (z_nullable z_number)) _ = ZOk _ |- _ =>
    apply run_optional_nullable_plain in H as (? & ?)
| _ => inv_member
end.
unfold invoice_of.
repeat match goal with
| H : ?f (prop out ?k) = Some _ |- _ => rewrite H; clear H
| H : as_str (prop out ?k) ≫= ?g = Some _ |- _ => rewrite H; clear H
| H : prop out ?k = _ |- _ => rewrite H; clear H
| H : _ = prop out ?k |- _ => rewrite <- H; clear H
end; cbn.
eexists. split; [reflexivity|]. done.
Qed.

Ltac solve_typed :=
match goal with
| H : parse (z_object ?sh) (JObj _) = Ok _ |- _ =>
    apply parse_object_ok in H as (out & -> & HF); [|by apply (bool_decide_unpack _)];
    inv_shape;
    repeat match goal with
    | H : z_run (z_enum ["issuer"; "buyer"]) _ = ZOk _ |- _ => apply run_role_ok in H as (? & ?)
    | _ => inv_member
    end;
    repeat match goal with
    | H : as_str (prop out ?k) ≫= ?g = Some _ |- _ => rewrite H; clear H
    | H : prop out ?k = _ |- _ => rewrite H; clear H
    | H : _ = prop out ?k |- _ => rewrite <- H; clear H
    end; cbn; by eexists
end.

(** The other schemas: a parsed value has its declared interface. *)
Lemma parsePoolStats_typed native r :
parsePoolStats native = Ok r -> exists s, poolstats_of r = Some s.
Proof. unfold parsePoolStats, poolStatsSchema, poolStats_shape, poolstats_of. intros H. solve_typed. Qed.
Lemma parseLPPosition_typed native r :
parseLPPosition native = Ok r -> exists s, lpposition_of r = Some s.
Proof. unfold parseLPPosition, lpPositionSchema, lpPosition_shape, lpposition_of. intros H. solve_typed. Qed.
Lemma parseProfile_typed native r :
parseProfile native = Ok r -> exists s, profile_of r = Some s.
Proof. unfold parseProfile, profileSchema, profile_shape, profile_of. intros H. solve_typed. Qed.
Lemma parseAgent_typed native r :
parseAgent native = Ok r -> exists s, agent_of r = Some s.
Proof. unfold parseAgent, agentSchema, agent_shape, agent_of. intros H. solve_typed. Qed.
End WellTyped.

(** ** Totality of the coercions, and the one way parsing can throw something else *)

(** A value [bigint_pre] converts without throwing. *)
Definition bigint_coercible (v : jsval) : bool :=
  match v with
  | JNum n => match Num.to_Z n with Some _ => true | None => false end
  | JStr s => match Str.parse_bigint s with Some _ => true | None => false end
  | _ => true
  end.
Definition coerced_bigint (v : jsval) : Z :=
  match v with
  | JBig z => z
  | JNum n => default 0 (Num.to_Z n)
  | JStr s => default 0 (Str.parse_bigint s)
  | _ => 0
  end.

(** A value [number_pre] turns into a number other than NaN. *)
Definition coerced_number (v : jsval) : num :=
  match v with
  | JNum n => n
  | JBig z => Num.of_Z z
  | JStr s => Str.parse_number s
  | _ => Num.zero
  end.
Definition number_coercible (v : jsval) : bool := negb (Num.is_nan (coerced_number v)).

Lemma bigint_pre_coercible v :
  bigint_coercible v = true -> bigint_pre v = Ok (JBig (coerced_bigint v)).
Proof.
  unfold bigint_coercible, bigint_pre, coerced_bigint, bigint_of_num, bigint_of_str.
  destruct v; try done; by case_match.
Qed.

Lemma bigint_pre_not_coercible v :
  bigint_coercible v = false ->
  exists c m, bigint_pre v = Throw (JErr c m []) /\ (c = CRangeError \/ c = CSyntaxError).
Proof.
  unfold bigint_coercible, bigint_pre, bigint_of_num, bigint_of_str.
  destruct v; try done; case_match; try done; eauto.
Qed.

Section Totality.
Context {zod : Zod} {laws : ZodLaws zod}.

Lemma run_bigint_member v :
bigint_coercible v = true -> z_run bigintSchema v = ZOk (JBig (coerced_bigint v)).
Proof. intros H. by rewrite run_bigintSchema, bigint_pre_coercible. Qed.

Lemma run_number_member v :
number_coercible v = true -> z_run numberSchema v = ZOk (JNum (coerced_number v)).
Proof.
unfold number_coercible. rewrite negb_true_iff. intros H. unfold numberSchema.
rewrite run_preprocess. by destruct v; apply run_number.
Qed.

Lemma run_shape_member k s rest fs v :
z_run s (prop fs k) = ZOk v -> v <> JUndef ->
run_shape z_run ((k, s) :: rest) fs =
  match run_shape z_run rest fs with
  | ZOk out => ZOk ((k, v) :: out) | ZIssues j => ZIssues j | ZThrow e => ZThrow e
  end.
Proof. intros H Hv. cbn. rewrite H. destruct (run_shape _ _ _); [by destruct v | done..]. Qed.

(** [parsePoolStats] accepts every object whose bigint members convert
    and whose counters are not NaN, computes each member from the camel-cased input,
    and reads a missing member as zero. *)
Theorem parsePoolStats_total native
  (Hb : Forall (fun k => bigint_coercible (prop (normalize native) k) = true)
     ["totalDeposits"; "totalFunded"; "availableLiquidity"; "totalYieldDistributed"; "totalShares"])
  (Hn : Forall (fun k => number_coercible (prop (normalize native) k) = true)
     ["utilizationRateBps"; "activeInvoiceCount"]) :
exists v, parsePoolStats native = Ok v /\
  let p k := prop (normalize native) k in
  poolstats_of v = Some {|
    ps_totalDeposits := coerced_bigint (p "totalDeposits");
    ps_totalFunded := coerced_bigint (p "totalFunded");
    ps_availableLiquidity := coerced_bigint (p "availableLiquidity");
    ps_utilizationRateBps := coerced_number (p "utilizationRateBps");
    ps_totalYieldDistributed := coerced_bigint (p "totalYieldDistributed");
    ps_activeInvoiceCount := coerced_number (p "activeInvoiceCount");
    ps_totalShares := coerced_bigint (p "totalShares") |}.
Proof.
inv_shape. unfold parsePoolStats, parse, poolStatsSchema, poolStats_shape. rewrite run_object.
repeat (erewrite run_shape_member by (first [by apply run_bigint_member | by apply run_number_member] || done)).
cbn [run_shape]. eexists. split; reflexivity.
Qed.

(** The face value is read after three fields that cannot throw. *)
Lemma bad_faceValue_throws fs s :
prop fs "faceValue" = JStr s -> Str.parse_bigint s = None ->
z_run invoiceSchema (JObj fs) =
  ZThrow (JErr CSyntaxError ("Cannot convert " +:+ s +:+ " to a BigInt") []).
Proof.
intros Hs Hp. unfold invoiceSchema. rewrite run_object. unfold invoice_shape.
set (tail := ("asset", _) :: _).
assert (Ht : run_shape z_run (("faceValue", bigintSchema) :: tail) fs =
   ZThrow (JErr CSyntaxError ("Cannot convert " +:+ s +:+ " to a BigInt") [])).
{ cbn [run_shape]. rewrite Hs, run_bigintSchema. unfold bigint_pre, bigint_of_str.
  rewrite Hp. done. }
assert (Hpre : forall k s' rest e, (forall e', z_run s' (prop fs k) <> ZThrow e') ->
   run_shape z_run rest fs = ZThrow e -> run_shape z_run ((k, s') :: rest) fs = ZThrow e).
{ intros k s' rest e Hno Hr. cbn [run_shape]. rewrite Hr.
  destruct (z_run s' (prop fs k)) eqn:E; [done..|]. by destruct (Hno e0). }
erewrite Hpre; [done | apply run_id_no_throw |].
apply Hpre; [apply run_string_no_throw|]. apply Hpre; [apply run_string_no_throw | exact Ht].
Qed.

(** A face value that is a string but no integer makes both [parse] and
    [safeParse] throw the raw [SyntaxError] of [BigInt]: no [ZodError] is produced, and
    [safeParse] does not return a failure. *)
Theorem invoice_bad_faceValue_escapes fs s
  (Hs : prop fs "faceValue" = JStr s) (Hp : Str.parse_bigint s = None) :
exists m, safeParse invoiceSchema (JObj fs) = Throw (JErr CSyntaxError m []) /\
          parse invoiceSchema (JObj fs) = Throw (JErr CSyntaxError m []).
Proof.
eexists. unfold safeParse, parse. by rewrite (bad_faceValue_throws fs s).
Qed.
End Totality.

(** ** Normalisation *)

(** The value stored last under the camel-cased key wins. *)
Lemma normalize_object_get fs k :
  get (normalize (JObj fs)) k =
  get (reverse (map (fun kv => (toCamelCase kv.1, kv.2)) (assign [] fs))) k.
Proof. unfold normalize, camel_object. cbn. rewrite assign_get. by case_match. Qed.

(** A [Map] and the plain object with the same string-keyed entries normalise alike. *)
Lemma normalize_map_object (entries : list (jsval * jsval)) :
  normalize (JMap entries) = normalize (JObj (string_entries entries)).
Proof. done. Qed.

Lemma set_new fs k v : k ∉ fs.*1 -> set fs k v = fs ++ [(k, v)].
Proof.
  induction fs as [|[k' v'] fs IH]; cbn; [done|]. intros Hk.
  destruct (String.eqb_spec k k') as [->|]; [set_solver|]. rewrite IH; [done | set_solver].
Qed.

Lemma assign_distinct (src : fields) : NoDup src.*1 -> assign [] src = src.
Proof.
  unfold assign. induction src as [|[k v] src IH] using rev_ind; [done|].
  rewrite fmap_app, list.NoDup_app. intros (H1 & H2 & _). rewrite foldl_app. cbn.
  rewrite IH by done. apply set_new. intros Hk. apply (H2 k Hk). set_solver.
Qed.

(** A contract struct decoded as a [Map] (or an object) with snake_case
    keys becomes the object with the same values, in the same order, under the
    camel-cased keys, as long as no two keys collide. *)
Theorem normalize_struct (entries : list (jsval * jsval))
    (Hnd : NoDup (map toCamelCase (string_entries entries).*1)) :
  normalize (JMap entries) =
    map (fun kv => (toCamelCase kv.1, kv.2)) (string_entries entries) /\
  normalize (JObj (string_entries entries)) = normalize (JMap entries).
Proof.
  split; [|done]. unfold normalize, camel_object. cbn [truthy is_object negb orb raw_object].
  rewrite assign_distinct; rewrite assign_distinct; [done|..].
  - by apply NoDup_fmap_1 in Hnd.
  - rewrite <- list_fmap_compose. cbn. by rewrite <- list_fmap_compose in Hnd.
  - by apply NoDup_fmap_1 in Hnd.
Qed.

Lemma toCamelCase_plain s :
  Str.all (fun c => negb (Ascii.eqb c "_")) s = true -> toCamelCase s = s.
Proof.
  induction s as [|c s IH]; [done|]. cbn [Str.all]. rewrite andb_true_iff. intros [Hc Hs].
  assert (E : toCamelCase (String c s) = String c (toCamelCase s)).
  { destruct c as [[] [] [] [] [] [] [] []]; try done. }
  by rewrite E, IH.
Qed.

(** ** Witnesses *)
Import RefZod.
Definition sample_address : string := "GACR43ILX6H4PGAOO5QKSZLU4ZJMGT3E66EAUDPLM5J6YTP4Y3PSHWGB".

(** An on-chain invoice as [scValToNative] decodes it. *)
Definition sample_invoice_map : jsval := JMap [
  (JStr "id", JBytes (replicate 32 171)); (JStr "issuer", JStr sample_address);
  (JStr "buyer", JStr sample_address); (JStr "face_value", JBig 10000000);
  (JStr "discount_bps", JNum (Num.of_Z 500)); (JStr "funded_amount", JBig 0);
  (JStr "due_date", JBig 1700000000); (JStr "status", JStr "Listed");
  (JStr "created_at", JBig 1690000000); (JStr "funded_at", JBig 0);
  (JStr "shipped_at", JBig 0); (JStr "issuer_confirmed", JBool false);
  (JStr "buyer_confirmed", JBool false); (JStr "repaid_at", JBig 0)].

Example sample_invoice_id :
  (inv ← match parseInvoice (zod := RefZod.ref_zod) sample_invoice_map with
         | Ok v => invoice_of v | Throw _ => None end;
   Some (inv_id inv, inv_asset inv, inv_status inv, inv_fundedAt inv)) =
  Some (Hex.encode (replicate 32 171), USDC, Listed, None).
Proof. vm_compute. reflexivity. Qed.

Lemma parseInvoice_typed_witness :
  exists r inv, parseInvoice (zod := RefZod.ref_zod) sample_invoice_map = Ok r /\
    invoice_of r = Some inv /\ invoice_id_format (inv_id inv) = true.
Proof.
  destruct (parseInvoice (zod := RefZod.ref_zod) sample_invoice_map) as [r|e] eqn:E;
    [|vm_compute in E; discriminate E].
  destruct (parseInvoice_typed sample_invoice_map r E) as (inv & H1 & H2 & _).
  exists r, inv. split; [reflexivity|]. split; [exact H1 | exact H2].
Defined.

Lemma parsePoolStats_total_witness :
  exists v, parsePoolStats (zod := RefZod.ref_zod) (JObj [("total_deposits", JStr "70")]) = Ok v.
Proof.
  destruct (parsePoolStats_total (zod := RefZod.ref_zod) (JObj [("total_deposits", JStr "70")]))
    as (v & H & _); [repeat constructor.. | exists v; exact H].
Defined.

Lemma invoice_bad_faceValue_escapes_witness :
  exists m, safeParse (zod := RefZod.ref_zod) invoiceSchema (JObj [("faceValue", JStr "1.5")]) =
            Throw (JErr CSyntaxError m []).
Proof.
  destruct (invoice_bad_faceValue_escapes (zod := RefZod.ref_zod) [("faceValue", JStr "1.5")] "1.5"
              eq_refl eq_refl) as (m & H & _).
  exists m. exact H.
Defined.

Lemma normalize_struct_witness :
  normalize (JMap [(JStr "face_value", JBig 7); (JBig 1, JNull)]) = [("faceValue", JBig 7)].
Proof.
  destruct (normalize_struct [(JStr "face_value", JBig 7); (JBig 1, JNull)]) as [H _];
    [apply NoDup_singleton | exact H].
Defined.
