(* ===== verification/Base.v ===== *)
(** * The contract client base ([packages/sdk/src/base.ts])

    [readContract], [writeContract] and [simulateTransaction] run in the logged monad of
    [Effects]: the Soroban RPC server and the Freighter wallet are the environment, and
    every request is a log entry that carries the answer.  The retry loops recurse on
    the number of attempts that remain.  Retry policies are integers ([maxAttempts] and
    [baseDelayMs] of type [number] hold integers in every caller). *)

From S2P Require Import Prelude JsNumber JsString JsValue Effects SdkConfig.
Local Open Scope Z_scope.

(** ** What the code reads of RPC responses *)
Inductive SendStatus := PENDING | DUPLICATE | TRY_AGAIN_LATER | ERROR.
Record SendResponse := {
  send_status : SendStatus; send_hash : string;
  (** [errorResult?.toXDR().toString("base64")] *)
  send_errorResult : option string }.
Inductive GetStatus := SUCCESS | NOT_FOUND | FAILED.

Record SimResponse (scval : Type) := {
  sim_isError : bool; sim_error : option string;
  sim_retval : option scval;
  (** the lengths of the read-only and read-write footprints of [transactionData] *)
  sim_transactionData : option (Z * Z);
  sim_minResourceFee : option string }.
Arguments sim_isError {scval}.
Arguments sim_error {scval}.
Arguments sim_retval {scval}.
Arguments sim_transactionData {scval}.
Arguments sim_minResourceFee {scval}.

(** The values of the Stellar SDK the code handles opaquely, and its pure operations. *)
Class StellarSdk := {
  stellar_networks :: Networks;
  scval : Type; account : Type; contract : Type; transaction : Type;
  BASE_FEE : string;
  new_Contract : string -> res contract;
  (** [new TransactionBuilder(account, {fee: BASE_FEE, networkPassphrase})
      .addOperation(contract.call(method, ...args)).setTimeout(t).build()] *)
  build_call : account -> string -> contract -> string -> list scval -> Z -> res transaction;
  toXDR : transaction -> string;
  fromXDR : string -> string -> res transaction;
  scValToNative : scval -> res jsval }.

(** The RPC server at a URL and the wallet, as operations on the environment. *)
Class Services `{StellarSdk} (Env : Type) := {
  rpc_getAccount : string -> string -> Env -> res account * Env;
  rpc_simulateTransaction : string -> transaction -> Env -> res (SimResponse scval) * Env;
  rpc_prepareTransaction : string -> transaction -> Env -> res transaction * Env;
  rpc_sendTransaction : string -> transaction -> Env -> res SendResponse * Env;
  rpc_getTransaction : string -> string -> Env -> res GetStatus * Env;
  wallet_signTransaction : string -> string -> string -> string -> Env -> res string * Env }.

Inductive Event `{StellarSdk} :=
  | EvGetAccount (pk : string) (r : res account)
  | EvSimulate (t : transaction) (r : res (SimResponse scval))
  | EvPrepare (t : transaction) (r : res transaction)
  | EvSign (xdr network passphrase signer : string) (r : res string)
  | EvSend (t : transaction) (r : res SendResponse)
  | EvGetTx (hash : string) (r : res GetStatus)
  | EvSleep (ms : Z).

(** ** The wallet function: the named export or the default export's *)
Definition signTransactionFn {F} (named : option F) (dflt : option (option F)) : option F :=
  match named with Some f => Some f | None => dflt ≫= id end.
Definition signTransactionCompat {F} (named : option F) (dflt : option (option F)) : res F :=
  match signTransactionFn named dflt with
  | None => throw_error
      "The installed @stellar/freighter-api package does not expose signTransaction"
  | Some f => Ok f
  end.

Definition MAX_TRANSACTION_POLL_ATTEMPTS : Z := 30.

(** ** Errors *)
Definition TransactionTimeoutError (txHash : string) : jsval :=
  JErr CTransactionTimeoutError ("Transaction confirmation timed out for hash: " +:+ txHash)
    [("name", JStr "TransactionTimeoutError"); ("txHash", JStr txHash)].

Definition SimulationError (method : string) (message : option string) : jsval :=
  let has := opt_str_truthy message in
  let m := default "" message in
  JErr CSimulationError
    (if has then "Simulation failed for " +:+ method +:+ ": " +:+ m
     else "Simulation failed for " +:+ method)
    ([("name", JStr "SimulationError"); ("method", JStr method)] ++
     (if has then [("cause", JStr m)] else [])).

Definition MissingReturnValueError (method : string) : jsval :=
  JErr CMissingReturnValueError ("No return value from simulation for " +:+ method)
    [("name", JStr "MissingReturnValueError"); ("method", JStr method)].

Definition TransactionSendError (method : string) (sorobanError : option string) : jsval :=
  let has := opt_str_truthy sorobanError in
  let m := default "" sorobanError in
  JErr CTransactionSendError
    (if has then "Send failed for " +:+ method +:+ ": " +:+ m else "Send failed for " +:+ method)
    ([("name", JStr "TransactionSendError"); ("method", JStr method)] ++
     (if has then [("sorobanError", JStr m)] else [])).

Definition TransactionFailedError (method : string) : jsval :=
  JErr CTransactionFailedError ("Transaction failed on-chain for " +:+ method)
    [("name", JStr "TransactionFailedError"); ("method", JStr method)].

Definition TransactionTryAgainLaterError (method txHash : string) (attempts : Z) : jsval :=
  JErr CTransactionTryAgainLaterError
    ("Send refused as TRY_AGAIN_LATER for " +:+ method +:+ " after " +:+
     Num.bigint_to_string attempts +:+ " attempt(s): " +:+ txHash)
    [("name", JStr "TransactionTryAgainLaterError"); ("method", JStr method);
     ("txHash", JStr txHash); ("attempts", JNum (Num.of_Z attempts))].

Record MutationRetryPolicy := { maxAttempts : Z; baseDelayMs : Z }.
Definition DEFAULT_MUTATION_RETRY_POLICY : MutationRetryPolicy :=
  {| maxAttempts := 3; baseDelayMs := 1000 |}.

Definition isNetworkError (err : jsval) : bool :=
  if instance_of CTypeError err then true
  else
    let msg := match err with JErr _ m _ => Str.to_lower m | _ => "" end in
    Str.includes_any msg
      ["fetch"; "network"; "timeout"; "abort"; "econnrefused"; "enotfound"; "econnreset";
       "eai_again"; "etimedout"].

Record SimulationResult (scval : Type) := {
  estimatedFeeXlm : string; functionName : string;
  expectedResult : jsval + scval; footprintSize : Z }.
Arguments estimatedFeeXlm {scval}.
Arguments functionName {scval}.
Arguments expectedResult {scval}.
Arguments footprintSize {scval}.

Section Base.
Context `{Sdk : StellarSdk} {Env : Type} {Srv : Services Env}.

Abbreviation IO := (M Env Event).

Definition getAccount (url pk : string) : IO account := io (EvGetAccount pk) (rpc_getAccount url pk).
Definition simulate (url : string) (t : transaction) : IO (SimResponse scval) :=
io (EvSimulate t) (rpc_simulateTransaction url t).
Definition prepare (url : string) (t : transaction) : IO transaction :=
io (EvPrepare t) (rpc_prepareTransaction url t).
Definition send (url : string) (t : transaction) : IO SendResponse :=
io (EvSend t) (rpc_sendTransaction url t).
Definition getTransaction (url hash : string) : IO GetStatus :=
io (EvGetTx hash) (rpc_getTransaction url hash).
Definition sign (xdr network passphrase signer : string) : IO string :=
io (EvSign xdr network passphrase signer) (wallet_signTransaction xdr network passphrase signer).
Definition sleep (ms : Z) : IO () := emit (EvSleep ms).

(** ** [withRetry]: [left] attempts remain, [attempt] is the loop variable *)
Fixpoint retry_loop {A} (fn : IO A) (maxA base : Z) (left : nat) (attempt : Z) (lastError : jsval) : IO A :=
match left with
| O => raise lastError
| S left' =>
    catch fn (fun err =>
      if negb (isNetworkError err) || (attempt =? maxA) then raise err
      else sleep (base * 2 ^ (attempt - 1)) ≫= fun _ =>
           retry_loop fn maxA base left' (attempt + 1) err)
end.

Definition withRetry_opts {A} (fn : IO A) (maxA base : option Z) : IO A :=
let maxA := nullish maxA 3 in
retry_loop fn maxA (nullish base 1000) (Z.to_nat maxA) 1 JUndef.

Definition withRetry {A} (fn : IO A) : IO A := withRetry_opts fn None None.

(** ** [BaseContractClient] *)
Record BaseContractClient := {
contractId : string; contractInstance : contract; mutationRetryPolicy : MutationRetryPolicy }.

Definition new_BaseContractClient (contractId : string) (maxA base : option Z) :
  res BaseContractClient :=
if String.eqb contractId "" then throw_error "Contract ID is required"
else
  c ← new_Contract contractId;
  Ok {| contractId := contractId; contractInstance := c;
        mutationRetryPolicy :=
          {| maxAttempts := nullish maxA (maxAttempts DEFAULT_MUTATION_RETRY_POLICY);
             baseDelayMs := nullish base (baseDelayMs DEFAULT_MUTATION_RETRY_POLICY) |} |}.

Definition readContract {A} (this : BaseContractClient) (config : SDKConfig)
  (method : string) (args : list scval) (publicKey : string) (parse : scval -> res A) : IO A :=
let server := cfg_sorobanRpcUrl config in
account ← withRetry (getAccount server publicKey);
tx ← lift (build_call account (cfg_networkPassphrase config) (contractInstance this) method args 30);
sim ← withRetry (simulate server tx);
if sim_isError sim then raise (SimulationError method (sim_error sim))
else match sim_retval sim with
     | None => raise (MissingReturnValueError method)
     | Some resultVal => lift (parse resultVal)
     end.

(** [broadcast]: [left] attempts remain, starting from [Math.max(1, maxAttempts)]. *)
Fixpoint broadcast_loop (method server : string) (tx : transaction) (maxA base : Z)
  (left : nat) (attempt : Z) (lastRefusedHash : string) : IO SendResponse :=
match left with
| O => raise (TransactionTryAgainLaterError method lastRefusedHash maxA)
| S left' =>
    result ← send server tx;
    match send_status result with
    | ERROR => raise (TransactionSendError method (send_errorResult result))
    | PENDING | DUPLICATE => mret result
    | TRY_AGAIN_LATER =>
        (if attempt <? maxA then sleep (base * 2 ^ (attempt - 1)) else mret tt) ≫= fun _ =>
        broadcast_loop method server tx maxA base left' (attempt + 1) (send_hash result)
    end
end.

Definition broadcast (this : BaseContractClient) (method server : string) (tx : transaction) :
  IO SendResponse :=
let maxA := Z.max 1 (maxAttempts (mutationRetryPolicy this)) in
broadcast_loop method server tx maxA (baseDelayMs (mutationRetryPolicy this)) (Z.to_nat maxA) 1 "".

(** The polling loop: [left] more requests allowed after the first. *)
Fixpoint poll_loop (server hash : string) (left : nat) (response : GetStatus) : IO GetStatus :=
match response, left with
| NOT_FOUND, S left' =>
    sleep 1000 ≫= fun _ =>
    r ← withRetry (getTransaction server hash);
    poll_loop server hash left' r
| _, _ => mret response
end.

Definition writeContract (this : BaseContractClient) (config : SDKConfig)
  (method : string) (args : list scval) (publicKey : string) : IO string :=
let server := cfg_sorobanRpcUrl config in
account ← withRetry (getAccount server publicKey);
tx ← lift (build_call account (cfg_networkPassphrase config) (contractInstance this) method args 30);
sim ← withRetry (simulate server tx);
if sim_isError sim then raise (SimulationError method (sim_error sim))
else
  prepared ← withRetry (prepare server tx);
  signed ← sign (toXDR prepared)
             (if String.eqb (cfg_networkPassphrase config) PUBLIC then "PUBLIC" else "TESTNET")
             (cfg_networkPassphrase config) publicKey;
  signedTx ← lift (fromXDR signed (cfg_networkPassphrase config));
  result ← broadcast this method server signedTx;
  first ← withRetry (getTransaction server (send_hash result));
  response ← poll_loop server (send_hash result)
               (Z.to_nat (MAX_TRANSACTION_POLL_ATTEMPTS - 1)) first;
  match response with
  | NOT_FOUND => raise (TransactionTimeoutError (send_hash result))
  | FAILED => raise (TransactionFailedError method)
  | SUCCESS => mret (send_hash result)
  end.

(** The decoded return value; a value [scValToNative] cannot decode is kept raw. *)
Definition decode_result (retval : option scval) : jsval + scval :=
match retval with
| None => inl JUndef
| Some v => match scValToNative v with Ok n => inl n | Throw _ => inr v end
end.

Definition simulateTransaction (this : BaseContractClient) (config : SDKConfig)
  (method : string) (args : list scval) (publicKey : string) : IO (SimulationResult scval) :=
let server := cfg_sorobanRpcUrl config in
account ← withRetry (getAccount server publicKey);
tx ← lift (build_call account (cfg_networkPassphrase config) (contractInstance this) method args 30);
sim ← withRetry (simulate server tx);
if sim_isError sim then raise (SimulationError method (sim_error sim))
else
  let footprintSize := match sim_transactionData sim with Some (ro, rw) => ro + rw | None => 0 end in
  base ← lift (bigint_of_str BASE_FEE);
  fee ← lift (bigint_of_str (opt_str_or (sim_minResourceFee sim) "0"));
  let totalStroops := base + fee in
  mret {| estimatedFeeXlm := Num.to_fixed (Num.div (Num.of_Z totalStroops) (Num.of_Z 10000000)) 7;
          functionName := method;
          expectedResult := decode_result (sim_retval sim);
          footprintSize := footprintSize |}.
End Base.

(** ** The exact traces of the loops *)
Section Traces.
Context `{Sdk : StellarSdk} {Env : Type} {Srv : Services Env}.
Abbreviation IO := (M Env Event).

(** The log of [withRetry] around one request: failures with growing pauses, then the
    final answer. *)
Fixpoint retry_trace {A} (entry : res A -> Event) (base attempt : Z) (failures : list jsval)
  (final : res A) : list Event :=
match failures with
| [] => [entry final]
| e :: rest => entry (Throw e) :: EvSleep (base * 2 ^ (attempt - 1)) ::
               retry_trace entry base (attempt + 1) rest final
end.

Lemma retry_loop_trace {A} entry (op : Env -> res A * Env) maxA base left attempt last :
Z.of_nat left = maxA - attempt + 1 -> (0 < left)%nat ->
trace_spec (retry_loop (io entry op) maxA base left attempt last) (fun l r =>
  exists failures, l = retry_trace entry base attempt failures r /\
    Forall (fun e => isNetworkError e = true) failures /\ (length failures < left)%nat /\
    (forall e, r = Throw e -> isNetworkError e = true -> S (length failures) = left)).
Proof.
revert attempt last. induction left as [|left IH]; intros attempt last Hleft Hpos; [lia|].
cbn [retry_loop]. apply trace_try, trace_io. intros [a|e].
{ exists []. split_and!; [done | constructor | cbn; lia | done]. }
destruct (isNetworkError e) eqn:He; cbn [negb orb].
- destruct (Z.eqb_spec attempt maxA) as [->|Hne].
  + apply trace_raise. exists []. split_and!; [done | constructor | cbn; lia | cbn; lia].
  + apply trace_emit_seq. eapply trace_weaken; [apply IH; lia|].
    intros l r (fs & -> & Hfs & Hlen & Hlast). exists (e :: fs). cbn.
    split; [done|]. split; [by constructor|]. split; [lia|]. intros e' -> He'.
    by rewrite (Hlast e' eq_refl He').
- apply trace_raise. exists []. split_and!; [done | constructor | cbn; lia | congruence].
Qed.

(** What one retried request logs, by default: at most three tries, pausing one and two
    seconds, going on only after a network-shaped error. *)
Definition retried {A} (entry : res A -> Event) (l : list Event) (r : res A) : Prop :=
exists failures, l = retry_trace entry 1000 1 failures r /\
  Forall (fun e => isNetworkError e = true) failures /\ (length failures <= 2)%nat /\
  (forall e, r = Throw e -> isNetworkError e = true -> length failures = 2%nat).

Lemma withRetry_trace {A} entry (op : Env -> res A * Env) :
trace_spec (withRetry (io entry op)) (retried entry).
Proof.
eapply trace_weaken; [apply retry_loop_trace; cbn; lia|].
intros l r (fs & -> & Hfs & Hlen & Hlast). exists fs.
split; [done|]. split; [done|]. split; [cbn in Hlen; lia|].
intros e Hr He. specialize (Hlast e Hr He). cbn in Hlast. lia.
Qed.

(** Entries of retried requests, apart from the pauses. *)
Lemma retried_Forall {A} (P : Event -> Prop) (entry : res A -> Event) l r :
(forall r, P (entry r)) -> (forall ms, P (EvSleep ms)) -> retried entry l r -> Forall P l.
Proof.
intros He Hs (fs & -> & _). generalize 1.
induction fs as [|e fs IH]; intros k; cbn; repeat constructor; auto.
Qed.

(** The refused submissions of a broadcast and the pauses between them. *)
Fixpoint refusals (t : transaction) (maxA base attempt : Z) (rs : list SendResponse) : list Event :=
match rs with
| [] => []
| r :: rest => EvSend t (Ok r) ::
    (if attempt <? maxA then [EvSleep (base * 2 ^ (attempt - 1))] else []) ++
    refusals t maxA base (attempt + 1) rest
end.

Definition is_refusal (r : SendResponse) : Prop := send_status r = TRY_AGAIN_LATER.

(** What a final answer means to the caller. *)
Definition send_verdict (method : string) (x : res SendResponse) : res SendResponse :=
match x with
| Ok r => match send_status r with
          | ERROR => Throw (TransactionSendError method (send_errorResult r))
          | _ => Ok r
          end
| Throw e => Throw e
end.

Definition broadcast_spec (method : string) (t : transaction) (maxA base attempt : Z) (left : nat)
  (lastHash : string) (l : list Event) (r : res SendResponse) : Prop :=
exists rs, Forall is_refusal rs /\
  ((exists x, l = refusals t maxA base attempt rs ++ [EvSend t x] /\ (length rs < left)%nat /\
     (forall a, x = Ok a -> ~ is_refusal a) /\ r = send_verdict method x) \/
   (l = refusals t maxA base attempt rs /\ length rs = left /\
     r = Throw (TransactionTryAgainLaterError method (default lastHash (send_hash <$> list.last rs)) maxA))).

Lemma broadcast_loop_trace method server t maxA base left attempt lastHash :
trace_spec (broadcast_loop method server t maxA base left attempt lastHash)
  (broadcast_spec method t maxA base attempt left lastHash).
Proof.
revert attempt lastHash. induction left as [|left IH]; intros attempt lastHash; cbn [broadcast_loop].
{ apply trace_raise. exists []. split; [constructor|]. right. done. }
apply trace_seq, trace_io. intros [a|e];
  [|exists []; split; [constructor|]; left; exists (Throw e); split_and!; [done | cbn; lia | done | done]].
destruct (send_status a) eqn:Ha.
1,2,4: first [apply trace_ret | apply trace_raise]; exists []; split; [constructor|]; left; exists (Ok a);
  (split_and!; [done | cbn; lia | intros ? [= <-]; unfold is_refusal; congruence | cbn; by rewrite Ha]).
apply trace_seq.
assert (Htail : forall p,
  p = (if attempt <? maxA then [EvSleep (base * 2 ^ (attempt - 1))] else []) ->
  trace_spec (broadcast_loop method server t maxA base left (attempt + 1) (send_hash a))
    (fun l' r => broadcast_spec method t maxA base attempt (S left) lastHash
       ([EvSend t (Ok a)] ++ p ++ l') r)).
{ intros p ->. eapply trace_weaken; [apply IH|].
  intros l r (rs & Hrs & Hcase). exists (a :: rs). split; [by constructor|].
  destruct Hcase as [(x & -> & Hlen & Hx & ->)|(-> & Hlen & ->)].
  - left. exists x. cbn. rewrite <- app_assoc. split_and!; [done | lia | done | done].
  - right. split_and!; [done | cbn; lia |].
    rewrite list.last_cons. by destruct (list.last rs). }
destruct (attempt <? maxA).
- apply trace_emit. eapply trace_weaken; [by apply Htail|]. intros l r. by rewrite app_assoc.
- apply trace_ret. eapply trace_weaken; [by apply Htail|]. intros l r. by rewrite app_assoc.
Qed.

(** The polling phase: rounds answered NOT_FOUND, each followed by a one-second pause,
    and a last round. *)
Definition poll_outcome (nf : nat) (final : res GetStatus) (budget : nat) : Prop :=
(nf <= budget)%nat /\ (final = Ok NOT_FOUND -> nf = budget).

Fixpoint poll_rounds (hash : string) (rounds : list (list jsval)) : list Event :=
match rounds with
| [] => []
| fs :: rest => retry_trace (EvGetTx hash) 1000 1 fs (Ok NOT_FOUND) ++ [EvSleep 1000] ++
                poll_rounds hash rest
end.

Definition network_failures (fs : list jsval) : Prop :=
Forall (fun e => isNetworkError e = true) fs /\ (length fs <= 2)%nat.

Definition poll_spec (hash : string) (budget : nat) (l : list Event) (r : res GetStatus) : Prop :=
exists rounds lst, l = poll_rounds hash rounds ++ lst /\ retried (EvGetTx hash) lst r /\
  Forall network_failures rounds /\ poll_outcome (length rounds) r budget.

Lemma poll_stop hash budget l r :
retried (EvGetTx hash) l r -> (r = Ok NOT_FOUND -> budget = O) -> poll_spec hash budget l r.
Proof.
intros Hl Hb. exists [], l. split_and!; [done | done | constructor |].
split; [cbn; lia|]. intros Hr. by rewrite Hb.
Qed.

Lemma poll_trace server hash left :
trace_spec (withRetry (getTransaction server hash) ≫= poll_loop server hash left)
  (poll_spec hash left).
Proof.
induction left as [|left IH]; apply trace_seq;
  (eapply trace_weaken; [apply withRetry_trace|]); intros l r Hl;
  (destruct r as [a|e]; [|by apply poll_stop]).
- destruct a; cbn [poll_loop]; apply trace_ret; rewrite app_nil_r; by apply poll_stop.
- destruct a; cbn [poll_loop];
    [apply trace_ret; rewrite app_nil_r; by apply poll_stop | |
     apply trace_ret; rewrite app_nil_r; by apply poll_stop].
  apply trace_emit_seq. eapply trace_weaken; [apply IH|].
  intros l' r (rounds & lst & -> & Hlst & Hr & Hn & Hlast).
  destruct Hl as (fs & -> & Hfs & Hlen & _). exists (fs :: rounds), lst.
  split_and!; [| done | by constructor | split; [cbn; lia|]].
  + cbn. by rewrite <- !app_assoc.
  + intros ->. cbn. by rewrite Hlast.
Qed.

Lemma retried_in {A} (entry : res A -> Event) l r : retried entry l r -> entry r ∈ l.
Proof.
intros (fs & -> & _). generalize 1. induction fs as [|e fs IH]; intros k; cbn; [set_solver|].
right. right. apply IH.
Qed.

Definition quiet (e : Event) : bool :=
match e with EvSign _ _ _ _ _ | EvSend _ _ | EvGetTx _ _ => false | _ => true end.

Lemma retried_quiet {A} (entry : res A -> Event) l r :
(forall r, quiet (entry r) = true) -> retried entry l r -> Forall (fun e => quiet e = true) l.
Proof. intros H. by apply retried_Forall. Qed.

Definition network_name (config : SDKConfig) : string :=
if String.eqb (cfg_networkPassphrase config) PUBLIC then "PUBLIC" else "TESTNET".

(** The final status as the caller sees it. *)
Definition write_verdict (method hash : string) (st : res GetStatus) : res string :=
match st with
| Ok SUCCESS => Ok hash
| Ok NOT_FOUND => Throw (TransactionTimeoutError hash)
| Ok FAILED => Throw (TransactionFailedError method)
| Throw e => Throw e
end.

Definition attempts_allowed (this : BaseContractClient) : Z :=
Z.max 1 (maxAttempts (mutationRetryPolicy this)).

(** What signs off a signature: a simulation that succeeded and its prepared form. *)
Definition approved (pre : list Event) (xdr : string) : Prop :=
exists tx sim prepared, EvSimulate tx (Ok sim) ∈ pre /\ sim_isError sim = false /\
  EvPrepare tx (Ok prepared) ∈ pre /\ xdr = toXDR prepared.

(** After the signature: one broadcast, then the polling of the hash it returned. *)
Definition submit_spec (this : BaseContractClient) (method : string) (tx : res transaction)
  (post : list Event) (r : res string) : Prop :=
match tx with
| Throw e => post = [] /\ r = Throw e
| Ok t =>
    exists sl br,
      broadcast_spec method t (attempts_allowed this) (baseDelayMs (mutationRetryPolicy this)) 1
        (Z.to_nat (attempts_allowed this)) "" sl br /\
      match br with
      | Throw e => post = sl /\ r = Throw e
      | Ok resp => exists pl st, post = sl ++ pl /\
          poll_spec (send_hash resp) (Z.to_nat (MAX_TRANSACTION_POLL_ATTEMPTS - 1)) pl st /\
          r = write_verdict method (send_hash resp) st
      end
end.

Definition write_spec (this : BaseContractClient) (config : SDKConfig) (method publicKey : string)
  (l : list Event) (r : res string) : Prop :=
(Forall (fun e => quiet e = true) l /\ exists e, r = Throw e) \/
exists pre xdr signed post,
  l = pre ++ EvSign xdr (network_name config) (cfg_networkPassphrase config) publicKey signed :: post /\
  Forall (fun e => quiet e = true) pre /\ approved pre xdr /\
  submit_spec this method (signed ≫= fun s => fromXDR s (cfg_networkPassphrase config)) post r.

Lemma submit_trace this config method server signed :
trace_spec
  (signedTx ← lift (fromXDR signed (cfg_networkPassphrase config));
   result ← broadcast this method server signedTx;
   first ← withRetry (getTransaction server (send_hash result));
   response ← poll_loop server (send_hash result)
                (Z.to_nat (MAX_TRANSACTION_POLL_ATTEMPTS - 1)) first;
   match response with
   | NOT_FOUND => raise (TransactionTimeoutError (send_hash result))
   | FAILED => raise (TransactionFailedError method)
   | SUCCESS => mret (send_hash result)
   end : IO string)
  (submit_spec this method (fromXDR signed (cfg_networkPassphrase config))).
Proof.
apply trace_seq, trace_lift. destruct (fromXDR signed (cfg_networkPassphrase config)) as [t|e]; [|done].
apply trace_seq. eapply trace_weaken; [apply broadcast_loop_trace|]. intros sl [resp|e] Hsl;
  [|by exists sl, (Throw e)].
apply trace_assoc, trace_seq. eapply trace_weaken; [apply poll_trace|]. intros pl st Hpl.
assert (Hdone : submit_spec this method (Ok t) (sl ++ pl) (write_verdict method (send_hash resp) st)).
{ exists sl, (Ok resp). split; [done|]. by exists pl, st. }
destruct st as [[]|e]; [apply trace_ret | apply trace_raise | apply trace_raise | exact Hdone];
  by rewrite app_nil_r.
Qed.

(** The two ways [writeContract] can go: it stops before the wallet is asked, or it
    asks once, broadcasts, and polls. *)
Lemma writeContract_trace this config method args publicKey :
trace_spec (writeContract this config method args publicKey)
  (write_spec this config method publicKey).
Proof.
unfold writeContract. set (server := cfg_sorobanRpcUrl config).
apply trace_seq. eapply trace_weaken; [apply withRetry_trace|]. intros l1 r1 H1.
pose proof H1 as Q1. apply retried_quiet in Q1; [|done].
destruct r1 as [acct|e]; [|left; eauto].
apply trace_seq, trace_lift. rewrite app_nil_r.
destruct (build_call _ _ _ _ _ _) as [tx|e]; [|left; eauto].
apply trace_seq. eapply trace_weaken; [apply withRetry_trace|]. intros l2 r2 H2.
pose proof H2 as Q2. apply retried_quiet in Q2; [|done].
destruct r2 as [sim|e]; [|left; split; [by apply Forall_app | eauto]].
destruct (sim_isError sim) eqn:Hsim.
{ apply trace_raise. rewrite app_nil_r. left. split; [by apply Forall_app | eauto]. }
apply trace_seq. eapply trace_weaken; [apply withRetry_trace|]. intros l3 r3 H3.
pose proof H3 as Q3. apply retried_quiet in Q3; [|done].
destruct r3 as [prepared|e]; [|left; split; [by rewrite !Forall_app | eauto]].
apply trace_seq, trace_io. intros signed.
assert (Hpre : forall post r,
  submit_spec this method (signed ≫= fun s => fromXDR s (cfg_networkPassphrase config)) post r ->
  write_spec this config method publicKey (l1 ++ l2 ++ l3 ++ EvSign (toXDR prepared)
    (network_name config) (cfg_networkPassphrase config) publicKey signed :: post) r).
{ intros post r Hpost. right. exists (l1 ++ l2 ++ l3), (toXDR prepared), signed, post.
  split; [by rewrite <- !app_assoc|]. split; [by rewrite !Forall_app|]. split; [|done].
  exists tx, sim, prepared. apply retried_in in H2, H3. set_solver. }
destruct signed as [s|e]; [|by apply Hpre].
eapply trace_weaken; [apply submit_trace|]. intros post r Hpost.
exact (Hpre post r Hpost).
Qed.
End Traces.

(** ** Properties of the log *)
Section Log.
Context `{Sdk : StellarSdk} {Env : Type} {Srv : Services Env}.

(** The submissions in a log, with their answers. *)
Definition sends (l : list Event) : list (transaction * res SendResponse) :=
omap (fun e => match e with EvSend t r => Some (t, r) | _ => None end) l.

Definition signatures (l : list Event) : list (string * res string) :=
omap (fun e => match e with EvSign x _ _ _ r => Some (x, r) | _ => None end) l.

Definition is_send (e : Event) : bool := match e with EvSend _ _ => true | _ => false end.
Definition is_sign (e : Event) : bool := match e with EvSign _ _ _ _ _ => true | _ => false end.
Definition is_gettx (e : Event) : bool := match e with EvGetTx _ _ => true | _ => false end.

(** Neither signed nor submitted anything: what a read may do. *)
Definition read_only (e : Event) : bool := match e with
| EvGetAccount _ _ | EvSimulate _ _ | EvSleep _ => true | _ => false end.

Lemma sends_app l1 l2 : sends (l1 ++ l2) = sends l1 ++ sends l2.
Proof. apply omap_app. Qed.
Lemma signatures_app l1 l2 : signatures (l1 ++ l2) = signatures l1 ++ signatures l2.
Proof. apply omap_app. Qed.

Lemma sends_cons e l :
sends (e :: l) = match e with EvSend t r => [(t, r)] | _ => [] end ++ sends l.
Proof. by destruct e. Qed.
Lemma signatures_cons e l :
signatures (e :: l) = match e with EvSign x _ _ _ r => [(x, r)] | _ => [] end ++ signatures l.
Proof. by destruct e. Qed.

Lemma sends_none l : Forall (fun e => is_send e = false) l -> sends l = [].
Proof. induction 1 as [|e l He Hl IH]; [done|]. by destruct e. Qed.
Lemma signatures_none l : Forall (fun e => is_sign e = false) l -> signatures l = [].
Proof. induction 1 as [|e l He Hl IH]; [done|]. by destruct e. Qed.

Lemma quiet_no_send l : Forall (fun e => quiet e = true) l -> sends l = [] /\ signatures l = [].
Proof.
intros H. split; [apply sends_none | apply signatures_none];
  (eapply List.Forall_impl; [|exact H]); intros e; by destruct e.
Qed.

Lemma poll_rounds_events hash rounds :
Forall (fun e => is_send e = false /\ is_sign e = false) (poll_rounds hash rounds).
Proof.
induction rounds as [|fs rounds IH]; cbn [poll_rounds]; [constructor|].
apply Forall_app. split; [|by constructor].
generalize 1. induction fs as [|e fs IHf]; intros k; cbn; repeat constructor; auto.
Qed.

Lemma poll_spec_events hash budget l r :
poll_spec hash budget l r -> sends l = [] /\ signatures l = [].
Proof.
intros (rounds & lst & -> & Hl & _).
assert (H : Forall (fun e => is_send e = false /\ is_sign e = false) (poll_rounds hash rounds ++ lst)).
{ apply Forall_app. split; [apply poll_rounds_events|]. by eapply retried_Forall; [..|exact Hl]. }
split; [apply sends_none | apply signatures_none];
  (eapply List.Forall_impl; [|exact H]); by intros e [].
Qed.

Lemma retry_trace_last {A} (entry : res A -> Event) base k fs final :
list.last (retry_trace entry base k fs final) = Some (entry final).
Proof.
revert k. induction fs as [|e fs IH]; intros k; cbn [retry_trace]; [done|].
by rewrite !list.last_cons, IH.
Qed.

Lemma poll_spec_last hash budget l r :
poll_spec hash budget l r -> list.last l = Some (EvGetTx hash r).
Proof.
intros (rounds & lst & -> & (fs & -> & _) & _). by rewrite list.last_app, retry_trace_last.
Qed.

Lemma refusals_sends t maxA base attempt rs :
sends (refusals t maxA base attempt rs) = map (fun r => (t, Ok r)) rs /\
signatures (refusals t maxA base attempt rs) = [].
Proof.
revert attempt. induction rs as [|r rs IH]; intros attempt; cbn [refusals]; [done|].
destruct (IH (attempt + 1)) as [IH1 IH2].
rewrite sends_cons, signatures_cons, sends_app, signatures_app, IH1, IH2.
by destruct (attempt <? maxA).
Qed.

(** The submissions of one broadcast: refusals, then at most one answer that is not. *)
Definition safe_sends (allowed : Z) (s : list (transaction * res SendResponse)) : Prop :=
exists refused final, s = refused ++ final /\ (length final <= 1)%nat /\
  Forall (fun p => exists a, p.2 = Ok a /\ send_status a = TRY_AGAIN_LATER) refused /\
  (forall p q, p ∈ s -> q ∈ s -> p.1 = q.1) /\ Z.of_nat (length s) <= allowed.

Lemma broadcast_sends method t maxA base lastHash l r :
1 <= maxA -> broadcast_spec method t maxA base 1 (Z.to_nat maxA) lastHash l r ->
safe_sends maxA (sends l) /\ signatures l = [].
Proof.
intros Hm (rs & Hrs & Hcase).
destruct (refusals_sends t maxA base 1 rs) as [E1 E2].
assert (Href : Forall (fun p : transaction * res SendResponse =>
           exists a, p.2 = Ok a /\ send_status a = TRY_AGAIN_LATER) (map (fun r => (t, Ok r)) rs)).
{ apply Forall_fmap. eapply List.Forall_impl; [|exact Hrs]. intros a Ha. by exists a. }
assert (Ht : forall (p : transaction * res SendResponse), p ∈ map (fun r => (t, Ok r)) rs -> p.1 = t).
{ intros p Hp. apply list_elem_of_fmap in Hp as (a & -> & _). done. }
destruct Hcase as [(x & -> & Hlen & _)|(-> & Hlen & _)].
- rewrite sends_app, signatures_app, E1, E2. change (sends [EvSend t x]) with [(t, x)]. split; [|done].
  exists (map (fun r => (t, Ok r)) rs), [(t, x)]. split_and!; [done | cbn; lia | done | |].
  + intros p q. rewrite !elem_of_app, !list_elem_of_singleton. intros [Hp| ->] [Hq| ->]; try done.
    * by rewrite (Ht p), (Ht q).
    * by rewrite (Ht p).
    * by rewrite (Ht q).
  + rewrite length_app, length_map. cbn. lia.
- rewrite E1, E2. split; [|done]. exists (map (fun r => (t, Ok r)) rs), [].
  split_and!; [by rewrite app_nil_r | cbn; lia | done | |].
  + intros p q Hp Hq. by rewrite (Ht p), (Ht q).
  + rewrite length_map. lia.
Qed.

Lemma safe_sends_nil allowed : 0 <= allowed -> safe_sends allowed [].
Proof. intros H. exists [], []. split_and!; [done | cbn; lia | constructor | set_solver | cbn; lia]. Qed.

Lemma attempts_allowed_pos this : 1 <= attempts_allowed this.
Proof. unfold attempts_allowed. lia. Qed.

Lemma submit_sends this method tx post r :
submit_spec this method tx post r ->
safe_sends (attempts_allowed this) (sends post) /\ signatures post = [].
Proof.
pose proof (attempts_allowed_pos this) as Hp.
unfold submit_spec. destruct tx as [t|e]; [|intros [-> _]; split; [apply safe_sends_nil; lia | done]].
intros (sl & br & Hb & Hr). apply broadcast_sends in Hb as [Hs Hg]; [|done].
destruct br as [resp|e]; [|by destruct Hr as [-> _]].
destruct Hr as (pl & st & -> & Hpl & _). apply poll_spec_events in Hpl as [E1 E2].
by rewrite sends_app, signatures_app, E1, E2, app_nil_r, Hg.
Qed.

(** C1: whatever the RPC server answers, a mutating call submits one signed
    transaction only: every submission but the last was refused with TRY_AGAIN_LATER
    (so it was not queued), no submission follows a transport error or an accepted one,
    and there are at most [max 1 maxAttempts] of them. *)
Theorem writeContract_submits_safely this config method args publicKey env :
let l := (run (writeContract this config method args publicKey) env).2 in
safe_sends (Z.max 1 (maxAttempts (mutationRetryPolicy this))) (sends l).
Proof.
pose proof (attempts_allowed_pos this) as Hp.
cbn zeta. destruct (trace_run _ _ env (writeContract_trace this config method args publicKey))
  as [[Hq _]|(pre & x & s & post & -> & Hq & _ & Hs)]; apply quiet_no_send in Hq as [E1 E2].
- rewrite E1. apply safe_sends_nil. lia.
- rewrite sends_app, E1, sends_cons. by apply submit_sends in Hs as [Hs _].
Qed.

(** The wallet is asked at most once per call, only for the prepared form of a
    transaction whose simulation succeeded, on the network of the active
    configuration; nothing is submitted or polled before. *)
Theorem writeContract_signs_once this config method args publicKey env :
let l := (run (writeContract this config method args publicKey) env).2 in
(signatures l = [] /\ sends l = []) \/
exists pre xdr answer post,
  l = pre ++ EvSign xdr (if String.eqb (cfg_networkPassphrase config) PUBLIC
                         then "PUBLIC" else "TESTNET")
                    (cfg_networkPassphrase config) publicKey answer :: post /\
  signatures l = [(xdr, answer)] /\ sends pre = [] /\
  exists tx sim prepared, EvSimulate tx (Ok sim) ∈ pre /\ sim_isError sim = false /\
    EvPrepare tx (Ok prepared) ∈ pre /\ xdr = toXDR prepared.
Proof.
cbn zeta. destruct (trace_run _ _ env (writeContract_trace this config method args publicKey))
  as [[Hq _]|(pre & x & s & post & -> & Hq & Happ & Hs)]; apply quiet_no_send in Hq as [E1 E2].
- by left.
- right. exists pre, x, s, post. split; [done|]. split; [|by split].
  rewrite signatures_app, E2, signatures_cons. by apply submit_sends in Hs as [_ ->].
Qed.

(** C3: a hash is returned only for a transaction the server accepted under
    that hash (PENDING or DUPLICATE) and whose very last status query answered
    SUCCESS. *)
Theorem writeContract_confirmed this config method args publicKey env hash
  (H : (run (writeContract this config method args publicKey) env).1 = Ok hash) :
let l := (run (writeContract this config method args publicKey) env).2 in
exists t resp, list.last (sends l) = Some (t, Ok resp) /\ send_hash resp = hash /\
  (send_status resp = PENDING \/ send_status resp = DUPLICATE) /\
  list.last l = Some (EvGetTx hash (Ok SUCCESS)).
Proof.
cbn zeta. pose proof (trace_run _ _ env (writeContract_trace this config method args publicKey)) as Ht.
rewrite H in Ht. destruct Ht as [[_ [e He]]|(pre & x & s & post & -> & Hq & _ & Hs)]; [done|].
apply quiet_no_send in Hq as [E1 _]. unfold submit_spec in Hs.
destruct (s ≫= _) as [t|e]; [|by destruct Hs].
destruct Hs as (sl & [resp|e] & Hb & Hr); [|by destruct Hr].
destruct Hr as (pl & st & -> & Hpl & Hv).
assert (st = Ok SUCCESS /\ hash = send_hash resp) as [-> ->]
  by (destruct st as [[]|]; cbn in Hv; simplify_eq; done).
destruct (poll_spec_events _ _ _ _ Hpl) as [E3 _].
destruct Hb as (rs & _ & [(y & -> & _ & Hy & Hv')|(_ & _ & [=])]).
destruct y as [a|e]; cbn in Hv'; [|done].
assert (a = resp /\ (send_status a = PENDING \/ send_status a = DUPLICATE)) as [<- Ha].
{ specialize (Hy a eq_refl). unfold is_refusal in Hy.
  destruct (send_status a); simplify_eq; auto. }
exists t, a. split_and!; [| done | done |].
- rewrite sends_app, E1, sends_cons, !sends_app, E3, app_nil_r. cbn. by rewrite list.last_snoc.
- apply poll_spec_last in Hpl. by rewrite list.last_app, list.last_cons, list.last_app, Hpl.
Qed.

Lemma retried_length {A} (entry : res A -> Event) l r : retried entry l r -> (length l <= 5)%nat.
Proof.
intros (fs & -> & _ & Hlen & _).
assert (H : forall k, length (retry_trace entry 1000 k fs r) = (2 * length fs + 1)%nat).
{ clear. induction fs as [|e fs IH]; intros k; cbn [retry_trace length]; [done|]. rewrite IH. lia. }
rewrite H. lia.
Qed.

Lemma poll_spec_length hash budget l r :
poll_spec hash budget l r -> (length l <= 6 * budget + 5)%nat.
Proof.
intros (rounds & lst & -> & Hl & Hr & [Hn _]). apply retried_length in Hl. rewrite length_app.
assert (H : (length (poll_rounds hash rounds) <= 6 * length rounds)%nat); [|lia].
clear -Hr. induction Hr as [|fs rounds [Hf Hlen] Hr IH]; cbn [poll_rounds length]; [lia|].
rewrite !length_app. cbn [length].
assert (H : retried (A := GetStatus) (EvGetTx hash) (retry_trace (EvGetTx hash) 1000 1 fs (Ok NOT_FOUND)) (Ok NOT_FOUND))
  by by exists fs.
apply retried_length in H. lia.
Qed.

Lemma broadcast_length method t maxA base lastHash l r :
1 <= maxA -> broadcast_spec method t maxA base 1 (Z.to_nat maxA) lastHash l r ->
Z.of_nat (length l) <= 2 * maxA.
Proof.
intros Hm (rs & _ & Hcase).
assert (H : forall k, (length (refusals t maxA base k rs) <= 2 * length rs)%nat).
{ clear. induction rs as [|a rs IH]; intros k; cbn [refusals length]; [lia|].
  rewrite length_app. specialize (IH (k + 1)). destruct (k <? maxA); cbn [length]; lia. }
specialize (H 1). destruct Hcase as [(x & -> & Hlen & _)|(-> & Hlen & _)];
  rewrite ?length_app; cbn [length]; lia.
Qed.

Lemma submit_length this method tx post r :
submit_spec this method tx post r -> Z.of_nat (length post) <= 2 * attempts_allowed this + 179.
Proof.
pose proof (attempts_allowed_pos this) as Hp.
unfold submit_spec. destruct tx as [t|e]; [|intros [-> _]; cbn; lia].
intros (sl & br & Hb & Hr). apply broadcast_length in Hb; [|done].
destruct br as [resp|e]; [|destruct Hr as [-> _]; lia].
destruct Hr as (pl & st & -> & Hpl & _). apply poll_spec_length in Hpl.
rewrite length_app. change (Z.to_nat (MAX_TRANSACTION_POLL_ATTEMPTS - 1)) with 29%nat in Hpl. lia.
Qed.

Lemma writeContract_length this config method args publicKey :
trace_spec (writeContract this config method args publicKey)
  (fun l _ => Z.of_nat (length l) <= 195 + 2 * attempts_allowed this).
Proof.
pose proof (attempts_allowed_pos this) as Hp. unfold writeContract.
apply trace_seq. eapply trace_weaken; [apply withRetry_trace|]. intros l1 r1 H1%retried_length.
destruct r1 as [acct|e]; [|lia].
apply trace_seq, trace_lift. destruct (build_call _ _ _ _ _ _) as [tx|e]; [|rewrite app_nil_r; lia].
apply trace_seq. eapply trace_weaken; [apply withRetry_trace|]. intros l2 r2 H2%retried_length.
destruct r2 as [sim|e]; [|rewrite !length_app; cbn; lia].
destruct (sim_isError sim); [apply trace_raise; rewrite !length_app; cbn; lia|].
apply trace_seq. eapply trace_weaken; [apply withRetry_trace|]. intros l3 r3 H3%retried_length.
destruct r3 as [prepared|e]; [|rewrite !length_app; cbn; lia].
apply trace_seq, trace_io. intros [s|e]; [|rewrite !length_app; cbn; lia].
eapply trace_weaken; [apply submit_trace|]. intros post r Hpost%submit_length.
rewrite !length_app. cbn [length]. lia.
Qed.

(** C4: a mutating call makes a bounded number of requests and pauses, whatever
    the server answers: it always returns. *)
Theorem writeContract_bounded this config method args publicKey env :
Z.of_nat (length (run (writeContract this config method args publicKey) env).2) <=
  195 + 2 * Z.max 1 (maxAttempts (mutationRetryPolicy this)).
Proof.
apply (trace_run _ (fun l _ => Z.of_nat (length l) <= _)), writeContract_length.
Qed.

(** ** Reads *)
Lemma withRetry_emits {A} (P : Event -> Prop) entry (op : Env -> res A * Env) :
(forall r, P (entry r)) -> (forall ms, P (EvSleep ms)) -> emits P (withRetry (io entry op)).
Proof.
intros He Hs. eapply trace_weaken; [apply withRetry_trace|]. intros l r. cbn.
by apply retried_Forall.
Qed.

Lemma readContract_emits {A} this config method args publicKey (parse : scval -> res A) :
emits (fun e => read_only e = true) (readContract this config method args publicKey parse).
Proof.
unfold readContract.
apply emits_bind; [by apply withRetry_emits|]. intros acct.
apply emits_bind; [apply emits_lift|]. intros tx.
apply emits_bind; [by apply withRetry_emits|]. intros sim.
repeat case_match; auto with effects.
Qed.

(** [readContract] and [simulateTransaction] prepare, sign and submit
    nothing. *)
Theorem reads_have_no_effect {A} this config method args publicKey (parse : scval -> res A) env :
Forall (fun e => read_only e = true)
  (run (readContract this config method args publicKey parse) env).2 /\
Forall (fun e => read_only e = true)
  (run (simulateTransaction this config method args publicKey) env).2.
Proof.
split; apply (trace_run _ (fun l _ => Forall _ l)); [apply readContract_emits|].
unfold simulateTransaction.
apply emits_bind; [by apply withRetry_emits|]. intros acct.
apply emits_bind; [apply emits_lift|]. intros tx.
apply emits_bind; [by apply withRetry_emits|]. intros sim.
case_match; [apply emits_raise|].
apply emits_bind; [apply emits_lift|]. intros base.
apply emits_bind; [apply emits_lift|]. intros fee. apply emits_ret.
Qed.

(** A retried request is sent again only after a network-shaped error, at most
    twice, one and then two seconds later; the caller sees the last answer, and a
    network-shaped error only after the third try. *)
Theorem withRetry_attempts {A} (entry : res A -> Event) (op : Env -> res A * Env) env :
let '(r, l) := run (withRetry (io entry op)) env in
exists failures, l = retry_trace entry 1000 1 failures r /\
  Forall (fun e => isNetworkError e = true) failures /\ (length failures <= 2)%nat /\
  (forall e, r = Throw e -> isNetworkError e = true -> length failures = 2%nat).
Proof.
pose proof (trace_run _ _ env (withRetry_trace entry op)) as H.
by destruct (run (withRetry (io entry op)) env) as [r l].
Qed.
End Log.

(** ** A scripted server, for examples *)
Module Mock.
Record env := {
q_account : list (res string); q_sim : list (res (SimResponse jsval));
q_send : list (res SendResponse); q_get : list (res GetStatus) }.

#[export] Instance sdk : StellarSdk := {|
stellar_networks := sample_networks;
scval := jsval; account := string; contract := string; transaction := string;
BASE_FEE := "100";
new_Contract := fun id => if String.eqb id "bad" then throw_error "Invalid contract ID" else Ok id;
build_call := fun a net c m args t => Ok (a +:+ "/" +:+ net +:+ "/" +:+ c +:+ "/" +:+ m);
toXDR := fun t => t; fromXDR := fun x _ => Ok x;
scValToNative := fun v => Ok v |}.

Definition offline : jsval := JErr CTypeError "Failed to fetch" [].
Definition ok_sim : SimResponse jsval := {|
sim_isError := false; sim_error := None; sim_retval := Some (JBig 1);
sim_transactionData := Some (2, 1); sim_minResourceFee := Some "900" |}.

(** Unscripted requests succeed, except submissions and status queries. *)
#[export] Instance services : Services (H := sdk) env := {|
rpc_getAccount := fun _ pk e => match q_account e with
  | [] => (Ok pk, e)
  | a :: r => (a, {| q_account := r; q_sim := q_sim e; q_send := q_send e; q_get := q_get e |}) end;
rpc_simulateTransaction := fun _ _ e => match q_sim e with
  | [] => (Ok ok_sim, e)
  | a :: r => (a, {| q_account := q_account e; q_sim := r; q_send := q_send e; q_get := q_get e |}) end;
rpc_prepareTransaction := fun _ t e => (Ok (t +:+ "+"), e);
rpc_sendTransaction := fun _ _ e => match q_send e with
  | [] => (Throw offline, e)
  | a :: r => (a, {| q_account := q_account e; q_sim := q_sim e; q_send := r; q_get := q_get e |}) end;
rpc_getTransaction := fun _ _ e => match q_get e with
  | [] => (Throw offline, e)
  | a :: r => (a, {| q_account := q_account e; q_sim := q_sim e; q_send := q_send e; q_get := r |}) end;
wallet_signTransaction := fun x _ _ _ e => (Ok ("signed:" +:+ x), e) |}.

Definition client : BaseContractClient := {|
contractId := "C"; contractInstance := "C"; mutationRetryPolicy := DEFAULT_MUTATION_RETRY_POLICY |}.
Definition config : SDKConfig := initial_config None.
Definition answer (s : SendStatus) (h : string) : res SendResponse :=
Ok {| send_status := s; send_hash := h; send_errorResult := None |}.
End Mock.
Import Mock.

(** Congestion, then acceptance; one status query fails to reach the server. *)
Definition congested : Mock.env := {| q_account := []; q_sim := [];
  q_send := [answer TRY_AGAIN_LATER "h"; answer PENDING "h"];
  q_get := [Ok NOT_FOUND; Throw offline; Ok SUCCESS] |}.

Example congested_run :
  (run (writeContract client config "repay" [] "G") congested).1 = Ok "h" /\
  length (sends (run (writeContract client config "repay" [] "G") congested).2) = 2%nat.
Proof. split; vm_compute; reflexivity. Qed.

(** The response to the submission is lost: it is not sent again. *)
Example lost_response :
  run (writeContract client config "repay" [] "G")
    {| q_account := []; q_sim := []; q_send := []; q_get := [] |} =
  (Throw offline,
   [EvGetAccount "G" (Ok "G");
    EvSimulate "G/test/C/repay" (Ok ok_sim);
    EvPrepare "G/test/C/repay" (Ok "G/test/C/repay+");
    EvSign "G/test/C/repay+" "TESTNET" "test" "G" (Ok "signed:G/test/C/repay+");
    EvSend "signed:G/test/C/repay+" (Throw offline)]).
Proof. vm_compute. reflexivity. Qed.

Lemma writeContract_confirmed_witness :
  list.last (run (writeContract client config "repay" [] "G") congested).2 =
    Some (EvGetTx "h" (Ok SUCCESS)).
Proof.
  destruct (writeContract_confirmed client config "repay" [] "G" congested "h")
    as (t & resp & _ & _ & _ & H); [vm_compute; reflexivity | exact H].
Defined.
