(* ===== verification/Clients.v ===== *)
(** * The contract clients ([packages/sdk/src/clients/*.ts])

    One Module per client class.  A method encodes its arguments (which may throw, before
    any request is made) and calls [readContract] or [writeContract] with the contract's
    method name.  The encodings of the Stellar SDK are parameters ([Encoders]). *)

From S2P Require Import Prelude JsNumber JsString JsValue Effects SdkConfig SdkTypes Schemas Base.
Local Open Scope Z_scope.

Class Encoders `{StellarSdk} := {
  address_toScVal : string -> res scval;            (* new Address(a).toScVal() *)
  nativeToScVal : jsval -> option string -> res scval;  (* with an optional {type} *)
  scvBytes : list Z -> scval;
  asset_contractId : string -> string -> string -> res string }.

(** Array literals evaluate left to right; the first exception wins. *)
Definition seq_args {A} (l : list (res A)) : res (list A) := map_result id l.

Section Combinators.
Context `{Sdk : StellarSdk} {Enc : Encoders} {Env : Type} {Srv : Services Env}.
Abbreviation IO := (M Env Event).

Definition scv_id (invoiceIdHex : string) : res scval := Ok (scvBytes (Hex.decode invoiceIdHex)).
Definition scv_big (z : Z) (ty : string) : res scval := nativeToScVal (JBig z) (Some ty).

Definition write (this : BaseContractClient) (config : SDKConfig) (method : string)
  (args : list (res scval)) (signer : string) : IO string :=
args ← lift (seq_args args); writeContract this config method args signer.

(** [.then(() => true)] *)
Definition write_true (this : BaseContractClient) (config : SDKConfig) (method : string)
  (args : list (res scval)) (signer : string) : IO bool :=
_ ← write this config method args signer; mret true.

Definition read {A} (this : BaseContractClient) (config : SDKConfig) (method : string)
  (args : list (res scval)) (signer : string) (parse : scval -> res A) : IO A :=
args ← lift (seq_args args); readContract this config method args signer parse.

(** [typeof native === "bigint" ? native : BigInt(String(native || 0))] *)
Definition to_bigint (native : jsval) : res Z :=
match native with
| JBig z => Ok z
| _ => bigint_of_str (to_str (js_or native (JNum Num.zero)))
end.
End Combinators.

Module RegistryClient.
Section Methods.
Context `{Sdk : StellarSdk} {Enc : Encoders} {Env : Type} {Srv : Services Env} {zod : Zod}.
Context (this : BaseContractClient) (config : SDKConfig).
Abbreviation IO := (M Env Event).

Definition initialize (adminAddress signer : string) : IO string :=
write this config "initialize" [address_toScVal adminAddress] signer.
Definition registerIssuer (address : string) (metadata : fields) (signer : string) : IO string :=
write this config "register_issuer"
  [address_toScVal address; nativeToScVal (JObj metadata) None] signer.
Definition registerBuyer (address : string) (metadata : fields) (signer : string) : IO string :=
write this config "register_buyer"
  [address_toScVal address; nativeToScVal (JObj metadata) None] signer.
Definition isVerified (address signer : string) : IO bool :=
read this config "is_verified" [address_toScVal address] signer
  (fun v => truthy <$> scValToNative v).
Definition getProfile (address signer : string) : IO jsval :=
read this config "get_profile" [address_toScVal address] signer
  (fun v => scValToNative v ≫= parseProfile).
Definition revoke (address signer : string) : IO string :=
write this config "revoke" [address_toScVal address] signer.
End Methods.
End RegistryClient.

Module InvoiceClient.
Section Methods.
Context `{Sdk : StellarSdk} {Enc : Encoders} {Env : Type} {Srv : Services Env} {zod : Zod}.
Context (this : BaseContractClient) (config : SDKConfig).
Abbreviation IO := (M Env Event).

Definition initialize (adminAddress registryContractAddress signer : string) : IO string :=
write this config "initialize"
  [address_toScVal adminAddress; address_toScVal registryContractAddress] signer.
Definition create (issuer buyer : string) (faceValue : Z) (dueDate : num) (signer : string) : IO string :=
write this config "create"
  [address_toScVal issuer; address_toScVal buyer; scv_big faceValue "u128";
   bigint_of_num dueDate ≫= fun d => scv_big d "u64"] signer.
Definition submitAttestation (invoiceIdHex : string) (payload signature : list Z) (signer : string) :
  IO string :=
write this config "submit_attestation"
  [scv_id invoiceIdHex; Ok (scvBytes payload); Ok (scvBytes signature)] signer.
Definition listForFinancing (invoiceIdHex : string) (discountBps : num) (signer : string) : IO bool :=
write_true this config "list_for_financing"
  [scv_id invoiceIdHex; nativeToScVal (JNum discountBps) (Some "u32")] signer.
Definition markShipped (invoiceIdHex signer : string) : IO bool :=
write_true this config "mark_shipped" [scv_id invoiceIdHex] signer.
Definition confirmDelivery (invoiceIdHex confirmerAddress signer : string) : IO bool :=
write_true this config "confirm_delivery"
  [scv_id invoiceIdHex; address_toScVal confirmerAddress] signer.
Definition repay (invoiceIdHex signer : string) : IO bool :=
write_true this config "repay" [scv_id invoiceIdHex] signer.
Definition triggerDefault (invoiceIdHex signer : string) : IO bool :=
write_true this config "trigger_default" [scv_id invoiceIdHex] signer.

Definition get (invoiceIdHex signer : string) : IO jsval :=
read this config "get" [scv_id invoiceIdHex] signer (fun v => scValToNative v ≫= parseInvoice).

(** [if (!Array.isArray(native)) return []; return native.map(parseInvoice)] *)
Definition parse_invoices (v : scval) : res (list jsval) :=
native ← scValToNative v;
match native with JArr l => map_result parseInvoice l | _ => Ok [] end.

Definition getByStatus (status : InvoiceStatus) (signer : string) : IO (list jsval) :=
read this config "get_by_status" [nativeToScVal (JStr (status_name status)) (Some "symbol")] signer
  parse_invoices.
Definition getByIssuer (address signer : string) : IO (list jsval) :=
read this config "get_by_issuer" [address_toScVal address] signer parse_invoices.
Definition getByBuyer (address signer : string) : IO (list jsval) :=
read this config "get_by_buyer" [address_toScVal address] signer parse_invoices.
End Methods.
End InvoiceClient.

Module PoolClient.
Section Methods.
Context `{Sdk : StellarSdk} {Enc : Encoders} {Env : Type} {Srv : Services Env} {zod : Zod}.
Context (this : BaseContractClient) (config : SDKConfig).
Abbreviation IO := (M Env Event).

Definition initialize (adminAddress signer : string) : IO string :=
write this config "initialize" [address_toScVal adminAddress] signer.
Definition deposit (lp : string) (usdcAmount : Z) (signer : string) : IO string :=
write this config "deposit" [address_toScVal lp; scv_big usdcAmount "u128"] signer.
Definition withdraw (lp : string) (shares : Z) (signer : string) : IO string :=
write this config "withdraw" [address_toScVal lp; scv_big shares "u128"] signer.
Definition fundInvoice (invoiceIdHex signer : string) : IO bool :=
write_true this config "fund_invoice" [scv_id invoiceIdHex] signer.
Definition receiveRepayment (invoiceIdHex : string) (amount : Z) (signer : string) : IO bool :=
write_true this config "receive_repayment" [scv_id invoiceIdHex; scv_big amount "u128"] signer.
Definition handleDefault (invoiceIdHex signer : string) : IO bool :=
write_true this config "handle_default" [scv_id invoiceIdHex] signer.

Definition getStats (signer : string) : IO jsval :=
read this config "get_stats" [] signer (fun v => scValToNative v ≫= parsePoolStats).
Definition getLPPosition (lp signer : string) : IO jsval :=
read this config "get_lp_position" [address_toScVal lp] signer
  (fun v => scValToNative v ≫= parseLPPosition).
Definition getUtilizationRate (signer : string) : IO num :=
read this config "get_utilization_rate" [] signer
  (fun v => n ← scValToNative v; to_number (js_or n (JNum Num.zero))).
End Methods.
End PoolClient.

Module EscrowClient.
Section Methods.
Context `{Sdk : StellarSdk} {Enc : Encoders} {Env : Type} {Srv : Services Env}.
Context (this : BaseContractClient) (config : SDKConfig).
Abbreviation IO := (M Env Event).

Definition initialize (adminAddress signer : string) : IO string :=
write this config "initialize" [address_toScVal adminAddress] signer.
Definition lock (invoiceIdHex : string) (amount : Z) (signer : string) : IO bool :=
write_true this config "lock" [scv_id invoiceIdHex; scv_big amount "u128"] signer.
Definition releaseToIssuer (invoiceIdHex signer : string) : IO bool :=
write_true this config "release_to_issuer" [scv_id invoiceIdHex] signer.
Definition releaseToPool (invoiceIdHex : string) (repaymentAmount : Z) (signer : string) : IO bool :=
write_true this config "release_to_pool" [scv_id invoiceIdHex; scv_big repaymentAmount "u128"] signer.
Definition handleDefault (invoiceIdHex signer : string) : IO bool :=
write_true this config "handle_default" [scv_id invoiceIdHex] signer.
Definition getLocked (invoiceIdHex signer : string) : IO Z :=
read this config "get_locked" [scv_id invoiceIdHex] signer
  (fun v => scValToNative v ≫= to_bigint).
End Methods.
End EscrowClient.

Module TokenClient.
Section Methods.
Context `{Sdk : StellarSdk} {Enc : Encoders} {Env : Type} {Srv : Services Env}.
Abbreviation IO := (M Env Event).

(** [TokenClient.forUSDC()]: the asset contract of the active configuration. *)
Definition forUSDC (config : SDKConfig) : res BaseContractClient :=
sacContractId ← asset_contractId (usdc_assetCode (cfg_usdc config)) (usdc_issuer (cfg_usdc config))
                  (cfg_networkPassphrase config);
new_BaseContractClient sacContractId None None.

Context (this : BaseContractClient) (config : SDKConfig).
Definition allowance (from spender signer : string) : IO Z :=
read this config "allowance" [address_toScVal from; address_toScVal spender] signer
  (fun v => scValToNative v ≫= to_bigint).
Definition approve (from spender : string) (amount : Z) (expirationLedger : num) (signer : string) :
  IO string :=
write this config "approve"
  [address_toScVal from; address_toScVal spender; scv_big amount "i128";
   nativeToScVal (JNum expirationLedger) (Some "u32")] signer.
End Methods.
End TokenClient.

Module AgentRegistryClient.
Section Methods.
Context `{Sdk : StellarSdk} {Enc : Encoders} {Env : Type} {Srv : Services Env} {zod : Zod}.
Context (this : BaseContractClient) (config : SDKConfig).

Definition getAgent (agentId signer : string) : M Env Event jsval :=
read this config "get_agent" [nativeToScVal (JStr agentId) (Some "symbol")] signer
  (fun v => scValToNative v ≫= parseAgent).
End Methods.
End AgentRegistryClient.

(** ** Properties *)
Section Properties.
Context `{Sdk : StellarSdk} {Enc : Encoders} {Env : Type} {Srv : Services Env} {zod : Zod}.
Abbreviation IO := (M Env Event).

Definition discard {A} (m : IO A) : IO () := m ≫= fun _ => mret tt.

Lemma run_seq {A B} (m : IO A) (k : A -> IO B) env :
run (m ≫= k) env =
  match m (World env []) with
  | (Ok a, w) => let '(r, w') := k a w in (r, w_log w')
  | (Throw e, w) => (Throw e, w_log w)
  end.
Proof. unfold run, mbind, M_bind. by destruct (m (World env [])) as [[a|e] w]. Qed.

Lemma run_discard {A} (m : IO A) env : (run (discard m) env).2 = (run m env).2.
Proof.
unfold discard. rewrite run_seq. unfold run.
by destruct (m (World env [])) as [[a|e] w].
Qed.

Lemma run_write_true this config method args signer env :
run (write_true this config method args signer) env =
  ((fun _ => true) <$> (run (write this config method args signer) env).1,
   (run (write this config method args signer) env).2).
Proof.
unfold write_true. rewrite run_seq. unfold run.
by destruct (write this config method args signer (World env [])) as [[a|e] w].
Qed.

(** The encodings come first: when one throws nothing has happened. *)
Lemma run_write this config method args signer env :
run (write this config method args signer) env =
  match seq_args args with
  | Throw e => (Throw e, [])
  | Ok vs => run (writeContract this config method vs signer) env
  end.
Proof. unfold write. rewrite run_seq. unfold lift. by destruct (seq_args args). Qed.

Lemma run_read {A} this config method args signer (parse : scval -> res A) env :
run (read this config method args signer parse) env =
  match seq_args args with
  | Throw e => (Throw e, [])
  | Ok vs => run (readContract this config method vs signer parse) env
  end.
Proof. unfold read. rewrite run_seq. unfold lift. by destruct (seq_args args). Qed.

Lemma read_emits {A} this config method args signer (parse : scval -> res A) :
emits (fun e => read_only e = true) (read this config method args signer parse).
Proof. apply emits_bind; [apply emits_lift | intros; apply readContract_emits]. Qed.

Definition signs_at_most_once (l : list Event) : Prop := (length (signatures l) <= 1)%nat.

(** The contract a mutating call keeps. *)
Definition mutating (this : BaseContractClient) (m : IO ()) : Prop :=
forall env, safe_sends (attempts_allowed this) (sends (run m env).2) /\
            signs_at_most_once (run m env).2.

Lemma writeContract_mutating this config method args signer env :
let l := (run (writeContract this config method args signer) env).2 in
safe_sends (attempts_allowed this) (sends l) /\ signs_at_most_once l.
Proof.
pose proof (attempts_allowed_pos this) as Hp. cbn zeta. unfold signs_at_most_once.
destruct (trace_run _ _ env (writeContract_trace this config method args signer))
  as [[Hq _]|(pre & x & s & post & -> & Hq & _ & Hs)]; apply quiet_no_send in Hq as [E1 E2].
- rewrite E1, E2. split; [apply safe_sends_nil; lia | cbn; lia].
- rewrite sends_app, E1, sends_cons, signatures_app, E2, signatures_cons.
  apply submit_sends in Hs as [Hs ->]. split; [done | cbn; lia].
Qed.

Lemma write_mutating this config method args signer :
mutating this (discard (write this config method args signer)).
Proof.
intros env. rewrite run_discard, run_write. destruct (seq_args args); [apply writeContract_mutating|].
split; [apply safe_sends_nil; pose proof (attempts_allowed_pos this); lia | by cbv; lia].
Qed.

Lemma write_true_mutating this config method args signer :
mutating this (discard (write_true this config method args signer)).
Proof.
intros env. pose proof (write_mutating this config method args signer env) as H.
rewrite !run_discard in H. rewrite !run_discard, run_write_true. exact H.
Qed.

Context (this : BaseContractClient) (config : SDKConfig).

(** Every method of the clients that writes, and every method that reads, applied to
    arbitrary arguments. *)
Definition sdk_writes (a b c id signer : string) (z : Z) (n : num) (md : fields) (bs bs' : list Z) :
  list (IO ()) := [
discard (RegistryClient.initialize this config a signer);
discard (RegistryClient.registerIssuer this config a md signer);
discard (RegistryClient.registerBuyer this config a md signer);
discard (RegistryClient.revoke this config a signer);
discard (InvoiceClient.initialize this config a b signer);
discard (InvoiceClient.create this config a b z n signer);
discard (InvoiceClient.submitAttestation this config id bs bs' signer);
discard (InvoiceClient.listForFinancing this config id n signer);
discard (InvoiceClient.markShipped this config id signer);
discard (InvoiceClient.confirmDelivery this config id a signer);
discard (InvoiceClient.repay this config id signer);
discard (InvoiceClient.triggerDefault this config id signer);
discard (PoolClient.initialize this config a signer);
discard (PoolClient.deposit this config a z signer);
discard (PoolClient.withdraw this config a z signer);
discard (PoolClient.fundInvoice this config id signer);
discard (PoolClient.receiveRepayment this config id z signer);
discard (PoolClient.handleDefault this config id signer);
discard (EscrowClient.initialize this config a signer);
discard (EscrowClient.lock this config id z signer);
discard (EscrowClient.releaseToIssuer this config id signer);
discard (EscrowClient.releaseToPool this config id z signer);
discard (EscrowClient.handleDefault this config id signer);
discard (TokenClient.approve this config a b z n signer)].

Definition sdk_reads (a b id signer : string) (st : InvoiceStatus) : list (IO ()) := [
discard (RegistryClient.isVerified this config a signer);
discard (RegistryClient.getProfile this config a signer);
discard (InvoiceClient.get this config id signer);
discard (InvoiceClient.getByStatus this config st signer);
discard (InvoiceClient.getByIssuer this config a signer);
discard (InvoiceClient.getByBuyer this config a signer);
discard (PoolClient.getStats this config signer);
discard (PoolClient.getLPPosition this config a signer);
discard (PoolClient.getUtilizationRate this config signer);
discard (EscrowClient.getLocked this config id signer);
discard (TokenClient.allowance this config a b signer);
discard (AgentRegistryClient.getAgent this config a signer)].

(** No method of any client signs more than once or submits again a
    transaction that may have been queued, and the query methods neither sign nor
    submit. *)
Theorem clients_safe a b c id signer z n md bs bs' st :
Forall (mutating this) (sdk_writes a b c id signer z n md bs bs') /\
Forall (fun m => forall env, Forall (fun e => read_only e = true) (run m env).2)
  (sdk_reads a b id signer st).
Proof.
split.
- unfold sdk_writes.
  repeat (apply list.Forall_cons; split; [first [apply write_mutating | apply write_true_mutating]|]).
  by apply list.Forall_nil.
- assert (H : forall A method args (parse : scval -> res A) env,
    Forall (fun e => read_only e = true)
      (run (discard (read this config method args signer parse)) env).2).
  { intros A method args parse env. rewrite run_discard.
    apply (trace_run _ (fun l _ => Forall _ l)), read_emits. }
  unfold sdk_reads. repeat (apply list.Forall_cons; split; [intros env; apply H|]).
  by apply list.Forall_nil.
Qed.

(** A due date that is not an integer, like any argument that cannot be
    encoded, fails before the first request. *)
Theorem create_bad_dueDate issuer buyer face due signer env (H : Num.to_Z due = None) :
exists e, run (InvoiceClient.create this config issuer buyer face due signer) env = (Throw e, []).
Proof.
unfold InvoiceClient.create. rewrite run_write. unfold seq_args, scv_big, bigint_of_num. cbn.
rewrite H. cbn. unfold id.
destruct (address_toScVal issuer); [|eauto]. destruct (address_toScVal buyer); [|eauto].
destruct (nativeToScVal _ _); eauto.
Qed.
End Properties.

(** ** Invoice ids, from a decoded contract value to the next call's argument *)
Lemma hex_digit_value z : 0 <= z < 16 -> Str.radix_digit (Hex.digit z) = z.
Proof.
  intros H. rewrite <- (Z2Nat.id z) by lia. assert (Hn : (Z.to_nat z < 16)%nat) by lia.
  revert Hn. generalize (Z.to_nat z). intros n Hn. do 16 (destruct n as [|n]; [reflexivity|]). lia.
Qed.

Lemma hex_decode_encode bs : Forall (fun b => 0 <= b < 256) bs -> Hex.decode (Hex.encode bs) = bs.
Proof.
  induction 1 as [|b bs Hb Hbs IH]; cbn [Hex.encode Hex.decode]; [done|].
  assert (0 <= b / 16 < 16) by (split; [apply Z.div_pos; lia | apply Z.div_lt_upper_bound; lia]).
  assert (0 <= b mod 16 < 16) by (apply Z.mod_pos_bound; lia).
  rewrite !hex_digit_value by done.
  rewrite (proj2 (Z.ltb_lt (b / 16) 16)), (proj2 (Z.ltb_lt (b mod 16) 16)) by lia. cbn [andb].
  rewrite IH. f_equal. pose proof (Z.div_mod b 16). lia.
Qed.

(** *** Where the id of an invoice goes *)
Section InvoiceIds.
Context `{Sdk : StellarSdk} {Enc : Encoders} {Env : Type} {Srv : Services Env} {zod : Zod}.
Context (this : BaseContractClient) (config : SDKConfig) (signer : string).

(** [m] is the call of [method] on the contract with the bytes [bs] and then [rest], if that can be encoded. *)
Definition writes_id (bs : list Z) (m : M Env Event bool) (method : string) (rest : list (res scval)) : Prop :=
  forall env, (run m env).2 =
    match seq_args rest with Ok vs => (run (writeContract this config method (scvBytes bs :: vs) signer) env).2 | Throw _ => [] end.
(** The methods that are given the id of an invoice. *)
Definition sends_id (id : string) (bs : list Z) : Prop :=
  (forall n, writes_id bs (InvoiceClient.listForFinancing this config id n signer) "list_for_financing" [nativeToScVal (JNum n) (Some "u32")]) /\
  writes_id bs (InvoiceClient.markShipped this config id signer) "mark_shipped" [] /\
  (forall a, writes_id bs (InvoiceClient.confirmDelivery this config id a signer) "confirm_delivery" [address_toScVal a]) /\
  writes_id bs (InvoiceClient.repay this config id signer) "repay" [] /\
  writes_id bs (InvoiceClient.triggerDefault this config id signer) "trigger_default" [] /\
  (forall p q env, run (InvoiceClient.submitAttestation this config id p q signer) env =
     run (writeContract this config "submit_attestation" [scvBytes bs; scvBytes p; scvBytes q] signer) env) /\
  (forall env, run (InvoiceClient.get this config id signer) env =
     run (readContract this config "get" [scvBytes bs] signer (fun v => scValToNative v ≫= parseInvoice)) env) /\
  writes_id bs (PoolClient.fundInvoice this config id signer) "fund_invoice" [] /\
  (forall z, writes_id bs (PoolClient.receiveRepayment this config id z signer) "receive_repayment" [scv_big z "u128"]) /\
  writes_id bs (PoolClient.handleDefault this config id signer) "handle_default" [] /\
  (forall z, writes_id bs (EscrowClient.lock this config id z signer) "lock" [scv_big z "u128"]) /\
  writes_id bs (EscrowClient.releaseToIssuer this config id signer) "release_to_issuer" [] /\
  (forall z, writes_id bs (EscrowClient.releaseToPool this config id z signer) "release_to_pool" [scv_big z "u128"]) /\
  writes_id bs (EscrowClient.handleDefault this config id signer) "handle_default" [] /\
  (forall env, run (EscrowClient.getLocked this config id signer) env =
     run (readContract this config "get_locked" [scvBytes bs] signer (fun v => scValToNative v ≫= to_bigint)) env).

Lemma seq_args_cons (x : scval) l : seq_args (Ok x :: l) = (cons x <$> seq_args l).
Proof. unfold seq_args. cbn. by destruct (map_result id l). Qed.
Lemma write_true_id id bs method rest : Hex.decode id = bs ->
  writes_id bs (write_true this config method (scv_id id :: rest) signer) method rest.
Proof.
  intros Hid env. rewrite run_write_true, run_write. unfold scv_id. rewrite Hid, seq_args_cons. cbn [snd].
  by destruct (seq_args rest).
Qed.
Lemma decoded_id_sent id bs : Hex.decode id = bs -> sends_id id bs.
Proof.
  intros Hid. unfold sends_id. split_and!; intros; try (by apply write_true_id).
  - unfold InvoiceClient.submitAttestation. rewrite run_write. unfold scv_id. by rewrite Hid.
  - unfold InvoiceClient.get. rewrite run_read. unfold scv_id. by rewrite Hid.
  - unfold EscrowClient.getLocked. rewrite run_read. unfold scv_id. by rewrite Hid.
Qed.
End InvoiceIds.

(** C28: the id of an invoice parsed from the contract's bytes, given to any method of a client
    that takes one, is sent as the argument of that contract method, as the same bytes. *)
Theorem invoice_id_roundtrip `{Sdk : StellarSdk} {Enc : Encoders} {Env : Type} {Srv : Services Env} {zod : Zod} {laws : ZodLaws zod}
    this config signer native bs r inv
    (Hid : prop (normalize native) "id" = JBytes bs)
    (Hb : Forall (fun b => 0 <= b < 256) bs)
    (Hp : parseInvoice native = Ok r) (Hi : invoice_of r = Some inv) :
  inv_id inv = Hex.encode bs /\ sends_id (Srv := Srv) this config signer (inv_id inv) bs.
Proof.
  assert (E : inv_id inv = Hex.encode bs); [|split; [done|apply decoded_id_sent; by rewrite E, hex_decode_encode]].
  unfold parseInvoice in Hp. apply parse_object_ok in Hp as (out & -> & HF);
    [|by apply (bool_decide_unpack _)].
  unfold invoice_shape in HF. apply list.Forall_cons in HF as [Hrun _]. cbn [fst snd] in Hrun.
  rewrite Hid, run_preprocess in Hrun. cbn [id_pre] in Hrun.
  apply run_string_ok in Hrun as (s & Hs & [= <-] & _).
  unfold invoice_of in Hi. rewrite Hs in Hi. cbn [as_str] in Hi.
  repeat (apply bind_Some in Hi as (? & ? & Hi)). by simplify_eq/=.
Qed.

(** ** Witnesses *)
Module MockEnc.
Definition address (a : string) : res jsval :=
if stellar_address a then Ok (JStr a) else throw_error "Unsupported address type".
#[export] Instance encoders : Encoders (H := Mock.sdk) :=
  @Build_Encoders Mock.sdk address (fun v _ => Ok v) JBytes (fun c i _ => Ok (c +:+ ":" +:+ i)).
End MockEnc.
Import Mock MockEnc.

Lemma create_bad_dueDate_witness :
  exists e, run (InvoiceClient.create client config "A" "B" 5 (Num.of_decimal false 15 (-1)) "G")
              congested = (Throw e, []).
Proof.
  destruct (create_bad_dueDate client config "A" "B" 5 (Num.of_decimal false 15 (-1)) "G" congested)
    as (e & H); [vm_compute; reflexivity | exists e; exact H].
Defined.

Lemma invoice_id_roundtrip_witness :
  exists r inv, parseInvoice (zod := RefZod.ref_zod) sample_invoice_map = Ok r /\
    invoice_of r = Some inv /\ inv_id inv = Hex.encode (replicate 32 171) /\
    (run (InvoiceClient.repay client config (inv_id inv) "G") congested).2 =
      (run (writeContract client config "repay" [JBytes (replicate 32 171)] "G") congested).2.
Proof.
  destruct (parseInvoice (zod := RefZod.ref_zod) sample_invoice_map) as [r|e] eqn:E;
    [|vm_compute in E; discriminate E].
  destruct (invoice_of r) as [inv|] eqn:Hi.
  - exists r, inv. split; [reflexivity|]. split; [exact Hi|].
    destruct (invoice_id_roundtrip (laws := RefZod.ref_zod_laws) client config "G" sample_invoice_map (replicate 32 171) r inv
      ltac:(vm_compute; reflexivity) ltac:(apply Forall_replicate; lia) E Hi) as (He & _ & _ & _ & Hr & _).
    split; [exact He|]. exact (Hr congested).
  - exfalso. vm_compute in E. injection E as <-. vm_compute in Hi. discriminate Hi.
Defined.
