(* ===== verification/ReactAsync.v ===== *)
(** * Async state for React ([packages/sdk-react/src/async.ts])

    [useAsyncQuery] and [useAsyncMutation] are state machines driven by interleaved
    events: runs start, deps change or the component unmounts (the effect cleanup), and
    calls settle in any order.  A state holds the React state, the refs, and the calls
    that are still running with the values their closures captured.  [useAsyncQuery]
    refines an abstract machine in which only the newest request may answer;
    [useAsyncMutation] is a step relation with an invariant. *)

From S2P Require Import Prelude JsNumber JsString JsValue.

(** [err instanceof Error ? err : new Error(String(err))] *)
Definition to_error (err : jsval) : jsval := if is_error err then err else mk_error (to_str err).

Section Query.
Context {T : Type}.

(** What the component renders. *)
Record view := { data : option T; isLoading : bool; error : option jsval }.

(** A running call: the generation and the abort controller its closure captured. *)
Record call := { c_generation : nat; c_controller : nat }.

Record query := {
q_view : view;
generationRef : nat;
controllerRef : option nat;
aborted : gset nat;
next : nat;                  (* calls started so far; also the next controller *)
running : gmap nat call }.

Definition query_init : query := {|
q_view := {| data := None; isLoading := true; error := None |};
generationRef := 0; controllerRef := None; aborted := ∅; next := 0; running := ∅ |}.

Definition abort (c : option nat) (a : gset nat) : gset nat :=
match c with Some i => {[ i ]} ∪ a | None => a end.

(** [run()] up to its first suspension. *)
Definition query_run (s : query) : query := {|
q_view := {| data := data (q_view s); isLoading := true; error := None |};
generationRef := S (generationRef s);
controllerRef := Some (next s);
aborted := abort (controllerRef s) (aborted s);
next := S (next s);
running := <[next s := {| c_generation := S (generationRef s); c_controller := next s |}]> (running s) |}.

(** The continuation of [await queryFnRef.current(...)]: each of the three clauses asks
    again whether the call is current. *)
Definition query_settle (s : query) (id : nat) (r : res T) : query :=
match running s !! id with
| None => s
| Some c =>
    let isCurrent := bool_decide (c_generation c = generationRef s) in
    let v := q_view s in
    let v := match r with
             | Ok a => if isCurrent then {| data := Some a; isLoading := isLoading v; error := error v |} else v
             | Throw e => if isCurrent
                          then {| data := data v; isLoading := isLoading v; error := Some (to_error e) |}
                          else v
             end in
    let v := if isCurrent then {| data := data v; isLoading := false; error := error v |} else v in
    {| q_view := v; generationRef := generationRef s; controllerRef := controllerRef s;
       aborted := aborted s; next := next s; running := delete id (running s) |}
end.

(** The effect cleanup: deps changed or the component unmounted. *)
Definition query_cleanup (s : query) : query := {|
q_view := q_view s;
generationRef := S (generationRef s);
controllerRef := None;
aborted := abort (controllerRef s) (aborted s);
next := next s;
running := running s |}.

Inductive query_event := Run | Cleanup | Settle (id : nat) (r : res T).

Definition query_step (s : query) (e : query_event) : query :=
match e with
| Run => query_run s
| Cleanup => query_cleanup s
| Settle id r => query_settle s id r
end.

(** ** The abstract machine: only the newest request may answer *)
Record latest := { l_view : view; l_active : option nat; l_next : nat }.

Definition latest_init : latest :=
{| l_view := {| data := None; isLoading := true; error := None |}; l_active := None; l_next := 0 |}.

Definition latest_step (s : latest) (e : query_event) : latest :=
match e with
| Run => {| l_view := {| data := data (l_view s); isLoading := true; error := None |};
            l_active := Some (l_next s); l_next := S (l_next s) |}
| Cleanup => {| l_view := l_view s; l_active := None; l_next := l_next s |}
| Settle id r =>
    if bool_decide (l_active s = Some id) then
      {| l_view := match r with
                   | Ok a => {| data := Some a; isLoading := false; error := error (l_view s) |}
                   | Throw e => {| data := data (l_view s); isLoading := false;
                                   error := Some (to_error e) |}
                   end;
         l_active := None; l_next := l_next s |}
    else s
end.

(** ** Invariant and simulation *)
Record query_inv (s : query) : Prop := {
qi_ids : forall id c, running s !! id = Some c -> (id < next s)%nat /\ c_controller c = id;
qi_gen : forall id c, running s !! id = Some c -> (c_generation c <= generationRef s)%nat;
qi_ctrl : forall i, controllerRef s = Some i -> (i < next s)%nat;
qi_current : forall id c, running s !! id = Some c -> c_generation c = generationRef s ->
               controllerRef s = Some id;
qi_owner : forall id c, running s !! id = Some c -> controllerRef s = Some id ->
               c_generation c = generationRef s;
qi_aborted : forall i, (i < next s)%nat -> controllerRef s <> Some i -> i ∈ aborted s;
qi_loading : forall id c, running s !! id = Some c -> c_generation c = generationRef s ->
               isLoading (q_view s) = true /\ error (q_view s) = None }.

Record refines (s : query) (a : latest) : Prop := {
rf_inv : query_inv s;
rf_view : q_view s = l_view a;
rf_next : next s = l_next a;
rf_active : forall id, l_active a = Some id <->
              exists c, running s !! id = Some c /\ c_generation c = generationRef s }.

Lemma query_inv_init : query_inv query_init.
Proof. split; cbn; intros; (set_solver || lia || done). Qed.

Lemma query_run_inv s : query_inv s -> query_inv (query_run s).
Proof.
intros [Hid Hg Hc Hcur How Hab Hl]. split; cbn.
- intros id c. rewrite lookup_insert_Some. intros [[<- <-]|[_ H]]; [cbn; lia|].
  destruct (Hid _ _ H). split; [lia | done].
- intros id c. rewrite lookup_insert_Some. intros [[<- <-]|[_ H]]; [cbn; lia|].
  specialize (Hg _ _ H). lia.
- intros i [= <-]. lia.
- intros id c. rewrite lookup_insert_Some. intros [[<- <-]|[_ H]]; [done|].
  specialize (Hg _ _ H). lia.
- intros id c. rewrite lookup_insert_Some. intros [[<- <-]|[Hne H]]; [done | congruence].
- intros i Hi Hne. unfold abort. destruct (decide (controllerRef s = Some i)) as [E|E].
  + rewrite E. set_solver.
  + assert (i < next s)%nat by (destruct (decide (i = next s)); [congruence | lia]).
    specialize (Hab i). destruct (controllerRef s); set_solver.
- done.
Qed.

Lemma query_cleanup_inv s : query_inv s -> query_inv (query_cleanup s).
Proof.
intros [Hid Hg Hc Hcur How Hab Hl]. split; cbn.
- done.
- intros id c H. specialize (Hg _ _ H). lia.
- done.
- intros id c H. specialize (Hg _ _ H). lia.
- done.
- intros i Hi _. unfold abort. destruct (decide (controllerRef s = Some i)) as [E|E].
  + rewrite E. set_solver.
  + specialize (Hab i Hi E). destruct (controllerRef s); set_solver.
- intros id c H. specialize (Hg _ _ H). lia.
Qed.

Lemma query_settle_inv s id r : query_inv s -> query_inv (query_settle s id r).
Proof.
intros Hi. unfold query_settle. destruct (running s !! id) as [c|] eqn:E; [|done].
destruct Hi as [Hid Hg Hc Hcur How Hab Hl]. split; cbn; try done.
- intros id' c' [_ H]%lookup_delete_Some. eauto.
- intros id' c' [_ H]%lookup_delete_Some. eauto.
- intros id' c' [_ H]%lookup_delete_Some. eauto.
- intros id' c' [_ H]%lookup_delete_Some. eauto.
- intros id' c' [Hne H]%lookup_delete_Some Hc'.
  case_bool_decide as Hcc.
  + exfalso. pose proof (Hcur _ _ H Hc'). pose proof (Hcur _ _ E Hcc). congruence.
  + destruct r; eauto.
Qed.

Lemma query_step_inv s e : query_inv s -> query_inv (query_step s e).
Proof. destruct e; [apply query_run_inv | apply query_cleanup_inv | apply query_settle_inv]. Qed.

Lemma refines_step s a e : refines s a -> refines (query_step s e) (latest_step a e).
Proof.
intros [Hi Hv Hn Ha]. split; [by apply query_step_inv|..].
- destruct e; cbn; [by rewrite Hv | done |].
  unfold query_settle. destruct (running s !! id) as [c|] eqn:E.
  + case_bool_decide as Hc; case_bool_decide as Hl; cbn; rewrite ?Hv.
    * by destruct r.
    * destruct Hl. apply Ha. eauto.
    * apply Ha in Hl as (c' & Hc' & Hg). congruence.
    * by destruct r.
  + case_bool_decide as Hl; [|done]. apply Ha in Hl as (c' & Hc' & _). congruence.
- destruct e; cbn; [by rewrite Hn | done |].
  unfold query_settle. destruct (running s !! id); repeat case_bool_decide; done.
- destruct Hi as [Hid Hg Hc Hcur How Hab Hl]. intros id. destruct e as [| |id' r]; cbn.
  + rewrite <- Hn. split.
    * intros [= <-]. eexists. by rewrite lookup_insert_eq.
    * intros (c & H & Hg'). apply lookup_insert_Some in H as [[<- _]|[_ H]]; [done|].
      specialize (Hg _ _ H). lia.
  + split; [done|]. intros (c & H & Hg'). specialize (Hg _ _ H). lia.
  + unfold query_settle. destruct (running s !! id') as [c'|] eqn:E.
    * case_bool_decide as Hl'; cbn.
      -- split; [done|]. intros (c & [Hne H]%lookup_delete_Some & Hg').
         exfalso. apply Hne. assert (l_active a = Some id) by (apply Ha; eauto). congruence.
      -- rewrite Ha. split.
         ++ intros (c & H & Hg'). exists c. split; [|done]. apply lookup_delete_Some.
            split; [|done]. intros ->. apply Hl', Ha. eauto.
         ++ intros (c & [_ H]%lookup_delete_Some & Hg'). eauto.
    * case_bool_decide as Hl'; [apply Ha in Hl' as (? & ? & _); congruence | apply Ha].
Qed.

Lemma refines_init : refines query_init latest_init.
Proof.
split; [apply query_inv_init | done | done |]. intros id. split; [done|]. by intros (c & H & _).
Qed.

(** C6: whatever the interleaving of runs, refetches, dependency changes,
    unmounts and settling calls, the hook shows exactly what the newest-request-wins
    machine shows. *)
Theorem useAsyncQuery_latest_wins (events : list query_event) :
q_view (foldl query_step query_init events) = l_view (foldl latest_step latest_init events).
Proof.
assert (H : refines (foldl query_step query_init events) (foldl latest_step latest_init events)).
{ induction events as [|e events IH] using rev_ind; [apply refines_init|].
  rewrite !foldl_app. by apply refines_step. }
apply H.
Qed.

(** In every reachable state at most one running call is current, it is shown
    as loading without an error, and the signal of every other call, running or not, is
    aborted; a call that is not current changes nothing visible when it settles. *)
Theorem useAsyncQuery_invariant (events : list query_event) :
let s := foldl query_step query_init events in
(forall id c, running s !! id = Some c -> c_generation c = generationRef s ->
   controllerRef s = Some id /\ isLoading (q_view s) = true /\ error (q_view s) = None) /\
(forall id c r, running s !! id = Some c -> c_generation c <> generationRef s ->
   c_controller c ∈ aborted s /\ q_view (query_settle s id r) = q_view s).
Proof.
cbn zeta. assert (Hinv : query_inv (foldl query_step query_init events)).
{ induction events as [|e events IH] using rev_ind; [apply query_inv_init|].
  rewrite foldl_app. by apply query_step_inv. }
revert Hinv. generalize (foldl query_step query_init events). intros s Hi.
split.
- intros id c H Hg. destruct Hi. eauto.
- intros id c r H Hg. split.
  + destruct Hi as [Hid _ _ _ How Hab _]. destruct (Hid _ _ H) as [Hlt ->]. apply Hab; [done|].
    intros Hctrl. by apply Hg, (How id).
  + unfold query_settle. rewrite H, bool_decide_false by done. by destruct r.
Qed.
End Query.

(** ** [useAsyncMutation] *)
Section Mutation.
Context {R : Type}.

Record mutation := {
isPending : bool; m_error : option jsval; inFlightRef : Z;
m_next : nat; m_running : gset nat }.

Definition mutation_init : mutation :=
{| isPending := false; m_error := None; inFlightRef := 0; m_next := 0; m_running := ∅ |}.

(** [mutate(...)] up to its first suspension. *)
Definition mutate_start (s : mutation) : mutation := {|
isPending := true; m_error := None; inFlightRef := inFlightRef s + 1;
m_next := S (m_next s); m_running := {[ m_next s ]} ∪ m_running s |}.

(** The call [id] settles: the state after its [catch] and [finally] clauses, and what
    the promise returned to the caller does. *)
Definition mutate_settle (s : mutation) (id : nat) (r : res R) : mutation * res R :=
let err := match r with Ok _ => m_error s | Throw e => Some (to_error e) end in
let inFlight := (inFlightRef s - 1)%Z in
({| isPending := if (inFlight =? 0)%Z then false else isPending s;
    m_error := err; inFlightRef := inFlight; m_next := m_next s;
    m_running := m_running s ∖ {[ id ]} |}, r).

Inductive mutation_step : mutation -> mutation -> Prop :=
| step_start s : mutation_step s (mutate_start s)
| step_settle s id r : id ∈ m_running s -> mutation_step s (mutate_settle s id r).1.

Inductive mutation_reachable : mutation -> Prop :=
| reach_init : mutation_reachable mutation_init
| reach_step s s' : mutation_reachable s -> mutation_step s s' -> mutation_reachable s'.

Record mutation_inv (s : mutation) : Prop := {
mi_count : inFlightRef s = Z.of_nat (size (m_running s));
mi_pending : isPending s = true <-> m_running s <> ∅;
mi_next : forall id, id ∈ m_running s -> (id < m_next s)%nat }.

Lemma mutation_inv_start s : mutation_inv s -> mutation_inv (mutate_start s).
Proof.
intros [Hc Hp Hn]. split; cbn.
- assert (m_next s ∉ m_running s) by (intros H; specialize (Hn _ H); lia).
  rewrite size_union, size_singleton by set_solver. lia.
- split; [set_solver | done].
- intros id [->%elem_of_singleton|H]%elem_of_union; [lia|]. specialize (Hn _ H). lia.
Qed.

Lemma mutation_inv_settle s id r :
id ∈ m_running s -> mutation_inv s -> mutation_inv (mutate_settle s id r).1.
Proof.
intros Hid [Hc Hp Hn].
assert (Hs : size (m_running s ∖ {[id]}) = (size (m_running s) - 1)%nat).
{ rewrite size_difference by set_solver. by rewrite size_singleton. }
assert (Hpos : (0 < size (m_running s))%nat).
{ destruct (decide (size (m_running s) = 0%nat)) as [E|]; [|lia].
  apply size_empty_inv in E. set_solver. }
split; cbn.
- rewrite Hs, Hc. lia.
- rewrite Hc. destruct (Z.eqb_spec (Z.of_nat (size (m_running s)) - 1) 0) as [E|E].
  + split; [done|]. intros Hne. exfalso. apply Hne.
    assert (Hz : size (m_running s ∖ {[id]}) = 0%nat) by lia.
    apply size_empty_inv in Hz. set_solver.
  + split; [|intros _; apply Hp; set_solver]. intros _ Hemp.
    rewrite Hemp, size_empty in Hs. lia.
- intros id' H. apply Hn. set_solver.
Qed.

(** In every reachable state [isPending] is true exactly when some call has
    not settled, however the calls overlap, and [inFlightRef] counts them. *)
Theorem useAsyncMutation_pending s (H : mutation_reachable s) :
(isPending s = true <-> m_running s <> ∅) /\ inFlightRef s = Z.of_nat (size (m_running s)).
Proof.
assert (Hi : mutation_inv s); [|by destruct Hi].
induction H as [|s s' Hs IH Hst].
- split; cbn; [by rewrite size_empty | done | set_solver].
- destruct Hst; [by apply mutation_inv_start | by apply mutation_inv_settle].
Qed.

(** A failed call leaves its error visible until the next call starts, and the caller
    still receives the original exception. *)
Lemma mutate_settle_throw s id e :
m_error (mutate_settle s id (Throw e)).1 = Some (to_error e) /\
(mutate_settle s id (Throw e)).2 = Throw e.
Proof. done. Qed.
End Mutation.

(** ** Witness and examples *)

(** Two calls overlap; the first one settles. *)
Definition overlapping : mutation :=
  (mutate_settle (R := Z) (mutate_start (mutate_start mutation_init)) 0 (Ok 7%Z)).1.

Lemma useAsyncMutation_pending_witness : isPending overlapping = true /\ inFlightRef overlapping = 1%Z.
Proof.
  assert (H : mutation_reachable (R := Z) overlapping).
  { eapply reach_step; [|apply step_settle; set_solver].
    eapply reach_step; [|apply step_start]. eapply reach_step; [apply reach_init | apply step_start]. }
  destruct (useAsyncMutation_pending (R := Z) overlapping H) as [Hp Hc].
  split; [apply Hp|]; [|rewrite Hc]; vm_compute; [discriminate | reflexivity].
Defined.

(** A slow first answer arrives after a dependency change and is dropped. *)
Example slow_answer_dropped :
  q_view (foldl query_step query_init
    [Run; Cleanup; Run; Settle 1 (Ok "new"); Settle 0 (Ok "old")]) =
  {| data := Some "new"; isLoading := false; error := None |}.
Proof. vm_compute. reflexivity. Qed.
