(* ===== verification/ReactHooks.v ===== *)
(** * The React hooks of the SDK ([packages/sdk-react/src/use*.ts])

    A query hook resolves its client (an injected object, or one built from a contract
    id and memoised on the option contents), and hands [useAsyncQuery] a fetch function
    and a dependency list.  Client objects have an identity ([ref]): a render that
    rebuilt the client would change the dependency list and query again.  The mutation
    hooks close over the client and the signer. *)

From S2P Require Import Prelude JsNumber JsString JsValue Effects SdkConfig SdkTypes Schemas Base Clients.

(** An element of a dependency list, compared with [Object.is]. *)
Inductive dep := DRef (r : nat) | DStr (s : string).
#[export] Instance dep_eq_dec : EqDecision dep.
Proof. solve_decision. Defined.

Section Hooks.
Context `{Sdk : StellarSdk} {Enc : Encoders} {Env : Type} {Srv : Services Env} {zod : Zod}.
Abbreviation IO := (M Env Event).

(** A client object. *)
Record handle := { ref : nat; client : BaseContractClient }.

Record options := { opt_client : option handle; opt_contractId : option string }.

(** [invoiceClient], [poolClient], ...: they differ in the error message. [fresh] is the
    identity a new object would get. *)
Definition resolve_client (message : string) (o : options) (fresh : nat) : res handle :=
match opt_client o with
| Some c => Ok c
| None =>
    if opt_str_truthy (opt_contractId o) then
      c ← new_BaseContractClient (default "" (opt_contractId o)) None None;
      Ok {| ref := fresh; client := c |}
    else throw_error message
end.

Definition invoiceClient := resolve_client
  "useInvoice: provide an injected InvoiceClient instance or a contractId".
Definition poolClient := resolve_client
  "usePool: provide an injected PoolClient instance or a contractId".
Definition registryClient := resolve_client
  "useRegistry: provide an injected RegistryClient instance or a contractId".
Definition escrowClient := resolve_client
  "useEscrow: provide an injected EscrowClient instance or a contractId".
Definition tokenClient := resolve_client
  "useToken: provide an injected TokenClient instance or a contractId".
Definition agentRegistryClient := resolve_client
  "useAgent: provide an injected AgentRegistryClient instance or a contractId".

(** [useMemo(() => resolve(...), [options.client, options.contractId])]. *)
Definition memo_deps (o : options) : option nat * option string :=
(ref <$> opt_client o, opt_contractId o).
Record memo := { m_deps : option nat * option string; m_value : handle }.

Definition useMemoClient (resolve : options -> nat -> res handle) (cell : option memo) (o : options)
  (fresh : nat) : res memo :=
match cell with
| Some m => if bool_decide (m_deps m = memo_deps o) then Ok m
            else c ← resolve o fresh; Ok {| m_deps := memo_deps o; m_value := c |}
| None => c ← resolve o fresh; Ok {| m_deps := memo_deps o; m_value := c |}
end.

(** What one render of a query hook gives: the memo cell, and the dependency list and
    fetch function passed to [useAsyncQuery]. *)
Record rendered (A : Type) := { r_memo : memo; r_deps : list dep; r_fetch : SDKConfig -> IO A }.

Definition query_hook {A} (resolve : options -> nat -> res handle)
  (args : list string) (fetch : BaseContractClient -> SDKConfig -> IO A)
  (cell : option memo) (o : options) (fresh : nat) : res (rendered A) :=
m ← useMemoClient resolve cell o fresh;
Ok {| r_memo := m; r_deps := DRef (ref (m_value m)) :: map DStr args;
      r_fetch := fetch (client (m_value m)) |}.

(** [useInvoiceList]. *)
Definition useInvoiceList (queryKey : string) (fetch : BaseContractClient -> SDKConfig -> IO (list jsval))
  (deps : list string) := query_hook invoiceClient deps fetch.

Definition useInvoicesByStatus (status : InvoiceStatus) (signer : string) :=
useInvoiceList "useInvoicesByStatus"
  (fun c cfg => InvoiceClient.getByStatus c cfg status signer) [status_name status; signer].
Definition useInvoicesByIssuer (issuer signer : string) :=
useInvoiceList "useInvoicesByIssuer"
  (fun c cfg => InvoiceClient.getByIssuer c cfg issuer signer) [issuer; signer].
Definition useInvoicesByBuyer (buyer signer : string) :=
useInvoiceList "useInvoicesByBuyer"
  (fun c cfg => InvoiceClient.getByBuyer c cfg buyer signer) [buyer; signer].
Definition useInvoice (invoiceIdHex signer : string) :=
query_hook invoiceClient [invoiceIdHex; signer]
  (fun c cfg => InvoiceClient.get c cfg invoiceIdHex signer).

Definition usePoolStats (signer : string) :=
query_hook poolClient [signer] (fun c cfg => PoolClient.getStats c cfg signer).
Definition useLPPosition (lp signer : string) :=
query_hook poolClient [lp; signer] (fun c cfg => PoolClient.getLPPosition c cfg lp signer).
Definition useUtilizationRate (signer : string) :=
query_hook poolClient [signer] (fun c cfg => PoolClient.getUtilizationRate c cfg signer).

Definition useIsVerified (address signer : string) :=
query_hook registryClient [address; signer]
  (fun c cfg => RegistryClient.isVerified c cfg address signer).
Definition useProfile (address signer : string) :=
query_hook registryClient [address; signer]
  (fun c cfg => RegistryClient.getProfile c cfg address signer).

Definition useLockedAmount (invoiceIdHex signer : string) :=
query_hook escrowClient [invoiceIdHex; signer]
  (fun c cfg => EscrowClient.getLocked c cfg invoiceIdHex signer).
Definition useAllowance (from spender signer : string) :=
query_hook tokenClient [from; spender; signer]
  (fun c cfg => TokenClient.allowance c cfg from spender signer).
Definition useAgent (agentId signer : string) :=
query_hook agentRegistryClient [agentId; signer]
  (fun c cfg => AgentRegistryClient.getAgent c cfg agentId signer).

(** ** Mutation hooks: the functions handed to [useAsyncMutation] *)
Record InvoiceMutations := {
im_create : string -> string -> Z -> num -> SDKConfig -> IO string;
im_listForFinancing : string -> num -> SDKConfig -> IO bool;
im_markShipped : string -> SDKConfig -> IO bool;
im_confirmDelivery : string -> string -> SDKConfig -> IO bool;
im_repay : string -> SDKConfig -> IO bool;
im_triggerDefault : string -> SDKConfig -> IO bool }.

Definition useInvoiceMutations (signer : string) (cell : option memo) (o : options) (fresh : nat) :
  res (memo * InvoiceMutations) :=
m ← useMemoClient invoiceClient cell o fresh;
let c := client (m_value m) in
Ok (m, {|
  im_create := fun issuer buyer faceValue dueDate cfg =>
    InvoiceClient.create c cfg issuer buyer faceValue dueDate signer;
  im_listForFinancing := fun id discountBps cfg =>
    InvoiceClient.listForFinancing c cfg id discountBps signer;
  im_markShipped := fun id cfg => InvoiceClient.markShipped c cfg id signer;
  im_confirmDelivery := fun id confirmer cfg =>
    InvoiceClient.confirmDelivery c cfg id confirmer signer;
  im_repay := fun id cfg => InvoiceClient.repay c cfg id signer;
  im_triggerDefault := fun id cfg => InvoiceClient.triggerDefault c cfg id signer |}).

Record PoolMutations := {
pm_deposit : string -> Z -> SDKConfig -> IO string;
pm_withdraw : string -> Z -> SDKConfig -> IO string;
pm_fundInvoice : string -> SDKConfig -> IO bool;
pm_receiveRepayment : string -> Z -> SDKConfig -> IO bool }.

Definition usePoolMutations (signer : string) (cell : option memo) (o : options) (fresh : nat) :
  res (memo * PoolMutations) :=
m ← useMemoClient poolClient cell o fresh;
let c := client (m_value m) in
Ok (m, {|
  pm_deposit := fun lp amount cfg => PoolClient.deposit c cfg lp amount signer;
  pm_withdraw := fun lp shares cfg => PoolClient.withdraw c cfg lp shares signer;
  pm_fundInvoice := fun id cfg => PoolClient.fundInvoice c cfg id signer;
  pm_receiveRepayment := fun id amount cfg => PoolClient.receiveRepayment c cfg id amount signer |}).

Record RegistryMutations := {
rm_registerIssuer : string -> fields -> SDKConfig -> IO string;
rm_registerBuyer : string -> fields -> SDKConfig -> IO string;
rm_revoke : string -> SDKConfig -> IO string }.

Definition useRegistryMutations (signer : string) (cell : option memo) (o : options) (fresh : nat) :
  res (memo * RegistryMutations) :=
m ← useMemoClient registryClient cell o fresh;
let c := client (m_value m) in
Ok (m, {|
  rm_registerIssuer := fun a md cfg => RegistryClient.registerIssuer c cfg a md signer;
  rm_registerBuyer := fun a md cfg => RegistryClient.registerBuyer c cfg a md signer;
  rm_revoke := fun a cfg => RegistryClient.revoke c cfg a signer |}).

Record EscrowMutations := {
em_lock : string -> Z -> SDKConfig -> IO bool;
em_releaseToIssuer : string -> SDKConfig -> IO bool;
em_releaseToPool : string -> Z -> SDKConfig -> IO bool;
em_handleDefault : string -> SDKConfig -> IO bool }.

Definition useEscrowMutations (signer : string) (cell : option memo) (o : options) (fresh : nat) :
  res (memo * EscrowMutations) :=
m ← useMemoClient escrowClient cell o fresh;
let c := client (m_value m) in
Ok (m, {|
  em_lock := fun id amount cfg => EscrowClient.lock c cfg id amount signer;
  em_releaseToIssuer := fun id cfg => EscrowClient.releaseToIssuer c cfg id signer;
  em_releaseToPool := fun id amount cfg => EscrowClient.releaseToPool c cfg id amount signer;
  em_handleDefault := fun id cfg => EscrowClient.handleDefault c cfg id signer |}).

Record ApproveMutation := { am_approve : string -> string -> Z -> num -> SDKConfig -> IO string }.

Definition useApprove (signer : string) (cell : option memo) (o : options) (fresh : nat) :
  res (memo * ApproveMutation) :=
m ← useMemoClient tokenClient cell o fresh;
let c := client (m_value m) in
Ok (m, {| am_approve := fun from spender amount ledger cfg =>
            TokenClient.approve c cfg from spender amount ledger signer |}).

(** ** Properties *)

(** A render that fails, or the dependency list and the memo cell it leaves. *)
Definition outcome {A} (r : res (rendered A)) : res (list dep * memo) :=
match r with Ok x => Ok (r_deps _ x, r_memo _ x) | Throw e => Throw e end.

Definition hook := option memo -> options -> nat -> res (list dep * memo).

(** Every query hook, at the arguments of one render. *)
Definition query_hooks (st : InvoiceStatus) (a b id signer : string) : list hook := [
fun m o n => outcome (useInvoicesByStatus st signer m o n);
fun m o n => outcome (useInvoicesByIssuer a signer m o n);
fun m o n => outcome (useInvoicesByBuyer a signer m o n);
fun m o n => outcome (useInvoice id signer m o n);
fun m o n => outcome (usePoolStats signer m o n);
fun m o n => outcome (useLPPosition a signer m o n);
fun m o n => outcome (useUtilizationRate signer m o n);
fun m o n => outcome (useIsVerified a signer m o n);
fun m o n => outcome (useProfile a signer m o n);
fun m o n => outcome (useLockedAmount id signer m o n);
fun m o n => outcome (useAllowance a b signer m o n);
fun m o n => outcome (useAgent a signer m o n)].

Lemma useMemoClient_deps resolve cell o fresh m :
useMemoClient resolve cell o fresh = Ok m -> m_deps m = memo_deps o.
Proof.
unfold useMemoClient. destruct cell as [m'|].
- case_bool_decide; [by intros [= <-]|]. by intros (c & _ & [= <-])%bind_ok.
- by intros (c & _ & [= <-])%bind_ok.
Qed.

Lemma useMemoClient_hit resolve m o fresh :
m_deps m = memo_deps o -> useMemoClient resolve (Some m) o fresh = Ok m.
Proof. intros H. unfold useMemoClient. by rewrite bool_decide_true. Qed.

(** Re-rendering: [later] has the same contents as [o], as fresh objects or not. *)
Lemma query_hook_stable {A} resolve args (fetch : BaseContractClient -> SDKConfig -> IO A) cell o n d m :
outcome (query_hook resolve args fetch cell o n) = Ok (d, m) ->
forall later n', memo_deps later = memo_deps o ->
  outcome (query_hook resolve args fetch (Some m) later n') = Ok (d, m).
Proof.
unfold query_hook. destruct (useMemoClient resolve cell o n) as [m'|] eqn:E; [|done].
intros [= <- <-] later n' H. apply useMemoClient_deps in E.
by rewrite useMemoClient_hit by congruence.
Qed.

(** Once a query hook has rendered, re-rendering it with the same arguments and
    options of the same contents (an inline [{ contractId }] literal, say) keeps the
    client object and the dependency list, so no request is repeated. *)
Theorem query_hooks_stable st a b id signer :
Forall (fun h : hook => forall cell o n d m, h cell o n = Ok (d, m) ->
   forall later n', memo_deps later = memo_deps o -> h (Some m) later n' = Ok (d, m))
  (query_hooks st a b id signer).
Proof.
unfold query_hooks.
repeat (apply list.Forall_cons; split; [intros cell o n d m; apply query_hook_stable|]).
by apply list.Forall_nil.
Qed.

Lemma resolve_injected message c cid fresh :
resolve_client message {| opt_client := Some c; opt_contractId := cid |} fresh = Ok c.
Proof. done. Qed.

Lemma resolve_nothing message fresh cid :
opt_str_truthy cid = false ->
resolve_client message {| opt_client := None; opt_contractId := cid |} fresh = throw_error message.
Proof. intros H. unfold resolve_client. cbn. by rewrite H. Qed.
End Hooks.
