(* ===== verification/Cli.v ===== *)
(** * The command line ([packages/cli/src], [examples/sdk-quickstart])

    [list-invoices] and [check-pool-balance] over the SDK clients: option and environment
    precedence, the table renderer, due dates, and what goes to stdout, stderr and the
    exit code.  [commander]'s own parsing is not modelled: a command starts from its
    parsed options. *)

From S2P Require Import Prelude JsNumber JsString JsValue JsDate Amounts Effects SdkConfig SdkTypes Schemas Base.
From S2P Require Import Clients.
Local Open Scope Z_scope.

Definition INVOICE_STATUSES : list InvoiceStatus :=
  [Created; Listed; Funded; Active; Confirmed; Repaid; Defaulted].
Definition PUBLIC_KEY_ENV_VAR : string := "TRUSTTROVE_PUBLIC_KEY".
Definition CONTRACT_ID_ENV_VAR : string := "INVOICE_CONTRACT_ID".
Definition TABLE_HEADERS : list string := ["ID"; "ISSUER"; "BUYER"; "FACE VALUE"; "STATUS"; "DUE DATE"].

Definition ListInvoicesError (message : string) : jsval :=
  JErr CListInvoicesError message [("name", JStr "ListInvoicesError")].

Record ListInvoicesOptions := {
  o_status : option string; o_issuer : option string;
  o_publicKey : option string; o_contractId : option string }.

Abbreviation env_vars := (gmap string string).

Definition parseInvoiceStatus (value : string) : res InvoiceStatus :=
  let normalized := Str.to_lower (Str.trim value) in
  match find (fun st => String.eqb (Str.to_lower (status_name st)) normalized) INVOICE_STATUSES with
  | Some st => Ok st
  | None => Throw (ListInvoicesError
      ("Unknown status " +:+ String (chr 34) (value +:+ String (chr 34)
       (". Expected one of: " +:+ Str.join ", " (map status_name INVOICE_STATUSES) +:+ "."))))
  end.

Definition resolvePublicKey (e : env_vars) (o : ListInvoicesOptions) : res string :=
  let publicKey := Str.trim (nullish (or_nullish (o_publicKey o) (e !! PUBLIC_KEY_ENV_VAR)) "") in
  if String.eqb publicKey "" then
    Throw (ListInvoicesError
      ("A Stellar public key is required for the read-only simulation call. " +:+
       "Pass --public-key <key> or set " +:+ PUBLIC_KEY_ENV_VAR +:+ "."))
  else Ok publicKey.

Definition resolveContractId (e : env_vars) (o : ListInvoicesOptions) : res string :=
  let contractId := Str.trim (nullish (or_nullish (o_contractId o) (e !! CONTRACT_ID_ENV_VAR)) "") in
  if String.eqb contractId "" then
    Throw (ListInvoicesError
      ("The invoice contract ID is required. Pass --contract-id <id> or set " +:+
       CONTRACT_ID_ENV_VAR +:+ " (see .env.example)."))
  else Ok contractId.

Inductive Filter := ByStatus (s : InvoiceStatus) | ByIssuer (a : string).

Definition resolveFilter (o : ListInvoicesOptions) : res Filter :=
  let status := Str.trim <$> o_status o in
  let issuer := Str.trim <$> o_issuer o in
  if opt_str_truthy status && opt_str_truthy issuer then
    Throw (ListInvoicesError
      "Choose one filter: pass either --status <status> or --issuer <address>, not both.")
  else if negb (opt_str_truthy status) && negb (opt_str_truthy issuer) then
    Throw (ListInvoicesError "A filter is required. Pass --status <status> or --issuer <address>.")
  else if opt_str_truthy status then
    ByStatus <$> parseInvoiceStatus (default "" status)
  else Ok (ByIssuer (default "" issuer)).

(** [None] is [null] or [undefined]. *)
Definition formatDueDate (dueDate : option num) : res string :=
  match dueDate with
  | None => Ok em_dash
  | Some d =>
      if negb (Num.truthy d) then Ok em_dash
      else Str.slice 0 10 <$> Date.toISOString (Num.mul d (Num.of_Z 1000))
  end.

(** ** The table *)
Definition column_widths (headers : list string) (rows : list (list string)) : list nat :=
  imap (fun index header =>
    foldl (fun width (row : list string) => Nat.max width (Str.len (default "" (row !! index))))
      (Str.len header) rows) headers.

(** [cells.map((cell, i) => cell.padEnd(widths[i])).join("  ")]: a cell beyond the last
    column has width [undefined] and is not padded. *)
Definition row_line (widths : list nat) (cells : list string) : string :=
  Str.join "  " (imap (fun i cell => Str.pad_end (default O (widths !! i)) " " cell) cells).
Definition render_row (widths : list nat) (cells : list string) : string :=
  Str.trim_end (row_line widths cells).

Definition formatTable (headers : list string) (rows : list (list string)) : string :=
  let widths := column_widths headers rows in
  Str.join (String (chr 10) "")
    (render_row widths headers ::
     Str.join "  " (map (fun w => Str.repeat w "-") widths) ::
     map (render_row widths) rows).

Definition invoice_row (i : Invoice) : res (list string) :=
  due ← formatDueDate (Some (inv_dueDate i));
  Ok [inv_id i; inv_issuer i; inv_buyer i;
      toUsdc (inv_faceValue i) +:+ " " +:+ asset_name (inv_asset i);
      status_name (inv_status i); due].

Definition formatInvoiceTable (invoices : list Invoice) : res string :=
  rows ← map_result invoice_row invoices;
  Ok (formatTable TABLE_HEADERS rows).

Definition formatUsdc (value : Z) : string := toUsdc value.

Record CheckPoolBalanceOptions := { b_publicKey : option string; b_poolContractId : option string }.

Definition POOL_CONTRACT_ID_ENV_VARS : list string :=
  ["TRUSTTROVE_POOL_CONTRACT_ID"; "NEXT_PUBLIC_POOL_CONTRACT_ID"; "POOL_CONTRACT_ID"].

(** What a command leaves behind. *)
Record output := { stdout : list string; stderr : list string; exitCode : Z }.
Definition no_output : output := {| stdout := []; stderr := []; exitCode := 0 |}.
Definition log (line : string) (o : output) : output :=
  {| stdout := stdout o ++ [line]; stderr := stderr o; exitCode := exitCode o |}.
Definition failed (line : string) (o : output) : output :=
  {| stdout := stdout o; stderr := stderr o ++ [line]; exitCode := 1 |}.

(** [error instanceof Error ? error.message : other]. *)
Definition message_or (other : jsval -> string) (error : jsval) : string :=
  match error with JErr _ m _ => m | _ => other error end.

Section Commands.
Context `{Sdk : StellarSdk} {Enc : Encoders} {Env : Type} {Srv : Services Env} {zod : Zod}.
Abbreviation IO := (M Env Event).

Definition listInvoices (e : env_vars) (config : SDKConfig)
  (createClient : option (string -> res BaseContractClient)) (o : ListInvoicesOptions) :
  IO (list Invoice * string) :=
publicKey ← lift (resolvePublicKey e o);
contractId ← lift (resolveContractId e o);
filter ← lift (resolveFilter o);
client ← lift (nullish createClient (fun id => new_BaseContractClient id None None) contractId);
raw ← match filter with
      | ByStatus s => InvoiceClient.getByStatus client config s publicKey
      | ByIssuer a => InvoiceClient.getByIssuer client config a publicKey
      end;
invoices ← lift (map_result (typed invoice_of) raw);
table ← lift (formatInvoiceTable invoices);
mret (invoices, table).

(** The action of [registerListInvoicesCommand]. *)
Definition listInvoicesAction (e : env_vars) (config : SDKConfig) (o : ListInvoicesOptions) : IO output :=
catch
  (r ← listInvoices e config None o;
   let out := log r.2 no_output in
   mret (if bool_decide (length r.1 = O)
         then log (String (chr 10) "No invoices found.") out else out))
  (fun error => mret (failed ("Error: " +:+ message_or to_str error) no_output)).

Definition checkPoolBalanceCommand (e : env_vars) (config : SDKConfig) (o : CheckPoolBalanceOptions) :
  IO output :=
let publicKey :=
  or_nullish (b_publicKey o) (or_nullish (e !! "TRUSTTROVE_PUBLIC_KEY")
    (or_nullish (e !! "NEXT_PUBLIC_PUBLIC_KEY") (e !! "PUBLIC_KEY"))) in
if negb (opt_str_truthy publicKey) then
  mret (failed "Missing public key. Provide --public-key or set TRUSTTROVE_PUBLIC_KEY." no_output)
else
  let poolContractId :=
    nullish (or_nullish (b_poolContractId o)
      (or_nullish (e !! "TRUSTTROVE_POOL_CONTRACT_ID")
        (or_nullish (e !! "NEXT_PUBLIC_POOL_CONTRACT_ID") (e !! "POOL_CONTRACT_ID"))))
      (id_pool (cfg_contractIds config)) in
  if String.eqb poolContractId "" then
    mret (failed ("Missing pool contract ID. Provide --pool-contract-id or set " +:+
      Str.join ", " POOL_CONTRACT_ID_ENV_VARS +:+ " (see .env.example).") no_output)
  else
    catch
      (client ← lift (new_BaseContractClient poolContractId None None);
       raw ← PoolClient.getStats client config (default "" publicKey);
       stats ← lift (typed poolstats_of raw);
       mret (
         log ("totalYieldDistributed: " +:+ formatUsdc (ps_totalYieldDistributed stats) +:+ " USDC") (
         log ("utilizationRateBps: " +:+ Num.to_string (ps_utilizationRateBps stats) +:+ " (" +:+
              Num.to_fixed (Num.div (ps_utilizationRateBps stats) (Num.of_Z 100)) 2 +:+ "%)") (
         log ("availableLiquidity: " +:+ formatUsdc (ps_availableLiquidity stats) +:+ " USDC") (
         log ("totalDeposits: " +:+ formatUsdc (ps_totalDeposits stats) +:+ " USDC") (
         log ("Pool contract: " +:+ poolContractId) no_output))))))
      (fun error => mret (failed ("Failed to fetch pool stats: " +:+
                                  message_or (fun _ => "unknown error") error) no_output)).
End Commands.

(** [readVersion()]: [pkg] is the parsed [package.json], or why it could not be read. *)
Definition readVersion (pkg : res jsval) : jsval :=
  match pkg with
  | Throw _ => JStr "0.0.0"
  | Ok v => if is_nullish v then JStr "0.0.0" else js_nullish (field v "version") (JStr "0.0.0")
  end.

(** The quickstart's configuration: environment overrides of the testnet deployment. *)
Definition quickstart_config (e : env_vars) : PartialConfig := {|
  p_horizonUrl := Some (nullish (e !! "HORIZON_URL") "https://horizon-testnet.stellar.org");
  p_sorobanRpcUrl := Some (nullish (e !! "SOROBAN_RPC_URL") "https://soroban-testnet.stellar.org");
  p_networkPassphrase := Some (nullish (e !! "NETWORK_PASSPHRASE") "Test SDF Network ; September 2015");
  p_contractIds := Some {|
    p_registry := Some (nullish (e !! "REGISTRY_CONTRACT_ID")
                          "CABGWVIZFF62FG67ZGFEP67NEEY4WYTMFURDMFTKKNRDAFPKPOJDTN4C");
    p_invoice := Some (nullish (e !! "INVOICE_CONTRACT_ID")
                         "CA4O3MR7LWHRSUDBNU6FY6UDFFYBN7TGBZXBDZB4OYYXFYXIFJ6RJF6B");
    p_pool := Some (nullish (e !! "POOL_CONTRACT_ID")
                      "CAKEWH7SJCXGV2MH2WZYIX3QDPTSSBQFXYVYBOWAGLNBBZMPLE2US6CS");
    p_escrow := Some (nullish (e !! "ESCROW_CONTRACT_ID")
                        "CAJWGUKDTTC3SKN4RAAY72J4DVIIYSCFHX6GIMNTT22ABMISJK4GBCEH");
    p_agentRegistry := Some (nullish (e !! "AGENT_REGISTRY_CONTRACT_ID") "") |};
  p_usdc := None |}.

Example cli_tests :
  formatDueDate (Some (Num.of_Z 1700000000)) = Ok "2023-11-14" /\
  formatDueDate (Some Num.zero) = Ok em_dash /\ formatDueDate None = Ok em_dash /\
  is_ok (formatDueDate (Some Num.infinity)) = false /\
  parseInvoiceStatus " LISTED " = Ok Listed /\
  formatTable ["A"; "BB"] [["xyz"; "1"]; ["x"; ""]] =
    Str.join (String (chr 10) "") ["A    BB"; "---  --"; "xyz  1"; "x"].
Proof. vm_compute. repeat split. Qed.

(** ** Properties of the options *)

(** [--status] accepts exactly the seven status names, in any letter case and
    with surrounding blanks, and resolves each to its own status. *)
Theorem parseInvoiceStatus_spec value st :
  parseInvoiceStatus value = Ok st <->
  Str.to_lower (Str.trim value) = Str.to_lower (status_name st).
Proof.
  unfold parseInvoiceStatus. generalize (Str.to_lower (Str.trim value)). intros n.
  destruct (find _ INVOICE_STATUSES) as [st'|] eqn:E.
  - apply find_some in E as [_ E]. apply String.eqb_eq in E. split.
    + intros [= <-]. done.
    + intros ->. f_equal. by destruct st, st'.
  - split; [done|]. intros ->. exfalso. by destruct st; vm_compute in E.
Qed.

(** ** Properties of the table *)

(** Where column [i] starts: the columns before it and two blanks after each. *)
Fixpoint offset (widths : list nat) (i : nat) : nat :=
  match widths, i with
  | w :: r, S j => w + 2 + offset r j
  | _, _ => 0
  end%nat.

Lemma drop_app_exact a b n : Str.drop (Str.len a + n) (a +:+ b) = Str.drop n b.
Proof. induction a as [|c a IH]; [done|]. exact IH. Qed.

Lemma slice_app_exact p rest : Str.slice 0 (Str.len p) (p +:+ rest) = p.
Proof.
  unfold Str.slice. rewrite Nat.sub_0_r. change (Str.drop 0 (p +:+ rest)) with (p +:+ rest).
  apply take_app_exact.
Qed.

Lemma join_slice ps i p :
  ps !! i = Some p ->
  Str.slice (offset (map String.length ps) i) (offset (map String.length ps) i + Str.len p)
    (Str.join "  " ps) = p.
Proof.
  revert i. induction ps as [|q ps IH]; intros i; [done|].
  assert (Hhead : forall rest, Str.slice 0 (0 + Str.len q) (q +:+ rest) = q)
    by apply slice_app_exact.
  destruct i as [|i]; cbn [lookup list_lookup].
  - intros [= ->]. destruct ps as [|q' ps]; cbn [Str.join offset map].
    + specialize (Hhead ""). by rewrite app_nil_str in Hhead.
    + apply Hhead.
  - intros Hi. destruct ps as [|q' ps]; [done|].
    specialize (IH i Hi).
    change (offset (map String.length (q :: q' :: ps)) (S i))
      with (Str.len q + 2 + offset (map String.length (q' :: ps)) i)%nat.
    set (o := offset (map String.length (q' :: ps)) i) in *.
    change (Str.join "  " (q :: q' :: ps)) with (q +:+ "  " +:+ Str.join "  " (q' :: ps)).
    unfold Str.slice in *.
    replace (Str.len q + 2 + o + Str.len p - (Str.len q + 2 + o))%nat with (o + Str.len p - o)%nat by lia.
    replace (Str.len q + 2 + o)%nat with (Str.len q + (2 + o))%nat by lia.
    by rewrite drop_app_exact.
Qed.

Lemma foldl_max_ge rows i n :
  (n <= foldl (fun width (row : list string) => Nat.max width (Str.len (default "" (row !! i)))) n rows)%nat.
Proof.
  revert n. induction rows as [|r rows IH]; intros n; cbn; [lia|]. etrans; [|apply IH]. lia.
Qed.

Lemma foldl_max_in (row : list string) rows i n : row ∈ rows ->
  (Str.len (default "" (row !! i)) <=
   foldl (fun width (row : list string) => Nat.max width (Str.len (default "" (row !! i)))) n rows)%nat.
Proof.
  revert n. induction rows as [|r rows IH]; intros n; [set_solver|].
  rewrite elem_of_cons. intros [->|H]; cbn; [|by apply IH].
  etrans; [|apply foldl_max_ge]. lia.
Qed.

Lemma column_width_fits headers rows row i cell w :
  row ∈ headers :: rows -> row !! i = Some cell -> column_widths headers rows !! i = Some w ->
  (Str.len cell <= w)%nat.
Proof.
  unfold column_widths. rewrite list_lookup_imap. intros Hin Hc Hw.
  destruct (headers !! i) as [h|] eqn:Hh; [|done]. injection Hw as <-.
  apply elem_of_cons in Hin as [->|Hin].
  - rewrite Hc in Hh. injection Hh as <-. apply foldl_max_ge.
  - pose proof (foldl_max_in row rows i (Str.len h) Hin) as H. by rewrite Hc in H.
Qed.

(** The table has fixed columns: in the line of the header and of every row,
    column [i] starts at the same offset, is exactly as wide as its widest cell, and
    holds the cell followed by blanks. *)
Theorem formatTable_aligned headers rows row i cell
    (Hrow : row ∈ headers :: rows) (Hlen : (length row <= length headers)%nat)
    (Hcell : row !! i = Some cell) :
  exists w, column_widths headers rows !! i = Some w /\ (Str.len cell <= w)%nat /\
    let o := offset (column_widths headers rows) i in
    Str.slice o (o + w) (row_line (column_widths headers rows) row) = Str.pad_end w " " cell.
Proof.
  set (ws := column_widths headers rows).
  assert (Hws : length ws = length headers) by apply length_imap.
  destruct (lookup_lt_is_Some_2 ws i) as [w Hw].
  { rewrite Hws. apply lookup_lt_Some in Hcell. lia. }
  assert (Hfit : forall j c v, row !! j = Some c -> ws !! j = Some v -> (Str.len c <= v)%nat).
  { intros j c v. by apply column_width_fits. }
  exists w. split; [done|]. split; [by eapply Hfit|]. cbn zeta.
  set (ps := imap (fun i cell => Str.pad_end (default O (ws !! i)) " " cell) row).
  assert (Hp : ps !! i = Some (Str.pad_end w " " cell)).
  { unfold ps. rewrite list_lookup_imap, Hcell. cbn. by rewrite Hw. }
  assert (Hpl : map String.length ps = take (length row) ws).
  { apply list_eq. intros j. rewrite list_lookup_fmap. unfold ps. rewrite list_lookup_imap.
    destruct (row !! j) as [c|] eqn:Hj.
    - pose proof (lookup_lt_Some _ _ _ Hj) as Hlt.
      destruct (lookup_lt_is_Some_2 ws j) as [v Hv]; [lia|].
      rewrite lookup_take_lt, Hv by done. cbn. f_equal.
      apply pad_end_len. by eapply Hfit.
    - cbn. symmetry. apply lookup_take_ge. by apply lookup_ge_None in Hj. }
  assert (Hoff : forall (l : list nat) n j, (j < n)%nat -> offset (take n l) j = offset l j).
  { clear. induction l as [|x l IH]; intros n j Hj; [by rewrite take_nil|].
    destruct n as [|n]; [lia|]. destruct j as [|j]; [done|]. cbn. by rewrite IH by lia. }
  pose proof (join_slice ps i _ Hp) as H.
  rewrite Hpl, Hoff in H by by eapply lookup_lt_Some.
  rewrite pad_end_len in H by by eapply Hfit. exact H.
Qed.

Lemma formatTable_aligned_witness :
  Str.slice 5 9 (row_line (column_widths ["A"; "BB"] [["xyz"; "1234"]]) ["A"; "BB"]) = "BB  ".
Proof.
  destruct (formatTable_aligned ["A"; "BB"] [["xyz"; "1234"]] ["A"; "BB"] 1 "BB")
    as (w & Hw & _ & H); [by left | cbn; lia | reflexivity |].
  injection Hw as <-. exact H.
Defined.

(** A due date up to the year 9999 is rendered as the ten-character date
    of the day it falls on, in the Gregorian calendar. *)
Theorem formatDueDate_day d t
    (Hd : Num.truthy d = true) (Ht : Date.time_clip (Num.mul d (Num.of_Z 1000)) = Some t)
    (Hy : 0 <= Date.year_of_day (t / Date.ms_per_day) <= 9999) :
  exists y m dd,
    formatDueDate (Some d) =
      Ok (Str.pad_start 4 "0" (Num.bigint_to_string y) +:+ "-" +:+
          Str.pad_start 2 "0" (Num.bigint_to_string m) +:+ "-" +:+
          Str.pad_start 2 "0" (Num.bigint_to_string dd)) /\
    Date.day_of_civil y m dd = t / Date.ms_per_day /\ 1 <= m <= 12 /\ 1 <= dd <= 31.
Proof.
  pose proof (civil_spec (t / Date.ms_per_day)) as Hc.
  destruct (Date.civil (t / Date.ms_per_day)) as [[y m] dd] eqn:E.
  destruct Hc as (Hday & Hm & Hdd).
  assert (y = Date.year_of_day (t / Date.ms_per_day)) as Hyy by (unfold Date.civil in E; congruence).
  assert (Hdd' : 1 <= dd <= 31).
  { split; [lia|]. etrans; [apply Hdd|]. unfold Date.days_before.
    destruct (Date.leap y); repeat (case_match; try lia). }
  exists y, m, dd. split; [|done].
  unfold formatDueDate. rewrite Hd. cbn [negb]. unfold Date.toISOString. rewrite Ht.
  unfold Date.iso_date. rewrite E. unfold Date.iso_year.
  rewrite (proj2 (Z.leb_le 0 y)), (proj2 (Z.leb_le y 9999)) by lia. cbn [andb].
  unfold Date.pad2.
  assert (Hlen : forall z n, 0 <= z < 10 ^ Z.of_nat (S n) ->
      Str.len (Str.pad_start (S n) "0" (Num.bigint_to_string z)) = S n).
  { intros z n Hz. apply pad_start_len. unfold Num.bigint_to_string.
    rewrite (proj2 (Z.ltb_ge z 0)) by lia. by apply digits_len. }
  assert (H4 := Hlen y 3%nat). assert (H2 := Hlen m 1%nat). assert (H2' := Hlen dd 1%nat).
  set (a := Str.pad_start 4 "0" (Num.bigint_to_string y)) in *.
  set (b := Str.pad_start 2 "0" (Num.bigint_to_string m)) in *.
  set (c := Str.pad_start 2 "0" (Num.bigint_to_string dd)) in *.
  cbn [fmap result_fmap]. f_equal.
  assert (Hl : Str.len (a +:+ "-" +:+ b +:+ "-" +:+ c) = 10%nat).
  { rewrite !app_len. rewrite H4, H2, H2'; [done | lia..]. }
  rewrite <- Hl. apply slice_app_exact.
Qed.

Lemma formatDueDate_day_witness :
  exists y m dd, formatDueDate (Some (Num.of_Z 1700000000)) = Ok "2023-11-14" /\
    Date.day_of_civil y m dd = 1700000000000 / Date.ms_per_day.
Proof.
  destruct (formatDueDate_day (Num.of_Z 1700000000) 1700000000000) as (y & m & dd & _ & H & _);
    [reflexivity | vm_compute; reflexivity | vm_compute; split; discriminate |].
  exists y, m, dd. split; [vm_compute; reflexivity | exact H].
Defined.

(** ** Properties of the commands *)
Section CommandProperties.
Context `{Sdk : StellarSdk} {Enc : Encoders} {Env : Type} {Srv : Services Env} {zod : Zod}.

Abbreviation reads l := (Forall (fun e => read_only e = true) l).

(** Success writes to stdout only; failure writes one line to stderr, nothing to
    stdout, and sets the exit code. *)
Definition reported (o : output) : Prop :=
(exitCode o = 0 /\ stderr o = [] /\ stdout o <> []) \/
(exitCode o = 1 /\ stdout o = [] /\ length (stderr o) = 1%nat).

(** A command that reads and, when it returns, has reported. *)
Definition well_behaved (m : M Env Event output) : Prop :=
trace_spec m (fun l r => reads l /\ exists o, r = Ok o /\ reported o).

Lemma failed_reported line : reported (failed line no_output).
Proof. by right. Qed.

Lemma catch_reported (m : M Env Event output) (h : jsval -> string) :
trace_spec m (fun l r => reads l /\ forall o, r = Ok o -> reported o) ->
well_behaved (catch m (fun e => mret (failed (h e) no_output))).
Proof.
intros H. apply trace_try. eapply trace_weaken; [exact H|]. intros l [o|e] [Hl Ho].
- eauto.
- apply trace_ret. rewrite app_nil_r. split; [done|]. eexists. split; [done | apply failed_reported].
Qed.

(** After reads, a pure rest. *)
Lemma seq_reads {A B} (m : M Env Event A) (k : A -> M Env Event B) (P : B -> Prop) :
emits (fun e => read_only e = true) m ->
(forall a, trace_spec (k a) (fun l r => reads l /\ forall o, r = Ok o -> P o)) ->
trace_spec (m ≫= k) (fun l r => reads l /\ forall o, r = Ok o -> P o).
Proof.
intros Hm Hk. apply trace_seq. eapply trace_weaken; [exact Hm|]. cbn. intros l [a|e] Hl; [|done].
eapply trace_weaken; [apply Hk|]. cbn. intros l' r [Hl' Hr]. split; [by apply Forall_app | done].
Qed.

Lemma listInvoices_reads e config create o :
emits (fun e => read_only e = true) (listInvoices e config create o).
Proof.
unfold listInvoices.
repeat (apply emits_bind; [apply emits_lift | intros ?]).
apply emits_bind; [case_match; apply read_emits | intros ?].
repeat (apply emits_bind; [apply emits_lift | intros ?]). apply emits_ret.
Qed.

(** Both commands always return (no exception reaches the command router), only
    read from the chain, and either print their result with exit code 0 or print one
    error line with exit code 1. *)
Theorem cli_commands_report e config lo bo env :
(let '(r, l) := run (listInvoicesAction e config lo) env in
 reads l /\ exists o, r = Ok o /\ reported o) /\
(let '(r, l) := run (checkPoolBalanceCommand e config bo) env in
 reads l /\ exists o, r = Ok o /\ reported o).
Proof.
assert (H : forall m, well_behaved m -> let '(r, l) := run m env in
   reads l /\ exists o, r = Ok o /\ reported o).
{ intros m Hm. pose proof (trace_run _ _ env Hm) as Hr. by destruct (run m env). }
split; apply H.
- unfold listInvoicesAction. apply catch_reported.
  apply seq_reads; [apply listInvoices_reads|]. intros [invs table].
  apply trace_ret. split; [constructor|]. intros o [= <-]. left.
  by case_bool_decide.
- unfold checkPoolBalanceCommand.
  case_match; [apply trace_ret; eauto using failed_reported|].
  case_match; [apply trace_ret; eauto using failed_reported|].
  apply catch_reported.
  apply seq_reads; [apply emits_lift|]. intros client.
  apply seq_reads; [apply read_emits|]. intros raw.
  apply seq_reads; [apply emits_lift|]. intros stats.
  apply trace_ret. split; [constructor|]. intros o [= <-]. by left.
Qed.

(** *** Wrong options *)
(** An option, or the environment variable in its place. *)
Definition setting (given variable : option string) : option string := match given with Some _ => given | None => variable end.
Definition blank (value : option string) : Prop := match value with Some text => Str.trim text = "" | None => True end.
Definition names_status (text : string) (st : InvoiceStatus) : Prop :=
  Str.to_lower (Str.trim text) = Str.to_lower (status_name st).
Inductive wrong (e : env_vars) (o : ListInvoicesOptions) : Prop :=
  | no_key : blank (setting (o_publicKey o) (e !! "TRUSTTROVE_PUBLIC_KEY")) -> wrong e o
  | no_contract : blank (setting (o_contractId o) (e !! "INVOICE_CONTRACT_ID")) -> wrong e o
  | no_filter : blank (o_status o) -> blank (o_issuer o) -> wrong e o
  | two_filters : ~ blank (o_status o) -> ~ blank (o_issuer o) -> wrong e o
  | no_status text : o_status o = Some text -> Str.trim text <> "" -> (forall st, ~ names_status text st) -> wrong e o.
(** What the options ask for when they are right. *)
Definition asks (o : ListInvoicesOptions) (f : Filter) : Prop :=
  match f with
  | ByStatus st => exists text, o_status o = Some text /\ names_status text st
  | ByIssuer a => exists text, o_issuer o = Some text /\ a = Str.trim text /\ a <> ""
  end.
(** The command from the moment it builds its client. *)
Definition request (config : SDKConfig) (create : option (string -> res BaseContractClient)) (key contract : string) (f : Filter) :
  M Env Event (list Invoice * string) :=
client ← lift (nullish create (fun id => new_BaseContractClient id None None) contract);
raw ← match f with
      | ByStatus s => InvoiceClient.getByStatus client config s key
      | ByIssuer a => InvoiceClient.getByIssuer client config a key
      end;
invoices ← lift (map_result (typed invoice_of) raw);
table ← lift (formatInvoiceTable invoices);
mret (invoices, table).

Lemma trim_end_twice s : Str.trim_end (Str.trim_end s) = Str.trim_end s.
Proof.
  induction s as [|c r IH]; [done|]. cbn [Str.trim_end]. destruct (Str.trim_end r) as [|x r'] eqn:E.
  - destruct (Str.is_space c) eqn:Hc; [done|]. cbn. by rewrite Hc.
  - cbn [Str.trim_end] in *. by rewrite IH.
Qed.
Lemma trim_start_first s : Str.trim_start s = "" \/ exists c r, Str.trim_start s = String c r /\ Str.is_space c = false.
Proof.
  induction s as [|c r IH]; [by left|]. cbn. destruct (Str.is_space c) eqn:Hc; [done|]. right. by exists c, r.
Qed.
Lemma trim_twice s : Str.trim (Str.trim s) = Str.trim s.
Proof.
  unfold Str.trim. destruct (trim_start_first s) as [->|(c & r & -> & Hc)]; [done|].
  assert (E : exists r', Str.trim_end (String c r) = String c r').
  { cbn. destruct (Str.trim_end r); [rewrite Hc|]; by eexists. }
  destruct E as [r' E]. rewrite E. cbn [Str.trim_start]. rewrite Hc, <- E. apply trim_end_twice.
Qed.
Lemma setting_text opt var : nullish (or_nullish opt var) "" = default "" (setting opt var).
Proof. by destruct opt, var. Qed.
Lemma blank_text value : blank value <-> Str.trim (default "" value) = "".
Proof. by destruct value. Qed.
Lemma key_checked e o : match resolvePublicKey e o with
  | Ok k => ~ blank (setting (o_publicKey o) (e !! "TRUSTTROVE_PUBLIC_KEY")) /\
            k = Str.trim (default "" (setting (o_publicKey o) (e !! "TRUSTTROVE_PUBLIC_KEY")))
  | Throw err => blank (setting (o_publicKey o) (e !! "TRUSTTROVE_PUBLIC_KEY")) /\ instance_of CListInvoicesError err = true
  end.
Proof.
  unfold resolvePublicKey. rewrite setting_text. cbv zeta. case (String.eqb_spec _ ""); intros E; by rewrite blank_text.
Qed.
Lemma contract_checked e o : match resolveContractId e o with
  | Ok k => ~ blank (setting (o_contractId o) (e !! "INVOICE_CONTRACT_ID")) /\
            k = Str.trim (default "" (setting (o_contractId o) (e !! "INVOICE_CONTRACT_ID")))
  | Throw err => blank (setting (o_contractId o) (e !! "INVOICE_CONTRACT_ID")) /\ instance_of CListInvoicesError err = true
  end.
Proof.
  unfold resolveContractId. rewrite setting_text. cbv zeta. case (String.eqb_spec _ ""); intros E; by rewrite blank_text.
Qed.
Lemma blank_or value : blank value \/ ~ blank value.
Proof. destruct value as [text|]; cbn; [destruct (decide (Str.trim text = ""))|]; tauto. Qed.
Lemma given_filter value : opt_str_truthy (Str.trim <$> value) = true <-> ~ blank value.
Proof. destruct value as [text|]; cbn; [|naive_solver]. destruct (String.eqb_spec (Str.trim text) ""); naive_solver. Qed.
Lemma status_checked text : match parseInvoiceStatus (Str.trim text) with
  | Ok st => names_status text st
  | Throw err => (forall st, ~ names_status text st) /\ instance_of CListInvoicesError err = true
  end.
Proof.
  unfold parseInvoiceStatus, names_status. cbv zeta.
  assert (Ht : Str.trim (Str.trim text) = Str.trim text) by apply trim_twice. rewrite Ht.
  destruct (find _ INVOICE_STATUSES) as [st|] eqn:E.
  - apply find_some in E as [_ E%String.eqb_eq]. by rewrite E.
  - split; [|done]. intros st Hst. pose proof (find_none _ _ E st ltac:(destruct st; cbn; tauto)) as H. cbn in H.
    by rewrite Hst, String.eqb_refl in H.
Qed.
Lemma filter_checked e o : match resolveFilter o with
  | Ok f => asks o f /\ (blank (o_status o) \/ blank (o_issuer o)) /\ ~ (blank (o_status o) /\ blank (o_issuer o))
  | Throw err => wrong e o /\ instance_of CListInvoicesError err = true
  end.
Proof.
  unfold resolveFilter. cbv zeta. pose proof (given_filter (o_status o)) as Hs. pose proof (given_filter (o_issuer o)) as Hi.
  pose proof (blank_or (o_status o)) as Ds. pose proof (blank_or (o_issuer o)) as Di.
  destruct (opt_str_truthy (Str.trim <$> o_status o)) eqn:Es, (opt_str_truthy (Str.trim <$> o_issuer o)) eqn:Ei; cbn [andb negb].
  - split; [apply two_filters; naive_solver|done].
  - assert (Hno : ~ blank (o_status o)) by naive_solver. destruct (o_status o) as [text|] eqn:Eo; [|done]. cbn [fmap option_fmap option_map default].
    pose proof (status_checked text) as H. destruct (parseInvoiceStatus _) as [st|err]; cbn [fmap result_fmap].
    + split; [by exists text|]. naive_solver.
    + destruct H as [H1 H2]. split; [|done]. by apply (no_status e o text).
  - assert (Hno : ~ blank (o_issuer o)) by naive_solver. destruct (o_issuer o) as [i|] eqn:Eo; [|done]. split; [by exists i|]. naive_solver.
  - split; [|done]. apply no_filter; naive_solver.
Qed.

(** C29: the options of [list-invoices] that are wrong are: no public key or no contract id, neither given
    nor in the environment, or blank; no filter, or both; and a status that is not the name of
    one, whatever its case.  Wrong options are reported before a client is built and before any
    request; with right ones the command asks for exactly what they name, with that key and that contract. *)
Theorem listInvoices_checks_first e config create o env :
  (wrong e o -> exists err, run (listInvoices e config create o) env = (Throw err, []) /\
                            instance_of CListInvoicesError err = true) /\
  (~ wrong e o -> exists key contract f,
     setting (o_publicKey o) (e !! "TRUSTTROVE_PUBLIC_KEY") = Some key /\
     setting (o_contractId o) (e !! "INVOICE_CONTRACT_ID") = Some contract /\ asks o f /\
     run (listInvoices e config create o) env = run (request config create (Str.trim key) (Str.trim contract) f) env).
Proof.
  pose proof (key_checked e o) as Hk. pose proof (contract_checked e o) as Hc. pose proof (filter_checked e o) as Hf.
  unfold listInvoices, run, mbind, M_bind, lift.
  destruct (resolvePublicKey e o) as [k|err]; [|destruct Hk; split; [eauto|intros []; by apply no_key]].
  destruct (resolveContractId e o) as [c|err]; [|destruct Hc; split; [eauto|intros []; by apply no_contract]].
  destruct (resolveFilter o) as [f|err]; [|destruct Hf; split; [eauto|done]].
  destruct Hk as [Hk ->], Hc as [Hc ->], Hf as (Hf & H1 & H2). split.
  - intros [?|?|? ?|? ?|text Ho Ht Hn]; try tauto. exfalso.
    destruct f as [st|a]; [destruct Hf as (text' & Ho' & Hst); rewrite Ho in Ho'; injection Ho' as <-; by apply (Hn st)|].
    destruct Hf as (i & Hi & -> & Hne). destruct H1 as [H1|H1]; [by rewrite Ho in H1|by rewrite Hi in H1].
  - intros _. destruct (setting (o_publicKey o) _) as [key|]; [|by destruct Hk]. destruct (setting (o_contractId o) _) as [contract|]; [|by destruct Hc].
    exists key, contract, f. done.
Qed.
End CommandProperties.

Import Mock MockEnc.
#[local] Existing Instance RefZod.ref_zod.
Lemma listInvoices_checks_first_witness :
  (exists err, run (listInvoices ∅ config None
      {| o_status := Some "Listed"; o_issuer := Some "G"; o_publicKey := Some "K";
         o_contractId := Some "C" |}) congested = (Throw err, [])) /\
  exists key contract f, run (listInvoices {["TRUSTTROVE_PUBLIC_KEY" := " K "]} config None
      {| o_status := Some " listed"; o_issuer := None; o_publicKey := None; o_contractId := Some "C" |}) congested =
    run (request config None (Str.trim key) (Str.trim contract) f) congested.
Proof.
  split.
  - destruct (listInvoices_checks_first ∅ config None
      {| o_status := Some "Listed"; o_issuer := Some "G"; o_publicKey := Some "K";
         o_contractId := Some "C" |} congested) as [H _]. destruct H as (err & H & _); [by apply two_filters|].
    exists err. exact H.
  - destruct (listInvoices_checks_first {["TRUSTTROVE_PUBLIC_KEY" := " K "]} config None
      {| o_status := Some " listed"; o_issuer := None; o_publicKey := None; o_contractId := Some "C" |} congested) as [_ H].
    destruct H as (key & contract & f & _ & _ & _ & H); [|exists key, contract, f; exact H].
    intros [Hb|Hb|Hb _|_ Hb|text Ht _ Hn]; try discriminate Hb; [by apply Hb|]. injection Ht as <-. by apply (Hn Listed).
Defined.

(** An environment variable set to the empty string is not skipped: it hides the
    variables after it and the configured contract. *)
Example empty_variable_hides_the_rest :
  (run (checkPoolBalanceCommand
      {["TRUSTTROVE_POOL_CONTRACT_ID" := ""; "POOL_CONTRACT_ID" := "CPOOL"]} config
      {| b_publicKey := Some "G"; b_poolContractId := None |}) congested).1 =
  Ok (failed ("Missing pool contract ID. Provide --pool-contract-id or set " +:+
      "TRUSTTROVE_POOL_CONTRACT_ID, NEXT_PUBLIC_POOL_CONTRACT_ID, POOL_CONTRACT_ID (see .env.example).")
      no_output).
Proof. vm_compute. reflexivity. Qed.
