(* ===== verification/WebParsers.v ===== *)
(** * Invoice payloads of the web app ([apps/web/lib/parsers.ts], [types/index.ts])

    [parseInvoiceResponse] validates with the SDK's [invoiceSchema] and falls back to a
    manual coercion when the schema reports issues; extra bookkeeping fields are merged
    on top.  The event-payload readers of [types/index.ts] narrow untyped values. *)

From S2P Require Import Prelude JsNumber JsString JsValue SdkTypes Schemas.
Local Open Scope Z_scope.

(** [typeof value === "object" && value !== null && !Array.isArray(value)]. *)
Definition isRecord (v : jsval) : bool := is_object v && negb (is_array v).

(** The keys camel-cased in order, later entries winning. *)
Definition normalizeKeys (obj : jsval) : fields := camel_object (own_fields obj).

Definition toBigInt (v : jsval) : res Z :=
  match v with
  | JBig z => Ok z
  | JNum n => bigint_of_num n
  | JStr s => bigint_of_str s
  | _ => Ok 0
  end.

Definition toNumber (v : jsval) : res num :=
  match v with JNum n => Ok n | _ => to_number v end.

Definition toNullableNumber (v : jsval) : res jsval :=
  if truthy v then JNum <$> toNumber v else Ok JNull.

(** [typeof value === "string" ? value : String(value ?? "")]. *)
Definition toStringValue (v : jsval) : string :=
  match v with JStr s => s | _ => to_str (js_nullish v (JStr "")) end.

Definition manuallyParse (raw : jsval) : res fields :=
  let f k := field raw k in
  let asset := match js_or (f "asset") (JStr "USDC") with
               | JStr s => if String.eqb s "XLM" then "XLM" else "USDC"
               | _ => "USDC"
               end in
  let zero := JNum Num.zero in
  faceValue ← toBigInt (js_nullish (js_nullish (f "face_value") (f "faceValue")) zero);
  discountBps ← toNumber (js_nullish (js_nullish (f "discount_bps") (f "discountBps")) zero);
  fundedAmount ← toBigInt (js_nullish (js_nullish (f "funded_amount") (f "fundedAmount")) zero);
  dueDate ← toNumber (js_nullish (js_nullish (f "due_date") (f "dueDate")) zero);
  createdAt ← toNumber (js_nullish (js_nullish (f "created_at") (f "createdAt")) zero);
  fundedAt ← toNullableNumber (js_nullish (f "funded_at") (f "fundedAt"));
  shippedAt ← toNullableNumber (js_nullish (f "shipped_at") (f "shippedAt"));
  repaidAt ← toNullableNumber (js_nullish (f "repaid_at") (f "repaidAt"));
  Ok [("id", JStr (toStringValue (f "id")));
      ("issuer", JStr (toStringValue (f "issuer")));
      ("buyer", JStr (toStringValue (f "buyer")));
      ("faceValue", JBig faceValue);
      ("asset", JStr asset);
      ("discountBps", JNum discountBps);
      ("fundedAmount", JBig fundedAmount);
      ("dueDate", JNum dueDate);
      ("status", JStr (toStringValue (f "status")));
      ("createdAt", JNum createdAt);
      ("fundedAt", fundedAt);
      ("shippedAt", shippedAt);
      ("issuerConfirmed", JBool (truthy (js_nullish (f "issuer_confirmed") (f "issuerConfirmed"))));
      ("buyerConfirmed", JBool (truthy (js_nullish (f "buyer_confirmed") (f "buyerConfirmed"))));
      ("repaidAt", repaidAt)].

Definition extraFields (raw : jsval) : res fields :=
  let f k := field raw k in
  listedAt ← toNullableNumber (f "listed_at");
  issuerConfirmedAt ← toNullableNumber (f "issuer_confirmed_at");
  buyerConfirmedAt ← toNullableNumber (f "buyer_confirmed_at");
  defaultedAt ← toNullableNumber (f "defaulted_at");
  Ok [("listedAt", listedAt); ("issuerConfirmedAt", issuerConfirmedAt);
      ("buyerConfirmedAt", buyerConfirmedAt); ("defaultedAt", defaultedAt);
      ("transactionHashes", f "transaction_hashes"); ("txHashes", f "tx_hashes");
      ("createdTxHash", f "created_tx_hash"); ("listedTxHash", f "listed_tx_hash");
      ("fundedTxHash", f "funded_tx_hash"); ("shippedTxHash", f "shipped_tx_hash");
      ("issuerConfirmedTxHash", f "issuer_confirmed_tx_hash");
      ("buyerConfirmedTxHash", f "buyer_confirmed_tx_hash");
      ("repaidTxHash", f "repaid_tx_hash"); ("defaultedTxHash", f "defaulted_tx_hash")].

Section Parse.
Context {zod : Zod}.

Definition parseInvoiceResponse (raw : jsval) : res jsval :=
if negb (isRecord raw) then throw_error "Invalid invoice payload"
else
  parsed ← safeParse invoiceSchema (JObj (normalizeKeys raw));
  invoice ← match parsed with
            | inl data => Ok (own_fields data)
            | inr _ => manuallyParse raw
            end;
  extra ← extraFields raw;
  Ok (JObj (assign invoice extra)).
End Parse.

(** ** Event payloads ([types/index.ts]) *)
Record EventLog := {
  ev_id : num; ev_event_id : string; ev_contract_id : string; ev_ledger : num;
  ev_ledger_closed_at : num; ev_event_type : string; ev_data : jsval }.

Definition getEventDataString (e : EventLog) (key : string) : option string :=
  as_str (field (ev_data e) key).

Definition getEventDataNumber (e : EventLog) (key : string) : option num :=
  match field (ev_data e) key with
  | JNum n => if Num.is_finite n then Some n else None
  | JStr s =>
      if negb (String.eqb (Str.trim s) "") then
        let parsed := Str.parse_number s in
        if Num.is_finite parsed then Some parsed else None
      else None
  | _ => None
  end.

(** [/^-?\d+$/] *)
Definition integer_re (s : string) : bool :=
  let d := match s with String "-" r => r | _ => s end in
  Str.nonempty d && Str.all Str.is_digit d.

Definition getEventDataBigInt (e : EventLog) (key : string) : option Z :=
  match field (ev_data e) key with
  | JBig z => Some z
  | JNum n => if Num.is_safe_integer n then Num.to_Z n else None
  | JStr s =>
      if integer_re (Str.trim s) then
        match bigint_of_str (Str.trim s) with Ok z => Some z | Throw _ => None end
      else None
  | _ => None
  end.

(** ** Properties *)

(** What callers rely on in a parsed response. *)
Definition response_typed (v : jsval) : Prop :=
  match v with
  | JObj fs =>
      (exists a b c, prop fs "id" = JStr a /\ prop fs "issuer" = JStr b /\ prop fs "buyer" = JStr c) /\
      (exists z w, prop fs "faceValue" = JBig z /\ prop fs "fundedAmount" = JBig w) /\
      (prop fs "asset" = JStr "USDC" \/ prop fs "asset" = JStr "XLM") /\
      (exists n d c, prop fs "discountBps" = JNum n /\ prop fs "dueDate" = JNum d /\
                     prop fs "createdAt" = JNum c) /\
      (exists s, prop fs "status" = JStr s) /\
      (exists x y, prop fs "issuerConfirmed" = JBool x /\ prop fs "buyerConfirmed" = JBool y) /\
      Forall (fun k => exists o, as_nullable as_num (prop fs k) = Some o)
        ["fundedAt"; "shippedAt"; "repaidAt"; "listedAt"; "issuerConfirmedAt";
         "buyerConfirmedAt"; "defaultedAt"]
  | _ => False
  end.

Lemma toNullableNumber_typed v r :
  toNullableNumber v = Ok r -> exists o, as_nullable as_num r = Some o.
Proof.
  unfold toNullableNumber. destruct (truthy v); [|intros [= <-]; by eexists].
  destruct (toNumber v) as [n|]; intros [= <-]. by eexists.
Qed.

Lemma prop_assign fs src k : NoDup src.*1 ->
  prop (assign fs src) k = match get src k with Some v => v | None => prop fs k end.
Proof.
  intros Hnd. unfold prop. rewrite assign_get.
  assert (E : get (reverse src) k = get src k); [|rewrite E; by destruct (get src k)].
  induction src as [|[k' v] src IH]; [done|]. apply list.NoDup_cons in Hnd as [Hk Hnd].
  rewrite reverse_cons. cbn.
  assert (Happ : forall l, get (l ++ [(k', v)]) k =
     match get l k with Some x => Some x | None => if String.eqb k k' then Some v else None end).
  { clear. induction l as [|[k1 v1] l IHl]; cbn; [done|]. by destruct (String.eqb k k1). }
  rewrite Happ, IH by done. destruct (String.eqb_spec k k') as [->|]; [|by destruct (get src k)].
  destruct (get src k') as [x|] eqn:Hx; [|done]. exfalso. apply Hk.
  clear -Hx. induction src as [|[k1 v1] src IH]; [done|]. cbn in *.
  destruct (String.eqb_spec k' k1) as [->|]; [by left | right; auto].
Qed.


Lemma extraFields_get raw extra : extraFields raw = Ok extra ->
  NoDup extra.*1 /\
  Forall (fun k => get extra k = None)
    ["id"; "issuer"; "buyer"; "faceValue"; "fundedAmount"; "asset"; "discountBps"; "dueDate";
     "createdAt"; "status"; "issuerConfirmed"; "buyerConfirmed"; "fundedAt"; "shippedAt"; "repaidAt"] /\
  Forall (fun k => exists v, get extra k = Some v /\ exists o, as_nullable as_num v = Some o)
    ["listedAt"; "issuerConfirmedAt"; "buyerConfirmedAt"; "defaultedAt"].
Proof.
  unfold extraFields. intros He. inv_bind.
  repeat match goal with
  | H : toNullableNumber _ = Ok _ |- _ => apply toNullableNumber_typed in H
  end.
  split_and!; [by apply (bool_decide_unpack _) | repeat constructor |].
  repeat (apply list.Forall_cons; split; [by eexists|]). by apply list.Forall_nil.
Qed.

Section Typed.
Context {zod : Zod} {laws : ZodLaws zod}.

(** The base invoice, before the extra fields, from either branch. *)
Definition base_typed (fs : fields) : Prop :=
(exists a b c, prop fs "id" = JStr a /\ prop fs "issuer" = JStr b /\ prop fs "buyer" = JStr c) /\
(exists z w, prop fs "faceValue" = JBig z /\ prop fs "fundedAmount" = JBig w) /\
(prop fs "asset" = JStr "USDC" \/ prop fs "asset" = JStr "XLM") /\
(exists n d c, prop fs "discountBps" = JNum n /\ prop fs "dueDate" = JNum d /\
               prop fs "createdAt" = JNum c) /\
(exists s, prop fs "status" = JStr s) /\
(exists x y, prop fs "issuerConfirmed" = JBool x /\ prop fs "buyerConfirmed" = JBool y) /\
Forall (fun k => exists o, as_nullable as_num (prop fs k) = Some o) ["fundedAt"; "shippedAt"; "repaidAt"].

Lemma manuallyParse_typed raw fs : manuallyParse raw = Ok fs -> base_typed fs.
Proof.
unfold manuallyParse. intros H. inv_bind.
repeat match goal with
| H : toNullableNumber _ = Ok _ |- _ => apply toNullableNumber_typed in H
end.
unfold base_typed, prop. cbn -[js_nullish js_or toStringValue].
split_and!; eauto 10 using list.Forall_cons_2, list.Forall_nil_2.
by destruct (js_or _ _); try (by left); case_match; auto.
Qed.

Lemma safeParse_invoice fs r :
safeParse invoiceSchema (JObj fs) = Ok (inl r) -> exists out, r = JObj out /\ base_typed out.
Proof.
unfold safeParse. intros H.
assert (Hp : parse invoiceSchema (JObj fs) = Ok r).
{ unfold parse. by destruct (z_run invoiceSchema (JObj fs)); simplify_eq. }
apply parse_object_ok in Hp as (out & -> & HF); [|by apply (bool_decide_unpack _)].
exists out. split; [done|]. unfold invoice_shape in HF. inv_shape.
repeat match goal with
| H : z_run (z_preprocess id_pre _) _ = ZOk _ |- _ => apply run_id_ok in H as (? & ? & _)
| H : z_run (z_default _ _) _ = ZOk _ |- _ =>
    rewrite run_default in H; apply run_enum_ok in H as (? & ? & _ & ?)
| H : z_run (z_optional _) _ = ZOk _ |- _ => clear H
| _ => inv_member
end.
unfold base_typed. split_and!; eauto 10 using list.Forall_cons_2, list.Forall_nil_2.
match goal with
| H : _ ∈ ["USDC"; "XLM"], E : prop out "asset" = _ |- _ =>
    rewrite E; apply elem_of_cons in H as [->|H]; [by left|];
    apply list_elem_of_singleton in H as ->; by right
end.
Qed.

(** C14: a parsed response always has the types its callers use, whichever
    branch produced it: amounts are bigints, counters numbers, the asset one of the two
    codes, flags booleans, and every timestamp a number or null. *)
Theorem parseInvoiceResponse_typed raw r (H : parseInvoiceResponse raw = Ok r) : response_typed r.
Proof.
unfold parseInvoiceResponse in H. destruct (isRecord raw); [|done]. cbn [negb] in H.
apply bind_ok in H as (parsed & Hp & H). apply bind_ok in H as (invoice & Hi & H).
apply bind_ok in H as (extra & He & [= <-]).
assert (Hb : base_typed invoice).
{ destruct parsed as [data|]; [|by eapply manuallyParse_typed].
  apply safeParse_invoice in Hp as (out & -> & Hb). cbn in Hi. by simplify_eq. }
apply extraFields_get in He as (Hnd & Hnone & Hsome).
destruct Hb as (? & ? & ? & ? & ? & ? & HF).
unfold response_typed; cbv beta iota.
repeat match goal with
| H : Forall _ (_ :: _) |- _ => apply list.Forall_cons in H as [? H]
end.
rewrite !(prop_assign invoice extra) by done.
repeat match goal with H : get extra _ = None |- _ => rewrite H; clear H end.
split_and!; try done.
repeat (apply list.Forall_cons; split; [rewrite (prop_assign invoice extra) by done|]);
  try (by apply list.Forall_nil);
  repeat match goal with
  | H : get extra ?k = None |- context [get extra ?k] => rewrite H
  | H : exists v, get extra ?k = Some v /\ _ |- context [get extra ?k] =>
      destruct H as (? & -> & ?)
  end; done.
Qed.

(** Payloads may use camelCase keys, but the confirmation and default times of
    such a payload are lost: a record without the snake_case keys always parses to
    [null] for both. *)
Theorem parseInvoiceResponse_drops_camel_times raw r
  (H : parseInvoiceResponse raw = Ok r)
  (H1 : field raw "buyer_confirmed_at" = JUndef) (H2 : field raw "defaulted_at" = JUndef) :
field r "buyerConfirmedAt" = JNull /\ field r "defaultedAt" = JNull.
Proof.
unfold parseInvoiceResponse in H. destruct (isRecord raw); [|done]. cbn [negb] in H.
apply bind_ok in H as (parsed & Hp & H). apply bind_ok in H as (invoice & Hi & H).
apply bind_ok in H as (extra & He & [= <-]).
unfold extraFields in He. rewrite H1, H2 in He. inv_bind. cbn in *. simplify_eq.
split; repeat (rewrite get_set_ne by (by apply (bool_decide_unpack _))); by rewrite get_set_eq.
Qed.

(** The manual coercion does not rescue a face value that is no integer:
    the [SyntaxError] of [BigInt] escapes from the schema check itself. *)
Theorem parseInvoiceResponse_syntax_error fs s
  (Hs : prop (normalizeKeys (JObj fs)) "faceValue" = JStr s) (Hp : Str.parse_bigint s = None) :
exists m, parseInvoiceResponse (JObj fs) = Throw (JErr CSyntaxError m []).
Proof.
eexists. unfold parseInvoiceResponse, safeParse. cbn [isRecord is_object is_array negb andb].
by rewrite (bad_faceValue_throws _ s).
Qed.
End Typed.

(** ** Witnesses *)
Definition sample_response : jsval :=
  JObj [("id", JStr (Str.repeat 64 "a")); ("issuer", JStr sample_address);
        ("buyer", JStr sample_address); ("face_value", JStr "1000");
        ("status", JStr "settled"); ("due_date", JNum (Num.of_Z 5));
        ("buyerConfirmedAt", JNum (Num.of_Z 9)); ("listed_at", JStr "7")].

Lemma parseInvoiceResponse_typed_witness :
  exists r, parseInvoiceResponse (zod := RefZod.ref_zod) sample_response = Ok r /\ response_typed r.
Proof.
  destruct (parseInvoiceResponse (zod := RefZod.ref_zod) sample_response) as [r|e] eqn:E;
    [|vm_compute in E; discriminate E].
  exists r. split; [reflexivity|].
  exact (parseInvoiceResponse_typed (zod := RefZod.ref_zod) (laws := RefZod.ref_zod_laws) _ _ E).
Defined.

Lemma parseInvoiceResponse_drops_camel_times_witness :
  exists r, parseInvoiceResponse (zod := RefZod.ref_zod) sample_response = Ok r /\
            field r "buyerConfirmedAt" = JNull.
Proof.
  destruct (parseInvoiceResponse (zod := RefZod.ref_zod) sample_response) as [r|e] eqn:E;
    [|vm_compute in E; discriminate E].
  exists r. split; [reflexivity|].
  exact (proj1 (parseInvoiceResponse_drops_camel_times (zod := RefZod.ref_zod) _ _ E eq_refl eq_refl)).
Defined.

Lemma parseInvoiceResponse_syntax_error_witness :
  exists m, parseInvoiceResponse (zod := RefZod.ref_zod) (JObj [("face_value", JStr "10.5")]) =
            Throw (JErr CSyntaxError m []).
Proof.
  exact (parseInvoiceResponse_syntax_error (zod := RefZod.ref_zod) (laws := RefZod.ref_zod_laws)
           [("face_value", JStr "10.5")] "10.5" eq_refl eq_refl).
Defined.
