(* ===== verification/WebApi.v ===== *)
(** * The indexer API client ([apps/web/lib/api.ts])

    [apiFetch] is the only place that talks HTTP; everything else builds a path, calls
    it and normalises the answer.  The server ([http]), the wallet store's token and the
    configured base URL are the interface [Backend]; a response body is text that may
    fail to arrive, and [res.json()] is [Json.parse] of it. *)

From S2P Require Import Prelude JsNumber JsString JsValue Effects SdkTypes Schemas JsJson WebParsers.
Local Open Scope Z_scope.

Record request := {
  rq_url : string; rq_method : option string; rq_body : option string;
  rq_headers : list (string * string) }.

Record response := { r_status : Z; r_text : res string }.
(** [res.ok]. *)
Definition r_ok (r : response) : bool := (200 <=? r_status r) && (r_status r <=? 299).

Class Backend (Env : Type) := {
  http : request -> Env -> res response * Env;
  (** [useWalletStore.getState().token]. *)
  wallet_token : Env -> option string;
  (** [process.env.NEXT_PUBLIC_API_BASE_URL]. *)
  env_api_base_url : option string }.

Inductive Http := Fetched (rq : request) (r : res response).

(** [RequestInit]. *)
Record RequestInit := {
  o_method : option string; o_body : option string; o_headers : list (string * string) }.
Definition no_options : RequestInit := {| o_method := None; o_body := None; o_headers := [] |}.

Module Headers.
Fixpoint has (h : list (string * string)) (k : string) : bool :=
match h with [] => false | (k', _) :: r => String.eqb (Str.to_lower k) (Str.to_lower k') || has r k end.
Fixpoint get (h : list (string * string)) (k : string) : option string :=
match h with
| [] => None
| (k', v) :: r => if String.eqb (Str.to_lower k) (Str.to_lower k') then Some v else get r k
end.
Fixpoint remove (h : list (string * string)) (k : string) : list (string * string) :=
match h with
| [] => []
| (k', v) :: r => if String.eqb (Str.to_lower k) (Str.to_lower k') then remove r k
                  else (k', v) :: remove r k
end.
Definition http_space (c : ascii) : bool :=
Ascii.eqb c " " || (code c =? 9) || (code c =? 10) || (code c =? 13).
Fixpoint strip_left (s : string) : string :=
match s with String c r => if http_space c then strip_left r else s | EmptyString => "" end.
Fixpoint strip_right (s : string) : string :=
match s with
| EmptyString => ""
| String c r => match strip_right r with
                | EmptyString => if http_space c then "" else String c ""
                | r' => String c r'
                end
end.
Definition bad_char (c : ascii) : bool := (code c =? 0) || (code c =? 10) || (code c =? 13).
(** A header value is stripped; NUL, LF and CR are refused. *)
Definition value (v : string) : res string :=
let v := strip_right (strip_left v) in
if Str.all (fun c => negb (bad_char c)) v then Ok v
else Throw (JErr CTypeError "Headers.set: invalid header value" []).
(** [headers.set(k, v)]. *)
Definition set (h : list (string * string)) (k v : string) : res (list (string * string)) :=
v ← value v; Ok (remove h k ++ [(k, v)]).
End Headers.

Section Api.
Context {Env : Type} {B : Backend Env} {zod : Zod}.
Abbreviation IO := (M Env Http).

Definition getApiUrl : string := opt_str_or env_api_base_url "http://localhost:8080".

Definition request_headers (token : option string) (o : RequestInit) : res (list (string * string)) :=
headers ← (if opt_str_truthy token
           then Headers.set (o_headers o) "Authorization" ("Bearer " +:+ default "" token)
           else Ok (o_headers o));
if negb (Headers.has headers "Content-Type") &&
   (bool_decide (o_method o = Some "POST") || bool_decide (o_method o = Some "PUT"))
then Headers.set headers "Content-Type" "application/json"
else Ok headers.

(** The message of a failed response. *)
Definition error_message (text : string) : string :=
match Json.parse text with
| Ok json =>
    if truthy json && is_object json then
      match (if has_field json "error" then field json "error" else JUndef) with
      | JStr m => m
      | _ => match (if has_field json "message" then field json "message" else JUndef) with
             | JStr m => m
             | _ => text
             end
      end
    else text
| Throw _ => text
end.

(** From [if (!res.ok)] on. *)
Definition read_response (r : response) : res jsval :=
text ← r_text r;
if negb (r_ok r) then
  if (r_status r =? 503) || (r_status r =? 504) then
    throw_error (str_or text "Service Temporarily Unavailable. Please try again later.")
  else throw_error (str_or (error_message text)
                      ("HTTP error! status: " +:+ Num.bigint_to_string (r_status r)))
else Json.parse text.

Definition apiFetch (path : string) (o : RequestInit) : IO jsval :=
token ← gets wallet_token;
headers ← lift (request_headers token o);
let rq := {| rq_url := getApiUrl +:+ path; rq_method := o_method o; rq_body := o_body o;
             rq_headers := headers |} in
r ← io (Fetched rq) (http rq);
lift (read_response r).

Definition apiClient_fetch (path : string) (o : RequestInit) : IO jsval := apiFetch path o.

(** ** Normalisers *)
Definition toBigInt (v : jsval) : res Z :=
match v with
| JBig z => Ok z
| JNum n => bigint_of_num n
| JStr s => bigint_of_str s
| _ => Ok 0
end.

Definition toNumber (v : jsval) : num :=
match v with
| JNum n => n
| JBig z => Num.of_Z z
| JStr s => Str.parse_number s
| _ => Num.zero
end.

(** [isRecord(raw) ? raw : {}]. *)
Definition record_or_empty (raw : jsval) : jsval := if isRecord raw then raw else JObj [].

Definition parseRawPoolStats (raw : jsval) : res PoolStats :=
let r k := field (record_or_empty raw) k in
totalDeposits ← toBigInt (r "total_deposits");
totalFunded ← toBigInt (r "total_funded");
availableLiquidity ← toBigInt (r "available_liquidity");
totalYieldDistributed ← toBigInt (r "total_yield_distributed");
totalShares ← toBigInt (r "total_shares");
Ok {| ps_totalDeposits := totalDeposits; ps_totalFunded := totalFunded;
      ps_availableLiquidity := availableLiquidity;
      ps_utilizationRateBps := toNumber (r "utilization_rate_bps");
      ps_totalYieldDistributed := totalYieldDistributed;
      ps_activeInvoiceCount := toNumber (r "active_invoice_count");
      ps_totalShares := totalShares |}.

Definition parseRawLPPosition (raw : jsval) : res LPPosition :=
let r k := field (record_or_empty raw) k in
shares ← toBigInt (r "shares");
usdcValue ← toBigInt (r "usdc_value");
yieldEarned ← toBigInt (r "yield_earned");
Ok {| lp_shares := shares; lp_usdcValue := usdcValue; lp_yieldEarned := yieldEarned;
      lp_depositCount := toNumber (r "deposit_count") |}.

Definition parseRawEventLog (raw : jsval) : EventLog :=
let r k := field (record_or_empty raw) k in
{| ev_id := toNumber (r "id");
   ev_event_id := to_str (js_nullish (r "event_id") (JStr ""));
   ev_contract_id := to_str (js_nullish (r "contract_id") (JStr ""));
   ev_ledger := toNumber (r "ledger");
   ev_ledger_closed_at := toNumber (r "ledger_closed_at");
   ev_event_type := to_str (js_nullish (r "event_type") (JStr ""));
   ev_data := js_or (r "data") (JObj []) |}.

(** ** Endpoints *)
(** [v.map(f)]. *)
Definition js_map {A} (f : jsval -> res A) (v : jsval) : res (list A) :=
match v with
| JArr l => map_result f l
| _ => type_error "map is not a function"
end.

(** [JSON.stringify] of an object literal whose members are defined. *)
Definition json_body (v : jsval) : res (option string) := Json.stringify v.

Definition fetchChallenge (address : string) : IO jsval :=
apiFetch ("/auth?address=" +:+ address) no_options.

Definition verifyChallenge (transaction : string) : IO jsval :=
body ← lift (json_body (JObj [("transaction", JStr transaction)]));
apiFetch "/auth" {| o_method := Some "POST"; o_body := body; o_headers := [] |}.

Definition createInvoice (buyer faceValue : string) (dueDate : num) (asset : option AssetType) : IO jsval :=
body ← lift (json_body (JObj [("buyer", JStr buyer); ("face_value", JStr faceValue);
   ("due_date", JNum dueDate); ("asset", JStr (asset_name (nullish asset USDC)))]));
apiFetch "/invoices" {| o_method := Some "POST"; o_body := body; o_headers := [] |}.

Definition getInvoiceByID (id : string) : IO jsval :=
raw ← apiFetch ("/invoices/" +:+ id) no_options;
lift (parseInvoiceResponse raw).

Definition updateInvoiceStatus (id status : string) : IO jsval :=
body ← lift (json_body (JObj [("status", JStr status)]));
apiFetch ("/invoices/" +:+ Uri.encode_component id +:+ "/status")
  {| o_method := Some "PATCH"; o_body := body; o_headers := [] |}.

Record filters := {
f_status : option string; f_issuer : option string; f_page : option num; f_limit : option num }.

Record PaginatedInvoices := {
p_data : list jsval; p_total : jsval; p_page : jsval; p_limit : jsval; p_totalPages : jsval }.

Definition invoice_params (f : filters) : list (string * string) :=
(if opt_str_truthy (f_status f) then [("status", default "" (f_status f))] else []) ++
(if opt_str_truthy (f_issuer f) then [("issuer", default "" (f_issuer f))] else []) ++
match f_page f with Some n => [("page", Num.to_string n)] | None => [] end ++
match f_limit f with Some n => [("limit", Num.to_string n)] | None => [] end.

Definition invoices_path (f : filters) : string :=
"/invoices" +:+ match invoice_params f with [] => "" | ps => "?" +:+ Uri.query ps end.

Definition read_page (raw : jsval) : res PaginatedInvoices :=
rows ← member raw "data";
data ← js_map parseInvoiceResponse rows;
Ok {| p_data := data; p_total := field raw "total"; p_page := field raw "page";
      p_limit := field raw "limit"; p_totalPages := field raw "totalPages" |}.

Definition getInvoices (f : filters) : IO PaginatedInvoices :=
raw ← apiFetch (invoices_path f) no_options;
lift (read_page raw).

Definition ALL_INVOICES_PAGE_SIZE : Z := 100.
Definition ALL_INVOICES_MAX_PAGES : Z := 100.

(** [invoice.id], always a string in a parsed response. *)
Definition invoice_key (inv : jsval) : string := to_str (field inv "id").
(** [for (const invoice of res.data) byId.set(invoice.id, invoice)]: a [Map] keeps the
    position of a key that is set again. *)
Definition add_all (byId : fields) (data : list jsval) : fields :=
foldl (fun m inv => JsValue.set m (invoice_key inv) inv) byId data.

(** [page <= totalPages] for a [totalPages] the server chose. *)
Definition within (page : Z) (totalPages : jsval) : bool :=
match to_number totalPages with Ok n => Num.leb (Num.of_Z page) n | Throw _ => false end.

Definition page_filters (status issuer : option string) (page : Z) : filters :=
{| f_status := status; f_issuer := issuer; f_page := Some (Num.of_Z page);
   f_limit := Some (Num.of_Z ALL_INVOICES_PAGE_SIZE) |}.

(** The loop of [getAllInvoices]; [fuel] is the number of iterations allowed. *)
Fixpoint walk (status issuer : option string) (fuel : nat) (page : Z) (totalPages : jsval)
  (byId : fields) : IO fields :=
match fuel with
| O => raise (mk_error "out of fuel")
| S fuel =>
    if within page totalPages && (page <=? ALL_INVOICES_MAX_PAGES) then
      res ← getInvoices (page_filters status issuer page);
      let byId := add_all byId (p_data res) in
      if (length (p_data res) =? 0)%nat then mret byId
      else walk status issuer fuel (page + 1) (js_or (p_totalPages res) (JNum (Num.of_Z 1))) byId
    else mret byId
end.

Definition getAllInvoices (status issuer : option string) : IO (list jsval) :=
byId ← walk status issuer (S (Z.to_nat ALL_INVOICES_MAX_PAGES)) 1 (JNum (Num.of_Z 1)) [];
mret byId.*2.

Definition getPoolStats : IO PoolStats :=
raw ← apiFetch "/pool/stats" no_options;
lift (parseRawPoolStats raw).

Definition getLPPosition (address : string) : IO LPPosition :=
raw ← apiFetch ("/pool/position/" +:+ address) no_options;
lift (parseRawLPPosition raw).

Definition events_path (limit : option num) (issuer : option string) : string :=
let params :=
  (match limit with Some n => if Num.truthy n then ["limit=" +:+ Num.to_string n] else [] | None => [] end) ++
  (if opt_str_truthy issuer then ["issuer=" +:+ Uri.encode_component (default "" issuer)] else []) in
"/events" +:+ match params with [] => "" | _ => "?" +:+ Str.join "&" params end.

Definition getRecentEvents (limit : option num) (issuer : option string) : IO (list EventLog) :=
rawList ← apiFetch (events_path limit issuer) no_options;
lift (match rawList with
      | JUndef | JNull => type_error ("Cannot read properties of " +:+ to_str rawList)
      | _ => js_map (fun e => Ok (parseRawEventLog e)) rawList
      end).

Definition getPoolSnapshots : IO jsval := apiFetch "/pool/snapshots" no_options.
Definition getProtocolStats : IO jsval := apiFetch "/stats" no_options.
End Api.

(** ** One request per call *)
Section ApiFacts.
Context {Env : Type} {B : Backend Env} {zod : Zod}.

Lemma request_headers_throw token o e :
request_headers token o = Throw e -> exists m, e = JErr CTypeError m [].
Proof.
assert (Hset : forall h k v e, Headers.set h k v = Throw e -> exists m, e = JErr CTypeError m []).
{ intros h k v e'. unfold Headers.set, Headers.value. case_match; cbn; [done|].
  intros [= <-]. by eexists. }
unfold request_headers. intros H. apply bind_throw in H as [H | (h & _ & H)].
- destruct (opt_str_truthy token); [by apply Hset in H | done].
- case_match; [by apply Hset in H | done].
Qed.

(** The call sends one request to the path, whose answer decides the outcome; only a
    token that is no header value fails before that. *)
Lemma apiFetch_spec path o :
trace_spec (apiFetch path o) (fun l r =>
  (l = [] /\ exists m, r = Throw (JErr CTypeError m [])) \/
  exists rq resp, l = [Fetched rq resp] /\ rq_url rq = getApiUrl +:+ path /\
    rq_method rq = o_method o /\ rq_body rq = o_body o /\ r = resp ≫= read_response).
Proof.
apply trace_seq, trace_gets. intros token. apply trace_seq, trace_lift.
destruct (request_headers token o) as [h|e] eqn:Hh.
- apply trace_seq, trace_io. intros [resp|e]; cbn.
  + apply trace_lift. right. eexists _, (Ok resp). done.
  + right. eexists _, (Throw e). done.
- left. split; [done|]. apply request_headers_throw in Hh as [m ->]. by exists m.
Qed.

Definition answer (e : Http) : res PaginatedInvoices :=
match e with Fetched _ r => (r ≫= read_response) ≫= read_page end.
Definition url (e : Http) : string := match e with Fetched rq _ => rq_url rq end.

Lemma getInvoices_spec f :
trace_spec (getInvoices f) (fun l r =>
  (l = [] /\ exists m, r = Throw (JErr CTypeError m [])) \/
  exists e, l = [e] /\ url e = getApiUrl +:+ invoices_path f /\ r = answer e).
Proof.
apply trace_seq. eapply trace_weaken; [apply apiFetch_spec|].
intros l r [(-> & m & ->)|(rq & resp & -> & Hu & _ & _ & ->)].
- left. eauto.
- destruct (resp ≫= read_response) as [raw|e] eqn:E.
  + apply trace_lift. right. exists (Fetched rq resp). cbn. by rewrite E.
  + right. exists (Fetched rq resp). cbn. by rewrite E.
Qed.

(** ** Walking every page *)

(** The pages a walk from [page] fetched before it stopped normally. *)
Inductive walked : Z -> jsval -> list PaginatedInvoices -> Prop :=
  | walked_stop page tp :
      within page tp && (page <=? ALL_INVOICES_MAX_PAGES) = false -> walked page tp []
  | walked_empty page tp p :
      within page tp && (page <=? ALL_INVOICES_MAX_PAGES) = true -> p_data p = [] -> walked page tp [p]
  | walked_more page tp p ps :
      within page tp && (page <=? ALL_INVOICES_MAX_PAGES) = true -> p_data p <> [] ->
      walked (page + 1) (js_or (p_totalPages p) (JNum (Num.of_Z 1))) ps -> walked page tp (p :: ps).

Definition walk_post (status issuer : option string) (page : Z) (tp : jsval) (byId : fields)
  (l : list Http) (r : res fields) : Prop :=
Z.of_nat (length l) <= Z.max 0 (ALL_INVOICES_MAX_PAGES + 1 - page) /\
(forall i e, l !! i = Some e ->
   url e = getApiUrl +:+ invoices_path (page_filters status issuer (page + Z.of_nat i))) /\
match r with
| Ok m => exists pages, Forall2 (fun e p => answer e = Ok p) l pages /\
            m = foldl add_all byId (map p_data pages) /\ walked page tp pages
| Throw err => (exists m, err = JErr CTypeError m []) \/
               exists e, e ∈ l /\ answer e = Throw err
end.

Lemma walk_post_step status issuer page tp byId e p l r :
within page tp && (page <=? ALL_INVOICES_MAX_PAGES) = true ->
url e = getApiUrl +:+ invoices_path (page_filters status issuer page) ->
answer e = Ok p -> p_data p <> [] ->
walk_post status issuer (page + 1) (js_or (p_totalPages p) (JNum (Num.of_Z 1)))
  (add_all byId (p_data p)) l r ->
walk_post status issuer page tp byId (e :: l) r.
Proof.
intros Hg Hu Ha Hne (Hlen & Hurl & Hr). split_and!.
- apply andb_true_iff in Hg as [_ Hg]. cbn [length]. lia.
- intros [|i] e' Hi; [injection Hi as <-; by rewrite Z.add_0_r|].
  replace (page + Z.of_nat (S i)) with (page + 1 + Z.of_nat i) by lia. by apply Hurl.
- destruct r as [m|err].
  + destruct Hr as (pages & HF & -> & Hw). exists (p :: pages).
    split; [by constructor|]. split; [done | by constructor].
  + destruct Hr as [Hr | (e' & ? & ?)]; [by left|]. right. exists e'. split; [by right | done].
Qed.

Lemma walk_spec status issuer fuel page tp byId :
Z.max 0 (ALL_INVOICES_MAX_PAGES + 1 - page) < Z.of_nat fuel ->
trace_spec (walk status issuer fuel page tp byId) (walk_post status issuer page tp byId).
Proof.
revert page tp byId. induction fuel as [|fuel IH]; intros page tp byId Hfuel.
- lia.
- cbn [walk]. destruct (within page tp && (page <=? ALL_INVOICES_MAX_PAGES)) eqn:Hg.
  + assert (Hp : page <= ALL_INVOICES_MAX_PAGES) by (apply andb_true_iff in Hg as [_ Hg]; lia).
    apply trace_seq. eapply trace_weaken; [apply getInvoices_spec|].
    intros l r [(-> & m & ->) | (e & -> & Hu & ->)].
    * split; [cbn; lia|]. split; [done|]. left. by exists m.
    * destruct (answer e) as [p|err] eqn:Ha.
      -- destruct (p_data p) as [|x xs] eqn:Hd; cbn [length Nat.eqb].
         ++ apply trace_ret. split; [cbn [length app]; lia|]. split.
            { intros [|i] e'; cbn; [intros [= <-]; by rewrite Z.add_0_r | done]. }
            exists [p]. split; [by repeat constructor|]. cbn. rewrite Hd.
            split; [done | by constructor].
         ++ eapply trace_weaken; [apply IH; lia|]. intros l r Hpost. cbn [app].
            eapply walk_post_step; eauto; [by rewrite Hd | by rewrite Hd].
      -- split; [cbn [length app]; lia|]. split.
         { intros [|i] e'; cbn; [intros [= <-]; by rewrite Z.add_0_r | done]. }
         right. exists e. split; [by left | done].
  + apply trace_ret. split; [cbn; lia|]. split; [done|].
    exists []. split; [constructor|]. split; [done | by constructor].
Qed.

Lemma walked_last page tp pages : walked page tp pages ->
match list.last pages with
| None => within page tp && (page <=? ALL_INVOICES_MAX_PAGES) = false
| Some p => p_data p = [] \/
    within (page + Z.of_nat (length pages)) (js_or (p_totalPages p) (JNum (Num.of_Z 1))) &&
      (page + Z.of_nat (length pages) <=? ALL_INVOICES_MAX_PAGES) = false
end.
Proof.
induction 1 as [| |page tp p ps Hg Hne Hw IH]; [done | by left |].
destruct ps as [|q ps]; cbn [list.last] in *.
- right. exact IH.
- destruct (list.last (q :: ps)) as [z|] eqn:E; [|by apply last_None in E].
  destruct IH as [?|IH]; [by left|]. right.
  replace (page + Z.of_nat (length (p :: q :: ps))) with (page + 1 + Z.of_nat (length (q :: ps)))
    by (cbn [length]; lia). done.
Qed.

(** The keys of some rows in the order in which they are first seen, and the last row of a key. *)
Definition first_seen (rows : list jsval) : list string := reverse (remove_dups (reverse (map invoice_key rows))).
Definition last_of (rows : list jsval) (k : string) : option jsval := list.last (filter (fun inv => invoice_key inv = k) rows).
(** A row for each key, in that order. *)
Definition latest_rows (rows invs : list jsval) : Prop := map Some invs = map (last_of rows) (first_seen rows).

Lemma first_seen_snoc rows x :
first_seen (rows ++ [x]) = if bool_decide (invoice_key x ∈ first_seen rows) then first_seen rows else first_seen rows ++ [invoice_key x].
Proof.
unfold first_seen. rewrite map_app, reverse_app. cbn [map].
change (reverse [invoice_key x] ++ reverse (map invoice_key rows)) with (invoice_key x :: reverse (map invoice_key rows)).
set (ks := reverse (map invoice_key rows)). unfold remove_dups at 1; fold (remove_dups ks).
destruct (decide_rel _ _ _) as [Hin|Hin].
- rewrite bool_decide_true; [done|]. by rewrite elem_of_reverse, elem_of_remove_dups.
- rewrite bool_decide_false; [by rewrite reverse_cons|]. by rewrite elem_of_reverse, elem_of_remove_dups.
Qed.
Lemma last_of_snoc rows x k : last_of (rows ++ [x]) k = if String.eqb k (invoice_key x) then Some x else last_of rows k.
Proof.
unfold last_of. rewrite list.filter_app, list.filter_cons, list.filter_nil.
destruct (String.eqb_spec k (invoice_key x)) as [->|Hne].
- rewrite decide_True by done. by rewrite last_snoc.
- rewrite decide_False by done. by rewrite app_nil_r.
Qed.

(** The map holds the latest row of each key, under the key. *)
Definition holds (rows : list jsval) (m : fields) : Prop := NoDup m.*1 /\ m.*1 = first_seen rows /\ forall k, get m k = last_of rows k.
Lemma holds_set rows m x : holds rows m -> holds (rows ++ [x]) (JsValue.set m (invoice_key x) x).
Proof.
intros (Hn & Hk & Hg). split; [by apply set_NoDup|]. split.
- by rewrite set_keys, first_seen_snoc, Hk.
- intros k. rewrite last_of_snoc. destruct (String.eqb_spec k (invoice_key x)) as [->|Hne]; [apply get_set_eq|].
  by rewrite get_set_ne, Hg by done.
Qed.
Lemma holds_add data : forall rows m, holds rows m -> holds (rows ++ data) (add_all m data).
Proof.
induction data as [|x data IH]; intros rows m Hm; [by rewrite app_nil_r|].
replace (rows ++ x :: data) with ((rows ++ [x]) ++ data) by (by rewrite <- app_assoc). by apply IH, holds_set.
Qed.
Lemma holds_pages pages : forall rows m, holds rows m -> holds (rows ++ concat pages) (foldl add_all m pages).
Proof.
induction pages as [|p pages IH]; intros rows m Hm; cbn [concat foldl]; [by rewrite app_nil_r|].
rewrite app_assoc. by apply IH, holds_add.
Qed.
Lemma values_get m : NoDup m.*1 -> map Some m.*2 = map (get m) m.*1.
Proof.
intros Hn. induction m as [|[k v] m IH]; [done|]. cbn in Hn |- *. apply list.NoDup_cons in Hn as [Hk Hn].
rewrite String.eqb_refl. f_equal. rewrite IH by done. apply map_ext_in. intros k' Hk'%list_elem_of_In.
by destruct (String.eqb_spec k' k) as [->|].
Qed.
Lemma holds_latest rows m : holds rows m -> latest_rows rows m.*2.
Proof. intros (Hn & Hk & Hg). unfold latest_rows. rewrite values_get, <- Hk by done. by apply map_ext. Qed.

(** C10: [getAllInvoices] asks for pages 1, 2, 3, ... of 100 rows, at most 100 of them.
    A result has one row for each id of the fetched pages, the last one that was read, in the
    order in which the ids were first read; and the walk ended for one of the documented
    reasons: an empty page, the server's page count reached, or the page cap.  A failure is
    the failure of one of the requests. *)
Theorem getAllInvoices_complete status issuer :
trace_spec (getAllInvoices status issuer) (fun l r =>
  (length l <= 100)%nat /\
  (forall i e, l !! i = Some e ->
     url e = getApiUrl +:+ invoices_path (page_filters status issuer (1 + Z.of_nat i))) /\
  match r with
  | Ok invs => exists pages p,
      Forall2 (fun e p => answer e = Ok p) l pages /\
      latest_rows (concat (map p_data pages)) invs /\
      list.last pages = Some p /\
      (p_data p = [] \/ length l = 100%nat \/
       within (1 + Z.of_nat (length l)) (js_or (p_totalPages p) (JNum (Num.of_Z 1))) = false)
  | Throw err => (exists m, err = JErr CTypeError m []) \/ exists e, e ∈ l /\ answer e = Throw err
  end).
Proof.
apply trace_seq. eapply trace_weaken;
  [apply walk_spec; unfold ALL_INVOICES_MAX_PAGES; cbn; lia|].
intros l r (Hlen & Hurl & Hr). assert (Hl : (length l <= 100)%nat).
{ unfold ALL_INVOICES_MAX_PAGES in Hlen. lia. }
destruct r as [m|err]; [|done].
destruct Hr as (pages & HF & -> & Hw). apply trace_ret. rewrite app_nil_r.
split; [done|]. split; [done|].
assert (Hlp : length l = length pages) by (by eapply Forall2_length). apply walked_last in Hw as Hlast.
destruct (list.last pages) as [p|] eqn:E; [|by vm_compute in Hlast].
exists pages, p. split_and!; [done| |done|].
- apply holds_latest. rewrite <- (app_nil_l (concat _)). apply holds_pages. by repeat constructor.
- destruct Hlast as [?|Hg]; [by left|]. right. rewrite <- Hlp in Hg.
  apply andb_false_iff in Hg as [Hg|Hg]; [by right|]. left.
  unfold ALL_INVOICES_MAX_PAGES in Hg. lia.
Qed.

Lemma remove_get h k k' :
Headers.get (Headers.remove h k) k' =
  if String.eqb (Str.to_lower k') (Str.to_lower k) then None else Headers.get h k'.
Proof.
induction h as [|[k1 v1] h IH]; cbn; [by case_match|].
destruct (String.eqb_spec (Str.to_lower k) (Str.to_lower k1)) as [E|E]; cbn; rewrite IH.
- rewrite E. by destruct (String.eqb (Str.to_lower k') (Str.to_lower k1)).
- destruct (String.eqb_spec (Str.to_lower k') (Str.to_lower k1)) as [E'|]; [|done].
  destruct (String.eqb_spec (Str.to_lower k') (Str.to_lower k)); congruence.
Qed.

Lemma app_get h k v k' :
Headers.get (h ++ [(k, v)]) k' =
  match Headers.get h k' with
  | Some x => Some x
  | None => if String.eqb (Str.to_lower k') (Str.to_lower k) then Some v else None
  end.
Proof. induction h as [|[k1 v1] h IH]; cbn; [done|]. by destruct (String.eqb (Str.to_lower k') (Str.to_lower k1)). Qed.

Lemma has_get h k : Headers.has h k = match Headers.get h k with Some _ => true | None => false end.
Proof. induction h as [|[k1 v1] h IH]; cbn; [done|]. by destruct (String.eqb (Str.to_lower k) (Str.to_lower k1)). Qed.

(** Setting a header replaces it under every spelling and leaves the others. *)
Lemma set_get h k v h' k' : Headers.set h k v = Ok h' ->
exists v', Headers.value v = Ok v' /\
  Headers.get h' k' = if String.eqb (Str.to_lower k') (Str.to_lower k) then Some v' else Headers.get h k'.
Proof.
unfold Headers.set. intros H. apply bind_ok in H as (v' & Hv & [= <-]). exists v'. split; [done|].
rewrite app_get, remove_get. destruct (String.eqb _ _); [done|]. by destruct (Headers.get h k').
Qed.

Lemma request_headers_auth token o h :
Headers.get (o_headers o) "Authorization" = None -> request_headers token o = Ok h ->
if opt_str_truthy token
then exists v, Headers.value ("Bearer " +:+ default "" token) = Ok v /\
               Headers.get h "Authorization" = Some v
else Headers.get h "Authorization" = None.
Proof.
intros Ho H. unfold request_headers in H. apply bind_ok in H as (h1 & H1 & H).
assert (E : Headers.get h "Authorization" = Headers.get h1 "Authorization").
{ case_match; [|by injection H as <-]. by apply (set_get _ _ _ _ "Authorization") in H as (v & _ & ->). }
rewrite E. destruct (opt_str_truthy token); [|by injection H1 as <-].
apply (set_get _ _ _ _ "Authorization") in H1 as (v & Hv & ->). by exists v.
Qed.

(** One request per call, at the configured base URL, and the wallet's token is
    sent as a bearer credential exactly when there is one. *)
Theorem apiFetch_bearer path o w (Ho : Headers.has (o_headers o) "Authorization" = false) :
exists l, w_log (apiFetch path o w).2 = w_log w ++ l /\ (length l <= 1)%nat /\
  forall rq r, Fetched rq r ∈ l ->
    rq_url rq = getApiUrl +:+ path /\
    match wallet_token (w_env w) with
    | Some t => if String.eqb t "" then Headers.has (rq_headers rq) "Authorization" = false
                else exists v, Headers.value ("Bearer " +:+ t) = Ok v /\
                               Headers.get (rq_headers rq) "Authorization" = Some v
    | None => Headers.has (rq_headers rq) "Authorization" = false
    end.
Proof.
rewrite has_get in Ho. destruct (Headers.get (o_headers o) "Authorization") eqn:Hg; [done|].
unfold apiFetch, mbind, M_bind, gets, lift, io.
destruct (request_headers (wallet_token (w_env w)) o) as [h|e] eqn:Hh.
- apply request_headers_auth in Hh; [|done].
  destruct (http _ (w_env w)) as [r env']. cbn [w_env w_log]. exists [Fetched
    {| rq_url := getApiUrl +:+ path; rq_method := o_method o; rq_body := o_body o; rq_headers := h |} r].
  split; [by destruct r|]. split; [done|]. intros rq r' Hin.
  apply list_elem_of_singleton in Hin as [= -> ->]. split; [done|]. cbn [rq_headers].
  rewrite has_get. destruct (wallet_token (w_env w)) as [t|]; cbn in Hh; [|by rewrite Hh].
  destruct (String.eqb t ""); [by rewrite Hh | done].
- exists []. rewrite app_nil_r. split; [done|]. split; [cbn; lia|]. intros ? ? Hin.
  by apply not_elem_of_nil in Hin.
Qed.

(** A call resolves only with the JSON of a 2xx answer; any other answer that
    arrives rejects with an [Error] whose message is not empty. *)
Theorem apiFetch_outcome path o :
trace_spec (apiFetch path o) (fun l r =>
  forall rq resp text, l = [Fetched rq (Ok resp)] -> r_text resp = Ok text ->
    if r_ok resp then r = Json.parse text
    else exists m, r = Throw (mk_error m) /\ m <> "").
Proof.
eapply trace_weaken; [apply apiFetch_spec|].
intros l r [(-> & _)|(rq & resp & -> & _ & _ & _ & ->)] rq' resp' text [=] Ht; subst.
cbn. unfold read_response. rewrite Ht. cbn. destruct (r_ok resp'); cbn; [done|].
assert (Hne : forall a b, b <> "" -> str_or a b <> "").
{ intros a b Hb. unfold str_or. destruct (String.eqb_spec a ""); done. }
case_match; eexists; (split; [done|]); apply Hne; done.
Qed.
End ApiFacts.

(** ** A server that answers from a list of bodies *)
Module MockApi.
Record env := { token : option string; answers : list (Z * string) }.
Definition backend : Backend env := {|
  http := fun rq e => match answers e with
                      | (st, body) :: rest =>
                          (Ok {| r_status := st; r_text := Ok body |}, {| token := token e; answers := rest |})
                      | [] => (Throw (JErr CTypeError "fetch failed" []), e)
                      end;
  wallet_token := token;
  env_api_base_url := Some "http://api" |}.

Definition quoted (s : string) : string := dq +:+ s +:+ dq.
Definition member (k v : string) : string := quoted k +:+ ":" +:+ v.
Definition row (id : string) : string :=
"{" +:+ Str.join "," [member "id" (quoted id); member "issuer" (quoted "i"); member "buyer" (quoted "b");
  member "face_value" (quoted "10"); member "status" (quoted "Listed")] +:+ "}".
Definition page (rows : list string) (total : string) : string :=
"{" +:+ member "data" ("[" +:+ Str.join "," rows +:+ "]") +:+ "," +:+ member "totalPages" total +:+ "}".
Definition urls (l : list Http) : list string := map url l.
End MockApi.

Section ApiExamples.
#[local] Existing Instance RefZod.ref_zod.
#[local] Existing Instance MockApi.backend.

(** Two pages that overlap in one row; the walk stops at the page count. *)
Example walk_two_pages :
let e := {| MockApi.token := None; MockApi.answers :=
  [(200, MockApi.page [MockApi.row "a"; MockApi.row "b"] "2");
   (200, MockApi.page [MockApi.row "b"; MockApi.row "c"] "2"); (200, "never read")] |} in
let '(r, l) := run (getAllInvoices None (Some "i")) e in
MockApi.urls l = ["http://api/invoices?issuer=i&page=1&limit=100";
                  "http://api/invoices?issuer=i&page=2&limit=100"] /\
(map invoice_key <$> r) = Ok ["a"; "b"; "c"].
Proof. vm_compute. split; reflexivity. Qed.

Example outage_messages :
let answer st body := (run (apiFetch "/x" no_options)
  {| MockApi.token := None; MockApi.answers := [(st, body)] |}).1 in
answer 503 "" = Throw (mk_error "Service Temporarily Unavailable. Please try again later.") /\
answer 404 "" = Throw (mk_error "HTTP error! status: 404") /\
answer 400 ("{" +:+ MockApi.member "error" (MockApi.quoted "bad") +:+ "}") = Throw (mk_error "bad") /\
answer 500 "oops" = Throw (mk_error "oops") /\
answer 200 "[1]" = Ok (JArr [JNum (Num.of_Z 1)]).
Proof. vm_compute. repeat split. Qed.

Lemma apiFetch_bearer_witness :
exists rq r, (run (apiFetch "/stats" no_options)
  {| MockApi.token := Some "abc"; MockApi.answers := [(200, "1")] |}).2 = [Fetched rq r] /\
  Headers.get (rq_headers rq) "Authorization" = Some "Bearer abc".
Proof.
destruct (apiFetch_bearer "/stats" no_options (World {| MockApi.token := Some "abc";
  MockApi.answers := [(200, "1")] |} []) eq_refl) as (l & Hl & _ & H).
vm_compute in Hl. subst l. eexists _, _. split; [reflexivity|].
destruct (H _ _ (list_elem_of_here _ _)) as (_ & v & Hv & Hg). vm_compute in Hv.
injection Hv as <-. exact Hg.
Defined.
End ApiExamples.
