(* ===== verification/WebErrors.v ===== *)
(** * Errors in the web app ([apps/web/lib/errors.ts], [lib/toast.tsx], [hooks/useAppError.ts])

    Every caught value becomes an [AppError] (a class, a context and a message); the
    handlers log it and show a toast.  The clock is the interface [Clock]; what the user
    sees is the log of [Ui] events. *)

From S2P Require Import Prelude JsNumber JsString JsValue JsDate Effects.
Local Open Scope Z_scope.

Inductive ErrorType := Network | Contract | Validation | Unknown.
#[export] Instance ErrorType_eq_dec : EqDecision ErrorType.
Proof. solve_decision. Defined.

Definition type_name (t : ErrorType) : string :=
  match t with
  | Network => "network" | Contract => "contract" | Validation => "validation" | Unknown => "unknown"
  end.
Definition type_of_name (s : string) : ErrorType :=
  if String.eqb s "network" then Network else if String.eqb s "contract" then Contract
  else if String.eqb s "validation" then Validation else Unknown.

(** [new AppError(...)] at time [timestamp]. *)
Definition new_AppError (type : ErrorType) (context message : string) (originalError : jsval)
  (timestamp : Z) : jsval :=
  JErr CAppError message
    [("type", JStr (type_name type)); ("context", JStr context);
     ("timestamp", JNum (Num.of_Z timestamp)); ("originalError", originalError)].

(** [err.type] of an [AppError]. *)
Definition app_error_type (err : jsval) : ErrorType :=
  match field err "type" with JStr s => type_of_name s | _ => Unknown end.

(** [err.message] of an [Error]. *)
Definition error_msg (err : jsval) : string :=
  match err with JErr _ m _ => m | _ => "" end.

Definition classifyError (err : jsval) : ErrorType :=
  let mentions ps := is_error err && Str.includes_any (Str.to_lower (error_msg err)) ps in
  if instance_of CAppError err then app_error_type err
  else if instance_of CTypeError err then Network
  else if mentions ["network"; "fetch"; "timeout"] then Network
  else if mentions ["invalid"; "required"; "not connected"] then Validation
  else Contract.

Definition extractMessage (err : jsval) : string :=
  if is_error err then error_msg err
  else match err with JStr s => s | _ => "An unexpected error occurred" end.

Definition KNOWN_ERRORS (message : string) : option string :=
  if String.eqb message "Wallet not connected"
  then Some "Please connect your wallet to perform this action" else None.

Definition unexpected : string := "An unexpected error occurred".

Definition getErrorMessage (error : jsval) (fallback : string) : string :=
  match error with
  | JStr s => s
  | JErr _ m _ => m
  | _ => if truthy error && is_object error && has_field error "message" then
           match field error "message" with JStr m => m | _ => fallback end
         else fallback
  end.

Definition getUserFriendlyMessage (error : jsval) (fallback : option string) : string :=
  let message := getErrorMessage error unexpected in
  if opt_str_truthy fallback && String.eqb message unexpected then default "" fallback
  else opt_str_or (KNOWN_ERRORS message) message.

(** ** What the user sees *)
Inductive Ui :=
  | ConsoleError (line : string) (err : jsval)
  | ToastSuccess (action : string) (link : option string)
  | ToastError (action : string) (detail : option string).

Class Clock (Env : Type) := { now : Env -> Z * Env }.
(** [Date.now()] is a time value. *)
Class ClockLaws {Env : Type} (C : Clock Env) := {
  clock_range : forall e, Z.abs (now e).1 <= 8640000000000000 }.

Definition explorerUrl (txHash : string) : string :=
  "https://stellar.expert/explorer/testnet/tx/" +:+ txHash.

Section Ui.
Context {Env : Type} {C : Clock Env}.
Abbreviation IO := (M Env Ui).

(** [Date.now()]. *)
Definition date_now : IO Z := fun w => let '(t, e) := now (w_env w) in (Ok t, World e (w_log w)).

Definition showSuccessToast (action : string) (txHash : option string) : IO () :=
emit (ToastSuccess action (if opt_str_truthy txHash then explorerUrl <$> txHash else None)).

Definition showErrorToast (action : string) (error : option jsval) : IO () :=
emit (ToastError action (match error with
                         | Some e => if String.eqb (error_msg e) "" then None else Some (error_msg e)
                         | None => None
                         end)).

(** ** [createErrorHandler(context)] *)
Definition captureError (context : string) (error : jsval) : IO jsval :=
let type := classifyError error in
let message := extractMessage error in
t ← date_now;
stamp ← lift (Date.toISOString (Num.of_Z t));
emit (ConsoleError ("[" +:+ stamp +:+ "] [" +:+ context +:+ "] [" +:+ type_name type +:+ "] " +:+ message) error);;
t' ← date_now;
mret (new_AppError type context message error t').

Definition handleError (context : string) (error : jsval) (action : option string) : IO jsval :=
appError ← captureError context error;
(if opt_str_truthy action then showErrorToast (default "" action) (Some appError) else mret tt);;
mret appError.

Definition handleMutationError (context : string) (error : jsval) (action : string) : IO () :=
appError ← captureError context error;
showErrorToast action (Some appError).
End Ui.

(** ** [useAppError]: the error shown inline *)
Module AppErrorState.
Definition state := option string.
Definition initial : state := None.
Definition setError (e : option string) : state := e.
Definition clearError : state := None.
Definition handleError (err : jsval) (fallback : option string) : state :=
Some (str_or (getUserFriendlyMessage err fallback) "An error occurred").
End AppErrorState.

Example errors_tests :
  classifyError (JErr CTypeError "x" []) = Network /\
  classifyError (mk_error "Request TIMEOUT") = Network /\
  classifyError (mk_error "Amount is required") = Validation /\
  classifyError (JStr "network") = Contract /\
  getErrorMessage (JObj [("message", JStr "m")]) "f" = "m" /\
  getErrorMessage (JObj [("code", JNum (Num.of_Z 404))]) "Oops" = "Oops" /\
  getUserFriendlyMessage (mk_error "Wallet not connected") None =
    "Please connect your wallet to perform this action" /\
  getUserFriendlyMessage JNull (Some "Custom fallback") = "Custom fallback" /\
  getUserFriendlyMessage (mk_error "") None = "".
Proof. vm_compute. repeat split. Qed.

(** ** Properties *)
Lemma type_name_inv t : type_of_name (type_name t) = t.
Proof. by destruct t. Qed.

Lemma app_error_fields t c m e ts :
  classifyError (new_AppError t c m e ts) = t /\ extractMessage (new_AppError t c m e ts) = m /\
  field (new_AppError t c m e ts) "context" = JStr c /\
  field (new_AppError t c m e ts) "originalError" = e.
Proof. split; [exact (type_name_inv t) | done]. Qed.

Section Handlers.
Context {Env : Type} {C : Clock Env}.

Lemma trace_date_now (P : list Ui -> res Z -> Prop) : (forall t, P [] (Ok t)) -> trace_spec date_now P.
Proof.
intros H w. unfold date_now. destruct (now (w_env w)) as [t e]. exists [].
split; [by rewrite app_nil_r | apply H].
Qed.

(** The error logged and returned; only a clock outside the range of dates throws. *)
Definition captured (context : string) (error : jsval) (l : list Ui) (r : res jsval) : Prop :=
match r with
| Ok app => exists line ts, l = [ConsoleError line error] /\
              app = new_AppError (classifyError error) context (extractMessage error) error ts
| Throw e => l = [] /\ e = JErr CRangeError "Invalid time value" []
end.

Lemma captureError_spec context error :
trace_spec (captureError context error) (captured context error).
Proof.
apply trace_seq, trace_date_now. intros t. apply trace_seq, trace_lift.
unfold Date.toISOString. destruct (Date.time_clip _).
- apply trace_emit_seq, trace_seq, trace_date_now. intros t'. apply trace_ret.
  by eexists _, t'.
- done.
Qed.

Lemma time_clip_of_Z z : Z.abs z <= 8640000000000000 -> Date.time_clip (Num.of_Z z) = Some z.
Proof.
intros Hz. pose proof (of_Z_exact z ltac:(lia)) as H. unfold Num.to_Z in H. unfold Date.time_clip.
destruct (Num.exact (Num.of_Z z)) as [[p q]|]; [|done].
destruct (Z.eqb_spec (p mod Zpos q) 0) as [Hm|]; [|done]. injection H as H.
assert (p = z * Zpos q) as ->.
{ rewrite (Z.div_mod p (Zpos q)) by lia. lia. }
destruct (Z.leb_spec (Z.abs (z * Zpos q)) (8640000000000000 * Zpos q)); [|nia].
by rewrite Z.quot_mul by lia.
Qed.

(** With a clock in range nothing throws. *)
Lemma captureError_ok {L : ClockLaws C} context error :
trace_spec (captureError context error) (fun l r => exists line ts,
  l = [ConsoleError line error] /\
  r = Ok (new_AppError (classifyError error) context (extractMessage error) error ts)).
Proof.
intros w. unfold captureError, date_now, lift, emit, mbind, M_bind. cbn.
pose proof (clock_range (w_env w)) as H. destruct (now (w_env w)) as [t e] eqn:E. cbn in H.
unfold Date.toISOString. rewrite time_clip_of_Z by done. cbn.
destruct (now e) as [t' e']. eexists. split; [done|]. by eexists _, t'.
Qed.

(** An error handler logs the error once and returns it as an [AppError] of
    its class with its message; handling that [AppError] again changes neither, and the
    toast shown for a mutation carries the message. *)
Theorem handlers_stable context error action :
trace_spec (handleMutationError context error action) (fun l r =>
  r = Ok tt -> exists line,
    l = [ConsoleError line error;
         ToastError action (if String.eqb (extractMessage error) "" then None
                            else Some (extractMessage error))]) /\
trace_spec (handleError context error (Some action)) (fun l r =>
  forall app, r = Ok app ->
    instance_of CAppError app = true /\ classifyError app = classifyError error /\
    extractMessage app = extractMessage error /\ field app "originalError" = error /\
    (exists line, list.head l = Some (ConsoleError line error)) /\
    length (tail l) = if String.eqb action "" then 0%nat else 1%nat).
Proof.
split; apply trace_seq; (eapply trace_weaken; [apply captureError_spec|]);
  intros l [app|e] Hc; cbn in Hc; try (by intros); destruct Hc as (line & ts & -> & ->).
- apply trace_emit. intros _. by exists line.
- destruct (app_error_fields (classifyError error) context (extractMessage error) error ts)
    as (H1 & H2 & _ & H3).
  apply trace_seq. unfold opt_str_truthy. destruct (String.eqb action ""); cbn [negb].
  + apply trace_ret, trace_ret. intros app [= <-]. cbn [app list.head tail length].
    split_and!; try done. by exists line.
  + apply trace_emit, trace_ret. intros app [= <-]. split_and!; try done. by exists line.
Qed.
End Handlers.

Lemma inline_message err fallback :
  exists m, AppErrorState.handleError err fallback = Some m /\ m <> "".
Proof.
  eexists. split; [done|]. unfold str_or.
  by destruct (String.eqb_spec (getUserFriendlyMessage err fallback) "").
Qed.

(** The inline error state is a non-empty message for every caught value, and a
    caller's fallback is shown whenever the value carries no message of its own. *)
Theorem inline_error_shown err fallback :
  (exists m, AppErrorState.handleError err fallback = Some m /\ m <> "") /\
  (forall f, fallback = Some f -> f <> "" -> is_nullish err = true ->
     AppErrorState.handleError err fallback = Some f).
Proof.
  split.
  - apply inline_message.
  - intros f -> Hf Hn. unfold AppErrorState.handleError, getUserFriendlyMessage.
    destruct err; try done; cbn; destruct (String.eqb_spec f ""); try done; cbn;
      by rewrite str_or_nonempty.
Qed.
