(* ===== verification/Assets.v ===== *)
(** * Amounts and limits of the web app ([apps/web/lib/assets.ts], [validation.ts], [format.ts])

    The conversions between stroops and numbers go through floating point and are for
    display; the funded value is computed in bigint stroops and is exact. *)

From S2P Require Import Prelude JsNumber JsString JsValue SdkTypes.
From Stdlib Require SpecFloat.
Local Open Scope Z_scope.

Definition STROOP_DIVISOR : Z := 10000000.

Record AssetInfo := {
  ai_type : AssetType; ai_code : string; ai_label : string; ai_isNative : bool;
  ai_issuer : option string; ai_decimals : Z }.

(** [USDC_ISSUER] is the value [env.ts] resolved. *)
Definition ASSET_INFO (USDC_ISSUER : string) (a : AssetType) : AssetInfo :=
  match a with
  | USDC => {| ai_type := USDC; ai_code := "USDC"; ai_label := "USDC"; ai_isNative := false;
               ai_issuer := Some USDC_ISSUER; ai_decimals := 7 |}
  | XLM => {| ai_type := XLM; ai_code := "XLM"; ai_label := "XLM"; ai_isNative := true;
              ai_issuer := None; ai_decimals := 7 |}
  end.

(** Beyond the range of finite numbers the locale format is the infinity sign. *)
Definition formatAmount (amount : option Z) (asset : option AssetType) : string :=
  let asset := asset_name (nullish asset USDC) in
  match amount with
  | None => "0.00 " +:+ asset
  | Some z =>
      let x := Num.div (Num.of_Z z) (Num.of_Z STROOP_DIVISOR) in
      default "∞" (Num.to_locale2 x) +:+ " " +:+ asset
  end.

Definition stroopsToNumber (amount : Z) : num := Num.div (Num.of_Z amount) (Num.of_Z STROOP_DIVISOR).

Definition numberToStroops (amount : num) : res Z :=
  bigint_of_num (Num.floor (Num.mul amount (Num.of_Z STROOP_DIVISOR))).

Definition BPS_DENOMINATOR : Z := 10000.

Definition fundedValueStroops (faceValue : Z) (discountBps : num) : res Z :=
  if negb (Num.is_integer discountBps) then
    Throw (JErr CTypeError ("discountBps must be a whole number of basis points, got " +:+
                            Num.to_string discountBps) [])
  else
    bps ← bigint_of_num discountBps;
    let fee := Z.quot (faceValue * bps + BPS_DENOMINATOR - 1) BPS_DENOMINATOR in
    Ok (faceValue - fee).

Definition ASSET_OPTIONS : list (AssetType * string) := [(USDC, "USDC"); (XLM, "XLM")].

(** [validation.ts] *)
Definition MAX_DISCOUNT_BPS : Z := 5000.
Definition validateDiscountBps (bps : num) : bool :=
  Num.is_integer bps && Num.gtb bps Num.zero && Num.leb bps (Num.of_Z MAX_DISCOUNT_BPS).

(** [format.ts] *)
Definition truncateAddress (addr : string) : string :=
  if String.eqb addr "" then ""
  else Str.slice 0 6 addr +:+ "..." +:+ Str.slice_last 4 addr.

Example assets_tests :
  formatAmount (Some 1000000000) None = "100.00 USDC" /\
  formatAmount (Some 10000000000) (Some USDC) = "1,000.00 USDC" /\
  formatAmount None (Some XLM) = "0.00 XLM" /\
  numberToStroops (Num.of_decimal false 5 (-1)) = Ok 5000000 /\
  fundedValueStroops 1000000000 (Num.of_Z 500) = Ok 950000000 /\
  validateDiscountBps (Num.of_Z 5001) = false /\
  validateDiscountBps (Num.of_decimal false 25 (-1)) = false /\
  truncateAddress "GBBD47IF6LWK7P7MDEVSCWR7" = "GBBD47...CWR7".
Proof. vm_compute. repeat split. Qed.

(** ** Properties *)

(** The funded value is the exact share of the face value, rounded down to a
    stroop: no precision is lost at any magnitude.  It never exceeds the face value, a
    discount of zero leaves it unchanged, and a fractional rate is refused. *)
Theorem fundedValueStroops_exact face bps (Hf : 0 <= face) :
  match Num.to_Z bps with
  | Some b =>
      0 <= b ->
      fundedValueStroops face bps = Ok ((face * (10000 - b)) / 10000) /\
      (face * (10000 - b)) / 10000 <= face /\
      (b = 0 -> fundedValueStroops face bps = Ok face) /\
      (b <= 10000 -> 0 <= (face * (10000 - b)) / 10000)
  | None => exists m, fundedValueStroops face bps = Throw (JErr CTypeError m [])
  end.
Proof.
  unfold fundedValueStroops, bigint_of_num, Num.is_integer.
  destruct (Num.to_Z bps) as [b|]; [|by eexists]. intros Hb. cbn [negb mbind result_bind].
  assert (E : face - Z.quot (face * b + BPS_DENOMINATOR - 1) BPS_DENOMINATOR = face * (10000 - b) / 10000).
  { unfold BPS_DENOMINATOR. rewrite Z.quot_div_nonneg by nia.
    Z.to_euclidean_division_equations; nia. }
  rewrite E. split_and!; [done | | |].
  - apply Z.div_le_upper_bound; nia.
  - intros ->. f_equal. rewrite Z.sub_0_r. apply Z.div_mul. lia.
  - intros. apply Z.div_pos; nia.
Qed.

(** The discount check accepts exactly the whole rates from 1 to 5000, and an
    accepted rate funds at least half of the face value and strictly less than all of a
    positive one. *)
Theorem validateDiscountBps_spec face b (Hf : 0 < face) (Hb : Z.abs b < 2 ^ 53) :
  validateDiscountBps (Num.of_Z b) = (1 <=? b) && (b <=? 5000) /\
  (validateDiscountBps (Num.of_Z b) = true ->
     exists v, fundedValueStroops face (Num.of_Z b) = Ok v /\ face / 2 <= v < face).
Proof.
  assert (E : validateDiscountBps (Num.of_Z b) = (1 <=? b) && (b <=? 5000)).
  { unfold validateDiscountBps. rewrite of_Z_is_integer by lia. unfold Num.gtb, MAX_DISCOUNT_BPS.
    change (SpecFloat.SFltb Num.zero (Num.of_Z b)) with (Num.ltb (Num.of_Z 0) (Num.of_Z b)).
    rewrite of_Z_ltb, of_Z_leb by lia. cbn [andb]. f_equal. apply eq_true_iff_eq. lia. }
  split; [done|]. rewrite E. intros Hr. exists (face * (10000 - b) / 10000). split.
  - unfold fundedValueStroops, bigint_of_num, BPS_DENOMINATOR.
    rewrite of_Z_is_integer, of_Z_exact by lia. cbn [negb mbind result_bind]. f_equal.
    rewrite Z.quot_div_nonneg by nia. Z.to_euclidean_division_equations; nia.
  - split; [Z.to_euclidean_division_equations; nia | apply Z.div_lt_upper_bound; nia].
Qed.

(** Converting stroops to a number and back is not the identity, and the decimal
    amount 0.41 is one stroop short: rounding down after a floating-point product loses
    a stroop of an exact amount. *)
Theorem numberToStroops_loses_a_stroop :
  numberToStroops (stroopsToNumber 21) = Ok 20 /\
  numberToStroops (Num.of_decimal false 41 (-2)) = Ok 4099999.
Proof. vm_compute. split; reflexivity. Qed.

(** ** Witnesses *)
Lemma fundedValueStroops_exact_witness :
  fundedValueStroops 9007199254740993 (Num.of_Z 500) = Ok (9007199254740993 * 9500 / 10000).
Proof.
  exact (proj1 (fundedValueStroops_exact 9007199254740993 (Num.of_Z 500) ltac:(lia) ltac:(vm_compute; congruence))).
Defined.

Lemma validateDiscountBps_spec_witness :
  exists v, fundedValueStroops 7 (Num.of_Z 5000) = Ok v /\ 7 / 2 <= v < 7.
Proof.
  exact (proj2 (validateDiscountBps_spec 7 5000 ltac:(lia) ltac:(lia)) eq_refl).
Defined.
