(* ===== verification/Timeline.v ===== *)
(** * The invoice timeline and its PDF ([apps/web/lib/invoiceTimeline.ts], [invoicePdf.ts])

    One entry per lifecycle step, derived from the status, the confirmation flags and the
    bookkeeping fields of a parsed invoice.  The localised date formats ([Intl] in the
    browser's time zone) and the PDF library's text splitting are parameters. *)

From S2P Require Import Prelude JsNumber JsString JsValue JsDate SdkTypes Assets.
Local Open Scope Z_scope.

Inductive TimelineStepKey :=
  | created | listed | funded | shipped | issuerConfirmed | buyerConfirmed | settled.
#[export] Instance TimelineStepKey_eq_dec : EqDecision TimelineStepKey.
Proof. solve_decision. Defined.

Definition key_name (k : TimelineStepKey) : string :=
  match k with
  | created => "created" | listed => "listed" | funded => "funded" | shipped => "shipped"
  | issuerConfirmed => "issuerConfirmed" | buyerConfirmed => "buyerConfirmed" | settled => "settled"
  end.

Definition TIMELINE_STEPS : list (TimelineStepKey * string) :=
  [(created, "Created"); (listed, "Listed for Financing"); (funded, "Funded by Pool");
   (shipped, "Marked as Shipped"); (issuerConfirmed, "Delivery Confirmed - Issuer");
   (buyerConfirmed, "Delivery Confirmed - Buyer"); (settled, "Repaid / Defaulted")].

Definition statusProgress (s : InvoiceStatus) : nat :=
  match s with
  | Created => 0 | Listed => 1 | Funded => 2 | Active => 4 | Confirmed => 5 | Repaid => 6 | Defaulted => 6
  end.

(** [invoice.status === s]. *)
Definition has_status (invoice : jsval) (s : InvoiceStatus) : bool :=
  match field invoice "status" with JStr x => String.eqb x (status_name s) | _ => false end.

Definition getCurrentTimelineIndex (invoice : jsval) : nat :=
  if has_status invoice Repaid || has_status invoice Defaulted then 6
  else if truthy (field invoice "buyerConfirmed") || has_status invoice Confirmed then 5
  else if truthy (field invoice "issuerConfirmed") || truthy (field invoice "shippedAt") ||
          has_status invoice Active then 4
  else match field invoice "status" with
       | JStr s => default 0%nat (statusProgress <$> status_of_name s)
       | _ => 0%nat
       end.

Definition getTimestamp (invoice : jsval) (key : TimelineStepKey) : jsval :=
  let f k := field invoice k in
  match key with
  | created => js_nullish (f "createdAt") JNull
  | listed => js_nullish (f "listedAt") JNull
  | funded => js_nullish (f "fundedAt") JNull
  | shipped | issuerConfirmed => js_or (js_or (f "shippedAt") (f "issuerConfirmedAt")) JNull
  | buyerConfirmed => js_nullish (f "buyerConfirmedAt") JNull
  | settled => if has_status invoice Defaulted then js_nullish (f "defaultedAt") JNull
               else js_nullish (f "repaidAt") JNull
  end.

Definition hash_fields (invoice : jsval) (key : TimelineStepKey) : list string :=
  match key with
  | created => ["createdTxHash"; "created_tx_hash"]
  | listed => ["listedTxHash"; "listed_tx_hash"]
  | funded => ["fundedTxHash"; "funded_tx_hash"]
  | shipped => ["shippedTxHash"; "shipped_tx_hash"]
  | issuerConfirmed => ["issuerConfirmedTxHash"; "issuer_confirmed_tx_hash";
                        "shippedTxHash"; "shipped_tx_hash"]
  | buyerConfirmed => ["buyerConfirmedTxHash"; "buyer_confirmed_tx_hash"]
  | settled => if has_status invoice Defaulted then ["defaultedTxHash"; "defaulted_tx_hash"]
               else ["repaidTxHash"; "repaid_tx_hash"]
  end.

(** The first field that holds a non-empty string. *)
Fixpoint first_hash (invoice : jsval) (names : list string) : jsval :=
  match names with
  | [] => JNull
  | n :: rest => match field invoice n with
                 | JStr s => if String.eqb s "" then first_hash invoice rest else JStr s
                 | _ => first_hash invoice rest
                 end
  end.

Definition getTxHash (invoice : jsval) (key : TimelineStepKey) : jsval :=
  let mapHash := js_or (opt_field (field invoice "transactionHashes") (key_name key))
                       (opt_field (field invoice "txHashes") (key_name key)) in
  if truthy mapHash then mapHash else first_hash invoice (hash_fields invoice key).

Definition truncateTxHash (hash : string) : string :=
  if (Str.len hash <=? 14)%nat then hash
  else Str.slice 0 8 hash +:+ "..." +:+ Str.slice_last 6 hash.

Record InvoiceTimelineEntry := {
  te_key : TimelineStepKey; te_label : string; te_isComplete : bool; te_isCurrent : bool;
  te_timestamp : jsval; te_timestampLabel : string; te_txHash : jsval }.

Section Format.
(** [Intl.DateTimeFormat("en-US", ...).format] of a time value: with the time of day, and
    date only. *)
Context (format_datetime format_date : Z -> string).

(** [format(new Date(timestamp * 1000))]. *)
Definition format_seconds (fmt : Z -> string) (timestamp : num) : res string :=
match Date.time_clip (Num.mul timestamp (Num.of_Z 1000)) with
| Some t => Ok (fmt t)
| None => Throw (JErr CRangeError "Invalid time value" [])
end.

Definition formatTimelineTimestamp (timestamp : jsval) : res string :=
if negb (truthy timestamp) then Ok "Pending"
else n ← to_number timestamp; format_seconds format_datetime n.

Definition settledLabel (invoice : jsval) : string :=
if has_status invoice Repaid then "Repaid"
else if has_status invoice Defaulted then "Defaulted" else "Repaid / Defaulted".

Definition timeline_entry (invoice : jsval) (index : nat) (step : TimelineStepKey * string) :
  res InvoiceTimelineEntry :=
let currentIndex := getCurrentTimelineIndex invoice in
let timestamp := getTimestamp invoice step.1 in
label ← formatTimelineTimestamp timestamp;
Ok {| te_key := step.1;
      te_label := if bool_decide (step.1 = settled) then settledLabel invoice else step.2;
      te_isComplete := (index <=? currentIndex)%nat;
      te_isCurrent := (index =? currentIndex)%nat;
      te_timestamp := timestamp;
      te_timestampLabel := label;
      te_txHash := getTxHash invoice step.1 |}.

Definition buildInvoiceTimeline (invoice : jsval) : res (list InvoiceTimelineEntry) :=
map_result (fun p => timeline_entry invoice p.1 p.2) (imap pair TIMELINE_STEPS).

(** ** The exported document *)
Definition formatDiscountRate (discountBps : num) : string :=
if negb (Num.truthy discountBps) then em_dash
else Num.to_fixed (Num.div discountBps (Num.of_Z 100)) 2 +:+ "%".

Definition invoicePdfFileName (invoice : Invoice) : string :=
"trusttrove-invoice-" +:+ Str.slice 0 8 (inv_id invoice) +:+ ".pdf".

Record InvoicePdfContent := {
pdf_title : string;
pdf_fields : list (string * string);
pdf_timeline : list (string * string * jsval) }.

(** [invoice] and the object it was read from, which the timeline looks into. *)
Definition buildInvoicePdfContent (invoice : Invoice) (raw : jsval) : res InvoicePdfContent :=
due ← format_seconds format_date (inv_dueDate invoice);
entries ← buildInvoiceTimeline raw;
Ok {| pdf_title := "TrusTrove Invoice";
      pdf_fields :=
        [("Invoice ID", inv_id invoice); ("Status", status_name (inv_status invoice));
         ("Face value", formatAmount (Some (inv_faceValue invoice)) (Some (inv_asset invoice)));
         ("Discount rate", formatDiscountRate (inv_discountBps invoice));
         ("Funded amount", formatAmount (Some (inv_fundedAmount invoice)) (Some (inv_asset invoice)));
         ("Issuer", inv_issuer invoice); ("Buyer", inv_buyer invoice); ("Due date", due)];
      pdf_timeline := map (fun e => (te_label e, te_timestampLabel e, te_txHash e)) entries |}.
End Format.

(** *** Layout: what [generateInvoicePdf] draws, as a sequence of drawing operations in
    points from the top of a page (font and colour changes are not recorded). *)
Section Layout.
Context (splitTextToSize : string -> Z -> list string) (pageWidth pageHeight : Z).

Definition PAGE_MARGIN : Z := 48.
Definition LABEL_WIDTH : Z := 132.
Definition LINE_HEIGHT : Z := 15.

Inductive draw := AddPage | Text (s : string) (x y : Z).
Record canvas := { y_pos : Z; drawn : list draw }.

Definition ensureSpace (needed : Z) (c : canvas) : canvas :=
if pageHeight - PAGE_MARGIN <? y_pos c + needed
then {| y_pos := PAGE_MARGIN; drawn := drawn c ++ [AddPage] |} else c.

Definition text (s : string) (x : Z) (c : canvas) : canvas :=
{| y_pos := y_pos c; drawn := drawn c ++ [Text s x (y_pos c)] |}.
Definition down (n : Z) (c : canvas) : canvas := {| y_pos := y_pos c + n; drawn := drawn c |}.

Definition writeHeading (s : string) (c : canvas) : canvas :=
down 20 (text s PAGE_MARGIN (ensureSpace 30 c)).

Definition writeField (f : string * string) (c : canvas) : canvas :=
let lines := splitTextToSize f.2 (pageWidth - PAGE_MARGIN * 2 - LABEL_WIDTH) in
let n := Z.of_nat (length lines) in
let c := text (Str.to_upper f.1) PAGE_MARGIN (ensureSpace (n * LINE_HEIGHT + 6) c) in
let c := {| y_pos := y_pos c;
            drawn := drawn c ++ imap (fun i l =>
              Text l (PAGE_MARGIN + LABEL_WIDTH) (y_pos c + Z.of_nat i * LINE_HEIGHT)) lines |} in
down (Z.max n 1 * LINE_HEIGHT + 6) c.

Definition timeline_field (e : string * string * jsval) : string * string :=
let '(label, stamp, hash) := e in
(label, if truthy hash then stamp +:+ "  " +:+ String (chr 183) ("  tx " +:+ to_str hash) else stamp).

Definition draw_content (content : InvoicePdfContent) (generated : string) : list draw :=
let c := {| y_pos := PAGE_MARGIN; drawn := [] |} in
let c := down 22 (text (pdf_title content) PAGE_MARGIN c) in
let c := down 26 (text ("Generated " +:+ generated) PAGE_MARGIN c) in
let c := writeHeading "Invoice details" c in
let c := foldl (fun c f => writeField f c) c (pdf_fields content) in
let c := writeHeading "Status timeline" (down 10 c) in
drawn (foldl (fun c e => writeField (timeline_field e) c) c (pdf_timeline content)).
End Layout.

(** ** Properties *)
Example timeline_tests :
  let inv := JObj [("id", JStr "a"); ("status", JStr "Active"); ("createdAt", JNum (Num.of_Z 5));
                   ("shippedAt", JNum (Num.of_Z 9)); ("listedTxHash", JStr ""); ("listed_tx_hash", JStr "h");
                   ("txHashes", JObj [("funded", JStr "f")])] in
  (map (fun e => (te_isComplete e, te_isCurrent e, te_timestampLabel e, te_txHash e)) <$>
     buildInvoiceTimeline (fun t => Num.bigint_to_string t) inv) =
  Ok [(true, false, "5000", JNull); (true, false, "Pending", JStr "h"); (true, false, "Pending", JStr "f");
      (true, false, "9000", JNull); (true, true, "9000", JNull); (false, false, "Pending", JNull);
      (false, false, "Pending", JNull)] /\
  truncateTxHash "12345678901234" = "12345678901234" /\
  truncateTxHash "123456789012345" = "12345678...012345".
Proof. vm_compute. repeat split. Qed.

Lemma current_index_range invoice :
  In (getCurrentTimelineIndex invoice) [0; 1; 2; 4; 5; 6]%nat.
Proof.
  unfold getCurrentTimelineIndex.
  repeat (case_match; [cbn; tauto|]). case_match; try (cbn; tauto).
  unfold statusProgress. destruct (status_of_name _) as [[]|]; cbn; tauto.
Qed.

(** A timeline has the seven lifecycle steps in order; the completed ones are
    a prefix that ends with the current step, exactly one step is current, and the
    shipping step never is (shipping and the issuer's confirmation are one event). *)
Theorem buildInvoiceTimeline_shape fmt invoice entries
  (H : buildInvoiceTimeline fmt invoice = Ok entries) :
  map te_key entries = map fst TIMELINE_STEPS /\
  (forall i e, entries !! i = Some e ->
     (te_isComplete e = true <-> (i <= getCurrentTimelineIndex invoice)%nat) /\
     (te_isCurrent e = true <-> i = getCurrentTimelineIndex invoice)) /\
  (exists e, entries !! getCurrentTimelineIndex invoice = Some e /\ te_isCurrent e = true /\
             te_isComplete e = true /\ te_key e <> shipped).
Proof.
  unfold buildInvoiceTimeline in H. apply map_result_ok in H.
  assert (Hentry : forall i p e, timeline_entry fmt invoice i p = Ok e ->
    te_key e = p.1 /\ te_isComplete e = (i <=? getCurrentTimelineIndex invoice)%nat /\
    te_isCurrent e = (i =? getCurrentTimelineIndex invoice)%nat).
  { intros i p e He. unfold timeline_entry in He. apply bind_ok in He as (label & _ & [= <-]). done. }
  cbn in H. repeat match goal with
  | H : Forall2 _ (_ :: _) _ |- _ => apply Forall2_cons_inv_l in H as (? & ? & ?%Hentry & H & ->)
  | H : Forall2 _ [] _ |- _ => apply Forall2_nil_inv_l in H as ->
  end. clear Hentry. destruct_and!. cbn [fst snd] in *. split; [cbn; congruence|]. split.
  - intros i e Hi.
    do 7 (destruct i as [|i]; [injection Hi as <-;
      repeat match goal with H : te_isComplete ?e = _ |- context [te_isComplete ?e] => rewrite H end;
      repeat match goal with H : te_isCurrent ?e = _ |- context [te_isCurrent ?e] => rewrite H end;
      rewrite Nat.leb_le, Nat.eqb_eq; done|]). done.
  - pose proof (current_index_range invoice) as Hr. cbn [In] in Hr.
    destruct_or!; try done;
      match goal with H : ?n = getCurrentTimelineIndex invoice |- _ => rewrite <- H in * end;
      (eexists; split; [reflexivity|]);
      repeat match goal with H : te_isComplete ?e = _ |- context [te_isComplete ?e] => rewrite H end;
      repeat match goal with H : te_isCurrent ?e = _ |- context [te_isCurrent ?e] => rewrite H end;
      repeat match goal with H : te_key ?e = _ |- context [te_key ?e] => rewrite H end; done.
Qed.

Section LayoutFacts.
Context (split : string -> Z -> list string) (W H : Z).

Definition on_page (d : draw) : Prop :=
match d with AddPage => True | Text _ _ y => PAGE_MARGIN <= y <= H - PAGE_MARGIN end.
Definition canvas_ok (c : canvas) : Prop := PAGE_MARGIN <= y_pos c /\ Forall on_page (drawn c).

(** The field's lines fit between the margins of one page. *)
Definition fits (f : string * string) : Prop :=
Z.of_nat (length (split f.2 (W - PAGE_MARGIN * 2 - LABEL_WIDTH))) * LINE_HEIGHT + 6 <= H - PAGE_MARGIN * 2.

Lemma ensureSpace_ok needed c : canvas_ok c -> needed <= H - PAGE_MARGIN * 2 ->
canvas_ok (ensureSpace H needed c) /\ y_pos (ensureSpace H needed c) + needed <= H - PAGE_MARGIN.
Proof.
intros [Hy HF] Hn. unfold ensureSpace. destruct (Z.ltb_spec (H - PAGE_MARGIN) (y_pos c + needed)); cbn.
- split; [split; cbn; [lia|] | lia]. apply Forall_app. split; [done | by repeat constructor].
- by split.
Qed.

Lemma text_ok s x c : canvas_ok c -> y_pos c <= H - PAGE_MARGIN -> canvas_ok (text s x c).
Proof.
intros [Hy HF] Hb. split; [done|]. cbn. apply Forall_app. split; [done|]. repeat constructor; cbn; lia.
Qed.

Lemma down_ok n c : 0 <= n -> canvas_ok c -> canvas_ok (down n c).
Proof. intros Hn [Hy HF]. split; cbn; [lia | done]. Qed.

Lemma writeHeading_ok s c : 30 <= H - PAGE_MARGIN * 2 -> canvas_ok c -> canvas_ok (writeHeading H s c).
Proof.
intros Hn Hc. destruct (ensureSpace_ok 30 c Hc Hn). apply down_ok, text_ok; (done || lia).
Qed.

Lemma writeField_ok f c : fits f -> canvas_ok c -> canvas_ok (writeField split W H f c).
Proof.
intros Hf Hc. unfold writeField. destruct (ensureSpace_ok _ c Hc Hf) as [Hc' Hy].
set (lines := split _ _) in *. apply down_ok; [unfold LINE_HEIGHT; lia|].
destruct (text_ok (Str.to_upper f.1) PAGE_MARGIN _ Hc' ltac:(unfold LINE_HEIGHT in *; lia)) as [Hy' HF].
split; [done|]. cbn [drawn]. apply Forall_app. split; [exact HF|].
apply Forall_lookup. intros i d Hi. rewrite list_lookup_imap in Hi.
destruct (lines !! i) as [l|] eqn:E; [|done]. injection Hi as <-. cbn.
apply lookup_lt_Some in E. destruct Hc' as [? _]. unfold LINE_HEIGHT in *. lia.
Qed.

Lemma fold_ok {A} (g : A -> string * string) (l : list A) c :
Forall (fun a => fits (g a)) l -> canvas_ok c ->
canvas_ok (foldl (fun c a => writeField split W H (g a) c) c l).
Proof.
revert c. induction l as [|a l IH]; intros c HF Hc; [done|]. apply list.Forall_cons in HF as [? ?].
cbn. apply IH; [done|]. by apply writeField_ok.
Qed.

(** Nothing is drawn outside the margins: as long as each field fits on a page of
    its own, every line of the exported document lies between them. *)
Theorem draw_content_in_page content generated
  (HH : 144 <= H) (H1 : Forall fits (pdf_fields content))
  (H2 : Forall (fun e => fits (timeline_field e)) (pdf_timeline content)) :
Forall on_page (draw_content split W H content generated).
Proof.
unfold draw_content. apply fold_ok; [done|].
apply writeHeading_ok, down_ok, (fold_ok (fun f => f)); try (done || unfold PAGE_MARGIN; lia).
apply writeHeading_ok; [unfold PAGE_MARGIN; lia|].
apply down_ok, text_ok; try (unfold PAGE_MARGIN; cbn; lia).
apply down_ok, text_ok; try (unfold PAGE_MARGIN; cbn; lia).
split; [cbn; lia | constructor].
Qed.
End LayoutFacts.

(** ** Witnesses *)
Definition sample_timeline_invoice : jsval :=
  JObj [("id", JStr "a"); ("status", JStr "Funded"); ("createdAt", JNum (Num.of_Z 5))].

Lemma buildInvoiceTimeline_shape_witness :
  exists entries e, buildInvoiceTimeline Num.bigint_to_string sample_timeline_invoice = Ok entries /\
    entries !! 2%nat = Some e /\ te_isCurrent e = true.
Proof.
  destruct (buildInvoiceTimeline Num.bigint_to_string sample_timeline_invoice) as [entries|e] eqn:E;
    [|vm_compute in E; discriminate E].
  destruct (buildInvoiceTimeline_shape _ _ _ E) as (_ & _ & e & H1 & H2 & _).
  exists entries, e. split; [reflexivity|]. split; [exact H1 | exact H2].
Defined.

Definition sample_pdf : InvoicePdfContent :=
  {| pdf_title := "TrusTrove Invoice"; pdf_fields := [("Invoice ID", "a"); ("Status", "Funded")];
     pdf_timeline := [("Created", "Jan 1", JStr "hash"); ("Listed", "Pending", JNull)] |}.

Lemma draw_content_in_page_witness :
  Forall (on_page 842) (draw_content (fun s _ => [s]) 595 842 sample_pdf "now").
Proof.
  apply draw_content_in_page; [lia | repeat constructor; vm_compute; congruence..].
Defined.
