(* ===== verification/Storage.v ===== *)
(** * Browser state of the web app ([apps/web/lib/storage.ts], [notification-preferences.ts],
    [theme.ts], [hooks/useTheme.ts], [store/onboarding.ts], [store/confirmDialog.ts])

    [localStorage] is a list of items in enumeration order that may refuse to be read or
    written; the document is the [dark] class and the colour scheme of the root element.
    [useTheme] is a state machine over both. *)

From S2P Require Import Prelude JsNumber JsString JsValue JsJson JsonRoundTrip.

Record storage := {
  items : list (string * string);
  readable : bool;                          (* [getItem] and [key] do not throw *)
  writable : string -> string -> bool }.    (* [setItem] does not throw *)

Definition security_error : jsval := mk_error "The operation is insecure.".
Definition keys (s : storage) : list string := (items s).*1.

Fixpoint lookup_item (l : list (string * string)) (k : string) : option string :=
  match l with [] => None | (k', v) :: r => if String.eqb k k' then Some v else lookup_item r k end.
Fixpoint put_item (l : list (string * string)) (k v : string) : list (string * string) :=
  match l with
  | [] => [(k, v)]
  | (k', v') :: r => if String.eqb k k' then (k', v) :: r else (k', v') :: put_item r k v
  end.

Definition getItem (s : storage) (k : string) : res (option string) :=
  if readable s then Ok (lookup_item (items s) k) else Throw security_error.
Definition setItem (s : storage) (k v : string) : res storage :=
  if writable s k v
  then Ok {| items := put_item (items s) k v; readable := readable s; writable := writable s |}
  else Throw security_error.
Definition removeItem (s : storage) (k : string) : storage :=
  {| items := List.filter (fun kv => negb (String.eqb kv.1 k)) (items s);
     readable := readable s; writable := writable s |}.

(** [try { setItem } catch {}]. *)
Definition setItem_safe (s : storage) (k v : string) : storage :=
  match setItem s k v with Ok s' => s' | Throw _ => s end.
(** [try { localStorage.setItem(key, JSON.stringify(v)) } catch {}]; every value stored
    is an object or an array, so the text is defined. *)
Definition store_json (s : storage) (key : string) (v : jsval) : storage :=
  match Json.stringify v with
  | Ok (Some t) => setItem_safe s key t
  | _ => s
  end.

(** ** Keys and the wipe ([storage.ts]) *)
Definition STORAGE_NAMESPACE : string := "trusttrove".
Definition STORAGE_KEY_PREFIXES : list string := [STORAGE_NAMESPACE +:+ ":"; STORAGE_NAMESPACE +:+ "_"].
Definition notificationHistoryKey (address : string) : string :=
  STORAGE_NAMESPACE +:+ "_notifs_" +:+ address.
Definition isAppStorageKey (key : string) : bool := existsb (Str.starts_with key) STORAGE_KEY_PREFIXES.

(** The loop over [storage.key(i)]: [n] iterations are left. *)
Fixpoint owned_keys (ks : list string) (n i : nat) : list string :=
  match n with
  | O => []
  | S n => (match ks !! i with
            | Some key => if negb (String.eqb key "") && isAppStorageKey key then [key] else []
            | None => []
            end) ++ owned_keys ks n (S i)
  end.

Definition clearAppStorage (s : storage) : res (list string * storage) :=
  if negb (readable s) then Throw security_error
  else
    let owned := owned_keys (keys s) (length (keys s)) 0 in
    Ok (owned, foldl removeItem s owned).

(** ** Preferences ([notification-preferences.ts]) *)
Definition NOTIFICATION_CATEGORIES : list string :=
  ["Invoice Created"; "Invoice Listed"; "Invoice Funded"; "Invoice Shipped"; "Delivery Confirmed";
   "Invoice Repaid"; "Invoice Defaulted"].
Definition prefsStorageKey (address : string) : string := "trusttrove_prefs_" +:+ address.

Definition default_prefs : jsval :=
  JObj (foldl (fun d c => JsValue.set d c (JBool true)) [] NOTIFICATION_CATEGORIES).
Definition readStoredPrefs (s : storage) (storageKey : string) : jsval :=
  match getItem s storageKey with
  | Ok (Some stored) =>
      if String.eqb stored "" then default_prefs
      else match Json.parse stored with Ok v => v | Throw _ => default_prefs end
  | _ => default_prefs
  end.

(** ** Themes ([theme.ts]) *)
Inductive Theme := Light | Dark.
#[export] Instance Theme_eq_dec : EqDecision Theme.
Proof. solve_decision. Defined.
Definition theme_name (t : Theme) : string := match t with Light => "light" | Dark => "dark" end.
Definition THEME_STORAGE_KEY : string := "trusttrove:theme".
Definition DEFAULT_THEME : Theme := Dark.

Definition isTheme (v : option string) : option Theme :=
  match v with
  | Some s => if String.eqb s "light" then Some Light else if String.eqb s "dark" then Some Dark else None
  | None => None
  end.
Definition readStoredTheme (s : storage) : option Theme :=
  match getItem s THEME_STORAGE_KEY with Ok v => isTheme v | Throw _ => None end.
Definition storeTheme (s : storage) (t : Theme) : storage := setItem_safe s THEME_STORAGE_KEY (theme_name t).

(** [matchMedia]: absent or throwing, or whether the system prefers light. *)
Definition getSystemTheme (prefers_light : option bool) : Theme :=
  match prefers_light with
  | None => DEFAULT_THEME
  | Some true => Light
  | Some false => Dark
  end.
Definition resolveInitialTheme (s : storage) (prefers_light : option bool) : Theme :=
  default (getSystemTheme prefers_light) (readStoredTheme s).

Record document := { dark : bool; colorScheme : string }.
Definition applyTheme (t : Theme) : document :=
  {| dark := bool_decide (t = Dark); colorScheme := theme_name t |}.

(** [THEME_BOOTSTRAP_SCRIPT], run before the first paint; [key_throws] says whether
    reading the stored value threw. *)
Definition bootstrap (s : storage) (prefers_light : option bool) : document :=
  let stored := match getItem s THEME_STORAGE_KEY with Ok v => v | Throw _ => None end in
  let t := match isTheme stored with
           | Some t => t
           | None => match prefers_light with Some true => Light | _ => Dark end
           end in
  {| dark := bool_decide (t = Dark); colorScheme := theme_name t |}.

(** ** [useTheme] *)
Module UseTheme.
Record state := {
  st_storage : storage; st_media : option bool; st_doc : document;
  theme : Theme; mounted : bool }.

Definition initial (s : storage) (media : option bool) (doc : document) : state :=
{| st_storage := s; st_media := media; st_doc := doc; theme := DEFAULT_THEME; mounted := false |}.

Definition adopt (s : state) (t : Theme) : state :=
{| st_storage := st_storage s; st_media := st_media s; st_doc := applyTheme t; theme := t;
   mounted := mounted s |}.

(** The first effect. *)
Definition mount (s : state) : state :=
let s := adopt s (resolveInitialTheme (st_storage s) (st_media s)) in
{| st_storage := st_storage s; st_media := st_media s; st_doc := st_doc s; theme := theme s;
   mounted := true |}.

Definition setTheme (s : state) (next : Theme) : state :=
{| st_storage := storeTheme (st_storage s) next; st_media := st_media s;
   st_doc := applyTheme next; theme := next; mounted := mounted s |}.
Definition toggleTheme (s : state) : state := setTheme s (if dark (st_doc s) then Light else Dark).

(** The system preference changed, and its listener ran. *)
Definition osChange (s : state) (light : bool) : state :=
match st_media s with
| None => s
| Some _ =>
    let s := {| st_storage := st_storage s; st_media := Some light; st_doc := st_doc s;
                theme := theme s; mounted := mounted s |} in
    match readStoredTheme (st_storage s) with
    | Some _ => s
    | None => adopt s (getSystemTheme (st_media s))
    end
end.

(** Another tab wrote [items'] and this one got a storage event. *)
Definition onStorage (s : state) (items' : list (string * string)) (key : option string) : state :=
let st := {| items := items'; readable := readable (st_storage s); writable := writable (st_storage s) |} in
let s := {| st_storage := st; st_media := st_media s; st_doc := st_doc s; theme := theme s;
            mounted := mounted s |} in
match key with
| Some k => if String.eqb k THEME_STORAGE_KEY then adopt s (resolveInitialTheme st (st_media s)) else s
| None => adopt s (resolveInitialTheme st (st_media s))
end.

Inductive event :=
  | SetTheme (t : Theme) | Toggle | OsChange (light : bool)
  | StorageEvent (items' : list (string * string)) (key : option string).
Definition step (s : state) (e : event) : state :=
match e with
| SetTheme t => setTheme s t
| Toggle => toggleTheme s
| OsChange l => osChange s l
| StorageEvent i k => onStorage s i k
end.
End UseTheme.

(** ** Onboarding and the confirmation dialog *)
Definition ONBOARDING_SEEN_KEY : string := "trusttrove:onboarding-tour-seen".
Definition hasSeenOnboarding (s : storage) : bool :=
  match getItem s ONBOARDING_SEEN_KEY with
  | Ok v => bool_decide (v = Some "true")
  | Throw _ => true
  end.
Definition markOnboardingSeen (s : storage) : storage := setItem_safe s ONBOARDING_SEEN_KEY "true".

Module Onboarding.
Definition state := bool.
Definition initial : state := false.
Definition start (_ : state) : state := true.
Definition close (_ : state) : state := false.
End Onboarding.

Module ConfirmDialog.
Record PendingAction (A : Type) := { label : string; invoiceId : string; fn : A }.
Arguments label {A}.
Arguments invoiceId {A}.
Arguments fn {A}.
Definition state (A : Type) := option (PendingAction A).
Definition initial {A} : state A := None.
Definition request {A} (_ : state A) (a : PendingAction A) : state A := Some a.
Definition cancel {A} (_ : state A) : state A := None.
End ConfirmDialog.

(** ** Lemmas on items *)
Lemma lookup_put_eq l k v : lookup_item (put_item l k v) k = Some v.
Proof.
  induction l as [|[k' v'] l IH]; cbn; [by rewrite String.eqb_refl|].
  destruct (String.eqb_spec k k') as [->|]; cbn; [by rewrite String.eqb_refl|].
  by destruct (String.eqb_spec k k').
Qed.

Lemma lookup_put_ne l k k' v : k <> k' -> lookup_item (put_item l k v) k' = lookup_item l k'.
Proof.
  intros Hne. induction l as [|[k1 v1] l IH]; cbn.
  - by destruct (String.eqb_spec k' k) as [->|].
  - destruct (String.eqb_spec k k1) as [->|]; cbn.
    + by destruct (String.eqb_spec k' k1) as [->|].
    + by destruct (String.eqb_spec k' k1).
Qed.

Lemma setItem_safe_other s k v k' : k <> k' ->
  lookup_item (items (setItem_safe s k v)) k' = lookup_item (items s) k'.
Proof.
  intros Hne. unfold setItem_safe, setItem. destruct (writable s k v); [|done].
  by apply lookup_put_ne.
Qed.

(** Storage that can be read and written. *)
Definition available (s : storage) : Prop := readable s = true /\ forall k v, writable s k v = true.

Lemma store_json_lookup s k v : available s -> RoundTrip.storable v = true ->
  exists t, lookup_item (items (store_json s k v)) k = Some t /\ t <> "" /\ Json.parse t = Ok v.
Proof.
  intros [Hr Hw] (t & Ht & Hne & Hp)%parse_stringify. exists t. unfold store_json, setItem_safe, setItem.
  rewrite Ht, Hw. cbn [items]. by rewrite lookup_put_eq.
Qed.
Lemma store_json_available s k v : available s -> available (store_json s k v).
Proof.
  intros [Hr Hw]. unfold store_json, setItem_safe, setItem. case_match; [|done]. case_match; [|done]. by rewrite Hw.
Qed.
Lemma store_json_other s k v k' : k <> k' ->
  lookup_item (items (store_json s k v)) k' = lookup_item (items s) k'.
Proof. intros H. unfold store_json. case_match; [|done]. case_match; [by apply setItem_safe_other|done]. Qed.

Definition empty_storage : storage := {| items := []; readable := true; writable := fun _ _ => true |}.
Lemma empty_available : available empty_storage. Proof. by split. Qed.

(** ** The wipe *)
Lemma owned_keys_spec ks1 ks2 :
  owned_keys (ks1 ++ ks2) (length ks2) (length ks1) = List.filter isAppStorageKey ks2.
Proof.
  revert ks1. induction ks2 as [|k ks2 IH]; intros ks1; [done|]. cbn [length owned_keys].
  rewrite list_lookup_middle by done. cbn [List.filter].
  specialize (IH (ks1 ++ [k])). rewrite <- app_assoc, length_app in IH. cbn in IH.
  replace (length ks1 + 1)%nat with (S (length ks1)) in IH by lia. rewrite IH.
  destruct (String.eqb_spec k "") as [->|]; [done|]. cbn [negb andb].
  by destruct (isAppStorageKey k).
Qed.

Lemma remove_all_items s owned :
  items (foldl removeItem s owned) =
  List.filter (fun kv => negb (existsb (String.eqb kv.1) owned)) (items s).
Proof.
  revert s. induction owned as [|k owned IH]; intros s; cbn [foldl existsb].
  - induction (items s) as [|x l IHl]; [done|]. cbn. by f_equal.
  - rewrite IH. cbn [removeItem items]. induction (items s) as [|x l IHl]; [done|]. cbn.
    destruct (String.eqb x.1 k); cbn [negb orb]; [done|]. cbn. by rewrite IHl.
Qed.

Lemma existsb_filter_keys (f : string -> bool) ks k :
  In k ks -> existsb (String.eqb k) (List.filter f ks) = f k.
Proof.
  intros Hin. destruct (f k) eqn:E.
  - apply existsb_exists. exists k. rewrite String.eqb_refl. split; [|done]. by apply List.filter_In.
  - apply not_true_iff_false. intros Hx. apply existsb_exists in Hx as (x & Hx & Heq).
    apply String.eqb_eq in Heq as ->. apply List.filter_In in Hx as [_ Hx]. congruence.
Qed.

Lemma wiped_items s :
  items (foldl removeItem s (owned_keys (keys s) (length (keys s)) 0)) =
  List.filter (fun kv => negb (isAppStorageKey kv.1)) (items s).
Proof.
  rewrite (owned_keys_spec [] (keys s) : owned_keys (keys s) _ 0 = _).
  rewrite remove_all_items. apply List.filter_ext_in. intros kv Hin. f_equal.
  apply existsb_filter_keys. by apply in_map with (f := fst) in Hin.
Qed.

(** The wipe removes exactly the keys with one of the application's prefixes, all
    of them and in enumeration order, and leaves every other item as it was. *)
Theorem clearAppStorage_exact s (Hr : readable s = true) :
  exists s', clearAppStorage s = Ok (List.filter isAppStorageKey (keys s), s') /\
    items s' = List.filter (fun kv => negb (isAppStorageKey kv.1)) (items s).
Proof.
  unfold clearAppStorage. rewrite Hr. cbn [negb]. eexists. split; [|apply wiped_items].
  by rewrite <- (owned_keys_spec [] (keys s) : owned_keys (keys s) _ 0 = _).
Qed.

(** The role that the wallet store persists is written under a key without
    either prefix, so a wipe of "everything the app owns" keeps it. *)
Theorem wallet_storage_survives_wipe role rest :
  exists s', clearAppStorage {| items := ("wallet-storage", role) :: rest; readable := true;
                                writable := fun _ _ => true |} = Ok s' /\
    lookup_item (items s'.2) "wallet-storage" = Some role.
Proof.
  set (st := {| items := ("wallet-storage", role) :: rest; readable := true;
                writable := fun _ _ => true |}).
  unfold clearAppStorage. rewrite (owned_keys_spec [] (keys st) : owned_keys (keys st) _ 0 = _).
  eexists. split; [done|]. cbn [snd]. rewrite remove_all_items. cbn [items List.filter fst st].
  by rewrite existsb_filter_keys by (by left).
Qed.

(** After a wipe every key of the application is absent, and storage stays as usable. *)
Lemma lookup_filter_keys l (p : string -> bool) k :
  lookup_item (List.filter (fun kv => p kv.1) l) k = if p k then lookup_item l k else None.
Proof.
  induction l as [|[k' v] l IH]; cbn; [by destruct (p k)|].
  destruct (p k') eqn:Hp; cbn; rewrite IH; destruct (String.eqb_spec k k') as [->|]; rewrite ?Hp; done.
Qed.
Lemma clear_lookup s removed s' k : clearAppStorage s = Ok (removed, s') ->
  readable s' = true /\
  lookup_item (items s') k = if isAppStorageKey k then None else lookup_item (items s) k.
Proof.
  unfold clearAppStorage. destruct (readable s) eqn:Hr; [|done]. cbn [negb]. intros [= _ <-].
  split.
  - rewrite <- Hr. generalize (owned_keys (keys s) (length (keys s)) 0). clear Hr. intros l. revert s.
    induction l as [|x l IH]; intros s; [done|]. cbn. by rewrite IH.
  - rewrite wiped_items, (lookup_filter_keys _ (fun k => negb (isAppStorageKey k))). by destruct (isAppStorageKey k).
Qed.

(** ** Themes *)
Lemma readStoredTheme_store s t : readable s = true -> writable s THEME_STORAGE_KEY (theme_name t) = true ->
  readStoredTheme (storeTheme s t) = Some t.
Proof.
  intros Hr Hw. unfold readStoredTheme, storeTheme, setItem_safe, setItem. rewrite Hw.
  unfold getItem. cbn [readable items]. rewrite Hr, lookup_put_eq. by destruct t.
Qed.

(** The theme the bootstrap script paints is the one the mounted hook adopts,
    whenever the media query is available: no flash on hydration. *)
Theorem bootstrap_agrees s light doc :
  bootstrap s (Some light) = UseTheme.st_doc (UseTheme.mount (UseTheme.initial s (Some light) doc)).
Proof.
  unfold bootstrap, UseTheme.mount, UseTheme.adopt, applyTheme, resolveInitialTheme, readStoredTheme.
  cbn. destruct (getItem s THEME_STORAGE_KEY) as [v|]; cbn; [destruct (isTheme v)|]; by destruct light.
Qed.

Definition synced (s : UseTheme.state) : Prop :=
  UseTheme.mounted s = true /\ UseTheme.st_doc s = applyTheme (UseTheme.theme s).

Lemma step_synced s e : synced s -> synced (UseTheme.step s e).
Proof.
  intros [Hm Hd].
  destruct e as [t| |l|i [k|]]; cbn; unfold UseTheme.osChange, UseTheme.onStorage; cbn;
    repeat case_match; by split.
Qed.

(** From the first effect on, whatever the user, the system and other tabs do,
    the rendered theme is the one applied to the document; and once the user has made a
    choice that could be stored, changes of the system preference do not override it. *)
Theorem useTheme_synced s media doc (events : list UseTheme.event) :
  let end_ := foldl UseTheme.step (UseTheme.mount (UseTheme.initial s media doc)) events in
  synced end_ /\
  forall t ls, readable (UseTheme.st_storage end_) = true ->
    writable (UseTheme.st_storage end_) THEME_STORAGE_KEY (theme_name t) = true ->
    UseTheme.theme (foldl UseTheme.step (UseTheme.setTheme end_ t) (map UseTheme.OsChange ls)) = t.
Proof.
  intros end_. split.
  - subst end_. assert (H0 : synced (UseTheme.mount (UseTheme.initial s media doc))) by done.
    revert H0. generalize (UseTheme.mount (UseTheme.initial s media doc)).
    induction events as [|e events IH]; intros st Hst; [done|]. cbn. by apply IH, step_synced.
  - intros t ls Hr Hw.
    assert (H : forall st, UseTheme.theme st = t -> readStoredTheme (UseTheme.st_storage st) = Some t ->
       UseTheme.theme (foldl UseTheme.step st (map UseTheme.OsChange ls)) = t).
    { induction ls as [|l ls IH]; intros st Ht Hs; [done|]. cbn. apply IH; unfold UseTheme.osChange;
        (destruct (UseTheme.st_media st); [|done]); cbn; by rewrite Hs. }
    apply H; [done|]. by apply readStoredTheme_store.
Qed.

(** ** Witnesses *)
Lemma clearAppStorage_exact_witness :
  exists s', clearAppStorage {| items := [("other", "1"); ("trusttrove:theme", "dark");
      ("trusttrove_notifs_G", "[]")]; readable := true; writable := fun _ _ => true |} =
    Ok (["trusttrove:theme"; "trusttrove_notifs_G"], s') /\ items s' = [("other", "1")].
Proof.
  exact (clearAppStorage_exact {| items := [("other", "1"); ("trusttrove:theme", "dark");
      ("trusttrove_notifs_G", "[]")]; readable := true; writable := fun _ _ => true |} eq_refl).
Defined.
