(* ===== verification/Wallet.v ===== *)
(** * The wallet session ([apps/web/store/wallet.ts], [lib/freighter.ts],
    [hooks/useWallet.ts], [hooks/useAuth.ts])

    The store holds the session; the Freighter extension is the interface [Freighter],
    whose answers are untyped.  [connectWallet] and [login] are effectful actions whose
    logs include their writes to the store, so that interleavings of actions can be
    replayed; the account watcher is a state machine. *)

From S2P Require Import Prelude JsNumber JsString JsValue JsDate Effects SdkTypes Schemas JsJson WebParsers WebApi.
From S2P Require Import WebErrors.
Local Open Scope Z_scope.

(** ** The store *)
Inductive WalletRole := RIssuer | RBuyer | RLp.
Definition role_of_string (s : string) : option WalletRole :=
  if String.eqb s "issuer" then Some RIssuer else if String.eqb s "buyer" then Some RBuyer
  else if String.eqb s "lp" then Some RLp else None.

Record WalletState := {
  address : option string; connected : bool; network : option string;
  token : option string; role : WalletRole }.

Definition wallet_initial : WalletState :=
  {| address := None; connected := false; network := None; token := None; role := RIssuer |}.

Inductive StoreOp :=
  | OpConnect (address network : string)
  | OpDisconnect
  | OpSetAddress (address : option string)
  | OpSetNetwork (network : option string)
  | OpSetToken (token : option string)
  | OpSetRole (role : WalletRole).

Definition apply_op (s : WalletState) (op : StoreOp) : WalletState :=
  match op with
  | OpConnect a n => {| address := Some a; connected := true; network := Some n;
                        token := token s; role := role s |}
  | OpDisconnect => wallet_initial
  | OpSetAddress a => {| address := a; connected := opt_str_truthy a; network := network s;
                         token := token s; role := role s |}
  | OpSetNetwork n => {| address := address s; connected := connected s; network := n;
                         token := token s; role := role s |}
  | OpSetToken t => {| address := address s; connected := connected s; network := network s;
                       token := t; role := role s |}
  | OpSetRole r => {| address := address s; connected := connected s; network := network s;
                      token := token s; role := r |}
  end.

(** [partialize] and [merge] of the [persist] middleware; the persisted value is whatever
    storage held. *)
Definition partialize (s : WalletState) : WalletRole := role s.
Definition merge (persisted_role : option WalletRole) (current : WalletState) : WalletState :=
  {| address := None; connected := false; network := None; token := None;
     role := nullish persisted_role (role current) |}.

(** ** Freighter ([lib/freighter.ts]) *)
Class Freighter (Env : Type) := {
  isConnected : Env -> res jsval * Env;
  requestAccess : Env -> res jsval * Env;
  getPublicKey : Env -> res jsval * Env;
  getNetworkDetails : Env -> res jsval * Env;
  signTransaction : jsval -> jsval -> string -> Env -> res jsval * Env }.

Inductive FreighterErrorCode := user_rejected | not_installed | unknown.
Definition code_name (c : FreighterErrorCode) : string :=
  match c with user_rejected => "user_rejected" | not_installed => "not_installed" | unknown => "unknown" end.
Definition new_FreighterError (c : FreighterErrorCode) (message : string) : jsval :=
  JErr CFreighterError message [("code", JStr (code_name c))].

(** The message the two functions below look for: [None] for a value that has none. *)
Definition freighter_message (err : jsval) : option string :=
  match err with
  | JErr _ m _ => Some m
  | JStr s => Some s
  | _ =>
      if truthy err && is_object err then
        match (if has_field err "message" then field err "message" else JUndef),
              (if has_field err "error" then field err "error" else JUndef) with
        | JStr m, _ => Some m
        | _, JStr m => Some m
        | _, _ => None
        end
      else None
  end.

(** The code of a value that is not already a [FreighterError]. *)
Definition classifyFreighterError (err : jsval) : FreighterErrorCode :=
  let msg := Str.to_lower (default "" (freighter_message err)) in
  if Str.includes_any msg ["user rejected"; "user rejected this request"] then user_rejected
  else if Str.includes_any msg ["not installed"; "internal error"] then not_installed
  else unknown.

Definition mapFreighterError (err : jsval) : jsval :=
  if instance_of CFreighterError err then err
  else new_FreighterError (classifyFreighterError err) (default (to_str err) (freighter_message err)).

(** What a session action does, in order. *)
Inductive SessionEv :=
  | Api (e : Http)
  | Asked (call : string) (r : res jsval)
  | Signed (transaction : jsval) (network : string) (networkPassphrase : jsval) (accountToSign : string) (r : res jsval)
  | UiEv (e : Ui)
  | ConsoleErr (line : string) (err : jsval)
  | Store (op : StoreOp)
  | SetLoading (b : bool)
  | SetError (e : option string)
  | SetErrorCode (e : option string).

(** [x?.trim().toLowerCase()]. *)
Definition trim_lower (v : jsval) : res (option string) :=
  match v with
  | JUndef | JNull => Ok None
  | JStr s => Ok (Some (Str.to_lower (Str.trim s)))
  | _ => Throw (JErr CTypeError "trim is not a function" [])
  end.

Definition EXPECTED_NETWORK : string := "testnet".
Definition WRONG_NETWORK_ERROR_CODE : string := "wrong_network".
Definition WRONG_NETWORK_ERROR_MESSAGE : string :=
  "Your Freighter wallet is connected to the wrong network. Please switch Freighter to Stellar Testnet and try again.".

Section Session.
Context {Env : Type} {F : Freighter Env} {B : Backend Env} {C : Clock Env} {zod : Zod}.
Abbreviation IO := (M Env SessionEv).

Definition ask (name : string) (op : Env -> res jsval * Env) : IO jsval := io (Asked name) op.

Definition isFreighterInstalled : IO bool :=
catch (answer ← ask "isConnected" isConnected;
       mret (match answer with
             | JBool b => b
             | _ => if truthy answer && is_object answer && has_field answer "isConnected"
                    then truthy (field answer "isConnected") else false
             end))
      (fun err => emit (ConsoleErr "Failed to check if Freighter is installed:" err);; mret false).

Definition not_installed_error : jsval :=
new_FreighterError not_installed "Freighter wallet is not installed".

(** [accessRes.address] and [accessRes.error] of whatever came back. *)
Definition read_access (answer : jsval) : res jsval :=
match answer with
| JStr s => Ok (JStr s)
| _ =>
    if truthy answer && is_object answer then
      if truthy (field answer "address") then Ok (field answer "address")
      else if truthy (field answer "error") then
        Throw (mapFreighterError (mk_error (to_str (field answer "error"))))
      else Throw (new_FreighterError unknown "No address returned from Freighter")
    else Throw (new_FreighterError unknown "No address returned from Freighter")
end.

Definition connectFreighter : IO jsval :=
installed ← isFreighterInstalled;
if negb installed then raise not_installed_error
else catch (answer ← ask "requestAccess" requestAccess; lift (read_access answer))
           (fun err => emit (ConsoleErr "Failed to connect to Freighter:" err);; raise (mapFreighterError err)).

Definition read_public_key (answer : jsval) : res jsval :=
match answer with
| JStr s => Ok (JStr s)
| _ => if truthy answer && is_object answer && has_field answer "address" then Ok (field answer "address")
       else Throw (new_FreighterError unknown "No public key returned from Freighter")
end.

Definition getFreighterPublicKey : IO jsval :=
installed ← isFreighterInstalled;
if negb installed then raise not_installed_error
else catch (answer ← ask "getPublicKey" getPublicKey; lift (read_public_key answer))
           (fun err => emit (ConsoleErr "Failed to get public key from Freighter:" err);;
                       raise (mapFreighterError err)).

(** ** [useWallet] *)
Definition validateFreighterNetwork : IO () :=
details ← ask "getNetworkDetails" getNetworkDetails;
v ← lift (member details "network");
network ← lift (trim_lower v);
if bool_decide (network = Some EXPECTED_NETWORK) then mret tt
else raise (JErr CError WRONG_NETWORK_ERROR_MESSAGE [("code", JStr WRONG_NETWORK_ERROR_CODE)]).

(** The body of [connectWallet] once the [connectingRef] guard has let it in. *)
Definition connectWallet : IO () :=
emit (SetLoading true);;
emit (SetError None);;
emit (SetErrorCode None);;
finally
  (catch (addr ← connectFreighter;
          validateFreighterNetwork;;
          emit (Store (OpConnect (to_str addr) EXPECTED_NETWORK)))
         (fun err =>
            appError ← relabel UiEv (captureError "useWallet" err);
            emit (SetError (Some (error_msg appError)));;
            (if is_object err && has_field err "code" then
               match field err "code" with
               | JStr c => emit (SetErrorCode (Some c))
               | _ => mret tt
               end
             else mret tt);;
            emit (Store OpDisconnect)))
  (emit (SetLoading false)).

Definition disconnectWallet : IO () := emit (Store OpDisconnect).

(** ** [useAuth] *)

(** [error] of [useAppError]. *)
Definition set_app_error (err : jsval) (fallback : option string) : IO () :=
emit (SetError (AppErrorState.handleError err fallback)).

(** Addresses, signed transactions and tokens are strings on this path; a value of another
    type is read as its string (a token as absent).

    [login], with the address the component rendered with. The environment variable
    [NEXT_PUBLIC_STELLAR_NETWORK] only feeds a variable nothing reads. *)
Definition login (address : option string) : IO () :=
if negb (opt_str_truthy address) then set_app_error (mk_error "Wallet not connected") None
else
  let account := default "" address in
  emit (SetLoading true);;
  emit (SetError AppErrorState.clearError);;
  finally
    (catch
       (challenge ← relabel Api (fetchChallenge account);
        transaction ← lift (member challenge "transaction");
        passphrase ← lift (member challenge "network_passphrase");
        signedXdr ← io (Signed transaction "TESTNET" passphrase account)
                       (signTransaction transaction passphrase account);
        reply ← relabel Api (verifyChallenge (to_str signedXdr));
        jwt ← lift (member reply "token");
        emit (Store (OpSetToken (as_str jwt))))
       (fun err =>
          appError ← relabel UiEv (captureError "useAuth" err);
          set_app_error appError None;;
          emit (Store (OpSetToken None))))
    (emit (SetLoading false)).

Definition logout : IO () :=
emit (Store (OpSetToken None));; emit (Store OpDisconnect);; emit (SetError AppErrorState.clearError).
End Session.

(** ** The account watcher ([watchFreighterChanges]) *)
Module Watch.
Record snapshot := { sn_address : option string; sn_network : option string }.

Record change := {
  ch_address : option string; ch_disconnected : bool; ch_network : option string;
  ch_previous : snapshot }.

Record watcher := { previous : snapshot; stopped : bool; polling : bool }.
Definition start (baseline : snapshot) : watcher :=
{| previous := baseline; stopped := false; polling := false |}.

Definition DEFAULT_WATCH_INTERVAL_MS : Z := 3000.

Definition normalizeNetwork (v : jsval) : res (option string) :=
normalized ← trim_lower v;
Ok (if opt_str_truthy normalized then normalized else None).

Definition read_snapshot (addr : string) (details : jsval) : res snapshot :=
network ← normalizeNetwork (opt_field details "network");
Ok {| sn_address := if String.eqb addr "" then None else Some addr; sn_network := network |}.

(** Both answers of a poll (the account is a string), or the failure of one. *)
Inductive event := Tick | Settled (r : res (string * jsval)) | Stop.
Inductive output := Changed (c : change) | Failed (e : jsval).

Definition address_change (prev next : snapshot) : option string :=
match sn_address next with
| Some a => if bool_decide (Some a = sn_address prev) then None else Some a
| None => None
end.
Definition disconnection (prev next : snapshot) : bool :=
match sn_address next with Some _ => false | None => opt_str_truthy (sn_address prev) end.
Definition network_change (prev next : snapshot) : option string :=
match sn_network next with
| Some n => if bool_decide (Some n = sn_network prev) then None else Some n
| None => None
end.
Definition compare (prev next : snapshot) : option change :=
let c := {| ch_address := address_change prev next; ch_disconnected := disconnection prev next;
            ch_network := network_change prev next; ch_previous := prev |} in
match ch_address c, ch_disconnected c, ch_network c with
| None, false, None => None
| _, _, _ => Some c
end.

Definition step (w : watcher) (e : event) : watcher * list output :=
match e with
| Tick =>
    if stopped w || polling w then (w, [])
    else ({| previous := previous w; stopped := stopped w; polling := true |}, [])
| Settled r =>
    let idle p := {| previous := p; stopped := stopped w; polling := false |} in
    if negb (polling w) then (w, [])
    else match r with
         | Throw e => (idle (previous w), [Failed e])
         | Ok (addr, details) =>
             if stopped w then (idle (previous w), [])
             else match read_snapshot addr details with
                  | Throw e => (idle (previous w), [Failed e])
                  | Ok next =>
                      match compare (previous w) next with
                      | Some c => (idle next, [Changed c])
                      | None => (idle (previous w), [])
                      end
                  end
         end
| Stop => ({| previous := previous w; stopped := true; polling := polling w |}, [])
end.

Fixpoint run (w : watcher) (es : list event) : watcher * list output :=
match es with
| [] => (w, [])
| e :: es => let '(w1, o1) := step w e in let '(w2, o2) := run w1 es in (w2, o1 ++ o2)
end.

(** The snapshots a run takes into account: polls that settle before the watcher stops. *)
Fixpoint observed (w : watcher) (es : list event) : list snapshot :=
match es with
| [] => []
| e :: es =>
    (match e with
     | Settled (Ok (addr, details)) =>
         if polling w && negb (stopped w) then
           match read_snapshot addr details with Ok s => [s] | Throw _ => [] end
         else []
     | _ => []
     end) ++ observed (step w e).1 es
end.

(** ** The consumer's side *)

(** What a consumer of the changes believes. *)
Definition believe (s : snapshot) (c : change) : snapshot :=
{| sn_address := if ch_disconnected c then None
                 else match ch_address c with Some a => Some a | None => sn_address s end;
   sn_network := match ch_network c with Some n => Some n | None => sn_network s end |}.
Definition changes (l : list output) : list change :=
omap (fun o => match o with Changed c => Some c | Failed _ => None end) l.

(** The truth: the last account reported, and the last network that could be read. *)
Definition truth (s o : snapshot) : snapshot :=
{| sn_address := sn_address o;
   sn_network := match sn_network o with Some n => Some n | None => sn_network s end |}.
End Watch.

(** ** The reconciliation in [useWallet] *)
Record session := { store : WalletState; error : option string; errorCode : option string }.

Definition write (s : session) (op : StoreOp) : session :=
  {| store := apply_op (store s) op; error := error s; errorCode := errorCode s |}.

(** The [onChange] callback; the store is read once, at its start. *)
Definition onChange (s : session) (c : Watch.change) : session :=
  let state := store s in
  if negb (connected state) then s
  else if Watch.ch_disconnected c then write s OpDisconnect
  else
    let s := match Watch.ch_address c with
             | Some a => if negb (String.eqb a "") && negb (bool_decide (Some a = address state))
                         then write (write s (OpSetAddress (Some a))) (OpSetToken None) else s
             | None => s
             end in
    match Watch.ch_network c with
    | Some n =>
        if negb (String.eqb n "") && negb (bool_decide (Some n = network state)) then
          let s := write s (OpSetNetwork (Some n)) in
          if negb (String.eqb n EXPECTED_NETWORK) then
            {| store := store s; error := Some WRONG_NETWORK_ERROR_MESSAGE;
               errorCode := Some WRONG_NETWORK_ERROR_CODE |}
          else
            {| store := store s;
               error := if bool_decide (error s = Some WRONG_NETWORK_ERROR_MESSAGE) then None else error s;
               errorCode := if bool_decide (errorCode s = Some WRONG_NETWORK_ERROR_CODE) then None
                            else errorCode s |}
        else s
    | None => s
    end.

(** ** Properties of the watcher *)
Section WatchFacts.
Import Watch.

Lemma address_view prev next : sn_address prev <> Some "" ->
(if disconnection prev next then None
 else match address_change prev next with Some a => Some a | None => sn_address prev end) = sn_address next.
Proof.
destruct prev as [pa pn], next as [na nn]. unfold disconnection, address_change. cbn. intros Hne.
destruct na as [a|]; [by case_bool_decide|]. destruct pa as [pa|]; cbn; [|done].
by destruct (String.eqb_spec pa "") as [->|].
Qed.

Lemma network_view prev view next :
(sn_network prev = None \/ sn_network prev = sn_network view) ->
match network_change prev next with Some n => Some n | None => sn_network view end =
  sn_network (truth view next).
Proof.
unfold network_change, truth. cbn. intros Hn. destruct (sn_network next) as [n|]; [|done].
case_bool_decide as E; [|done]. destruct Hn as [Hn|Hn]; [by rewrite Hn in E | by rewrite <- Hn].
Qed.

Lemma compare_view prev view next :
sn_address prev <> Some "" ->
sn_address view = sn_address prev -> (sn_network prev = None \/ sn_network prev = sn_network view) ->
match compare prev next with
| Some c => believe view c = truth view next
| None => view = truth view next /\ (sn_network next = None \/ sn_network next = sn_network prev)
end.
Proof.
intros Hne Hv Hn. pose proof (address_view prev next Hne) as Ha.
pose proof (network_view prev view next Hn) as Hw.
assert (Hb : forall ac dc nc pr, address_change prev next = ac -> disconnection prev next = dc ->
  network_change prev next = nc -> believe view {| ch_address := ac; ch_disconnected := dc;
     ch_network := nc; ch_previous := pr |} = truth view next).
{ intros ac dc nc pr <- <- <-. unfold believe. cbn. rewrite Hv, Ha, Hw. done. }
unfold compare. cbn. destruct (address_change prev next) eqn:E1, (disconnection prev next) eqn:E2,
  (network_change prev next) eqn:E3; try (by apply Hb). split.
- rewrite <- (Hb None false None prev) by done. unfold believe. cbn. by destruct view.
- unfold network_change in E3. destruct (sn_network next); [|by left]. case_bool_decide; [by right|done].
Qed.

(** What relates the watcher to its consumer. *)
Definition tracks (w : watcher) (view : snapshot) : Prop :=
sn_address (previous w) <> Some "" /\ sn_address view = sn_address (previous w) /\
(sn_network (previous w) = None \/ sn_network (previous w) = sn_network view).

Lemma read_snapshot_address addr details s :
read_snapshot addr details = Ok s -> sn_address s <> Some "".
Proof.
intros H. apply bind_ok in H as (n & _ & [= <-]). cbn.
by destruct (String.eqb_spec addr "") as [|Hne]; [|intros [= ->]].
Qed.

Lemma step_tracks w e view : tracks w view ->
let view' := foldl believe view (changes (step w e).2) in
tracks (step w e).1 view' /\
view' = foldl truth view (match e with
  | Settled (Ok (addr, details)) =>
      if polling w && negb (stopped w) then
        match read_snapshot addr details with Ok s => [s] | Throw _ => [] end else []
  | _ => [] end).
Proof.
intros (Hne & Hv & Hn). destruct e as [|[[addr details]|e]|]; cbn [step].
- destruct (stopped w || polling w); by repeat split.
- destruct (polling w); [|by repeat split]. cbn [negb andb].
  destruct (stopped w); [by repeat split|]. cbn [negb].
  destruct (read_snapshot addr details) as [next|e] eqn:E; [|by repeat split].
  apply read_snapshot_address in E. pose proof (compare_view (previous w) view next Hne Hv Hn) as H.
  destruct (compare (previous w) next) as [c|]; cbn; [|destruct H as [H Hp]].
  + rewrite H. split; [|done]. split; [exact E|]. split; [done|]. cbn.
    destruct (sn_network next); [by right | by left].
  + split; [by repeat split | done].
- destruct (polling w); by repeat split.
- by repeat split.
Qed.

Lemma changes_app l1 l2 : changes (l1 ++ l2) = changes l1 ++ changes l2.
Proof. apply omap_app. Qed.

(** C9: applying the reported changes to the baseline gives, at every moment, the
    account Freighter last reported and the last network it could name; a stopped watcher
    reports no further change. *)
Theorem watcher_tracks baseline es (Hb : sn_address baseline <> Some "") :
foldl believe baseline (changes (run (start baseline) es).2) =
  foldl truth baseline (observed (start baseline) es) /\
forall w es', stopped w = true -> changes (run w es').2 = [].
Proof.
split.
- assert (H0 : tracks (start baseline) baseline) by (split; [exact Hb | split; [done | by right]]).
  clear Hb. revert H0. generalize (start baseline) as w. revert baseline.
  enough (Hgen : forall view w, tracks w view ->
    foldl believe view (changes (run w es).2) = foldl truth view (observed w es)) by eauto.
  intros view w H0. revert w view H0. induction es as [|e es IH]; intros w view H0; [done|]. cbn [run observed].
  destruct (step_tracks w e view H0) as [Ht Hv]. destruct (step w e) as [w1 o1]. cbn [fst snd] in *.
  specialize (IH w1 _ Ht). destruct (run w1 es) as [w2 o2]. cbn [snd] in *.
  by rewrite changes_app, !foldl_app, IH, Hv.
- intros w es'. revert w. induction es' as [|e es' IH]; intros w Hs; [done|]. cbn [run].
  assert (H1 : stopped (step w e).1 = true /\ changes (step w e).2 = []).
  { destruct e as [|[[addr details]|e]|]; cbn; rewrite ?Hs; cbn; try done; by destruct (polling w). }
  destruct (step w e) as [w1 o1]. cbn [fst snd] in H1. destruct H1 as [H1 H2]. specialize (IH w1 H1).
  destruct (run w1 es') as [w2 o2]. cbn [snd] in *. by rewrite changes_app, H2, IH.
Qed.

(** At most one poll is under way: a tick during a poll starts none. *)
Lemma tick_while_polling w : polling w = true -> step w Tick = (w, []).
Proof. intros H. cbn. by rewrite H, orb_true_r. Qed.
End WatchFacts.

(** ** Properties of the session actions *)
Section SessionFacts.
Context {Env : Type} {F : Freighter Env} {B : Backend Env} {C : Clock Env} {L : ClockLaws C} {zod : Zod}.

Lemma mapFreighterError_instance err : instance_of CFreighterError (mapFreighterError err) = true.
Proof. unfold mapFreighterError. by destruct (instance_of CFreighterError err) eqn:E. Qed.

Lemma isFreighterInstalled_spec :
trace_spec isFreighterInstalled (fun l r => exists b, r = Ok b /\
  (b = true -> exists answer, l = [Asked "isConnected" (Ok answer)])).
Proof.
apply trace_try, trace_seq, trace_io. intros [answer|e]; cbn.
- apply trace_ret. cbn. eexists. split; [done|]. by exists answer.
- apply trace_emit_seq, trace_ret. by exists false.
Qed.

Lemma connectFreighter_spec :
trace_spec connectFreighter (fun l r => match r with
  | Ok a => exists v answer, l = [Asked "isConnected" (Ok v); Asked "requestAccess" (Ok answer)] /\
              read_access answer = Ok a
  | Throw e => instance_of CFreighterError e = true
  end).
Proof.
apply trace_seq. eapply trace_weaken; [apply isFreighterInstalled_spec|].
intros l r (b & -> & Hb). destruct b; [|by apply trace_raise].
destruct (Hb eq_refl) as [v ->]. cbn [negb]. apply trace_try, trace_seq, trace_io.
intros [answer|e]; cbn.
- apply trace_lift. destruct (read_access answer) as [a|e] eqn:E.
  + by exists v, answer.
  + apply trace_emit_seq, trace_raise. apply mapFreighterError_instance.
- apply trace_emit_seq, trace_raise. apply mapFreighterError_instance.
Qed.

Lemma validateFreighterNetwork_spec :
trace_spec validateFreighterNetwork (fun l r => forall u, r = Ok u -> exists details,
  l = [Asked "getNetworkDetails" (Ok details)] /\ is_nullish details = false /\
  trim_lower (field details "network") = Ok (Some EXPECTED_NETWORK)).
Proof.
apply trace_seq, trace_io. intros [details|e]; [|by intros].
apply trace_seq, trace_lift. unfold member. destruct (is_nullish details) eqn:Hn; [by intros|].
apply trace_seq, trace_lift. destruct (trim_lower _) as [n|] eqn:E; [|by intros].
case_bool_decide; [|by apply trace_raise]. subst. apply trace_ret. intros [] _.
by exists details.
Qed.

(** The store writes of a log, in order. *)
Definition writes (l : list SessionEv) : list StoreOp :=
omap (fun e => match e with Store op => Some op | _ => None end) l.

Lemma writes_app l1 l2 : writes (l1 ++ l2) = writes l1 ++ writes l2.
Proof. apply omap_app. Qed.

Lemma writes_cons e l : writes (e :: l) = writes [e] ++ writes l.
Proof. exact (writes_app [e] l). Qed.

(** Every entry a composite action can log is allowed. *)
Ltac solve_emits :=
repeat first
  [ apply emits_ret | apply emits_raise | apply emits_lift | apply emits_io | apply emits_emit
  | apply emits_catch | apply emits_bind | intros ? | exact I | case_match ].

Definition quiet (e : SessionEv) : Prop := match e with Store _ => False | _ => True end.
Lemma quiet_writes l : Forall quiet l -> writes l = [].
Proof. induction 1 as [|[] l H HF IH]; by try destruct H. Qed.

Lemma connect_flow_spec :
trace_spec (addr ← connectFreighter;
            validateFreighterNetwork;;
            emit (Store (OpConnect (to_str addr) EXPECTED_NETWORK))) (fun l r => match r with
  | Ok _ => exists v access a details,
      l = [Asked "isConnected" (Ok v); Asked "requestAccess" (Ok access);
           Asked "getNetworkDetails" (Ok details); Store (OpConnect (to_str a) EXPECTED_NETWORK)] /\
      read_access access = Ok a /\ trim_lower (field details "network") = Ok (Some EXPECTED_NETWORK)
  | Throw _ => writes l = []
  end).
Proof.
assert (Hq1 : emits quiet connectFreighter).
{ unfold connectFreighter, isFreighterInstalled, ask. solve_emits. }
assert (Hq2 : emits quiet validateFreighterNetwork).
{ unfold validateFreighterNetwork, ask. solve_emits. }
apply trace_seq. eapply trace_weaken; [apply (trace_conj _ _ _ connectFreighter_spec Hq1)|].
intros l [a|e] [H1 Hl]; [|by apply quiet_writes]. destruct H1 as (v & access & -> & Ha).
apply trace_seq. eapply trace_weaken; [apply (trace_conj _ _ _ validateFreighterNetwork_spec Hq2)|].
intros l' [u|e] [H2 Hl']; [|by apply quiet_writes, Forall_app].
destruct (H2 u eq_refl) as (details & -> & _ & Hn). apply trace_emit.
by exists v, access, a, details.
Qed.

Lemma error_code_spec err :
trace_spec (if is_object err && has_field err "code" then
               match field err "code" with
               | JStr c => emit (SetErrorCode (Some c))
               | _ => mret tt
               end
             else mret tt : M Env SessionEv ()) (fun l r => r = Ok tt /\ writes l = []).
Proof. repeat case_match; first [by apply trace_emit | by apply trace_ret]. Qed.

(** An attempt to connect writes the store exactly once: the account Freighter
    granted, on the expected network, if the extension reported that network after it
    granted the account; a disconnection, with an error shown, otherwise.  It never
    rejects, and loading ends with it. *)
Theorem connectWallet_checked :
trace_spec connectWallet (fun l r =>
  r = Ok tt /\ list.last l = Some (SetLoading false) /\
  ((exists v access a details,
      l = [SetLoading true; SetError None; SetErrorCode None; Asked "isConnected" (Ok v);
           Asked "requestAccess" (Ok access); Asked "getNetworkDetails" (Ok details);
           Store (OpConnect (to_str a) EXPECTED_NETWORK); SetLoading false] /\
      read_access access = Ok a /\
      trim_lower (field details "network") = Ok (Some EXPECTED_NETWORK)) \/
   (writes l = [OpDisconnect] /\ exists m, SetError (Some m) ∈ l))).
Proof.
apply trace_emit_seq, trace_emit_seq, trace_emit_seq, trace_finally, trace_try.
eapply trace_weaken; [apply connect_flow_spec|]. intros l [u|err] H.
- destruct H as (v & access & a & details & -> & Ha & Hn). apply trace_emit.
  split; [by destruct u|]. split; [done|]. left. by exists v, access, a, details.
- apply trace_seq. eapply trace_relabel; [apply captureError_ok|].
  intros l' r (line & ts & -> & ->). apply trace_emit_seq.
  apply trace_seq. eapply trace_weaken; [apply (error_code_spec err)|].
  intros mid r (-> & Hmid). apply trace_emit, trace_emit. split; [done|]. split.
  + rewrite !app_comm_cons. apply list.last_snoc.
  + right. split.
    * rewrite (writes_cons (SetLoading true)), (writes_cons (SetError None)),
        (writes_cons (SetErrorCode None)), !writes_app, H, (writes_cons (SetError (Some _))), writes_app, Hmid.
      done.
    * exists (extractMessage err). rewrite !elem_of_cons, !elem_of_app, !elem_of_cons.
      do 3 right. left. right. right. left. done.
Qed.

(** An answer of the indexer to a GET of [path]. *)
Definition answered (path : string) (e : SessionEv) (v : jsval) : Prop :=
exists rq resp, e = Api (Fetched rq (Ok resp)) /\ rq_url rq = getApiUrl +:+ path /\ rq_method rq = None /\
                read_response resp = Ok v.

(** A request that posts [tx] to be verified, and an answer of the indexer to one. *)
Definition posts (tx : string) (rq : request) : Prop :=
rq_url rq = getApiUrl +:+ "/auth" /\ rq_method rq = Some "POST" /\
exists body, json_body (JObj [("transaction", JStr tx)]) = Ok body /\ rq_body rq = body.
Definition verified (tx : string) (e : SessionEv) (v : jsval) : Prop :=
exists rq resp, e = Api (Fetched rq (Ok resp)) /\ posts tx rq /\ read_response resp = Ok v.

Lemma verify_call tx :
trace_spec (relabel Api (verifyChallenge tx)) (fun l r => match r with
  | Ok v => exists e, l = [e] /\ verified tx e v
  | Throw _ => l = [] \/ exists rq answer, l = [Api (Fetched rq answer)] /\ posts tx rq
  end).
Proof.
eapply trace_relabel.
- apply trace_seq, trace_lift. instantiate (1 := fun l r => match r with
    | Ok v => exists rq resp, l = [Fetched rq (Ok resp)] /\ posts tx rq /\ read_response resp = Ok v
    | Throw _ => l = [] \/ exists rq answer, l = [Fetched rq answer] /\ posts tx rq end).
  destruct (json_body _) as [body|err] eqn:Hb; [|by left]. cbn [app].
  eapply trace_weaken; [apply apiFetch_spec|].
  intros l r [(-> & m & ->)|(rq & resp & -> & Hu & Hm & Hbody & ->)]; [by left|].
  assert (Hp : posts tx rq) by (split; [done|]; split; [done|]; by exists body).
  destruct resp as [resp|err]; cbn; [|right; by eexists _, _].
  destruct (read_response resp) as [v|err] eqn:E; [by exists rq, resp|right; by eexists _, _].
- intros l [v|err].
  + intros (rq & resp & -> & H). eexists. split; [done|]. by exists rq, resp.
  + intros [->|(rq & answer & -> & H)]; [by left|]. right. by exists rq, answer.
Qed.

(** The challenge comes first, then the signature over it, then [rest] with the wallet's answer. *)
Definition signs (account : string) (l : list SessionEv) (rest : res jsval -> list SessionEv -> Prop) : Prop :=
exists e challenge answer l', answered ("/auth?address=" +:+ account) e challenge /\ rest answer l' /\
  l = e :: Signed (field challenge "transaction") "TESTNET" (field challenge "network_passphrase") account answer :: l'.
(** After the signature: the reply to the signed transaction, whose token is stored. *)
Definition stores_token (answer : res jsval) (l : list SessionEv) : Prop :=
exists signed e reply, answer = Ok signed /\ verified (to_str signed) e reply /\
  l = [e; Store (OpSetToken (as_str (field reply "token")))].
(** Nothing but the signed transaction is sent, and only once. *)
Definition gives_up (answer : res jsval) (l : list SessionEv) : Prop :=
l = [] \/ exists signed rq reply, answer = Ok signed /\ l = [Api (Fetched rq reply)] /\ posts (to_str signed) rq.
(** A request for a challenge, if any. *)
Definition asks_only (account : string) (l : list SessionEv) : Prop :=
l = [] \/ exists rq answer, l = [Api (Fetched rq answer)] /\ rq_url rq = getApiUrl +:+ "/auth?address=" +:+ account /\ rq_method rq = None.

Lemma challenge_call account :
trace_spec (relabel Api (fetchChallenge account)) (fun l r => match r with
  | Ok v => exists e, l = [e] /\ answered ("/auth?address=" +:+ account) e v /\ asks_only account l
  | Throw _ => asks_only account l
  end).
Proof.
eapply trace_relabel; [apply apiFetch_spec|].
intros l r [(-> & m & ->) | (rq & resp & -> & Hu & Hm & _ & ->)]; [by left|].
assert (Ha : asks_only account (map Api [Fetched rq resp])) by (right; by exists rq, resp).
destruct resp as [resp|e]; cbn; [|done].
destruct (read_response resp) as [v|e] eqn:E; [|done].
eexists. split; [done|]. split; [|done]. by exists rq, resp.
Qed.

Lemma login_flow_spec account :
trace_spec (challenge ← relabel Api (fetchChallenge account);
            transaction ← lift (member challenge "transaction");
            passphrase ← lift (member challenge "network_passphrase");
            signedXdr ← io (Signed transaction "TESTNET" passphrase account)
                           (signTransaction transaction passphrase account);
            reply ← relabel Api (verifyChallenge (to_str signedXdr));
            jwt ← lift (member reply "token");
            emit (Store (OpSetToken (as_str jwt)))) (fun l r => match r with
  | Ok _ => signs account l stores_token
  | Throw _ => asks_only account l \/ signs account l gives_up
  end).
Proof.
apply trace_seq. eapply trace_weaken; [apply challenge_call|].
intros l [ch|err] H; [|by left]. destruct H as (e & -> & He & Hask).
apply trace_seq, trace_lift. unfold member at 1. destruct (is_nullish ch) eqn:Hn; [by left|].
apply trace_seq, trace_lift. unfold member at 1. rewrite Hn.
apply trace_seq, trace_io. intros [signed|err]; cbn [app].
2:{ right. exists e, ch, (Throw err), []. split; [done|]. by split; [left|]. }
apply trace_seq. eapply trace_weaken; [apply verify_call|]. intros l [reply|err] H.
- destruct H as (e2 & -> & He2). apply trace_seq, trace_lift. unfold member at 1. destruct (is_nullish reply) eqn:Hr.
  + right. eexists e, ch, (Ok signed), [e2]. split; [done|]. split; [|done]. right.
    destruct He2 as (rq & resp & -> & Hp & _). by exists signed, rq, (Ok resp).
  + apply trace_emit. eexists e, ch, (Ok signed), [e2; _]. split; [done|]. split; [|done]. by exists signed, e2, reply.
- right. exists e, ch, (Ok signed), l. split; [done|]. split; [|done].
  destruct H as [->|(rq & reply & -> & Hp)]; [by left|]. right. by exists signed, rq, reply.
Qed.

(** C7: a login asks for a challenge for the account, signs exactly the transaction
    and passphrase of that challenge as that account, posts exactly the transaction the wallet
    signed, and stores the token of the reply to it; on any failure the stored token is cleared
    and an error shown, and nothing else was sent.  Without an account it does nothing but show
    an error.  It never rejects. *)
Theorem login_protocol account :
trace_spec (login account) (fun l r => r = Ok tt /\
  match account with
  | None => exists m, l = [SetError (Some m)]
  | Some a =>
      if String.eqb a "" then exists m, l = [SetError (Some m)]
      else exists flow tail, l = SetLoading true :: SetError None :: flow ++ tail /\
        ((tail = [SetLoading false] /\ signs a flow stores_token) \/
         ((asks_only a flow \/ signs a flow gives_up) /\
          exists line err m, tail = [UiEv (ConsoleError line err); SetError (Some m);
                                     Store (OpSetToken None); SetLoading false]))
  end).
Proof.
destruct account as [a|]; [|apply trace_emit; split; [done | by eexists]].
unfold login. cbn [opt_str_truthy default]. destruct (String.eqb a ""); cbn [negb];
  [apply trace_emit; split; [done | by eexists]|].
apply trace_emit_seq, trace_emit_seq, trace_finally, trace_try.
eapply trace_weaken; [apply login_flow_spec|]. intros flow [u|err] H.
- apply trace_emit. split; [by destruct u|]. exists flow, [SetLoading false]. split; [done|]. by left.
- apply trace_seq. eapply trace_relabel; [apply captureError_ok|].
  intros l r (line & ts & -> & ->). apply trace_emit_seq, trace_emit, trace_emit. split; [done|].
  eexists flow, [_; _; _; _]. split; [by rewrite <- app_assoc|]. right. split; [done|]. by eexists _, _, _.
Qed.

Lemma answered_inj path e v path' v' : answered path e v -> answered path' e v' -> v = v'.
Proof. intros (rq & resp & -> & _ & _ & H) (rq' & resp' & [= <- <-] & _ & _ & H'). congruence. Qed.
End SessionFacts.

(** ** The store *)

(** A session is connected exactly when it has an account. *)
Definition wallet_inv (s : WalletState) : Prop := connected s = opt_str_truthy (address s).
Definition op_ok (op : StoreOp) : Prop := match op with OpConnect a _ => a <> "" | _ => True end.

Lemma apply_op_inv s op : wallet_inv s -> op_ok op -> wallet_inv (apply_op s op).
Proof.
  unfold wallet_inv. intros H Hop. destruct op; cbn in *; try done.
  by destruct (String.eqb_spec address0 "").
Qed.

(** C8: however the session is driven (connecting only ever with an account), it is
    connected exactly when it has an account; and whatever was persisted, a reload starts
    disconnected and without a token, keeping the role alone. *)
Theorem wallet_session ops persisted (Hops : Forall op_ok ops) :
  let s := foldl apply_op wallet_initial ops in
  wallet_inv s /\
  (let r := merge persisted s in
   address r = None /\ connected r = false /\ network r = None /\ token r = None /\
   role (merge (Some (partialize s)) wallet_initial) = role s).
Proof.
  split; [|done]. assert (H0 : wallet_inv wallet_initial) by done. revert H0.
  generalize wallet_initial. induction Hops as [|op ops Hop Hops IH]; intros s Hs; [done|].
  cbn. by apply IH, apply_op_inv.
Qed.

(** A change reported for a connected session leaves it on the reported
    account with no token of the previous one; a disappeared account ends the session; a
    foreign network raises the banner and coming back lowers it; a disconnected session
    is not touched. *)
Theorem onChange_reconciles s c (Hc : connected (store s) = true) :
  (Watch.ch_disconnected c = true -> store (onChange s c) = wallet_initial) /\
  (Watch.ch_disconnected c = false ->
     (forall a, Watch.ch_address c = Some a -> a <> "" -> Some a <> address (store s) ->
        address (store (onChange s c)) = Some a /\ token (store (onChange s c)) = None /\
        connected (store (onChange s c)) = true) /\
     (Watch.ch_address c = None ->
        address (store (onChange s c)) = address (store s) /\
        token (store (onChange s c)) = token (store s)) /\
     (forall n, Watch.ch_network c = Some n -> n <> "" -> Some n <> network (store s) ->
        network (store (onChange s c)) = Some n /\
        (errorCode (onChange s c) = Some WRONG_NETWORK_ERROR_CODE <-> n <> EXPECTED_NETWORK))).
Proof.
  unfold onChange. rewrite Hc. cbn [negb]. split; [by intros ->|]. intros ->. split_and!.
  - intros a -> Ha Hne. destruct (String.eqb_spec a ""); [done|].
    rewrite bool_decide_false by done. cbn [negb andb].
    repeat case_match; cbn; by destruct (String.eqb_spec a "").
  - intros ->. by repeat case_match.
  - intros n -> Hn Hne. destruct (String.eqb_spec n ""); [done|].
    rewrite bool_decide_false by done. cbn [negb andb].
    destruct (String.eqb_spec n EXPECTED_NETWORK) as [->|]; cbn [negb].
    + split; [by repeat case_match|]. split; [|done]. cbn. case_bool_decide; [done|]. intros ?. contradiction.
    + split; [by repeat case_match | done].
Qed.

(** ** Interleavings *)

(** Replaying a log on the store. *)
Definition replay (s : WalletState) (l : list SessionEv) : WalletState := foldl apply_op s (writes l).

Module MockWallet.
Record env := { tok : option string; answers : list (Z * string) }.
Definition backend : Backend env := {|
  http := fun rq e => match answers e with
                      | (st, body) :: rest =>
                          (Ok {| r_status := st; r_text := Ok body |}, {| tok := tok e; answers := rest |})
                      | [] => (Throw (JErr CTypeError "fetch failed" []), e)
                      end;
  wallet_token := tok; env_api_base_url := None |}.
Definition freighter : Freighter env := {|
  isConnected := fun e => (Ok (JBool true), e);
  requestAccess := fun e => (Ok (JObj [("address", JStr "GA")]), e);
  getPublicKey := fun e => (Ok (JStr "GA"), e);
  getNetworkDetails := fun e => (Ok (JObj [("network", JStr " TESTNET ")]), e);
  signTransaction := fun _ _ _ e => (Ok (JStr "signed"), e) |}.
Definition clock : Clock env := {| now := fun e => (0, e) |}.
Definition server : env := {| tok := None; answers :=
  [(200, "{" +:+ MockApi.member "transaction" (MockApi.quoted "xdr") +:+ "," +:+
         MockApi.member "network_passphrase" (MockApi.quoted "Test") +:+ "}");
   (200, "{" +:+ MockApi.member "token" (MockApi.quoted "jwt-of-GA") +:+ "}")] |}.
Lemma clock_laws : ClockLaws clock.
Proof. by constructor. Qed.
End MockWallet.

Section Interleavings.
#[local] Existing Instance RefZod.ref_zod.
#[local] Existing Instance MockWallet.backend.
#[local] Existing Instance MockWallet.freighter.
#[local] Existing Instance MockWallet.clock.
#[local] Existing Instance MockWallet.clock_laws.

(** The log of a login as account GA. *)
Definition login_log : list SessionEv := (run (login (Some "GA")) MockWallet.server).2.

Definition session_GA : session :=
{| store := apply_op wallet_initial (OpConnect "GA" "testnet"); error := None; errorCode := None |}.
Definition change_GB : Watch.change :=
{| Watch.ch_address := Some "GB"; Watch.ch_disconnected := false; Watch.ch_network := None;
   Watch.ch_previous := {| Watch.sn_address := Some "GA"; Watch.sn_network := Some "testnet" |} |}.

Example connect_and_login :
replay wallet_initial (run connectWallet MockWallet.server).2 = store session_GA /\
writes login_log = [OpSetToken (Some "jwt-of-GA")].
Proof. vm_compute. split; reflexivity. Qed.

(** The account can change while a login is under way.  The reconciliation drops
    the token, but the login that started for the previous account still stores its token
    when it completes: the session ends on account GB with the token of GA. *)
Theorem login_race :
exists before after, login_log = before ++ after /\
  let s := onChange {| store := replay (store session_GA) before; error := None; errorCode := None |}
             change_GB in
  token (store s) = None /\
  let final := replay (store s) after in
  address final = Some "GB" /\ token final = Some "jwt-of-GA" /\ connected final = true.
Proof.
exists (firstn 3 login_log), (skipn 3 login_log). split; [symmetry; apply firstn_skipn|].
vm_compute. repeat split.
Qed.

(** ** Witnesses *)
Lemma connectWallet_checked_witness :
(run connectWallet MockWallet.server).1 = Ok tt.
Proof. exact (proj1 (trace_run _ _ MockWallet.server connectWallet_checked)). Defined.

Lemma login_protocol_witness :
(run (login (Some "GA")) MockWallet.server).1 = Ok tt.
Proof. exact (proj1 (trace_run _ _ MockWallet.server (login_protocol (Some "GA")))). Defined.
End Interleavings.

Lemma wallet_session_witness :
  wallet_inv (foldl apply_op wallet_initial [OpConnect "GA" "testnet"; OpSetAddress None]).
Proof.
  refine (proj1 (wallet_session [OpConnect "GA" "testnet"; OpSetAddress None] None _)).
  repeat constructor. discriminate.
Defined.

Lemma onChange_reconciles_witness :
  token (store (onChange session_GA change_GB)) = None.
Proof.
  destruct (onChange_reconciles session_GA change_GB eq_refl) as [_ H].
  destruct (H eq_refl) as [Ha _]. refine (proj1 (proj2 (Ha "GB" eq_refl _ _))); discriminate.
Defined.

Lemma watcher_tracks_witness :
  Watch.changes (Watch.run (Watch.start {| Watch.sn_address := Some "GA"; Watch.sn_network := None |})
     [Watch.Tick; Watch.Tick; Watch.Settled (Ok ("GB", JUndef)); Watch.Stop]).2 <> [].
Proof.
  destruct (watcher_tracks {| Watch.sn_address := Some "GA"; Watch.sn_network := None |}
     [Watch.Tick; Watch.Tick; Watch.Settled (Ok ("GB", JUndef)); Watch.Stop] ltac:(discriminate)) as [H _].
  intros E. rewrite E in H. vm_compute in H. discriminate H.
Defined.
