(* ===== verification/Notifications.v ===== *)
(** * Notifications ([apps/web/types/notifications.ts], [hooks/useNotifications.ts])

    An event becomes a notification; the hook merges the relevant events into the history
    cached per wallet, filters by the muted categories and writes the history back unless
    what is stored could not be read completely.  A notification is an object, since the
    cached ones come from untyped storage. *)

From S2P Require Import Prelude JsNumber JsString JsValue JsJson Effects SdkTypes Schemas WebParsers WebApi WebErrors.
From S2P Require Import Storage Wallet.
From Stdlib Require Import Permutation.

Definition typeMap (event_type : string) : option string :=
  match list_find (fun kv => kv.1 = event_type)
    [("InvoiceCreated", "Invoice Created"); ("create", "Invoice Created");
     ("InvoiceListed", "Invoice Listed"); ("list_for_financing", "Invoice Listed");
     ("InvoiceFunded", "Invoice Funded"); ("fund_invoice", "Invoice Funded");
     ("InvoiceShipped", "Invoice Shipped"); ("mark_shipped", "Invoice Shipped");
     ("DeliveryConfirmed", "Delivery Confirmed"); ("confirm_delivery", "Delivery Confirmed");
     ("InvoiceRepaid", "Invoice Repaid"); ("repay", "Invoice Repaid");
     ("InvoiceDefaulted", "Invoice Defaulted"); ("trigger_default", "Invoice Defaulted")] with
  | Some (_, kv) => Some kv.2
  | None => None
  end.

Definition event_in (event_type : string) (l : list string) : bool := existsb (String.eqb event_type) l.

Definition notification_message (event_type invShort : string) : string :=
  if event_in event_type ["InvoiceCreated"; "create"] then "New invoice " +:+ invShort +:+ " issued on-chain"
  else if event_in event_type ["InvoiceListed"; "list_for_financing"] then invShort +:+ " listed for financing"
  else if event_in event_type ["InvoiceFunded"; "fund_invoice"] then invShort +:+ " fully funded"
  else if event_in event_type ["InvoiceShipped"; "mark_shipped"] then invShort +:+ " marked as shipped"
  else if event_in event_type ["DeliveryConfirmed"; "confirm_delivery"] then
    "Buyer confirmed delivery for " +:+ invShort
  else if event_in event_type ["InvoiceRepaid"; "repay"] then invShort +:+ " repaid"
  else if event_in event_type ["InvoiceDefaulted"; "trigger_default"] then invShort +:+ " defaulted"
  else str_or invShort "Event occurred".

Definition mapEventToNotification (event : EventLog) : jsval :=
  let type := opt_str_or (typeMap (ev_event_type event)) (ev_event_type event) in
  let invId := nullish (getEventDataString event "invoice_id") "" in
  let invShort := if String.eqb invId "" then "" else "INV#" +:+ Str.slice 0 4 invId +:+ "..." in
  JObj [("id", JStr (Num.to_string (ev_id event))); ("type", JStr type); ("invoiceId", JStr invId);
        ("message", JStr (notification_message (ev_event_type event) invShort));
        ("timestamp", JNum (ev_ledger_closed_at event)); ("read", JBool false)].

(** ** The cached history *)
Definition isNotificationEvent (v : jsval) : bool :=
  is_object v && is_string (field v "id") && is_string (field v "type").

Record StoredNotifications := { sn_items : list jsval; canPersist : bool; hasStored : bool }.

Definition readStoredNotifications (s : storage) (storageKey : string) : StoredNotifications :=
  match getItem s storageKey with
  | Throw _ => {| sn_items := []; canPersist := false; hasStored := false |}
  | Ok None => {| sn_items := []; canPersist := true; hasStored := false |}
  | Ok (Some raw) =>
      match Json.parse raw with
      | Ok (JArr parsed) =>
          let items := List.filter isNotificationEvent parsed in
          {| sn_items := items; canPersist := (length items =? length parsed)%nat; hasStored := true |}
      | _ => {| sn_items := []; canPersist := false; hasStored := true |}
      end
  end.

(** [n.id]. *)
Definition notif_id (n : jsval) : string := match field n "id" with JStr s => s | _ => "" end.
(** [{ ...n, read }]. *)
Definition with_read (n read : jsval) : jsval := JObj (JsValue.set (own_fields n) "read" read).

(** [notifMap]: a [Map] from id to notification. *)
Definition add_saved (m : fields) (n : jsval) : fields := JsValue.set m (notif_id n) n.
Definition add_mapped (m : fields) (n : jsval) : fields :=
  match get m (notif_id n) with
  | None => JsValue.set m (notif_id n) n
  | Some existing => JsValue.set m (notif_id n) (with_read n (field existing "read"))
  end.
Definition merge_notifications (saved mapped : list jsval) : fields :=
  foldl add_mapped (foldl add_saved [] saved) mapped.

(** [Array.prototype.sort] with the comparator [b.timestamp - a.timestamp]. *)
Definition timestamp_of (n : jsval) : num :=
  match to_number (field n "timestamp") with Ok x => x | Throw _ => Num.nan end.
Definition compare_newest (a b : jsval) : num := Num.sub (timestamp_of b) (timestamp_of a).
Definition sort_newest : list jsval -> list jsval := sort_by (fun y x => Num.gtb (compare_newest y x) Num.zero).

(** ** The effect of [useNotifications] *)
Definition lp_events : list string :=
  ["InvoiceListed"; "list_for_financing"; "InvoiceFunded"; "fund_invoice"; "InvoiceRepaid"; "repay";
   "InvoiceDefaulted"; "trigger_default"].

Definition relevantInvoiceIds (address : string) (role : WalletRole) (invoices : list jsval) : list string :=
  map invoice_key (List.filter (fun inv =>
    match field inv "issuer" with JStr s => String.eqb s address | _ => false end ||
    match field inv "buyer" with JStr s => String.eqb s address | _ => false end ||
    match role with RLp => true | _ => false end) invoices).

Definition is_relevant (role : WalletRole) (ids : list string) (e : EventLog) : bool :=
  match getEventDataString e "invoice_id" with
  | None => false
  | Some invId =>
      if String.eqb invId "" then false
      else match role with
           | RLp => if event_in invId ids then event_in (ev_event_type e) lp_events else event_in invId ids
           | _ => event_in invId ids
           end
  end.

Definition read_prefs (s : storage) (address : string) : jsval :=
  match getItem s (prefsStorageKey address) with
  | Ok (Some p) => if String.eqb p "" then JObj []
                   else match Json.parse p with Ok v => v | Throw _ => JObj [] end
  | _ => JObj []
  end.

(** [prefs[n.type] !== false] for every notification: a stored [null] makes it throw. *)
Definition not_muted (prefs n : jsval) : res bool :=
  if is_nullish prefs then Throw (JErr CTypeError "Cannot read properties of null" [])
  else Ok (match field prefs (to_str (field n "type")) with JBool false => false | _ => true end).
Fixpoint filter_res (f : jsval -> res bool) (l : list jsval) : res (list jsval) :=
  match l with
  | [] => Ok []
  | x :: r => b ← f x; ys ← filter_res f r; Ok (if (b : bool) then x :: ys else ys)
  end.

Definition persist (s : storage) (key : string) (l : list jsval) : storage :=
  match Json.stringify (JArr l) with
  | Ok (Some text) => setItem_safe s key text
  | _ => s
  end.

Record view := { st : storage; notifications : list jsval }.

(** The history as it would be written back. *)
Definition next_history (s : storage) (a : string) (role : WalletRole) (events : list EventLog)
  (invoices : list jsval) : list jsval :=
  let ids := relevantInvoiceIds a role invoices in
  let mapped := map mapEventToNotification (List.filter (is_relevant role ids) events) in
  (merge_notifications (sn_items (readStoredNotifications s (notificationHistoryKey a))) mapped).*2.

Definition update (s : storage) (address : option string) (role : WalletRole) (events : list EventLog)
  (invoices : list jsval) : res view :=
  if negb (opt_str_truthy address) then Ok {| st := s; notifications := [] |}
  else
    let a := default "" address in
    let key := notificationHistoryKey a in
    let all := next_history s a role events invoices in
    shown ← filter_res (not_muted (read_prefs s a)) all;
    Ok {| st := if canPersist (readStoredNotifications s key) then persist s key all else s;
          notifications := sort_newest shown |}.

Definition markAllAsRead (v : view) (address : option string) : view :=
  if negb (opt_str_truthy address) then v
  else
    let key := notificationHistoryKey (default "" address) in
    let read n := with_read n (JBool true) in
    let stored := readStoredNotifications (st v) key in
    {| st := if hasStored stored && canPersist stored
             then persist (st v) key (map read (sn_items stored)) else st v;
       notifications := map read (notifications v) |}.

(** ** Properties of the merge *)
Lemma get_in_keys (m : fields) k : k ∈ m.*1 <-> is_Some (get m k).
Proof.
  induction m as [|[k' v] m IH]; cbn.
  - split; [by intros ?%not_elem_of_nil | by intros [? [=]]].
  - rewrite elem_of_cons. destruct (String.eqb_spec k k') as [->|Hne]; [by split; eauto|].
    rewrite <- IH. naive_solver.
Qed.

(** The last notification of a list with a given id. *)
Definition last_with_id (k : string) (l : list jsval) : option jsval :=
  list.last (List.filter (fun n => String.eqb (notif_id n) k) l).

Lemma saved_get saved m k :
  get (foldl add_saved m saved) k =
  match last_with_id k saved with Some n => Some n | None => get m k end.
Proof.
  induction saved as [|n saved IH] using rev_ind; [done|].
  rewrite foldl_app. cbn [foldl]. unfold add_saved at 1. unfold last_with_id in *.
  rewrite List.filter_app. cbn [List.filter].
  destruct (String.eqb_spec (notif_id n) k) as [->|Hne].
  - by rewrite get_set_eq, list.last_snoc.
  - by rewrite get_set_ne, app_nil_r.
Qed.

Lemma with_read_field n r : field (with_read n r) "read" = r.
Proof. unfold with_read. cbn. unfold prop. by rewrite get_set_eq. Qed.

(** Adding events keeps the read flag of what is there. *)
Definition flag (m : fields) (k : string) : option jsval := (fun n => field n "read") <$> get m k.

Lemma mapped_flag mapped m k :
  (forall n, n ∈ mapped -> field n "read" = JBool false) ->
  flag (foldl add_mapped m mapped) k =
  match flag m k with
  | Some r => Some r
  | None => if existsb (fun n => String.eqb (notif_id n) k) mapped then Some (JBool false) else None
  end.
Proof.
  revert m. induction mapped as [|n mapped IH]; intros m Hf; [cbn [foldl existsb]; by destruct (flag m k)|].
  cbn [foldl existsb]. rewrite IH by (intros; apply Hf; by right).
  specialize (Hf n (list_elem_of_here _ _)). unfold add_mapped, flag.
  destruct (String.eqb_spec (notif_id n) k) as [<-|Hne].
  - destruct (get m (notif_id n)) as [ex|] eqn:E; rewrite get_set_eq;
      cbn [fmap option_fmap option_map]; [by rewrite with_read_field | by rewrite Hf].
  - destruct (get m (notif_id n)); rewrite get_set_ne by done; by destruct (get m k).
Qed.

Lemma merge_NoDup saved mapped : NoDup (merge_notifications saved mapped).*1.
Proof.
  unfold merge_notifications.
  assert (H : NoDup (foldl add_saved [] saved).*1).
  { assert (H0 : NoDup ([] : fields).*1) by constructor. revert H0. generalize ([] : fields).
    induction saved as [|n saved IH]; intros m Hm; [done|]. cbn. by apply IH, set_NoDup. }
  revert H. generalize (foldl add_saved [] saved).
  induction mapped as [|n mapped IH]; intros m Hm; [done|]. cbn. apply IH. unfold add_mapped.
  case_match; by apply set_NoDup.
Qed.

Lemma mapped_unread events n : n ∈ map mapEventToNotification events -> field n "read" = JBool false.
Proof. intros H. apply list_elem_of_In, in_map_iff in H as (e & <- & _). done. Qed.

Lemma existsb_mapped events k :
  existsb (fun n => String.eqb (notif_id n) k) (map mapEventToNotification events) =
  existsb (fun e => String.eqb (Num.to_string (ev_id e)) k) events.
Proof. induction events as [|e events IH]; [done|]. cbn [map existsb]. by rewrite IH. Qed.

(** The merged history holds each id once: those of the cached notifications
    and of the new events.  A cached notification keeps its read flag whatever the events
    say, and an event seen for the first time is unread. *)
Theorem history_keeps_read_flags saved events k :
  let m := merge_notifications saved (map mapEventToNotification events) in
  NoDup m.*1 /\
  flag m k = match last_with_id k saved with
             | Some n => Some (field n "read")
             | None => if existsb (fun e => String.eqb (Num.to_string (ev_id e)) k) events
                       then Some (JBool false) else None
             end.
Proof.
  intros m. split; [apply merge_NoDup|]. subst m. unfold merge_notifications.
  rewrite mapped_flag by (intros n; apply mapped_unread). unfold flag at 1. rewrite saved_get.
  destruct (last_with_id k saved); [done|]. cbn. by rewrite existsb_mapped.
Qed.

(** ** Properties of the hook *)
Lemma persist_other s key l k : key <> k -> lookup_item (items (persist s key l)) k = lookup_item (items s) k.
Proof.
  intros Hne. unfold persist. repeat case_match; try done. by apply setItem_safe_other.
Qed.

(** A notification, and a stored text that is a list of them. *)
Definition notification_record (v : jsval) : Prop :=
  is_object v = true /\ (exists i, field v "id" = JStr i) /\ exists t, field v "type" = JStr t.
Definition readable_text (raw : string) : Prop := exists l, Json.parse raw = Ok (JArr l) /\ Forall notification_record l.
(** The history of a key cannot be read, or not completely. *)
Definition corrupt (s : storage) (key : string) : Prop :=
  match getItem s key with Throw _ => True | Ok None => False | Ok (Some raw) => ~ readable_text raw end.

Lemma is_notification_record v : isNotificationEvent v = true <-> notification_record v.
Proof.
  unfold isNotificationEvent, notification_record. rewrite !andb_true_iff.
  assert (Hs : forall x, is_string x = true <-> exists t, x = JStr t).
  { intros []; split; try done; try (by intros [? [=]]). by eexists. }
  rewrite !Hs. tauto.
Qed.
Lemma filter_length {A} (f : A -> bool) l : length (List.filter f l) = length l <-> Forall (fun x => f x = true) l.
Proof.
  assert (Hle : forall l, (length (List.filter f l) <= length l)%nat).
  { intros l'. induction l' as [|x l' IH]; [done|]. cbn. destruct (f x); cbn; lia. }
  induction l as [|x l IH]; [done|]. rewrite list.Forall_cons, <- IH. cbn. specialize (Hle l).
  destruct (f x); cbn; [split; [intros [= ->]; done|by intros [_ ->]]|]. split; [lia|by intros [? _]].
Qed.
Lemma may_persist s key : canPersist (readStoredNotifications s key) = true <-> ~ corrupt s key.
Proof.
  unfold readStoredNotifications, corrupt. destruct (getItem s key) as [[raw|]|e]; cbn; [|tauto|split; [done|tauto]].
  unfold readable_text. destruct (Json.parse raw) as [v|e].
  2:{ split; [done|]. intros H. destruct H. by intros (l & [=] & _). }
  destruct v as [| |b|n| |str| | |l|fs| | |]; try (split; [done|]; intros H; destruct H; by intros (l & [=] & _)).
  cbn [canPersist]. rewrite Nat.eqb_eq, filter_length. split.
  - intros H Hn. apply Hn. exists l. split; [done|]. eapply list.Forall_impl; [exact H|]. intros x. by rewrite is_notification_record.
  - intros H. destruct (decide (Forall (fun x => isNotificationEvent x = true) l)) as [|Hn]; [done|]. destruct H.
    intros (l' & [= <-] & Hl). apply Hn. eapply list.Forall_impl; [exact Hl|]. intros x. by rewrite is_notification_record.
Qed.

(** C16: a cached history that cannot be read completely (a storage that throws, no JSON, no
    array, or an entry that is no object with an id and a type) is never overwritten, neither by
    new events nor by marking everything as read; any other is replaced by the merged history;
    and no other key of the storage is ever touched. *)
Theorem corrupt_history_kept s address role events invoices v
  (H : update s address role events invoices = Ok v) :
  let key := notificationHistoryKey (default "" address) in
  (corrupt s key -> st v = s /\ st (markAllAsRead v address) = s) /\
  (opt_str_truthy address = true -> ~ corrupt s key ->
     st v = persist s key (next_history s (default "" address) role events invoices)) /\
  (forall k, k <> key -> lookup_item (items (st v)) k = lookup_item (items s) k /\
     lookup_item (items (st (markAllAsRead v address))) k = lookup_item (items s) k).
Proof.
  intros key. assert (Hc : corrupt s key -> canPersist (readStoredNotifications s key) = false).
  { intros Hc. apply not_true_iff_false. rewrite may_persist. by intros Hn. }
  pose proof (may_persist s key) as Hm. unfold key in *.
  unfold update in H. unfold markAllAsRead. destruct (opt_str_truthy address); cbn [negb] in *.
  - apply bind_ok in H as (shown & _ & [= <-]). cbn [st notifications]. split_and!.
    + intros Hk%Hc. rewrite Hk. split; [done|]. by rewrite Hk, andb_false_r.
    + intros _ Hk. by rewrite (proj2 Hm Hk).
    + intros k Hk. split; [destruct (canPersist _); [by apply persist_other | done]|].
      case_match; [rewrite persist_other by done|]; (destruct (canPersist (readStoredNotifications s _));
        [by apply persist_other | done]).
  - injection H as <-. done.
Qed.

Lemma filter_res_ok prefs l ys : is_nullish prefs = false -> filter_res (not_muted prefs) l = Ok ys ->
  ys = List.filter (fun n => match field prefs (to_str (field n "type")) with
                             | JBool false => false | _ => true end) l.
Proof.
  intros Hn. revert ys. induction l as [|x l IH]; intros ys H; cbn [filter_res List.filter] in *.
  - by injection H as <-.
  - apply bind_ok in H as (b & Hb & H). unfold not_muted in Hb. rewrite Hn in Hb. injection Hb as <-.
    apply bind_ok in H as (zs & Hz & [= <-]). by rewrite (IH zs Hz).
Qed.

(** What is shown is a rearrangement of the history without the muted
    categories, while the history itself keeps them. *)
Theorem shown_is_unmuted_history s a role events invoices v
  (Ha : a <> "") (Hp : is_nullish (read_prefs s a) = false)
  (H : update s (Some a) role events invoices = Ok v) :
  notifications v ≡ₚ List.filter (fun n =>
    match field (read_prefs s a) (to_str (field n "type")) with JBool false => false | _ => true end)
    (next_history s a role events invoices).
Proof.
  unfold update in H. cbn [opt_str_truthy default] in H. destruct (String.eqb_spec a ""); [done|].
  cbn [negb] in H. apply bind_ok in H as (shown & Hs & [= <-]). cbn [notifications].
  unfold sort_newest. rewrite sort_by_perm. by rewrite (filter_res_ok _ _ _ Hp Hs).
Qed.

(** A stored preference value of [null] is accepted by the reader, and the hook
    throws as soon as there is a notification to show. *)
Theorem null_preferences_throw s a role events invoices n rest
  (Ha : a <> "") (Hp : getItem s (prefsStorageKey a) = Ok (Some "null"))
  (Hn : next_history s a role events invoices = n :: rest) :
  exists e, update s (Some a) role events invoices = Throw e.
Proof.
  eexists. unfold update. cbn [opt_str_truthy default]. destruct (String.eqb_spec a ""); [done|].
  cbn [negb]. cbv zeta. change (id a) with a. rewrite Hn. unfold read_prefs. rewrite Hp.
  change (Json.parse "null") with (@Ok jsval jsval JNull). cbn. done.
Qed.

(** ** Witnesses *)
Definition sample_event (id : Z) (type inv : string) : EventLog :=
  {| ev_id := Num.of_Z id; ev_event_id := ""; ev_contract_id := ""; ev_ledger := Num.zero;
     ev_ledger_closed_at := Num.of_Z (100 + id); ev_event_type := type;
     ev_data := JObj [("invoice_id", JStr inv)] |}.
Definition sample_events : list EventLog :=
  [sample_event 1 "repay" "i1"; sample_event 2 "InvoiceFunded" "i1"; sample_event 3 "repay" "other"].
Definition sample_invoices : list jsval := [JObj [("id", JStr "i1"); ("issuer", JStr "GA")]].
Definition member_json (k v : string) : string := dq +:+ k +:+ dq +:+ ":" +:+ v.
Definition sample_storage (history prefs : string) : storage :=
  {| items := [("trusttrove_notifs_GA", history); ("trusttrove_prefs_GA", prefs)];
     readable := true; writable := fun _ _ => true |}.
Definition read_history : string :=
  "[{" +:+ member_json "id" (dq +:+ "1" +:+ dq) +:+ "," +:+ member_json "type" (dq +:+ "Invoice Repaid" +:+ dq)
  +:+ "," +:+ member_json "timestamp" "101" +:+ "," +:+ member_json "read" "true" +:+ "}]".
Definition muted : string := "{" +:+ member_json "Invoice Funded" "false" +:+ "}".

Example update_merges :
  match update (sample_storage read_history muted) (Some "GA") RIssuer sample_events sample_invoices with
  | Ok v => map notif_id (notifications v) = ["1"] /\
            map (fun n => field n "read") (notifications v) = [JBool true] /\
            map notif_id (sn_items (readStoredNotifications (st v) "trusttrove_notifs_GA")) = ["1"; "2"]
  | Throw _ => False
  end.
Proof. vm_compute. repeat split. Qed.

Lemma corrupt_history_kept_witness :
  exists v, update (sample_storage "[1" "") (Some "GA") RIssuer sample_events sample_invoices = Ok v /\
    st v = sample_storage "[1" "".
Proof.
  destruct (update (sample_storage "[1" "") (Some "GA") RIssuer sample_events sample_invoices)
    as [v|e] eqn:E; [|vm_compute in E; discriminate E].
  exists v. split; [reflexivity|].
  refine (proj1 (proj1 (corrupt_history_kept _ _ _ _ _ _ E) _)).
  intros (l & Hl & _). vm_compute in Hl. discriminate Hl.
Defined.

Lemma shown_is_unmuted_history_witness :
  exists v n, update (sample_storage read_history muted) (Some "GA") RIssuer sample_events sample_invoices =
    Ok v /\ notifications v ≡ₚ [n].
Proof.
  destruct (update (sample_storage read_history muted) (Some "GA") RIssuer sample_events sample_invoices)
    as [v|e] eqn:E; [|vm_compute in E; discriminate E].
  exists v. eexists. split; [reflexivity|].
  exact (shown_is_unmuted_history (sample_storage read_history muted) "GA" RIssuer sample_events
           sample_invoices v ltac:(discriminate) eq_refl E).
Defined.

Lemma null_preferences_throw_witness :
  exists e, update (sample_storage "[]" "null") (Some "GA") RIssuer sample_events sample_invoices = Throw e.
Proof.
  exact (null_preferences_throw (sample_storage "[]" "null") "GA" RIssuer sample_events sample_invoices _ _
           ltac:(discriminate) eq_refl eq_refl).
Defined.
