(* ===== verification/TxHistory.v ===== *)
(** * Transaction history ([apps/web/hooks/useTxHistory.ts])

    One page is a list of transactions and one operations lookup for each; a lookup that
    fails makes the page fail, so a page never omits a transaction silently.  Horizon and
    the query cache are parameters.  Paging keeps a stack of cursors and is a state
    machine. *)

From S2P Require Import Prelude JsNumber JsString JsValue JsDate Effects.
Local Open Scope Z_scope.

Record HorizonAssetBalanceChange := {
  bc_from : option string; bc_to : option string; bc_amount : option string;
  bc_asset_type : option string; bc_asset_code : option string }.

Record HorizonOperationRecord := {
  op_type : option string; op_type_i : option num; op_amount : option string;
  op_asset_type : option string; op_asset_code : option string; op_contract_id : option string;
  op_function : option string; op_balance_changes : option (list HorizonAssetBalanceChange) }.

Record TransactionRecord := {
  tx_hash : string; tx_created_at : string; tx_successful : bool; tx_paging_token : string }.

Record TxHistoryItem := {
  it_id : string; it_type : string; it_amount : option string; it_token : option string;
  it_timestamp : num; it_hash : string; it_success : bool }.

Definition FUNCTION_LABELS : list (string * string) :=
  [("create", "Create Invoice"); ("list_for_financing", "List Invoice"); ("mark_shipped", "Mark Shipped");
   ("confirm_delivery", "Confirm Delivery"); ("repay", "Repay Invoice"); ("trigger_default", "Trigger Default");
   ("deposit", "Pool Deposit"); ("withdraw", "Pool Withdraw"); ("fund_invoice", "Fund Invoice");
   ("receive_repayment", "Receive Repayment"); ("register_issuer", "Register Issuer");
   ("register_buyer", "Register Buyer"); ("is_verified", "Verify Identity"); ("revoke", "Revoke Profile");
   ("lock", "Lock Escrow"); ("release_to_issuer", "Release to Issuer"); ("release_to_pool", "Release to Pool");
   ("handle_default", "Handle Default")].

Definition getTxType (funcName : string) : string :=
  match list_find (fun kv => kv.1 = funcName) FUNCTION_LABELS with
  | Some (_, kv) => kv.2
  | None => "Contract Invocation"
  end.

(** ** Errors *)
Definition rate_limit_message : string :=
  "Horizon rate limit reached (429). Please wait a moment and try again.".
Definition new_HorizonRateLimitError : jsval :=
  JErr CHorizonRateLimitError rate_limit_message [("status", JNum (Num.of_Z 429))].

Definition is_429 (v : jsval) : bool := match v with JNum n => Num.eqb n (Num.of_Z 429) | _ => false end.
Definition isRateLimitError (err : jsval) : bool :=
  if instance_of CHorizonRateLimitError err then true
  else if negb (is_object err) then false
  else is_429 (field err "status") || is_429 (opt_field (field err "response") "status").

Definition new_HorizonOperationsError (hashes : list string) (originalError : jsval) : jsval :=
  JErr CHorizonOperationsError
    ("Failed to load Horizon operations for transaction" +:+ (if (length hashes =? 1)%nat then "" else "s") +:+
     " " +:+ Str.join ", " hashes +:+ ".")
    [("hashes", JArr (map JStr hashes)); ("originalError", originalError)].

(** ** Amounts *)
Definition num_is (n : option num) (z : Z) : bool :=
  match n with Some n => Num.eqb n (Num.of_Z z) | None => false end.
Definition is_some_str (o : option string) (s : string) : bool := bool_decide (o = Some s).

Definition amount_and_token (amount asset_type asset_code : option string) : option (string * string) :=
  let token := if is_some_str asset_type "native" then Some "XLM" else asset_code in
  if opt_str_truthy amount && opt_str_truthy token then Some (default "" amount, default "" token) else None.

Definition extractOpAmount (op : HorizonOperationRecord) (userAddress : string) : option (string * string) :=
  if is_some_str (op_type op) "payment" || num_is (op_type_i op) 1 then
    amount_and_token (op_amount op) (op_asset_type op) (op_asset_code op)
  else if is_some_str (op_type op) "invoke_host_function" || num_is (op_type_i op) 24 then
    match list_find (fun c => bc_from c = Some userAddress \/ bc_to c = Some userAddress)
            (default [] (op_balance_changes op)) with
    | Some (_, relevant) =>
        amount_and_token (bc_amount relevant) (bc_asset_type relevant) (bc_asset_code relevant)
    | None => None
    end
  else None.

(** ** A page *)
Record page := { pg_items : list TxHistoryItem; pg_nextCursor : option string }.

Section Assemble.
(** The configured contract ids ([CONTRACT_IDS]). *)
Context (CONTRACT_IDS : list string).

Definition matches (op : HorizonOperationRecord) : bool :=
match op_contract_id op with
| Some c => negb (String.eqb c "") && existsb (String.eqb c) CONTRACT_IDS
| None => false
end.

Definition make_item (address : string) (tx : TransactionRecord) (mainOp : HorizonOperationRecord) : TxHistoryItem :=
let amountToken := extractOpAmount mainOp address in
{| it_id := tx_hash tx; it_type := getTxType (nullish (op_function mainOp) "");
   it_amount := fst <$> amountToken; it_token := snd <$> amountToken;
   it_timestamp := Num.div (Date.parse (tx_created_at tx)) (Num.of_Z 1000);
   it_hash := tx_hash tx; it_success := tx_successful tx |}.

(** The loop over the records and their settled lookups. *)
Fixpoint build_items (address : string) (records : list TransactionRecord)
  (results : list (res (list HorizonOperationRecord))) : list TxHistoryItem :=
match records, results with
| tx :: records, Ok ops :: results =>
    match List.filter matches ops with
    | [] => build_items address records results
    | mainOp :: _ => make_item address tx mainOp :: build_items address records results
    end
| _ :: records, Throw _ :: results => build_items address records results
| _, _ => []
end.

Definition is_rejected {A} (r : res A) : bool := negb (is_ok r).
Definition rate_limited {A} (r : res A) : bool :=
match r with Throw e => isRateLimitError e | Ok _ => false end.

(** [failedHashes] and [firstFailure]. *)
Fixpoint failures (records : list TransactionRecord) (results : list (res (list HorizonOperationRecord))) :
  list (string * jsval) :=
match records, results with
| tx :: records, Throw e :: results => (tx_hash tx, e) :: failures records results
| _ :: records, Ok _ :: results => failures records results
| _, _ => []
end.
(** The first reason that is not [undefined]. *)
Definition first_failure (l : list (string * jsval)) : jsval :=
match List.filter (fun p => match p.2 with JUndef => false | _ => true end) l with
| p :: _ => p.2
| [] => JUndef
end.

(** From [Promise.allSettled] on. *)
Definition assemble (address : string) (records : list TransactionRecord)
  (results : list (res (list HorizonOperationRecord))) : res page :=
if existsb rate_limited results then Throw new_HorizonRateLimitError
else
  let failed := failures records results in
  match failed with
  | _ :: _ => Throw (new_HorizonOperationsError (map fst failed) (first_failure failed))
  | [] =>
      Ok {| pg_items := build_items address records results;
            pg_nextCursor := if (length records =? 10)%nat
                             then tx_paging_token <$> list.last records else None |}
  end.
End Assemble.

(** Horizon: the ten latest transactions of an account from a cursor on, and the operations
    of a transaction. *)
Class Horizon (Env : Type) := {
  transactions : string -> option string -> Env -> res (list TransactionRecord) * Env;
  operations : string -> Env -> res (list HorizonOperationRecord) * Env }.

Inductive HorizonEv := GotTransactions (cursor : option string) | GotOperations (hash : string).

(** [queryClient.fetchQuery] for the key of a hash. *)
Class QueryClient (Env : Type) := {
  fetchQuery : string -> M Env HorizonEv (list HorizonOperationRecord) ->
               M Env HorizonEv (list HorizonOperationRecord) }.

Section Fetch.
Context {Env : Type} {H : Horizon Env} (CONTRACT_IDS : list string).
Abbreviation IO := (M Env HorizonEv).

Definition map_429 {A} (m : IO A) : IO A :=
catch m (fun err => if isRateLimitError err then raise new_HorizonRateLimitError else raise err).

Definition fetchOperationsForTx (hash : string) : IO (list HorizonOperationRecord) :=
map_429 (io (fun _ => GotOperations hash) (operations hash)).

Definition createCachedOpsFetcher {Q : QueryClient Env} (hash : string) : IO (list HorizonOperationRecord) :=
fetchQuery hash (fetchOperationsForTx hash).

(** [Promise.allSettled]: the lookups are run one after the other. *)
Fixpoint allSettled {A} (ms : list (IO A)) : IO (list (res A)) :=
match ms with
| [] => mret []
| m :: ms => r ← (fun w => let '(r, w') := m w in (Ok r, w')); rs ← allSettled ms; mret (r :: rs)
end.

Definition fetchPage (address : string) (cursor : option string)
  (fetchOps : string -> IO (list HorizonOperationRecord)) : IO page :=
let cursor := if opt_str_truthy cursor then cursor else None in
records ← map_429 (io (fun _ => GotTransactions cursor) (transactions address cursor));
match records with
| [] => mret {| pg_items := []; pg_nextCursor := None |}
| _ =>
    results ← allSettled (map (fun tx => fetchOps (tx_hash tx)) records);
    lift (assemble CONTRACT_IDS address records results)
end.
End Fetch.

(** [retry] of the page query. *)
Definition should_retry (failureCount : nat) (err : jsval) : bool :=
  negb (isRateLimitError err) && (failureCount <? 2)%nat.

(** ** Paging *)
Module Paging.
Record state := { cursorStack : list (option string); pageIndex : nat }.
Definition initial : state := {| cursorStack := [None]; pageIndex := 0 |}.
Definition cursor (s : state) : option string := default None (cursorStack s !! pageIndex s).

(** [goNext], with the cursor that the data of the current page came with. *)
Definition goNext (s : state) (nextCursor : option string) : state :=
if opt_str_truthy nextCursor
then {| cursorStack := cursorStack s ++ [nextCursor]; pageIndex := S (pageIndex s) |} else s.
Definition goPrev (s : state) : state :=
if (0 <? pageIndex s)%nat
then {| cursorStack := cursorStack s; pageIndex := pageIndex s - 1 |} else s.
Definition hasPrev (s : state) : bool := (0 <? pageIndex s)%nat.

Inductive click := Next | Prev.
(** A click once the page is loaded: [next] is the cursor Horizon gives after a page. *)
Definition step (next : option string -> option string) (s : state) (c : click) : state :=
match c with Next => goNext s (next (cursor s)) | Prev => goPrev s end.
End Paging.

(** [CONTRACT_IDS]: those of the four variables that are set. *)
Definition configured_ids (variables : list (option string)) : list string :=
  omap (fun v => if opt_str_truthy v then v else None) variables.
Definition txOpsQueryKey (HORIZON_URL hash : string) : list string := ["txOps"; HORIZON_URL; hash].

(** The hook: the account of the page and its paging. *)
Module Hook.
Record state := { account : string; paging : Paging.state }.
Record view := { v_transactions : list TxHistoryItem; v_hasNext : bool; v_hasPrev : bool; v_page : nat }.
Definition shown (s : state) (data : option page) : view :=
  {| v_transactions := default [] (pg_items <$> data);
     v_hasNext := opt_str_truthy (data ≫= pg_nextCursor); v_hasPrev := Paging.hasPrev (paging s);
     v_page := S (Paging.pageIndex (paging s)) |}.
(** What the query of a render asks for. *)
Definition asked (s : state) : string * option string := (account s, Paging.cursor (paging s)).

Inductive event := Account (a : string) | GoNext (data : option page) | GoPrev.
(** The next state and what the renders on the way ask for: the effect that resets the
    paging runs after a render with the new account. *)
Definition step (s : state) (e : event) : state * list (string * option string) :=
  match e with
  | Account a =>
      if String.eqb a (account s) then (s, [])
      else
        let rendered := {| account := a; paging := paging s |} in
        let reset := {| account := a; paging := Paging.initial |} in
        (reset, [asked rendered; asked reset])
  | GoNext data =>
      let s' := {| account := account s; paging := Paging.goNext (paging s) (data ≫= pg_nextCursor) |} in (s', [asked s'])
  | GoPrev =>
      let s' := {| account := account s; paging := Paging.goPrev (paging s) |} in (s', [asked s'])
  end.
End Hook.

(** ** Properties *)
Section PageFacts.
Context (CONTRACT_IDS : list string).
Implicit Types (records : list TransactionRecord) (results : list (res (list HorizonOperationRecord))).

(** A transaction that touches one of the contracts. *)
Definition relevant (p : TransactionRecord * list HorizonOperationRecord) : bool :=
existsb (matches CONTRACT_IDS) p.2.

Lemma failures_nil records results : length results = length records ->
failures records results = [] -> exists opss, results = map Ok opss.
Proof.
revert results. induction records as [|tx records IH]; intros [|[ops|e] results] Hl H; try done.
- by exists [].
- destruct (IH results) as [opss ->]; [by injection Hl | done |]. by exists (ops :: opss).
Qed.

Lemma build_items_hashes address records opss : length opss = length records ->
map it_hash (build_items CONTRACT_IDS address records (map Ok opss)) =
map (fun p => tx_hash p.1) (List.filter relevant (zip records opss)).
Proof.
revert opss. induction records as [|tx records IH]; intros [|ops opss] Hl; try done.
injection Hl as Hl. cbn [map build_items zip zip_with List.filter]. unfold relevant at 1. cbn [snd].
assert (E : existsb (matches CONTRACT_IDS) ops =
            match List.filter (matches CONTRACT_IDS) ops with [] => false | _ => true end).
{ clear. induction ops as [|op ops IH]; [done|]. cbn. by destruct (matches CONTRACT_IDS op). }
rewrite E. destruct (List.filter (matches CONTRACT_IDS) ops); cbn [map]; by rewrite IH.
Qed.

Lemma assemble_ok address records results p : length results = length records ->
assemble CONTRACT_IDS address records results = Ok p ->
exists opss, results = map Ok opss /\ length opss = length records /\
  map it_hash (pg_items p) = map (fun q => tx_hash q.1) (List.filter relevant (zip records opss)) /\
  pg_nextCursor p = if (length records =? 10)%nat then tx_paging_token <$> list.last records else None.
Proof.
intros Hl H. unfold assemble in H. destruct (existsb rate_limited results); [done|].
destruct (failures records results) eqn:Hf; [|done].
destruct (failures_nil _ _ Hl Hf) as [opss ->]. rewrite length_map in Hl. exists opss.
injection H as <-. split; [done|]. split; [done|]. split; [by apply build_items_hashes | done].
Qed.

Lemma failures_hashes records results : length results = length records ->
map fst (failures records results) =
map (fun p => tx_hash p.1) (List.filter (fun p => is_rejected p.2) (zip records results)).
Proof.
revert results. induction records as [|tx records IH]; intros [|[ops|e] results] Hl; try done;
  injection Hl as Hl; cbn; by rewrite IH.
Qed.

(** A page fails exactly when some lookup failed.  A throttled lookup gives the
    rate-limit error; otherwise the error names the transactions whose lookup failed,
    all of them and in order. *)
Theorem assemble_failures address records results (Hl : length results = length records) :
match assemble CONTRACT_IDS address records results with
| Ok _ => forall r, r ∈ results -> is_ok r = true
| Throw e =>
    (e = new_HorizonRateLimitError /\ exists r, r ∈ results /\ rate_limited r = true) \/
    (exists orig, e = new_HorizonOperationsError
       (map (fun p => tx_hash p.1) (List.filter (fun p => is_rejected p.2) (zip records results))) orig /\
     exists r, r ∈ results /\ is_rejected r = true)
end.
Proof.
destruct (assemble CONTRACT_IDS address records results) as [p|e] eqn:E.
- destruct (assemble_ok _ _ _ _ Hl E) as (opss & -> & _). intros r Hr.
  by apply list_elem_of_In, in_map_iff in Hr as (x & <- & _).
- unfold assemble in E. destruct (existsb rate_limited results) eqn:Hr.
  + injection E as <-. left. split; [done|]. apply existsb_exists in Hr as (r & Hr & ?).
    exists r. by rewrite list_elem_of_In.
  + destruct (failures records results) as [|f fs] eqn:Hf; [done|]. injection E as <-. right.
    pose proof (failures_hashes _ _ Hl) as Hh. rewrite Hf in Hh. rewrite <- Hh.
    eexists. split; [done|].
    assert (Hin : f ∈ failures records results) by (rewrite Hf; by left). clear -Hin Hl.
    revert results Hl Hin. induction records as [|tx records IH]; intros [|[ops|e] results] Hl Hin;
      cbn in Hin; try by apply not_elem_of_nil in Hin.
    * destruct (IH results) as (r & ? & ?); [by injection Hl | done |]. exists r. split; [by right | done].
    * exists (Throw e). split; [by left | done].
Qed.
End PageFacts.

Section FetchFacts.
Context {Env : Type} {H : Horizon Env} (CONTRACT_IDS : list string).

Lemma allSettled_spec {A} (ms : list (M Env HorizonEv A)) w : exists rs w',
  allSettled ms w = (Ok rs, w') /\ Forall2 (fun m r => exists w, (m w).1 = r) ms rs.
Proof.
revert w. induction ms as [|m ms IH]; intros w; [by exists [], w; repeat constructor|].
cbn [allSettled]. unfold mbind, M_bind. destruct (m w) as [r w1] eqn:E.
destruct (IH w1) as (rs & w2 & E2 & HF). rewrite E2. exists (r :: rs), w2. split; [done|].
constructor; [|done]. exists w. by rewrite E.
Qed.

(** C15: a page that loads has one entry, in order, for each transaction Horizon
    returned that touches a configured contract, judged on the operations the lookup of
    that transaction gave; none is dropped because a lookup failed.  There is a next
    page exactly when Horizon returned a full one. *)
Theorem fetchPage_complete address cursor fetchOps (w w' : world Env HorizonEv) p
  (Hp : fetchPage CONTRACT_IDS address cursor fetchOps w = (Ok p, w')) :
exists records opss,
  (transactions address (if opt_str_truthy cursor then cursor else None) (w_env w)).1 = Ok records /\
  Forall2 (fun tx ops => exists wi, (fetchOps (tx_hash tx) wi).1 = Ok ops) records opss /\
  map it_hash (pg_items p) =
    map (fun q => tx_hash q.1) (List.filter (relevant CONTRACT_IDS) (zip records opss)) /\
  pg_nextCursor p = if (length records =? 10)%nat then tx_paging_token <$> list.last records else None.
Proof.
unfold fetchPage, map_429, catch, io, mbind, M_bind in Hp.
destruct (transactions address _ (w_env w)) as [[records|e] env'];
  [|by destruct (isRateLimitError e)].
exists records. destruct records as [|tx records].
{ exists []. injection Hp as <- _. done. }
destruct (allSettled_spec (map (fun tx => fetchOps (tx_hash tx)) (tx :: records))
  (World env' (w_log w ++ [GotTransactions (if opt_str_truthy cursor then cursor else None)])))
  as (rs & w2 & E & HF).
rewrite E in Hp. unfold lift in Hp. injection Hp as Hp _.
assert (Hl : length rs = length (tx :: records)).
{ apply Forall2_length in HF. by rewrite length_map in HF. }
destruct (assemble_ok _ _ _ _ _ Hl Hp) as (opss & -> & _ & Hi & Hn). exists opss.
split; [done|]. split; [|done]. apply Forall2_fmap in HF. exact HF.
Qed.
End FetchFacts.

(** ** Paging *)
Section PagingFacts.
Import Paging.
Context (next : option string -> option string).

Fixpoint nth_cursor (n : nat) : option string :=
match n with O => None | S n => next (nth_cursor n) end.

(** Going forward from the first page and then back shows the right pages. *)
Lemma forward n : (forall i, (i < n)%nat -> opt_str_truthy (nth_cursor (S i)) = true) ->
foldl (step next) initial (replicate n Next) =
  {| cursorStack := map nth_cursor (seq 0 (S n)); pageIndex := n |}.
Proof.
induction n as [|n IH]; intros Hn; [done|].
rewrite replicate_S_end, foldl_app, IH by (intros; apply Hn; lia). cbn [foldl step].
unfold cursor. cbn [cursorStack pageIndex].
rewrite list_lookup_fmap, lookup_seq_lt by lia. cbn [fmap option_fmap option_map default].
unfold goNext, id. assert (E : opt_str_truthy (next (nth_cursor n)) = true) by (apply (Hn n); lia).
change (0 + n)%nat with n. rewrite E. cbn [cursorStack pageIndex].
f_equal. rewrite (seq_S (S n)), map_app. done.
Qed.

(** [n] pages forward and then [m] back shows page [n - m]: its cursor is the one
    Horizon gave after the page before it. *)
Theorem paging_forward_back n m (Hm : (m <= n)%nat)
  (Hn : forall i, (i < n)%nat -> opt_str_truthy (nth_cursor (S i)) = true) :
let s := foldl (step next) initial (replicate n Next ++ replicate m Prev) in
pageIndex s = (n - m)%nat /\ cursor s = nth_cursor (n - m).
Proof.
rewrite foldl_app, (forward n Hn).
assert (H : foldl (step next) {| cursorStack := map nth_cursor (seq 0 (S n)); pageIndex := n |}
   (replicate m Prev) = {| cursorStack := map nth_cursor (seq 0 (S n)); pageIndex := n - m |}).
{ clear Hn. revert Hm. induction m as [|m IH]; intros Hm; [by rewrite Nat.sub_0_r|].
  rewrite replicate_S_end, foldl_app, IH by lia. cbn [foldl step]. unfold goPrev. cbn [cursorStack pageIndex].
  destruct (Nat.ltb_spec 0 (n - m)); [|lia]. f_equal. lia. }
rewrite H. split; [done|]. unfold cursor. cbn [cursorStack pageIndex].
rewrite list_lookup_fmap, lookup_seq_lt by lia. done.
Qed.
End PagingFacts.

(** An operation matches when it invokes one of the configured contracts. *)
Lemma matches_configured variables op :
matches (configured_ids variables) op = true <->
exists c, op_contract_id op = Some c /\ c <> "" /\ Some c ∈ variables.
Proof.
unfold matches. destruct (op_contract_id op) as [c|]; [|by split; [done|intros (? & ? & _)]].
rewrite andb_true_iff, negb_true_iff, String.eqb_neq, existsb_exists. split.
- intros (Hc & x & Hx & Heq). apply String.eqb_eq in Heq as <-. exists c. split_and!; [done..|].
  apply list_elem_of_In, list_elem_of_omap in Hx as (v & Hv & E). destruct (opt_str_truthy v); [by subst v|done].
- intros (c' & [= <-] & Hc & Hin). split; [done|]. exists c. rewrite String.eqb_refl. split; [|done].
  apply list_elem_of_In, list_elem_of_omap. exists (Some c). split; [done|].
  cbn. by rewrite (proj2 (String.eqb_neq c "") Hc).
Qed.

(** A button of the pager is enabled exactly when it moves, by one page. *)
Lemma pager_buttons s data :
let v := Hook.shown s data in
Hook.v_page (Hook.shown (Hook.step s (Hook.GoNext data)).1 data) =
  (Hook.v_page v + if Hook.v_hasNext v then 1 else 0)%nat /\
Hook.v_page (Hook.shown (Hook.step s Hook.GoPrev).1 data) = (Hook.v_page v - if Hook.v_hasPrev v then 1 else 0)%nat.
Proof.
destruct s as [a [stack n]]. cbn. unfold Paging.goNext. split; [by destruct (opt_str_truthy _); cbn; lia|].
destruct n; cbn; lia.
Qed.

(** Whatever is asked for is asked for the account shown, and another account starts on
    its first page; on the way there, the cursor of the old account is asked for once. *)
Theorem accounts_start_over s e :
let '(s', l) := Hook.step s e in
Forall (fun q => q.1 = Hook.account s') l /\
(Hook.account s' <> Hook.account s ->
 l = [(Hook.account s', Paging.cursor (Hook.paging s)); (Hook.account s', None)] /\
 forall data, Hook.v_page (Hook.shown s' data) = 1%nat).
Proof.
destruct e as [a|data|]; cbn; [|by split; [repeat constructor|done]..].
destruct (String.eqb_spec a (Hook.account s)); cbn; by split; [repeat constructor|].
Qed.

(** Going forward again after going back pushes the cursor a second time, so the
    page after that one repeats: with three pages, next, previous, next, next ends on the
    page numbered 3 showing the transactions of page 2. *)
Theorem paging_repeats_a_page :
  let next c := match c with None => Some "c2" | Some "c2" => Some "c3" | Some _ => None end in
  let s := foldl (Paging.step next) Paging.initial [Paging.Next; Paging.Prev; Paging.Next; Paging.Next] in
  Paging.pageIndex s = 2%nat /\ Paging.cursor s = Some "c2" /\ nth_cursor next 2 = Some "c3".
Proof. vm_compute. repeat split. Qed.

(** ** Witnesses *)
Definition sample_tx (h : string) : TransactionRecord :=
  {| tx_hash := h; tx_created_at := "2024-01-01T00:00:00Z"; tx_successful := true; tx_paging_token := h |}.
Definition sample_op (c : string) : HorizonOperationRecord :=
  {| op_type := Some "invoke_host_function"; op_type_i := None; op_amount := None; op_asset_type := None;
     op_asset_code := None; op_contract_id := Some c; op_function := Some "repay"; op_balance_changes := None |}.

Module MockHorizon.
Definition horizon : Horizon () := {|
  transactions := fun _ _ e => (Ok [sample_tx "a"; sample_tx "b"], e);
  operations := fun h e => (Ok [sample_op (if String.eqb h "a" then "pool" else "other")], e) |}.
End MockHorizon.

Lemma assemble_failures_witness :
  exists e, assemble ["pool"] "G" [sample_tx "a"; sample_tx "b"] [Ok []; Throw JNull] = Throw e /\
    e = new_HorizonOperationsError ["b"] JNull.
Proof.
  pose proof (assemble_failures ["pool"] "G" [sample_tx "a"; sample_tx "b"] [Ok []; Throw JNull] eq_refl) as H.
  destruct (assemble ["pool"] "G" [sample_tx "a"; sample_tx "b"] [Ok []; Throw JNull]) as [p|e] eqn:E;
    [discriminate E|].
  exists e. split; [reflexivity|]. injection E as <-. reflexivity.
Defined.

Lemma fetchPage_complete_witness :
  exists p w', fetchPage (H := MockHorizon.horizon) ["pool"] "G" None
      (fetchOperationsForTx (H := MockHorizon.horizon)) (World () []) = (Ok p, w') /\
    map it_hash (pg_items p) = ["a"].
Proof.
  destruct (fetchPage (H := MockHorizon.horizon) ["pool"] "G" None
      (fetchOperationsForTx (H := MockHorizon.horizon)) (World () [])) as [[p|e] w'] eqn:E;
    [|vm_compute in E; discriminate E].
  exists p, w'. split; [reflexivity|].
  destruct (fetchPage_complete (H := MockHorizon.horizon) ["pool"] "G" None _ _ _ _ E)
    as (records & opss & Hr & HF & Hi & _).
  vm_compute in Hr. injection Hr as <-.
  apply Forall2_cons_inv_l in HF as (o1 & ? & (w1 & H1) & HF & ->).
  apply Forall2_cons_inv_l in HF as (o2 & ? & (w2 & H2) & HF & ->).
  apply Forall2_nil_inv_l in HF as ->. vm_compute in H1, H2. injection H1 as <-. injection H2 as <-.
  rewrite Hi. reflexivity.
Defined.

Lemma paging_forward_back_witness :
  Paging.cursor (foldl (Paging.step (fun c => match c with None => Some "c2" | _ => Some "c3" end))
    Paging.initial (replicate 2 Paging.Next ++ replicate 1 Paging.Prev)) = Some "c2".
Proof.
  refine (proj2 (paging_forward_back _ 2 1 _ _)); [lia|].
  intros [|[|i]] Hi; [reflexivity | reflexivity | lia].
Defined.
