(* ===== verification/Contracts.v ===== *)
(** * The contracts as the web hooks see them

    The hooks of [apps/web/hooks] build a client for a configured contract and call one of
    its methods.  [ContractCall] names those calls and [Contracts] is the interface the
    hooks are verified against; [sdk_contracts] implements it with the SDK's clients, and
    the last theorem says what the implementation guarantees for every call. *)

From S2P Require Import Prelude JsNumber JsString JsValue Effects SdkConfig SdkTypes Schemas Base Clients.
Local Open Scope Z_scope.

Inductive ContractCall : Type -> Type :=
  | Allowance (from spender signer : string) : ContractCall Z
  | LatestLedger : ContractCall num
  | Approve (from spender : string) (amount : Z) (expirationLedger : num) (signer : string) : ContractCall string
  | Deposit (lp : string) (amount : Z) (signer : string) : ContractCall string
  | Withdraw (lp : string) (shares : Z) (signer : string) : ContractCall string
  | FundInvoice (id signer : string) : ContractCall bool
  | ListForFinancing (id : string) (discountBps : num) (signer : string) : ContractCall bool
  | MarkShipped (id signer : string) : ContractCall bool
  | ConfirmDelivery (id confirmer signer : string) : ContractCall bool
  | Repay (id signer : string) : ContractCall bool
  | TriggerDefault (id signer : string) : ContractCall bool
  | GetInvoice (id signer : string) : ContractCall jsval
  | GetProfile (address signer : string) : ContractCall jsval
  | IsVerified (address signer : string) : ContractCall bool
  | RegisterIssuer (address : string) (metadata : fields) (signer : string) : ContractCall string
  | RegisterBuyer (address : string) (metadata : fields) (signer : string) : ContractCall string.

(** Calls that only read. *)
Definition is_query {A} (c : ContractCall A) : bool :=
  match c with
  | Allowance _ _ _ | LatestLedger | GetInvoice _ _ | GetProfile _ _ | IsVerified _ _ => true
  | _ => false
  end.

Class Contracts (Env : Type) := { perform : forall A, ContractCall A -> Env -> res A * Env }.
Arguments perform {Env _ A}.

(** ** The implementation *)
Record ContractIds := { id_registry : string; id_invoice : string; id_pool : string }.

(** [getSorobanServer().getLatestLedger()]: the [sequence] of the answer. *)
Class LedgerService (Env : Type) := { rpc_getLatestLedger : string -> Env -> res num * Env }.

Section Implementation.
Context `{Sdk : StellarSdk} {Enc : Encoders} {Env : Type} {Srv : Services Env} {Led : LedgerService Env}
  {zod : Zod}.
Context (config : SDKConfig) (ids : ContractIds).
Abbreviation IO := (M Env Event).

(** [new XClient(id)], then the method. *)
Definition with_client {A} (client : res BaseContractClient) (m : BaseContractClient -> IO A) : IO A :=
c ← lift client; m c.
Definition at_id {A} (id : string) (m : BaseContractClient -> IO A) : IO A :=
with_client (new_BaseContractClient id None None) m.

(** Reading the latest ledger is no event of the SDK's log. *)
Definition latest_ledger : IO num := fun w =>
let '(r, e) := rpc_getLatestLedger (cfg_sorobanRpcUrl config) (w_env w) in (r, World e (w_log w)).

Definition sdk_call {A} (c : ContractCall A) : IO A :=
match c in ContractCall A return IO A with
| Allowance f sp s => with_client (TokenClient.forUSDC config) (fun c => TokenClient.allowance c config f sp s)
| LatestLedger => latest_ledger
| Approve f sp z n s => with_client (TokenClient.forUSDC config) (fun c => TokenClient.approve c config f sp z n s)
| Deposit lp z s => at_id (id_pool ids) (fun c => PoolClient.deposit c config lp z s)
| Withdraw lp z s => at_id (id_pool ids) (fun c => PoolClient.withdraw c config lp z s)
| FundInvoice i s => at_id (id_pool ids) (fun c => PoolClient.fundInvoice c config i s)
| ListForFinancing i n s => at_id (id_invoice ids) (fun c => InvoiceClient.listForFinancing c config i n s)
| MarkShipped i s => at_id (id_invoice ids) (fun c => InvoiceClient.markShipped c config i s)
| ConfirmDelivery i a s => at_id (id_invoice ids) (fun c => InvoiceClient.confirmDelivery c config i a s)
| Repay i s => at_id (id_invoice ids) (fun c => InvoiceClient.repay c config i s)
| TriggerDefault i s => at_id (id_invoice ids) (fun c => InvoiceClient.triggerDefault c config i s)
| GetInvoice i s => at_id (id_invoice ids) (fun c => InvoiceClient.get c config i s)
| GetProfile a s => at_id (id_registry ids) (fun c => RegistryClient.getProfile c config a s)
| IsVerified a s => at_id (id_registry ids) (fun c => RegistryClient.isVerified c config a s)
| RegisterIssuer a md s => at_id (id_registry ids) (fun c => RegistryClient.registerIssuer c config a md s)
| RegisterBuyer a md s => at_id (id_registry ids) (fun c => RegistryClient.registerBuyer c config a md s)
end.

#[export] Instance sdk_contracts : Contracts Env := {|
perform := fun A c env => let '(r, w) := sdk_call c (World env []) in (r, w_env w) |}.

(** ** What every call guarantees *)
Lemma with_client_run {A} client (m : BaseContractClient -> IO A) env (P : list Event -> Prop) :
P [] -> (forall c, client = Ok c -> P (run (m c) env).2) -> P (run (with_client client m) env).2.
Proof.
intros H0 Hm. unfold with_client. rewrite run_seq. unfold lift. destruct client as [c|e]; [|done].
cbn. specialize (Hm c eq_refl). unfold run in Hm. by destruct (m c (World env [])).
Qed.

Lemma default_attempts id c : new_BaseContractClient id None None = Ok c -> attempts_allowed c = 3.
Proof.
unfold new_BaseContractClient. destruct (String.eqb id ""); [done|]. intros H.
by apply bind_ok in H as (k & _ & [= <-]).
Qed.

Definition at_most_three (l : list Event) : Prop := safe_sends 3 (sends l) /\ signs_at_most_once l.

Lemma at_most_three_nil : at_most_three [].
Proof. split; [apply safe_sends_nil; lia | by cbv; lia]. Qed.

Lemma forUSDC_attempts c : TokenClient.forUSDC config = Ok c -> attempts_allowed c = 3.
Proof. intros H. apply bind_ok in H as (i & _ & H). by eapply default_attempts. Qed.

Lemma read_client {A} client (m : BaseContractClient -> IO A) env :
(forall c, emits (fun e => read_only e = true) (m c)) ->
Forall (fun e => read_only e = true) (run (with_client client m) env).2.
Proof.
intros Hm. apply with_client_run; [constructor|]. intros c _. apply (trace_run _ (fun l _ => Forall _ l)), Hm.
Qed.

Lemma read_only_quiet l : Forall (fun e => read_only e = true) l -> at_most_three l.
Proof.
intros H. assert (E : sends l = [] /\ signatures l = []).
{ split; [apply sends_none | apply signatures_none];
    (eapply List.Forall_impl; [|exact H]); by intros []. }
destruct E as [E1 E2]. unfold at_most_three, signs_at_most_once. rewrite E1, E2.
split; [apply safe_sends_nil; lia | cbn; lia].
Qed.

Lemma write_client {A} client (m : BaseContractClient -> IO A) env :
(forall c, client = Ok c -> attempts_allowed c = 3) -> (forall c, mutating c (discard (m c))) ->
at_most_three (run (with_client client m) env).2.
Proof.
intros Hc Hm. apply with_client_run; [apply at_most_three_nil|]. intros c E.
specialize (Hm c env). rewrite !run_discard, (Hc c E) in Hm. exact Hm.
Qed.

(** C2: whatever the web app asks of a contract, the SDK signs at most once and
    submits the signed transaction at most three times, again only after a refusal; and
    a query neither signs nor submits. *)
Theorem sdk_contracts_safe {A} (c : ContractCall A) env :
let l := (run (sdk_call c) env).2 in
at_most_three l /\ (is_query c = true -> Forall (fun e => read_only e = true) l).
Proof.
assert (Hread : forall B client (m : BaseContractClient -> IO B),
  (forall c, emits (fun e => read_only e = true) (m c)) ->
  let l := (run (with_client client m) env).2 in
  at_most_three l /\ Forall (fun e => read_only e = true) l).
{ intros B client m Hm. pose proof (read_client client m env Hm). by split; [apply read_only_quiet|]. }
assert (Hwrite : forall id B (m : BaseContractClient -> IO B),
  (forall c, mutating c (discard (m c))) -> at_most_three (run (at_id id m) env).2).
{ intros id B m Hm. apply write_client; [apply default_attempts | exact Hm]. }
destruct c; cbn [sdk_call is_query]; cbn zeta.
all: try (split; [|done]; apply Hwrite; intros; first [apply write_mutating | apply write_true_mutating]).
all: try (refine ((fun H => conj (proj1 H) (fun _ => proj2 H)) (Hread _ _ _ _)); intros; apply read_emits).
- unfold run, latest_ledger. cbn. destruct (rpc_getLatestLedger _ env) as [r e]. cbn.
  split; [apply at_most_three_nil | constructor].
- split; [|done]. apply write_client; [apply forUSDC_attempts | intros; apply write_mutating].
Qed.
End Implementation.
