(* ===== verification/Actions.v ===== *)
(** * Actions on invoices, the pool and the registry ([apps/web/hooks/useInvoices.ts],
    [useTokenAllowance.ts], [usePool.ts], [useProfile.ts], [useInvoiceDetailActions.ts],
    [useBalances.ts])

    The mutation functions of the hooks, against the interface [Contracts], with the
    success and error callbacks they are registered with.  [address] is the account of
    the render that created the callback, and calls to contracts are events of the log
    together with their outcome. *)

From S2P Require Import Prelude JsNumber JsString JsValue Effects SdkTypes Schemas WebParsers WebApi WebErrors.
From S2P Require Import Storage Wallet Contracts.
Local Open Scope Z_scope.

Inductive ActionEv :=
  | Called {A} (c : ContractCall A) (r : res A)
  | ApiEv (e : Http)
  | Shown (u : Ui)
  | Invalidate (queryKey : list string)
  | Inline (e : option string).

(** ** Statistics *)
Record InvoiceStats := {
  totalInvoicesCreated : nat; totalListed : nat; totalFundedActive : nat; totalRepaid : nat;
  totalFunded : Z }.
Definition EMPTY_INVOICE_STATS : InvoiceStats :=
  {| totalInvoicesCreated := 0; totalListed := 0; totalFundedActive := 0; totalRepaid := 0; totalFunded := 0 |}.

Definition status_in (invoice : jsval) (l : list InvoiceStatus) : bool :=
  match field invoice "status" with
  | JStr s => existsb (fun x => String.eqb s (status_name x)) l
  | _ => false
  end.

(** [invoice.fundedAmount ?? 0n], which the loop adds to a bigint. *)
Definition funded_of (invoice : jsval) : res Z :=
  match js_nullish (field invoice "fundedAmount") (JBig 0) with
  | JBig z => Ok z
  | _ => Throw (JErr CTypeError "Cannot mix BigInt and other types, use explicit conversions" [])
  end.

(** One iteration of the loop; the count of invoices is their number. *)
Definition add_invoice (acc : InvoiceStats) (invoice : jsval) : res InvoiceStats :=
  f ← funded_of invoice;
  let incr (b : bool) (n : nat) := if b then S n else n in
  Ok {| totalInvoicesCreated := totalInvoicesCreated acc;
        totalListed := incr (status_in invoice [Listed]) (totalListed acc);
        totalFundedActive := incr (status_in invoice [Funded; Active; Confirmed]) (totalFundedActive acc);
        totalRepaid := incr (status_in invoice [Repaid]) (totalRepaid acc);
        totalFunded := totalFunded acc + f |}.
Fixpoint stats_loop (acc : InvoiceStats) (invoices : list jsval) : res InvoiceStats :=
  match invoices with
  | [] => Ok acc
  | i :: rest => acc ← add_invoice acc i; stats_loop acc rest
  end.
Definition computeInvoiceStats (invoices : list jsval) : res InvoiceStats :=
  acc ← stats_loop EMPTY_INVOICE_STATS invoices;
  Ok {| totalInvoicesCreated := length invoices; totalListed := totalListed acc;
        totalFundedActive := totalFundedActive acc; totalRepaid := totalRepaid acc;
        totalFunded := totalFunded acc |}.

Section Actions.
Context {Env : Type} {Ct : Contracts Env} {B : Backend Env} {C : Clock Env} {zod : Zod}.
(** [NEXT_PUBLIC_INVOICE_CONTRACT_ID], [NEXT_PUBLIC_POOL_CONTRACT_ID], or the empty string. *)
Context (invoiceContractID poolContractID : string).
Abbreviation IO := (M Env ActionEv).

Definition call {A} (c : ContractCall A) : IO A := io (Called c) (perform c).

(** The query function of [useInvoiceStats]. *)
Definition fetchInvoiceStats (issuer : option string) : IO InvoiceStats :=
invoices ← relabel ApiEv (getAllInvoices None issuer); lift (computeInvoiceStats invoices).

(** [if (!address) throw new Error("Wallet not connected")]. *)
Definition connected_as {A} (address : option string) (m : string -> IO A) : IO A :=
if opt_str_truthy address then m (default "" address) else raise (mk_error "Wallet not connected").

(** ** [useTokenAllowance] *)
Definition APPROVAL_LEDGER_OFFSET : Z := 535680.

Definition ensureAllowance (address : option string) (spenderContractId : string) (amount : Z) : IO () :=
connected_as address (fun address =>
  currentAllowance ← call (Allowance address spenderContractId address);
  if amount <=? currentAllowance then mret tt
  else
    sequence ← call LatestLedger;
    call (Approve address spenderContractId amount (Num.add sequence (Num.of_Z APPROVAL_LEDGER_OFFSET)) address);;
    mret tt).

(** ** [useInvoiceActions] *)
Definition invalidateInvoiceQueries (address : option string) : IO () :=
emit (Invalidate ["invoices"]);;
emit (Invalidate ["invoiceStats"]);;
emit (Invalidate ["poolStats"]);;
if opt_str_truthy address then emit (Invalidate ["lpPosition"; default "" address]) else mret tt.

Definition onInvoiceSuccess (address : option string) (message : string) : IO () :=
invalidateInvoiceQueries address;; relabel Shown (showSuccessToast message None).
Definition onInvoiceError (message : string) (error : jsval) : IO () :=
relabel Shown (handleMutationError "useInvoices" error message).

Definition createInvoice (buyer faceValue : string) (dueDate : num) (asset : option AssetType) : IO jsval :=
relabel ApiEv (WebApi.createInvoice buyer faceValue dueDate asset).

Definition listInvoice (address : option string) (invoiceId : string) (discountBps : num) : IO bool :=
connected_as address (fun a => call (ListForFinancing invoiceId discountBps a)).
Definition fundInvoice (address : option string) (invoiceId : string) : IO bool :=
connected_as address (fun a => call (FundInvoice invoiceId a)).
Definition shipInvoice (address : option string) (invoiceId : string) : IO bool :=
connected_as address (fun a => call (MarkShipped invoiceId a)).
Definition confirmDelivery (address : option string) (invoiceId : string) : IO bool :=
connected_as address (fun a =>
  invoice ← relabel ApiEv (getInvoiceByID invoiceId);
  call (ConfirmDelivery invoiceId (to_str (field invoice "buyer")) a)).

(** [throw new Error("Allowance rejected")] for a refusal by the user. *)
Definition allowance_error (allowanceErr : jsval) : jsval :=
let message := match allowanceErr with JErr _ m _ => m | _ => "" end in
if Str.includes_any (Str.to_lower message) ["user rejected"; "rejected"; "user denied"; "canceled"]
then mk_error "Allowance rejected" else allowanceErr.

(** [invoice.faceValue], a bigint in an invoice the SDK parsed. *)
Definition face_value (invoice : jsval) : res Z :=
match field invoice "faceValue" with
| JBig z => Ok z
| _ => Throw (JErr CTypeError "Cannot convert a non-BigInt face value" [])
end.

Definition repayInvoice (address : option string) (invoiceId : string) : IO bool :=
connected_as address (fun a =>
  invoice ← call (GetInvoice invoiceId a);
  faceValue ← lift (face_value invoice);
  catch (ensureAllowance address invoiceContractID faceValue) (fun e => raise (allowance_error e));;
  call (Repay invoiceId a)).
Definition defaultInvoice (address : option string) (invoiceId : string) : IO bool :=
connected_as address (fun a => call (TriggerDefault invoiceId a)).

(** ** [usePool] *)
Definition deposit (address : option string) (amount : Z) (asset : AssetType) : IO string :=
connected_as address (fun a =>
  (if bool_decide (asset = USDC) then ensureAllowance address poolContractID amount else mret tt);;
  call (Deposit a amount a)).
Definition withdraw (address : option string) (shares : Z) : IO string :=
connected_as address (fun a => call (Withdraw a shares a)).

Definition onPoolSuccess (address : option string) (message txHash : string) : IO () :=
emit (Inline AppErrorState.clearError);;
emit (Invalidate ["poolStats"]);;
emit (Invalidate ["lpPosition"; default "null" address]);;
relabel Shown (showSuccessToast message (Some txHash)).
Definition onPoolError (toast fallback : string) (error : jsval) : IO () :=
relabel Shown (handleMutationError "usePool" error toast);;
emit (Inline (AppErrorState.handleError error (Some fallback))).

(** ** The options given to [useMutation]: the function and the callbacks for its outcome *)
Record Mutation (V R : Type) := {
mutationFn : V -> IO R; onSuccess : R -> IO (); onError : jsval -> IO () }.
Arguments mutationFn {V R}.
Arguments onSuccess {V R}.
Arguments onError {V R}.

Definition invoiceMutation {V R} (address : option string) (fn : V -> IO R) (success failure : string) : Mutation V R :=
{| mutationFn := fn; onSuccess := fun _ => onInvoiceSuccess address success; onError := onInvoiceError failure |}.

Definition createInvoiceMutation (address : option string) : Mutation (string * string * num * option AssetType) jsval :=
invoiceMutation address (fun '(buyer, faceValue, dueDate, asset) => createInvoice buyer faceValue dueDate asset)
  "Invoice Created" "Invoice Creation Failed".
Definition listInvoiceMutation (address : option string) : Mutation (string * num) bool :=
invoiceMutation address (fun '(invoiceId, discountBps) => listInvoice address invoiceId discountBps)
  "Invoice Listed for Financing" "Listing Failed".
Definition fundInvoiceMutation (address : option string) : Mutation string bool :=
invoiceMutation address (fundInvoice address) "Invoice Funded" "Funding Failed".
Definition shipInvoiceMutation (address : option string) : Mutation string bool :=
invoiceMutation address (shipInvoice address) "Invoice Shipped" "Shipping Failed".
Definition confirmDeliveryMutation (address : option string) : Mutation string bool :=
invoiceMutation address (confirmDelivery address) "Delivery Confirmed" "Confirmation Failed".
Definition repayInvoiceMutation (address : option string) : Mutation string bool :=
invoiceMutation address (repayInvoice address) "Invoice Repaid" "Repayment Failed".
Definition defaultInvoiceMutation (address : option string) : Mutation string bool :=
invoiceMutation address (defaultInvoice address) "Invoice Defaulted" "Default Action Failed".

Definition depositMutation (address : option string) : Mutation (Z * AssetType) string :=
{| mutationFn := fun '(amount, asset) => deposit address amount asset;
   onSuccess := onPoolSuccess address "Deposit Complete";
   onError := onPoolError "Deposit Failed" "Deposit failed" |}.
Definition withdrawMutation (address : option string) : Mutation Z string :=
{| mutationFn := withdraw address;
   onSuccess := onPoolSuccess address "Withdrawal Complete";
   onError := onPoolError "Withdrawal Failed" "Withdrawal failed" |}.

(** ** [useProfile] *)
Definition getErrorStatus (error : jsval) : jsval :=
if negb (is_object error) then JUndef
else js_nullish (js_nullish (js_nullish (field error "status") (field error "statusCode"))
                            (opt_field (field error "response") "status"))
                (opt_field (field error "response") "statusCode").

Definition isProfileNotFoundError (error : jsval) : bool :=
match getErrorStatus error with JNum n => Num.eqb n (Num.of_Z 404) | _ => false end ||
(is_error error &&
 Str.includes_any (Str.to_lower (error_msg error))
   ["profile not found"; "profile does not exist"; "no profile found"; "profile is not registered";
    "profile not registered"]).

Definition fetchProfile (address : option string) : IO jsval :=
if negb (opt_str_truthy address) then mret JNull
else
  let a := default "" address in
  catch (call (GetProfile a a))
        (fun err => if isProfileNotFoundError err then mret JNull
                    else relabel Shown (captureError "useProfile" err);; raise err).

Definition fetchIsVerified (address : option string) : IO bool :=
if negb (opt_str_truthy address) then mret false
else
  let a := default "" address in
  catch (call (IsVerified a a)) (fun err => relabel Shown (captureError "useProfile" err);; mret false).

(** [profile] is the data of the profile query at the time of the call. *)
Definition register (address : option string) (profile : jsval) (role : Role) (metadata : fields) : IO string :=
connected_as address (fun a =>
  if truthy profile then
    raise (mk_error ("This wallet is already registered as " +:+ to_str (field profile "role") +:+
      ". Registration is one-time, so profile metadata cannot be updated."))
  else match role with
       | Issuer => call (RegisterIssuer a metadata a)
       | Buyer => call (RegisterBuyer a metadata a)
       end).

Definition onRegisterSuccess (address : option string) : IO () :=
emit (Inline AppErrorState.clearError);;
emit (Invalidate ["profile"; default "null" address]);;
emit (Invalidate ["isVerified"; default "null" address]).
Definition onRegisterError (error : jsval) : IO () :=
relabel Shown (captureError "useProfile" error);;
emit (Inline (AppErrorState.handleError error (Some "Profile registration failed"))).
Definition registerMutation (address : option string) (profile : jsval) : Mutation (Role * fields) string :=
{| mutationFn := fun '(role, metadata) => register address profile role metadata;
   onSuccess := fun _ => onRegisterSuccess address; onError := onRegisterError |}.
End Actions.
Arguments mutationFn {Env V R}.
Arguments onSuccess {Env V R}.
Arguments onError {Env V R}.

(** ** [useInvoiceDetailActions] *)
Module DetailActions.
Record state := {
  submitting : bool; error : option string; showPending : bool; pendingHash : option string;
  pendingText : string }.
Definition initial : state :=
{| submitting := false; error := None; showPending := false; pendingHash := None;
   pendingText := "Waiting for confirmation..." |}.

(** [handleAction] up to its first suspension. *)
Definition begin (s : state) (text : string) : state :=
{| submitting := true; error := None; showPending := true; pendingHash := None; pendingText := text |}.
(** [setPendingHash(res)] for a string result. *)
Definition acted (s : state) (result : jsval) : state :=
{| submitting := submitting s; error := error s; showPending := showPending s;
   pendingHash := match result with JStr h => Some h | _ => pendingHash s end; pendingText := pendingText s |}.
Definition failed (s : state) (err : jsval) (errorMsg : string) : state :=
{| submitting := submitting s; error := Some (getErrorMessage err errorMsg); showPending := false;
   pendingHash := pendingHash s; pendingText := pendingText s |}.
Definition finish (s : state) : state :=
{| submitting := false; error := error s; showPending := showPending s; pendingHash := pendingHash s;
   pendingText := pendingText s |}.

(** [handleAction] with the outcomes of the action and of the refetch. *)
Definition handleAction (s : state) (text errorMsg : string) (action : res jsval) (refetch : res ()) : state :=
let s := begin s text in
finish (match action with
        | Throw e => failed s e errorMsg
        | Ok r => match refetch with Ok _ => acted s r | Throw e => failed (acted s r) e errorMsg end
        end).

(** The action a confirmation runs: its label, progress text and failure message. *)
Definition ship := ("Mark Goods Shipped", "Marking goods as shipped...", "Unable to mark goods as shipped.").
Definition confirm := ("Confirm Delivery", "Confirming delivery...", "Unable to confirm delivery.").
Definition repay := ("Repay Invoice", "Repaying invoice...", "Unable to repay invoice.").
Definition markDefault := ("Default Invoice", "Defaulting invoice...", "Unable to default invoice.").
Definition request_action {A} (dialog : ConfirmDialog.state A) (what : string * string * string)
  (invoiceId : string) (fn : A) : ConfirmDialog.state A :=
ConfirmDialog.request dialog
  {| ConfirmDialog.label := what.1.1; ConfirmDialog.invoiceId := invoiceId; ConfirmDialog.fn := fn |}.
End DetailActions.

(** ** [useBalances] *)
Record Balances := { usdc : option string; xlm : option string }.
Definition no_balances : Balances := {| usdc := None; xlm := None |}.

(** A balance line of a Horizon account. *)
Record BalanceLine := {
  bl_asset_type : option string; bl_asset_code : option string; bl_asset_issuer : option string;
  bl_balance : string }.

Definition add_balance (usdcIssuer : string) (b : Balances) (line : BalanceLine) : Balances :=
  match bl_asset_type line with
  | Some t =>
      if String.eqb t "native" then {| usdc := usdc b; xlm := Some (bl_balance line) |}
      else if String.eqb t "credit_alphanum4" && bool_decide (bl_asset_code line = Some "USDC") &&
              bool_decide (bl_asset_issuer line = Some usdcIssuer)
      then {| usdc := Some (bl_balance line); xlm := xlm b |} else b
  | None => b
  end.

(** [fetchBalancesFromHorizon] with the answer of [loadAccount]; the second component is
    the error that is captured before it is thrown again. *)
Definition fetchBalances (usdcIssuer address : string) (connected : bool) (account : res (list BalanceLine)) :
  res Balances * option jsval :=
  if String.eqb address "" || negb connected then (Ok no_balances, None)
  else match account with
       | Ok lines => (Ok (foldl (add_balance usdcIssuer) no_balances lines), None)
       | Throw err =>
           if is_error err && has_field err "response" &&
              match opt_field (field err "response") "status" with
              | JNum n => Num.eqb n (Num.of_Z 404) | _ => false end
           then (Ok {| usdc := None; xlm := Some "0" |}, None)
           else (Throw err, Some err)
       end.

(** ** Properties of the statistics *)
Definition count (l : list InvoiceStatus) (invoices : list jsval) : nat :=
  length (List.filter (fun i => status_in i l) invoices).
Definition sum_Z (l : list Z) : Z := foldr Z.add 0 l.

Lemma stats_loop_ok acc invoices s :
  stats_loop acc invoices = Ok s <-> exists fs, map_result funded_of invoices = Ok fs /\
    s = {| totalInvoicesCreated := totalInvoicesCreated acc;
           totalListed := totalListed acc + count [Listed] invoices;
           totalFundedActive := totalFundedActive acc + count [Funded; Active; Confirmed] invoices;
           totalRepaid := totalRepaid acc + count [Repaid] invoices;
           totalFunded := totalFunded acc + sum_Z fs |}.
Proof.
  revert acc. induction invoices as [|i invoices IH]; intros acc; cbn [stats_loop map_result].
  - split.
    + intros [= <-]. exists []. split; [done|]. destruct acc. cbn. f_equal; lia.
    + intros (fs & [= <-] & ->). destruct acc. cbn. do 2 f_equal; lia.
  - unfold add_invoice. destruct (funded_of i) as [f|e]; cbn [mbind result_bind];
      [|split; [done | by intros (fs & ? & _)]].
    rewrite IH. destruct (map_result funded_of invoices) as [fs|e];
      [|split; intros (fs & ? & _); done].
    assert (Hc : forall l (n : nat), ((if status_in i l then S n else n) + count l invoices =
                            n + count l (i :: invoices))%nat).
    { intros l n. unfold count. cbn. destruct (status_in i l); cbn; lia. }
    split; intros (fs' & [= <-] & ->); eexists; (split; [done|]);
      cbn -[count Nat.add Z.add status_in]; rewrite !Hc; f_equal; unfold sum_Z; lia.
Qed.

(** The headline figures are the counts of the statuses they name and the sum of
    the funded amounts, so they depend on the set of invoices only: splitting it into
    pages or reordering it changes nothing. *)
Theorem computeInvoiceStats_counts invoices s (H : computeInvoiceStats invoices = Ok s) :
  totalInvoicesCreated s = length invoices /\
  totalListed s = count [Listed] invoices /\
  totalFundedActive s = count [Funded; Active; Confirmed] invoices /\
  totalRepaid s = count [Repaid] invoices /\
  (exists fs, map_result funded_of invoices = Ok fs /\ totalFunded s = sum_Z fs) /\
  (forall invoices', invoices' ≡ₚ invoices -> computeInvoiceStats invoices' = Ok s).
Proof.
  unfold computeInvoiceStats in *. apply bind_ok in H as (acc & Ha & [= <-]).
  apply stats_loop_ok in Ha as (fs & Hfs & ->). cbn. split_and!; try done; [by exists fs|].
  intros invoices' Hp.
  assert (Hperm : forall l, count l invoices' = count l invoices).
  { intros l. unfold count. clear -Hp. induction Hp; cbn; repeat case_match; cbn; congruence. }
  assert (Hsum : exists fs', map_result funded_of invoices' = Ok fs' /\ sum_Z fs' = sum_Z fs).
  { clear -Hp Hfs. symmetry in Hp. revert fs Hfs. induction Hp as [|x l l' _ IH|x y l|l l' l'' _ IH1 _ IH2]; intros fs Hfs.
    - by exists fs.
    - cbn in *. destruct (funded_of x) as [f|]; [|done].
      destruct (map_result funded_of l) as [gs|]; [|done]. injection Hfs as <-.
      destruct (IH gs eq_refl) as (gs' & -> & Hs). eexists. split; [done|]. unfold sum_Z in *. cbn [foldr]. lia.
    - cbn in *. destruct (funded_of x), (funded_of y), (map_result funded_of l); try done.
      injection Hfs as <-. eexists. split; [done|]. unfold sum_Z. cbn [foldr]. lia.
    - destruct (IH1 fs Hfs) as (gs & Hg & Hs). destruct (IH2 gs Hg) as (hs & Hh & Hs').
      exists hs. split; [done | lia]. }
  destruct Hsum as (fs' & Hfs' & Hs).
  assert (E : stats_loop EMPTY_INVOICE_STATS invoices' = Ok {| totalInvoicesCreated := 0;
     totalListed := count [Listed] invoices'; totalFundedActive := count [Funded; Active; Confirmed] invoices';
     totalRepaid := count [Repaid] invoices'; totalFunded := sum_Z fs' |}) by (apply stats_loop_ok; by exists fs').
  rewrite E. cbn. rewrite !Hperm, Hs. by rewrite Hp.
Qed.

(** ** Properties of the actions *)
Section ActionFacts.
Context {Env : Type} {Ct : Contracts Env} {B : Backend Env} {C : Clock Env} {zod : Zod}.
Context (invoiceContractID poolContractID : string).

(** The contract calls of a log that are not queries. *)
Definition mutations (l : list ActionEv) : nat :=
length (List.filter (fun e => match e with Called c _ => negb (is_query c) | _ => false end) l).

Lemma trace_call {A} (c : ContractCall A) (P : list ActionEv -> res A -> Prop) :
(forall r, P [Called c r] r) -> trace_spec (call c) P.
Proof. apply trace_io. Qed.

(** The spender may move the amount: the allowance was seen to suffice, or its approval
    for exactly this amount was confirmed. *)
Definition covered (a spender : string) (amount : Z) (l : list ActionEv) : Prop :=
(exists cur, Called (Allowance a spender a) (Ok cur) ∈ l /\ amount <= cur /\ mutations l = 0%nat) \/
(exists cur seq h, Called (Allowance a spender a) (Ok cur) ∈ l /\ cur < amount /\
   Called LatestLedger (Ok seq) ∈ l /\
   Called (Approve a spender amount (Num.add seq (Num.of_Z APPROVAL_LEDGER_OFFSET)) a) (Ok h) ∈ l /\
   mutations l = 1%nat).

Lemma ensureAllowance_spec a spender amount : a <> "" ->
trace_spec (ensureAllowance (Some a) spender amount) (fun l r => match r with
  | Ok _ => covered a spender amount l
  | Throw _ => (mutations l <= 1)%nat
  end).
Proof.
intros Ha. unfold ensureAllowance, connected_as. cbn [opt_str_truthy].
destruct (String.eqb_spec a ""); [done|]. cbn [negb].
change (default "" (Some a)) with a.
apply trace_seq, trace_call. intros [cur|e]; [|cbn; lia].
destruct (Z.leb_spec amount cur).
- apply trace_ret. left. exists cur. split; [by left | done].
- apply trace_seq, trace_call. intros [seq|e]; [|cbn; lia].
  apply trace_seq, trace_call. intros [h|e]; [|cbn; lia]. apply trace_ret. right.
  exists cur, seq, h. cbn [app]. split_and!; [by left | done | right; by left | do 2 right; by left | done].
Qed.

(** An allowance is only ever raised when it is too small, once, and to
    exactly the amount needed, for the account's own tokens; when the call returns, the
    spender may move the amount. *)
Theorem ensureAllowance_covers address spender amount :
trace_spec (ensureAllowance address spender amount) (fun l r => match address with
  | Some a => if String.eqb a "" then l = [] /\ r = Throw (mk_error "Wallet not connected")
              else match r with
                   | Ok _ => covered a spender amount l
                   | Throw _ => (mutations l <= 1)%nat
                   end
  | None => l = [] /\ r = Throw (mk_error "Wallet not connected")
  end).
Proof.
destruct address as [a|]; [|by apply trace_raise].
destruct (String.eqb_spec a "") as [->|Ha]; [by apply trace_raise|]. by apply ensureAllowance_spec.
Qed.

Lemma mutations_app l1 l2 : mutations (l1 ++ l2) = (mutations l1 + mutations l2)%nat.
Proof. unfold mutations. by rewrite List.filter_app, length_app. Qed.

(** A deposit calls the pool once, for the connected account and the amount
    asked for, and for USDC only after the pool was allowed to take that amount; on the
    other asset it makes the same call with no allowance at all. *)
Theorem deposit_covered a amount asset (Ha : a <> "") :
trace_spec (deposit poolContractID (Some a) amount asset) (fun l r =>
  (exists pre, l = pre ++ [Called (Deposit a amount a) r] /\
     match asset with USDC => covered a poolContractID amount pre | XLM => pre = [] end) \/
  ((exists e, r = Throw e) /\ (mutations l <= 1)%nat /\ asset = USDC)).
Proof.
unfold deposit, connected_as. cbn [opt_str_truthy]. destruct (String.eqb_spec a ""); [done|].
cbn [negb]. change (default "" (Some a)) with a. destruct asset; cbn [bool_decide].
- apply trace_seq. eapply trace_weaken; [by apply ensureAllowance_spec|]. intros l [u|e] H.
  + apply trace_call. intros r. left. by exists l.
  + right. split; [by exists e|]. done.
- apply trace_seq, trace_ret, trace_call. intros r. left. by exists [].
Qed.

(** C5: repaying reads the invoice first and calls the contract once, after the
    invoice contract was allowed to take the face value just read; a refusal in the
    wallet is reported as such and nothing is repaid. *)
Theorem repay_covered a invoiceId (Ha : a <> "") :
trace_spec (repayInvoice invoiceContractID (Some a) invoiceId) (fun l r =>
  (exists invoice z pre, face_value invoice = Ok z /\
     l = Called (GetInvoice invoiceId a) (Ok invoice) :: pre ++ [Called (Repay invoiceId a) r] /\
     covered a invoiceContractID z pre) \/
  ((exists e, r = Throw e) /\ (mutations l <= 1)%nat)).
Proof.
unfold repayInvoice, connected_as. cbn [opt_str_truthy]. destruct (String.eqb_spec a ""); [done|].
cbn [negb]. change (default "" (Some a)) with a.
apply trace_seq, trace_call. intros [invoice|e]; [|right; split; [by exists e | cbn; lia]].
apply trace_seq, trace_lift. destruct (face_value invoice) as [z|e] eqn:Hz;
  [|right; split; [by exists e | cbn; lia]].
apply trace_seq, trace_try. eapply trace_weaken; [by apply ensureAllowance_spec|]. intros l [u|e] H.
- apply trace_call. intros r. left. exists invoice, z, l. done.
- apply trace_raise. right. split; [by eexists|]. rewrite app_nil_r. cbn. exact H.
Qed.

(** Without a connected account no action does anything but fail. *)
Theorem actions_need_a_wallet address id z n asset role profile md
  (Ha : opt_str_truthy address = false) env :
Forall (fun o => o = (false, []))
  [let o := run (listInvoice address id n) env in (is_ok o.1, o.2);
   let o := run (fundInvoice address id) env in (is_ok o.1, o.2);
   let o := run (shipInvoice address id) env in (is_ok o.1, o.2);
   let o := run (confirmDelivery address id) env in (is_ok o.1, o.2);
   let o := run (repayInvoice invoiceContractID address id) env in (is_ok o.1, o.2);
   let o := run (defaultInvoice address id) env in (is_ok o.1, o.2);
   let o := run (deposit poolContractID address z asset) env in (is_ok o.1, o.2);
   let o := run (withdraw address z) env in (is_ok o.1, o.2);
   let o := run (register address profile role md) env in (is_ok o.1, o.2)].
Proof.
unfold listInvoice, fundInvoice, shipInvoice, confirmDelivery, repayInvoice, defaultInvoice, deposit,
  withdraw, register, connected_as. rewrite Ha. repeat constructor.
Qed.

(** What a success makes stale. *)
Definition stale_keys (address : option string) : list (list string) :=
[["invoices"]; ["invoiceStats"]; ["poolStats"]] ++
(if opt_str_truthy address then [["lpPosition"; default "" address]] else []).

Definition console_line (e : ActionEv) (error : jsval) : Prop :=
exists line, e = Shown (ConsoleError line error).
Definition error_toast (title : string) (error : jsval) : ActionEv :=
Shown (ToastError title (if String.eqb (extractMessage error) "" then None else Some (extractMessage error))).

(** A run of [useMutation]: the function, then the callback for its outcome, which is also what
    the caller of [mutateAsync] gets. *)
Definition attempted {V R} (m : Mutation (Env := Env) V R) (v : V) : M Env ActionEv (res R) :=
r ← attempt (mutationFn m v);
match r with Ok a => onSuccess m a | Throw e => onError m e end;;
mret r.
(** Calls and requests, of which the user is told nothing. *)
Definition silent (e : ActionEv) : Prop := match e with Called _ _ | ApiEv _ => True | _ => False end.
(** Whatever the arguments: first the calls, silently, then what is told of their outcome. *)
Definition tells {V R} (m : Mutation (Env := Env) V R) (good : R -> list ActionEv -> Prop) (bad : jsval -> list ActionEv -> Prop) : Prop :=
forall v, trace_spec (attempted m v) (fun l o => exists calls told r, o = Ok r /\ l = calls ++ told /\ Forall silent calls /\
  match r with Ok a => good a told | Throw e => bad e told end).

(** An invoice action: one success toast after the lists are marked stale, or one line on the
    console and one error toast. *)
Definition tells_invoice {V R} (address : option string) (m : Mutation (Env := Env) V R) (success failure : string) : Prop :=
tells m (fun _ l => l = map Invalidate (stale_keys address) ++ [Shown (ToastSuccess success None)])
  (fun error l => exists e, console_line e error /\ l = [e; error_toast failure error]).
(** An action on the pool, which also clears or sets the inline error and links the transaction. *)
Definition tells_pool {V} (address : option string) (m : Mutation (Env := Env) V string) (success failure : string) : Prop :=
tells m (fun h l => l = [Inline None; Invalidate ["poolStats"]; Invalidate ["lpPosition"; default "null" address];
                         Shown (ToastSuccess success (if String.eqb h "" then None else Some (explorerUrl h)))])
  (fun error l => exists e m, console_line e error /\ m <> "" /\ l = [e; error_toast failure error; Inline (Some m)]).
(** A registration is reported inline only. *)
Definition tells_registration {V R} (address : option string) (m : Mutation (Env := Env) V R) : Prop :=
tells m (fun _ l => l = [Inline None; Invalidate ["profile"; default "null" address]; Invalidate ["isVerified"; default "null" address]])
  (fun error l => exists e m, console_line e error /\ m <> "" /\ l = [e; Inline (Some m)]).

Lemma tells_intro {V R} (m : Mutation (Env := Env) V R) good bad :
(forall v, trace_spec (mutationFn m v) (fun l _ => Forall silent l)) ->
(forall a, trace_spec (onSuccess m a) (fun l o => o = Ok tt /\ good a l)) ->
(forall e, trace_spec (onError m e) (fun l o => o = Ok tt /\ bad e l)) -> tells m good bad.
Proof.
intros Hf Hs He v. apply trace_attempt. eapply trace_weaken; [apply Hf|]. intros calls r Hc. apply trace_seq. destruct r as [a|e].
- eapply trace_weaken; [apply Hs|]. intros told o (-> & Ht). apply trace_ret. exists calls, told, (Ok a).
  by rewrite app_nil_r.
- eapply trace_weaken; [apply He|]. intros told o (-> & Ht). apply trace_ret. exists calls, told, (Throw e).
  by rewrite app_nil_r.
Qed.

(** *** The functions are silent *)
Abbreviation hushed m := (trace_spec (Env := Env) m (fun l _ => Forall silent l)).
Lemma hushed_call {A} (c : ContractCall A) : hushed (call c).
Proof. apply trace_call. intros r. by repeat constructor. Qed.
Lemma hushed_raise {A} e : hushed (raise (A := A) e).
Proof. by apply trace_raise. Qed.
Lemma hushed_ret {A} (x : A) : hushed (mret x).
Proof. by apply trace_ret. Qed.
Lemma hushed_lift {A} (r : res A) : hushed (lift r).
Proof. by apply trace_lift. Qed.
Lemma hushed_bind {A B'} (m : M Env ActionEv A) (k : A -> M Env ActionEv B') : hushed m -> (forall a, hushed (k a)) -> hushed (m ≫= k).
Proof.
intros Hm Hk. eapply trace_bind; [exact Hm|exact Hk|by auto|]. intros l1 a l2 r H1 H2. by apply Forall_app.
Qed.
Lemma hushed_catch {A} (m : M Env ActionEv A) h : hushed m -> (forall e, hushed (h e)) -> hushed (catch m h).
Proof.
intros Hm Hk. eapply trace_catch; [exact Hm|exact Hk|by auto|]. intros l1 e l2 r H1 H2. by apply Forall_app.
Qed.
Lemma hushed_api {A} (m : M Env Http A) P : trace_spec m P -> hushed (relabel ApiEv m).
Proof. intros Hm. eapply trace_relabel; [exact Hm|]. intros l r _. apply list.Forall_fmap, list.Forall_forall. done. Qed.
Lemma hushed_fetch {A} path o (k : jsval -> res A) : hushed (relabel ApiEv (raw ← apiFetch path o; lift (k raw))).
Proof.
apply (hushed_api _ (fun _ _ => True)). eapply trace_bind; [apply apiFetch_spec|intros a; by apply (trace_lift _ (fun _ _ => True))|done|done].
Qed.
Lemma hushed_connected {A} address (m : string -> M Env ActionEv A) : (forall a, hushed (m a)) -> hushed (connected_as address m).
Proof. intros Hm. unfold connected_as. destruct (opt_str_truthy address); [apply Hm|apply hushed_raise]. Qed.
Lemma hushed_allowance address spender amount : hushed (ensureAllowance address spender amount).
Proof.
apply hushed_connected. intros a. apply hushed_bind; [apply hushed_call|]. intros cur. destruct (_ <=? _); [apply hushed_ret|].
apply hushed_bind; [apply hushed_call|]. intros seq. apply hushed_bind; [apply hushed_call|]. intros _. apply hushed_ret.
Qed.
Lemma hushed_create buyer faceValue dueDate asset : hushed (createInvoice buyer faceValue dueDate asset).
Proof.
apply (hushed_api _ (fun _ _ => True)). apply trace_seq, trace_lift. destruct (json_body _); [|done].
eapply trace_weaken; [apply apiFetch_spec|done].
Qed.

Lemma success_toast_spec message txHash (R : list ActionEv -> res () -> Prop) :
R [Shown (ToastSuccess message (if opt_str_truthy txHash then explorerUrl <$> txHash else None))] (Ok tt) ->
trace_spec (Env := Env) (relabel Shown (showSuccessToast message txHash)) R.
Proof.
intros H. apply (trace_relabel _ _ (fun l r => l = [ToastSuccess message
  (if opt_str_truthy txHash then explorerUrl <$> txHash else None)] /\ r = Ok tt)).
- by apply trace_emit.
- by intros l r [-> ->].
Qed.

Lemma onInvoiceSuccess_spec address message :
trace_spec (Env := Env) (onInvoiceSuccess address message) (fun l o =>
  o = Ok tt /\ l = map Invalidate (stale_keys address) ++ [Shown (ToastSuccess message None)]).
Proof.
apply trace_seq. unfold invalidateInvoiceQueries. do 3 apply trace_emit_seq.
unfold stale_keys. destruct (opt_str_truthy address).
- by apply trace_emit, success_toast_spec.
- by apply trace_ret, success_toast_spec.
Qed.

Lemma handleMutationError_spec {L : ClockLaws C} context error title :
trace_spec (Env := Env) (relabel Shown (handleMutationError context error title)) (fun l o =>
  o = Ok tt /\ exists e, console_line e error /\ l = [e; error_toast title error]).
Proof.
eapply (trace_relabel _ _ (fun l o => o = Ok tt /\ exists line, l = [ConsoleError line error;
  ToastError title (if String.eqb (extractMessage error) "" then None else Some (extractMessage error))])).
- apply trace_seq. eapply trace_weaken; [apply captureError_ok|]. intros l r (line & ts & -> & ->).
  apply trace_emit. split; [done|]. by exists line.
- intros l r (-> & line & ->). split; [done|]. eexists. split; [by exists line | done].
Qed.

Lemma invoiceMutation_tells {L : ClockLaws C} {V R} address (fn : V -> M Env ActionEv R) success failure :
(forall v, hushed (fn v)) -> tells_invoice address (invoiceMutation address fn success failure) success failure.
Proof. intros Hf. apply tells_intro; [exact Hf|intros x; apply onInvoiceSuccess_spec|intros x; apply handleMutationError_spec]. Qed.
Lemma poolMutation_tells {L : ClockLaws C} {V} address (fn : V -> M Env ActionEv string) success failure fallback :
(forall v, hushed (fn v)) -> fallback <> "" ->
tells_pool address {| mutationFn := fn; onSuccess := onPoolSuccess address success; onError := onPoolError failure fallback |}
  success failure.
Proof.
intros Hf Hne. apply tells_intro; [exact Hf| |].
- intros h. do 3 apply trace_emit_seq. apply success_toast_spec. split; [done|].
  cbn. by destruct (String.eqb_spec h "").
- intros error. apply trace_seq. eapply trace_weaken; [apply handleMutationError_spec|].
  intros l o (-> & e & He & ->). apply trace_emit. split; [done|].
  destruct (inline_message error (Some fallback)) as (m & E & Hm).
  exists e, m. unfold AppErrorState.state in *. rewrite E. by split_and!.
Qed.
Lemma registerMutation_tells {L : ClockLaws C} address profile : tells_registration address (registerMutation address profile).
Proof.
apply tells_intro.
- intros [role md]. apply hushed_connected. intros a. destruct (truthy profile); [apply hushed_raise|].
  destruct role; apply hushed_call.
- intros x. do 2 apply trace_emit_seq. by apply trace_emit.
- intros error. apply trace_seq. eapply trace_relabel; [apply captureError_ok|]. intros l r (line & ts & -> & ->).
  apply trace_emit. split; [done|]. destruct (inline_message error (Some "Profile registration failed")) as (m & E & Hm).
  eexists _, m. unfold AppErrorState.state in *. rewrite E. split; [by exists line|]. by split.
Qed.

(** C18: whatever the arguments and the answers, every action tells the user its outcome exactly
    once, after its calls, during which it says nothing.  A success of an invoice action marks
    the invoice lists, the statistics, the pool figures and the account's position stale
    (not the query of one invoice, which its page fetches again itself), then shows one toast; a
    failure marks nothing, is logged and shown with its message.  The actions of the pool also
    clear or set the inline error and link the transaction, and a registration is reported
    inline only. *)
Theorem mutations_report {L : ClockLaws C} address profile :
tells_invoice address (createInvoiceMutation address) "Invoice Created" "Invoice Creation Failed" /\
tells_invoice address (listInvoiceMutation address) "Invoice Listed for Financing" "Listing Failed" /\
tells_invoice address (fundInvoiceMutation address) "Invoice Funded" "Funding Failed" /\
tells_invoice address (shipInvoiceMutation address) "Invoice Shipped" "Shipping Failed" /\
tells_invoice address (confirmDeliveryMutation address) "Delivery Confirmed" "Confirmation Failed" /\
tells_invoice address (repayInvoiceMutation invoiceContractID address) "Invoice Repaid" "Repayment Failed" /\
tells_invoice address (defaultInvoiceMutation address) "Invoice Defaulted" "Default Action Failed" /\
tells_pool address (depositMutation poolContractID address) "Deposit Complete" "Deposit Failed" /\
tells_pool address (withdrawMutation address) "Withdrawal Complete" "Withdrawal Failed" /\
tells_registration address (registerMutation address profile).
Proof.
refine (conj (invoiceMutation_tells _ _ _ _ _) (conj (invoiceMutation_tells _ _ _ _ _) (conj (invoiceMutation_tells _ _ _ _ _)
  (conj (invoiceMutation_tells _ _ _ _ _) (conj (invoiceMutation_tells _ _ _ _ _) (conj (invoiceMutation_tells _ _ _ _ _)
  (conj (invoiceMutation_tells _ _ _ _ _) (conj (poolMutation_tells _ _ _ _ _ _ _) (conj (poolMutation_tells _ _ _ _ _ _ _)
  (registerMutation_tells _ _)))))))))); try done.
- intros [[[buyer faceValue] dueDate] asset]. apply hushed_create.
- intros [id n]. apply hushed_connected. intros a. apply hushed_call.
- intros id. apply hushed_connected. intros a. apply hushed_call.
- intros id. apply hushed_connected. intros a. apply hushed_call.
- intros id. apply hushed_connected. intros a. apply hushed_bind; [apply hushed_fetch|]. intros i. apply hushed_call.
- intros id. apply hushed_connected. intros a. apply hushed_bind; [apply hushed_call|]. intros i.
  apply hushed_bind; [apply hushed_lift|]. intros z. apply hushed_bind; [|intros _; apply hushed_call].
  apply hushed_catch; [apply hushed_allowance|]. intros e. apply hushed_raise.
- intros id. apply hushed_connected. intros a. apply hushed_call.
- intros [amount asset]. apply hushed_connected. intros a. apply hushed_bind; [|intros _; apply hushed_call].
  destruct (bool_decide _); [apply hushed_allowance|apply hushed_ret].
- intros z. apply hushed_connected. intros a. apply hushed_call.
Qed.

(** Registration is attempted at most once and never for an account that
    already has a profile; a missing profile reads as [null], other failures are
    reported and passed on. *)
Theorem registration_once a profile role md (Ha : a <> "") :
trace_spec (register (Some a) profile role md) (fun l r =>
  if truthy profile then l = [] /\ exists e, r = Throw e
  else l = [match role with
            | Issuer => Called (RegisterIssuer a md a) r
            | Buyer => Called (RegisterBuyer a md a) r
            end]) /\
trace_spec (fetchProfile (Some a)) (fun l r =>
  forall e rest, l = Called (GetProfile a a) (Throw e) :: rest ->
    if isProfileNotFoundError e then r = Ok JNull /\ rest = []
    else exists e', r = Throw e').
Proof.
unfold register, fetchProfile, connected_as. cbn [opt_str_truthy]. destruct (String.eqb_spec a ""); [done|].
cbn [negb]. change (default "" (Some a)) with a. split.
- destruct (truthy profile); [apply trace_raise; by split; [|eexists]|].
  destruct role; by apply trace_call.
- apply trace_try, trace_call. intros [v|err]; [by intros e rest [=]|].
  destruct (isProfileNotFoundError err) eqn:E.
  + apply trace_ret. intros e rest [= -> <-]. by rewrite E.
  + apply trace_seq. eapply trace_relabel; [apply captureError_spec|].
    intros l [app|e'] _.
    * apply trace_raise. intros e rest [= -> _]. rewrite E. by eexists.
    * intros e rest [= -> _]. rewrite E. by eexists.
Qed.
End ActionFacts.

(** An action on the invoice page always ends with the buttons enabled; the error
    is set exactly when the action or the refresh failed, and then the progress dialog is
    closed; a transaction hash is shown exactly when the action returned one. *)
Theorem handleAction_outcome s text errorMsg action refetch :
  let s' := DetailActions.handleAction s text errorMsg action refetch in
  DetailActions.submitting s' = false /\
  (DetailActions.error s' = None <-> is_ok action = true /\ is_ok refetch = true) /\
  (DetailActions.showPending s' = true <-> DetailActions.error s' = None) /\
  (forall h, DetailActions.pendingHash s' = Some h <-> action = Ok (JStr h)).
Proof.
  destruct action as [r|e], refetch as [[]|e']; cbn; split_and!; try done; try naive_solver;
    intros h; destruct r; cbn; naive_solver.
Qed.

(** ** Balances *)
Definition is_native (b : BalanceLine) : bool := bool_decide (bl_asset_type b = Some "native").
Definition is_usdc (issuer : string) (b : BalanceLine) : bool :=
  bool_decide (bl_asset_type b = Some "credit_alphanum4") && bool_decide (bl_asset_code b = Some "USDC") &&
  bool_decide (bl_asset_issuer b = Some issuer).

(** The balances shown are those of the native line and of the USDC line of the
    configured issuer, so a token of the same code from another issuer never counts; an
    account the network does not know has zero XLM and no trustline. *)
Theorem fetchBalances_lines issuer address lines (Ha : address <> "") :
  fetchBalances issuer address true (Ok lines) =
    (Ok {| usdc := bl_balance <$> list.last (List.filter (is_usdc issuer) lines);
           xlm := bl_balance <$> list.last (List.filter is_native lines) |}, None) /\
  (forall e, is_error e = true -> has_field e "response" = true ->
     field (field e "response") "status" = JNum (Num.of_Z 404) -> is_nullish (field e "response") = false ->
     fetchBalances issuer address true (Throw e) = (Ok {| usdc := None; xlm := Some "0" |}, None)).
Proof.
  unfold fetchBalances. destruct (String.eqb_spec address ""); [done|]. cbn [orb negb]. split.
  - do 2 f_equal. induction lines as [|x lines IH] using rev_ind; [done|].
    rewrite foldl_app, !List.filter_app, IH. cbn [foldl List.filter].
    unfold add_balance, is_usdc, is_native. destruct (bl_asset_type x) as [t|];
      [|rewrite !bool_decide_false by done; cbn; by rewrite !app_nil_r].
    destruct (String.eqb_spec t "native") as [->|Hn].
    + rewrite (bool_decide_true (Some "native" = Some "native")) by done.
      rewrite (bool_decide_false (Some "native" = Some "credit_alphanum4")) by done.
      cbn. by rewrite app_nil_r, list.last_snoc.
    + rewrite (bool_decide_false (Some t = Some "native")) by congruence. rewrite app_nil_r.
      destruct (String.eqb_spec t "credit_alphanum4") as [->|Hc].
      * rewrite (bool_decide_true (Some "credit_alphanum4" = Some "credit_alphanum4")) by done. cbn [andb].
        destruct (bool_decide (bl_asset_code x = Some "USDC") && bool_decide (bl_asset_issuer x = Some issuer));
          [by rewrite list.last_snoc | by rewrite app_nil_r].
      * rewrite (bool_decide_false (Some t = Some "credit_alphanum4")) by congruence. cbn.
        by rewrite app_nil_r.
  - intros e He Hr Hs Hn. unfold opt_field. by rewrite He, Hr, Hn, Hs.
Qed.

(** ** Witnesses *)
Module MockContracts.
(** No allowance yet; every call succeeds. *)
Definition answer {A} (c : ContractCall A) : res A :=
match c in ContractCall A return res A with
| Allowance _ _ _ => Ok 0
| LatestLedger => Ok (Num.of_Z 1000)
| Approve _ _ _ _ _ => Ok "approve-hash"
| Deposit _ _ _ => Ok "deposit-hash"
| Withdraw _ _ _ => Ok "withdraw-hash"
| FundInvoice _ _ | ListForFinancing _ _ _ | MarkShipped _ _ | ConfirmDelivery _ _ _ | Repay _ _
| TriggerDefault _ _ | IsVerified _ _ => Ok true
| GetInvoice _ _ => Ok (JObj [("faceValue", JBig 70)])
| GetProfile _ _ => Throw (mk_error "Profile not found")
| RegisterIssuer _ _ _ | RegisterBuyer _ _ _ => Ok "register-hash"
end.
Definition contracts : Contracts MockWallet.env := {| perform := fun A c e => (answer c, e) |}.
End MockContracts.

Section ActionWitnesses.
#[local] Existing Instance RefZod.ref_zod.
#[local] Existing Instance MockWallet.backend.
#[local] Existing Instance MockWallet.clock.
#[local] Existing Instance MockContracts.contracts.

Example repay_log :
(run (repayInvoice "INVOICE" (Some "GA") "ff") MockWallet.server).2 =
[Called (GetInvoice "ff" "GA") (Ok (JObj [("faceValue", JBig 70)]));
 Called (Allowance "GA" "INVOICE" "GA") (Ok 0); Called LatestLedger (Ok (Num.of_Z 1000));
 Called (Approve "GA" "INVOICE" 70 (Num.of_Z 536680) "GA") (Ok "approve-hash");
 Called (Repay "ff" "GA") (Ok true)].
Proof. vm_compute. reflexivity. Qed.

Lemma deposit_covered_witness :
exists pre, (run (deposit "POOL" (Some "GA") 5 USDC) MockWallet.server).2 =
  pre ++ [Called (Deposit "GA" 5 "GA") (Ok "deposit-hash")] /\ covered "GA" "POOL" 5 pre.
Proof.
pose proof (trace_run _ _ MockWallet.server (deposit_covered "POOL" "GA" 5 USDC ltac:(discriminate))) as H.
assert (Hr : (run (deposit "POOL" (Some "GA") 5 USDC) MockWallet.server).1 = Ok "deposit-hash")
  by (vm_compute; reflexivity).
rewrite Hr in H. destruct H as [(pre & E & Hc) | ([e He] & _)]; [|discriminate He].
exists pre. split; [exact E | exact Hc].
Defined.

Lemma repay_covered_witness :
exists invoice z pre, face_value invoice = Ok z /\
  (run (repayInvoice "INVOICE" (Some "GA") "ff") MockWallet.server).2 =
    Called (GetInvoice "ff" "GA") (Ok invoice) :: pre ++ [Called (Repay "ff" "GA") (Ok true)] /\
  covered "GA" "INVOICE" z pre.
Proof.
pose proof (trace_run _ _ MockWallet.server (repay_covered "INVOICE" "GA" "ff" ltac:(discriminate))) as H.
assert (Hr : (run (repayInvoice "INVOICE" (Some "GA") "ff") MockWallet.server).1 = Ok true)
  by (vm_compute; reflexivity).
rewrite Hr in H. destruct H as [H | ([e He] & _)]; [exact H | discriminate He].
Defined.

Lemma actions_need_a_wallet_witness :
(run (withdraw (Some "") 5) MockWallet.server).2 = [].
Proof.
pose proof (actions_need_a_wallet "INVOICE" "POOL" (Some "") "ff" 5 Num.zero USDC Issuer JNull []
              eq_refl MockWallet.server) as H.
do 7 (apply Forall_inv_tail in H). apply Forall_inv in H. cbv zeta in H. exact (f_equal snd H).
Defined.

Lemma registration_once_witness :
(run (register (Some "GA") JNull Buyer []) MockWallet.server).2 =
  [Called (RegisterBuyer "GA" [] "GA") (Ok "register-hash")].
Proof.
pose proof (trace_run _ _ MockWallet.server
  (proj1 (registration_once "GA" JNull Buyer [] ltac:(discriminate)))) as H.
assert (Hr : (run (register (Some "GA") JNull Buyer []) MockWallet.server).1 = Ok "register-hash")
  by (vm_compute; reflexivity).
rewrite Hr in H. exact H.
Defined.

Lemma mutations_report_witness :
(run (attempted (fundInvoiceMutation (Some "GA")) "ff") MockWallet.server).2 =
  [Called (FundInvoice "ff" "GA") (Ok true);
   Invalidate ["invoices"]; Invalidate ["invoiceStats"]; Invalidate ["poolStats"];
   Invalidate ["lpPosition"; "GA"]; Shown (ToastSuccess "Invoice Funded" None)] /\
exists calls told, (run (attempted (fundInvoiceMutation (Some "GA")) "ff") MockWallet.server).2 = calls ++ told /\
  Forall silent calls /\ told = map Invalidate (stale_keys (Some "GA")) ++ [Shown (ToastSuccess "Invoice Funded" None)].
Proof.
split; [vm_compute; reflexivity|].
pose proof (mutations_report (L := MockWallet.clock_laws) "INVOICE" "POOL" (Some "GA") JNull) as H.
destruct H as (_ & _ & H & _). destruct (trace_run _ _ MockWallet.server (H "ff")) as (calls & told & r & Hr & Hl & Hs & Ht).
assert (E : (run (attempted (fundInvoiceMutation (Some "GA")) "ff") MockWallet.server).1 = Ok (Ok true)) by (vm_compute; reflexivity).
rewrite E in Hr. injection Hr as <-. exists calls, told. split; [exact Hl|]. split; [exact Hs|exact Ht].
Defined.
End ActionWitnesses.

Lemma computeInvoiceStats_counts_witness :
  exists s, computeInvoiceStats [JObj [("status", JStr "Listed"); ("fundedAmount", JBig 3)];
      JObj [("status", JStr "Repaid")]] = Ok s /\ totalInvoicesCreated s = 2%nat.
Proof.
  destruct (computeInvoiceStats [JObj [("status", JStr "Listed"); ("fundedAmount", JBig 3)];
      JObj [("status", JStr "Repaid")]]) as [s|e] eqn:E; [|vm_compute in E; discriminate E].
  exists s. split; [reflexivity|]. exact (proj1 (computeInvoiceStats_counts _ _ E)).
Defined.

Lemma fetchBalances_lines_witness :
  fetchBalances "GI" "GA" true (Ok [{| bl_asset_type := Some "credit_alphanum4"; bl_asset_code := Some "USDC";
      bl_asset_issuer := Some "GFAKE"; bl_balance := "999" |}]) = (Ok {| usdc := None; xlm := None |}, None).
Proof. exact (proj1 (fetchBalances_lines "GI" "GA" _ ltac:(discriminate))). Defined.
