(* ===== verification/InvoiceForm.v ===== *)
(** * The invoice form ([apps/web/components/invoice/InvoiceForm.tsx])

    The first step checks the terms; the second creates the invoice through the API and,
    when asked to, simulates and signs its listing, taking the creation back when the
    listing cannot be completed.  The functions the form receives from its hooks are the
    interface [FormActions]; the cancellation goes through [WebApi].  State updates are
    events of the log, and [replay] is the form they leave behind. *)

From S2P Require Import Prelude JsNumber JsString JsValue JsDate JsJson Effects SdkTypes Schemas WebParsers.
From S2P Require Import WebApi WebErrors Amounts.
Local Open Scope Z_scope.

Record InvoiceForm := {
  buyer : string; faceValue : string; asset : AssetType; dueDate : string; discountBps : num;
  immediateList : bool; error : option string; step : Z; isListing : bool }.
Definition initial_form : InvoiceForm :=
  {| buyer := ""; faceValue := ""; asset := USDC; dueDate := ""; discountBps := Num.of_Z 200;
     immediateList := true; error := None; step := 1; isListing := false |}.

(** [parseFloat(faceValue.replace(/,/g, "")) || 0], and the preview of the payout. *)
Definition parsedValue (f : InvoiceForm) : num :=
  let v := Str.parse_float (Str.remove_char ","%char (faceValue f)) in
  if Num.truthy v then v else Num.zero.
Definition discountPaid (f : InvoiceForm) : num :=
  Num.mul (parsedValue f) (Num.div (discountBps f) (Num.of_Z 10000)).
Definition payoutAmount (f : InvoiceForm) : num := Num.sub (parsedValue f) (discountPaid f).

Definition setError (f : InvoiceForm) (e : option string) : InvoiceForm :=
  {| buyer := buyer f; faceValue := faceValue f; asset := asset f; dueDate := dueDate f;
     discountBps := discountBps f; immediateList := immediateList f; error := e; step := step f;
     isListing := isListing f |}.
Definition setBuyer (f : InvoiceForm) (b : string) : InvoiceForm :=
  {| buyer := b; faceValue := faceValue f; asset := asset f; dueDate := dueDate f;
     discountBps := discountBps f; immediateList := immediateList f; error := error f; step := step f;
     isListing := isListing f |}.
Definition setStep (f : InvoiceForm) (s : Z) : InvoiceForm :=
  {| buyer := buyer f; faceValue := faceValue f; asset := asset f; dueDate := dueDate f;
     discountBps := discountBps f; immediateList := immediateList f; error := error f; step := s;
     isListing := isListing f |}.

(** ** The first step *)
Section Terms.
(** [StrKey.isValidEd25519PublicKey], and the time zone: the start of the local day [k]
    days after the one [now] falls in ([setHours(0, 0, 0, 0)], [setDate]). *)
Context (isValidEd25519PublicKey : string -> bool) (startOfDay : Z -> Z -> Z).

Definition handleNextStep (now : Z) (f : InvoiceForm) : InvoiceForm :=
let f := setError f None in
let trimmedBuyer := Str.trim (buyer f) in
if String.eqb trimmedBuyer "" || negb (isValidEd25519PublicKey trimmedBuyer) then
  setError f (Some "Buyer must be a valid Stellar public key (G... account address)")
else
  let f := setBuyer f trimmedBuyer in
  if Num.leb (parsedValue f) Num.zero then setError f (Some "Face value must be a positive number")
  else if String.eqb (dueDate f) "" then setError f (Some "Please select a due date")
  else
    let selectedDate := Date.parse (dueDate f) in
    let today := Num.of_Z (startOfDay now 0) in
    let minDate := Num.of_Z (startOfDay now 7) in
    let maxDate := Num.of_Z (startOfDay now 365) in
    if Num.leb selectedDate today then setError f (Some "Due date must be in the future")
    else if Num.ltb selectedDate minDate then
      setError f (Some "Due date must be at least 7 days from today")
    else if Num.gtb selectedDate maxDate then
      setError f (Some "Due date must be within 365 days from today")
    else setStep f 2.
End Terms.

(** ** The second step *)
Class FormActions (Env : Type) := {
  act_create : string -> string -> num -> AssetType -> Env -> res jsval * Env;
  act_simulate : string -> num -> string -> Env -> res () * Env;
  act_list : string -> num -> Env -> res bool * Env;
  act_success : Env -> res () * Env }.

Inductive Update := SetError (e : option string) | SetListing (b : bool) | ClearTerms.
Inductive FormEv :=
  | Create (buyer faceValue : string) (dueDate : num) (asset : AssetType) (r : res jsval)
  | Simulate (id : string) (bps : num) (address : string) (r : res ())
  | List (id : string) (bps : num) (r : res bool)
  | Cancel (e : Http)
  | Done (r : res ())
  | Upd (u : Update)
  | Console (message id : string) (err : jsval).

Definition apply_update (f : InvoiceForm) (u : Update) : InvoiceForm :=
  match u with
  | SetError e => setError f e
  | SetListing b =>
      {| buyer := buyer f; faceValue := faceValue f; asset := asset f; dueDate := dueDate f;
         discountBps := discountBps f; immediateList := immediateList f; error := error f;
         step := step f; isListing := b |}
  | ClearTerms =>
      {| buyer := ""; faceValue := ""; asset := asset f; dueDate := ""; discountBps := discountBps f;
         immediateList := immediateList f; error := error f; step := 1; isListing := isListing f |}
  end.
Definition replay (f : InvoiceForm) (l : list FormEv) : InvoiceForm :=
  foldl (fun f e => match e with Upd u => apply_update f u | _ => f end) f l.

Section Submit.
Context {Env : Type} {A : FormActions Env} {B : Backend Env} {zod : Zod}.
Abbreviation IO := (M Env FormEv).

Definition cancelCreatedInvoice (invoiceId : string) : IO jsval :=
relabel Cancel (updateInvoiceStatus invoiceId "Cancelled").

(** [BigInt(Math.floor(parsedValue * 10_000_000)).toString()], and the due date in seconds. *)
Definition faceValueStroops (f : InvoiceForm) : res string :=
z ← bigint_of_num (Num.floor (Num.mul (parsedValue f) (Num.of_Z 10000000)));
Ok (Num.bigint_to_string z).
Definition dueDateTimestamp (f : InvoiceForm) : num :=
Num.floor (Num.div (Date.parse (dueDate f)) (Num.of_Z 1000)).

(** The creation, up to [createdInvoiceId]: the id and the response. *)
Definition create_request (f : InvoiceForm) : IO (jsval * jsval) :=
stroops ← lift (faceValueStroops f);
response ← io (Create (buyer f) stroops (dueDateTimestamp f) (asset f))
  (act_create (buyer f) stroops (dueDateTimestamp f) (asset f));
id ← lift (member response "invoice_id");
mret (id, response).

(** [if (immediateList)]: simulate the listing, then have it signed. *)
Definition list_created (f : InvoiceForm) (address : option string) (id : string) : IO bool :=
emit (Upd (SetListing true));;
if negb (opt_str_truthy address) then raise (mk_error "Connect your wallet before listing the invoice")
else
  catch (io (Simulate id (discountBps f) (default "" address))
           (act_simulate id (discountBps f) (default "" address)))
    (fun e => raise (mk_error ("Simulation failed: " +:+ getErrorMessage e unexpected)));;
  io (List id (discountBps f)) (act_list id (discountBps f)).

Definition created_ok : IO () :=
emit (Upd ClearTerms);;
r ← attempt (io Done act_success);
match r with
| Ok _ => mret tt
| Throw e => emit (Upd (SetError (Some (getErrorMessage e unexpected))))
end.

Definition cancelled_note (m : string) : string :=
m +:+ ". The created invoice was cancelled and will not remain pending listing.".
Definition stranded_note (m : string) : string :=
m +:+ ". We could not automatically cancel the created invoice; please refresh and contact support if it remains visible.".

(** The [catch] block, when the listing failed after a creation. *)
Definition take_back (id : string) (e : jsval) : IO () :=
let originalMessage := getErrorMessage e unexpected in
r ← attempt (cancelCreatedInvoice id);
match r with
| Ok _ => emit (Upd (SetError (Some (cancelled_note originalMessage))))
| Throw cleanupError =>
    emit (Upd (SetError (Some (stranded_note originalMessage))));;
    emit (Console "Failed to cancel invoice after listing failure" id cleanupError)
end.
Definition report (e : jsval) : IO () := emit (Upd (SetError (Some (getErrorMessage e unexpected)))).

Definition no_id_error : jsval := mk_error "Invoice creation did not return a valid invoice ID".
Definition no_hash_error : jsval := mk_error "Invoice creation did not return a transaction hash".

Definition handleCreate (f : InvoiceForm) (address : option string) : IO () :=
emit (Upd (SetError None));;
finally
  (r ← attempt (create_request f);
   match r with
   | Throw e => report e
   | Ok (id, response) =>
       if negb (truthy id) then report no_id_error
       else if negb (truthy (field response "transaction_hash")) then report no_hash_error
       else if immediateList f then
         r ← attempt (list_created f address (to_str id));
         match r with
         | Ok _ => created_ok
         | Throw e => take_back (to_str id) e
         end
       else created_ok
   end)
  (emit (Upd (SetListing false))).
End Submit.

(** ** The outcomes of a submission *)

(** What the form asked of its hooks and of the API, without its own state updates. *)
Definition is_call (e : FormEv) : bool := match e with Upd _ => false | _ => true end.
Definition calls (l : list FormEv) : list FormEv := List.filter is_call l.

Definition failed (f : InvoiceForm) (m : string) : InvoiceForm :=
apply_update (setError f (Some m)) (SetListing false).
Definition finished (f : InvoiceForm) (d : res ()) : InvoiceForm :=
apply_update (setError (apply_update f ClearTerms)
                (match d with Ok _ => None | Throw e => Some (getErrorMessage e unexpected) end))
  (SetListing false).

Section Outcomes.
Context {Env : Type} {A : FormActions Env} {B : Backend Env} {zod : Zod}.

(** The one request that cancels invoice [id]. *)
Definition cancel_request (id : string) (rq : request) : Prop :=
rq_method rq = Some "PATCH" /\
rq_url rq = getApiUrl +:+ "/invoices/" +:+ Uri.encode_component id +:+ "/status" /\
json_body (JObj [("status", JStr "Cancelled")]) = Ok (rq_body rq).

(** The calls of a cancellation after the error [m], and what the form then shows. *)
Inductive taken_back (id m : string) : list FormEv -> string -> Prop :=
  | cancel_ok rq resp v :
      cancel_request id rq -> resp ≫= read_response = Ok v ->
      taken_back id m [Cancel (Fetched rq resp)] (cancelled_note m)
  | cancel_failed rq resp e :
      cancel_request id rq -> resp ≫= read_response = Throw e ->
      taken_back id m [Cancel (Fetched rq resp);
                       Console "Failed to cancel invoice after listing failure" id e] (stranded_note m)
  | cancel_unsent e : (exists t, e = JErr CTypeError t []) ->
      taken_back id m [Console "Failed to cancel invoice after listing failure" id e] (stranded_note m).

(** The answer of the creation that lets the form go on. *)
Definition valid_answer (resp : jsval) (id : string) : Prop :=
exists v, member resp "invoice_id" = Ok v /\ truthy v = true /\ id = to_str v /\
  truthy (field resp "transaction_hash") = true.

Inductive saga (f : InvoiceForm) (address : option string) : list FormEv -> InvoiceForm -> Prop :=
  | not_sent e : faceValueStroops f = Throw e -> saga f address [] (failed f (getErrorMessage e unexpected))
  | refused stroops r m :
      faceValueStroops f = Ok stroops ->
      (forall resp id, r = Ok resp -> ~ valid_answer resp id) ->
      saga f address [Create (buyer f) stroops (dueDateTimestamp f) (asset f) r] (failed f m)
  | created_only stroops resp id d :
      faceValueStroops f = Ok stroops -> valid_answer resp id -> immediateList f = false ->
      saga f address [Create (buyer f) stroops (dueDateTimestamp f) (asset f) (Ok resp); Done d] (finished f d)
  | created_listed stroops resp id a b d :
      faceValueStroops f = Ok stroops -> valid_answer resp id -> immediateList f = true ->
      address = Some a -> a <> "" ->
      saga f address [Create (buyer f) stroops (dueDateTimestamp f) (asset f) (Ok resp);
        Simulate id (discountBps f) a (Ok tt); List id (discountBps f) (Ok b); Done d] (finished f d)
  | not_connected stroops resp id c m :
      faceValueStroops f = Ok stroops -> valid_answer resp id -> immediateList f = true ->
      opt_str_truthy address = false ->
      taken_back id "Connect your wallet before listing the invoice" c m ->
      saga f address (Create (buyer f) stroops (dueDateTimestamp f) (asset f) (Ok resp) :: c) (failed f m)
  | simulation_failed stroops resp id a e c m :
      faceValueStroops f = Ok stroops -> valid_answer resp id -> immediateList f = true ->
      address = Some a -> a <> "" ->
      taken_back id ("Simulation failed: " +:+ getErrorMessage e unexpected) c m ->
      saga f address (Create (buyer f) stroops (dueDateTimestamp f) (asset f) (Ok resp) ::
        Simulate id (discountBps f) a (Throw e) :: c) (failed f m)
  | listing_failed stroops resp id a e c m :
      faceValueStroops f = Ok stroops -> valid_answer resp id -> immediateList f = true ->
      address = Some a -> a <> "" ->
      taken_back id (getErrorMessage e unexpected) c m ->
      saga f address (Create (buyer f) stroops (dueDateTimestamp f) (asset f) (Ok resp) ::
        Simulate id (discountBps f) a (Ok tt) :: List id (discountBps f) (Throw e) :: c) (failed f m).

Lemma cancelCreatedInvoice_spec id :
trace_spec (cancelCreatedInvoice id) (fun l r =>
  (l = [] /\ exists t, r = Throw (JErr CTypeError t [])) \/
  exists rq resp, l = [Cancel (Fetched rq resp)] /\ cancel_request id rq /\ r = resp ≫= read_response).
Proof.
apply (trace_relabel _ _ (fun l r => (l = [] /\ exists t, r = Throw (JErr CTypeError t [])) \/
  exists rq resp, l = [Fetched rq resp] /\ cancel_request id rq /\ r = resp ≫= read_response)).
- apply trace_seq, trace_lift. apply (trace_weaken _ _ _ (apiFetch_spec _ _)).
  intros l r [H|(rq & resp & -> & Hu & Hm & Hb & ->)]; [by left|right].
  exists rq, resp. unfold cancel_request. by rewrite Hu, Hm, Hb.
- intros l r [(-> & H)|(rq & resp & -> & H)]; [by left|right; by exists rq, resp].
Qed.

(** Updates only change the form, whatever it was. *)
Lemma take_back_spec id e :
trace_spec (take_back id e) (fun l r => r = Ok tt /\
  exists c m, taken_back id (getErrorMessage e unexpected) c m /\ calls l = c /\
    forall f, replay f l = setError f (Some m)).
Proof.
apply trace_attempt. eapply trace_weaken; [apply cancelCreatedInvoice_spec|]. cbn beta.
intros l r [(-> & t & ->)|(rq & resp & -> & Hrq & ->)].
- apply trace_emit_seq, trace_emit. split; [done|]. eexists _, _. split; [eapply cancel_unsent; by eexists|done].
- destruct (resp ≫= read_response) as [v|err] eqn:Hr.
  + apply trace_emit. split; [done|]. eexists _, _. split; [by eapply cancel_ok|done].
  + apply trace_emit_seq, trace_emit. split; [done|]. eexists _, _. split; [by eapply cancel_failed|done].
Qed.

Lemma created_ok_spec :
trace_spec created_ok (fun l r => r = Ok tt /\ exists d, calls l = [Done d] /\
  forall f, error f = None -> apply_update (replay f l) (SetListing false) = finished f d).
Proof.
apply trace_emit_seq, trace_attempt, trace_io. intros [u|e].
- apply trace_ret. split; [done|]. exists (Ok u). split; [done|]. intros f Hf. cbn. rewrite Hf. done.
- apply trace_emit. split; [done|]. by exists (Throw e).
Qed.

Definition list_post (f : InvoiceForm) (address : option string) (id : string) (c : list FormEv) (r : res bool) : Prop :=
(c = [] /\ opt_str_truthy address = false /\
   r = Throw (mk_error "Connect your wallet before listing the invoice")) \/
exists a, address = Some a /\ a <> "" /\
  ((exists e, c = [Simulate id (discountBps f) a (Throw e)] /\
      r = Throw (mk_error ("Simulation failed: " +:+ getErrorMessage e unexpected))) \/
   c = [Simulate id (discountBps f) a (Ok tt); List id (discountBps f) r]).

Lemma list_created_spec f address id :
trace_spec (list_created f address id) (fun l r =>
  list_post f address id (calls l) r /\ forall g, replay g l = apply_update g (SetListing true)).
Proof.
apply trace_emit_seq. destruct (opt_str_truthy address) eqn:Ha; cbn [negb].
- assert (exists a, address = Some a /\ a <> "") as (a & -> & Hne).
  { destruct address as [a|]; [|done]. exists a. split; [done|]. by intros ->. }
  apply trace_seq, trace_try, trace_io. intros [[]|e].
  + apply trace_io. intros r. split; [|done]. right. exists a. cbn. eauto.
  + apply trace_raise. split; [|done]. right. exists a. cbn. eauto 6.
- apply trace_raise. split; [|done]. by left.
Qed.

Lemma create_request_spec f :
trace_spec (create_request f) (fun l r =>
  (exists e, faceValueStroops f = Throw e /\ l = [] /\ r = Throw e) \/
  exists stroops a, faceValueStroops f = Ok stroops /\
    l = [Create (buyer f) stroops (dueDateTimestamp f) (asset f) a] /\
    r = (resp ← a; id ← member resp "invoice_id"; Ok (id, resp))).
Proof.
apply trace_seq, trace_lift. destruct (faceValueStroops f) as [s|e] eqn:Hs; [|left; eauto].
apply trace_seq, trace_io. intros [resp|e]; [|right; eexists _, _; done].
apply trace_seq, trace_lift. destruct (member resp "invoice_id") as [v|e] eqn:Hm.
- apply trace_ret. right. eexists _, (Ok resp). cbn. rewrite Hm. done.
- right. eexists _, (Ok resp). cbn. rewrite Hm. done.
Qed.

Lemma calls_app l l' : calls (l ++ l') = calls l ++ calls l'.
Proof. apply filter_app. Qed.

Lemma replay_app f l l' : replay f (l ++ l') = replay (replay f l) l'.
Proof. apply foldl_app. Qed.

(** What the listing of a created invoice leads to. *)
Lemma list_or_take_back f address id stroops resp :
faceValueStroops f = Ok stroops -> valid_answer resp id -> immediateList f = true ->
trace_spec (r ← attempt (list_created f address id);
            match r with Ok _ => created_ok | Throw e => take_back id e end)
  (fun l r => r = Ok tt /\
     saga f address (Create (buyer f) stroops (dueDateTimestamp f) (asset f) (Ok resp) :: calls l)
       (apply_update (replay (setError f None) l) (SetListing false))).
Proof.
intros Hs Hv Hi. apply trace_attempt. eapply trace_weaken; [apply list_created_spec|]. cbn beta.
intros l r [Hp Hr]. destruct Hp as [(Hc & Ha & ->)|(a & -> & Hne & [(e & Hc & ->)|Hc])].
- eapply trace_weaken; [apply take_back_spec|]. cbn beta. intros l' r [-> (c & m & Ht & Hc' & Hm)].
  split; [done|]. rewrite calls_app, replay_app, Hr, Hm, Hc, Hc'. cbn [app]. change (apply_update _ _) with (failed f m). by eapply not_connected.
- eapply trace_weaken; [apply take_back_spec|]. cbn beta. intros l' r [-> (c & m & Ht & Hc' & Hm)].
  split; [done|]. rewrite calls_app, replay_app, Hr, Hm, Hc, Hc'. cbn [app]. change (apply_update _ _) with (failed f m). by eapply simulation_failed.
- destruct r as [b|e].
  + eapply trace_weaken; [apply created_ok_spec|]. cbn beta. intros l' r [-> (d & Hc' & Hm)].
    split; [done|]. rewrite calls_app, replay_app, Hr, Hm, Hc, Hc' by done. exact (created_listed _ _ _ _ _ _ _ _ Hs Hv Hi eq_refl Hne).
  + eapply trace_weaken; [apply take_back_spec|]. cbn beta. intros l' r [-> (c & m & Ht & Hc' & Hm)].
    split; [done|]. rewrite calls_app, replay_app, Hr, Hm, Hc, Hc'. cbn [app]. change (apply_update _ _) with (failed f m). by eapply listing_failed.
Qed.

Lemma report_spec e :
trace_spec (report (Env := Env) e) (fun l r => r = Ok tt /\ l = [Upd (SetError (Some (getErrorMessage e unexpected)))]).
Proof. by apply trace_emit. Qed.

(** Every submission ends in one of the outcomes, and never throws. *)
Lemma handleCreate_saga f address :
trace_spec (handleCreate f address) (fun l r => r = Ok tt /\ saga f address (calls l) (replay f l)).
Proof.
apply trace_emit_seq, trace_finally.
assert (H : forall l r, r = Ok tt /\ saga f address (calls l) (apply_update (replay (setError f None) l) (SetListing false)) ->
  trace_spec (emit (Env := Env) (Upd (SetListing false))) (fun l' r' =>
    (match r' with Ok _ => r | Throw e => Throw e end) = Ok tt /\
    saga f address (calls (Upd (SetError None) :: (l ++ l'))) (replay f (Upd (SetError None) :: (l ++ l'))))).
{ intros l r [-> Hs]. apply trace_emit. split; [done|]. cbn [replay foldl apply_update].
  change (calls (?e :: ?k)) with (calls k). fold (replay (setError f None) (l ++ [Upd (SetListing false)])).
  by rewrite calls_app, replay_app, app_nil_r. }
eapply trace_weaken; [|exact H]. clear H. apply trace_attempt.
eapply trace_weaken; [apply create_request_spec|]. cbn beta.
intros l r [(e & Hs & -> & ->)|(stroops & a & Hs & -> & ->)].
- eapply trace_weaken; [apply report_spec|]. cbn beta. intros l r [-> ->]. split; [done|]. exact (not_sent f address e Hs).
- assert (Hno : forall e, (forall resp id, a = Ok resp -> ~ valid_answer resp id) ->
    trace_spec (report (Env := Env) e) (fun l r => r = Ok tt /\ saga f address
      (calls ([Create (buyer f) stroops (dueDateTimestamp f) (asset f) a] ++ l))
      (apply_update (replay (setError f None) ([Create (buyer f) stroops (dueDateTimestamp f) (asset f) a] ++ l)) (SetListing false)))).
  { intros e Hv. eapply trace_weaken; [apply report_spec|]. cbn beta. intros l r [-> ->].
    split; [done|]. exact (refused f address stroops a _ Hs Hv). }
  destruct a as [resp|e]; cbn [mbind result_bind]; [|by apply Hno].
  destruct (member resp "invoice_id") as [v|e] eqn:Hm; cbn [mbind result_bind];
    [|apply Hno; intros ? id [= <-] (v & Hv & _); congruence].
  destruct (truthy v) eqn:Hv; cbn [negb];
    [|apply Hno; intros ? id [= <-] (v' & Hv' & ? & _); congruence].
  destruct (truthy (field resp "transaction_hash")) eqn:Hh; cbn [negb];
    [|apply Hno; intros ? id [= <-] (v' & Hv' & _ & _ & ?); congruence].
  assert (Hval : valid_answer resp (to_str v)) by (by exists v).
  destruct (immediateList f) eqn:Hi.
  + eapply trace_weaken; [by eapply list_or_take_back|]. cbn beta. intros l r [-> H]. by split.
  + eapply trace_weaken; [apply created_ok_spec|]. cbn beta. intros l r [-> (d & Hc & Hr)].
    split; [done|]. cbn [app]. change (calls (?e :: ?k)) with (e :: calls k). rewrite Hc.
    change (replay ?g (?e :: ?k)) with (replay g k). rewrite Hr by done. exact (created_only f address _ _ _ d Hs Hval Hi).
Qed.

Lemma valid_answer_inj resp id id' : valid_answer resp id -> valid_answer resp id' -> id = id'.
Proof. intros (v & Hv & _ & -> & _) (v' & Hv' & _ & -> & _). congruence. Qed.

Definition is_create (e : FormEv) : bool := match e with Create _ _ _ _ _ => true | _ => false end.

(** The calls after the creation of invoice [id] list it, after a simulation that
    succeeded, or ask once for its cancellation, unless the request cannot be formed. *)
Definition settled (f : InvoiceForm) (address : option string) (id : string) (c : list FormEv) (g : InvoiceForm) : Prop :=
(exists a b d, address = Some a /\ g = finished f d /\
   c = [Simulate id (discountBps f) a (Ok tt); List id (discountBps f) (Ok b); Done d]) \/
((forall i d b, List i d (Ok b) ∉ c) /\ (exists m, g = failed f m) /\
 ((exists rq r, Cancel (Fetched rq r) ∈ c /\ cancel_request id rq) \/
  exists m t, Console m id (JErr CTypeError t []) ∈ c)).

Lemma taken_back_settles f address id m c n pre :
taken_back id m c n -> (forall i d b, List i d (Ok b) ∉ pre) -> settled f address id (pre ++ c) (failed f n).
Proof.
intros Ht Hpre. right. split; [|split; [by exists n|]].
- intros i d b [?%Hpre|Hc]%elem_of_app; [done|]. destruct Ht; set_unfold in Hc; naive_solver.
- destruct Ht as [rq r v Hrq _|rq r e Hrq _|e [t ->]].
  + left. exists rq, r. split; [set_solver|done].
  + left. exists rq, r. split; [set_solver|done].
  + right. eexists _, t. apply elem_of_app. right. constructor.
Qed.

Lemma saga_settles f address c g b s d a resp id :
saga f address (Create b s d a (Ok resp) :: c) g -> immediateList f = true -> valid_answer resp id ->
settled f address id c g.
Proof.
intros Hs Hi Hv.
inversion Hs as [|? ? m _ Hr|? ? ? ? _ _ Hi'|? ? id' ? ? ? _ Hv' _ ? Hne
  |? ? id' ? m _ Hv' _ Ha Ht|? ? id' a' e ? m _ Hv' _ ? Hne Ht|? ? id' a' e ? m _ Hv' _ ? Hne Ht]; subst;
  try (rewrite (valid_answer_inj _ _ _ Hv Hv')).
- by destruct (Hr resp id).
- congruence.
- left. by repeat eexists.
- apply (taken_back_settles _ _ _ _ _ _ [] Ht). set_solver.
- apply (taken_back_settles _ _ _ _ _ _ [_] Ht). set_solver.
- apply (taken_back_settles _ _ _ _ _ _ [_; _] Ht). set_solver.
Qed.

Lemma saga_one_creation f address c g : saga f address c g -> (length (List.filter is_create c) <= 1)%nat.
Proof. intros []; cbn; try lia; match goal with H : taken_back _ _ _ _ |- _ => destruct H end; cbn; lia. Qed.
End Outcomes.

(** ** The terms that reach the second step *)

(** A face value typed with grouping commas and at most seven decimals is created with its
    stroops, or one stroop less. *)
Lemma face_value_within_a_stroop f ip fp N (Hip : Str.all Str.is_digit ip = true) (Hip0 : ip <> "")
  (Hfp : Str.all Str.is_digit fp = true) (Hd : (Str.len fp <= 7)%nat) :
  Str.remove_char ","%char (faceValue f) = usdc_literal false ip fp ->
  fromUsdc (usdc_literal false ip fp) = Ok N -> 0 < N < 2 ^ 50 ->
  Num.leb (parsedValue f) Num.zero = false /\
  exists z, bigint_of_num (Num.floor (Num.mul (parsedValue f) (Num.of_Z 10000000))) = Ok z /\ N - 1 <= z <= N.
Proof.
  intros Ht HN Hb. destruct (float_stroops ip fp Hip Hip0 Hfp Hd N HN Hb) as [(_ & Hl & Htr) Hz].
  unfold parsedValue. rewrite Ht, parse_float_literal by done. by rewrite Htr.
Qed.

(** Midnight UTC and midnights of a zone [h] hours behind it. *)
Definition zone_midnight (h : Z) (now k : Z) : Z :=
((now - h * 3600000) / Date.ms_per_day + k) * Date.ms_per_day + h * 3600000.

(** The date test on exact times. *)
Lemma date_tests_exact d today lo hi :
Z.abs d < 2 ^ 53 -> Z.abs today < 2 ^ 53 -> Z.abs lo < 2 ^ 53 -> Z.abs hi < 2 ^ 53 ->
Num.leb (Num.of_Z d) (Num.of_Z today) = (d <=? today) /\
Num.ltb (Num.of_Z d) (Num.of_Z lo) = (d <? lo) /\ Num.gtb (Num.of_Z d) (Num.of_Z hi) = (hi <? d).
Proof. intros. unfold Num.gtb. fold (Num.ltb (Num.of_Z hi) (Num.of_Z d)). by rewrite of_Z_leb, !of_Z_ltb. Qed.

(** The first step is left exactly when the trimmed buyer is an account, the value
    is positive and the due date lies from the seventh to the 365th local day from
    today; a rejected form shows an error and keeps every term but the buyer, which is
    stored trimmed once it is an account. *)
Theorem handleNextStep_accepts valid startOfDay now f d :
step f = 1 -> Date.parse (dueDate f) = Num.of_Z d -> Z.abs d < 2 ^ 53 ->
(forall k, 0 <= k <= 365 -> Z.abs (startOfDay now k) < 2 ^ 53) ->
startOfDay now 0 < startOfDay now 7 ->
let g := handleNextStep valid startOfDay now f in
let ok := Str.trim (buyer f) <> "" /\ valid (Str.trim (buyer f)) = true /\
          Num.leb (parsedValue f) Num.zero = false /\ startOfDay now 7 <= d <= startOfDay now 365 in
(ok -> g = setStep (setBuyer (setError f None) (Str.trim (buyer f))) 2) /\
(~ ok -> step g = 1 /\ error g <> None /\ (buyer g = buyer f \/ valid (buyer g) = true) /\
   faceValue g = faceValue f /\ dueDate g = dueDate f /\ discountBps g = discountBps f /\ asset g = asset f).
Proof.
intros Hf Hd Hd53 Hs H7 g ok. subst g. unfold handleNextStep. cbn [buyer setError].
assert (dueDate f <> "") as Hne.
{ intros He. rewrite He in Hd. change (Date.parse "") with Num.nan in Hd.
  pose proof (of_Z_exact d ltac:(lia)) as Hz. by rewrite <- Hd in Hz. }
destruct (date_tests_exact d _ _ _ Hd53 (Hs 0 ltac:(lia)) (Hs 7 ltac:(lia)) (Hs 365 ltac:(lia))) as (T0 & T7 & T365).
destruct (String.eqb_spec (Str.trim (buyer f)) "") as [Hb|Hb]; cbn [orb];
  [split; [by intros []|by rewrite <- Hf; repeat split; eauto]|].
destruct (valid (Str.trim (buyer f))) eqn:Hv; cbn [negb];
  [|split; [by intros (_ & ? & _)|by rewrite <- Hf; repeat split; eauto]].
change (parsedValue (setBuyer _ _)) with (parsedValue f). change (dueDate (setBuyer _ _)) with (dueDate f).
destruct (Num.leb (parsedValue f) Num.zero) eqn:Hp;
  [split; [by intros (_ & _ & ? & _)|by rewrite <- Hf; repeat split; eauto]|].
destruct (String.eqb_spec (dueDate f) "") as [?|_]; [done|].
rewrite Hd, T0, T7, T365.
destruct (Z.leb_spec d (startOfDay now 0)), (Z.ltb_spec d (startOfDay now 7)), (Z.ltb_spec (startOfDay now 365) d);
  (split; [intros (_ & _ & _ & ?); first [lia|done]
          |first [by rewrite <- Hf; repeat split; eauto|intros Hno; exfalso; apply Hno; repeat split; done]]).
Qed.

(** Due dates are read as midnight UTC and compared with local midnights, so the
    seventh day is accepted in a zone at UTC and refused in one behind it. *)
Definition seventh_day_form : InvoiceForm :=
  {| buyer := "G"; faceValue := "1,000.50"; asset := USDC; dueDate := "2024-03-08"; discountBps := Num.of_Z 200;
     immediateList := true; error := None; step := 1; isListing := false |}.

Lemma seventh_day_rejected_west_of_utc :
let now := 1709294400000 (* 2024-03-01T12:00:00Z *) in
let next zone := handleNextStep (fun _ => true) (zone_midnight zone) now seventh_day_form in
Date.parse (dueDate seventh_day_form) = Num.of_Z (zone_midnight 0 now 7) /\
step (next 0) = 2 /\ step (next 5) = 1 /\
error (next 5) = Some "Due date must be at least 7 days from today".
Proof. vm_compute. repeat split. Qed.

Lemma zone_range k : 0 <= k <= 365 -> Z.abs (zone_midnight 0 1709294400000 k) < 2 ^ 53.
Proof.
intros Hk. unfold zone_midnight. change ((1709294400000 - 0 * 3600000) / Date.ms_per_day) with 19783.
unfold Date.ms_per_day. lia.
Qed.

Lemma handleNextStep_accepts_witness :
let now := 1709294400000 in
handleNextStep (fun _ => true) (zone_midnight 0) now seventh_day_form = setStep seventh_day_form 2.
Proof.
destruct (handleNextStep_accepts (fun _ => true) (zone_midnight 0) 1709294400000 seventh_day_form 1709856000000
  eq_refl eq_refl ltac:(lia) zone_range ltac:(reflexivity))
  as [Hok _].
apply Hok. repeat split; vm_compute; congruence.
Defined.

(** ** A submission *)
Section Settled.
Context {Env : Type} {A : FormActions Env} {B : Backend Env} {zod : Zod}.

(** C19: every submission ends in one of the outcomes of [saga]: the exact calls made to
    the hooks and to the API with their arguments, and the form they leave; nothing is
    thrown to the caller and the busy flag is always cleared. *)
Theorem handleCreate_outcomes f address env :
let '(r, l) := run (handleCreate f address) env in
r = Ok tt /\ isListing (replay f l) = false /\ saga f address (calls l) (replay f l).
Proof.
pose proof (trace_run _ _ env (handleCreate_saga f address)) as [Hr Hs].
destruct (run (handleCreate f address) env) as [r l]. cbn [fst snd] in *. split; [done|]. split; [|done].
by destruct Hs.
Qed.

(** At most one invoice is created per submission; one that is created to be listed
    is listed with the chosen discount after a simulation that succeeded, with nothing
    cancelled, or its cancellation is requested once and the terms are kept with an
    error. *)
Theorem created_invoice_settled f address env :
let l := (run (handleCreate f address) env).2 in
(length (List.filter is_create (calls l)) <= 1)%nat /\
(immediateList f = true -> forall b s d a resp c id,
   calls l = Create b s d a (Ok resp) :: c -> valid_answer resp id -> settled f address id c (replay f l)).
Proof.
pose proof (trace_run _ _ env (handleCreate_saga f address)) as [_ Hs]. cbn zeta. split.
- by eapply saga_one_creation.
- intros Hi b s d a resp c id Hc Hv. rewrite Hc in Hs. by eapply saga_settles.
Qed.
End Settled.

(** A server that creates the invoice, and a wallet whose listing may fail. *)
Module MockForm.
Record env := { answer : res jsval; simulates : res (); lists : res bool; patches : list (Z * string) }.
Definition actions : FormActions env := {|
  act_create := fun _ _ _ _ e => (answer e, e);
  act_simulate := fun _ _ _ e => (simulates e, e);
  act_list := fun _ _ e => (lists e, e);
  act_success := fun e => (Ok tt, e) |}.
Definition backend : Backend env := {|
  http := fun rq e => match patches e with
                      | (st, body) :: rest => (Ok {| r_status := st; r_text := Ok body |},
                          {| answer := answer e; simulates := simulates e; lists := lists e; patches := rest |})
                      | [] => (Throw (JErr CTypeError "fetch failed" []), e)
                      end;
  wallet_token := fun _ => Some "t";
  env_api_base_url := Some "http://api" |}.
Definition created (hash : bool) : res jsval :=
Ok (JObj (("invoice_id", JStr "ab") :: (if hash then [("transaction_hash", JStr "ff")] else []))).
End MockForm.

Section FormExamples.
#[local] Existing Instance RefZod.ref_zod.
#[local] Existing Instance MockForm.actions.
#[local] Existing Instance MockForm.backend.

Definition submit (e : MockForm.env) : list FormEv * option string :=
let l := (run (handleCreate seventh_day_form (Some "GA")) e).2 in (calls l, error (replay seventh_day_form l)).

Example listing_succeeds :
(submit {| MockForm.answer := MockForm.created true; MockForm.simulates := Ok tt; MockForm.lists := Ok true;
           MockForm.patches := [] |}).2 = None.
Proof. vm_compute. reflexivity. Qed.

Example listing_rejected :
let '(l, e) := submit {| MockForm.answer := MockForm.created true; MockForm.simulates := Ok tt;
  MockForm.lists := Throw (mk_error "rejected"); MockForm.patches := [(200, "{}")] |} in
e = Some "rejected. The created invoice was cancelled and will not remain pending listing." /\ length l = 4%nat.
Proof. vm_compute. split; reflexivity. Qed.

(** An answer without a transaction hash leaves the created invoice neither listed nor
    cancelled. *)
Lemma created_without_hash_is_left :
let '(l, e) := submit {| MockForm.answer := MockForm.created false; MockForm.simulates := Ok tt;
  MockForm.lists := Ok true; MockForm.patches := [(200, "{}")] |} in
l = [Create "G" "10005000000" (Num.of_Z 1709856000) USDC (MockForm.created false)] /\
e = Some "Invoice creation did not return a transaction hash".
Proof. vm_compute. split; reflexivity. Qed.
End FormExamples.
