(* ===== verification/Marketplace.v ===== *)
(** * The marketplace page ([apps/web/app/marketplace/page.tsx])

    The filters of the page and their cache, the filtered and sorted rows, and the saved
    presets of each wallet.  A preset is whatever JSON value the cache holds; the presets
    of the page are a state machine over [localStorage] whose effects run in the order of
    the source with the values of the render they belong to. *)

From S2P Require Import Prelude JsNumber JsString JsValue JsJson JsonRoundTrip SdkTypes Schemas Storage.
Import RoundTrip.
Local Open Scope Z_scope.

Definition MARKETPLACE_FILTERS_KEY : string := "trusttrove:marketplace:filters".
Definition MARKETPLACE_PRESETS_KEY : string := "trusttrove:marketplace:presets".

Definition parseFilterStroops (value : jsval) : res (option Z) :=
  match value with
  | JStr s =>
      if String.eqb (Str.trim s) "" then Ok None
      else
        let parsed := Str.parse_float s in
        if negb (Num.is_finite parsed) || Num.ltb parsed Num.zero then Ok None
        else
          let stroops := Num.round (Num.mul parsed (Num.of_Z 10000000)) in
          if negb (Num.is_finite stroops) then Ok None
          else Some <$> bigint_of_num stroops
  | _ => type_error "value.trim is not a function"
  end.

(** ** The filters and their cache *)
Record MarketplaceFilters := {
  statusFilter : jsval; minAmount : jsval; maxAmount : jsval; maxDiscount : jsval }.
Definition default_filters : MarketplaceFilters :=
  {| statusFilter := JStr "Listed"; minAmount := JStr ""; maxAmount := JStr ""; maxDiscount := JStr "500" |}.

Definition readFiltersFromStorage (s : storage) : option MarketplaceFilters :=
  match getItem s MARKETPLACE_FILTERS_KEY with
  | Ok (Some stored) =>
      if String.eqb stored "" then None
      else match Json.parse stored with
           | Ok parsed =>
               if is_nullish parsed then None
               else Some {| statusFilter := js_nullish (field parsed "statusFilter") (JStr "Listed");
                            minAmount := js_nullish (field parsed "minAmount") (JStr "");
                            maxAmount := js_nullish (field parsed "maxAmount") (JStr "");
                            maxDiscount := js_nullish (field parsed "maxDiscount") (JStr "500") |}
           | Throw _ => None
           end
  | _ => None
  end.

Definition filters_value (f : MarketplaceFilters) : jsval :=
  JObj [("statusFilter", statusFilter f); ("minAmount", minAmount f);
        ("maxAmount", maxAmount f); ("maxDiscount", maxDiscount f)].

Definition writeFiltersToStorage (s : storage) (f : MarketplaceFilters) : storage :=
  store_json s MARKETPLACE_FILTERS_KEY (filters_value f).

(** The four [useState] initialisers. *)
Definition initial_filters (s : storage) : MarketplaceFilters :=
  default default_filters (readFiltersFromStorage s).

(** The query of [useInvoiceList]. *)
Definition status_query (f : MarketplaceFilters) : option jsval :=
  match statusFilter f with JStr s => if String.eqb s "ALL" then None else Some (JStr s) | v => Some v end.

(** ** The rows shown *)
Definition by_min (f : MarketplaceFilters) (l : list Invoice) : res (list Invoice) :=
  m ← parseFilterStroops (minAmount f);
  Ok (match m with Some z => List.filter (fun inv => z <=? inv_faceValue inv) l | None => l end).
Definition by_max (f : MarketplaceFilters) (l : list Invoice) : res (list Invoice) :=
  m ← parseFilterStroops (maxAmount f);
  Ok (match m with Some z => List.filter (fun inv => inv_faceValue inv <=? z) l | None => l end).
Definition by_discount (f : MarketplaceFilters) (l : list Invoice) : list Invoice :=
  let discBps := Str.parse_int (to_str (maxDiscount f)) in
  if Num.is_nan discBps then l else List.filter (fun inv => Num.leb (inv_discountBps inv) discBps) l.
Definition by_face_value : list Invoice -> list Invoice :=
  sort_by (fun b a => inv_faceValue b <? inv_faceValue a).

Definition filteredAndSortedInvoices (invoices : list Invoice) (f : MarketplaceFilters) : res (list Invoice) :=
  result ← by_min f invoices;
  result ← by_max f result;
  Ok (by_face_value (by_discount f result)).

(** [handleSelectionChange] and the invoices compared. *)
Definition handleSelectionChange (ids : list string) : list string := take 4 ids.
Definition selectedInvoices (rows : list Invoice) (ids : list string) : list Invoice :=
  List.filter (fun inv => existsb (String.eqb (inv_id inv)) ids) rows.

(** ** Paging and selection of a row *)
Record Browse := {
  filters : MarketplaceFilters; invoicePage : num; invoiceLimit : num; selectedInvoice : option Invoice }.
Inductive BrowseEv :=
  | FilterChange (f : MarketplaceFilters)
  | PageChange (page : num)
  | LimitChange (limit : num)
  | SelectInvoice (inv : option Invoice).
(** The first render persists the filters it started from. *)
Definition initial_browse (s : storage) : storage * Browse :=
  (writeFiltersToStorage s (initial_filters s),
   {| filters := initial_filters s; invoicePage := Num.of_Z 1; invoiceLimit := Num.of_Z 20; selectedInvoice := None |}).

(** A change of the filters to other values runs the effects that persist them, go back
    to the first page and drop the selection. *)
Definition browse_step (sb : storage * Browse) (e : BrowseEv) : storage * Browse :=
  let '(s, b) := sb in
  match e with
  | FilterChange f => (writeFiltersToStorage s f,
      {| filters := f; invoicePage := Num.of_Z 1; invoiceLimit := invoiceLimit b; selectedInvoice := None |})
  | PageChange p => (s,
      {| filters := filters b; invoicePage := p; invoiceLimit := invoiceLimit b; selectedInvoice := None |})
  | LimitChange l => (s,
      {| filters := filters b; invoicePage := Num.of_Z 1; invoiceLimit := l; selectedInvoice := None |})
  | SelectInvoice i => (s,
      {| filters := filters b; invoicePage := invoicePage b; invoiceLimit := invoiceLimit b; selectedInvoice := i |})
  end.

(** ** Saved presets *)
Module Presets.
Definition key (address : option string) : string :=
  if opt_str_truthy address then MARKETPLACE_PRESETS_KEY +:+ "_" +:+ default "" address
  else MARKETPLACE_PRESETS_KEY.

Definition readPresetsFromStorage (s : storage) (address : option string) : list jsval :=
  match getItem s (key address) with
  | Ok (Some stored) =>
      if String.eqb stored "" then []
      else match Json.parse stored with Ok (JArr l) => l | _ => [] end
  | _ => []
  end.
Definition writePresetsToStorage (s : storage) (presets : list jsval) (address : option string) : storage :=
  store_json s (key address) (JArr presets).

Record state := {
  store : storage; address : option string; presets : list jsval; loadedPresetAddress : option string;
  newPresetName : string; editingPresetId : option string; editingPresetName : string; alerts : nat }.

Definition with_store (st : state) (s : storage) : state :=
  {| store := s; address := address st; presets := presets st; loadedPresetAddress := loadedPresetAddress st;
     newPresetName := newPresetName st; editingPresetId := editingPresetId st;
     editingPresetName := editingPresetName st; alerts := alerts st |}.
Definition with_presets (st : state) (l : list jsval) : state :=
  {| store := store st; address := address st; presets := l; loadedPresetAddress := loadedPresetAddress st;
     newPresetName := newPresetName st; editingPresetId := editingPresetId st;
     editingPresetName := editingPresetName st; alerts := alerts st |}.
Definition with_names (st : state) (new : string) (id : option string) (editing : string) : state :=
  {| store := store st; address := address st; presets := presets st; loadedPresetAddress := loadedPresetAddress st;
     newPresetName := new; editingPresetId := id; editingPresetName := editing; alerts := alerts st |}.

(** The effect that persists, with the values of the render [st]. *)
Definition persist (st : state) : state :=
  if bool_decide (loadedPresetAddress st = address st)
  then with_store st (writePresetsToStorage (store st) (presets st) (address st))
  else st.

(** The effects of the first render with an address: the presets are read again (the
    update waits for the next render), the old ones are persisted if the gate is open, and
    the next render persists what was read. *)
Definition on_address (st : state) : state :=
  let read := readPresetsFromStorage (store st) (address st) in
  let st := persist st in
  persist {| store := store st; address := address st; presets := read; loadedPresetAddress := address st;
             newPresetName := newPresetName st; editingPresetId := editingPresetId st;
             editingPresetName := editingPresetName st; alerts := alerts st |}.

Definition mount (s : storage) (a : option string) : state :=
  on_address {| store := s; address := a; presets := readPresetsFromStorage s a; loadedPresetAddress := a;
                newPresetName := ""; editingPresetId := None; editingPresetName := ""; alerts := 0 |}.

(** [setPresets] with a new array, and the effect of the render that follows. *)
Definition setPresets (st : state) (l : list jsval) : state := persist (with_presets st l).

Definition new_preset (st : state) (f : MarketplaceFilters) (now : Z) : jsval :=
  JObj [("name", JStr (Str.trim (newPresetName st))); ("filters", filters_value f);
        ("createdAt", JNum (Num.of_Z now))].
Definition savePreset (st : state) (f : MarketplaceFilters) (now : Z) : state :=
  if String.eqb (Str.trim (newPresetName st)) "" then st
  else if (10 <=? length (presets st))%nat then
    {| store := store st; address := address st; presets := presets st;
       loadedPresetAddress := loadedPresetAddress st; newPresetName := newPresetName st;
       editingPresetId := editingPresetId st; editingPresetName := editingPresetName st; alerts := S (alerts st) |}
  else setPresets (with_names st "" (editingPresetId st) (editingPresetName st))
         (presets st ++ [new_preset st f now]).

Definition index_id (i : nat) : string := Num.bigint_to_string (Z.of_nat i).
(** [presets.filter((_, index) => index.toString() !== id)]. *)
Fixpoint drop_id (l : list jsval) (i : nat) (id : string) : list jsval :=
  match l with
  | [] => []
  | p :: r => if String.eqb (index_id i) id then drop_id r (S i) id else p :: drop_id r (S i) id
  end.
Definition deletePreset (st : state) (id : string) : state := setPresets st (drop_id (presets st) 0 id).

Definition startEditingPreset (st : state) (id name : string) : state :=
  with_names st (newPresetName st) (Some id) name.
(** [{ ...p, name }]. *)
Definition renamed (name : string) (p : jsval) : jsval := JObj (set (own_fields p) "name" (JStr name)).
Definition saveEditedPreset (st : state) (id : string) : state :=
  let name := Str.trim (editingPresetName st) in
  if String.eqb name "" then st
  else setPresets (with_names st (newPresetName st) None "")
         (imap (fun i p => if String.eqb (index_id i) id then renamed name p else p) (presets st)).

Inductive event :=
  | SetAddress (a : option string)
  | TypeName (s : string)
  | TypeEditing (s : string)
  | Save (f : MarketplaceFilters) (now : Z)
  | Delete (id : string)
  | StartEditing (id name : string)
  | SaveEdited (id : string).

Definition step (st : state) (e : event) : state :=
  match e with
  | SetAddress a =>
      if bool_decide (a = address st) then st
      else on_address {| store := store st; address := a; presets := presets st;
             loadedPresetAddress := loadedPresetAddress st; newPresetName := newPresetName st;
             editingPresetId := editingPresetId st; editingPresetName := editingPresetName st; alerts := alerts st |}
  | TypeName s => with_names st s (editingPresetId st) (editingPresetName st)
  | TypeEditing s => with_names st (newPresetName st) (editingPresetId st) s
  | Save f now => savePreset st f now
  | Delete id => deletePreset st id
  | StartEditing id name => startEditingPreset st id name
  | SaveEdited id => saveEditedPreset st id
  end.
Definition run (st : state) (es : list event) : state := foldl step st es.
End Presets.

(** [applyPreset]. *)
Definition applyPreset (preset : jsval) : res MarketplaceFilters :=
  f ← member preset "filters";
  a ← member f "statusFilter"; b ← member f "minAmount"; c ← member f "maxAmount"; d ← member f "maxDiscount";
  Ok {| statusFilter := a; minAmount := b; maxAmount := c; maxDiscount := d |}.

(** ** Properties of the filters *)
Lemma round_bigint n : Num.is_finite (Num.round n) = true -> exists z, bigint_of_num (Num.round n) = Ok z.
Proof. intros [z Hz]%round_integral. exists z. unfold bigint_of_num. by rewrite Hz. Qed.

(** A filter typed into a field never makes [BigInt] throw, and is never negative. *)
Lemma parseFilterStroops_total s : exists m, parseFilterStroops (JStr s) = Ok m.
Proof.
  unfold parseFilterStroops. destruct (String.eqb _ _); [by eexists|].
  destruct (_ || _); [by eexists|].
  set (n := Num.mul _ _). destruct (Num.is_finite (Num.round n)) eqn:Hf; cbn [negb]; [|by eexists].
  destruct (round_bigint n Hf) as [z Hz]. rewrite Hz. by eexists.
Qed.

Definition in_range (lo hi : option Z) (disc : num) (inv : Invoice) : bool :=
  match lo with Some z => z <=? inv_faceValue inv | None => true end &&
  (match hi with Some z => inv_faceValue inv <=? z | None => true end &&
   (Num.is_nan disc || Num.leb (inv_discountBps inv) disc)).

Lemma filter_and {A} (p q : A -> bool) l :
  List.filter q (List.filter p l) = List.filter (fun x => p x && q x) l.
Proof. induction l as [|x l IH]; cbn; [done|]. destruct (p x); cbn; [destruct (q x)|]; by rewrite IH. Qed.
Lemma filter_true {A} (l : list A) : List.filter (fun _ => true) l = l.
Proof. induction l as [|x l IH]; cbn; [done|by rewrite IH]. Qed.
Lemma filter_option {A B} (m : option A) (p : A -> B -> bool) l :
  match m with Some z => List.filter (p z) l | None => l end =
  List.filter (fun x => match m with Some z => p z x | None => true end) l.
Proof. destruct m; [done|by rewrite filter_true]. Qed.

(** C23: whatever is typed into the filters, the page shows exactly the rows in the
    range, by descending face value, rows of equal value in the order received. *)
Theorem filteredAndSorted_spec invoices st lo hi disc :
  let f := {| statusFilter := st; minAmount := JStr lo; maxAmount := JStr hi; maxDiscount := JStr disc |} in
  exists zlo zhi rows, parseFilterStroops (JStr lo) = Ok zlo /\ parseFilterStroops (JStr hi) = Ok zhi /\
    filteredAndSortedInvoices invoices f = Ok rows /\
    let kept := List.filter (in_range zlo zhi (Str.parse_int disc)) invoices in
    rows ≡ₚ kept /\ StronglySorted (fun a b => inv_faceValue b <= inv_faceValue a) rows /\
    forall v, List.filter (fun i => inv_faceValue i =? v) rows = List.filter (fun i => inv_faceValue i =? v) kept.
Proof.
  intros f. destruct (parseFilterStroops_total lo) as [zlo Hlo], (parseFilterStroops_total hi) as [zhi Hhi].
  set (kept := List.filter (in_range zlo zhi (Str.parse_int disc)) invoices).
  exists zlo, zhi, (by_face_value kept). split; [done|]. split; [done|]. split.
  - unfold filteredAndSortedInvoices, by_min, by_max. cbn [minAmount maxAmount f].
    rewrite Hlo, Hhi. cbn. do 2 f_equal. unfold by_discount. cbn [maxDiscount to_str f].
    rewrite !filter_option.
    assert (Hd : forall l, (if Num.is_nan (Str.parse_int disc) then l else
        List.filter (fun inv => Num.leb (inv_discountBps inv) (Str.parse_int disc)) l) =
      List.filter (fun inv => Num.is_nan (Str.parse_int disc) || Num.leb (inv_discountBps inv) (Str.parse_int disc)) l).
    { intros l. destruct (Num.is_nan _); [by rewrite filter_true|done]. }
    rewrite Hd, !filter_and. apply filter_ext. intros x. unfold in_range. by rewrite andb_assoc.
  - split; [apply sort_by_perm|]. split; [apply sort_key_sorted|]. intros v. apply sort_key_stable.
Qed.

(** ** The cache *)
(** The filters a reload starts from are the ones last persisted. *)
Theorem filters_survive_reload s st lo hi disc :
  available s ->
  let f := {| statusFilter := JStr st; minAmount := JStr lo; maxAmount := JStr hi; maxDiscount := JStr disc |} in
  initial_filters (writeFiltersToStorage s f) = f.
Proof.
  intros Ha f. unfold initial_filters, readFiltersFromStorage, getItem.
  destruct (store_json_lookup s MARKETPLACE_FILTERS_KEY (filters_value f) Ha) as (t & Ht & Hne & Hp); [reflexivity|].
  pose proof (store_json_available s MARKETPLACE_FILTERS_KEY (filters_value f) Ha) as [Hr _].
  unfold writeFiltersToStorage. rewrite Hr, Ht. destruct (String.eqb_spec t ""); [done|]. by rewrite Hp.
Qed.

(** ** Presets of each wallet *)
Module PresetFacts.
Import Presets.

(** A preset is an object that survives the cache. *)
Definition preset_ok (p : jsval) : bool := match p with JObj _ => storable p | _ => false end.
Lemma presets_storable l : forallb preset_ok l = true -> storable (JArr l) = true.
Proof.
  cbn [storable]. induction l as [|p l IH]; [done|]. cbn. intros [Hp Hl]%andb_prop.
  rewrite IH by done. by destruct p; try discriminate Hp; cbn in Hp |- *; rewrite Hp.
Qed.

Lemma read_write s l a : available s -> forallb preset_ok l = true ->
  readPresetsFromStorage (writePresetsToStorage s l a) a = l.
Proof.
  intros Ha Hl. unfold readPresetsFromStorage, writePresetsToStorage, getItem.
  destruct (store_json_lookup s (key a) (JArr l) Ha (presets_storable l Hl)) as (t & Ht & Hne & Hp).
  destruct (store_json_available s (key a) (JArr l) Ha) as [Hr _]. rewrite Hr, Ht.
  destruct (String.eqb_spec t ""); [done|]. by rewrite Hp.
Qed.
Lemma read_write_other s l a b : available s -> key a <> key b ->
  readPresetsFromStorage (writePresetsToStorage s l a) b = readPresetsFromStorage s b.
Proof.
  intros Ha Hne. unfold readPresetsFromStorage, writePresetsToStorage, getItem.
  rewrite store_json_other by done. destruct (store_json_available s (key a) (JArr l) Ha) as [-> _].
  by destruct Ha as [-> _].
Qed.
Lemma read_key s a b : key a = key b -> readPresetsFromStorage s a = readPresetsFromStorage s b.
Proof. intros H. unfold readPresetsFromStorage. by rewrite H. Qed.

(** Between events the presets shown are those stored for the connected wallet. *)
Record settled (st : state) : Prop := {
  s_available : available (store st);
  s_gate : loadedPresetAddress st = address st;
  s_shown : readPresetsFromStorage (store st) (address st) = presets st;
  s_stored : forall b, forallb preset_ok (readPresetsFromStorage (store st) b) = true }.

(** The same state but for the preset lists, ready to be persisted. *)
Lemma persist_settled st : available (store st) -> loadedPresetAddress st = address st ->
  forallb preset_ok (presets st) = true ->
  (forall b, forallb preset_ok (readPresetsFromStorage (store st) b) = true) ->
  settled (persist st) /\ presets (persist st) = presets st /\ address (persist st) = address st /\
  forall b, key b <> key (address st) ->
    readPresetsFromStorage (store (persist st)) b = readPresetsFromStorage (store st) b.
Proof.
  intros Ha Hg Hp Hs. unfold persist. rewrite bool_decide_true by done.
  assert (Ho : forall b, key b <> key (address st) ->
    readPresetsFromStorage (writePresetsToStorage (store st) (presets st) (address st)) b =
    readPresetsFromStorage (store st) b) by (intros b Hb; by apply read_write_other).
  split; [constructor; cbn|done].
  - by apply store_json_available.
  - done.
  - by apply read_write.
  - intros b. destruct (decide (key b = key (address st))) as [Hb|Hb]; [|by rewrite Ho].
    by rewrite (read_key _ _ _ Hb), read_write.
Qed.

Lemma renamed_ok name p : preset_ok p = true -> preset_ok (renamed name p) = true.
Proof.
  destruct p; try done. unfold renamed. cbn [preset_ok storable own_fields].
  intros [Hnd%bool_decide_eq_true_1 Hf]%andb_prop. rewrite set_storable by done.
  rewrite bool_decide_true; [done|]. by apply set_NoDup.
Qed.

Definition event_ok (e : event) : Prop :=
  match e with Save f now => storable (filters_value f) = true /\ num_ok (Num.of_Z now) = true | _ => True end.

Lemma new_preset_ok st f now : storable (filters_value f) = true -> num_ok (Num.of_Z now) = true ->
  preset_ok (new_preset st f now) = true.
Proof.
  intros Hf Hn. change (preset_ok (new_preset st f now)) with
    (bool_decide (NoDup ["name"; "filters"; "createdAt"]) && (true && (storable (filters_value f) &&
      (num_ok (Num.of_Z now) && true)))).
  rewrite Hf, Hn. reflexivity.
Qed.

Lemma drop_id_ok l i id : forallb preset_ok l = true -> forallb preset_ok (drop_id l i id) = true.
Proof.
  revert i. induction l as [|p l IH]; intros i; [done|]. cbn. intros [Hp Hl]%andb_prop.
  destruct (String.eqb _ _); cbn; [|rewrite Hp]; by apply IH.
Qed.
Lemma rename_ok l n (f : nat -> bool) : forallb preset_ok l = true ->
  forallb preset_ok (imap (fun i p => if f i then renamed n p else p) l) = true.
Proof.
  revert f. induction l as [|p l IH]; intros f; [done|]. cbn. intros [Hp Hl]%andb_prop.
  apply andb_true_intro. split; [|exact (IH (fun i => f (S i)) Hl)]. destruct (f 0%nat); [by apply renamed_ok|done].
Qed.

Lemma setPresets_settled st l : settled st -> forallb preset_ok l = true ->
  settled (setPresets st l) /\ presets (setPresets st l) = l /\ address (setPresets st l) = address st /\
  forall b, key b <> key (address st) ->
    readPresetsFromStorage (store (setPresets st l)) b = readPresetsFromStorage (store st) b.
Proof. intros [Ha Hg Hp Hs] Hl. exact (persist_settled (with_presets st l) Ha Hg Hl Hs). Qed.

Lemma with_names_settled st a b c : settled st -> settled (with_names st a b c).
Proof. intros [? ? ? ?]. by constructor. Qed.

Lemma on_address_settled st : available (store st) ->
  (loadedPresetAddress st = address st -> readPresetsFromStorage (store st) (address st) = presets st) ->
  (forall b, forallb preset_ok (readPresetsFromStorage (store st) b) = true) ->
  let st' := on_address st in
  settled st' /\ address st' = address st /\ presets st' = readPresetsFromStorage (store st) (address st) /\
  forall b, key b <> key (address st) -> readPresetsFromStorage (store st') b = readPresetsFromStorage (store st) b.
Proof.
  intros Ha Hp Hs. cbn zeta. unfold on_address. set (read := readPresetsFromStorage (store st) (address st)).
  assert (H : address (persist st) = address st /\ available (store (persist st)) /\
    (forall b, forallb preset_ok (readPresetsFromStorage (store (persist st)) b) = true) /\
    forall b, key b <> key (address st) ->
      readPresetsFromStorage (store (persist st)) b = readPresetsFromStorage (store st) b).
  { destruct (decide (loadedPresetAddress st = address st)) as [Hg|Hg].
    - destruct (persist_settled st Ha Hg) as ([Ha' _ _ Hs'] & _ & ? & ?); [rewrite <- Hp by done; apply Hs|done|].
      by split; [|split; [|split]].
    - unfold persist. rewrite bool_decide_false by done. done. }
  destruct H as (Haddr & Ha' & Hs' & Ho).
  destruct (persist_settled {| store := store (persist st); address := address (persist st); presets := read;
    loadedPresetAddress := address (persist st); newPresetName := newPresetName (persist st);
    editingPresetId := editingPresetId (persist st); editingPresetName := editingPresetName (persist st);
    alerts := alerts (persist st) |} Ha' eq_refl (Hs _) Hs') as (Hst & Hpr & Had & Hoth).
  cbn [address presets store] in *. rewrite Haddr in *. split; [done|]. split; [done|]. split; [done|].
  intros b Hb. rewrite Hoth by done. by apply Ho.
Qed.

(** One event: the presets of the other wallets are untouched, and connecting a wallet
    shows its own. *)
Lemma step_settled st e : settled st -> event_ok e ->
  let st' := step st e in
  settled st' /\
  (forall b, key b <> key (address st') -> readPresetsFromStorage (store st') b = readPresetsFromStorage (store st) b) /\
  match e with
  | SetAddress a => address st' = a /\ presets st' = readPresetsFromStorage (store st) a
  | _ => address st' = address st
  end.
Proof.
  intros Hst He. pose proof Hst as [Ha Hg Hp Hs]. cbn zeta.
  assert (Hok : forallb preset_ok (presets st) = true) by (rewrite <- Hp; apply Hs).
  destruct e as [a|n|n|f now|id|id n|id]; cbn [step].
  - case_bool_decide as Hc; [subst a; by rewrite Hp|].
    destruct (on_address_settled {| store := store st; address := a; presets := presets st;
      loadedPresetAddress := loadedPresetAddress st; newPresetName := newPresetName st;
      editingPresetId := editingPresetId st; editingPresetName := editingPresetName st; alerts := alerts st |})
      as (H1 & H2 & H3 & H4); [done|cbn; congruence|done|]. cbn [address store] in *.
    split; [done|]. rewrite H2. by split.
  - split; [by apply with_names_settled|done].
  - split; [by apply with_names_settled|done].
  - unfold savePreset. destruct (String.eqb _ _); [done|]. destruct (_ <=? _)%nat; [split; [by constructor|done]|].
    destruct (setPresets_settled (with_names st "" (editingPresetId st) (editingPresetName st))
      (presets st ++ [new_preset st f now])) as (H1 & _ & H3 & H4); [by apply with_names_settled| |].
    { rewrite forallb_app, Hok. cbn [forallb]. by rewrite new_preset_ok by apply He. }
    rewrite H3. done.
  - destruct (setPresets_settled st (drop_id (presets st) 0 id)) as (H1 & _ & H3 & H4);
      [done|by apply drop_id_ok|]. cbn [deletePreset]. unfold deletePreset. by rewrite H3.
  - split; [by apply with_names_settled|done].
  - unfold saveEditedPreset. destruct (String.eqb _ _); [done|].
    destruct (setPresets_settled (with_names st (newPresetName st) None "")
      (imap (fun i p => if String.eqb (index_id i) id then renamed (Str.trim (editingPresetName st)) p else p) (presets st)))
      as (H1 & _ & H3 & H4); [by apply with_names_settled|by apply rename_ok|]. by rewrite H3.
Qed.

Lemma run_settled es : forall st, settled st -> Forall event_ok es -> settled (run st es).
Proof.
  induction es as [|e es IH]; intros st Hst Hes; [done|]. apply list.Forall_cons in Hes as [He Hes].
  cbn. apply IH; [|done]. by apply step_settled.
Qed.

Definition avoids (k : string) (e : event) : Prop := match e with SetAddress c => key c <> k | _ => True end.

(** While another wallet is connected, the presets of [b] stay as they are. *)
Lemma run_other es : forall st b, settled st -> Forall event_ok es -> key (address st) <> key b ->
  Forall (avoids (key b)) es ->
  readPresetsFromStorage (store (run st es)) b = readPresetsFromStorage (store st) b.
Proof.
  induction es as [|e es IH]; intros st b Hst Hok Hb Hav; [done|].
  apply list.Forall_cons in Hok as [He Hok]. apply list.Forall_cons in Hav as [Hv Hav]. cbn.
  destruct (step_settled st e Hst He) as (Hst' & Ho & Hm).
  assert (Hb' : key (address (step st e)) <> key b).
  { destruct e; cbn in Hv; try by rewrite Hm. by destruct Hm as [-> _]. }
  change (foldl step (step st e) es) with (run (step st e) es). rewrite IH by done. apply Ho. done.
Qed.
End PresetFacts.

Section PresetTheorems.
Import Presets PresetFacts.

(** The wallet whose key is used: no address and an empty one share the anonymous key. *)
Definition wallet (a : option string) : option string := if opt_str_truthy a then a else None.

Lemma key_wallet a b : key a = key b <-> wallet a = wallet b.
Proof.
  unfold key, wallet.
  assert (Hinj : forall x y, MARKETPLACE_PRESETS_KEY +:+ "_" +:+ x = MARKETPLACE_PRESETS_KEY +:+ "_" +:+ y -> x = y).
  { intros x y H. by injection H. }
  assert (Hne : forall x, MARKETPLACE_PRESETS_KEY +:+ "_" +:+ x <> MARKETPLACE_PRESETS_KEY) by done.
  destruct (opt_str_truthy a) eqn:Ha, (opt_str_truthy b) eqn:Hb; split; intros H; try done;
    try (by apply Hne in H); try (symmetry in H; by apply Hne in H);
    try (subst; by apply opt_str_truthy_spec in Ha as (? & [=] & _));
    try (subst; by apply opt_str_truthy_spec in Hb as (? & [=] & _)).
  apply Hinj in H. apply opt_str_truthy_spec in Ha as (x & -> & _), Hb as (y & -> & _). cbn in H. congruence.
Qed.

Lemma mount_settled s a : available s -> (forall c, forallb preset_ok (readPresetsFromStorage s c) = true) ->
  settled (mount s a) /\ address (mount s a) = a /\ presets (mount s a) = readPresetsFromStorage s a.
Proof.
  intros Ha Hs. by destruct (on_address_settled {| store := s; address := a; presets := readPresetsFromStorage s a;
    loadedPresetAddress := a; newPresetName := ""; editingPresetId := None; editingPresetName := ""; alerts := 0 |})
    as (H1 & H2 & H3 & _).
Qed.

Definition elsewhere (a : option string) (e : event) : Prop :=
  match e with SetAddress c => wallet c <> wallet a | _ => True end.

(** C22: presets belong to a wallet: connecting another one shows that wallet's own, and
    whatever is saved, renamed or deleted meanwhile, coming back, or loading the page
    again, shows the presets that were left. *)
Theorem presets_survive_switching s a es b es'
  (Hs : available s) (Hstored : forall c, forallb preset_ok (readPresetsFromStorage s c) = true)
  (Hes : Forall event_ok es) (Hes' : Forall event_ok es') :
  let st := run (mount s a) es in
  let away := run (step st (SetAddress b)) es' in
  wallet b <> wallet (address st) -> Forall (elsewhere (address st)) es' ->
  presets (step st (SetAddress b)) = readPresetsFromStorage (store st) b /\
  presets (step away (SetAddress (address st))) = presets st /\
  presets (mount (store away) (address st)) = presets st.
Proof.
  intros st away Hb Hav. assert (Hst : settled st) by (apply run_settled; [by apply mount_settled|done]).
  destruct (step_settled st (SetAddress b) Hst I) as (Hst1 & Ho1 & Haddr & Hshow).
  assert (Haway : settled away) by (by apply run_settled).
  assert (Hkept : readPresetsFromStorage (store away) (address st) = presets st).
  { rewrite <- (s_shown _ Hst). unfold away. rewrite run_other.
    - apply Ho1. rewrite Haddr. rewrite key_wallet. congruence.
    - done.
    - done.
    - rewrite Haddr, key_wallet. congruence.
    - eapply List.Forall_impl; [|exact Hav]. intros [c| | | | | | ]; cbn; try done. by rewrite key_wallet. }
  split; [done|]. split.
  - destruct (step_settled away (SetAddress (address st)) Haway I) as (_ & _ & _ & ->). done.
  - destruct Haway as [Hav' _ _ Hst']. by destruct (mount_settled (store away) (address st) Hav' Hst') as (_ & _ & ->).
Qed.

(** ** Single operations *)
Lemma index_id_inj i j : index_id i = index_id j -> i = j.
Proof.
  unfold index_id, Num.bigint_to_string. intros H.
  destruct (Z.ltb_spec (Z.of_nat i) 0), (Z.ltb_spec (Z.of_nat j) 0); try lia.
  assert (Hd : Str.digits_val (Num.digits (Z.of_nat i)) = Str.digits_val (Num.digits (Z.of_nat j))) by (by rewrite H).
  rewrite !digits_val_digits in Hd by lia. lia.
Qed.

(** Deleting by the text of an index removes the preset at that index. *)
Lemma drop_id_delete l i k : drop_id l k (index_id (k + i)) = delete i l.
Proof.
  revert i k. induction l as [|p l IH]; intros i k; [done|]. cbn [drop_id].
  destruct i as [|i].
  - rewrite Nat.add_0_r, String.eqb_refl. cbn.
    assert (H : forall m n, (n < m)%nat -> drop_id l m (index_id n) = l).
    { clear. induction l as [|p l IH]; intros m n Hlt; [done|]. cbn.
      destruct (String.eqb_spec (index_id m) (index_id n)) as [He%index_id_inj|]; [lia|]. by rewrite IH by lia. }
    apply H. lia.
  - destruct (String.eqb_spec (index_id k) (index_id (k + S i))) as [He%index_id_inj|]; [lia|]. cbn.
    f_equal. replace (k + S i)%nat with (S k + i)%nat by lia. apply IH.
Qed.

Lemma drop_id_length l k id : (length (drop_id l k id) <= length l)%nat.
Proof.
  revert k. induction l as [|p l IH]; intros k; cbn; [lia|]. specialize (IH (S k)).
  destruct (String.eqb _ _); cbn; lia.
Qed.

Lemma presets_persist st : presets (persist st) = presets st.
Proof. unfold persist. by case_bool_decide. Qed.

(** saving refuses a blank name and an eleventh preset, and otherwise appends one
    with the trimmed name; deleting removes the preset at the index alone; renaming
    changes the name at that index only, and no edit makes the list longer than ten
    presets or than it was. *)
Theorem preset_operations st f now i name :
  (presets (savePreset st f now) =
     if negb (String.eqb (Str.trim (newPresetName st)) "") && (length (presets st) <? 10)%nat
     then presets st ++ [new_preset st f now] else presets st) /\
  presets (deletePreset st (index_id i)) = delete i (presets st) /\
  presets (saveEditedPreset (startEditingPreset st (index_id i) name) (index_id i)) =
     (if String.eqb (Str.trim name) "" then presets st else alter (renamed (Str.trim name)) i (presets st)) /\
  forall e, (forall a, e <> SetAddress a) -> (length (presets (step st e)) <= Nat.max 10 (length (presets st)))%nat.
Proof.
  assert (Hren : forall (g : jsval -> jsval) l, imap (fun j p => if String.eqb (index_id j) (index_id i) then g p else p) l =
    alter g i l).
  { intros g l. apply list_eq. intros j. rewrite list_lookup_imap.
    destruct (decide (i = j)) as [<-|Hne].
    - rewrite list_lookup_alter, decide_True by done. rewrite String.eqb_refl. by destruct (l !! i).
    - rewrite list_lookup_alter_ne by done.
      destruct (String.eqb_spec (index_id j) (index_id i)) as [He%index_id_inj|]; [congruence|]. by destruct (l !! j). }
  assert (Hsave : presets (savePreset st f now) =
     if negb (String.eqb (Str.trim (newPresetName st)) "") && (length (presets st) <? 10)%nat
     then presets st ++ [new_preset st f now] else presets st).
  { unfold savePreset. destruct (String.eqb _ _); [done|]. cbn [negb andb].
    destruct (Nat.leb_spec 10 (length (presets st))), (Nat.ltb_spec (length (presets st)) 10); try lia; [done|].
    unfold setPresets. by rewrite presets_persist. }
  split; [exact Hsave|]. split; [|split].
  - unfold deletePreset, setPresets. rewrite presets_persist. apply (drop_id_delete _ i 0).
  - unfold saveEditedPreset, startEditingPreset. cbn [editingPresetName with_names].
    destruct (String.eqb (Str.trim name) ""); [done|]. unfold setPresets. rewrite presets_persist. apply Hren.
  - intros e He. destruct e as [a|n|n|f' now'|id|id n|id]; cbn [step]; try apply Nat.le_max_r.
    + by destruct (He a).
    + unfold savePreset. destruct (String.eqb (Str.trim _) ""); [lia|].
      destruct (Nat.leb_spec 10 (length (presets st))); [cbn [presets]; lia|].
      unfold setPresets. rewrite presets_persist. cbn [presets with_presets with_names]. rewrite length_app. cbn [length]. lia.
    + unfold deletePreset, setPresets. rewrite presets_persist. cbn [presets with_presets with_names].
      pose proof (drop_id_length (presets st) 0 id). lia.
    + unfold saveEditedPreset. cbn zeta.
      destruct (String.eqb (Str.trim (editingPresetName st)) ""); [lia|]. unfold setPresets.
      rewrite presets_persist. cbn [presets with_presets with_names]. rewrite length_imap. lia.
Qed.
End PresetTheorems.

(** ** Witnesses *)
Definition typed_filters : MarketplaceFilters :=
  {| statusFilter := JStr "ALL"; minAmount := JStr "10.5"; maxAmount := JStr ""; maxDiscount := JStr "300" |}.

Lemma filters_survive_reload_witness :
  initial_filters (writeFiltersToStorage empty_storage typed_filters) = typed_filters.
Proof. exact (filters_survive_reload empty_storage "ALL" "10.5" "" "300" empty_available). Defined.

Example parseFilterStroops_values :
  parseFilterStroops (JStr "0.123456789") = Ok (Some 1234568) /\ parseFilterStroops (JStr "-1") = Ok None /\
  parseFilterStroops (JStr " ") = Ok None /\ parseFilterStroops (JStr "1e400") = Ok None /\
  parseFilterStroops (JStr "1e300") <> Ok None.
Proof. vm_compute. repeat split. congruence. Qed.

Section PresetWitness.
Import Presets PresetFacts.

Definition visit : list event := [TypeName " Cheap "; Save typed_filters 1700000000123].
Definition other_visit : list event :=
  [TypeName "Mine"; Save typed_filters 1700000000456; Delete "0"; SetAddress None; TypeName "anon"; Save typed_filters 1].

Lemma visit_ok : Forall event_ok visit.
Proof. repeat constructor; vm_compute; reflexivity. Qed.
Lemma other_visit_ok : Forall event_ok other_visit.
Proof. repeat constructor; vm_compute; reflexivity. Qed.

Lemma presets_survive_switching_witness :
  let st := run (mount empty_storage (Some "GA")) visit in
  length (presets st) = 1%nat /\
  presets (step (run (step st (SetAddress (Some "GB"))) other_visit) (SetAddress (Some "GA"))) = presets st.
Proof.
  cbn zeta. split; [vm_compute; reflexivity|].
  refine (proj1 (proj2 (presets_survive_switching empty_storage (Some "GA") visit (Some "GB") other_visit
    empty_available (fun c => eq_refl) visit_ok other_visit_ok _ _))).
  - vm_compute. congruence.
  - repeat constructor; vm_compute; congruence.
Defined.

(** Presets that cannot be parsed are read as none and overwritten on the first render. *)
Example corrupt_presets_overwritten :
  let s := setItem_safe empty_storage (key (Some "GA")) "[{" in
  lookup_item (items (store (mount s (Some "GA")))) (key (Some "GA")) = Some "[]".
Proof. vm_compute. reflexivity. Qed.
End PresetWitness.
