(* ===== verification/InvoiceTable.v ===== *)
(** * The invoice table ([apps/web/components/invoice/InvoiceTable.tsx])

    Paging, the multi-select of rows by id, and the roving index of the keyboard.  The
    selection is an array the table treats as a set; the page that controls it may cut it
    down, as the marketplace does. *)

From S2P Require Import Prelude JsNumber JsString SdkTypes.
From S2P Require Import Marketplace.
Local Open Scope Z_scope.

Definition DEFAULT_PAGE_SIZES : list Z := [10; 20; 50; 100].

Definition clampPage (page totalPages : num) : num :=
  math_min (math_max page (Num.of_Z 1)) (math_max totalPages (Num.of_Z 1)).

(** [startItem] and [endItem], for counts that are integers. *)
Definition startItem (page limit total : Z) : Z := if total =? 0 then 0 else (page - 1) * limit + 1.
Definition endItem (page limit total : Z) : Z := if total =? 0 then 0 else Z.min (page * limit) total.

(** [handleCommitPage]: the text that stays in the field, and the page asked for. *)
Definition handleCommitPage (pageInput : string) (page totalPages : num) : string * option num :=
  let parsed := Str.parse_int pageInput in
  if Num.is_nan parsed then (Num.to_string page, None)
  else (pageInput, Some (clampPage parsed totalPages)).

(** A [Set] in insertion order. *)
Definition set_add {A} `{EqDecision A} (s : list A) (x : A) : list A :=
  if bool_decide (x ∈ s) then s else s ++ [x].
Definition set_of {A} `{EqDecision A} (l : list A) : list A := foldl set_add [] l.

(** The page sizes offered. *)
Definition options (limit : Z) (pageSizeOptions : list Z) : list Z :=
  sort_by (fun b a => 0 <? b - a) (set_add (set_of pageSizeOptions) limit).

(** ** Selection by id *)
Definition toggleRowSelection (selection : list string) (id : string) : list string :=
  if bool_decide (id ∈ selection) then List.filter (fun i => negb (String.eqb i id)) selection
  else selection ++ [id].
Definition selectedOnPage (selection pageIds : list string) : list string :=
  List.filter (fun id => bool_decide (id ∈ selection)) pageIds.
Definition allOnPageSelected (selection pageIds : list string) : bool :=
  (0 <? length pageIds)%nat && (length (selectedOnPage selection pageIds) =? length pageIds)%nat.
Definition toggleAllOnPage (selection pageIds : list string) : list string :=
  if allOnPageSelected selection pageIds
  then List.filter (fun id => negb (bool_decide (id ∈ pageIds))) selection
  else foldl set_add (set_of selection) pageIds.
Definition clearSelection : list string := [].
Definition indeterminate (selection pageIds : list string) : bool :=
  (0 <? length (selectedOnPage selection pageIds))%nat && negb (allOnPageSelected selection pageIds).

(** The events of the selection, when the page controls it and keeps [commit next]. *)
Inductive SelectionEv := ToggleRow (id : string) | ToggleAll (pageIds : list string) | Clear.
Definition next_selection (s : list string) (e : SelectionEv) : list string :=
  match e with
  | ToggleRow id => toggleRowSelection s id
  | ToggleAll ids => toggleAllOnPage s ids
  | Clear => clearSelection
  end.
Definition controlled (commit : list string -> list string) (s : list string) (e : SelectionEv) : list string :=
  commit (next_selection s e).

(** ** The roving index *)
Inductive Key := ArrowDown | ArrowUp | Home | End_.
Definition handleRowKeyDown (rows : Z) (focusedIndex : Z) (k : Key) : Z :=
  match k with
  | ArrowDown => Z.min (focusedIndex + 1) (rows - 1)
  | ArrowUp => Z.max (focusedIndex - 1) 0
  | Home => 0
  | End_ => rows - 1
  end.
(** Whether some row is in the tab order. *)
Definition reachable (rows focusedIndex : Z) : bool := (0 <=? focusedIndex) && (focusedIndex <? rows).

(** ** Properties of paging *)
(** A page that was asked for is between the first and the last, whatever was typed:
    an infinite or negative number included. *)
Lemma clampPage_range page totalPages : Num.is_nan page = false -> Num.is_nan totalPages = false ->
  Num.leb (Num.of_Z 1) (clampPage page totalPages) = true /\
  Num.leb (clampPage page totalPages) (math_max totalPages (Num.of_Z 1)) = true.
Proof.
  intros Hp Ht. unfold clampPage, math_min.
  pose proof (max_nan page (Num.of_Z 1) Hp eq_refl) as Hn1. pose proof (max_nan totalPages (Num.of_Z 1) Ht eq_refl) as Hn2.
  pose proof (max_leb page (Num.of_Z 1) Hp eq_refl). pose proof (max_leb totalPages (Num.of_Z 1) Ht eq_refl).
  rewrite Hn1, Hn2. cbn [orb]. destruct (Num.ltb (math_max totalPages _) (math_max page _)) eqn:H'.
  - split; [done|by apply leb_refl].
  - split; [done|]. by rewrite leb_ltb, H'.
Qed.

Lemma of_Z_not_nan a : Z.abs a < 2 ^ 53 -> Num.is_nan (Num.of_Z a) = false.
Proof. intros Ha. pose proof (of_Z_exact a ltac:(lia)) as H. by destruct (Num.of_Z a). Qed.

Lemma max_of_Z a : Z.abs a < 2 ^ 53 -> math_max (Num.of_Z a) (Num.of_Z 1) = Num.of_Z (Z.max a 1).
Proof.
  intros Ha. unfold math_max. rewrite !of_Z_not_nan by lia. cbn [orb].
  rewrite of_Z_ltb by lia. destruct (Z.ltb_spec a 1); f_equal; lia.
Qed.

(** the field of the page number commits either nothing, and shows the current page
    again, or a page between the first and the last; on whole numbers it is the number
    itself moved into that range. *)
Theorem handleCommitPage_spec input page totalPages : Num.is_nan totalPages = false ->
  match handleCommitPage input page totalPages with
  | (text, None) => text = Num.to_string page
  | (text, Some p) => text = input /\ Num.leb (Num.of_Z 1) p = true /\
                      Num.leb p (math_max totalPages (Num.of_Z 1)) = true
  end /\
  forall z t, totalPages = Num.of_Z t -> Str.parse_int input = Num.of_Z z -> Z.abs z < 2 ^ 53 -> Z.abs t < 2 ^ 53 ->
    (handleCommitPage input page totalPages).2 = Some (Num.of_Z (Z.min (Z.max z 1) (Z.max t 1))).
Proof.
  intros Ht. unfold handleCommitPage. destruct (Num.is_nan (Str.parse_int input)) eqn:Hn; cbn zeta iota.
  - split; [done|]. intros z t _ Hz Hz53 _. pose proof (of_Z_exact z ltac:(lia)) as He. rewrite <- Hz in He.
    by destruct (Str.parse_int input).
  - split; [split; [done|by apply clampPage_range]|]. intros z t -> -> Hz Ht53. cbn [snd]. f_equal.
    unfold clampPage. rewrite !max_of_Z by done. unfold math_min. rewrite !of_Z_not_nan by lia. cbn [orb].
    rewrite of_Z_ltb by lia. destruct (Z.ltb_spec (Z.max t 1) (Z.max z 1)); f_equal; lia.
Qed.

(** Consecutive pages show consecutive rows, each page at most [limit] of them. *)
Lemma items_consecutive page limit total : 0 < total -> 0 < limit -> 0 < page -> (page - 1) * limit < total ->
  startItem page limit total <= endItem page limit total <= total /\
  endItem page limit total < startItem page limit total + limit /\
  (endItem page limit total < total -> startItem (page + 1) limit total = endItem page limit total + 1).
Proof.
  intros Ht Hl Hp Hlt. unfold startItem, endItem. destruct (Z.eqb_spec total 0); [lia|].
  replace (page + 1 - 1) with page by lia. nia.
Qed.

(** The page sizes offered: the given ones and the current one, each once, ascending. *)
Section Sets.
Context {A : Type} `{EqDecision A}.
Implicit Types (s l : list A).

Lemma elem_of_set_add s x y : y ∈ set_add s x <-> y ∈ s \/ y = x.
Proof. unfold set_add. case_bool_decide; set_solver. Qed.
Lemma set_add_NoDup s x : NoDup s -> NoDup (set_add s x).
Proof.
  intros Hs. unfold set_add. case_bool_decide; [done|]. apply list.NoDup_app. split; [done|].
  split; [set_solver|apply NoDup_singleton].
Qed.
Lemma set_add_prefix s x : exists t, set_add s x = s ++ t.
Proof. unfold set_add. case_bool_decide; [exists []; by rewrite app_nil_r|by eexists]. Qed.

Lemma select_all_spec l : forall s, (forall y, y ∈ foldl set_add s l <-> y ∈ s \/ y ∈ l) /\
  (NoDup s -> NoDup (foldl set_add s l)) /\ exists t, foldl set_add s l = s ++ t.
Proof.
  induction l as [|x l IH]; intros s; cbn.
  - split; [set_solver|]. split; [done|]. exists []. by rewrite app_nil_r.
  - destruct (IH (set_add s x)) as (Hm & Hn & t & Ht). split; [|split].
    + intros y. rewrite Hm, elem_of_set_add. set_solver.
    + intros Hs. by apply Hn, set_add_NoDup.
    + destruct (set_add_prefix s x) as [u Hu]. exists (u ++ t). by rewrite Ht, Hu, app_assoc.
Qed.

Lemma set_of_id l : NoDup l -> set_of l = l.
Proof.
  unfold set_of. intros Hl. enough (H : forall s, NoDup (s ++ l) -> foldl set_add s l = s ++ l) by (by apply (H [])).
  clear Hl. induction l as [|x l IH]; intros s Hs; cbn; [by rewrite app_nil_r|].
  assert (Hx : set_add s x = s ++ [x]).
  { unfold set_add. rewrite bool_decide_false; [done|]. apply list.NoDup_app in Hs as (_ & Hd & _). set_solver. }
  rewrite Hx, IH; [by rewrite <- app_assoc|by rewrite <- app_assoc].
Qed.
End Sets.

Lemma sort_by_ext {A} (p q : A -> A -> bool) l : (forall y x, p y x = q y x) -> sort_by p l = sort_by q l.
Proof.
  intros H. assert (Hins : forall x l, insert_by p x l = insert_by q x l).
  { intros x l'. induction l' as [|y l' IH]; cbn; [done|]. by rewrite H, IH. }
  unfold sort_by. generalize ([] : list A). induction l as [|x l IH]; intros acc; cbn; [done|].
  by rewrite Hins.
Qed.

Lemma options_spec limit sizes :
  NoDup (options limit sizes) /\ StronglySorted (fun a b => - b <= - a) (options limit sizes) /\
  forall x, x ∈ options limit sizes <-> x ∈ sizes \/ x = limit.
Proof.
  set (base := set_add (set_of sizes) limit).
  assert (Hb : NoDup base /\ forall x, x ∈ base <-> x ∈ sizes \/ x = limit).
  { destruct (select_all_spec sizes []) as (Hm & Hn & _). split; [by apply set_add_NoDup, Hn; constructor|].
    intros x. unfold base. rewrite elem_of_set_add. unfold set_of. rewrite Hm. set_solver. }
  assert (Ho : options limit sizes = sort_by (fun b a => - b <? - a) base).
  { apply sort_by_ext. intros y x. destruct (Z.ltb_spec (- y) (- x)), (Z.ltb_spec 0 (y - x)); lia. }
  destruct Hb as [Hnd Hm]. rewrite Ho. split; [by rewrite sort_by_perm|]. split; [apply (sort_key_sorted Z.opp)|].
  intros x. by rewrite sort_by_perm.
Qed.

(** ** Properties of the selection *)
Lemma elem_of_listfilter {A} (p : A -> bool) l x : x ∈ List.filter p l <-> x ∈ l /\ p x = true.
Proof. rewrite !list_elem_of_In. apply filter_In. Qed.
Lemma listfilter_NoDup {A} (p : A -> bool) l : NoDup l -> NoDup (List.filter p l).
Proof.
  induction 1 as [|x l Hx Hl IH]; cbn; [constructor|]. destruct (p x); [|done]. constructor; [|done].
  by rewrite elem_of_listfilter; intros [? _].
Qed.

Lemma allOnPageSelected_spec s p : allOnPageSelected s p = true <-> p <> [] /\ forall x, x ∈ p -> x ∈ s.
Proof.
  unfold allOnPageSelected, selectedOnPage. rewrite andb_true_iff, Nat.ltb_lt, Nat.eqb_eq.
  split.
  - intros [Hp Hl]. split; [by destruct p; [cbn in Hp; lia|]|]. clear Hp. revert Hl.
    induction p as [|y p IH]; [set_solver|]. cbn.
    pose proof (List.filter_length_le (fun id => bool_decide (id ∈ s)) p).
    case_bool_decide; cbn; intros Hl; [|lia]. intros x [->|Hx]%elem_of_cons; [done|]. apply IH; [lia|done].
  - intros [Hp Hall]. split; [destruct p; [done|cbn; lia]|]. clear Hp.
    induction p as [|y p IH]; cbn; [done|]. rewrite bool_decide_true by (apply Hall; by left). cbn.
    f_equal. apply IH. intros x Hx. apply Hall. by right.
Qed.

Lemma selection_NoDup s e : NoDup s -> NoDup (next_selection s e).
Proof.
  intros Hs. destruct e as [id|p|]; cbn [next_selection]; [| |constructor].
  - unfold toggleRowSelection. case_bool_decide as Hid; [by apply listfilter_NoDup|].
    apply list.NoDup_app. split; [done|]. split; [set_solver|apply NoDup_singleton].
  - unfold toggleAllOnPage. destruct (allOnPageSelected s p); [by apply listfilter_NoDup|].
    rewrite set_of_id by done. by apply select_all_spec.
Qed.

(** A selection never holds an id twice; toggling a row changes that row alone, the
    header box selects every row of the page or, when all of them are, drops exactly
    those, and rows of other pages stay as they are. *)
Theorem selection_spec s e (Hs : NoDup s) :
  NoDup (next_selection s e) /\
  forall x, x ∈ next_selection s e <->
    match e with
    | ToggleRow id => (x <> id /\ x ∈ s) \/ (x = id /\ id ∉ s)
    | ToggleAll p => if decide (p <> [] /\ Forall (fun y => y ∈ s) p) then x ∈ s /\ x ∉ p else x ∈ s \/ x ∈ p
    | Clear => False
    end.
Proof.
  split; [by apply selection_NoDup|]. intros x. destruct e as [id|p|]; cbn [next_selection]; [| |set_solver].
  - unfold toggleRowSelection. case_bool_decide as Hid.
    + rewrite elem_of_listfilter. destruct (String.eqb_spec x id); cbn; naive_solver.
    + destruct (decide (x = id)); set_solver.
  - unfold toggleAllOnPage. pose proof (allOnPageSelected_spec s p) as Ha. rewrite <- list.Forall_forall in Ha.
    destruct (allOnPageSelected s p).
    + rewrite decide_True by (by apply Ha).
      by rewrite elem_of_listfilter, negb_true_iff, bool_decide_eq_false.
    + rewrite decide_False by (by intros ?%Ha). rewrite set_of_id by done. apply select_all_spec.
Qed.

(** ** The selection of the marketplace *)
Lemma take_NoDup {A} n (l : list A) : NoDup l -> NoDup (take n l).
Proof. intros H. rewrite <- (take_drop n l) in H. by apply list.NoDup_app in H as [? _]. Qed.

(** The page compares at most four invoices, none of them twice. *)
Lemma compared_at_most_four es s : NoDup s -> (length s <= 4)%nat ->
  let s' := foldl (controlled handleSelectionChange) s es in NoDup s' /\ (length s' <= 4)%nat.
Proof.
  revert s. induction es as [|e es IH]; intros s Hs Hl; [done|]. cbn. apply IH.
  - apply take_NoDup. by apply selection_NoDup.
  - unfold controlled, handleSelectionChange. rewrite length_take. lia.
Qed.

(** With four rows selected and more on the page, the header box does nothing: it
    neither selects nor, since not all rows are selected, clears. *)
Lemma select_all_stuck s p : NoDup s -> length s = 4%nat -> (exists x, x ∈ p /\ x ∉ s) ->
  controlled handleSelectionChange s (ToggleAll p) = s.
Proof.
  intros Hs Hl (x & Hx & Hxs). unfold controlled, handleSelectionChange. cbn [next_selection].
  unfold toggleAllOnPage. destruct (allOnPageSelected s p) eqn:Ha.
  - apply allOnPageSelected_spec in Ha as [_ Ha]. by apply Ha in Hx.
  - rewrite set_of_id by done. destruct (select_all_spec p s) as (_ & _ & t & ->).
    rewrite <- Hl. apply take_app_length.
Qed.

(** ** The roving index *)
Lemma roving_stays rows i k : 0 < rows -> reachable rows i = true -> reachable rows (handleRowKeyDown rows i k) = true.
Proof.
  unfold reachable. intros Hr [H1%Z.leb_le H2%Z.ltb_lt]%andb_prop. apply andb_true_intro.
  rewrite Z.leb_le, Z.ltb_lt. destruct k; cbn; lia.
Qed.

(** The index survives a change of the rows: after the last row of a page of twenty, a
    page of three rows has no row in the tab order. *)
Lemma roving_lost_on_shorter_page :
  let i := handleRowKeyDown 20 0 End_ in reachable 20 i = true /\ reachable 3 i = false.
Proof. vm_compute. split; reflexivity. Qed.

(** ** Witnesses *)
Lemma handleCommitPage_spec_witness :
  (handleCommitPage "99" (Num.of_Z 1) (Num.of_Z 7)).2 = Some (Num.of_Z 7) /\
  handleCommitPage "" (Num.of_Z 3) (Num.of_Z 7) = ("3", None).
Proof.
  split; [|vm_compute; reflexivity].
  exact (proj2 (handleCommitPage_spec "99" (Num.of_Z 1) (Num.of_Z 7) eq_refl) 99 7 eq_refl eq_refl
    ltac:(vm_compute; reflexivity) ltac:(vm_compute; reflexivity)).
Defined.

Lemma selection_spec_witness :
  next_selection ["a"; "x"] (ToggleAll ["a"; "b"]) = ["a"; "x"; "b"] /\
  "x" ∈ next_selection ["a"; "b"; "x"] (ToggleAll ["a"; "b"]) /\
  "a" ∉ next_selection ["a"; "b"; "x"] (ToggleAll ["a"; "b"]).
Proof.
  split; [vm_compute; reflexivity|].
  assert (Hnd : NoDup ["a"; "b"; "x"]) by (repeat constructor; set_solver).
  pose proof (proj2 (selection_spec ["a"; "b"; "x"] (ToggleAll ["a"; "b"]) Hnd)) as H. cbv beta iota in H.
  split.
  - apply H. rewrite decide_True; [set_solver|split; [done|repeat constructor; set_solver]].
  - rewrite H. rewrite decide_True; [set_solver|split; [done|repeat constructor; set_solver]].
Defined.
