(* ===== verification/InvoiceViews.v ===== *)
(** * The invoice detail page and the invoice card
    ([apps/web/app/invoice/[invoiceId]/InvoiceDetailClient.tsx],
    [apps/web/components/invoice/InvoiceCard.tsx])

    Which actions are offered to whom, the due date, the share message, the copy buttons
    with their timers, and the listing form of the card.  Times are whole seconds or
    milliseconds below [2^53], on which the subtraction of numbers is exact. *)

From S2P Require Import Prelude JsNumber JsString JsValue Effects SdkTypes Assets WebErrors.
Local Open Scope Z_scope.

(** ** The due date *)
Definition secondsRemaining (dueDate nowMs : Z) : Z := dueDate - nowMs / 1000.
(** [Math.ceil(secondsRemaining / (24 * 3600))]. *)
Definition daysRemaining (dueDate nowMs : Z) : Z := - (- secondsRemaining dueDate nowMs / 86400).
Definition isOverdue (dueDate nowMs : Z) : bool := secondsRemaining dueDate nowMs <? 0.

(** ** The actions offered *)
Inductive Offer := ListTerms | FundOffer | ShipOffer | ConfirmOffer | RepayOffer | DefaultOffer.
#[export] Instance Offer_eq_dec : EqDecision Offer.
Proof. solve_decision. Defined.
Inductive ViewRole := IssuerView | BuyerView | LpView.
#[export] Instance ViewRole_eq_dec : EqDecision ViewRole.
Proof. solve_decision. Defined.

Record View := {
  v_address : option string; v_role : option ViewRole; v_status : InvoiceStatus;
  v_overdue : bool; v_buyerConfirmed : bool; v_showListForm : bool }.
Definition is_role (v : View) (r : ViewRole) : bool := bool_decide (v_role v = Some r).
Definition is_status (v : View) (s : InvoiceStatus) : bool := bool_decide (v_status v = s).

Module Page.
Definition canShip (connected : bool) (v : View) : bool := connected && is_role v IssuerView && is_status v Funded.
Definition canConfirm (connected : bool) (v : View) : bool := connected && is_role v BuyerView && is_status v Active.
Definition canRepay (connected : bool) (v : View) : bool := connected && is_role v BuyerView && is_status v Confirmed.
Definition canDefault (connected : bool) (v : View) : bool := connected && is_status v Confirmed && v_overdue v.
Definition offers (connected : bool) (v : View) : list Offer :=
  (if canShip connected v then [ShipOffer] else []) ++ (if canConfirm connected v then [ConfirmOffer] else []) ++
  (if canRepay connected v then [RepayOffer] else []) ++ (if canDefault connected v then [DefaultOffer] else []).
End Page.

Module Card.
Definition showActions (v : View) : bool := opt_str_truthy (v_address v).
(** The buttons shown; they are disabled while an action runs or without verification. *)
Definition offers (v : View) : list Offer :=
  if negb (showActions v) then []
  else
    (if is_status v Created && is_role v IssuerView && negb (v_showListForm v) then [ListTerms] else []) ++
    (if is_status v Listed && is_role v LpView then [FundOffer] else []) ++
    (if is_status v Funded && is_role v IssuerView then [ShipOffer] else []) ++
    (if is_status v Active && is_role v BuyerView && negb (v_buyerConfirmed v) then [ConfirmOffer] else []) ++
    (if is_status v Confirmed && is_role v BuyerView then [RepayOffer] else []) ++
    (if is_status v Active && v_overdue v then [DefaultOffer] else []).
Definition enabled (loading isVerified : bool) : bool := negb (loading || negb isVerified).

(** ** The listing form *)
Record state := {
  loading : bool; error : option string; discountBpsInput : string; showListForm : bool }.
Definition initial : state :=
  {| loading := false; error := None; discountBpsInput := "200"; showListForm := false |}.
Inductive Ev :=
  | SetLoading (b : bool)
  | SetError (e : option string)
  | SetShowListForm (b : bool)
  | ListCall (invoiceId : string) (bps : num) (r : res bool)
  | ActionCall (r : res bool).
Definition apply (s : state) (e : Ev) : state :=
  match e with
  | SetLoading b => {| loading := b; error := error s; discountBpsInput := discountBpsInput s; showListForm := showListForm s |}
  | SetError e => {| loading := loading s; error := e; discountBpsInput := discountBpsInput s; showListForm := showListForm s |}
  | SetShowListForm b => {| loading := loading s; error := error s; discountBpsInput := discountBpsInput s; showListForm := b |}
  | _ => s
  end.
Definition replay (s : state) (l : list Ev) : state := foldl apply s l.

(** [err instanceof Error ? err.message : fallback]. *)
Definition message_or (err : jsval) (fallback : string) : string :=
  match err with JErr _ m _ => m | _ => fallback end.

Section Handlers.
Context {Env : Type}.
(** [listInvoice] of the hook, and the action behind a button. *)
Context (listInvoice : string -> num -> Env -> res bool * Env) (actionFn : Env -> res bool * Env).
Abbreviation IO := (M Env Ev).

Definition range_error : jsval :=
mk_error "Discount basis points must be between 1 and 5,000 (50%)".

Definition handleList (s : state) (invoiceId : string) : IO () :=
emit (SetLoading true);;
emit (SetError None);;
finally
  (catch
     (let bps := Str.parse_int (discountBpsInput s) in
      (if validateDiscountBps bps then mret tt else raise range_error);;
      io (ListCall invoiceId bps) (listInvoice invoiceId bps);;
      emit (SetShowListForm false))
     (fun err => emit (SetError (Some (message_or err "Failed to list invoice")))))
  (emit (SetLoading false)).

Definition handleAction (errorMsg : string) : IO () :=
emit (SetLoading true);;
emit (SetError None);;
finally
  (catch (io ActionCall actionFn;; mret tt)
     (fun err => emit (SetError (Some (message_or err errorMsg)))))
  (emit (SetLoading false)).
End Handlers.
End Card.

(** ** The share message of the page *)
Definition shareMessage (id : string) (faceValue : Z) : string :=
  "TrusTrove Invoice " +:+ id +:+ " " +:+ em_dash +:+ " " +:+ formatAmount (Some faceValue) None +:+ " USDC".

(** ** The copy buttons of the page *)
Module Copy.
Inductive CopyKey := Id | IssuerAddress | BuyerAddress | Link.
Record state := {
  copiedKey : option CopyKey; copyFailedKey : option CopyKey; copyAnnouncement : string;
  timer : option nat;             (* [copyResetTimer.current] *)
  scheduled : list nat;           (* timers that have not fired *)
  next : nat }.
Definition initial : state :=
  {| copiedKey := None; copyFailedKey := None; copyAnnouncement := ""; timer := None; scheduled := []; next := 0 |}.

Inductive event :=
  | Click                                (* [copyToClipboard] up to [await] *)
  | Settled (key : CopyKey) (ok : bool)  (* the rest of it, however the write ended *)
  | Fire (t : nat)                       (* a timer runs its callback *)
  | Unmount.

Definition cancel (t : option nat) (l : list nat) : list nat :=
  match t with Some t => List.filter (fun u => negb (u =? t)%nat) l | None => l end.
Definition step (s : state) (e : event) : state :=
  match e with
  | Click =>
      {| copiedKey := copiedKey s; copyFailedKey := copyFailedKey s; copyAnnouncement := copyAnnouncement s;
         timer := None; scheduled := cancel (timer s) (scheduled s); next := next s |}
  | Settled key ok =>
      {| copiedKey := if ok then Some key else None; copyFailedKey := if ok then None else Some key;
         copyAnnouncement := if ok then "Copied" else "Copy failed";
         timer := Some (next s); scheduled := next s :: scheduled s; next := S (next s) |}
  | Fire t =>
      if bool_decide (t ∈ scheduled s) then
        {| copiedKey := None; copyFailedKey := None; copyAnnouncement := ""; timer := None;
           scheduled := cancel (Some t) (scheduled s); next := next s |}
      else s
  | Unmount =>
      {| copiedKey := copiedKey s; copyFailedKey := copyFailedKey s; copyAnnouncement := copyAnnouncement s;
         timer := timer s; scheduled := cancel (timer s) (scheduled s); next := next s |}
  end.
End Copy.

(** ** The PDF button *)
Module Pdf.
Record state := { isExportingPdf : bool; pdfError : option string }.
(** [downloadPdf] up to [await], when it is not refused, and after it. *)
Definition begin (has_invoice : bool) (s : state) : option state :=
  if negb has_invoice || isExportingPdf s then None else Some {| isExportingPdf := true; pdfError := None |}.
Definition settle (s : state) (r : res ()) : state :=
  {| isExportingPdf := false;
     pdfError := match r with
                 | Ok _ => pdfError s
                 | Throw e => Some (Card.message_or e "Could not generate the invoice PDF.")
                 end |}.
End Pdf.

(** ** Properties of the offers *)

(** What the documentation of the contract says of each action
    ([docs/smart-contracts/invoice-contract.md], [docs/protocol/invoice-lifecycle.md]): the status in
    which it is accepted, and which role of the app it is for.  A default is accepted after the
    due date in any status between funding and repayment, from the admin and from the pool
    contract, so from no role of the app. *)
Definition allowed (o : Offer) (s : InvoiceStatus) (overdue : bool) : bool :=
  match o with
  | ListTerms => bool_decide (s = Created)
  | FundOffer => bool_decide (s = Listed)
  | ShipOffer => bool_decide (s = Funded)
  | ConfirmOffer => bool_decide (s = Active)
  | RepayOffer => bool_decide (s = Confirmed)
  | DefaultOffer => overdue && bool_decide (s = Funded \/ s = Active \/ s = Confirmed)
  end.
Definition in_charge (o : Offer) : option ViewRole :=
  match o with
  | ListTerms | ShipOffer => Some IssuerView
  | FundOffer => Some LpView
  | ConfirmOffer | RepayOffer => Some BuyerView
  | DefaultOffer => None
  end.

Lemma opt_elem {A} (b : bool) (x y : A) : x ∈ (if b then [y] else []) <-> b = true /\ x = y.
Proof. destruct b; set_solver. Qed.

(** Case analysis over the finite parts of a view. *)
Ltac view_cases v :=
  destruct v as [a r s od bc sf]; unfold Page.offers, Card.offers, Page.canShip, Page.canConfirm, Page.canRepay,
    Page.canDefault, Card.showActions, is_role, is_status in *; cbn [v_address v_role v_status v_overdue v_buyerConfirmed v_showListForm] in *.

(** No view offers an action outside the statuses it is documented for, and what is for one
    party is offered to that party alone (a default is offered to all, see
    [DetailPage.default_is_offered_to_anyone]); the card offers every such action to
    the party in charge, and the page those that follow funding.  Nothing is offered
    without a wallet. *)
Theorem offers_follow_lifecycle v connected o :
  (o ∈ Page.offers connected v \/ o ∈ Card.offers v ->
     allowed o (v_status v) (v_overdue v) = true /\
     forall r, in_charge o = Some r -> v_role v = Some r) /\
  (forall r, in_charge o = Some r -> allowed o (v_status v) (v_overdue v) = true -> v_role v = Some r ->
     (opt_str_truthy (v_address v) = true -> v_buyerConfirmed v = false -> v_showListForm v = false ->
        o ∈ Card.offers v) /\
     (connected = true -> o <> ListTerms -> o <> FundOffer -> o ∈ Page.offers connected v)) /\
  Page.offers false v = [] /\ (opt_str_truthy (v_address v) = false -> Card.offers v = []).
Proof.
  split; [|split; [|split]].
  - intros Ho. view_cases v. destruct (opt_str_truthy a), connected, r as [[]|], s, od, bc, sf; cbn in Ho;
      set_unfold in Ho; repeat destruct Ho as [Ho|Ho]; try done; subst; by split; [|intros ? [= <-]].
  - intros q Hc Ha Hr. view_cases v. subst. split.
    + intros -> -> ->. destruct o; cbn in Hc; try discriminate Hc; injection Hc as <-; apply bool_decide_eq_true_1 in Ha as ->;
        destruct od; cbn; set_solver.
    + intros -> H1 H2. destruct o; try done; cbn in Hc; try discriminate Hc; injection Hc as <-; apply bool_decide_eq_true_1 in Ha as ->;
        destruct od; cbn; set_solver.
  - done.
  - intros H. unfold Card.offers, Card.showActions. by rewrite H.
Qed.

(** The two views of one invoice never offer its default together: the page does once it
    is confirmed, the card while it is active. *)
Lemma default_offered_apart v connected :
  ~ (DefaultOffer ∈ Page.offers connected v /\ DefaultOffer ∈ Card.offers v) /\
  (DefaultOffer ∈ Page.offers true v <-> v_status v = Confirmed /\ v_overdue v = true) /\
  (opt_str_truthy (v_address v) = true -> DefaultOffer ∈ Card.offers v <-> v_status v = Active /\ v_overdue v = true).
Proof.
  view_cases v. split; [|split].
  - intros [H1 H2]. destruct (opt_str_truthy a), connected, r as [[]|], s, od, bc, sf; cbn in H1, H2; set_solver.
  - destruct r as [[]|], s, od; cbn; set_solver.
  - intros ->. destruct r as [[]|], s, od, bc, sf; cbn; set_solver.
Qed.

(** ** Properties of the due date *)
Lemma overdue_spec dueDate nowMs : isOverdue dueDate nowMs = true <-> (dueDate + 1) * 1000 <= nowMs.
Proof.
  unfold isOverdue, secondsRemaining. rewrite Z.ltb_lt. pose proof (Z.div_mod nowMs 1000 ltac:(lia)).
  pose proof (Z.mod_pos_bound nowMs 1000 ltac:(lia)). lia.
Qed.
Lemma daysRemaining_spec dueDate nowMs :
  (daysRemaining dueDate nowMs - 1) * 86400 < secondsRemaining dueDate nowMs <= daysRemaining dueDate nowMs * 86400.
Proof.
  unfold daysRemaining. set (s := secondsRemaining dueDate nowMs).
  pose proof (Z.div_mod (- s) 86400 ltac:(lia)). pose proof (Z.mod_pos_bound (- s) 86400 ltac:(lia)). lia.
Qed.

(** ** The unit of the share message *)
Lemma share_message_doubles_the_unit :
  shareMessage "ab" 1000000000 = "TrusTrove Invoice ab " +:+ em_dash +:+ " 100.00 USDC USDC".
Proof. vm_compute. reflexivity. Qed.

(** ** The copy feedback *)
Module CopyFacts.
Import Copy.

(** The feedback is for one button and of one kind, its announcement agrees with it, and
    the timer remembered is one that has not fired. *)
Record inv (s : state) : Prop := {
  i_shown : (copiedKey s = None /\ copyFailedKey s = None /\ copyAnnouncement s = "") \/
            (exists k, copiedKey s = Some k /\ copyFailedKey s = None /\ copyAnnouncement s = "Copied") \/
            (exists k, copiedKey s = None /\ copyFailedKey s = Some k /\ copyAnnouncement s = "Copy failed");
  i_fresh : Forall (fun t => (t < next s)%nat) (scheduled s);
  i_timer : forall t, timer s = Some t -> t ∈ scheduled s }.

Lemma cancel_sub t l u : u ∈ cancel t l -> u ∈ l.
Proof. destruct t; [|done]. cbn. rewrite !list_elem_of_In, filter_In. by intros [? _]. Qed.
Lemma cancel_fresh t l n : Forall (fun u => (u < n)%nat) l -> Forall (fun u => (u < n)%nat) (cancel t l).
Proof. rewrite !list.Forall_forall. intros H u Hu. apply H. by eapply cancel_sub. Qed.

Lemma copy_initial_inv : inv initial.
Proof. constructor; [by left|constructor|done]. Qed.

Lemma copy_step_inv s e : e <> Unmount -> inv s -> inv (step s e).
Proof.
  intros He [Hs Hf Ht]. destruct e as [|k ok|t|]; [| | |done]; cbn [step].
  - constructor; [done|by apply cancel_fresh|done].
  - constructor; cbn.
    + destruct ok; [right; left|right; right]; by exists k.
    + constructor; [lia|]. eapply List.Forall_impl; [|exact Hf]. cbn. lia.
    + intros t [= <-]. by left.
  - case_bool_decide; [|done]. constructor; [by left|by apply cancel_fresh|done].
Qed.

(** A copy that settles shows its feedback until its own timer fires or another copy
    settles, when no two copies overlap: then one timer at most is pending. *)
Inductive alternating : list event -> Prop :=
  | alt_nil : alternating []
  | alt_copy k ok l : alternating l -> alternating (Click :: Settled k ok :: l)
  | alt_fire t l : alternating l -> alternating (Fire t :: l).

Lemma filter_self (t : nat) : List.filter (fun u => negb (u =? t)%nat) [t] = [].
Proof. cbn. by rewrite Nat.eqb_refl. Qed.

Lemma alternating_one_timer l : alternating l -> forall s,
  (scheduled s = [] \/ exists t, scheduled s = [t] /\ timer s = Some t) ->
  let s' := foldl step s l in (scheduled s' = [] \/ exists t, scheduled s' = [t] /\ timer s' = Some t).
Proof.
  induction 1 as [|k ok l _ IH|t l _ IH]; intros s Hs; [done| |]; cbn.
  - apply IH. right. exists (next s). split; [|done]. destruct Hs as [Hs|(t & Hs & Ht)]; cbn.
    + rewrite Hs. by destruct (timer s).
    + rewrite Ht, Hs. unfold cancel. by rewrite filter_self.
  - apply IH. destruct Hs as [Hs|(u & Hs & Hu)].
    + rewrite Hs. rewrite bool_decide_false by (by intros ?%not_elem_of_nil). by left.
    + rewrite Hs. case_bool_decide as Ht; [|by right; exists u].
      apply list_elem_of_singleton in Ht as ->. left. cbn. by rewrite Nat.eqb_refl.
Qed.

(** Two copies in flight leave a timer that nothing remembers: unmounting clears only
    the last one. *)
Lemma overlapping_copies_leak_a_timer :
  let s := foldl step initial [Click; Click; Settled Id true; Settled Link true] in
  timer s = Some 1%nat /\ scheduled s = [1; 0]%nat /\ scheduled (step s Unmount) = [0]%nat /\
  copiedKey (step s (Fire 0)) = None.
Proof. vm_compute. repeat split. Qed.
End CopyFacts.

(** ** The listing form of the card *)
Section CardFacts.
Context {Env : Type} (listInvoice : string -> num -> Env -> res bool * Env) (actionFn : Env -> res bool * Env).
Import Card.

(** the card lists once, with the discount typed and only when it is a whole number
    of basis points in range; the form closes when the listing is accepted, any failure
    is shown and keeps the form open, and the card is never left loading. *)
Theorem handleList_spec s id env :
  let bps := Str.parse_int (discountBpsInput s) in
  let '(r, l) := run (handleList listInvoice s id) env in
  let s' := replay s l in
  r = Ok tt /\ loading s' = false /\ discountBpsInput s' = discountBpsInput s /\
  if validateDiscountBps bps then
    exists res, List.filter (fun e => match e with ListCall _ _ _ => true | _ => false end) l = [ListCall id bps res] /\
      match res with
      | Ok _ => error s' = None /\ showListForm s' = false
      | Throw e => error s' = Some (message_or e "Failed to list invoice") /\ showListForm s' = showListForm s
      end
  else
    List.filter (fun e => match e with ListCall _ _ _ => true | _ => false end) l = [] /\
    error s' = Some "Discount basis points must be between 1 and 5,000 (50%)" /\ showListForm s' = showListForm s.
Proof.
  cbn zeta. unfold handleList, run, finally, catch, mbind, M_bind, emit, mret, M_ret, raise, io. cbn.
  destruct (validateDiscountBps (Str.parse_int (discountBpsInput s))) eqn:Hv; cbn.
  - destruct (listInvoice id (Str.parse_int (discountBpsInput s)) env) as [[b|e] env'] eqn:Hl; cbn;
      (split; [done|]; split; [done|]; split; [done|]).
    + by exists (Ok b).
    + by exists (Throw e).
  - done.
Qed.

Lemma handleAction_spec s msg env :
  let '(r, l) := run (handleAction actionFn msg) env in
  r = Ok tt /\ loading (replay s l) = false /\
  exists res, ActionCall res ∈ l /\
    error (replay s l) = match res with Ok _ => None | Throw e => Some (message_or e msg) end.
Proof.
  unfold handleAction, run, finally, catch, mbind, M_bind, emit, mret, M_ret, raise, io. cbn.
  destruct (actionFn env) as [[b|e] env']; cbn; (split; [done|]; split; [done|]).
  - exists (Ok b). split; [set_solver|done].
  - exists (Throw e). split; [set_solver|done].
Qed.
End CardFacts.
