(* ===== verification/PoolPage.v ===== *)
(** * The liquidity provider page ([apps/web/app/lp/page.tsx])

    The preview of a deposit is simulated 400 ms after the last change of the amount: a
    timer and a request per change, each with an [active] flag that the next change
    clears.  The submit handlers turn the typed amounts into stroops. *)

From S2P Require Import Prelude JsNumber JsString JsValue Effects Amounts SdkTypes Storage.
Local Open Scope Z_scope.

Definition STROOPS_PER_UNIT : Z := 10000000.

(** [Number(text)] and the test of the handlers. *)
Definition amount_of (text : string) : num := Str.parse_number text.
Definition positive_amount (text : string) : bool :=
  Num.is_finite (amount_of text) && negb (Num.leb (amount_of text) Num.zero).
(** [BigInt(Math.floor(amount * STROOPS_PER_UNIT))]. *)
Definition stroops (amount : num) : res Z :=
  bigint_of_num (Num.floor (Num.mul amount (Num.of_Z STROOPS_PER_UNIT))).

(** ** The preview of a deposit *)
Module Preview.
Section Preview.
Context {D : Type}.

(** A run of the effect: its timer is pending, or its request is, for that amount. *)
Inductive phase := Waiting (address : string) (amount : num) | Running (address : string) (z : Z).
Record state := {
  simDetails : option D; simError : option string; isSimulating : bool;
  runs : list (nat * phase); active : option nat; next : nat }.
Definition initial : state :=
  {| simDetails := None; simError := None; isSimulating := false; runs := []; active := None; next := 0 |}.

Inductive event :=
  | Change (address : option string) (text : string)
  | Fire (id : nat)
  | Answer (id : nat) (r : res D).

Definition phase_of (s : state) (id : nat) : option phase :=
  snd <$> List.find (fun r => (r.1 =? id)%nat) (runs s).
Definition without (l : list (nat * phase)) (id : nat) : list (nat * phase) :=
  List.filter (fun r => negb (r.1 =? id)%nat) l.

(** [error instanceof Error ? error.message : "Simulation failed"]. *)
Definition error_text (e : jsval) : string := match e with JErr _ m _ => m | _ => "Simulation failed" end.

(** The cleanup of the previous run: its timer is cleared, a request goes on unseen. *)
Definition cleanup (s : state) : state :=
  {| simDetails := simDetails s; simError := simError s; isSimulating := isSimulating s;
     runs := match active s with
             | Some id => match phase_of s id with Some (Waiting _ _) => without (runs s) id | _ => runs s end
             | None => runs s
             end;
     active := None; next := next s |}.

Definition settle (s : state) (id : nat) (r : res D) : state :=
  let s' := {| simDetails := simDetails s; simError := simError s; isSimulating := isSimulating s;
               runs := without (runs s) id; active := active s; next := next s |} in
  if bool_decide (active s = Some id) then
    {| simDetails := match r with Ok d => Some d | Throw _ => simDetails s end;
       simError := match r with Ok _ => simError s | Throw e => Some (error_text e) end;
       isSimulating := false; runs := runs s'; active := active s; next := next s |}
  else s'.

Definition step (s : state) (e : event) : state :=
  match e with
  | Change address text =>
      let s := cleanup s in
      if negb (opt_str_truthy address) || negb (positive_amount text) then
        {| simDetails := None; simError := None; isSimulating := isSimulating s; runs := runs s;
           active := None; next := next s |}
      else
        {| simDetails := simDetails s; simError := simError s; isSimulating := isSimulating s;
           runs := (next s, Waiting (default "" address) (amount_of text)) :: runs s;
           active := Some (next s); next := S (next s) |}
  | Fire id =>
      match phase_of s id with
      | Some (Waiting a n) =>
          let s1 := {| simDetails := simDetails s; simError := None; isSimulating := true;
                       runs := match stroops n with
                               | Ok z => (id, Running a z) :: without (runs s) id
                               | Throw _ => runs s
                               end;
                       active := active s; next := next s |} in
          match stroops n with Ok _ => s1 | Throw e => settle s1 id (Throw e) end
      | _ => s
      end
  | Answer id r =>
      match phase_of s id with Some (Running _ _) => settle s id r | _ => s end
  end.
End Preview.
Arguments state : clear implicits.
Arguments event : clear implicits.
End Preview.

(** ** The submit handlers *)
Inductive PoolUiEv :=
  | SetDepositError (e : option string)
  | SetDepositAmount (s : string)
  | DepositCall (amount : Z) (asset : AssetType) (r : res string).

Section Handlers.
Context {Env : Type} (deposit : Z -> AssetType -> Env -> res string * Env).
Abbreviation IO := (M Env PoolUiEv).

Definition handleDeposit (depositAmount : string) : IO () :=
if negb (positive_amount depositAmount) then emit (SetDepositError (Some "Enter an amount greater than zero."))
else
  emit (SetDepositError None);;
  amount ← lift (stroops (amount_of depositAmount));
  io (DepositCall amount USDC) (deposit amount USDC);;
  emit (SetDepositAmount "").
End Handlers.

(** [handleWithdraw]: the error shown, or the action the confirmation dialog holds: the
    shares it withdraws when it is confirmed. *)
Inductive Withdrawal := Refused (message : string) | Requested (action : ConfirmDialog.PendingAction Z).
Definition handleWithdraw (address : option string) (position : option Z) (withdrawShares : string) : res Withdrawal :=
  let shares := amount_of withdrawShares in
  shareAmount ← (if Num.is_finite shares then stroops shares else Ok 0);
  if negb (positive_amount withdrawShares) then Ok (Refused "Enter an amount greater than zero.")
  else if default 0 position <? shareAmount then Ok (Refused "Amount exceeds your redeemable shares.")
  else Ok (Requested {| ConfirmDialog.label := "Withdraw LP liquidity";
                        ConfirmDialog.invoiceId := opt_str_or address "LP position";
                        ConfirmDialog.fn := shareAmount |}).

(** [utilization], for the donut. *)
Definition utilization (utilizationRateBps : option num) : num :=
  math_min (Num.of_Z 100)
    (math_max Num.zero (Num.div (default Num.zero utilizationRateBps) (Num.of_Z 100))).

(** ** Properties of the preview *)
Module PreviewFacts.
Import Preview.
Section Facts.
Context {D : Type}.
Implicit Types (s : state D).

Definition is_change (e : event D) : bool := match e with Change _ _ => true | _ => false end.
Definition view s := (simDetails s, simError s, isSimulating s).

(** Runs have distinct numbers below [next], and a timer is pending for the active run
    only. *)
Record inv s : Prop := {
  i_fresh : forall id p, (id, p) ∈ runs s -> (id < next s)%nat;
  i_unique : NoDup (runs s).*1;
  i_waiting : forall id a n, (id, Waiting a n) ∈ runs s -> active s = Some id;
  i_active : forall id, active s = Some id -> (id < next s)%nat }.

Lemma elem_without l id r : r ∈ without l id <-> r ∈ l /\ r.1 <> id.
Proof.
  unfold without. rewrite !list_elem_of_In, filter_In, negb_true_iff, Nat.eqb_neq. done.
Qed.
Lemma without_NoDup l id : NoDup l.*1 -> NoDup (without l id).*1.
Proof.
  unfold without. induction l as [|[k p] l IH]; cbn; [done|]. intros [Hk Hl]%list.NoDup_cons.
  destruct (negb _); cbn; [|by apply IH]. constructor; [|by apply IH].
  intros (r & Hr & Hin)%list_elem_of_fmap. apply Hk, list_elem_of_fmap. exists r. split; [done|].
  by apply list_elem_of_In, filter_In in Hin as [?%list_elem_of_In _].
Qed.
Lemma phase_of_elem s id p : phase_of s id = Some p -> (id, p) ∈ runs s.
Proof.
  unfold phase_of. destruct (List.find _ _) as [[k q]|] eqn:Hf; [|done]. intros [= <-].
  apply find_some in Hf as [Hin Hk%Nat.eqb_eq]. cbn in Hk. subst k. by apply list_elem_of_In.
Qed.
Lemma phase_of_cases s id : (exists p, phase_of s id = Some p) \/ (phase_of s id = None /\ forall p, (id, p) ∉ runs s).
Proof.
  unfold phase_of. destruct (List.find _ _) as [[k q]|] eqn:Hf; [left; by eexists|right]. split; [done|].
  intros p Hin%list_elem_of_In. apply (find_none _ _ Hf) in Hin. cbn in Hin. by rewrite Nat.eqb_refl in Hin.
Qed.

Lemma unique_phase (l : list (nat * phase)) id p q : NoDup l.*1 -> (id, p) ∈ l -> (id, q) ∈ l -> p = q.
Proof.
  induction l as [|[k r] l IH]; [set_solver|]. cbn. intros [Hk Hl]%list.NoDup_cons.
  assert (Hno : forall x, (k, x) ∉ l).
  { intros x Hx. apply Hk, list_elem_of_fmap. by exists (k, x). }
  rewrite !elem_of_cons. intros [Hp|Hp] [Hq|Hq].
  - congruence.
  - injection Hp as -> ->. by apply Hno in Hq.
  - injection Hq as -> ->. by apply Hno in Hp.
  - by apply IH.
Qed.

Lemma cleanup_inv s : inv s -> inv (cleanup s) /\ forall id a n, (id, Waiting a n) ∉ runs (cleanup s).
Proof.
  intros [Hf Hu Hw Ha].
  assert (Hsub : forall r, r ∈ runs (cleanup s) -> r ∈ runs s).
  { intros r Hr. unfold cleanup in Hr. cbn in Hr. destruct (active s) as [id|]; [|done].
    destruct (phase_of s id) as [[]|]; [by apply elem_without in Hr as [? _]|done|done]. }
  assert (Hno : forall id a n, (id, Waiting a n) ∉ runs (cleanup s)).
  { intros id a n Hin. pose proof (Hsub _ Hin) as Hin'. pose proof (Hw _ _ _ Hin') as Hact.
    unfold cleanup in Hin. cbn in Hin. rewrite Hact in Hin.
    destruct (phase_of_cases s id) as [[p Hp]|[Hp Hnone]]; [|by apply Hnone in Hin'].
    rewrite Hp in Hin. destruct p as [b m|b z].
    - by apply elem_without in Hin as [_ ?].
    - apply phase_of_elem in Hp. by pose proof (unique_phase _ _ _ _ Hu Hp Hin'). }
  split; [constructor|exact Hno].
  - intros id p Hin. apply Hsub in Hin. cbn. by eapply Hf.
  - unfold cleanup. cbn. destruct (active s) as [id|]; [|done]. destruct (phase_of s id) as [[]|]; [by apply without_NoDup|done|done].
  - intros id a n Hin. by apply Hno in Hin.
  - done.
Qed.

Lemma settle_inv s id r : inv s -> inv (settle s id r).
Proof.
  intros [Hf Hu Hw Ha]. unfold settle.
  assert (H : inv {| simDetails := simDetails s; simError := simError s; isSimulating := isSimulating s;
    runs := without (runs s) id; active := active s; next := next s |}).
  { constructor; cbn; [|by apply without_NoDup| |done].
    - intros k p [Hin _]%elem_without. by eapply Hf.
    - intros k a n [Hin _]%elem_without. by eapply Hw. }
  case_bool_decide; [|done]. destruct H as [? ? ? ?]. by constructor.
Qed.

Lemma preview_step_inv s e : inv s -> inv (step s e).
Proof.
  intros Hs. destruct e as [addr text|id|id r]; cbn [step].
  - pose proof (cleanup_inv s Hs) as [[Hf Hu Hw Ha] Hno]. destruct (_ || _).
    + by constructor.
    + constructor; cbn.
      * intros id p [[= -> ->]|Hin]%elem_of_cons; [cbn; lia|]. apply Hf in Hin. cbn in Hin |- *. lia.
      * constructor; [|done]. intros ([k p] & Hk & Hin)%list_elem_of_fmap. cbn in Hk. subst k.
        apply Hf in Hin. cbn in Hin. lia.
      * intros id a n [[= -> -> ->]|Hin]%elem_of_cons; [done|]. by apply Hno in Hin.
      * intros id [= <-]. cbn. lia.
  - destruct (phase_of s id) as [[a n|]|] eqn:Hp; [|done|done]. apply phase_of_elem in Hp.
    destruct Hs as [Hf Hu Hw Ha]. destruct (stroops n) as [z|e].
    + constructor; cbn; [| | |done].
      * intros k p [[= -> ->]|[Hin _]%elem_without]%elem_of_cons; by eapply Hf.
      * constructor; [|by apply without_NoDup]. intros (r & Hr & [Hin Hne]%elem_without)%list_elem_of_fmap. congruence.
      * intros k b m [[=]|[Hin _]%elem_without]%elem_of_cons. by eapply Hw.
    + by apply settle_inv.
  - destruct (phase_of s id) as [[|]|]; [done| |done]. by apply settle_inv.
Qed.

Lemma preview_initial_inv : inv (initial (D := D)).
Proof. constructor; cbn; try done; [set_solver|constructor|set_solver]. Qed.

(** A run that is not the active one changes nothing that is shown. *)
Lemma superseded_answer s id r : active s <> Some id -> view (step s (Answer id r)) = view s.
Proof.
  intros Ha. cbn [step]. destruct (phase_of s id) as [[|]|]; [done| |done]. unfold settle.
  by rewrite bool_decide_false.
Qed.

(** Once the amount is changed, only the answer to that change can replace the preview,
    until the next change. *)
Lemma latest_only es : forall s id, inv s -> active s = Some id ->
  Forall (fun e => is_change e = false) es ->
  let s' := foldl step s es in
  active s' = Some id /\
  (simDetails s' = simDetails s \/ exists d, Answer id (Ok d) ∈ es /\ simDetails s' = Some d).
Proof.
  induction es as [|e es IH]; intros s id Hs Ha Hes; [by split; [|left]|].
  apply list.Forall_cons in Hes as [He Hes]. cbn [foldl].
  assert (H : active (step s e) = Some id /\
    (simDetails (step s e) = simDetails s \/ exists d, e = Answer id (Ok d) /\ simDetails (step s e) = Some d)).
  { destruct e as [|k|k r]; [done| |]; cbn [step].
    - destruct (phase_of s k) as [[a n|]|]; [|by split; [|left]|by split; [|left]].
      destruct (stroops n); [by split; [|left]|]. unfold settle. cbn [active]. case_bool_decide; by split; [|left].
    - destruct (phase_of s k) as [[|]|]; [by split; [|left]| |by split; [|left]]. unfold settle.
      case_bool_decide as Hk; [|by split; [|left]]. rewrite Ha in Hk. injection Hk as <-.
      cbn. split; [done|]. destruct r as [d|e]; [right; by exists d|by left]. }
  destruct H as [Ha' Hd].
  destruct (IH (step s e) id (preview_step_inv s e Hs) Ha' Hes) as [Ha2 Hd2]. split; [done|].
  destruct Hd2 as [Hd2|(d & Hin & Hd2)]; [|right; exists d; split; [by right|done]].
  destruct Hd as [Hd|(d & -> & Hd)]; [left; congruence|]. right. exists d. split; [by left|congruence].
Qed.

(** The number of a new run is the one its timer and its request carry. *)
Lemma change_starts s a text : inv s -> a <> "" -> positive_amount text = true ->
  let s' := step s (Change (Some a) text) in
  active s' = Some (next s) /\ phase_of s' (next s) = Some (Waiting a (amount_of text)) /\ simDetails s' = simDetails s.
Proof.
  intros Hs Ha Ht. cbn [step opt_str_truthy]. destruct (String.eqb_spec a ""); [done|]. rewrite Ht. cbn [negb orb].
  split; [done|]. split; [|done]. unfold phase_of. cbn. by rewrite Nat.eqb_refl.
Qed.

(** After any events, once an amount is typed the preview stays as it was until the
    request made for that very change answers; requests made for earlier amounts are
    ignored whenever they answer. *)
Theorem preview_latest_wins es a text es' (Ha : a <> "") (Ht : positive_amount text = true)
  (Hes' : Forall (fun e => is_change e = false) es') :
  let s := foldl step (initial (D := D)) es in
  let s' := foldl step (step s (Change (Some a) text)) es' in
  simDetails s' = simDetails s \/ exists d, Answer (next s) (Ok d) ∈ es' /\ simDetails s' = Some d.
Proof.
  cbn zeta.
  assert (Hs : inv (foldl step (initial (D := D)) es)).
  { generalize preview_initial_inv. generalize (initial (D := D)). induction es as [|e l IH]; intros s Hs; [done|].
    cbn. by apply IH, preview_step_inv. }
  destruct (change_starts _ a text Hs Ha Ht) as (Hact & _ & Hsame).
  destruct (latest_only es' _ _ (preview_step_inv _ _ Hs) Hact Hes') as [_ H]. by rewrite Hsame in H.
Qed.

(** When the field is emptied while a simulation is in flight, the spinner stays: no
    answer clears it. *)
Lemma spinner_stuck es : forall s, inv s -> active s = None -> isSimulating s = true ->
  Forall (fun e => is_change e = false) es -> isSimulating (foldl step s es) = true.
Proof.
  induction es as [|e es IH]; intros s Hs Ha Hsim Hes; [done|]. apply list.Forall_cons in Hes as [He Hes].
  cbn [foldl]. apply IH; [by apply preview_step_inv| | |done].
  - destruct e as [|k|k r]; [done| |]; cbn [step].
    + destruct (phase_of s k) as [[a n|]|] eqn:Hp; [|done|done]. apply phase_of_elem, (i_waiting s Hs) in Hp. congruence.
    + destruct (phase_of s k) as [[|]|]; [done| |done]. unfold settle. by case_bool_decide.
  - destruct e as [|k|k r]; [done| |]; cbn [step].
    + destruct (phase_of s k) as [[a n|]|] eqn:Hp; [|done|done]. apply phase_of_elem, (i_waiting s Hs) in Hp. congruence.
    + destruct (phase_of s k) as [[|]|]; [done| |done]. unfold settle. rewrite Ha. by case_bool_decide.
Qed.

Lemma emptied_field_leaves_the_spinner es :
  Forall (fun e => is_change e = false) es ->
  isSimulating (foldl step (initial (D := D)) (Change (Some "GA") "5" :: Fire 0 :: Change (Some "GA") "" :: es)) = true.
Proof.
  intros Hes. cbn [foldl]. apply spinner_stuck; [|by vm_compute|by vm_compute|done].
  by repeat apply preview_step_inv; apply preview_initial_inv.
Qed.
End Facts.
End PreviewFacts.

(** ** Properties of the submit handlers *)
Section HandlerFacts.
Context {Env : Type} (deposit : Z -> AssetType -> Env -> res string * Env).

(** What a submission of the deposit form does: nothing for an amount that is not
    positive, one deposit of its stroops otherwise; the field is emptied only after a
    deposit that succeeded, and a failure is thrown to the caller. *)
Lemma handleDeposit_spec text env :
  let '(r, l) := run (handleDeposit deposit text) env in
  if positive_amount text then
    match stroops (amount_of text) with
    | Throw e => r = Throw e /\ l = [SetDepositError None]
    | Ok z => exists res, l = SetDepositError None :: DepositCall z USDC res ::
                                match res with Ok _ => [SetDepositAmount ""] | Throw _ => [] end /\
                          r = match res with Ok _ => Ok tt | Throw e => Throw e end
    end
  else r = Ok tt /\ l = [SetDepositError (Some "Enter an amount greater than zero.")].
Proof.
  unfold handleDeposit, run, mbind, M_bind, emit, lift, io. destruct (positive_amount text); cbn; [|done].
  destruct (stroops (amount_of text)) as [z|e]; cbn; [|done].
  destruct (deposit z USDC env) as [[h|e] env'] eqn:Hd; cbn;
    [by exists (Ok h)|by exists (Throw e)].
Qed.
End HandlerFacts.

(** C32: what is typed as a decimal of at most seven places passes the test of the handlers and
    asks for the stroops the SDK's parser gives for the same text, or for one stroop less:
    the product is a floating point number and its fraction is dropped. *)
Theorem typed_amount_within_a_stroop ip fp N (Hip : Str.all Str.is_digit ip = true) (Hip0 : ip <> "")
  (Hfp : Str.all Str.is_digit fp = true) (Hd : (Str.len fp <= 7)%nat)
  (HN : fromUsdc (usdc_literal false ip fp) = Ok N) (Hb : 0 < N < 2 ^ 50) :
  positive_amount (usdc_literal false ip fp) = true /\
  exists z, stroops (amount_of (usdc_literal false ip fp)) = Ok z /\ N - 1 <= z <= N.
Proof.
  destruct (float_stroops ip fp Hip Hip0 Hfp Hd N HN Hb) as [(Hf & Hl & _) Hz].
  unfold positive_amount, stroops, amount_of. rewrite parse_number_literal by done.
  by rewrite Hf, Hl.
Qed.

(** A withdrawal is put up for confirmation only for a positive amount, and for no more
    shares than the position holds. *)
Lemma handleWithdraw_spec address position text action :
  handleWithdraw address position text = Ok (Requested action) ->
  positive_amount text = true /\ stroops (amount_of text) = Ok (ConfirmDialog.fn action) /\
  ConfirmDialog.fn action <= default 0 position.
Proof.
  unfold handleWithdraw. destruct (Num.is_finite (amount_of text)) eqn:Hf.
  - destruct (stroops (amount_of text)) as [z|e]; cbn; [|done].
    destruct (positive_amount text); cbn; [|done]. destruct (Z.ltb_spec (default 0 position) z); [done|].
    by intros [= <-].
  - cbn. unfold positive_amount. by rewrite Hf.
Qed.

(** An amount below one stroop passes the test and asks for nothing; one that overflows
    as a product is not caught. *)
Lemma amounts_at_the_edges :
  handleWithdraw (Some "GA") None "0.00000001" =
    Ok (Requested {| ConfirmDialog.label := "Withdraw LP liquidity"; ConfirmDialog.invoiceId := "GA";
                     ConfirmDialog.fn := 0 |}) /\
  is_ok (handleWithdraw (Some "GA") None "1e305") = false /\
  handleWithdraw (Some "GA") (Some 5) "-1" = Ok (Refused "Enter an amount greater than zero.") /\
  stroops (amount_of "0.41") = Ok 4099999.
Proof. vm_compute. repeat split. Qed.

Lemma ltb_leb a b : Num.ltb a b = true -> Num.leb a b = true.
Proof.
  unfold Num.ltb, Num.leb, SpecFloat.SFltb, SpecFloat.SFleb. by destruct (SpecFloat.SFcompare a b) as [[]|].
Qed.

(** The share of the pool that is lent stays on the dial. *)
Lemma utilization_range bps : Num.is_nan (Num.div (default Num.zero bps) (Num.of_Z 100)) = false ->
  Num.leb Num.zero (utilization bps) = true /\ Num.leb (utilization bps) (Num.of_Z 100) = true.
Proof.
  intros Hn. unfold utilization. set (u := Num.div _ _) in *.
  pose proof (max_leb Num.zero u eq_refl Hn) as Hu.
  assert (Hz : Num.leb Num.zero (math_max Num.zero u) = true).
  { unfold math_max. rewrite Hn. cbn [orb]. change (Num.is_nan Num.zero) with false. cbn iota.
    destruct (Num.ltb Num.zero u) eqn:Hl; [by apply ltb_leb|done]. }
  pose proof (max_nan Num.zero u eq_refl Hn) as Hm. unfold math_min. rewrite Hm.
  change (Num.is_nan (Num.of_Z 100)) with false. cbn [orb].
  destruct (Num.ltb (math_max Num.zero u) (Num.of_Z 100)) eqn:Hl.
  - split; [done|by apply ltb_leb].
  - split; [done|]. reflexivity.
Qed.

(** ** Witnesses *)
Lemma typed_amount_within_a_stroop_witness :
  positive_amount "0.41" = true /\ exists z, stroops (amount_of "0.41") = Ok z /\ 4100000 - 1 <= z <= 4100000.
Proof.
  exact (typed_amount_within_a_stroop "0" "41" 4100000 eq_refl ltac:(discriminate) eq_refl ltac:(cbn; lia) eq_refl ltac:(lia)).
Defined.
Import Preview.
Lemma preview_latest_wins_witness :
  let s := foldl step (initial (D := Z)) [Change (Some "GA") "5"; Fire 0] in
  let s' := foldl step (step s (Change (Some "GA") "7")) [Answer 0 (Ok 50); Fire 1; Answer 1 (Ok 70)] in
  simDetails s' = Some 70 /\ (simDetails s' = simDetails s \/
    exists d, Answer (next s) (Ok d) ∈ [Answer 0 (Ok 50); Fire 1; Answer 1 (Ok 70)] /\ simDetails s' = Some d).
Proof.
  split; [vm_compute; reflexivity|].
  refine (PreviewFacts.preview_latest_wins [Change (Some "GA") "5"; Fire 0] "GA" "7"
    [Answer 0 (Ok 50); Fire 1; Answer 1 (Ok 70)] _ _ _).
  - congruence.
  - vm_compute. reflexivity.
  - repeat constructor.
Defined.
