(* ===== verification/Preferences.v ===== *)
(** * Settings and profile preferences
    ([apps/web/app/settings/page.tsx], [NotificationPreferences] of
    [apps/web/app/profile/page.tsx])

    The display preferences and the document they are published on, the notification
    toggles of the connected wallet, and the button that clears the stored data. *)

From S2P Require Import Prelude JsNumber JsString JsValue JsJson JsonRoundTrip Schemas Storage.
From S2P Require Import Notifications Marketplace.
Import RoundTrip.

(** ** Display preferences *)
Module Display.
Definition DISPLAY_KEY : string := "trusttrove:display".
Record prefs := { density : jsval; animations : bool; reducedMotion : bool }.
Definition defaults : prefs := {| density := JStr "comfortable"; animations := true; reducedMotion := false |}.

(** The effect that loads: each stored member replaces the state when it qualifies. *)
Definition load (s : storage) (d : prefs) : prefs :=
  match getItem s DISPLAY_KEY with
  | Ok (Some stored) =>
      if String.eqb stored "" then d
      else match Json.parse stored with
           | Ok p =>
               if is_nullish p then d
               else
                 {| density := if truthy (field p "density") then field p "density" else density d;
                    animations := match field p "animations" with JBool b => b | _ => animations d end;
                    reducedMotion := match field p "reducedMotion" with JBool b => b | _ => reducedMotion d end |}
           | Throw _ => d
           end
  | _ => d
  end.
Definition prefs_value (d : prefs) : jsval :=
  JObj [("density", density d); ("animations", JBool (animations d)); ("reducedMotion", JBool (reducedMotion d))].
Definition saveDisplayPrefs (s : storage) (d : prefs) : storage := store_json s DISPLAY_KEY (prefs_value d).

(** The attributes and the class of the root element. *)
Record root := { data_density : string; data_animations : string; reduce_motion : bool }.
Definition publish (d : prefs) : root :=
  {| data_density := to_str (density d); data_animations := if animations d then "on" else "off";
     reduce_motion := reducedMotion d |}.

Record state := { store : storage; shown : prefs; doc : root }.
(** The effect that saves and publishes the values of a render. *)
Definition sync (st : state) : state :=
  {| store := saveDisplayPrefs (store st) (shown st); shown := shown st; doc := publish (shown st) |}.

(** The first render has the defaults: its effects read the stored values, then save and
    publish the defaults; the next render has the values read. *)
Definition mount (s : storage) (r : root) : state :=
  let loaded := load s defaults in
  let st := sync {| store := s; shown := defaults; doc := r |} in
  sync {| store := store st; shown := loaded; doc := doc st |}.
Inductive event := SetDensity (d : string) | SetAnimations (b : bool) | SetReducedMotion (b : bool).
Definition step (st : state) (e : event) : state :=
  let p := shown st in
  sync {| store := store st; doc := doc st; shown :=
    match e with
    | SetDensity d => {| density := JStr d; animations := animations p; reducedMotion := reducedMotion p |}
    | SetAnimations b => {| density := density p; animations := b; reducedMotion := reducedMotion p |}
    | SetReducedMotion b => {| density := density p; animations := animations p; reducedMotion := b |}
    end |}.
End Display.

(** ** Notification toggles *)
Module Toggles.
Record state := { store : storage; address : string; prefs : jsval }.
Definition mount (s : storage) (a : string) : state :=
  {| store := s; address := a; prefs := readStoredPrefs s (prefsStorageKey a) |}.

(** [prefs[category] !== false]: what a toggle shows. *)
Definition checked (p : jsval) (category : string) : res bool :=
  v ← member p category; Ok (match v with JBool false => false | _ => true end).

Definition toggleCategory (st : state) (category : string) : res state :=
  v ← member (prefs st) category;
  let nextPrefs := JObj (set (own_fields (prefs st)) category (JBool (negb (truthy v)))) in
  Ok {| store := store_json (store st) (prefsStorageKey (address st)) nextPrefs; address := address st;
        prefs := nextPrefs |}.
(** The connected wallet changes: its own preferences are read. *)
Definition setAddress (st : state) (a : string) : state :=
  {| store := store st; address := a; prefs := readStoredPrefs (store st) (prefsStorageKey a) |}.
End Toggles.

(** ** The button that clears the stored data *)
Definition clear_message : string := "Local data cleared. Page will reload.".
(** The storage afterwards, the message shown and whether the page reloads. *)
Definition clearAllLocalData (confirmed : bool) (s : storage) : storage * option string * bool :=
  if confirmed then
    match clearAppStorage s with
    | Ok (_, s') => (s', Some clear_message, true)
    | Throw _ => (s, Some "Failed to clear local data.", false)
    end
  else (s, None, false).

(** ** The display follows the preferences and survives a reload *)
Module DisplayFacts.
Import Display.

Definition good (d : prefs) : Prop := storable (density d) = true /\ truthy (density d) = true.
Record inv (st : state) : Prop := {
  i_available : available (store st);
  i_good : good (shown st);
  i_stored : load (store st) defaults = shown st;
  i_doc : doc st = publish (shown st) }.

Lemma load_saved s d d0 : available s -> good d -> load (saveDisplayPrefs s d) d0 = d.
Proof.
  intros Ha [Hs Ht].
  destruct (store_json_lookup s DISPLAY_KEY (prefs_value d) Ha) as (t & Hl & Hne & Hp).
  { cbn [prefs_value storable]. rewrite bool_decide_true by (by apply (bool_decide_eq_true_1 _); vm_compute).
    cbn. by rewrite Hs. }
  destruct (store_json_available s DISPLAY_KEY (prefs_value d) Ha) as [Hr _].
  unfold load, getItem, saveDisplayPrefs. rewrite Hr, Hl. destruct (String.eqb_spec t ""); [done|].
  rewrite Hp. cbn [is_nullish prefs_value field prop get default String.eqb Ascii.eqb Bool.eqb].
  destruct d as [de an re]. cbn in *. by rewrite Ht.
Qed.

Lemma sync_inv st : available (store st) -> good (shown st) -> inv (sync st).
Proof.
  intros Ha Hg. constructor; cbn; [by apply store_json_available|done|by apply load_saved|done].
Qed.

Definition event_ok (e : event) : Prop := match e with SetDensity d => d <> "" | _ => True end.
Lemma display_step_inv st e : event_ok e -> inv st -> inv (step st e).
Proof.
  intros He [Ha [Hs Ht] _ _]. apply sync_inv; [done|]. destruct e as [d|b|b]; split; cbn; try done.
  cbn in He. by destruct (String.eqb_spec d "").
Qed.
Lemma mount_inv s r : available s -> good (load s defaults) -> inv (mount s r) /\ shown (mount s r) = load s defaults.
Proof.
  intros Ha Hg. split; [|done]. apply sync_inv; [|done].
  exact (store_json_available s DISPLAY_KEY (prefs_value defaults) Ha).
Qed.

(** the root element always carries the display preferences shown, and a reload shows
    the ones last chosen, although the first render saves the defaults before it has
    read them. *)
Theorem display_survives_reload s r es r' (Ha : available s) (Hg : good (load s defaults))
  (Hes : Forall event_ok es) :
  let st := foldl step (mount s r) es in
  doc st = publish (shown st) /\
  shown (mount (store st) r') = shown st /\ doc (mount (store st) r') = publish (shown st).
Proof.
  cbn zeta. assert (Hi : inv (foldl step (mount s r) es)).
  { assert (Hm : inv (mount s r)) by (by apply mount_inv). revert Hm Hes. generalize (mount s r).
    induction es as [|e es IH]; intros st Hst Hes; [done|]. apply list.Forall_cons in Hes as [He Hes].
    cbn. apply IH; [by apply display_step_inv|done]. }
  destruct Hi as [Ha' Hg' Hst Hd]. split; [done|].
  assert (Hsh : shown (mount (store (foldl step (mount s r) es)) r') = shown (foldl step (mount s r) es)).
  { change (load (store (foldl step (mount s r) es)) defaults = shown (foldl step (mount s r) es)). done. }
  split; [done|]. change (doc (mount ?x ?y)) with (publish (shown (mount x y))). by rewrite Hsh.
Qed.
End DisplayFacts.

(** ** Toggles *)
Module ToggleFacts.
Import Toggles.

(** What a toggle shows is what the notifications filter keeps. *)
Lemma checked_not_muted p n : is_nullish p = false ->
  not_muted p n = checked p (to_str (field n "type")).
Proof. intros Hp. unfold not_muted, checked, member. by rewrite Hp. Qed.

Lemma prefs_key_inj a b : prefsStorageKey a = prefsStorageKey b -> a = b.
Proof. intros H. by injection H. Qed.

(** A click on a category that is stored flips what is shown for it and for no other
    category, stores the result for the connected wallet, where the next load finds it,
    and leaves the preferences of other wallets as they were. *)
Theorem toggle_spec st fs c b (Ha : available (store st)) (Hp : prefs st = JObj fs)
  (Hs : storable (JObj fs) = true) (Hb : get fs c = Some (JBool b)) :
  exists st', toggleCategory st c = Ok st' /\
    checked (prefs st) c = Ok b /\ checked (prefs st') c = Ok (negb b) /\
    (forall c', c' <> c -> checked (prefs st') c' = checked (prefs st) c') /\
    prefs (setAddress st' (address st)) = prefs st' /\
    forall a, a <> address st -> prefs (setAddress st' a) = prefs (setAddress st a).
Proof.
  unfold toggleCategory, member. rewrite Hp. cbn [is_nullish field own_fields].
  unfold prop. rewrite Hb. cbn [default].
  eexists. split; [reflexivity|]. cbn [prefs store address truthy id].
  assert (Hst : storable (JObj (set fs c (JBool (negb b)))) = true).
  { cbn [storable] in Hs |- *. apply andb_prop in Hs as [Hnd%bool_decide_eq_true_1 Hf].
    rewrite set_storable by done. rewrite bool_decide_true; [done|]. by apply set_NoDup. }
  split; [by unfold checked, member; cbn; unfold prop; rewrite Hb; destruct b|].
  split; [by unfold checked, member; cbn [is_nullish field]; unfold prop; rewrite get_set_eq; destruct b|].
  split; [intros c' Hc; unfold checked, member; cbn [is_nullish field]; unfold prop; by rewrite get_set_ne|].
  destruct (store_json_lookup (store st) (prefsStorageKey (address st)) _ Ha Hst) as (t & Hl & Hne & Hparse).
  destruct (store_json_available (store st) (prefsStorageKey (address st)) (JObj (set fs c (JBool (negb b)))) Ha) as [Hr _].
  split.
  - unfold setAddress, readStoredPrefs, getItem. cbn [prefs store]. rewrite Hr, Hl.
    destruct (String.eqb_spec t ""); [done|]. by rewrite Hparse.
  - intros a Hne'. unfold setAddress, readStoredPrefs, getItem. cbn [prefs store]. rewrite Hr.
    destruct Ha as [Hr' _]. rewrite Hr'. rewrite store_json_other; [done|]. by intros ?%prefs_key_inj.
Qed.

(** A category the stored preferences do not have is shown as enabled; the first click
    stores it as enabled. *)
Lemma first_click_on_a_missing_category st fs c : prefs st = JObj fs -> get fs c = None ->
  exists st', toggleCategory st c = Ok st' /\
    checked (prefs st) c = Ok true /\ checked (prefs st') c = Ok true.
Proof.
  intros Hp Hc. unfold toggleCategory, member, checked, member. rewrite Hp. cbn [is_nullish field own_fields].
  unfold prop. rewrite Hc. eexists. split; [reflexivity|]. cbn. unfold prop. by rewrite get_set_eq.
Qed.

(** Preferences of notifications that can be toggled and written back. *)
Definition togglable (d : storage) : Prop := forall a, exists fs,
  readStoredPrefs d (prefsStorageKey a) = JObj fs /\ RoundTrip.storable (JObj fs) = true.
Lemma prefs_other d d' a : readable d' = readable d ->
  lookup_item (items d') (prefsStorageKey a) = lookup_item (items d) (prefsStorageKey a) ->
  readStoredPrefs d' (prefsStorageKey a) = readStoredPrefs d (prefsStorageKey a).
Proof. intros Hr Hl. unfold readStoredPrefs, getItem. by rewrite Hr, Hl. Qed.

(** The toggles after a click are those a new mount would read, for this wallet and any other. *)
Lemma toggled_prefs d a fs c : available d -> RoundTrip.storable (JObj fs) = true ->
  let next := JObj (JsValue.set fs c (JBool (negb (truthy (default JUndef (get fs c)))))) in
  RoundTrip.storable next = true /\
  readStoredPrefs (store_json d (prefsStorageKey a) next) (prefsStorageKey a) = next /\
  forall b, b <> a -> readStoredPrefs (store_json d (prefsStorageKey a) next) (prefsStorageKey b) = readStoredPrefs d (prefsStorageKey b).
Proof.
  intros Ha Hs next. assert (Hst : RoundTrip.storable next = true).
  { unfold next. cbn [RoundTrip.storable] in Hs |- *. apply andb_prop in Hs as [Hnd%bool_decide_eq_true_1 Hf].
    rewrite set_storable by done. rewrite bool_decide_true; [done|]. by apply set_NoDup. }
  destruct (store_json_lookup d (prefsStorageKey a) next Ha Hst) as (t & Hl & Hne & Hp).
  destruct (store_json_available d (prefsStorageKey a) next Ha) as [Hr _]. split; [done|]. split.
  - unfold readStoredPrefs, getItem. rewrite Hr, Hl. destruct (String.eqb_spec t ""); [done|]. by rewrite Hp.
  - intros b Hb. apply prefs_other; [by rewrite Hr, (proj1 Ha)|]. apply store_json_other. by intros ?%prefs_key_inj.
Qed.

Lemma toggle_runs d a fs c :
  Toggles.toggleCategory {| Toggles.store := d; Toggles.address := a; Toggles.prefs := JObj fs |} c =
  let next := JObj (JsValue.set fs c (JBool (negb (truthy (default JUndef (get fs c)))))) in
  Ok {| Toggles.store := store_json d (prefsStorageKey a) next; Toggles.address := a; Toggles.prefs := next |}.
Proof. done. Qed.
End ToggleFacts.

(** ** Clearing *)

(** Once the data is cleared and the page reloads, every preference, cached filter
    and saved search is back at its default; refusing the question changes nothing. *)
Theorem cleared_is_default s s' m reload (H : clearAllLocalData true s = (s', m, reload)) (Hr : reload = true) :
  initial_filters s' = default_filters /\ (forall a, Presets.readPresetsFromStorage s' a = []) /\
  Display.load s' Display.defaults = Display.defaults /\ readStoredTheme s' = None /\
  (forall a, readStoredPrefs s' (prefsStorageKey a) = default_prefs) /\
  (forall a, sn_items (readStoredNotifications s' (notificationHistoryKey a)) = []) /\
  clearAllLocalData false s = (s, None, false).
Proof.
  unfold clearAllLocalData in H. destruct (clearAppStorage s) as [[removed s1]|e] eqn:Hc; [|injection H; congruence].
  injection H as <- _ _.
  assert (Hg : forall k, isAppStorageKey k = true -> getItem s1 k = Ok None).
  { intros k Hk. destruct (clear_lookup s removed s1 k Hc) as [Hread Hl]. unfold getItem. by rewrite Hread, Hl, Hk. }
  split; [unfold initial_filters, readFiltersFromStorage; by rewrite Hg|].
  split; [intros a; unfold Presets.readPresetsFromStorage; rewrite Hg; [done|]|].
  { unfold Presets.key. by destruct (opt_str_truthy a). }
  split; [unfold Display.load; by rewrite Hg|]. split; [unfold readStoredTheme; by rewrite Hg|].
  split; [intros a; unfold readStoredPrefs; by rewrite Hg|].
  split; [intros a; unfold readStoredNotifications; by rewrite Hg|done].
Qed.

(** ** Witnesses *)
Lemma display_survives_reload_witness :
  let st := foldl Display.step (Display.mount empty_storage (Display.publish Display.defaults))
              [Display.SetDensity "compact"; Display.SetAnimations false] in
  Display.shown (Display.mount (Display.store st) (Display.publish Display.defaults)) =
    {| Display.density := JStr "compact"; Display.animations := false; Display.reducedMotion := false |}.
Proof.
  cbn zeta. rewrite (proj1 (proj2 (DisplayFacts.display_survives_reload empty_storage (Display.publish Display.defaults)
    [Display.SetDensity "compact"; Display.SetAnimations false] (Display.publish Display.defaults)
    empty_available ltac:(split; reflexivity) ltac:(repeat constructor; discriminate)))).
  reflexivity.
Defined.

Definition toggles_state : Toggles.state := Toggles.mount empty_storage "GA".
Lemma toggle_spec_witness :
  exists st', Toggles.toggleCategory toggles_state "Invoice Listed" = Ok st' /\
    Toggles.checked (Toggles.prefs st') "Invoice Listed" = Ok false /\
    Toggles.prefs (Toggles.setAddress st' "GB") = default_prefs.
Proof.
  destruct (ToggleFacts.toggle_spec toggles_state _ "Invoice Listed" true empty_available eq_refl
    ltac:(vm_compute; reflexivity) ltac:(vm_compute; reflexivity)) as (st' & Ht & _ & Hc & _ & _ & Ho).
  exists st'. split; [exact Ht|]. split; [exact Hc|]. rewrite (Ho "GB") by discriminate. reflexivity.
Defined.

Lemma cleared_is_default_witness :
  let s := store_json empty_storage Display.DISPLAY_KEY (JObj [("density", JStr "compact")]) in
  let s' := (clearAllLocalData true s).1.1 in
  Display.density (Display.load s Display.defaults) = JStr "compact" /\
  Display.load s' Display.defaults = Display.defaults.
Proof.
  cbn zeta. split; [vm_compute; reflexivity|]. set (s := store_json _ _ _).
  assert (H : clearAllLocalData true s = ((clearAllLocalData true s).1.1, Some clear_message, true)) by reflexivity.
  exact (proj1 (proj2 (proj2 (cleared_is_default s _ _ _ H eq_refl)))).
Defined.
