(* ===== verification/EventViews.v ===== *)
(** * Where events are shown

    The event log of the indexer is shown in four places: the live feed of the landing page
    ([components/shared/InvoiceFeed.tsx]), the ticker ([components/shared/TopStatusBar.tsx]),
    the activity log of the dashboard ([app/dashboard/page.tsx]) and the notification bell
    ([components/shared/NotificationBell.tsx]).  Each formats the age of an event and names
    its type on its own; the theorems say that they agree.  The translations of the dashboard
    and the number format of the browser are arguments.  Event types are those of the
    indexer, none of them the name of a property every object has. *)

From S2P Require Import Prelude JsNumber JsRounding JsString JsValue JsJson JsonRoundTrip SdkTypes WebParsers.
From S2P Require Import Schemas Storage Wallet Notifications.
Local Open Scope Z_scope.

(** ** The age of an event *)
(** [Math.floor(Date.now() / 1000) - timestamp]. *)
Definition seconds_since (nowMs : Z) (timestamp : num) : num := Num.sub (Num.of_Z (nowMs / 1000)) timestamp.
Definition whole (diff : num) (unit : Z) : string := Num.to_string (Num.floor (Num.div diff (Num.of_Z unit))).

Definition formatTime (nowMs : Z) (timestamp : num) : string :=
  let diff := seconds_since nowMs timestamp in
  if Num.ltb diff (Num.of_Z 60) then "just now"
  else if Num.ltb diff (Num.of_Z 3600) then whole diff 60 +:+ "m ago"
  else if Num.ltb diff (Num.of_Z 86400) then whole diff 3600 +:+ "h ago"
  else whole diff 86400 +:+ "d ago".

Definition formatRelativeTime (nowMs : Z) (ledgerClosedAt : num) : string :=
  let diff := seconds_since nowMs ledgerClosedAt in
  if Num.ltb diff (Num.of_Z 60) then "just now"
  else if Num.ltb diff (Num.of_Z 3600) then whole diff 60 +:+ " min ago"
  else if Num.ltb diff (Num.of_Z 86400) then whole diff 3600 +:+ "h ago"
  else whole diff 86400 +:+ "d ago".

(** ** The live feed *)
Definition FEED_LIMIT : nat := 6.
Inductive FeedIcon := FilePlus2 | Tag | Coins | Truck | PackageCheck | BadgeCheck | AlertTriangle | Activity.
#[export] Instance FeedIcon_eq_dec : EqDecision FeedIcon.
Proof. solve_decision. Defined.
Record FeedEntry := { fe_id : num; fe_label : string; fe_details : string; fe_time : string; fe_icon : FeedIcon }.

Definition lookup_type {A} (table : list (string * A)) (event_type : string) : option A :=
  snd <$> List.find (fun kv => String.eqb kv.1 event_type) table.

Definition EVENT_LABELS : list (string * string) :=
  [("InvoiceCreated", "Invoice Created"); ("create", "Invoice Created");
   ("InvoiceListed", "Invoice Listed"); ("list_for_financing", "Invoice Listed");
   ("InvoiceFunded", "Invoice Funded"); ("fund_invoice", "Invoice Funded");
   ("InvoiceShipped", "Invoice Shipped"); ("mark_shipped", "Invoice Shipped");
   ("DeliveryConfirmed", "Delivery Confirmed"); ("confirm_delivery", "Delivery Confirmed");
   ("InvoiceRepaid", "Invoice Repaid"); ("repay", "Invoice Repaid");
   ("InvoiceDefaulted", "Invoice Defaulted"); ("trigger_default", "Invoice Defaulted")].

Definition EVENT_ICONS : list (string * FeedIcon) :=
  [("InvoiceCreated", FilePlus2); ("create", FilePlus2); ("InvoiceListed", Tag); ("list_for_financing", Tag);
   ("InvoiceFunded", Coins); ("fund_invoice", Coins); ("InvoiceShipped", Truck); ("mark_shipped", Truck);
   ("DeliveryConfirmed", PackageCheck); ("confirm_delivery", PackageCheck);
   ("InvoiceRepaid", BadgeCheck); ("repay", BadgeCheck);
   ("InvoiceDefaulted", AlertTriangle); ("trigger_default", AlertTriangle)].

(** The last character of the short id, outside ASCII like [em_dash]. *)
Definition ellipsis : string := String (chr 133) "".

Definition toFeedEntry (nowMs : Z) (event : EventLog) : FeedEntry :=
  let invoiceId := nullish (getEventDataString event "invoice_id") "" in
  {| fe_id := ev_id event;
     fe_label := opt_str_or (lookup_type EVENT_LABELS (ev_event_type event)) (ev_event_type event);
     fe_details := if String.eqb invoiceId "" then "On-chain event"
                   else "INV#" +:+ Str.slice 0 6 invoiceId +:+ ellipsis;
     fe_time := formatRelativeTime nowMs (ev_ledger_closed_at event);
     fe_icon := default Activity (lookup_type EVENT_ICONS (ev_event_type event)) |}.

Definition feed_items (nowMs : Z) (events : list EventLog) : list FeedEntry :=
  map (toFeedEntry nowMs) (take FEED_LIMIT events).

(** ** The activity log of the dashboard *)
Section Dashboard.
Context (t : string -> list (string * jsval) -> string).

Definition typeMap_keys : list (string * string) :=
  [("InvoiceCreated", "activity.types.created"); ("create", "activity.types.created");
   ("InvoiceListed", "activity.types.listed"); ("list_for_financing", "activity.types.listed");
   ("InvoiceFunded", "activity.types.funded"); ("fund_invoice", "activity.types.funded");
   ("InvoiceShipped", "activity.types.shipped"); ("mark_shipped", "activity.types.shipped");
   ("DeliveryConfirmed", "activity.types.deliveryConfirmed"); ("confirm_delivery", "activity.types.deliveryConfirmed");
   ("InvoiceRepaid", "activity.types.repaid"); ("repay", "activity.types.repaid");
   ("InvoiceDefaulted", "activity.types.defaulted"); ("trigger_default", "activity.types.defaulted")].

Record EventDisplay := { ed_id : num; ed_type : string; ed_details : string; ed_time : string }.

Definition event_details (event : EventLog) : string :=
  let invId := nullish (getEventDataString event "invoice_id") "" in
  let buyer := getEventDataString event "buyer" in
  let invShort := if String.eqb invId "" then "" else t "activity.invoiceRef" [("id", JStr (Str.slice 0 4 invId))] in
  let one_of := event_in (ev_event_type event) in
  if one_of ["InvoiceCreated"; "create"] then
    t "activity.details.created"
      [("invoice", JStr invShort);
       ("buyer", JStr (if opt_str_truthy buyer then Str.slice 0 4 (default "" buyer) +:+ "..."
                       else t "activity.unknownBuyer" []))]
  else if one_of ["InvoiceListed"; "list_for_financing"] then t "activity.details.listed" [("invoice", JStr invShort)]
  else if one_of ["InvoiceFunded"; "fund_invoice"] then t "activity.details.funded" [("invoice", JStr invShort)]
  else if one_of ["InvoiceShipped"; "mark_shipped"] then t "activity.details.shipped" [("invoice", JStr invShort)]
  else if one_of ["DeliveryConfirmed"; "confirm_delivery"] then
    t "activity.details.deliveryConfirmed" [("invoice", JStr invShort)]
  else if one_of ["InvoiceRepaid"; "repay"] then t "activity.details.repaid" [("invoice", JStr invShort)]
  else if one_of ["InvoiceDefaulted"; "trigger_default"] then t "activity.details.defaulted" [("invoice", JStr invShort)]
  else str_or invShort (t "activity.details.fallback" []).

Definition event_time (nowMs : Z) (ledger_closed_at : num) : string :=
  let diff := seconds_since nowMs ledger_closed_at in
  let units u := JNum (Num.floor (Num.div diff (Num.of_Z u))) in
  if Num.ltb diff (Num.of_Z 60) then t "activity.time.justNow" []
  else if Num.ltb diff (Num.of_Z 3600) then t "activity.time.minutesAgo" [("minutes", units 60)]
  else if Num.ltb diff (Num.of_Z 86400) then t "activity.time.hoursAgo" [("hours", units 3600)]
  else t "activity.time.daysAgo" [("days", units 86400)].

Definition formatEventDisplay (nowMs : Z) (event : EventLog) : EventDisplay :=
  {| ed_id := ev_id event;
     ed_type := opt_str_or (option_map (fun k => t k []) (lookup_type typeMap_keys (ev_event_type event))) (ev_event_type event);
     ed_details := event_details event;
     ed_time := event_time nowMs (ev_ledger_closed_at event) |}.
End Dashboard.

(** ** The ticker *)
Module Ticker.
Section Ticker.
(** [Number.prototype.toLocaleString] of the browser. *)
Context (toLocaleString : num -> string).

Record TickerItem := {
  id : string; sme : string; amount : string; discount : string; time : string; country : string }.

(** Every event carries the same flag, a globe outside the 8-bit characters. *)
Definition flag : string := String (chr 127) "".

Definition short (address : string) : string := Str.slice 0 8 address +:+ "...".

Definition formatEventForTicker (nowMs : Z) (event : EventLog) : TickerItem :=
  let invoiceAmount := match getEventDataBigInt event "funded_amount" with
                       | Some z => Some z
                       | None => getEventDataBigInt event "face_value"
                       end in
  let buyer := getEventDataString event "buyer" in
  let issuer := getEventDataString event "issuer" in
  {| id := Num.to_string (ev_id event);
     sme := if opt_str_truthy buyer then short (default "" buyer)
            else if opt_str_truthy issuer then short (default "" issuer) else "Unknown SME";
     amount := match invoiceAmount with
               | Some z => toLocaleString (Num.round (Num.of_Z (Z.quot z 10000000))) +:+ " USDC"
               | None => "0 USDC"
               end;
     discount := match getEventDataNumber event "discount_bps" with
                 | Some bps => Num.to_fixed (Num.div bps (Num.of_Z 100)) 1 +:+ "%"
                 | None => "0.0%"
                 end;
     time := formatTime nowMs (ev_ledger_closed_at event);
     country := flag |}.

Definition placeholderItems : list TickerItem :=
  map (fun i => {| id := i; sme := "Awaiting..."; amount := "0 USDC"; discount := "0.0%"; time := "live";
                 country := flag |})
    ["1"; "2"; "3"; "4"; "5"].

(** What the events query answers, and the state of the bar. *)
Record query := { rawEvents : list EventLog; isLoading : bool; isError : bool }.
Record state := { q : query; isMobile : bool; tickerItems : list TickerItem; isPaused : bool }.

Definition showPlaceholder (q : query) : bool :=
  negb (isLoading q) && negb (isError q) && (length (rawEvents q) =? 0)%nat.

(** The effects, in the order they are declared.  The clearing one is declared twice. *)
Definition clear_on_mobile (mobile : bool) (items : list TickerItem) : list TickerItem :=
  if mobile then [] else items.
Definition format_items (nowMs : Z) (q : query) (mobile : bool) (items : list TickerItem) : list TickerItem :=
  if negb mobile && (0 <? length (rawEvents q))%nat then map (formatEventForTicker nowMs) (rawEvents q) else items.
Definition show_placeholders (q : query) (mobile : bool) (items : list TickerItem) : list TickerItem :=
  if negb mobile && showPlaceholder q then placeholderItems else items.

Definition with_items (s : state) (items : list TickerItem) : state :=
  {| q := q s; isMobile := isMobile s; tickerItems := items; isPaused := isPaused s |}.

(** Every effect runs on mount and after a change of the screen class. *)
Definition all_effects (nowMs : Z) (q : query) (mobile : bool) (items : list TickerItem) : list TickerItem :=
  clear_on_mobile mobile (show_placeholders q mobile (format_items nowMs q mobile (clear_on_mobile mobile items))).

Inductive event :=
  | Answer (nowMs : Z) (events : list EventLog) (loading failed : bool)
  | Status (loading failed : bool)
  | Resize (nowMs innerWidth : Z)
  | TogglePause.

(** A new array of events re-runs the formatting, a change of their condition the
    placeholders. *)
Definition placeholder_effect (q' : query) (s : state) (items : list TickerItem) : state :=
  {| q := q'; isMobile := isMobile s; isPaused := isPaused s;
     tickerItems := if Bool.eqb (showPlaceholder (q s)) (showPlaceholder q') then items
                    else show_placeholders q' (isMobile s) items |}.
Definition answer (nowMs : Z) (q' : query) (s : state) : state :=
  placeholder_effect q' s (format_items nowMs q' (isMobile s) (tickerItems s)).

(** [window.innerWidth < 640]: the state is set on every resize, and the effects run when
    it changes. *)
Definition checkMobile (nowMs innerWidth : Z) (s : state) : state :=
  let mobile := innerWidth <? 640 in
  {| q := q s; isMobile := mobile; isPaused := isPaused s;
     tickerItems := if Bool.eqb mobile (isMobile s) then tickerItems s
                    else all_effects nowMs (q s) mobile (tickerItems s) |}.

Definition step (s : state) (e : event) : state :=
  match e with
  | Answer nowMs events loading failed =>
      answer nowMs {| rawEvents := events; isLoading := loading; isError := failed |} s
  | Status loading failed =>
      let q' := {| rawEvents := rawEvents (q s); isLoading := loading; isError := failed |} in
      placeholder_effect q' s (tickerItems s)
  | Resize nowMs w => checkMobile nowMs w s
  | TogglePause => {| q := q s; isMobile := isMobile s; tickerItems := tickerItems s; isPaused := negb (isPaused s) |}
  end.

(** The first render is that of a wide screen; the effects run, then the width is read. *)
Definition mount (nowMs innerWidth : Z) (q0 : query) : state :=
  checkMobile nowMs innerWidth
    {| q := q0; isMobile := false; isPaused := false; tickerItems := all_effects nowMs q0 false [] |}.
End Ticker.
End Ticker.

(** ** The bell *)
Module Bell.
Record state := { isOpen : bool; seen : Notifications.view }.

Definition is_unread (n : jsval) : bool := negb (truthy (field n "read")).
Definition unreadCount (s : state) : nat := length (List.filter is_unread (notifications (seen s))).

Definition handleClose (s : state) : state := {| isOpen := false; seen := seen s |}.

(** [onOpen] is the [markAllAsRead] of the hook. *)
Definition toggleOpen (address : option string) (s : state) : state :=
  {| isOpen := negb (isOpen s);
     seen := if negb (isOpen s) then markAllAsRead (seen s) address else seen s |}.
End Bell.

(** ** Properties of the age *)
(** The age by integer division: how many units of which size, none below a minute. *)
Definition age (d : Z) : option (Z * Z) :=
  if d <? 60 then None
  else if d <? 3600 then Some (d / 60, 60)
  else if d <? 86400 then Some (d / 3600, 3600)
  else Some (d / 86400, 86400).

Lemma age_bounds d : match age d with
  | None => d < 60
  | Some (n, u) => n * u <= d < (n + 1) * u /\ 1 <= n /\
      (u = 60 /\ n <= 59 \/ u = 3600 /\ n <= 23 \/ u = 86400)
  end.
Proof.
  unfold age. destruct (Z.ltb_spec d 60); [done|]. assert (H0 : 0 <= d) by lia.
  assert (Hq : forall u, 0 < u -> d / u * u <= d < (d / u + 1) * u).
  { intros u Hu. pose proof (Z.div_mod d u ltac:(lia)). pose proof (Z.mod_pos_bound d u Hu). nia. }
  destruct (Z.ltb_spec d 3600); [|destruct (Z.ltb_spec d 86400)].
  - pose proof (Hq 60 ltac:(lia)). nia.
  - pose proof (Hq 3600 ltac:(lia)). nia.
  - pose proof (Hq 86400 ltac:(lia)). nia.
Qed.

Lemma diff_cases {A} (a : A) (k : Z -> num -> A) now ts : 0 <= ts < 2 ^ 52 -> 0 <= now < 2 ^ 52 ->
  let diff := Num.sub (Num.of_Z now) (Num.of_Z ts) in
  (if Num.ltb diff (Num.of_Z 60) then a
   else if Num.ltb diff (Num.of_Z 3600) then k 60 (Num.floor (Num.div diff (Num.of_Z 60)))
   else if Num.ltb diff (Num.of_Z 86400) then k 3600 (Num.floor (Num.div diff (Num.of_Z 3600)))
   else k 86400 (Num.floor (Num.div diff (Num.of_Z 86400)))) =
  match age (now - ts) with None => a | Some (n, u) => k u (Num.of_Z n) end.
Proof.
  intros Hts Hnow. cbn zeta. unfold age. destruct (Z.le_gt_cases ts now).
  - rewrite sub_of_Z by lia. rewrite !of_Z_ltb, !div_floor by lia.
    destruct (_ <? 60); [done|]. destruct (_ <? 3600); [done|]. by destruct (_ <? 86400).
  - destruct (of_Z_plain 60 ltac:(lia)) as [Hp Hv].
    rewrite sub_negative; [|lia|lia|done|by rewrite Hv]. destruct (Z.ltb_spec (now - ts) 60); [done|lia].
Qed.

(** The suffixes and the keys, by the size of the unit. *)
Definition suffix (minutes : string) (u : Z) : string :=
  if u =? 60 then minutes else if u =? 3600 then "h ago" else "d ago".
Definition unit_key (u : Z) : string * string :=
  if u =? 60 then ("activity.time.minutesAgo", "minutes")
  else if u =? 3600 then ("activity.time.hoursAgo", "hours") else ("activity.time.daysAgo", "days").

(** All the views show the same age of an event, the whole number of the largest unit
    that fits in it: 1 to 59 minutes, 1 to 23 hours, or days; an event less than a minute
    old, or dated after the clock of the browser, has just happened. *)
Theorem event_ages t nowMs ts (Hts : 0 <= ts < 2 ^ 52) (Hnow : 0 <= nowMs / 1000 < 2 ^ 52) :
  let d := nowMs / 1000 - ts in
  let shown n := Num.to_string (Num.of_Z n) in
  formatTime nowMs (Num.of_Z ts) =
    match age d with None => "just now" | Some (n, u) => shown n +:+ suffix "m ago" u end /\
  formatRelativeTime nowMs (Num.of_Z ts) =
    match age d with None => "just now" | Some (n, u) => shown n +:+ suffix " min ago" u end /\
  event_time t nowMs (Num.of_Z ts) =
    match age d with
    | None => t "activity.time.justNow" []
    | Some (n, u) => t (unit_key u).1 [((unit_key u).2, JNum (Num.of_Z n))]
    end /\
  match age d with
  | None => d < 60
  | Some (n, u) => n * u <= d < (n + 1) * u /\ 1 <= n /\ (u = 60 /\ n <= 59 \/ u = 3600 /\ n <= 23 \/ u = 86400)
  end.
Proof.
  cbn zeta. split; [|split; [|split]].
  - exact (diff_cases "just now" (fun u x => Num.to_string x +:+ suffix "m ago" u) (nowMs / 1000) ts Hts Hnow).
  - exact (diff_cases "just now" (fun u x => Num.to_string x +:+ suffix " min ago" u) (nowMs / 1000) ts Hts Hnow).
  - exact (diff_cases (t "activity.time.justNow" [])
      (fun u x => t (unit_key u).1 [((unit_key u).2, JNum x)]) (nowMs / 1000) ts Hts Hnow).
  - apply age_bounds.
Qed.

(** ** Properties of the names *)
Definition messages_agree (t : string -> list (string * jsval) -> string) : Prop :=
  forall k label, (k, label) ∈ zip typeMap_keys.*2 EVENT_LABELS.*2 -> t k [] = label.

Lemma lookup_type_cases {A} (table : list (string * A)) ty :
  (lookup_type table ty = None /\ ty ∉ table.*1) \/ exists a, lookup_type table ty = Some a /\ (ty, a) ∈ table.
Proof.
  unfold lookup_type. destruct (List.find _ table) as [[k a]|] eqn:E.
  - right. apply List.find_some in E as [Hin Hk]. apply String.eqb_eq in Hk. cbn in Hk. subst k. exists a.
    split; [done|]. by apply list_elem_of_In.
  - left. split; [done|]. intros ([k a] & -> & Hin)%list_elem_of_fmap.
    apply list_elem_of_In in Hin.
    pose proof (List.find_none _ _ E _ Hin) as H. cbn in H. by rewrite String.eqb_refl in H.
Qed.

(** An event has the same name in the feed, in the notifications and, with messages that
    translate to these names, in the dashboard; a type none of them knows is shown as it is,
    with the default icon. *)
Lemma names_agree t nowMs e (Ht : messages_agree t) :
  let name := fe_label (toFeedEntry nowMs e) in
  field (mapEventToNotification e) "type" = JStr name /\
  ed_type (formatEventDisplay t nowMs e) = name /\
  (fe_icon (toFeedEntry nowMs e) = Activity <-> ev_event_type e ∉ EVENT_LABELS.*1) /\
  (ev_event_type e ∉ EVENT_LABELS.*1 -> name = ev_event_type e).
Proof.
  cbn zeta. unfold toFeedEntry, formatEventDisplay, mapEventToNotification. cbn [fe_label fe_icon ed_type field].
  set (ty := ev_event_type e).
  destruct (decide (ty ∈ EVENT_LABELS.*1)) as [Hin|Hout].
  - assert (Hk : forall k label, (k, label) ∈ zip typeMap_keys.*2 EVENT_LABELS.*2 -> opt_str_or (Some (t k [])) ty = opt_str_or (Some label) ty)
      by (intros k label H; by rewrite (Ht k label H)).
    clearbody ty. clear Ht. split; [|split; [|split; [|done]]].
    + cbn [EVENT_LABELS map fmap list_fmap fst] in Hin. repeat (apply elem_of_cons in Hin as [->|Hin]; [reflexivity|]).
      by apply not_elem_of_nil in Hin.
    + cbn [EVENT_LABELS map fmap list_fmap fst] in Hin. repeat (apply elem_of_cons in Hin as [->|Hin];
        [apply Hk; rewrite list_elem_of_In; cbn; intuition congruence|]). by apply not_elem_of_nil in Hin.
    + split; [|done]. intros H. exfalso. revert H.
      cbn [EVENT_LABELS map fmap list_fmap fst] in Hin. repeat (apply elem_of_cons in Hin as [->|Hin]; [discriminate|]).
      by apply not_elem_of_nil in Hin.
  - assert (Hnone : forall A (table : list (string * A)), table.*1 = EVENT_LABELS.*1 -> lookup_type table ty = None).
    { intros A table Hd. destruct (lookup_type_cases table ty) as [[-> _]|(a & _ & Hin)]; [done|].
      exfalso. apply Hout. rewrite <- Hd. apply list_elem_of_fmap. by exists (ty, a). }
    rewrite !Hnone by reflexivity. cbn [opt_str_or option_map default]. split; [|done].
    assert (typeMap ty = None) as ->; [|done]. unfold typeMap.
    destruct (list_find _ _) as [[i [k a]]|] eqn:E; [|done]. exfalso. apply Hout.
    apply list_find_Some in E as (Hl & Hk & _). cbn in Hk. subst k. apply list_elem_of_lookup_2 in Hl.
    apply list_elem_of_fmap. exists (ty, a). by split.
Qed.

(** ** Properties of the ticker *)
Module TickerFacts.
Import Ticker.
Section Facts.
Context (toLocaleString : num -> string).
Abbreviation step := (Ticker.step toLocaleString).
Abbreviation mount := (Ticker.mount toLocaleString).

Record shows (s : state) : Prop := {
  sh_mobile : isMobile s = true -> tickerItems s = [];
  sh_events : isMobile s = false -> rawEvents (q s) <> [] ->
    exists nowMs, tickerItems s = map (formatEventForTicker toLocaleString nowMs) (rawEvents (q s));
  sh_placeholder : isMobile s = false -> showPlaceholder (q s) = true -> tickerItems s = placeholderItems }.

Lemma placeholder_empty q : showPlaceholder q = true -> rawEvents q = [].
Proof. unfold showPlaceholder. intros [_ H]%andb_prop. apply Nat.eqb_eq in H. by destruct (rawEvents q). Qed.

Lemma format_items_spec nowMs q mobile items :
  format_items toLocaleString nowMs q mobile items =
    if mobile then items else match rawEvents q with [] => items | l => map (formatEventForTicker toLocaleString nowMs) l end.
Proof. unfold format_items. by destruct mobile, (rawEvents q). Qed.

Lemma all_effects_shows nowMs q mobile items paused :
  shows {| q := q; isMobile := mobile; tickerItems := all_effects toLocaleString nowMs q mobile items; isPaused := paused |}.
Proof.
  unfold all_effects, show_placeholders. rewrite format_items_spec.
  split; cbn; intros ->; cbn; [done| |by intros ->].
  intros Hne. destruct (showPlaceholder q) eqn:Hp; [by apply placeholder_empty in Hp|].
  exists nowMs. by destruct (rawEvents q).
Qed.

Lemma placeholder_effect_shows s q' items :
  (isMobile s = true -> items = []) ->
  (isMobile s = false -> rawEvents q' <> [] -> exists nowMs, items = map (formatEventForTicker toLocaleString nowMs) (rawEvents q')) ->
  (isMobile s = false -> showPlaceholder q' = true -> showPlaceholder (q s) = true -> items = placeholderItems) ->
  shows (placeholder_effect q' s items).
Proof.
  intros Hm He Hp. unfold placeholder_effect, show_placeholders. split; cbn; intros Hmob; rewrite Hmob; cbn.
  - rewrite Hm by done. by destruct (Bool.eqb _ _).
  - intros Hne. destruct (showPlaceholder q') eqn:E; [by apply placeholder_empty in E|].
    destruct (Bool.eqb _ _); by apply He.
  - intros E. rewrite E. destruct (showPlaceholder (q s)) eqn:E'; cbn; [by apply Hp|done].
Qed.

Lemma ticker_step_shows s e : shows s -> shows (step s e).
Proof.
  intros [Hm He Hp]. destruct e as [nowMs events loading failed|loading failed|nowMs w|]; cbn [Ticker.step].
  - apply placeholder_effect_shows; cbn [rawEvents]; rewrite format_items_spec; cbn [rawEvents].
    + intros Hmob. rewrite Hmob. by apply Hm.
    + intros -> Hne. exists nowMs. by destruct events.
    + intros Hmob Hq' Hq. rewrite Hmob. apply placeholder_empty in Hq'. cbn in Hq'. subst events. by apply Hp.
  - apply placeholder_effect_shows; cbn [rawEvents]; [done|done|]. intros Hmob _ Hq. by apply Hp.
  - unfold checkMobile. destruct (Bool.eqb _ _) eqn:E; [|apply all_effects_shows].
    apply Bool.eqb_prop in E. rewrite E. by split.
  - by split.
Qed.

(** Whatever answers come and however the window is resized, a narrow screen has no items;
    a wide one has one item per event received, or the placeholders when the answer is
    empty. *)
Theorem ticker_shows_events nowMs w q0 es : shows (foldl step (mount nowMs w q0) es).
Proof.
  assert (H : shows (mount nowMs w q0)).
  { unfold Ticker.mount, checkMobile. cbn [isMobile]. destruct (Bool.eqb _ _) eqn:E; [|apply all_effects_shows].
    apply Bool.eqb_prop in E. rewrite E. apply all_effects_shows. }
  revert H. generalize (mount nowMs w q0). induction es as [|e es IH]; intros s Hs; [done|]. cbn [foldl].
  by apply IH, ticker_step_shows.
Qed.
End Facts.
End TickerFacts.

(** ** Properties of the bell *)
Module BellFacts.
Import Bell.

(** An entry of the history: a notification under its own id. *)
Definition entry (kn : string * jsval) : Prop :=
  isNotificationEvent kn.2 = true /\ kn.1 = notif_id kn.2 /\ exists fs, kn.2 = JObj fs.

Lemma set_Forall (P : string * jsval -> Prop) m k v : Forall P m -> P (k, v) -> Forall P (JsValue.set m k v).
Proof.
  intros Hm Hp. induction Hm as [|[k' v'] m H Hm IH]; cbn; [by repeat constructor|].
  destruct (String.eqb_spec k k') as [->|]; constructor; done.
Qed.

Lemma with_read_other fs r k : k <> "read" -> field (with_read (JObj fs) r) k = field (JObj fs) k.
Proof. intros Hk. unfold with_read. cbn. unfold prop. by rewrite get_set_ne. Qed.

Lemma with_read_entry k fs r : entry (k, JObj fs) -> entry (k, with_read (JObj fs) r).
Proof.
  intros (Hn & Hk & _). cbn [fst snd] in *. unfold entry. cbn [fst snd].
  unfold isNotificationEvent, notif_id in *. rewrite !with_read_other by done.
  split; [|split; [done|by eexists]]. by apply andb_prop in Hn as [[_ H1]%andb_prop H2]; rewrite H1, H2.
Qed.

Lemma mapped_entry e : entry (notif_id (mapEventToNotification e), mapEventToNotification e).
Proof. split; [done|]. split; [done|]. by eexists. Qed.

Lemma merge_entries saved events : Forall (fun n => entry (notif_id n, n)) saved ->
  Forall entry (merge_notifications saved (map mapEventToNotification events)).
Proof.
  intros Hs. unfold merge_notifications.
  assert (H : Forall entry (foldl add_saved [] saved)).
  { assert (H0 : Forall entry []) by constructor. revert H0. generalize ([] : fields).
    induction Hs as [|n saved Hn Hs IH]; intros m Hm; [done|]. cbn [foldl]. by apply IH, set_Forall. }
  revert H. generalize (foldl add_saved [] saved).
  induction events as [|e events IH]; intros m Hm; [done|]. cbn [map foldl]. apply IH. unfold add_mapped.
  destruct (get m _); apply set_Forall; try done; [|apply mapped_entry].
  exact (with_read_entry _ _ _ (mapped_entry e)).
Qed.

Lemma history_entries s key : Forall (fun n => exists fs, n = JObj fs) (sn_items (readStoredNotifications s key)) ->
  Forall (fun n => entry (notif_id n, n)) (sn_items (readStoredNotifications s key)).
Proof.
  intros Ho. apply list.Forall_forall. intros n Hin. rewrite list.Forall_forall in Ho. destruct (Ho n Hin) as [fs ->].
  split; [|split; [done|by eexists]]. cbn [snd]. revert Hin. unfold readStoredNotifications.
  repeat case_match; cbn [sn_items]; try (by intros ?%not_elem_of_nil).
  intros Hin. apply list_elem_of_In, filter_In in Hin. apply Hin.
Qed.

Lemma persisted_history s key l : available s -> RoundTrip.storable (JArr l) = true ->
  Forall (fun n => isNotificationEvent n = true) l ->
  readStoredNotifications (persist s key l) key = {| sn_items := l; canPersist := true; hasStored := true |}.
Proof.
  intros Ha Hst Hn. change (persist s key l) with (store_json s key (JArr l)).
  destruct (store_json_lookup s key (JArr l) Ha Hst) as (t & Hl & _ & Hp).
  destruct (store_json_available s key (JArr l) Ha) as [Hr _].
  unfold readStoredNotifications, getItem. rewrite Hr, Hl, Hp.
  assert (List.filter isNotificationEvent l = l) as ->.
  { clear -Hn. induction Hn as [|n l H Hn IH]; cbn; [done|]. by rewrite H, IH. }
  by rewrite Nat.eqb_refl.
Qed.

Lemma read_storable l : RoundTrip.storable (JArr l) = true -> Forall (fun n => exists fs, n = JObj fs) l ->
  RoundTrip.storable (JArr (map (fun n => with_read n (JBool true)) l)) = true.
Proof.
  intros Hs Ho. cbn [RoundTrip.storable] in *. induction Ho as [|n l [fs ->] Ho IH]; [done|].
  cbn [map forallb] in *. apply andb_prop in Hs as [Hn Hs]. rewrite IH by done. rewrite andb_true_r.
  cbn [RoundTrip.storable] in Hn. apply andb_prop in Hn as [Hnd%bool_decide_eq_true_1 Hf].
  unfold with_read. cbn [RoundTrip.storable own_fields]. rewrite set_storable by done.
  rewrite bool_decide_true; [done|]. by apply set_NoDup.
Qed.

Lemma next_history_entries s a role events invoices :
  Forall (fun n => exists fs, n = JObj fs) (sn_items (readStoredNotifications s (notificationHistoryKey a))) ->
  Forall (fun n => entry (notif_id n, n)) (next_history s a role events invoices).
Proof.
  intros Ho. unfold next_history. apply list.Forall_fmap. eapply list.Forall_impl;
    [apply merge_entries, history_entries, Ho|]. intros [k n] He. destruct (He) as (_ & Hk & _).
  cbn [fst snd] in Hk. change (entry (notif_id n, n)). by rewrite <- Hk.
Qed.

Lemma read_entry n : entry (notif_id n, n) ->
  entry (notif_id n, with_read n (JBool true)) /\ notif_id (with_read n (JBool true)) = notif_id n.
Proof.
  intros He. destruct (He) as (_ & _ & fs & Hfs). cbn [snd] in Hfs. subst n. apply with_read_entry with (r := JBool true) in He.
  split; [done|]. by destruct He as (_ & Hk & _).
Qed.

(** What is read back after everything was marked as read. *)
Lemma read_history_stored s a role events invoices v : a <> "" -> available s ->
  canPersist (readStoredNotifications s (notificationHistoryKey a)) = true ->
  Forall (fun n => exists fs, n = JObj fs) (sn_items (readStoredNotifications s (notificationHistoryKey a))) ->
  let all := next_history s a role events invoices in
  RoundTrip.storable (JArr all) = true ->
  update s (Some a) role events invoices = Ok v ->
  sn_items (readStoredNotifications (st (markAllAsRead v (Some a))) (notificationHistoryKey a)) =
    map (fun n => with_read n (JBool true)) all.
Proof.
  intros Hne Ha Hc Ho all Hs H. unfold update in H. unfold markAllAsRead. cbn [opt_str_truthy default] in *.
  destruct (String.eqb_spec a "") as [|_]; [done|]. cbn [negb] in *. change (id a) with a in *.
  apply bind_ok in H as (shown & _ & [= <-]). cbn [st notifications]. rewrite Hc. fold all.
  pose proof (next_history_entries s a role events invoices Ho) as Hall. fold all in Hall.
  assert (Hn : Forall (fun n => isNotificationEvent n = true) all) by (eapply list.Forall_impl; [exact Hall|intros n' H'; apply H']).
  assert (Hobj : Forall (fun n => exists fs, n = JObj fs) all) by (eapply list.Forall_impl; [exact Hall|intros n' H'; apply H']).
  rewrite (persisted_history s _ all Ha Hs Hn). cbn [hasStored canPersist andb sn_items].
  rewrite persisted_history; [done|by apply (store_json_available s _ (JArr all))|by apply read_storable|].
  apply list.Forall_fmap. eapply list.Forall_impl; [exact Hall|]. intros n He%read_entry. apply He.
Qed.

Lemma filter_res_incl f l : forall ys, filter_res f l = Ok ys -> ys ⊆ l.
Proof.
  induction l as [|x l IH]; intros ys H; cbn in H; [by injection H as <-|].
  apply bind_ok in H as (b & _ & H). apply bind_ok in H as (zs & Hz & [= <-]). apply IH in Hz.
  destruct b; set_solver.
Qed.

Lemma get_of_in (m : fields) k n : NoDup m.*1 -> (k, n) ∈ m -> get m k = Some n.
Proof.
  induction m as [|[k' n'] m IH]; cbn; [by intros _ ?%not_elem_of_nil|].
  intros [Hk Hm]%list.NoDup_cons [[= -> ->]|Hin]%elem_of_cons; [by rewrite String.eqb_refl|].
  destruct (String.eqb_spec k k') as [->|]; [|by apply IH]. exfalso. apply Hk.
  by apply (list_elem_of_fmap_2 fst) in Hin.
Qed.

Lemma shown_in_history s a role events invoices v : update s (Some a) role events invoices = Ok v -> a <> "" ->
  notifications v ⊆ next_history s a role events invoices.
Proof.
  unfold update. cbn [opt_str_truthy default]. intros H Ha. destruct (String.eqb_spec a "") as [|_]; [done|].
  cbn [negb] in H. change (id a) with a in H. apply bind_ok in H as (shown & Hs & [= <-]). cbn [notifications].
  apply filter_res_incl in Hs. intros n Hn. apply Hs. unfold sort_newest in Hn. by rewrite sort_by_perm in Hn.
Qed.

Lemma flag_of_shown saved events n : Forall (fun n => entry (notif_id n, n)) saved ->
  n ∈ (merge_notifications saved (map mapEventToNotification events)).*2 ->
  flag (merge_notifications saved (map mapEventToNotification events)) (notif_id n) = Some (field n "read").
Proof.
  intros Hs ([k n'] & -> & Hin)%list_elem_of_fmap. cbn [snd].
  pose proof (merge_entries saved events Hs) as He. rewrite list.Forall_forall in He.
  destruct (He _ Hin) as (_ & Hk & _). cbn [fst snd] in Hk. rewrite <- Hk.
  unfold flag. by rewrite (get_of_in _ _ _ (merge_NoDup _ _) Hin).
Qed.

Lemma last_with_id_cases k l :
  match last_with_id k l with
  | Some n => n ∈ l
  | None => forall n, n ∈ l -> notif_id n <> k
  end.
Proof.
  unfold last_with_id. destruct (list.last _) as [n|] eqn:E.
  - apply last_Some in E as [l' E]. assert (n ∈ List.filter (fun n => String.eqb (notif_id n) k) l) as Hin
      by (rewrite E; set_solver). apply list_elem_of_In, filter_In in Hin as [Hin _]. by apply list_elem_of_In.
  - apply last_None in E. intros n Hn <-. assert (n ∈ List.filter (fun n' => String.eqb (notif_id n') (notif_id n)) l) as H.
    { apply list_elem_of_In, filter_In. split; [by apply list_elem_of_In|apply String.eqb_refl]. }
    rewrite E in H. by apply not_elem_of_nil in H.
Qed.
End BellFacts.

(** Opening the bell marks everything as read, and it stays read: whatever events and
    invoices come later, also after a reload, what is shown as unread is not in the history
    that was there when the bell was opened. *)
Theorem opening_marks_read s a role events invoices v (Hne : a <> "") (Ha : available s)
  (Hc : canPersist (readStoredNotifications s (notificationHistoryKey a)) = true)
  (Ho : Forall (fun n => exists fs, n = JObj fs) (sn_items (readStoredNotifications s (notificationHistoryKey a))))
  (Hs : RoundTrip.storable (JArr (next_history s a role events invoices)) = true)
  (H : update s (Some a) role events invoices = Ok v) :
  let b := Bell.toggleOpen (Some a) {| Bell.isOpen := false; Bell.seen := v |} in
  Bell.isOpen b = true /\ Bell.unreadCount b = 0%nat /\
  forall role' events' invoices' v', update (st (Bell.seen b)) (Some a) role' events' invoices' = Ok v' ->
    forall n, n ∈ notifications v' -> Bell.is_unread n = true ->
      notif_id n ∉ map notif_id (next_history s a role events invoices).
Proof.
  cbn zeta. unfold Bell.toggleOpen. cbn [Bell.isOpen Bell.seen negb]. split; [done|]. split.
  - unfold Bell.unreadCount, markAllAsRead. cbn [opt_str_truthy Bell.seen]. destruct (String.eqb_spec a "") as [|_]; [done|].
    cbn [negb notifications]. induction (notifications v) as [|n l IH]; [done|]. cbn [map List.filter].
    unfold Bell.is_unread at 1. rewrite with_read_field. exact IH.
  - intros role' events' invoices' v' H' n Hn Hu Hin.
    apply (BellFacts.shown_in_history _ _ _ _ _ _ H' Hne) in Hn.
    pose proof (BellFacts.read_history_stored s a role events invoices v Hne Ha Hc Ho Hs H) as Hst. cbn zeta in Hst.
    unfold next_history in Hn. rewrite Hst in Hn. set (all := next_history s a role events invoices) in *.
    pose proof (BellFacts.next_history_entries s a role events invoices Ho) as He. fold all in He.
    apply BellFacts.flag_of_shown in Hn.
    2:{ apply list.Forall_fmap. eapply list.Forall_impl; [exact He|]. intros n' H1. cbn.
        destruct (BellFacts.read_entry n' H1) as [H2 E]. by rewrite E. }
    rewrite (proj2 (history_keeps_read_flags _ _ _)) in Hn.
    pose proof (BellFacts.last_with_id_cases (notif_id n) (map (fun n => with_read n (JBool true)) all)) as Hl.
    destruct (last_with_id _ _) as [n'|].
    + apply list_elem_of_fmap in Hl as (n0 & -> & _). rewrite with_read_field in Hn. injection Hn as Hn.
      unfold Bell.is_unread in Hu. by rewrite <- Hn in Hu.
    + apply list_elem_of_fmap in Hin as (n0 & Hid & Hn0). rewrite list.Forall_forall in He.
      apply (Hl (with_read n0 (JBool true))); [apply list_elem_of_fmap; by exists n0|].
      rewrite (proj2 (BellFacts.read_entry n0 (He n0 Hn0))). done.
Qed.

(** ** Witnesses *)
Lemma event_ages_witness :
  formatTime 1700007200500 (Num.of_Z 1700000000) = "2h ago".
Proof.
  rewrite (proj1 (event_ages (fun k _ => k) 1700007200500 1700000000 ltac:(lia) ltac:(vm_compute; split; congruence))).
  vm_compute. reflexivity.
Defined.

Definition bell_view : Notifications.view :=
  match update empty_storage (Some "GA") RIssuer sample_events sample_invoices with
  | Ok v => v
  | Throw _ => {| st := empty_storage; notifications := [] |}
  end.
Lemma opening_marks_read_witness :
  Bell.unreadCount {| Bell.isOpen := false; Bell.seen := bell_view |} = 2%nat /\
  Bell.unreadCount (Bell.toggleOpen (Some "GA") {| Bell.isOpen := false; Bell.seen := bell_view |}) = 0%nat.
Proof.
  split; [vm_compute; reflexivity|].
  exact (proj1 (proj2 (opening_marks_read empty_storage "GA" RIssuer sample_events sample_invoices bell_view
    ltac:(discriminate) empty_available ltac:(vm_compute; reflexivity) ltac:(vm_compute; constructor)
    ltac:(vm_compute; reflexivity) ltac:(vm_compute; reflexivity)))).
Defined.
