(* ===== verification/Registration.v ===== *)
(** * Registering a business ([app/profile/page.tsx], [components/profile/RegistrationModal.tsx],
      [components/shared/TransactionPending.tsx])

    The same form exists twice: on the profile page and as a dialog of its own.  Both
    validate the fields, show the dialog of a pending transaction and call [register]; they
    differ in what is open meanwhile and where a failure is shown.  The states are step
    functions over what the user does and what the calls answer; a step also returns the
    registrations it asks for. *)

From S2P Require Import Prelude JsNumber JsString JsValue SdkTypes.

(** ** The form *)
Record Form := {
  regRole : Role; companyName : string; taxId : string; country : string; website : string; email : string }.
Definition empty_form : Form :=
  {| regRole := Issuer; companyName := ""; taxId := ""; country := ""; website := ""; email := "" |}.

Definition request := (Role * fields)%type.

(** The checks of [handleRegisterSubmit], in order. *)
Definition invalid (f : Form) : option string :=
  if String.eqb (Str.trim (companyName f)) "" then Some "Company name is required"
  else if String.eqb (Str.trim (taxId f)) "" then Some "Tax ID/Registration number is required"
  else if String.eqb (Str.trim (country f)) "" then Some "Country of incorporation is required"
  else None.

Definition metadata (f : Form) : fields :=
  [("companyName", JStr (Str.trim (companyName f))); ("taxId", JStr (Str.trim (taxId f)));
   ("country", JStr (Str.trim (country f))); ("website", JStr (Str.trim (website f)));
   ("email", JStr (Str.trim (email f)))].

Definition pending_text (f : Form) : string :=
  "Registering business as verified " +:+ (match regRole f with Issuer => "SME / Issuer" | _ => "Buyer" end) +:+ "...".

(** ** The dialog of a pending transaction *)
Module Pending.
(** [timer] tells if the 60 s timer of the effect is running. *)
Record state := {
  isOpen : bool; txHash : option string; timedOut : bool; localStatus : option string; timer : bool }.
Definition closed : state :=
  {| isOpen := false; txHash := None; timedOut := false; localStatus := None; timer := false |}.

Definition waiting_text : string := "Waiting for confirmation...".
Definition timeout_text : string := "Confirmation timed out. You can close and check status manually.".

(** The effect of [isOpen] and [txHash], after the cleanup of the previous one. *)
Definition effect (s : state) : state :=
  if negb (isOpen s) || opt_str_truthy (txHash s) then
    {| isOpen := isOpen s; txHash := txHash s; timedOut := timedOut s; localStatus := localStatus s; timer := false |}
  else
    {| isOpen := isOpen s; txHash := txHash s; timedOut := false; localStatus := Some waiting_text; timer := true |}.

Inductive event := Props (isOpen : bool) (txHash : option string) | Fire.
Definition step (s : state) (e : event) : state :=
  match e with
  | Props o h =>
      if bool_decide (o = isOpen s) && bool_decide (h = txHash s) then s
      else effect {| isOpen := o; txHash := h; timedOut := timedOut s; localStatus := localStatus s; timer := false |}
  | Fire =>
      if timer s then
        {| isOpen := isOpen s; txHash := txHash s; timedOut := true; localStatus := Some timeout_text; timer := false |}
      else s
  end.

(** [Boolean(onClose) && (timedOut || Boolean(txHash))]: what Escape and the backdrop ask. *)
Definition canDismiss (onClose : bool) (s : state) : bool := onClose && (timedOut s || opt_str_truthy (txHash s)).
(** The button is there whenever the dialog can be closed at all. *)
Definition closeButton (onClose : bool) (s : state) : bool := isOpen s && onClose.
Definition shown_status (statusText : string) (s : state) : string :=
  if timedOut s then opt_str_or (localStatus s) statusText else statusText.
End Pending.

(** ** The profile page *)
Module Page.
Record state := {
  form : Form; localError : option string; showRegModal : bool;
  showPending : bool; pendingHash : option string; pendingText : string; running : list nat; next : nat }.
Definition initial : state :=
  {| form := empty_form; localError := None; showRegModal := false; showPending := false;
     pendingHash := None; pendingText := Pending.waiting_text; running := []; next := 0 |}.

Inductive event :=
  | Edit (f : Form) | OpenModal | CloseModal | ClosePending
  | Submit
  | Settle (id : nat) (r : res jsval).

Definition with_error (s : state) (e : option string) : state :=
  {| form := form s; localError := e; showRegModal := showRegModal s; showPending := showPending s;
     pendingHash := pendingHash s; pendingText := pendingText s; running := running s; next := next s |}.

(** [handleRegisterSubmit] up to its [await]. *)
Definition submit (s : state) : state * list request :=
  match invalid (form s) with
  | Some m => (with_error s (Some m), [])
  | None =>
      ({| form := form s; localError := None; showRegModal := showRegModal s; showPending := true;
          pendingHash := None; pendingText := pending_text (form s);
          running := next s :: running s; next := S (next s) |},
       [(regRole (form s), metadata (form s))])
  end.

(** [err instanceof Error ? err.message : String(err)], or the fallback. *)
Definition error_message (e : jsval) : string :=
  str_or (match e with JErr _ m _ => m | _ => to_str e end) "Registration transaction failed".

(** The rest of the handler, once [register] has settled. *)
Definition settle (s : state) (id : nat) (r : res jsval) : state :=
  let running' := List.filter (fun i => negb (i =? id)%nat) (running s) in
  match r with
  | Ok txHash =>
      {| form := form s; localError := localError s; showRegModal := false; showPending := showPending s;
         pendingHash := match txHash with JStr h => Some h | _ => pendingHash s end;
         pendingText := pendingText s; running := running'; next := next s |}
  | Throw e =>
      {| form := form s; localError := Some (error_message e); showRegModal := showRegModal s; showPending := false;
         pendingHash := pendingHash s; pendingText := pendingText s; running := running'; next := next s |}
  end.

Definition set_modal (s : state) (o : bool) : state :=
  {| form := form s; localError := localError s; showRegModal := o; showPending := showPending s;
     pendingHash := pendingHash s; pendingText := pendingText s; running := running s; next := next s |}.
Definition step (s : state) (e : event) : state * list request :=
  match e with
  | Edit f => ({| form := f; localError := localError s; showRegModal := showRegModal s; showPending := showPending s;
                  pendingHash := pendingHash s; pendingText := pendingText s; running := running s; next := next s |}, [])
  | OpenModal => (set_modal s true, [])
  | CloseModal => (set_modal s false, [])
  | ClosePending =>
      ({| form := form s; localError := localError s; showRegModal := showRegModal s; showPending := false;
          pendingHash := pendingHash s; pendingText := pendingText s; running := running s; next := next s |}, [])
  | Submit => if showRegModal s then submit s else (s, [])
  | Settle id r => if bool_decide (id ∈ running s) then (settle s id r, []) else (s, [])
  end.

Fixpoint run (s : state) (es : list event) : state * list request :=
  match es with
  | [] => (s, [])
  | e :: es => let '(s1, o1) := step s e in let '(s2, o2) := run s1 es in (s2, o1 ++ o2)
  end.
End Page.

(** ** The dialog *)
Module Modal.
(** [isOpen], [isRegistering] and [registerError] belong to the parent: [isOpen] follows
    [onClose], the others the mutation. *)
Record state := {
  isOpen : bool; isRegistering : bool; registerError : option jsval;
  form : Form; localError : option string; showPending : bool; pendingHash : option string; pendingText : string }.
Definition initial : state :=
  {| isOpen := false; isRegistering := false; registerError := None; form := empty_form; localError := None;
     showPending := false; pendingHash := None; pendingText := Pending.waiting_text |}.

Inductive event := Edit (f : Form) | Open | Close | ClosePending | Submit | Settle (r : res jsval).

(** The effect of [isOpen]: opening clears the error of the form. *)
Definition opened (s : state) : state :=
  {| isOpen := true; isRegistering := isRegistering s; registerError := registerError s; form := form s;
     localError := None; showPending := showPending s; pendingHash := pendingHash s; pendingText := pendingText s |}.
Definition onClose (s : state) : state :=
  {| isOpen := false; isRegistering := isRegistering s; registerError := registerError s; form := form s;
     localError := localError s; showPending := showPending s; pendingHash := pendingHash s; pendingText := pendingText s |}.

Definition submit (s : state) : state * list request :=
  match invalid (form s) with
  | Some m =>
      ({| isOpen := isOpen s; isRegistering := isRegistering s; registerError := registerError s; form := form s;
          localError := Some m; showPending := showPending s; pendingHash := pendingHash s;
          pendingText := pendingText s |}, [])
  | None =>
      ({| isOpen := false; isRegistering := true; registerError := None; form := form s; localError := None;
          showPending := true; pendingHash := None; pendingText := pending_text (form s) |},
       [(regRole (form s), metadata (form s))])
  end.

(** [err.message || fallback]; reading a property of [null] or [undefined] throws, and then
    nothing is set. *)
Definition settle (s : state) (r : res jsval) : state :=
  match r with
  | Ok txHash =>
      {| isOpen := isOpen s; isRegistering := false; registerError := registerError s; form := form s;
         localError := localError s; showPending := showPending s;
         pendingHash := match txHash with JStr h => Some h | _ => pendingHash s end; pendingText := pendingText s |}
  | Throw e =>
      match member e "message" with
      | Ok m =>
          {| isOpen := isOpen s; isRegistering := false; registerError := Some e; form := form s;
             localError := Some (to_str (js_or m (JStr "Registration transaction failed")));
             showPending := false; pendingHash := pendingHash s; pendingText := pendingText s |}
      | Throw _ =>
          {| isOpen := isOpen s; isRegistering := false; registerError := Some e; form := form s;
             localError := localError s; showPending := showPending s; pendingHash := pendingHash s;
             pendingText := pendingText s |}
      end
  end.

Definition step (s : state) (e : event) : state * list request :=
  match e with
  | Edit f => ({| isOpen := isOpen s; isRegistering := isRegistering s; registerError := registerError s; form := f;
                  localError := localError s; showPending := showPending s; pendingHash := pendingHash s;
                  pendingText := pendingText s |}, [])
  | Open => (if isOpen s then s else opened s, [])
  | Close => (onClose s, [])
  | ClosePending =>
      (if opt_str_truthy (pendingHash s) then
         onClose {| isOpen := isOpen s; isRegistering := isRegistering s; registerError := registerError s; form := form s;
                    localError := localError s; showPending := false; pendingHash := pendingHash s;
                    pendingText := pendingText s |}
       else s, [])
  | Submit => if isOpen s && negb (isRegistering s) then submit s else (s, [])
  | Settle r => if isRegistering s then (settle s r, []) else (s, [])
  end.

(** What the form shows as its error. *)
Definition error_shown (s : state) : option string :=
  if negb (isOpen s) then None
  else if opt_str_truthy (localError s) then localError s
  else match registerError s with
       | Some e => if truthy e then
                     let m := opt_field e "message" in
                     Some (if truthy m then to_str m else "Failed to submit registration")
                   else None
       | None => None
       end.

Fixpoint run (s : state) (es : list event) : state * list request :=
  match es with
  | [] => (s, [])
  | e :: es => let '(s1, o1) := step s e in let '(s2, o2) := run s1 es in (s2, o1 ++ o2)
  end.
End Modal.

(** ** Properties of the form *)
Definition filled (r : request) (k : string) : Prop := exists v, get r.2 k = Some (JStr v) /\ v <> "".
Definition complete (r : request) : Prop :=
  filled r "companyName" /\ filled r "taxId" /\ filled r "country" /\
  r.2.*1 = ["companyName"; "taxId"; "country"; "website"; "email"].

Lemma valid_complete f : invalid f = None -> complete (regRole f, metadata f).
Proof.
  unfold invalid. destruct (String.eqb_spec (Str.trim (companyName f)) ""); [done|].
  destruct (String.eqb_spec (Str.trim (taxId f)) ""); [done|].
  destruct (String.eqb_spec (Str.trim (country f)) ""); [done|]. intros _.
  unfold complete, filled. repeat split; eauto.
Qed.

(** Both forms ask for the same registration and report the same missing field. *)
Lemma same_submission (p : Page.state) (m : Modal.state) : Page.form p = Modal.form m ->
  (Page.submit p).2 = (Modal.submit m).2 /\
  Page.localError (Page.submit p).1 = Modal.localError (Modal.submit m).1 /\
  (invalid (Page.form p) = None -> Page.pendingText (Page.submit p).1 = Modal.pendingText (Modal.submit m).1).
Proof.
  intros E. unfold Page.submit, Modal.submit. rewrite E. by destruct (invalid (Modal.form m)).
Qed.

Lemma page_step_requests s e : Forall complete (Page.step s e).2.
Proof.
  destruct e; cbn; try constructor.
  - destruct (Page.showRegModal s); [|constructor]. unfold Page.submit.
    destruct (invalid (Page.form s)) eqn:H; repeat constructor; by apply valid_complete.
  - by case_bool_decide; constructor.
Qed.

Lemma modal_step_requests s e :
  Forall complete (Modal.step s e).2 /\
  (length (Modal.step s e).2 + (if Modal.isRegistering s then 1 else 0) <=
   (match e with Modal.Settle _ => 1 | _ => 0 end) + (if Modal.isRegistering (Modal.step s e).1 then 1 else 0))%nat.
Proof.
  destruct e as [f| | | | |r]; cbn.
  - by destruct (Modal.isRegistering s).
  - by destruct (Modal.isOpen s), (Modal.isRegistering s) eqn:E; cbn; rewrite ?E.
  - by destruct (Modal.isRegistering s).
  - by destruct (opt_str_truthy _), (Modal.isRegistering s) eqn:E; cbn; rewrite ?E.
  - destruct (Modal.isOpen s), (Modal.isRegistering s) eqn:E; cbn; rewrite ?E; try (split; [constructor|lia]).
    unfold Modal.submit. destruct (invalid (Modal.form s)) eqn:H; cbn; rewrite ?E; (split; [|lia]);
      repeat constructor; by apply valid_complete.
  - destruct (Modal.isRegistering s) eqn:E; cbn; rewrite ?E; (split; [constructor|lia]).
Qed.

Definition settled (es : list Modal.event) : nat :=
  length (List.filter (fun e => match e with Modal.Settle _ => true | _ => false end) es).

(** C34: whatever the user does in either form, a registration is only asked for with a
    company name, a tax id and a country that are not blank, and nothing but the five fields
    of the form; the dialog has at most one registration under way. *)
Theorem registrations_are_complete :
  (forall es, Forall complete (Page.run Page.initial es).2) /\
  (forall es, Forall complete (Modal.run Modal.initial es).2 /\
     (length (Modal.run Modal.initial es).2 <= S (settled es))%nat).
Proof.
  split.
  - intros es. generalize Page.initial. induction es as [|e es IH]; intros s; [constructor|]. cbn [Page.run].
    pose proof (page_step_requests s e) as H. destruct (Page.step s e) as [s1 o1]. specialize (IH s1).
    destruct (Page.run s1 es) as [s2 o2]. cbn in *. by apply list.Forall_app.
  - intros es. assert (H : forall s, Forall complete (Modal.run s es).2 /\
      (length (Modal.run s es).2 + (if Modal.isRegistering s then 1 else 0) <= S (settled es))%nat).
    { induction es as [|e es IH]; intros s; [split; [constructor|cbn; destruct (Modal.isRegistering s); lia]|].
      cbn [Modal.run]. pose proof (modal_step_requests s e) as [H1 H2]. destruct (Modal.step s e) as [s1 o1].
      destruct (IH s1) as [IH1 IH2]. destruct (Modal.run s1 es) as [s2 o2]. cbn in *.
      split; [by apply list.Forall_app|]. rewrite length_app. unfold settled in *.
      destruct e; cbn [List.filter length]; lia. }
    destruct (H Modal.initial) as [H1 H2]. split; [done|]. cbn in H2. lia.
Qed.

(** On the page nothing stops a second submission: the dialog of the pending transaction can
    be closed while it is pending, and the form is still open under it. *)
Lemma page_registers_twice f : invalid f = None ->
  length (Page.run Page.initial [Page.OpenModal; Page.Edit f; Page.Submit; Page.ClosePending; Page.Submit]).2 = 2%nat /\
  Page.running (Page.run Page.initial [Page.OpenModal; Page.Edit f; Page.Submit; Page.ClosePending; Page.Submit]).1 = [1; 0]%nat.
Proof.
  intros H. cbn [Page.run Page.step]. unfold Page.submit. cbn -[invalid]. rewrite !H. cbn -[invalid]. rewrite !H. done.
Qed.

(** What a settled registration leaves on the page. *)
Lemma page_settled s id r : id ∈ Page.running s ->
  let s' := (Page.step s (Page.Settle id r)).1 in
  id ∉ Page.running s' /\
  match r with
  | Ok (JStr h) => Page.showRegModal s' = false /\ Page.pendingHash s' = Some h /\ Page.localError s' = Page.localError s
  | Ok _ => Page.showRegModal s' = false /\ Page.pendingHash s' = Page.pendingHash s
  | Throw e => Page.showRegModal s' = Page.showRegModal s /\ Page.showPending s' = false /\
               Page.localError s' = Some (Page.error_message e) /\ Page.error_message e <> ""
  end.
Proof.
  intros Hin. cbn. rewrite bool_decide_true by done. cbn. split.
  - destruct r; cbn; intros H%list_elem_of_In%filter_In; destruct H as [_ H]; by rewrite Nat.eqb_refl in H.
  - destruct r as [[]|e]; try done. cbn. repeat split; try done. unfold Page.error_message, str_or.
    by destruct (String.eqb_spec (match e with JErr _ m _ => m | _ => to_str e end) "").
Qed.

(** The comment of the dialog says that opening it clears the error of the last attempt:
    the error of the form is, that of the mutation is shown again. *)
Lemma reopened_dialog_shows_the_last_error f m : invalid f = None -> m <> "" ->
  let s := (Modal.run Modal.initial [Modal.Open; Modal.Edit f; Modal.Submit; Modal.Settle (throw_error m)]).1 in
  Modal.isOpen s = false /\ Modal.error_shown s = None /\
  Modal.localError s = Some m /\ Modal.localError (Modal.step s Modal.Open).1 = None /\
  Modal.error_shown (Modal.step s Modal.Open).1 = Some m.
Proof.
  intros H Hm. cbn [Modal.run Modal.step]. unfold Modal.submit. cbn -[invalid String.eqb]. rewrite !H.
  cbn -[invalid String.eqb]. unfold Modal.error_shown, js_or, opt_field. cbn -[String.eqb].
  change (String.eqb "message" "message") with true. cbn -[String.eqb]. by destruct (String.eqb_spec m "").
Qed.

(** ** Properties of the dialog of a pending transaction *)
Module PendingFacts.
Import Pending.

Lemma pending_step s e : timer s = isOpen s && negb (opt_str_truthy (txHash s)) && negb (timedOut s) ->
  timer (step s e) = isOpen (step s e) && negb (opt_str_truthy (txHash (step s e))) && negb (timedOut (step s e)).
Proof.
  intros H. destruct e as [o h|]; cbn [step].
  - destruct (bool_decide _ && bool_decide _); [exact H|]. unfold effect. cbn [isOpen txHash timedOut timer].
    destruct o, (opt_str_truthy h) eqn:E; cbn [negb orb isOpen txHash timedOut timer andb]; by rewrite ?E.
  - destruct (timer s) eqn:E; [|by rewrite E]. cbn. by rewrite andb_false_r.
Qed.

(** Escape and the backdrop close the dialog exactly when the transaction is known or the
    minute has passed, and never without a callback. *)
Lemma pending_dismissal es :
  let s := foldl step closed es in
  canDismiss false s = false /\
  (isOpen s = true -> canDismiss true s = negb (timer s)).
Proof.
  cbn zeta. split; [done|]. assert (H : forall s, timer s = isOpen s && negb (opt_str_truthy (txHash s)) && negb (timedOut s) ->
    let s' := foldl step s es in timer s' = isOpen s' && negb (opt_str_truthy (txHash s')) && negb (timedOut s')).
  { induction es as [|e es IH]; intros s Hs; [done|]. cbn [foldl]. by apply IH, pending_step. }
  specialize (H closed eq_refl). cbn zeta in H. intros Ho. rewrite H, Ho. unfold canDismiss. cbn.
  by destruct (opt_str_truthy _), (timedOut _).
Qed.

(** The button does not wait for either, and a hash that comes after the minute is shown
    under the message that the confirmation timed out. *)
Lemma pending_dialog_gaps h : h <> "" ->
  closeButton true (step closed (Props true None)) = true /\ canDismiss true (step closed (Props true None)) = false /\
  shown_status "Registering..." (foldl step closed [Props true None; Fire; Props true (Some h)]) = timeout_text.
Proof.
  intros Hh. split; [done|]. split; [done|]. cbn. unfold effect. cbn. by destruct (String.eqb_spec h "").
Qed.
End PendingFacts.
