(* ===== verification/Charts.v ===== *)
(** * Figures: chart geometry and calculators

    [hooks/usePoolChartData.ts] maps values to the coordinates of an SVG path;
    [components/shared/SmeCalculator.tsx], [LpCalculator.tsx] and [LpYieldCalculator.tsx]
    derive what a loan costs and what a deposit earns; [PoolPerformanceChart.tsx],
    [HeroStats.tsx] and [app/analytics/AnalyticsClient.tsx] scale what the indexer reports.
    All of it is floating point: the bounds below hold with every rounding in place.  The
    number format of the browser is an argument. *)

From Stdlib Require Import SpecFloat QArith Lqa.
From S2P Require Import Prelude JsNumber JsRounding JsString JsValue Assets.
Local Open Scope Z_scope.

(** ** The chart *)
Module PoolChart.
Record ChartDataItem := { label : string; item_value : num }.
Record point := { px : num; py : num; p_label : string; p_value : num }.
Record layout := { linePath : string; areaPath : string; points : list point }.

(** [Math.min(...values)] and [Math.max(...values)]. *)
Definition min_of (l : list num) : num := foldl math_min (S754_infinity false) l.
Definition max_of (l : list num) : num := foldl math_max (S754_infinity true) l.

Section Layout.
Context (width height padding : num).
Definition chartWidth : num := Num.sub width (Num.mul padding (Num.of_Z 2)).
Definition chartHeight : num := Num.sub height (Num.mul padding (Num.of_Z 2)).

Definition valRange (minVal maxVal : num) : num :=
  if Num.eqb (Num.sub maxVal minVal) Num.zero then Num.of_Z 1 else Num.sub maxVal minVal.

Definition y_of (minVal range v : num) : num :=
  Num.sub (Num.add padding chartHeight) (Num.mul (Num.div (Num.sub v minVal) range) chartHeight).

(** A single value is drawn in the middle. *)
Definition x_of (n index : Z) : num :=
  if n =? 1 then Num.add padding (Num.div chartWidth (Num.of_Z 2))
  else Num.add padding (Num.mul (Num.div (Num.of_Z index) (Num.of_Z (n - 1))) chartWidth).

Definition coordinates (data : list ChartDataItem) : list point :=
  let values := map item_value data in
  let range := valRange (min_of values) (max_of values) in
  imap (fun i d => {| px := x_of (Z.of_nat (length data)) (Z.of_nat i);
                      py := y_of (min_of values) range (item_value d);
                      p_label := label d; p_value := item_value d |}) data.

Definition xy (x y : num) : string := Num.to_string x +:+ " " +:+ Num.to_string y.
(** [points.reduce(...)]. *)
Definition line_of (ps : list point) : string :=
  match ps with
  | [] => ""
  | p :: ps => foldl (fun acc p => acc +:+ " L " +:+ xy (px p) (py p)) ("M " +:+ xy (px p) (py p)) ps
  end.

Definition usePoolChartData (data : list ChartDataItem) : layout :=
  let ps := coordinates data in
  let base := Num.sub height padding in
  match ps with
  | [] => {| linePath := ""; areaPath := ""; points := [] |}
  | first :: _ =>
      let last := default first (list.last ps) in
      {| linePath := line_of ps;
         areaPath := line_of ps +:+ " L " +:+ xy (px last) base +:+ " L " +:+ xy (px first) base +:+ " Z";
         points := ps |}
  end.
End Layout.
End PoolChart.

(** ** The calculators *)
Definition percent (n : num) : num := Num.div n (Num.of_Z 100).

(** [{ discountPaid, fundedAmount }]. *)
Definition useSmeDerivedValues (faceValue discountRate : num) : num * num :=
  let discountPaid := Num.mul faceValue (percent discountRate) in
  (discountPaid, Num.sub faceValue discountPaid).

Definition projected_apy (utilization avgDiscount avgMaturity : num) : num :=
  Num.mul (Num.mul (Num.mul (percent utilization) (percent avgDiscount)) (Num.div (Num.of_Z 365) avgMaturity))
          (Num.of_Z 100).
(** [{ lpProjectedApy, lpAnnualEarnings }]. *)
Definition useLpDerivedValues (lpDeposit lpUtilization lpAvgDiscount lpAvgMaturity : num) : num * num :=
  let lpProjectedApy := projected_apy lpUtilization lpAvgDiscount lpAvgMaturity in
  (lpProjectedApy, Num.mul lpDeposit (percent lpProjectedApy)).

Module LpYield.
Definition SAVINGS_APY : num := Num.of_Z 5.
Definition TBILLS_APY : num := Num.of_decimal false 45 (-1).
Definition AVG_DISCOUNT_RATE : num := Num.of_Z 2.
Definition AVG_MATURITY_DAYS : num := Num.of_Z 60.

Definition parseDeposit (raw : string) : num :=
  let v := Str.parse_float (Str.remove_char ","%char raw) in if Num.truthy v then v else Num.zero.

Definition annualYieldPct (utilization : num) : num := projected_apy utilization AVG_DISCOUNT_RATE AVG_MATURITY_DAYS.
Definition monthlyEarnings (deposit : string) (utilization : num) : num :=
  Num.div (Num.mul (parseDeposit deposit) (percent (annualYieldPct utilization))) (Num.of_Z 12).

(** The widths of the three bars, against the highest of the three yields. *)
Definition maxApy (utilization : num) : num := math_max (math_max (annualYieldPct utilization) SAVINGS_APY) TBILLS_APY.
Definition bar (apy max : num) : num := Num.mul (Num.div apy max) (Num.of_Z 100).
Definition trustroveWidth (utilization : num) : num :=
  if Num.gtb (maxApy utilization) Num.zero then bar (annualYieldPct utilization) (maxApy utilization) else Num.zero.
Definition savingsWidth (utilization : num) : num := bar SAVINGS_APY (maxApy utilization).
Definition tbillWidth (utilization : num) : num := bar TBILLS_APY (maxApy utilization).
End LpYield.

(** ** What the indexer reports *)
Module Reported.
Record PoolSnapshot := { timestamp : num; utilizationRateBps : num; totalYieldDistributed : string }.
Record ChartPoint := { date : string; utilizationPct : num; yieldUsdc : num }.

Section Formats.
(** [new Date(ms).toLocaleDateString(...)] and the two [toLocaleString]s. *)
Context (toDate : num -> string) (compact fixed2 : num -> string).

Definition toMillis (ts : num) : num :=
  if Num.gtb ts (Num.of_Z 1000000000000) then ts else Num.mul ts (Num.of_Z 1000).
Definition formatSnapshotPoint (s : PoolSnapshot) : ChartPoint :=
  let yieldRaw := Str.parse_number (totalYieldDistributed s) in
  {| date := toDate (toMillis (timestamp s));
     utilizationPct := percent (utilizationRateBps s);
     yieldUsdc := if Num.is_finite yieldRaw then Num.div yieldRaw (Num.of_Z 10000000) else Num.zero |}.

Definition direction (utilDelta : num) : string :=
  if Num.gtb utilDelta (Num.of_decimal false 5 (-3)) then "up"
  else if Num.ltb utilDelta (Num.of_decimal true 5 (-3)) then "down" else "flat".
Definition summary (points : list ChartPoint) : option string :=
  match points with
  | [] => None
  | first :: _ =>
      let last := default first (list.last points) in
      Some ("Pool utilization is currently " +:+ Num.to_fixed (utilizationPct last) 1 +:+ " percent, " +:+
            direction (Num.sub (utilizationPct last) (utilizationPct first)) +:+ " from " +:+
            Num.to_fixed (utilizationPct first) 1 +:+ " percent across " +:+
            Num.to_string (Num.of_Z (Z.of_nat (length points))) +:+ " snapshots. Total yield distributed is " +:+
            fixed2 (yieldUsdc last) +:+ " USDC.")
  end.

(** [HeroStats] scales stroops; [AnalyticsClient] formats the string it gets. *)
Definition hero_formatCompactUsdc (amount : option Z) : option string :=
  (fun z => compact (Num.div (Num.of_Z z) (Num.of_Z STROOP_DIVISOR))) <$> amount.
Definition analytics_formatCompactUsdc (amount : option string) : option string :=
  match amount with
  | Some v => let n := Str.parse_number v in if Num.is_finite n then Some ("$" +:+ compact n) else None
  | None => None
  end.
End Formats.
End Reported.

(** ** The animated figures of the calculators ([components/shared/DiscountCalculator.tsx]) *)
Module Animated.
(** An animation in progress: its ends and when it started. *)
Record run := { from : num; upto : num; startTime : num }.
Record state := { displayValue : num; running : option run }.

Definition progress (r : run) (now : num) : num :=
  math_min (Num.div (Num.sub now (startTime r)) (Num.of_Z 400)) (Num.of_Z 1).
(** [updateNumber]: what a frame shows, and if another frame is asked for. *)
Definition current (r : run) (now : num) : num :=
  let p := progress r now in
  Num.add (from r) (Num.mul (Num.sub (upto r) (from r)) (Num.mul p (Num.sub (Num.of_Z 2) p))).

Inductive event := Value (v now : num) | Frame (now : num).
Definition step (s : state) (e : event) : state :=
  match e with
  | Value v now =>
      {| displayValue := displayValue s;
         running := if Num.eqb (displayValue s) v then None
                    else Some {| from := displayValue s; upto := v; startTime := now |} |}
  | Frame now =>
      match running s with
      | None => s
      | Some r => {| displayValue := current r now; running := if Num.ltb (progress r now) (Num.of_Z 1) then Some r else None |}
      end
  end.
End Animated.

(** ** Properties of the chart *)
Module ChartFacts.
Import PoolChart.

(** The extremes of a list are values of it, and no value is outside them. *)
Lemma extremes l : l <> [] -> Forall plain l ->
  (min_of l ∈ l /\ max_of l ∈ l) /\ Forall (fun v => value (min_of l) <= value v <= value (max_of l))%Q l.
Proof.
  intros Hne Hl. destruct l as [|v l]; [done|]. unfold min_of, max_of. cbn [foldl].
  assert (math_min (S754_infinity false) v = v /\ math_max (S754_infinity true) v = v) as [-> ->].
  { apply list.Forall_cons in Hl as [Hv _]. by destruct v as [[]|?| |[] ??]. }
  clear Hne. induction l as [|w l IH] using rev_ind.
  - cbn. split; [set_solver|]. repeat constructor; lra.
  - rewrite !foldl_app. cbn [foldl]. rewrite app_comm_cons, list.Forall_app in Hl. destruct Hl as [Hl Hw].
    rewrite list.Forall_singleton in Hw. destruct (IH Hl) as [[Hmin Hmax] Hb]. clear IH.
    rewrite list.Forall_forall in Hl. pose proof (Hl _ Hmin) as Pmin. pose proof (Hl _ Hmax) as Pmax.
    destruct (math_min_cases _ w Pmin Hw) as (Cmin & Lmin & Lmin'), (math_max_cases _ w Pmax Hw) as (Cmax & Lmax & Lmax').
    assert (Hin : forall a b, a ∈ v :: l -> b = a \/ b = w -> b ∈ v :: l ++ [w]).
    { intros a b Ha Hb'. rewrite app_comm_cons. apply elem_of_app. destruct Hb' as [->| ->]; [by left|right; by left]. }
    split; [split; [exact (Hin _ _ Hmin Cmin)|exact (Hin _ _ Hmax Cmax)]|].
    rewrite app_comm_cons, list.Forall_app, list.Forall_singleton. split; [|split; lra].
    eapply list.Forall_impl; [exact Hb|]. cbn. intros x Hx. lra.
Qed.

Section Box.
Context (W H P : Z) (HP : 0 <= P) (HW : 2 * P <= W <= 2 ^ 52) (HH : 2 * P <= H <= 2 ^ 52).
Abbreviation width := (Num.of_Z W).
Abbreviation height := (Num.of_Z H).
Abbreviation padding := (Num.of_Z P).

Lemma inner D : 2 * P <= D <= 2 ^ 52 -> Num.sub (Num.of_Z D) (Num.mul padding (Num.of_Z 2)) = Num.of_Z (D - P * 2).
Proof. intros HD. rewrite mul_of_Z, sub_of_Z by lia. done. Qed.

(** A share of the inner width, shifted by the padding. *)
Lemma placed_in r D : plain r -> (0 <= value r <= 1)%Q -> 2 * P <= D <= 2 ^ 52 ->
  let x := Num.add padding (Num.mul r (Num.of_Z (D - P * 2))) in
  plain x /\ (inject_Z P <= value x <= inject_Z (D - P))%Q.
Proof.
  intros Hr Hs HD. cbn zeta. destruct (of_Z_plain P ltac:(lia)) as [Pp Pv], (of_Z_plain (D - P * 2) ltac:(lia)) as [Ip Iv],
    (of_Z_plain (D - P) ltac:(lia)) as [Fp Fv].
  destruct (mul_share r _ Hr Ip Hs) as [Mp Mb]. rewrite Iv in Mb.
  pose proof (add_rounded _ _ Pp Mp) as Ha. rewrite Pv in Ha.
  assert (E : (inject_Z (D - P) == inject_Z P + inject_Z (D - P * 2))%Q).
  { rewrite <- inject_Z_plus. by replace (P + (D - P * 2)) with (D - P) by lia. }
  destruct (rounded_le _ _ _ Ha Fp) as [Xp Xh]; [rewrite Fv; lra|].
  pose proof (rounded_ge _ _ (Num.of_Z P) Ha Xp Pp) as Xl. rewrite Pv in Xl. rewrite Fv in Xh.
  split; [done|]. split; [apply Xl; lra|done].
Qed.

Lemma x_in_box n index : 0 <= index < n -> n <= 2 ^ 52 ->
  let x := x_of width padding n index in plain x /\ (inject_Z P <= value x <= inject_Z (W - P))%Q.
Proof.
  intros Hi Hn. cbn zeta. unfold x_of, chartWidth. rewrite inner by done. destruct (Z.eqb_spec n 1) as [->|Hn1].
  - destruct (of_Z_plain 1 ltac:(lia)) as [P1 V1], (of_Z_plain 2 ltac:(lia)) as [P2 V2],
      (of_Z_plain (W - P * 2) ltac:(lia)) as [Ip Iv], (of_Z_plain P ltac:(lia)) as [Pp Pv], (of_Z_plain (W - P) ltac:(lia)) as [Fp Fv].
    pose proof (inject_nonneg (W - P * 2) ltac:(lia)) as H0. change (inject_Z 2) with (2 # 1)%Q in V2.
    pose proof (div_rounded (Num.of_Z (W - P * 2)) (Num.of_Z 2) Ip P2 ltac:(rewrite V2; lra)) as Hd. rewrite Iv, V2 in Hd.
    destruct (rounded_le _ _ _ Hd Ip) as [Dp Dh]; [rewrite Iv; apply Qle_shift_div_r; lra|].
    pose proof (plain_nonneg _ Dp) as Dl. pose proof (add_rounded _ _ Pp Dp) as Ha. rewrite Pv in Ha. rewrite Iv in Dh.
    assert (E : (inject_Z (W - P) == inject_Z P + inject_Z (W - P * 2))%Q).
    { rewrite <- inject_Z_plus. by replace (P + (W - P * 2)) with (W - P) by lia. }
    destruct (rounded_le _ _ _ Ha Fp) as [Xp Xh]; [rewrite Fv; lra|].
    pose proof (rounded_ge _ _ (Num.of_Z P) Ha Xp Pp) as Xl. rewrite Pv in Xl. rewrite Fv in Xh.
    split; [done|]. split; [apply Xl; lra|done].
  - destruct (of_Z_plain index ltac:(lia)) as [Ip Iv], (of_Z_plain (n - 1) ltac:(lia)) as [Np Nv].
    destruct (div_share _ _ Ip Np) as [Rp Rb].
    + rewrite Nv. apply inject_pos. lia.
    + rewrite Iv, Nv, <- Zle_Qle. lia.
    + by apply placed_in.
Qed.

Lemma eqb_zero x : plain x -> Num.eqb x Num.zero = true <-> (value x == 0)%Q.
Proof.
  intros Hx. unfold Num.eqb, SFeqb. rewrite (compare_value x Num.zero Hx zero_plain), Qeq_alt.
  change (value Num.zero) with 0%Q. by destruct (value x ?= 0)%Q.
Qed.

(** The range divides every difference into a share. *)
Lemma range_spec lo hi v : plain lo -> plain hi -> plain v -> (value lo <= value v <= value hi)%Q ->
  plain (valRange lo hi) /\ (0 < value (valRange lo hi))%Q /\
  plain (Num.sub v lo) /\ (value (Num.sub v lo) <= value (valRange lo hi))%Q.
Proof.
  intros Hlo Hhi Hv Hb. destruct (sub_share hi lo Hhi Hlo) as [Dp Db]; [lra|].
  destruct (sub_share v lo Hv Hlo) as [Sp Sb]; [lra|].
  assert (Hle : (value (Num.sub v lo) <= value (Num.sub hi lo))%Q).
  { destruct (Qlt_le_dec (value v) (value hi)) as [Hlt|Hge].
    - apply (rounded_mono (value v - value lo) (value hi - value lo)); try done; [apply sub_rounded..|]; try done; lra.
    - assert (v = hi) as -> by (apply plain_inj; [done|done|lra]). lra. }
  unfold valRange. pose proof (eqb_zero (Num.sub hi lo) Dp) as He. destruct (Num.eqb (Num.sub hi lo) Num.zero).
  - destruct (of_Z_plain 1 ltac:(lia)) as [P1 V1]. change (inject_Z 1) with 1%Q in V1.
    pose proof (proj1 He eq_refl). split; [done|]. split; [lra|]. split; [done|]. lra.
  - split; [done|]. split; [|by split]. destruct (Qlt_le_dec 0 (value (Num.sub hi lo))) as [|Hz]; [done|].
    assert (false = true) as [=] by (apply He; lra).
Qed.

Lemma y_in_box lo hi v : plain lo -> plain hi -> plain v -> (value lo <= value v <= value hi)%Q ->
  let y := y_of height padding lo (valRange lo hi) v in plain y /\ (inject_Z P <= value y <= inject_Z (H - P))%Q.
Proof.
  intros Hlo Hhi Hv Hb. cbn zeta. unfold y_of, chartHeight. rewrite inner by done. rewrite add_of_Z by lia.
  replace (P + (H - P * 2)) with (H - P) by lia.
  destruct (range_spec lo hi v Hlo Hhi Hv Hb) as (Rp & Rpos & Sp & Sle).
  destruct (div_share _ _ Sp Rp Rpos Sle) as [Qp Qb].
  destruct (of_Z_plain (H - P * 2) ltac:(lia)) as [Ip Iv], (of_Z_plain (H - P) ltac:(lia)) as [Fp Fv], (of_Z_plain P ltac:(lia)) as [Pp Pv].
  destruct (mul_share _ _ Qp Ip Qb) as [Mp Mb]. rewrite Iv in Mb.
  assert (E : (inject_Z (H - P) == inject_Z P + inject_Z (H - P * 2))%Q).
  { rewrite <- inject_Z_plus. by replace (P + (H - P * 2)) with (H - P) by lia. }
  pose proof (inject_nonneg P HP) as P0.
  pose proof (sub_rounded _ _ Fp Mp ltac:(rewrite Fv; lra)) as Hs. rewrite Fv in Hs.
  destruct (rounded_le _ _ _ Hs Fp) as [Yp Yh]; [rewrite Fv; lra|].
  pose proof (rounded_ge _ _ (Num.of_Z P) Hs Yp Pp) as Yl. rewrite Pv in Yl. rewrite Fv in Yh.
  split; [done|]. split; [apply Yl; lra|done].
Qed.

(** The highest value touches the top, the lowest the bottom. *)
Lemma y_extremes lo hi : plain lo -> plain hi -> (value lo < value hi)%Q -> Num.eqb (Num.sub hi lo) Num.zero = false ->
  y_of height padding lo (valRange lo hi) hi = padding /\
  y_of height padding lo (valRange lo hi) lo = Num.of_Z (H - P).
Proof.
  intros Hlo Hhi Hlt Hz. destruct (range_spec lo hi hi Hlo Hhi Hhi ltac:(lra)) as (Rp & Rpos & _ & _).
  unfold y_of, chartHeight. rewrite inner by done. rewrite add_of_Z by lia.
  replace (P + (H - P * 2)) with (H - P) by lia.
  destruct (of_Z_plain 1 ltac:(lia)) as [P1 V1], (of_Z_plain (H - P * 2) ltac:(lia)) as [Ip Iv].
  change (inject_Z 1) with 1%Q in V1. split.
  - unfold valRange in *. rewrite Hz in *.
    rewrite (rounded_exact _ _ _ (div_rounded _ _ Rp Rp Rpos) P1); [|rewrite V1; field; lra].
    rewrite (rounded_exact _ _ _ (mul_rounded _ _ P1 Ip) Ip); [|rewrite V1; ring].
    rewrite sub_of_Z by lia. f_equal. lia.
  - assert (Num.sub lo lo = Num.zero) as ->.
    { apply (rounded_exact _ _ _ (sub_rounded lo lo Hlo Hlo (Qle_refl _)) zero_plain). change (value Num.zero) with 0%Q. ring. }
    rewrite (rounded_exact _ _ Num.zero (div_rounded Num.zero _ zero_plain Rp Rpos) zero_plain); [|reflexivity].
    rewrite (rounded_exact _ _ Num.zero (mul_rounded Num.zero _ zero_plain Ip) zero_plain) by (change (value Num.zero) with 0%Q; ring).
    change Num.zero with (Num.of_Z 0). rewrite sub_of_Z by lia. f_equal. lia.
Qed.

(** For values that are finite and not negative, every point of the chart lies inside
    the padded box, one point per value and in its order, whatever the rounding; when the values
    differ, the highest is drawn at the top and the lowest at the bottom. *)
Theorem chart_in_box data (Hd : data <> []) (Hn : Z.of_nat (length data) <= 2 ^ 52) (Hv : Forall (fun d => plain (item_value d)) data) :
  let l := usePoolChartData width height padding data in
  let lo := min_of (map item_value data) in
  let hi := max_of (map item_value data) in
  map (fun p => (p_label p, p_value p)) (points l) = map (fun d => (label d, item_value d)) data /\
  Forall (fun p => plain (px p) /\ (inject_Z P <= value (px p) <= inject_Z (W - P))%Q /\
                   plain (py p) /\ (inject_Z P <= value (py p) <= inject_Z (H - P))%Q) (points l) /\
  (Num.eqb (Num.sub hi lo) Num.zero = false -> Forall (fun p =>
     (p_value p = hi -> py p = padding) /\ (p_value p = lo -> py p = Num.of_Z (H - P))) (points l)).
Proof.
  cbn zeta. assert (Hp : points (usePoolChartData width height padding data) = coordinates width height padding data).
  { unfold usePoolChartData. by destruct (coordinates width height padding data). }
  rewrite Hp. clear Hp. unfold coordinates. set (vs := map item_value data). set (lo := min_of vs). set (hi := max_of vs).
  assert (Hvs : Forall plain vs) by (by apply list.Forall_fmap).
  assert (Hne : vs <> []) by (by destruct data).
  destruct (extremes vs Hne Hvs) as [[Hlo Hhi] Hb]. fold lo hi in Hlo, Hhi, Hb.
  rewrite list.Forall_forall in Hvs. pose proof (Hvs _ Hlo) as Plo. pose proof (Hvs _ Hhi) as Phi.
  assert (Hin : forall i d, data !! i = Some d -> plain (item_value d) /\ (value lo <= value (item_value d) <= value hi)%Q).
  { intros i d Hi. assert (item_value d ∈ vs) as Hm by (apply list_elem_of_fmap; exists d; split; [done|by eapply list_elem_of_lookup_2]).
    rewrite list.Forall_forall in Hb. split; [by apply Hvs|by apply Hb]. }
  split; [|split].
  - apply list_eq. intros i. rewrite !list_lookup_fmap, list_lookup_imap. by destruct (data !! i).
  - apply Forall_lookup. intros i p Hi. rewrite list_lookup_imap in Hi. destruct (data !! i) as [d|] eqn:Ei; [|done].
    injection Hi as <-. cbn [px py]. destruct (Hin i d Ei) as [Pd Bd]. apply lookup_lt_Some in Ei.
    destruct (x_in_box (Z.of_nat (length data)) (Z.of_nat i) ltac:(lia) Hn) as [Xp Xb].
    destruct (y_in_box lo hi _ Plo Phi Pd Bd) as [Yp Yb]. done.
  - intros Hz. assert (Hlt : (value lo < value hi)%Q).
    { destruct (Qlt_le_dec (value lo) (value hi)) as [|Hge]; [done|]. exfalso.
      assert (E : lo = hi).
      { apply plain_inj; [done|done|]. rewrite list.Forall_forall in Hb. pose proof (Hb _ Hlo). cbn in *. lra. }
      rewrite E in Hz. rewrite (rounded_exact _ _ Num.zero (sub_rounded hi hi Phi Phi (Qle_refl _)) zero_plain) in Hz;
        [done|change (value Num.zero) with 0%Q; ring]. }
    destruct (y_extremes lo hi Plo Phi Hlt Hz) as [Htop Hbot].
    apply Forall_lookup. intros i p Hi. rewrite list_lookup_imap in Hi. destruct (data !! i) as [d|]; [|done].
    injection Hi as <-. cbn [p_value py]. split; intros ->; done.
Qed.
End Box.
End ChartFacts.

(** ** Properties of the calculators *)
Lemma percent_share n : plain n -> (value n <= 100)%Q -> plain (percent n) /\ (0 <= value (percent n) <= 1)%Q.
Proof.
  intros Hn Hle. destruct (of_Z_plain 100 ltac:(lia)) as [Hp Hv]. change (inject_Z 100) with (100 # 1)%Q in Hv.
  apply div_share; [done|done|rewrite Hv; lra|rewrite Hv; done].
Qed.

(** For a discount between nothing and everything, what is paid for the loan and what is
    received are both between nothing and the face value. *)
Lemma sme_values_bounded faceValue discountRate : plain faceValue -> plain discountRate -> (value discountRate <= 100)%Q ->
  let '(discountPaid, fundedAmount) := useSmeDerivedValues faceValue discountRate in
  (plain discountPaid /\ (0 <= value discountPaid <= value faceValue)%Q) /\
  (plain fundedAmount /\ (0 <= value fundedAmount <= value faceValue)%Q).
Proof.
  intros Hf Hd Hle. unfold useSmeDerivedValues. destruct (percent_share discountRate Hd Hle) as [Pp Pb].
  pose proof (mul_rounded faceValue _ Hf Pp) as Hm. pose proof (plain_nonneg faceValue Hf).
  destruct (rounded_le _ _ faceValue Hm Hf) as [Mp Mh]; [nra|]. pose proof (plain_nonneg _ Mp).
  split; [done|]. apply sub_share; done.
Qed.

Module LpYieldFacts.
Import LpYield.

Lemma yield_plain u : plain u -> (value u <= 100)%Q -> plain (annualYieldPct u).
Proof.
  intros Hu Hle. unfold annualYieldPct, projected_apy, AVG_DISCOUNT_RATE, AVG_MATURITY_DAYS.
  destruct (percent_share u Hu Hle) as [Pu Bu].
  destruct (of_Z_plain 2 ltac:(lia)) as [P2 V2], (of_Z_plain 365 ltac:(lia)) as [P365 V365],
    (of_Z_plain 60 ltac:(lia)) as [P60 V60], (of_Z_plain 100 ltac:(lia)) as [P100 V100].
  change (inject_Z 2) with (2 # 1)%Q in V2. change (inject_Z 365) with (365 # 1)%Q in V365.
  change (inject_Z 60) with (60 # 1)%Q in V60. change (inject_Z 100) with (100 # 1)%Q in V100.
  destruct (percent_share (Num.of_Z 2) P2) as [Pd Bd]; [rewrite V2; lra|].
  destruct (mul_share _ _ Pu Pd Bu) as [Pm Bm].
  pose proof (div_rounded _ _ P365 P60 ltac:(rewrite V60; lra)) as Hq. rewrite V365, V60 in Hq.
  destruct (rounded_plain _ _ 7 Hq) as [Pq Bq]; [lia|change (inject_Z 7) with (7 # 1)%Q; apply Qle_shift_div_r; lra|].
  change (inject_Z 7) with (7 # 1)%Q in Bq.
  destruct (mul_share _ _ Pm Pq ltac:(lra)) as [Pr Br].
  pose proof (mul_rounded _ _ Pr P100) as Hr. rewrite V100 in Hr.
  apply (rounded_plain _ _ 700 Hr); [lia|]. change (inject_Z 700) with (700 # 1)%Q. lra.
Qed.

(** The bars of the comparison are never wider than their track. *)
Lemma bars_fit u : plain u -> (value u <= 100)%Q ->
  Forall (fun w => plain w /\ (value w <= 100)%Q) [trustroveWidth u; savingsWidth u; tbillWidth u].
Proof.
  intros Hu Hle. pose proof (yield_plain u Hu Hle) as Hy.
  destruct (of_Z_plain 5 ltac:(lia)) as [P5 V5], (of_Z_plain 100 ltac:(lia)) as [P100 V100].
  change (inject_Z 5) with (5 # 1)%Q in V5. change (inject_Z 100) with (100 # 1)%Q in V100.
  change (Num.of_Z 5) with SAVINGS_APY in P5, V5. assert (Pt : plain TBILLS_APY) by (by vm_compute).
  destruct (math_max_cases _ _ Hy P5) as (C1 & L1 & L1').
  assert (Pm : plain (math_max (annualYieldPct u) SAVINGS_APY)) by (by destruct C1 as [-> | ->]).
  destruct (math_max_cases _ _ Pm Pt) as (C2 & L2 & L2'). fold (maxApy u) in C2, L2, L2'.
  assert (Px : plain (maxApy u)) by (by destruct C2 as [-> | ->]).
  assert (H5 : (5 <= value (maxApy u))%Q) by (rewrite V5 in L1'; lra).
  assert (Hbar : forall a, plain a -> (value a <= value (maxApy u))%Q -> plain (bar a (maxApy u)) /\ (value (bar a (maxApy u)) <= 100)%Q).
  { intros a Ha Hm. destruct (div_share a _ Ha Px ltac:(lra) Hm) as [Pd Bd].
    destruct (mul_share _ _ Pd P100 Bd) as [Pb Bb]. rewrite V100 in Bb. split; [done|exact (proj2 Bb)]. }
  repeat constructor; try apply Hbar; try done; try lra.
  - unfold trustroveWidth. destruct (Num.gtb _ _); [apply Hbar; [done|lra]|done].
  - unfold trustroveWidth. destruct (Num.gtb _ _); [apply Hbar; [done|lra]|]. by change (value Num.zero) with 0%Q.
Qed.

(** Thousands separators do not shrink a deposit. *)
Example deposits : parseDeposit "10,000" = Num.of_Z 10000 /\ parseDeposit "" = Num.zero /\ parseDeposit "abc" = Num.zero.
Proof. vm_compute. repeat split. Qed.
End LpYieldFacts.

(** ** Properties of the reports *)
(** [total_usdc_financed] is the sum of funded amounts, an integer of stroops; the landing
    page divides such a sum by ten million, the analytics page formats it as it is. *)
Lemma analytics_shows_stroops compact :
  Reported.hero_formatCompactUsdc compact (Some 5000000000000000) = Some (compact (Num.of_Z 500000000)) /\
  Reported.analytics_formatCompactUsdc compact (Some "5000000000000000") = Some ("$" +:+ compact (Num.of_Z 5000000000000000)).
Proof. split; vm_compute; reflexivity. Qed.

(** ** Properties of the animated figures *)
(** An animation that counts up between whole numbers ends after 400 ms, on the number it was
    given. *)
Lemma animation_lands a b t now : 0 <= a < b -> b <= 2 ^ 52 -> 0 <= t -> t + 400 <= now -> now <= 2 ^ 52 ->
  let s := Animated.step {| Animated.displayValue := Num.of_Z a; Animated.running := None |} (Animated.Value (Num.of_Z b) (Num.of_Z t)) in
  Animated.step s (Animated.Frame (Num.of_Z now)) = {| Animated.displayValue := Num.of_Z b; Animated.running := None |}.
Proof.
  intros Ha Hb Ht Hnow Hnow'. cbn zeta. cbn [Animated.step Animated.displayValue].
  destruct (of_Z_plain a) as [Pa Va]; [lia|]. destruct (of_Z_plain b) as [Pb Vb]; [lia|].
  assert (Hne : Num.eqb (Num.of_Z a) (Num.of_Z b) = false).
  { destruct (Num.eqb _ _) eqn:E; [|done]. unfold Num.eqb, SFeqb in E. rewrite compare_value in E by done.
    destruct (Qcompare _ _) eqn:Ec; try discriminate. apply Qeq_alt in Ec. rewrite Va, Vb in Ec.
    exfalso. unfold Qeq in Ec. cbn in Ec. lia. }
  rewrite Hne. cbn [Animated.running]. set (r := {| Animated.from := _ |}).
  assert (Hp : Animated.progress r (Num.of_Z now) = Num.of_Z 1).
  { unfold Animated.progress. cbn [Animated.startTime r]. rewrite sub_of_Z by lia.
    destruct (of_Z_plain (now - t)) as [P1 V1]; [lia|]. destruct (of_Z_plain 400) as [P2 V2]; [lia|].
    destruct (of_Z_plain 1) as [P3 V3]; [lia|].
    assert (Hd : rounded (value (Num.of_Z (now - t)) / value (Num.of_Z 400)) false (Num.div (Num.of_Z (now - t)) (Num.of_Z 400))).
    { apply div_rounded; [done..|]. rewrite V2. reflexivity. }
    assert (Hge : (value (Num.of_Z 1) <= value (Num.of_Z (now - t)) / value (Num.of_Z 400))%Q).
    { rewrite V1, V2, V3. apply Qle_shift_div_l; [reflexivity|]. rewrite <- inject_Z_mult, <- Zle_Qle. lia. }
    assert (Pd : plain (Num.div (Num.of_Z (now - t)) (Num.of_Z 400))).
    { eapply (rounded_le _ _ _ Hd P1). rewrite V1, V2. apply Qle_shift_div_r; [reflexivity|].
      rewrite <- inject_Z_mult, <- Zle_Qle. lia. }
    pose proof (rounded_ge _ _ _ Hd Pd P3 Hge) as Hge'. unfold math_min. rewrite !plain_nan by done. cbn [orb].
    destruct (Num.ltb (Num.of_Z 1) _) eqn:El; [done|]. apply (plain_inj _ _ Pd P3).
    destruct (Qlt_le_dec (value (Num.of_Z 1)) (value (Num.div (Num.of_Z (now - t)) (Num.of_Z 400)))) as [H|H].
    - by apply (ltb_value _ _ P3 Pd) in H; rewrite H in El.
    - lra. }
  cbn [Animated.step Animated.running]. unfold Animated.current. cbn zeta. rewrite Hp. cbn [Animated.from Animated.upto r].
  rewrite (sub_of_Z b a), (sub_of_Z 2 1), (mul_of_Z 1 (2 - 1)) by lia.
  rewrite (mul_of_Z (b - a)), add_of_Z by lia. f_equal. f_equal. lia.
Qed.

(** ** Witnesses *)
Definition sample_data : list PoolChart.ChartDataItem :=
  map (fun z => {| PoolChart.label := Num.bigint_to_string z; PoolChart.item_value := Num.of_Z z |}) [10; 30; 20].
Lemma chart_in_box_witness :
  let l := PoolChart.usePoolChartData (Num.of_Z 500) (Num.of_Z 200) (Num.of_Z 20) sample_data in
  PoolChart.linePath l = "M 20 180 L 250 20 L 480 100" /\
  Forall (fun p => (inject_Z 20 <= value (PoolChart.px p) <= inject_Z (500 - 20))%Q) (PoolChart.points l).
Proof.
  split; [vm_compute; reflexivity|]. eapply list.Forall_impl.
  - exact (proj1 (proj2 (ChartFacts.chart_in_box 500 200 20 ltac:(lia) ltac:(lia) ltac:(lia) sample_data
      ltac:(discriminate) ltac:(vm_compute; congruence) ltac:(repeat constructor)))).
  - intros p (_ & Hp & _). exact Hp.
Defined.
