(* ===== verification/Queries.v ===== *)
(** * What the pages read ([hooks/useInvoices.ts], [usePool.ts], [useProfile.ts],
      [useEvents.ts], [useBalances.ts], [useStats.ts], [useTxHistory.ts])

    Each hook wraps one query of TanStack Query: a key, when it runs, how long an answer
    counts as fresh, and the view with its defaults while there is none.  The query client is
    a library; of it the model uses which cached keys an invalidation matches, which its
    documentation states to be those that start with the given key. *)

From S2P Require Import Prelude JsNumber JsString JsValue SdkTypes WebParsers WebApi WebErrors Storage Wallet.
From S2P Require Import Contracts Actions.
Local Open Scope Z_scope.

(** ** Queries *)
Record QueryOptions := {
  queryKey : list jsval; enabled : bool; staleTime : option Z; refetchInterval : option Z; retry : option Z }.
(** The answer of a query; [data] is absent before the first one. *)
Record Result (A : Type) := { data : option A; isLoading : bool; error : jsval }.
Arguments data {A}.
Arguments isLoading {A}.
Arguments error {A}.

(** The staleness every query starts from ([app/providers.tsx]). *)
Definition default_staleTime : Z := 4000.
Definition opt_str (s : option string) : jsval := match s with Some s => JStr s | None => JUndef end.
Definition opt_num (n : option num) : jsval := match n with Some n => JNum n | None => JUndef end.

Record ListFilters := {
  lf_status : option string; lf_issuer : option string; lf_page : option num; lf_limit : option num;
  lf_enabled : option bool }.
Definition filters_key (f : option ListFilters) : jsval :=
  match f with
  | None => JUndef
  | Some f =>
      JObj [("status", opt_str (lf_status f)); ("issuer", opt_str (lf_issuer f)); ("page", opt_num (lf_page f));
            ("limit", opt_num (lf_limit f));
            ("enabled", match lf_enabled f with Some b => JBool b | None => JUndef end)]
  end.

Definition useInvoicesList (filters : option ListFilters) : QueryOptions :=
  {| queryKey := [JStr "invoices"; filters_key filters]; enabled := default true (filters ≫= lf_enabled);
     staleTime := Some 15000; refetchInterval := Some 15000; retry := None |}.
Record InvoiceListView := {
  iv_invoices : list jsval; iv_total : jsval; iv_totalPages : jsval; iv_page : jsval; iv_limit : jsval }.
(** [data?.field ?? fallback]. *)
Definition of_page (r : Result PaginatedInvoices) (f : PaginatedInvoices -> jsval) (fallback : jsval) : jsval :=
  js_nullish (match data r with Some p => f p | None => JUndef end) fallback.
Definition invoices_view (filters : option ListFilters) (r : Result PaginatedInvoices) : InvoiceListView :=
  {| iv_invoices := default [] (p_data <$> data r);
     iv_total := of_page r p_total (JNum Num.zero); iv_totalPages := of_page r p_totalPages (JNum (Num.of_Z 1));
     iv_page := of_page r p_page (js_nullish (opt_num (filters ≫= lf_page)) (JNum (Num.of_Z 1)));
     iv_limit := of_page r p_limit (js_nullish (opt_num (filters ≫= lf_limit)) (JNum (Num.of_Z 20))) |}.

Definition useInvoiceStats (issuer : option string) : QueryOptions :=
  {| queryKey := [JStr "invoiceStats"; opt_str issuer]; enabled := opt_str_truthy issuer;
     staleTime := Some 15000; refetchInterval := Some 15000; retry := None |}.
Definition stats_view (r : Result InvoiceStats) : InvoiceStats := default EMPTY_INVOICE_STATS (data r).

Definition useInvoice (id : string) : QueryOptions :=
  {| queryKey := [JStr "invoice"; JStr id]; enabled := negb (String.eqb id ""); staleTime := Some 60000;
     refetchInterval := None; retry := None |}.

Definition poolStatsQuery : QueryOptions :=
  {| queryKey := [JStr "poolStats"]; enabled := true; staleTime := Some 45000; refetchInterval := Some 45000;
     retry := None |}.
(** [null] is the address of a wallet that is not connected. *)
Definition address_key (address : option string) : jsval := match address with Some a => JStr a | None => JNull end.
Definition positionQuery (address : option string) : QueryOptions :=
  {| queryKey := [JStr "lpPosition"; address_key address]; enabled := opt_str_truthy address; staleTime := None;
     refetchInterval := None; retry := None |}.

Definition profileQuery (address : option string) : QueryOptions :=
  {| queryKey := [JStr "profile"; address_key address]; enabled := opt_str_truthy address; staleTime := None;
     refetchInterval := None; retry := None |}.
Definition isVerifiedQuery (address : option string) : QueryOptions :=
  {| queryKey := [JStr "isVerified"; address_key address]; enabled := opt_str_truthy address; staleTime := None;
     refetchInterval := None; retry := None |}.

Definition useRecentEvents (limit : option num) (issuer : option string) (refetch : option Z) (on : option bool) : QueryOptions :=
  {| queryKey := [JStr "recentEvents"; opt_num limit; opt_str issuer]; enabled := default true on;
     staleTime := None; refetchInterval := refetch; retry := None |}.
Definition events_view (r : Result (list EventLog)) : list EventLog := default [] (data r).

Definition useBalances (address : option string) (connected : bool) : QueryOptions :=
  {| queryKey := [JStr "balances"; address_key address; JBool connected]; enabled := opt_str_truthy address && connected;
     staleTime := None; refetchInterval := Some 30000; retry := None |}.
Definition balances_view (r : Result Balances) : Balances * bool * option string :=
  (default no_balances (data r), isLoading r, if truthy (error r) then Some "Failed to fetch balances" else None).

Definition useStats : QueryOptions :=
  {| queryKey := [JStr "protocolStats"]; enabled := true; staleTime := Some 30000; refetchInterval := Some 60000;
     retry := Some 3 |}.

Definition txHistoryQuery (address : string) (cursor : option string) : QueryOptions :=
  {| queryKey := [JStr "txHistory"; JStr address; opt_str cursor]; enabled := negb (String.eqb address "");
     staleTime := Some 10000; refetchInterval := None; retry := None |}.

Definition snapshotsQuery (given : bool) : QueryOptions :=
  {| queryKey := [JStr "poolSnapshots"]; enabled := negb given; staleTime := Some 60000; refetchInterval := None;
     retry := Some 2 |}.

(** How long an answer of the query is shown without asking again. *)
Definition freshFor (q : QueryOptions) : Z := default default_staleTime (staleTime q).

(** ** Invalidation *)
Class QueryClient := { matches : list jsval -> list jsval -> bool }.
Class QueryClientLaws (C : QueryClient) := {
  matches_prefix ks key : matches (map JStr ks) key = true <-> exists rest, key = map JStr ks ++ rest }.

(** A query is refetched if one of the invalidated keys matches it. *)
Definition marked `{QueryClient} (invalidated : list (list string)) (q : QueryOptions) : bool :=
  existsb (fun ks => matches (map JStr ks) (queryKey q)) invalidated.

(** ** Properties *)
(** Before the first answer the views have their documented defaults, and the page and the
    limit that were asked for. *)
Lemma views_before_an_answer f page limit loading err :
  lf_page f = page -> lf_limit f = limit ->
  let r := {| data := None; isLoading := loading; error := err |} in
  invoices_view (Some f) r =
    {| iv_invoices := []; iv_total := JNum Num.zero; iv_totalPages := JNum (Num.of_Z 1);
       iv_page := JNum (default (Num.of_Z 1) page); iv_limit := JNum (default (Num.of_Z 20) limit) |} /\
  stats_view {| data := None; isLoading := loading; error := err |} = EMPTY_INVOICE_STATS /\
  (balances_view {| data := None; isLoading := loading; error := err |}).1.1 = no_balances.
Proof. intros <- <-. cbn zeta. unfold invoices_view, of_page. cbn. by destruct (lf_page f), (lf_limit f). Qed.

Section Staleness.
Context {C : QueryClient} {laws : QueryClientLaws C}.

Lemma marked_spec invalidated q :
  marked invalidated q = true <-> exists ks rest, ks ∈ invalidated /\ queryKey q = map JStr ks ++ rest.
Proof.
  unfold marked. rewrite existsb_exists. split.
  - intros (ks & Hin & [rest Hk]%matches_prefix). exists ks, rest. split; [by apply list_elem_of_In|done].
  - intros (ks & rest & Hin & Hk). exists ks. split; [by apply list_elem_of_In|]. apply matches_prefix. by exists rest.
Qed.

Lemma not_marked invalidated q :
  (forall ks rest, ks ∈ invalidated -> queryKey q <> map JStr ks ++ rest) -> marked invalidated q = false.
Proof.
  intros H. destruct (marked invalidated q) eqn:E; [|done]. apply marked_spec in E as (ks & rest & Hin & Hk).
  by apply H in Hk.
Qed.

(** After an action on an invoice by a connected wallet, every list of invoices, the
    statistics of every issuer, the statistics of the pool and the position of that wallet
    are read again; other wallets' positions are kept, and so are the single invoice, the
    event log, the transaction history, the balances and the protocol statistics, which
    wait for their own interval or a refetch. *)
Theorem invoice_action_refetches a (Ha : a <> "") :
  let stale := stale_keys (Some a) in
  ((forall f, marked stale (useInvoicesList f) = true) /\ (forall issuer, marked stale (useInvoiceStats issuer) = true) /\
   marked stale poolStatsQuery = true /\ marked stale (positionQuery (Some a)) = true) /\
  (forall b, b <> Some a -> marked stale (positionQuery b) = false) /\
  (forall id, marked stale (useInvoice id) = false) /\
  (forall limit issuer refetch on, marked stale (useRecentEvents limit issuer refetch on) = false) /\
  (forall b cursor, marked stale (txHistoryQuery b cursor) = false) /\
  (forall b connected, marked stale (useBalances b connected) = false) /\ marked stale useStats = false.
Proof.
  cbn zeta. unfold stale_keys. cbn [opt_str_truthy default]. destruct (String.eqb_spec a "") as [|_]; [done|]. cbn [negb app].
  assert (Hyes : forall q ks rest, ks ∈ [["invoices"]; ["invoiceStats"]; ["poolStats"]; ["lpPosition"; a]] ->
      queryKey q = map JStr ks ++ rest -> marked [["invoices"]; ["invoiceStats"]; ["poolStats"]; ["lpPosition"; a]] q = true).
  { intros q ks rest Hin Hk. apply marked_spec. by exists ks, rest. }
  assert (Hno : forall q k rest, queryKey q = JStr k :: rest -> k <> "invoices" -> k <> "invoiceStats" -> k <> "poolStats" ->
      (k = "lpPosition" -> head rest <> Some (JStr a)) ->
      marked [["invoices"]; ["invoiceStats"]; ["poolStats"]; ["lpPosition"; a]] q = false).
  { intros q k rest Hk H1 H2 H3 H4. apply not_marked. intros ks rest' Hin. rewrite Hk.
    repeat (apply elem_of_cons in Hin as [->|Hin]; [cbn; try congruence|]); [|by apply not_elem_of_nil in Hin].
    intros [= -> ->]. by apply H4. }
  split; [split; [|split; [|split]]|split; [|split; [|split; [|split; [|split]]]]].
  - intros f. apply (Hyes _ ["invoices"] [filters_key f]); [set_solver|done].
  - intros issuer. apply (Hyes _ ["invoiceStats"] [opt_str issuer]); [set_solver|done].
  - apply (Hyes _ ["poolStats"] []); [set_solver|done].
  - apply (Hyes _ ["lpPosition"; a] []); [set_solver|done].
  - intros b Hb. eapply Hno; [reflexivity|done..|]. intros _. cbn. destruct b; cbn; congruence.
  - intros id. by eapply Hno.
  - intros. by eapply Hno.
  - intros. by eapply Hno.
  - intros. by eapply Hno.
  - by eapply Hno.
Qed.
End Staleness.

(** ** Witnesses *)
Module MockClient.
Fixpoint starts_with_key (f key : list jsval) : bool :=
  match f, key with
  | [], _ => true
  | JStr s :: f, JStr s' :: key => String.eqb s s' && starts_with_key f key
  | _, _ => false
  end.
Definition client : QueryClient := {| matches := starts_with_key |}.
Lemma client_laws : QueryClientLaws client.
Proof.
  constructor. cbn [matches client]. intros ks. induction ks as [|k ks IH]; intros key; cbn.
  - split; [intros _; by exists key|done].
  - destruct key as [|[] key]; try (split; [done|by intros [rest [=]]]). rewrite andb_true_iff, String.eqb_eq, IH.
    split; [intros (-> & rest & ->); by exists rest|]. intros [rest [= -> ->]]. split; [done|by exists rest].
Qed.
End MockClient.

Lemma invoice_action_refetches_witness :
  @marked MockClient.client (stale_keys (Some "GA")) (positionQuery (Some "GB")) = false.
Proof.
  exact (proj1 (proj2 (@invoice_action_refetches MockClient.client MockClient.client_laws "GA" ltac:(discriminate)))
    (Some "GB") ltac:(discriminate)).
Defined.
