(* ===== verification/Dialogs.v ===== *)
(** * Dialogs ([hooks/useFocusTrap.ts], [components/shared/OnboardingTour.tsx],
      [ConfirmationDialog.tsx], [ErrorBoundary.tsx], [components/invoice/InvoiceCompareModal.tsx])

    What the overlays of the app have in common is the focus trap: keys pressed while it is
    enabled, the browser's own Tab being an argument.  The tour, the confirmation of an
    action and the comparison of invoices are step functions over their store and state;
    the error boundary keeps the exception its children threw. *)

From Stdlib Require Import QArith Lqa.
From S2P Require Import Prelude JsNumber JsRounding JsString JsValue SdkTypes Storage Marketplace.
Local Open Scope Z_scope.

(** ** The focus trap *)
Module Trap.
Section Trap.
Context {El : Type} `{EqDecision El}.
(** [default_tab shift active] is where the browser's own Tab goes. *)
Context (default_tab : bool -> option El -> option El).

Inductive Key := KEscape | KTab (shift : bool) | KOther.
(** What the listener does with a key: it may prevent the default, focus an element and
    call [onEscape]. *)
Record reaction := { prevented : bool; focus : option El; escaped : bool }.
Definition nothing : reaction := {| prevented := false; focus := None; escaped := false |}.

(** [container] is [None] while the ref is empty; otherwise the focusable elements in it. *)
Definition handleKeyDown (container : option (list El)) (active : option El) (e : Key) : reaction :=
  match e with
  | KEscape => {| prevented := false; focus := None; escaped := true |}
  | KOther => nothing
  | KTab shift =>
      match container with
      | None => nothing
      | Some [] => {| prevented := true; focus := None; escaped := false |}
      | Some (first :: rest) =>
          let last := List.last rest first in
          if shift && bool_decide (active = Some first) then {| prevented := true; focus := Some last; escaped := false |}
          else if negb shift && bool_decide (active = Some last) then {| prevented := true; focus := Some first; escaped := false |}
          else nothing
      end
  end.

(** The element that has the focus after a key. *)
Definition press (container : option (list El)) (active : option El) (e : Key) : option El :=
  let r := handleKeyDown container active e in
  match focus r, e with
  | Some x, _ => Some x
  | None, KTab shift => if prevented r then active else default_tab shift active
  | None, _ => active
  end.

(** The page around the trap; [root] is the container element itself, and [pending] the
    elements that animation frames will focus again. *)
Record state := { enabled : bool; active : option El; previousFocus : option El; pending : list El; escapes : nat }.
Inductive event :=
  | Enable (root : El) (elements : option (list El))
  | Disable
  | Press (elements : option (list El)) (e : Key)
  | Frame.

Definition step (s : state) (e : event) : state :=
  match e with
  | Enable root elements =>
      if enabled s then s
      else {| enabled := true; previousFocus := active s; pending := pending s; escapes := escapes s;
              active := match elements with
                        | None => active s
                        | Some [] => Some root
                        | Some (first :: _) => Some first
                        end |}
  | Disable =>
      if enabled s then
        {| enabled := false; active := active s; previousFocus := None; escapes := escapes s;
           pending := pending s ++ match previousFocus s with Some x => [x] | None => [] end |}
      else s
  | Press elements k =>
      if enabled s then
        {| enabled := true; active := press elements (active s) k; previousFocus := previousFocus s; pending := pending s;
           escapes := escapes s + (if escaped (handleKeyDown elements (active s) k) then 1 else 0) |}
      else {| enabled := false; previousFocus := previousFocus s; pending := pending s; escapes := escapes s;
              active := match k with KTab shift => default_tab shift (active s) | _ => active s end |}
  | Frame =>
      match pending s with
      | [] => s
      | x :: rest => {| enabled := enabled s; active := Some x; previousFocus := previousFocus s; pending := rest;
                        escapes := escapes s |}
      end
  end.
End Trap.
Arguments reaction : clear implicits.
Arguments state : clear implicits.
Arguments event : clear implicits.
End Trap.

(** ** The onboarding tour *)
Module Tour.
Definition TOUR_STEPS : list (string * option string) :=
  [("welcome", None); ("role", Some "role-switcher"); ("balances", Some "balances");
   ("dashboard", Some "nav-dashboard"); ("lp", Some "nav-lp"); ("marketplace", Some "nav-marketplace");
   ("profile", Some "nav-profile"); ("done", Some "tour-launcher")].

(** [stepIndex] is the state of the dialog, which is mounted while the tour is open. *)
Record state := { disk : storage; connected : bool; isOpen : bool; stepIndex : nat }.
Definition with_open (s : state) (o : bool) : state :=
  {| disk := disk s; connected := connected s; isOpen := o; stepIndex := if isOpen s && o then stepIndex s else 0 |}.
Definition start (s : state) : state := with_open s (Onboarding.start (isOpen s)).
Definition close (s : state) : state := with_open s (Onboarding.close (isOpen s)).

(** The effect of [connected]; the flag tells if it opened the tour. *)
Definition effect (s : state) : state * bool :=
  if connected s && negb (hasSeenOnboarding (disk s)) then
    (start {| disk := markOnboardingSeen (disk s); connected := connected s; isOpen := isOpen s; stepIndex := stepIndex s |}, true)
  else (s, false).

Definition isFirst (s : state) : bool := (stepIndex s =? 0)%nat.
Definition isLast (s : state) : bool := (stepIndex s =? length TOUR_STEPS - 1)%nat.
Definition at_step (s : state) (i : nat) : state :=
  {| disk := disk s; connected := connected s; isOpen := isOpen s; stepIndex := i |}.
Definition next (s : state) : state := if isLast s then close s else at_step s (S (stepIndex s)).
Definition back (s : state) : state := at_step s (stepIndex s - 1).

Inductive event := Load (conn : bool) | Connected (conn : bool) | Launch | Next | Back | Skip.
Definition step (s : state) (e : event) : state * bool :=
  match e with
  | Load c => effect {| disk := disk s; connected := c; isOpen := Onboarding.initial; stepIndex := 0 |}
  | Connected c =>
      if Bool.eqb c (connected s) then (s, false)
      else effect {| disk := disk s; connected := c; isOpen := isOpen s; stepIndex := stepIndex s |}
  | Launch => (start s, false)
  | Next => (if isOpen s then next s else s, false)
  | Back => (if isOpen s then back s else s, false)
  | Skip => (if isOpen s then close s else s, false)
  end.
(** The tours that opened by themselves. *)
Fixpoint run (s : state) (es : list event) : state * nat :=
  match es with
  | [] => (s, 0%nat)
  | e :: es => let '(s1, o) := step s e in let '(s2, n) := run s1 es in (s2, ((if o then 1 else 0) + n)%nat)
  end.

(** The card next to the highlighted element. *)
Definition CARD_WIDTH : num := Num.of_Z 360.
Definition GAP : num := Num.of_Z 12.
Definition EDGE : num := Num.of_Z 16.
Record Rect := { top : num; left : num; width : num; height : num }.
Definition cardWidth (viewport : num) : num := math_min CARD_WIDTH (Num.sub viewport (Num.mul EDGE (Num.of_Z 2))).
Definition cardLeft (rect : Rect) (viewport : num) : num :=
  let w := cardWidth viewport in
  math_min
    (math_max (Num.sub (Num.add (left rect) (Num.div (width rect) (Num.of_Z 2))) (Num.div w (Num.of_Z 2))) EDGE)
    (Num.sub (Num.sub viewport w) EDGE).
(** Below the element, or above it: the distance from the top, or from the bottom. *)
Definition cardVertical (rect : Rect) (viewport : num) : num + num :=
  let below := Num.add (Num.add (top rect) (height rect)) GAP in
  if Num.gtb (Num.add below (Num.of_Z 220)) viewport then inr (Num.add (Num.sub viewport (top rect)) GAP)
  else inl below.
End Tour.

(** ** The confirmation of an action *)
Module Confirm.
Section Confirm.
Context {A : Type}.
(** [reenter f] is what [f] asks to confirm while it runs. *)
Context (reenter : A -> option (ConfirmDialog.PendingAction A)).

(** The dialog is closed before the action runs. *)
Definition handleConfirm (s : ConfirmDialog.state A) : ConfirmDialog.state A * list A :=
  match s with
  | None => (s, [])
  | Some action =>
      let s := ConfirmDialog.cancel s in
      (match reenter (ConfirmDialog.fn action) with
       | Some again => ConfirmDialog.request s again
       | None => s
       end, [ConfirmDialog.fn action])
  end.

Inductive event := Request (a : ConfirmDialog.PendingAction A) | Cancel | Confirm.
Definition step (s : ConfirmDialog.state A) (e : event) : ConfirmDialog.state A * list A :=
  match e with
  | Request a => (ConfirmDialog.request s a, [])
  | Cancel => (ConfirmDialog.cancel s, [])
  | Confirm => handleConfirm s
  end.
Fixpoint run (s : ConfirmDialog.state A) (es : list event) : ConfirmDialog.state A * list A :=
  match es with
  | [] => (s, [])
  | e :: es => let '(s1, o1) := step s e in let '(s2, o2) := run s1 es in (s2, o1 ++ o2)
  end.
End Confirm.
Arguments event : clear implicits.
End Confirm.

(** ** The error boundary *)
Module Boundary.
Record state := { hasError : bool; error : jsval }.
Definition initial : state := {| hasError := false; error := JNull |}.
Definition getDerivedStateFromError (e : jsval) : state := {| hasError := true; error := e |}.
Definition reset (_ : state) : state := initial.

Inductive shown := Children | Custom (e : jsval) | Default (message : string).
(** [fallback] tells if the boundary was given one. *)
Definition render (fallback : bool) (s : state) : shown :=
  if hasError s && truthy (error s) then
    if fallback then Custom (error s)
    else Default (let m := opt_field (error s) "message" in
                  if truthy m then to_str m else "An unexpected error occurred.")
  else Children.
End Boundary.

(** ** The comparison of invoices *)
Module Compare.
Definition maxScroll (n : nat) : nat := n - 4.
Inductive event := Previous | Following.
(** The buttons are there for more than four invoices, and disabled at the ends. *)
Definition pressable (n : nat) (scrollOffset : nat) (e : event) : bool :=
  (4 <? n)%nat && match e with Previous => negb (scrollOffset =? 0)%nat | Following => negb (maxScroll n <=? scrollOffset)%nat end.
Definition step (n : nat) (scrollOffset : nat) (e : event) : nat :=
  if pressable n scrollOffset e then
    match e with
    | Previous => scrollOffset - 1
    | Following => Nat.min (maxScroll n) (scrollOffset + 1)
    end
  else scrollOffset.
Definition visibleInvoices {A} (invoices : list A) (scrollOffset : nat) : list A := take 4 (drop scrollOffset invoices).

(** On the marketplace: the toolbar counts the ids, the dialog the invoices of the rows. *)
Definition toolbar (ids : list string) : bool := (2 <=? length ids)%nat.
Definition canCompare (ids : list string) : bool := toolbar ids && negb (4 <? length ids)%nat.
Definition modal (showCompareModal : bool) (rows : list Invoice) (ids : list string) : option (list Invoice) :=
  let chosen := selectedInvoices rows ids in
  if showCompareModal && (2 <=? length chosen)%nat then Some chosen else None.
End Compare.

(** ** Properties of the focus trap *)
Module TrapFacts.
Import Trap.
Section Facts.
Context {El : Type} `{EqDecision El} (default_tab : bool -> option El -> option El).
Context (l : list El).
(** The container's elements, and sequential navigation inside of it. *)
Hypothesis Hdup : NoDup l.
Hypothesis forward : forall i x y, l !! i = Some x -> l !! S i = Some y -> default_tab false (Some x) = Some y.
Hypothesis backward : forall i x y, l !! i = Some x -> l !! S i = Some y -> default_tab true (Some y) = Some x.

Lemma last_lookup (x : El) rest : (x :: rest) !! length rest = Some (List.last rest x).
Proof.
  destruct rest as [|y rest] using rev_ind; [done|].
  rewrite List.last_last, length_app, app_comm_cons. cbn [length]. by apply list_lookup_middle; cbn; lia.
Qed.

Lemma press_tab i x shift : l !! i = Some x ->
  press default_tab (Some l) (Some x) (KTab shift) =
    l !! Z.to_nat ((Z.of_nat i + (if shift then -1 else 1)) mod Z.of_nat (length l)).
Proof.
  intros Hx. pose proof (lookup_lt_Some _ _ _ Hx) as Hi. unfold press, handleKeyDown.
  destruct l as [|a rest] eqn:El'; [done|]. set (n := length (a :: rest)) in *. pose proof (last_lookup a rest) as Hlast.
  assert (Hn : n = S (length rest)) by done.
  assert (Huniq : forall j y, (a :: rest) !! j = Some y -> x = y -> i = j).
  { intros j y Hj <-. by eapply NoDup_lookup. }
  destruct shift; cbn [andb negb].
  - case_bool_decide as Hf.
    + injection Hf as ->. assert (i = 0%nat) as -> by (by eapply (Huniq 0%nat a)). cbn [focus].
      rewrite <- Hlast. f_equal. rewrite <- (Z.mod_unique _ _ (-1) (Z.of_nat (length rest))); lia.
    + cbn. destruct i as [|i]; [cbn in Hx; congruence|]. destruct (lookup_lt_is_Some_2 (a :: rest) i) as [y Hy]; [lia|].
      rewrite (backward i y x) by done. rewrite <- Hy. f_equal. rewrite Z.mod_small; lia.
  - case_bool_decide as Hf.
    + injection Hf as Hf. assert (i = length rest) as -> by (by eapply Huniq). cbn [focus].
      replace (Z.of_nat (length rest) + 1) with (Z.of_nat n) by lia. rewrite Z.mod_same by lia. done.
    + cbn. assert (i <> length rest) by (intros ->; rewrite Hlast in Hx; congruence).
      destruct (lookup_lt_is_Some_2 (a :: rest) (S i)) as [y Hy]; [lia|].
      rewrite (forward i x y) by done. rewrite <- Hy. f_equal. rewrite Z.mod_small; lia.
Qed.

Lemma tab_no_escape (c : option (list El)) a shift : escaped (handleKeyDown c a (KTab shift)) = false.
Proof. destruct c as [[|x c]|]; [done| |done]. unfold handleKeyDown. by repeat case_match. Qed.

(** How far the keys go: one forward for Tab, one back with Shift. *)
Definition distance (keys : list bool) : Z := foldr (fun (shift : bool) d => (if shift then -1 else 1) + d) 0 keys.

(** While the trap is enabled, Tab and Shift+Tab cycle through the focusable elements of
    the container in both directions, whatever was focused before: after any keys the
    focus is on the element that the count of the keys leads to, and disabling the trap gives
    the focus back on the next frame. *)
Theorem trap_cycles s root keys : l <> [] -> enabled s = false ->
  let t := foldl (step default_tab) (step default_tab s (Enable root (Some l))) (map (fun shift => Press (Some l) (KTab shift)) keys) in
  active t = l !! Z.to_nat (distance keys mod Z.of_nat (length l)) /\ is_Some (active t) /\ escapes t = escapes s /\
  forall x, active s = Some x -> pending s = [] ->
    active (step default_tab (step default_tab t Disable) Frame) = Some x.
Proof.
  intros Hne Hs. cbn zeta. assert (exists a rest, l = a :: rest) as (a & rest & El') by (clear - Hne; destruct l; [done|eauto]).
  assert (Hlen : 0 < Z.of_nat (length l)) by (rewrite El'; cbn; lia).
  set (s0 := step default_tab s (Enable root (Some l))).
  assert (H0 : active s0 = l !! 0%nat /\ enabled s0 = true /\ previousFocus s0 = active s /\ pending s0 = pending s /\ escapes s0 = escapes s).
  { unfold s0. cbn [step]. rewrite Hs, El'. done. }
  assert (H : forall ks i s1, (i < length l)%nat -> active s1 = l !! i -> enabled s1 = true ->
    let t := foldl (step default_tab) s1 (map (fun shift => Press (Some l) (KTab shift)) ks) in
    active t = l !! Z.to_nat ((Z.of_nat i + distance ks) mod Z.of_nat (length l)) /\ enabled t = true /\
    previousFocus t = previousFocus s1 /\ pending t = pending s1 /\ escapes t = escapes s1).
  { induction ks as [|k ks IH]; intros i s1 Hi Ha He; cbn zeta.
    - cbn [map foldl distance foldr]. rewrite Z.add_0_r, Z.mod_small by lia. by rewrite Nat2Z.id.
    - cbn [map foldl]. destruct (lookup_lt_is_Some_2 l i Hi) as [x Hx].
      set (s2 := step default_tab s1 (Press (Some l) (KTab k))).
      pose proof (press_tab i x k Hx) as Hp. set (j := Z.to_nat _) in Hp.
      assert (Hj : (j < length l)%nat) by (unfold j; pose proof (Z.mod_pos_bound (Z.of_nat i + (if k then -1 else 1)) _ Hlen); lia).
      assert (H2 : active s2 = l !! j /\ enabled s2 = true /\ previousFocus s2 = previousFocus s1 /\ pending s2 = pending s1 /\ escapes s2 = escapes s1).
      { unfold s2. cbn [step]. rewrite He. cbn [active enabled previousFocus pending escapes]. rewrite Ha, Hx. split; [exact Hp|].
        split; [done|]. split; [done|]. split; [done|]. by rewrite tab_no_escape, Nat.add_0_r. }
      destruct H2 as (Ha2 & He2 & Hp2 & Hq2 & Hs2). specialize (IH j s2 Hj Ha2 He2). cbn zeta in IH.
      rewrite Hp2, Hq2, Hs2 in IH. destruct IH as (IHa & IH). split; [|exact IH]. rewrite IHa. f_equal. f_equal.
      unfold j. pose proof (Z.mod_pos_bound (Z.of_nat i + (if k then -1 else 1)) _ Hlen). rewrite Z2Nat.id by lia.
      rewrite Zplus_mod_idemp_l. f_equal. cbn [distance foldr]. fold (distance ks). lia. }
  destruct H0 as (Ha & He & Hp & Hq & Hes). specialize (H keys 0%nat s0 ltac:(lia) Ha He). cbn zeta in H.
  destruct H as (Hat & Het & Hpt & Hqt & Hst). split; [exact Hat|]. split.
  { rewrite Hat. apply lookup_lt_is_Some_2. pose proof (Z.mod_pos_bound (Z.of_nat 0 + distance keys) _ Hlen). lia. }
  split; [congruence|]. intros x Hx Hpend. cbn [step]. rewrite Het. cbn [step pending]. rewrite Hpt, Hqt, Hp, Hq, Hpend, Hx. done.
Qed.

(** The container itself can hold the focus (a click on its text gives it to an element with
    [tabIndex={-1}]), and it is not among its focusable elements: from there Shift+Tab is left
    to the browser. *)
Lemma root_is_not_trapped (root : El) : root ∉ l -> l <> [] ->
  handleKeyDown (Some l) (Some root) (KTab true) = nothing /\
  press default_tab (Some l) (Some root) (KTab true) = default_tab true (Some root).
Proof.
  intros Hr Hne. assert (exists a rest, l = a :: rest) as (a & rest & E) by (clear - Hne; destruct l; [done|eauto]).
  assert (H : handleKeyDown (Some l) (Some root) (KTab true) = nothing).
  { unfold handleKeyDown. rewrite E. cbn [andb negb]. rewrite bool_decide_eq_false_2; [done|]. intros [= ->]. rewrite E in Hr. set_solver. }
  split; [exact H|]. unfold press. by rewrite H.
Qed.
End Facts.
End TrapFacts.

(** ** Properties of the tour *)
Module TourFacts.
Import Tour.

Lemma seen_after_mark s : available s -> hasSeenOnboarding (markOnboardingSeen s) = true /\ available (markOnboardingSeen s).
Proof.
  intros [Hr Hw]. unfold hasSeenOnboarding, markOnboardingSeen, setItem_safe, setItem, getItem. rewrite Hw. cbn [readable items].
  rewrite Hr, lookup_put_eq. split; [by apply bool_decide_eq_true_2|done].
Qed.

(** The tour is somewhere between its first and its last step. *)
Record fine (s : state) : Prop := {
  fine_disk : available (disk s);
  fine_step : (stepIndex s < length TOUR_STEPS)%nat }.

Lemma with_open_fine s o : fine s -> fine (with_open s o).
Proof. intros [Hd Hi]. split; [done|]. cbn in *. destruct (isOpen s && o); cbn in *; lia. Qed.

Lemma effect_spec s : fine s ->
  fine (effect s).1 /\
  ((effect s).2 = true -> hasSeenOnboarding (disk s) = false /\ hasSeenOnboarding (disk (effect s).1) = true) /\
  (hasSeenOnboarding (disk s) = true -> hasSeenOnboarding (disk (effect s).1) = true).
Proof.
  intros Hf. unfold effect. destruct (connected s && negb (hasSeenOnboarding (disk s))) eqn:E; [|by split_and!].
  apply andb_prop in E as [_ E%negb_true_iff]. destruct (seen_after_mark (disk s) (fine_disk _ Hf)) as [Hs Ha]. cbn [fst snd].
  split; [|done]. apply with_open_fine. split; [done|apply Hf].
Qed.

Lemma step_spec s e : fine s ->
  fine (step s e).1 /\
  ((step s e).2 = true -> hasSeenOnboarding (disk s) = false /\ hasSeenOnboarding (disk (step s e).1) = true) /\
  (hasSeenOnboarding (disk s) = true -> hasSeenOnboarding (disk (step s e).1) = true).
Proof.
  intros Hf. pose proof Hf as [Hd Hi]. destruct e as [c|c| | | |]; cbn [step].
  - refine (effect_spec {| disk := disk s; connected := c; isOpen := false; stepIndex := 0 |} _). split; cbn; [done|lia].
  - destruct (Bool.eqb c (connected s)); [by split|].
    by refine (effect_spec {| disk := disk s; connected := c; isOpen := isOpen s; stepIndex := stepIndex s |} _).
  - split; [by apply with_open_fine|done].
  - destruct (isOpen s); [|by split]. unfold next. destruct (isLast s) eqn:E; [split; [by apply with_open_fine|done]|].
    split; [|done]. split; [done|]. cbn. unfold isLast in E. apply Nat.eqb_neq in E. cbn in Hi, E. lia.
  - destruct (isOpen s); [|by split]. split; [|done]. split; [done|]. cbn in *. lia.
  - destruct (isOpen s); [|by split]. split; [by apply with_open_fine|done].
Qed.

Lemma run_spec es : forall s, fine s ->
  fine (run s es).1 /\ ((run s es).2 <= (if hasSeenOnboarding (disk s) then 0 else 1))%nat.
Proof.
  induction es as [|e es IH]; intros s Hf; [split; [done|cbn; lia]|]. cbn [run].
  pose proof (step_spec s e Hf) as (Hf1 & Ho & Hk). destruct (step s e) as [s1 o]. cbn [fst snd] in *.
  destruct (IH s1 Hf1) as [Hf2 Hn]. destruct (run s1 es) as [s2 n]. cbn [fst snd] in *. split; [done|].
  destruct o; [destruct (Ho eq_refl) as [-> Hs]; rewrite Hs in Hn; lia|].
  destruct (hasSeenOnboarding (disk s)); [by rewrite Hk in Hn|]. destruct (hasSeenOnboarding (disk s1)); lia.
Qed.

(** With a storage that works, the tour opens by itself at most once in a browser,
    however often wallets connect and the app is loaded, and never once it was seen; whatever
    the buttons do, the dialog is at one of its eight steps. *)
Theorem tour_opens_once s es (Ha : available (disk s)) (H0 : isOpen s = false) (Hi : stepIndex s = 0%nat) :
  ((run s es).2 <= 1)%nat /\ (hasSeenOnboarding (disk s) = true -> (run s es).2 = 0%nat) /\
  (stepIndex (run s es).1 < length TOUR_STEPS)%nat.
Proof.
  destruct (run_spec es s) as [[_ Hs] Hn]; [split; [done|rewrite Hi; cbn; lia]|].
  split; [destruct (hasSeenOnboarding (disk s)); lia|]. split; [|done]. intros E. rewrite E in Hn. lia.
Qed.

(** A storage that is readable but full cannot keep the flag, and the tour opens at every
    connect. *)
Lemma tour_reopens_when_full n :
  let full := {| items := []; readable := true; writable := fun _ _ => false |} in
  (run {| disk := full; connected := false; isOpen := false; stepIndex := 0 |}
       (concat (replicate n [Connected true; Skip; Connected false]))).2 = n.
Proof.
  cbn zeta. set (s0 := {| disk := _ |}).
  assert (H : forall es, (run s0 (Connected true :: Skip :: Connected false :: es)).2 = S (run s0 es).2).
  { intros es. transitivity ((let '(s, m) := let '(s, m) := let '(s, m) := run s0 es in (s, (0 + m)%nat) in
                                             (s, (0 + m)%nat) in (s, (1 + m)%nat)).2); [reflexivity|by destruct (run s0 es)]. }
  induction n as [|n IH]; [done|]. cbn [replicate concat app]. rewrite H. by f_equal.
Qed.

(** The card stays on the screen, sixteen pixels from its edges, wherever the element is. *)
Lemma card_on_screen rect W : 33 <= W <= 2 ^ 50 ->
  plain (Num.sub (Num.add (left rect) (Num.div (width rect) (Num.of_Z 2))) (Num.div (cardWidth (Num.of_Z W)) (Num.of_Z 2))) ->
  cardWidth (Num.of_Z W) = Num.of_Z (Z.min 360 (W - 32)) /\
  plain (cardLeft rect (Num.of_Z W)) /\
  (16 <= value (cardLeft rect (Num.of_Z W)) <= inject_Z (W - 16 - Z.min 360 (W - 32)))%Q.
Proof.
  intros HW Hx. assert (Hw : cardWidth (Num.of_Z W) = Num.of_Z (Z.min 360 (W - 32))).
  { unfold cardWidth, CARD_WIDTH, EDGE. rewrite mul_of_Z by lia. cbn [Z.mul Pos.mul]. rewrite sub_of_Z by lia.
    destruct (of_Z_plain 360) as [P1 V1]; [lia|]. destruct (of_Z_plain (W - 32)) as [P2 V2]; [lia|].
    unfold math_min. rewrite !plain_nan by done. cbn [orb]. pose proof (ltb_value _ _ P2 P1) as H.
    rewrite V1, V2, <- Zlt_Qlt in H. destruct (Num.ltb _ _); [rewrite Z.min_r by (apply Z.lt_le_incl, H; done); done|].
    destruct (Z_lt_le_dec (W - 32) 360) as [E|E]; [by apply H in E|]. by rewrite Z.min_l. }
  split; [exact Hw|]. unfold cardLeft. cbn zeta. set (x := Num.sub _ _) in *. rewrite Hw. unfold EDGE.
  rewrite !sub_of_Z by lia. destruct (of_Z_plain 16) as [P1 V1]; [lia|].
  destruct (of_Z_plain (W - Z.min 360 (W - 32) - 16)) as [P2 V2]; [lia|].
  destruct (math_max_cases x (Num.of_Z 16) Hx P1) as (C1 & L1 & L1').
  assert (P3 : plain (math_max x (Num.of_Z 16))) by (by destruct C1 as [-> | ->]).
  destruct (math_min_cases _ _ P3 P2) as (C2 & L2 & L2').
  assert (Hq : (16 <= inject_Z (W - Z.min 360 (W - 32) - 16))%Q) by (change 16%Q with (inject_Z 16); rewrite <- Zle_Qle; lia).
  replace (W - 16 - Z.min 360 (W - 32)) with (W - Z.min 360 (W - 32) - 16) by lia.
  destruct C2 as [E|E]; rewrite E in *; (split; [done|]); rewrite ?V1, ?V2 in *; split; try lra; change (inject_Z 16) with 16%Q in *; lra.
Qed.
End TourFacts.

(** ** Properties of the confirmation *)
Module ConfirmFacts.
Import Confirm.
Section Facts.
Context {A : Type}.

Definition asked (e : event A) : list A := match e with Request a => [ConfirmDialog.fn a] | _ => [] end.
Definition waiting (s : ConfirmDialog.state A) : list A := match s with Some a => [ConfirmDialog.fn a] | None => [] end.

(** What runs was asked for, in that order, and each request runs at most once: a cancelled
    one, or one replaced by a later request, never. *)
Lemma confirmed_were_requested es : forall s,
  (run (fun _ : A => None) s es).2 `sublist_of` waiting s ++ concat (map asked es).
Proof.
  induction es as [|e es IH]; intros s; [apply sublist_nil_l|]. cbn [run map concat].
  destruct (step _ s e) as [s1 o1] eqn:E. specialize (IH s1). destruct (run _ s1 es) as [s2 o2]. cbn [snd] in *.
  destruct e as [a| |]; cbn [step handleConfirm] in E.
  - injection E as <- <-. cbn [app asked waiting ConfirmDialog.request] in *. by apply sublist_inserts_l.
  - injection E as <- <-. cbn [app asked waiting ConfirmDialog.cancel] in *. by apply sublist_inserts_l.
  - destruct s as [a|]; injection E as <- <-; cbn [app asked waiting ConfirmDialog.cancel] in *; [by apply sublist_skip|done].
Qed.

(** The dialog is closed first, so what an action asks for while it runs stays open. *)
Lemma confirm_keeps_the_next (reenter : A -> option (ConfirmDialog.PendingAction A)) a b :
  reenter (ConfirmDialog.fn a) = Some b -> handleConfirm reenter (Some a) = (Some b, [ConfirmDialog.fn a]).
Proof. intros H. unfold handleConfirm. by rewrite H. Qed.
End Facts.
End ConfirmFacts.

(** ** Properties of the error boundary *)
(** A boundary shows its children until they throw, and again after a retry; a thrown value
    that is falsy is not shown as an error. *)
Lemma boundary_spec fallback e :
  Boundary.render fallback Boundary.initial = Boundary.Children /\
  Boundary.render fallback (Boundary.reset (Boundary.getDerivedStateFromError e)) = Boundary.Children /\
  (Boundary.render fallback (Boundary.getDerivedStateFromError e) = Boundary.Children <-> truthy e = false).
Proof.
  split; [done|]. split; [done|]. unfold Boundary.render. cbn. destruct (truthy e); [|done].
  by destruct fallback.
Qed.

(** ** Properties of the comparison *)
Module CompareFacts.
Import Compare.

(** Within its range the guards change nothing: the handlers clamp. *)
Lemma step_clamps n o e : (o <= maxScroll n)%nat ->
  step n o e = match e with Previous => (o - 1)%nat | Following => Nat.min (maxScroll n) (o + 1) end.
Proof.
  unfold step, pressable, maxScroll. intros Ho. destruct (Nat.ltb_spec 4 n), e; cbn [andb]; try lia.
  - destruct (Nat.eqb_spec o 0); cbn [negb]; lia.
  - destruct (Nat.leb_spec (n - 4) o); cbn [negb]; lia.
Qed.
Lemma step_range n o e : (o <= maxScroll n)%nat -> (step n o e <= maxScroll n)%nat.
Proof. intros Ho. rewrite step_clamps by done. destruct e; lia. Qed.

Lemma following_reaches n k : forall o, (o <= maxScroll n)%nat ->
  foldl (step n) o (replicate k Following) = Nat.min (maxScroll n) (o + k).
Proof.
  induction k as [|k IH]; intros o Ho; cbn [replicate foldl]; [lia|].
  rewrite IH by (by apply step_range). rewrite step_clamps by done. lia.
Qed.
Lemma previous_reaches n k : forall o, (o <= maxScroll n)%nat -> foldl (step n) o (replicate k Previous) = (o - k)%nat.
Proof.
  induction k as [|k IH]; intros o Ho; cbn [replicate foldl]; [lia|].
  rewrite IH by (by apply step_range). rewrite step_clamps by done. lia.
Qed.

Lemma visible_lookup {A} (l : list A) o i x : l !! i = Some x -> (o <= i < o + 4)%nat -> x ∈ visibleInvoices l o.
Proof.
  intros Hx Hi. apply list_elem_of_lookup. exists (i - o)%nat. unfold visibleInvoices.
  rewrite lookup_take_lt, lookup_drop by lia. by replace (o + (i - o))%nat with i by lia.
Qed.

(** C40: wherever the buttons were pressed, the comparison shows four invoices (all of them if
    there are fewer), and every invoice of the comparison can be reached from there. *)
Theorem compare_reaches_all {A} (l : list A) es :
  let o := foldl (step (length l)) 0%nat es in
  length (visibleInvoices l o) = Nat.min 4 (length l) /\
  forall x, x ∈ l -> exists es', x ∈ visibleInvoices l (foldl (step (length l)) o es').
Proof.
  cbn zeta. assert (Ho : (foldl (step (length l)) 0%nat es <= maxScroll (length l))%nat).
  { assert (H : forall o, (o <= maxScroll (length l))%nat -> (foldl (step (length l)) o es <= maxScroll (length l))%nat).
    { induction es as [|e es IH]; intros o Ho; [done|]. apply IH. by apply step_range. }
    apply H. lia. }
  set (o := foldl _ _ _) in *. clearbody o. unfold maxScroll in Ho. split.
  - unfold visibleInvoices. rewrite length_take, length_drop. lia.
  - intros x (i & Hi)%list_elem_of_lookup. pose proof (lookup_lt_Some _ _ _ Hi) as Hlt.
    destruct (decide (i < o)%nat).
    + exists (replicate (o - i) Previous). rewrite previous_reaches by (unfold maxScroll; lia). apply (visible_lookup _ _ i); [done|lia].
    + exists (replicate (i - o) Following). rewrite following_reaches by (unfold maxScroll; lia).
      apply (visible_lookup _ _ i); [done|]. unfold maxScroll. lia.
Qed.

Lemma no_row rows i : i ∉ map inv_id rows -> List.filter (fun inv => String.eqb (inv_id inv) i) rows = [].
Proof.
  intros Hi. induction rows as [|r rows IH]; [done|]. cbn in *. apply not_elem_of_cons in Hi as [Hne Hi].
  destruct (String.eqb_spec (inv_id r) i); [done|]. by apply IH.
Qed.

(** The toolbar offers to compare ids whose invoices are on another page, and then nothing
    opens. *)
Lemma compare_across_pages rows i j : NoDup (map inv_id rows) -> i <> j -> j ∉ map inv_id rows ->
  canCompare [i; j] = true /\ modal true rows [i; j] = None.
Proof.
  intros Hd Hij Hj. split; [done|]. unfold modal, selectedInvoices. cbn [andb].
  assert (H : (length (List.filter (fun inv => existsb (String.eqb (inv_id inv)) [i; j]) rows) <= 1)%nat).
  { assert (E : forall inv, inv ∈ rows -> existsb (String.eqb (inv_id inv)) [i; j] = String.eqb (inv_id inv) i).
    { intros inv Hin. cbn. destruct (String.eqb_spec (inv_id inv) j) as [<-|]; [|by rewrite !orb_false_r].
      destruct Hj. by apply list_elem_of_fmap_2. }
    rewrite (List.filter_ext_in _ _ rows) by (intros inv Hin; by apply E, list_elem_of_In). clear E Hj.
    induction rows as [|r rows IH]; cbn; [lia|]. cbn in Hd. apply list.NoDup_cons in Hd as [Hr Hd]. specialize (IH Hd).
    destruct (String.eqb_spec (inv_id r) i) as [<-|]; [|done]. cbn.
    rewrite (no_row rows) by done. cbn. lia. }
  by destruct (Nat.leb_spec 2 (length (List.filter (fun inv => existsb (String.eqb (inv_id inv)) [i; j]) rows))); [lia|].
Qed.
End CompareFacts.

(** ** Concrete runs *)
(** A document whose tab order is that of the numbers. *)
Definition by_number (shift : bool) (active : option nat) : option nat :=
  (fun n => if shift then pred n else S n) <$> active.

Lemma trap_cycles_witness :
  let s := {| Trap.enabled := false; Trap.active := Some 9%nat; Trap.previousFocus := None; Trap.pending := []; Trap.escapes := 0 |} in
  let t := foldl (Trap.step by_number) (Trap.step by_number s (Trap.Enable 0%nat (Some [1; 2; 3]%nat)))
             (map (fun shift => Trap.Press (Some [1; 2; 3]%nat) (Trap.KTab shift)) [true; true; false]) in
  Trap.active t = Some 3%nat /\
  (Trap.active t = [1; 2; 3]%nat !! Z.to_nat (TrapFacts.distance [true; true; false] mod Z.of_nat (length [1; 2; 3]%nat)) /\
   is_Some (Trap.active t) /\ Trap.escapes t = Trap.escapes s /\
   forall x, Trap.active s = Some x -> Trap.pending s = [] ->
     Trap.active (Trap.step by_number (Trap.step by_number t Trap.Disable) Trap.Frame) = Some x).
Proof.
  split; [reflexivity|]. apply (TrapFacts.trap_cycles by_number [1; 2; 3]%nat).
  - repeat constructor; set_solver.
  - intros [|[|[|i]]] x y; cbn; try congruence; intros [= <-] [= <-]; reflexivity.
  - intros [|[|[|i]]] x y; cbn; try congruence; intros [= <-] [= <-]; reflexivity.
  - discriminate.
  - reflexivity.
Defined.

Lemma tour_opens_once_witness :
  let s := {| Tour.disk := empty_storage; Tour.connected := false; Tour.isOpen := false; Tour.stepIndex := 0 |} in
  let es := [Tour.Connected true; Tour.Next; Tour.Skip; Tour.Load true; Tour.Launch; Tour.Next] in
  (Tour.run s es).2 = 1%nat /\ Tour.stepIndex (Tour.run s es).1 = 1%nat /\
  (((Tour.run s es).2 <= 1)%nat /\ (hasSeenOnboarding (Tour.disk s) = true -> (Tour.run s es).2 = 0%nat) /\
   (Tour.stepIndex (Tour.run s es).1 < length Tour.TOUR_STEPS)%nat).
Proof.
  split; [vm_compute; reflexivity|]. split; [vm_compute; reflexivity|].
  apply TourFacts.tour_opens_once; [exact empty_available|reflexivity|reflexivity].
Defined.
