(* ===== verification/Dashboard.v ===== *)
(** * The dashboard and the frame around the pages ([app/dashboard/page.tsx],
      [components/shared/Navbar.tsx], [WalletConnect.tsx], [TxHistory.tsx],
      [components/shared/ConfigBanner.tsx])

    The dashboard keeps a page of invoices, the invoice shown in its console and the dialog
    that creates one.  The navigation bar has the role switch, the balances and the wallet
    button, whose switch to the test network goes through Freighter and then connects like
    [useWallet].  The translations and number formats are arguments. *)

From S2P Require Import Prelude JsNumber JsString JsValue JsJson SdkTypes WebParsers Effects WebApi WebErrors.
From S2P Require Import Assets Schemas Storage Wallet Contracts Actions Queries Dialogs.
Local Open Scope Z_scope.

(** ** The dashboard page *)
Module Page.
Record state := {
  invoicePage : num; invoiceLimit : num; selectedInvoice : option Invoice; showCreateModal : bool;
  address : option string; isVerified : bool }.
Definition initial (address : option string) (verified : bool) : state :=
  {| invoicePage := Num.of_Z 1; invoiceLimit := Num.of_Z 20; selectedInvoice := None; showCreateModal := false;
     address := address; isVerified := verified |}.

(** The three queries of the page. *)
Definition issuer (s : state) : option string := if opt_str_truthy (address s) then address s else None.
Definition invoices_query (s : state) : QueryOptions :=
  useInvoicesList (Some {| lf_status := None; lf_issuer := issuer s; lf_page := Some (invoicePage s);
                           lf_limit := Some (invoiceLimit s); lf_enabled := None |}).
Definition stats_query (s : state) : QueryOptions := useInvoiceStats (issuer s).
Definition events_query (s : state) : QueryOptions := useRecentEvents (Some (Num.of_Z 10)) (issuer s) None None.

Definition paged (s : state) (page limit : num) : state :=
  {| invoicePage := page; invoiceLimit := limit; selectedInvoice := None; showCreateModal := showCreateModal s;
     address := address s; isVerified := isVerified s |}.
Definition handlePageChange (s : state) (page : num) : state := paged s page (invoiceLimit s).
Definition handleLimitChange (s : state) (limit : num) : state := paged s (Num.of_Z 1) limit.

Definition select (s : state) (i : option Invoice) : state :=
  {| invoicePage := invoicePage s; invoiceLimit := invoiceLimit s; selectedInvoice := i;
     showCreateModal := showCreateModal s; address := address s; isVerified := isVerified s |}.
Definition set_modal (s : state) (o : bool) : state :=
  {| invoicePage := invoicePage s; invoiceLimit := invoiceLimit s; selectedInvoice := selectedInvoice s;
     showCreateModal := o; address := address s; isVerified := isVerified s |}.

Inductive event :=
  | PageChange (page : num) | LimitChange (limit : num)
  | Select (i : Invoice) | Clear
  | Account (a : option string)
  | Verified (v : bool)
  | CreateClick | EmptyAction | CloseCreate | Created.

Definition step (s : state) (e : event) : state :=
  match e with
  | PageChange p => handlePageChange s p
  | LimitChange l => handleLimitChange s l
  | Select i => select s (Some i)
  | Clear => select s None
  | Account a =>
      if bool_decide (a = address s) then s
      else {| invoicePage := invoicePage s; invoiceLimit := invoiceLimit s; selectedInvoice := None;
              showCreateModal := showCreateModal s; address := a; isVerified := isVerified s |}
  | Verified v =>
      {| invoicePage := invoicePage s; invoiceLimit := invoiceLimit s; selectedInvoice := selectedInvoice s;
         showCreateModal := showCreateModal s; address := address s; isVerified := v |}
  | CreateClick => if isVerified s then set_modal s true else s
  | EmptyAction => set_modal s true
  | CloseCreate => set_modal s false
  | Created => select (set_modal s false) None
  end.
End Page.

(** ** The navigation bar *)
Module Nav.
Definition ROLES : list string := ["issuer"; "buyer"; "lp"].
Definition isRole (value : string) : bool := existsb (String.eqb value) ROLES.
(** [onChange] of the role switch. *)
Definition selectRole (value : string) : list StoreOp :=
  if isRole value then match role_of_string value with Some r => [OpSetRole r] | None => [] end else [].

Definition NAV_ITEMS : list (string * string) :=
  [("dashboard", "/dashboard"); ("lp", "/lp"); ("marketplace", "/marketplace"); ("analytics", "/analytics");
   ("profile", "/profile"); ("settings", "/settings"); ("help", "/help")].
Definition isActive (pathname : string) (item : string * string) : bool := String.eqb pathname item.2.
(** The [data-tour] attributes of the bar. *)
Definition tour_targets : list string :=
  map (fun item => "nav-" +:+ item.1) NAV_ITEMS ++ ["balances"; "role-switcher"; "tour-launcher"].
Definition verifiedDot (item : string * string) (connected isVerified : bool) : bool :=
  String.eqb item.1 "profile" && connected && isVerified.

Section Balances.
Context (t : string -> list (string * jsval) -> string) (toLocaleString : num -> string).
Definition formatAmount (value : string) : string := toLocaleString (Str.parse_float value).
Definition balanceAmount (value asset : string) : string :=
  t "balanceAmount" [("amount", JStr (formatAmount value)); ("asset", JStr asset)].
Definition usdc_text (b : Balances) : string :=
  match usdc b with Some v => balanceAmount v "USDC" | None => t "balanceUnavailableUsdc" [] end.
Definition xlm_text (b : Balances) : string :=
  match xlm b with Some v => balanceAmount v "XLM" | None => t "balanceEmptyXlm" [] end.
(** The link to the faucet. *)
Definition needs_usdc (b : Balances) : bool :=
  match usdc b with Some v => Num.eqb (Str.parse_float v) Num.zero | None => true end.
End Balances.
End Nav.

(** ** The banner of a missing configuration *)
Definition envVarLabels : list (string * string) :=
  [("NEXT_PUBLIC_INVOICE_CONTRACT_ID", "Invoice Contract"); ("NEXT_PUBLIC_POOL_CONTRACT_ID", "Pool Contract");
   ("NEXT_PUBLIC_REGISTRY_CONTRACT_ID", "Registry Contract")].
Definition missing_text (missing : list string) : string :=
  Str.join ", " (map (fun key => opt_str_or (snd <$> List.find (fun kv => String.eqb kv.1 key) envVarLabels) key) missing).

(** ** Buttons that copy *)
Module Copy.
(** [copied] is what the label says was copied; [timers] are the running ones. *)
Record state := { copied : option string; copyError : option string; timers : list nat; fresh : nat }.
Definition initial : state := {| copied := None; copyError := None; timers := []; fresh := 0 |}.

(** The clipboard settled, or a timer fired.  The wallet button shows a failure, the
    transaction history does not. *)
Inductive event := Start (text : string) | Written (text : string) | Refused (text : string) | Fire (timer : nat).
Definition copy_error : string := "Couldn't copy wallet address. Please try again.".
Definition step (wallet : bool) (s : state) (e : event) : state :=
  match e with
  | Start text =>
      if wallet && negb (String.eqb text "")
      then {| copied := copied s; copyError := None; timers := timers s; fresh := fresh s |} else s
  | Written text =>
      {| copied := Some text; copyError := copyError s; timers := fresh s :: timers s; fresh := S (fresh s) |}
  | Refused text =>
      if wallet then {| copied := None; copyError := Some copy_error; timers := timers s; fresh := fresh s |} else s
  | Fire i =>
      if bool_decide (i ∈ timers s) then
        {| copied := None; copyError := copyError s; timers := List.filter (fun j => negb (i =? j)%nat) (timers s);
           fresh := fresh s |}
      else s
  end.
End Copy.

(** ** The wallet button *)
Module WalletButton.
Inductive Ev :=
  | Switching (b : bool)
  | SwitchError (m : option string)
  | SetNetwork (r : res jsval)
  | Session (e : SessionEv).

Section Button.
Context {Env : Type} {F : Freighter Env} {B : Backend Env} {C : Clock Env} {zod : Zod}.
(** [setNetwork] of the Freighter module, which not every version has. *)
Context (setNetwork : option (string -> Env -> res jsval * Env)).
Abbreviation IO := (M Env Ev).

Definition unsupported : string := "Your Freighter version does not support network switching from this app.".
Definition answer_error (response : jsval) : option string :=
  if truthy response && is_object response && has_field response "error" && truthy (field response "error")
  then Some (to_str (field response "error")) else None.

Definition switchToTestnet : IO () :=
  match setNetwork with
  | None => raise (mk_error unsupported)
  | Some f =>
      response ← io SetNetwork (f "TESTNET");
      match answer_error response with
      | Some m => raise (mk_error m)
      | None => relabel Session connectWallet
      end
  end.

Definition handleSwitchToTestnet : IO () :=
  emit (Switching true);;
  emit (SwitchError None);;
  finally
    (catch switchToTestnet (fun error => emit (SwitchError (Some (getErrorMessage error unexpected)))))
    (emit (Switching false)).
End Button.

(** What the button shows: [installed] is unknown until Freighter answered. *)
Inductive badge := NoBadge | TestnetBadge | MainnetBadge | SwitchButton (disabled : bool).
Definition network_badge (connected : bool) (network : option string) (switching : bool) : badge :=
  if negb connected then NoBadge
  else if bool_decide (network = Some "testnet") then TestnetBadge
  else if bool_decide (network = Some "mainnet") then MainnetBadge
  else SwitchButton switching.
Inductive view := Install | Connected (address : string) | Connect (loading : bool).
Definition shown (installed : option bool) (connected : bool) (address : option string) (loading : bool) : view :=
  if bool_decide (installed = Some false) then Install
  else if connected && opt_str_truthy address then Connected (truncateAddress (default "" address))
  else Connect loading.
End WalletButton.

(** ** Properties of the dashboard *)
Module PageFacts.
Import Page.

(** What ends the selection. *)
Definition ends (e : event) : bool :=
  match e with PageChange _ | LimitChange _ | Clear | Created | Select _ => true | _ => false end.

(** The invoice in the console is one that was clicked, and since then neither the page, the
    page size nor the account changed, the console was not cleared and no invoice was
    created; the three queries of the page are always asked about the connected account,
    and a new page size starts from the first page. *)
Theorem dashboard_selection a v es :
  let s := foldl step (initial a v) es in
  (forall i, selectedInvoice s = Some i -> exists before after,
     es = before ++ Select i :: after /\ existsb ends after = false /\
     address (foldl step (initial a v) before) = address s) /\
  (forall l, invoicePage (step s (LimitChange l)) = Num.of_Z 1 /\ invoiceLimit (step s (LimitChange l)) = l /\
             queryKey (invoices_query (step s (LimitChange l))) =
               [JStr "invoices"; filters_key (Some {| lf_status := None; lf_issuer := issuer s; lf_page := Some (Num.of_Z 1);
                                                      lf_limit := Some l; lf_enabled := None |})]) /\
  (forall b, b <> Some "" -> issuer (step s (Account b)) = b).
Proof.
  cbn zeta. split; [|split].
  - induction es as [|e es IH] using rev_ind; [done|]. intros i. rewrite foldl_snoc. set (s := foldl step _ es) in *.
    assert (Hkeep : ends e = false -> address (step s e) = address s -> selectedInvoice (step s e) = selectedInvoice s ->
      selectedInvoice (step s e) = Some i -> exists before after, es ++ [e] = before ++ Select i :: after /\
        existsb ends after = false /\ address (foldl step (initial a v) before) = address (step s e)).
    { intros He Ha Hs Hi. rewrite Hs in Hi. destruct (IH i Hi) as (before & after & -> & Hn & Hb).
      exists before, (after ++ [e]). rewrite existsb_app, Hn. cbn. rewrite He, Ha. split; [|done].
      by rewrite <- app_assoc. }
    destruct e as [p|l|j| |b|w| | | |]; try discriminate; try (by apply Hkeep).
    + intros [= ->]. by exists es, [].
    + cbn [step] in *. destruct (bool_decide (b = address s)); [by apply Hkeep|discriminate].
    + cbn [step] in *. destruct (isVerified s); by apply Hkeep.
  - intros l. done.
  - intros b Hb. cbn [step]. assert (Hi : forall s', address s' = b -> issuer s' = b).
    { intros s' E. unfold issuer. rewrite E. destruct b as [x|]; [|done]. cbn. by destruct (String.eqb_spec x "") as [->|]. }
    case_bool_decide; [by apply Hi|]. by apply Hi.
Qed.

(** The button opens the form for a verified account only; the action of the empty table opens
    it for any. *)
Lemma empty_table_skips_the_gate a :
  showCreateModal (step (initial a false) CreateClick) = false /\
  showCreateModal (step (initial a false) EmptyAction) = true.
Proof. done. Qed.

(** Another account starts on the page the last one was on. *)
Lemma account_keeps_the_page a b p v : a <> b ->
  invoicePage (foldl step (initial a v) [PageChange p; Account b]) = p.
Proof. intros H. cbn. by rewrite bool_decide_eq_false_2 by congruence. Qed.
End PageFacts.

(** ** Properties of the navigation bar *)
(** Every element the tour points at is in the bar, and every role of the switch is one of
    the store's. *)
Lemma tour_targets_exist :
  forallb (fun st => match st.2 with Some target => existsb (String.eqb target) Nav.tour_targets | None => true end)
    Tour.TOUR_STEPS = true /\
  forall value, Nav.isRole value = match role_of_string value with Some _ => true | None => false end.
Proof.
  split; [reflexivity|]. intros value. unfold Nav.isRole, role_of_string. cbn.
  destruct (String.eqb value "issuer"), (String.eqb value "buyer"), (String.eqb value "lp"); done.
Qed.

(** A second copy does not restart the time of the first: its label goes early, while its own
    timer still runs. *)
Lemma second_copy_is_cut_short wallet a b :
  let s := foldl (Copy.step wallet) Copy.initial [Copy.Written a; Copy.Written b; Copy.Fire 0] in
  Copy.copied s = None /\ Copy.timers s = [1%nat].
Proof. done. Qed.

(** ** Properties of the wallet button *)
Module ButtonFacts.
Import WalletButton.
Section Facts.
Context {Env : Type} {F : Freighter Env} {B : Backend Env} {C : Clock Env} {L : ClockLaws C} {zod : Zod}.
Context (setNetwork : option (string -> Env -> res jsval * Env)).

(** Why the network was not switched, and what was asked before. *)
Definition refused (asked : list Ev) (m : string) : Prop :=
  (setNetwork = None /\ asked = [] /\ m = unsupported) \/
  (exists response, asked = [SetNetwork (Ok response)] /\ answer_error response = Some m) \/
  exists e, asked = [SetNetwork (Throw e)] /\ m = getErrorMessage e unexpected.
(** Freighter switched, and the wallet was connected once. *)
Definition switched (l : list Ev) : Prop :=
  exists response connect, l = SetNetwork (Ok response) :: map Session connect /\
    answer_error response = None /\ exists op, writes connect = [op].

Lemma connect_writes_once :
  trace_spec connectWallet (fun l r => r = Ok tt /\ exists op, writes l = [op]).
Proof.
  eapply trace_weaken; [apply connectWallet_checked|]. intros l r (Hr & _ & H). split; [done|].
  destruct H as [(v & access & a & details & -> & _)|[Hw _]]; by eexists.
Qed.

Lemma switch_flow_spec :
  trace_spec (switchToTestnet setNetwork) (fun l r => match r with
    | Ok _ => switched l
    | Throw e => refused l (getErrorMessage e unexpected)
    end).
Proof.
  unfold switchToTestnet. destruct setNetwork as [f|] eqn:E; [|apply trace_raise; by left].
  apply trace_seq, trace_io. intros [response|e]; [|right; right; by exists e].
  destruct (answer_error response) as [m|] eqn:Ha; [apply trace_raise; right; left; by exists response|].
  eapply trace_relabel; [apply connect_writes_once|]. intros l r [-> Hw]. by exists response, l.
Qed.

(** Switching asks Freighter first and connects only if it answered without an error; then
    the store is written exactly once.  Otherwise the store is left alone and the reason is
    shown.  The button is disabled meanwhile and enabled again, whatever happens. *)
Theorem switch_asks_first :
  trace_spec (handleSwitchToTestnet setNetwork) (fun l r => r = Ok tt /\ exists mid,
    l = Switching true :: SwitchError None :: mid ++ [Switching false] /\
    (switched mid \/ exists asked m, mid = asked ++ [SwitchError (Some m)] /\ refused asked m)).
Proof.
  apply trace_emit_seq, trace_emit_seq, trace_finally, trace_try.
  eapply trace_weaken; [apply switch_flow_spec|]. intros l [[]|e] H.
  - apply trace_emit. split; [done|]. exists l. split; [done|]. by left.
  - apply trace_emit, trace_emit. split; [done|]. exists (l ++ [SwitchError (Some (getErrorMessage e unexpected))]).
    split; [done|]. right. by eexists _, _.
Qed.
End Facts.
End ButtonFacts.

(** ** Concrete runs *)
Section Witnesses.
#[local] Existing Instance RefZod.ref_zod.
#[local] Existing Instance MockWallet.backend.
#[local] Existing Instance MockWallet.freighter.
#[local] Existing Instance MockWallet.clock.
#[local] Existing Instance MockWallet.clock_laws.

(** A Freighter that switches, and one that answers with an error. *)
Definition switching (answer : jsval) : option (string -> MockWallet.env -> res jsval * MockWallet.env) :=
  Some (fun _ e => (Ok answer, e)).

Lemma switch_asks_first_witness :
  (run (WalletButton.handleSwitchToTestnet (switching (JObj [("error", JStr "denied")]))) MockWallet.server).2 =
    [WalletButton.Switching true; WalletButton.SwitchError None;
     WalletButton.SetNetwork (Ok (JObj [("error", JStr "denied")])); WalletButton.SwitchError (Some "denied");
     WalletButton.Switching false] /\
  (run (WalletButton.handleSwitchToTestnet (switching (JObj []))) MockWallet.server).1 = Ok tt.
Proof.
  split; [vm_compute; reflexivity|].
  exact (proj1 (trace_run _ _ MockWallet.server (ButtonFacts.switch_asks_first (switching (JObj []))))).
Defined.
End Witnesses.
