(* ===== verification/InvoiceServer.v ===== *)
(** * The server render of an invoice ([app/invoice/[invoiceId]/page.tsx])

    One request serves the metadata and the page: both ask for the raw invoice, and the
    memo of the request keeps the answer.  [fetch] is the [http] of [WebApi.Backend], and the
    date format is an argument, since it may refuse a date. *)

From S2P Require Import Prelude JsNumber JsString JsValue JsJson Effects SdkTypes Schemas WebParsers WebApi Assets.
Local Open Scope Z_scope.

Section Server.
Context {Env : Type} {B : Backend Env} {zod : Zod}.
(** [process.env.NEXT_PUBLIC_APP_URL], and [Intl.DateTimeFormat("en-US", ...).format] of a
    time value. *)
Context (app_url : option string) (formatDate : num -> res string).
Abbreviation IO := (M Env Http).

(** [cache]: what this request already fetched, by id. *)
Definition Memo := list (string * jsval).
Definition memo_get (memo : Memo) (id : string) : option jsval :=
  snd <$> List.find (fun kv => String.eqb kv.1 id) memo.

Definition getIndexerApiUrl : string := opt_str_or env_api_base_url "http://localhost:8080".
Definition invoice_request (id : string) : request :=
  {| rq_url := getIndexerApiUrl +:+ "/invoices/" +:+ id; rq_method := None; rq_body := None; rq_headers := [] |}.

(** The body of the answer; [null] if it is an error or cannot be read. *)
Definition read_invoice (r : response) : res jsval :=
  if negb (r_ok r) then Ok JNull else (text ← r_text r; Json.parse text).
Definition fetchInvoiceRaw (memo : Memo) (invoiceId : string) : IO (jsval * Memo) :=
  match memo_get memo invoiceId with
  | Some v => mret (v, memo)
  | None =>
      v ← catch (r ← io (Fetched (invoice_request invoiceId)) (http (invoice_request invoiceId)); lift (read_invoice r))
                (fun _ => mret JNull);
      mret (v, (invoiceId, v) :: memo)
  end.

Definition fetchInvoiceById (memo : Memo) (invoiceId : string) : IO (option jsval * Memo) :=
  '(raw, memo) ← fetchInvoiceRaw memo invoiceId;
  match raw with
  | JNull => mret (None, memo)
  | _ => invoice ← lift (parseInvoiceResponse raw); mret (Some invoice, memo)
  end.

Record Metadata := { m_title : string; m_description : string; m_image : string }.

(** [origin.replace(/\/$/, "")]. *)
Definition strip_slash (origin : string) : string :=
  if String.eqb (Str.slice_last 1 origin) "/" then Str.slice 0 (Str.len origin - 1) origin else origin.
Definition origin : string := opt_str_or app_url "http://localhost:3000".

Definition title_of (invoice : jsval) : string :=
  "TrusTrove Invoice #" +:+ to_str (field invoice "id") +:+ " " +:+ em_dash +:+ " " +:+
  formatAmount (as_big (field invoice "faceValue")) None +:+ " USDC".
Definition description_of (invoice : jsval) (dueDate : string) : string :=
  "Trade finance invoice on Stellar. Status: " +:+ to_str (field invoice "status") +:+ ". Due: " +:+ dueDate +:+ ".".

Definition metadata_of (invoice : option jsval) : res Metadata :=
  let image := strip_slash origin +:+ "/og-image.png" in
  match invoice with
  | None => Ok {| m_title := "TrusTrove Invoice"; m_description := "Trade finance invoice on Stellar."; m_image := image |}
  | Some invoice =>
      dueDate ← formatDate (Num.mul (default Num.nan (as_num (field invoice "dueDate"))) (Num.of_Z 1000));
      Ok {| m_title := title_of invoice; m_description := description_of invoice dueDate; m_image := image |}
  end.

Definition generateMetadata (memo : Memo) (invoiceId : string) : IO (Metadata * Memo) :=
  '(invoice, memo) ← fetchInvoiceById memo invoiceId;
  m ← lift (metadata_of invoice); mret (m, memo).

(** The page hands the raw invoice to the client. *)
Definition InvoiceDetailPage (memo : Memo) (invoiceId : string) : IO (jsval * Memo) :=
  '(raw, memo) ← fetchInvoiceRaw memo invoiceId;
  mret (js_nullish raw JUndef, memo).

(** A request: the metadata, and then the page with what the request knows. *)
Definition serve (invoiceId : string) : IO (Metadata * jsval) :=
  '(m, memo) ← generateMetadata [] invoiceId;
  '(props, _) ← InvoiceDetailPage memo invoiceId;
  mret (m, props).
End Server.

(** ** Properties *)
Section Facts.
Context {Env : Type} {B : Backend Env} {zod : Zod} (app_url : option string) (formatDate : num -> res string).

(** What the payload of an answer is for the render: nothing after any failure. *)
Definition payload (r : res response) : jsval :=
  match r with Ok resp => match read_invoice resp with Ok v => v | Throw _ => JNull end | Throw _ => JNull end.
(** The invoice the metadata describe. *)
Definition invoice_of (raw : jsval) : res (option jsval) :=
  match raw with JNull => Ok None | _ => Some <$> parseInvoiceResponse raw end.

Lemma fetchInvoiceRaw_first id :
  trace_spec (fetchInvoiceRaw [] id) (fun l r => exists resp,
    l = [Fetched (invoice_request id) resp] /\ r = Ok (payload resp, [(id, payload resp)])).
Proof.
  apply trace_seq, trace_try, trace_seq, trace_io. intros [resp|e].
  - apply trace_lift. destruct (read_invoice resp) as [v|e] eqn:E; apply trace_ret; [|apply trace_ret];
      exists (Ok resp); cbn; by rewrite E.
  - apply trace_ret, trace_ret. by exists (Throw e).
Qed.

Lemma fetchInvoiceRaw_again id v :
  trace_spec (fetchInvoiceRaw [(id, v)] id) (fun l r => l = [] /\ r = Ok (v, [(id, v)])).
Proof. unfold fetchInvoiceRaw, memo_get. cbn. rewrite String.eqb_refl. by apply trace_ret. Qed.

(** Rendering an invoice asks the indexer once, for that invoice; a failure to get it gives
    the generic metadata and leaves the fetch to the client, and otherwise the client is
    handed the very payload the metadata were made from.  Only a payload that is no invoice, or
    a date that cannot be formatted, makes the render fail. *)
Theorem one_request_per_render id :
  trace_spec (serve app_url formatDate id) (fun l r => exists resp,
    l = [Fetched (invoice_request id) resp] /\
    let raw := payload resp in
    r = (m ← (invoice ← invoice_of raw; metadata_of app_url formatDate invoice); Ok (m, js_nullish raw JUndef)) /\
    (raw = JNull -> exists m, r = Ok (m, JUndef) /\ m_title m = "TrusTrove Invoice")).
Proof.
  apply trace_seq, trace_seq, trace_seq. eapply trace_weaken; [apply fetchInvoiceRaw_first|].
  intros l r (resp & -> & ->). cbn zeta.
  set (raw := payload resp). set (memo := [(id, raw)]).
  assert (Hdone : forall m : Metadata, trace_spec ('(props, _) ← InvoiceDetailPage memo id; mret (m, props))
    (fun l r => l = [] /\ r = Ok (m, js_nullish raw JUndef))).
  { intros m. apply trace_seq, trace_seq. eapply trace_weaken; [apply (fetchInvoiceRaw_again id raw)|].
    intros l r [-> ->]. by apply trace_ret, trace_ret. }
  assert (Hcase : raw = JNull \/ raw <> JNull) by (destruct raw; [by right|by left|by right..]).
  destruct Hcase as [E|E].
  - rewrite E at 1. apply trace_ret. apply trace_seq, trace_lift. cbn [metadata_of]. apply trace_ret.
    eapply trace_weaken; [apply Hdone|]. intros l r [-> ->]. exists resp. split; [done|]. fold raw. rewrite E. cbn. split; [done|]. by eexists.
  - assert (Hi : invoice_of raw = Some <$> parseInvoiceResponse raw) by (by destruct raw).
    match goal with |- trace_spec ?m _ =>
      assert (Em : m = (invoice ← lift (parseInvoiceResponse raw); mret (Some invoice, memo))) by (by destruct raw)
    end.
    rewrite Em. clear Em. apply trace_seq, trace_lift.
    destruct (parseInvoiceResponse raw) as [invoice|e] eqn:Ep.
    + apply trace_ret, trace_seq, trace_lift. destruct (metadata_of app_url formatDate (Some invoice)) as [m|e] eqn:Em; cbn beta iota.
      * apply trace_ret. eapply trace_weaken; [apply Hdone|]. intros l r [-> ->]. exists resp. fold raw. split; [done|].
        rewrite Hi. cbn [fmap result_fmap mbind result_bind]. by rewrite Em.
      * exists resp. fold raw. split; [done|]. rewrite Hi. cbn [fmap result_fmap mbind result_bind]. by rewrite Em.
    + exists resp. fold raw. split; [done|]. by rewrite Hi.
Qed.

(** The title of any invoice names the unit twice, and it is USDC whatever the asset. *)
Lemma title_names_usdc_twice invoice : exists n, title_of invoice =
  "TrusTrove Invoice #" +:+ to_str (field invoice "id") +:+ " " +:+ em_dash +:+ " " +:+ n +:+ " USDC USDC".
Proof.
  unfold title_of, formatAmount. cbn [nullish asset_name]. destruct (as_big (field invoice "faceValue")) as [z|].
  - exists (default "∞" (Num.to_locale2 (Num.div (Num.of_Z z) (Num.of_Z STROOP_DIVISOR)))). by rewrite !app_assoc_str.
  - by exists "0.00".
Qed.
End Facts.
