(* ===== verification/SecurityHeaders.v ===== *)
(** * Security headers ([apps/web/lib/security-headers.mjs], [middleware.ts], [app/layout.tsx])

    The content security policy is a string put together per request around a fresh nonce and
    the origins the app calls.  [parse_policy] is how a browser reads such a string; the
    theorems read back what was meant, through the headers of [middleware.ts].  The URL
    parser and the random source of the platform are arguments. *)

From S2P Require Import Prelude JsNumber JsString JsValue WebApi SdkTypes SdkConfig Marketplace InvoiceTable.
Local Open Scope Z_scope.

Definition DEFAULT_API_BASE_URL : string := "http://localhost:8080".
Definition DEFAULT_HORIZON_URL : string := "https://horizon-testnet.stellar.org".
Definition DEFAULT_SOROBAN_RPC_URL : string := "https://soroban-testnet.stellar.org".
Definition CSP_ENFORCE_ENV : string := "CSP_ENFORCE".
Definition NONCE_HEADER : string := "x-nonce".

Definition DISABLED_FEATURES : list string :=
  ["accelerometer"; "browsing-topics"; "camera"; "geolocation"; "gyroscope"; "hid"; "magnetometer"; "microphone";
   "payment"; "serial"; "usb"].

Record HeaderRule := { hr_source : string; hr_headers : list (string * string) }.
Definition buildSecurityHeaders (isProduction : bool) : list HeaderRule :=
  [{| hr_source := "/(.*)";
      hr_headers :=
        [("X-Content-Type-Options", "nosniff"); ("Referrer-Policy", "strict-origin-when-cross-origin");
         ("X-Frame-Options", "DENY");
         ("Permissions-Policy", Str.join ", " (map (fun feature => feature +:+ "=()") DISABLED_FEATURES))] ++
        (if isProduction then [("Strict-Transport-Security", "max-age=31536000")] else []) |}].

(** ** [btoa] *)
Module Base64.
Definition alphabet : string := "ABCDEFGHIJKLMNOPQRSTUVWXYZabcdefghijklmnopqrstuvwxyz0123456789+/".
Definition sextet (z : Z) : ascii := default "="%char (String.get (Z.to_nat z) alphabet).
(** Three bytes become four characters; the last group is padded. *)
Fixpoint btoa (s : string) : string :=
  match s with
  | EmptyString => ""
  | String a EmptyString =>
      String (sextet (code a / 4)) (String (sextet (Z.land (code a) 3 * 16)) "==")
  | String a (String b EmptyString) =>
      String (sextet (code a / 4)) (String (sextet (Z.land (code a) 3 * 16 + code b / 16))
        (String (sextet (Z.land (code b) 15 * 4)) "="))
  | String a (String b (String c r)) =>
      String (sextet (code a / 4)) (String (sextet (Z.land (code a) 3 * 16 + code b / 16))
        (String (sextet (Z.land (code b) 15 * 4 + code c / 64)) (String (sextet (Z.land (code c) 63)) (btoa r))))
  end.
End Base64.

(** ** The policy *)
(** The environment of the process. *)
Definition Env := string -> option string.

Section Policy.
(** [new URL(url)]: its protocol and its origin, or nothing if it throws. *)
Context (parse_url : string -> option (string * string)).

Definition toOrigin (url : string) : option string :=
  if String.eqb url "" then None
  else match parse_url url with
       | Some (protocol, origin) =>
           if negb (String.eqb protocol "http:") && negb (String.eqb protocol "https:") then None else Some origin
       | None => None
       end.

Definition resolveConnectUrls (env : Env) : list string :=
  [opt_str_or (env "NEXT_PUBLIC_API_BASE_URL") DEFAULT_API_BASE_URL;
   opt_str_or (env "NEXT_PUBLIC_HORIZON_URL") DEFAULT_HORIZON_URL;
   opt_str_or (env "NEXT_PUBLIC_SOROBAN_RPC_URL") DEFAULT_SOROBAN_RPC_URL;
   DEFAULT_HORIZON_URL; DEFAULT_SOROBAN_RPC_URL].

Definition connectOrigins (connectUrls : list string) : list string := set_of (omap toOrigin connectUrls).

Definition directives (nonce : string) (isDevelopment : bool) (origins : list string) : list (string * list string) :=
  [("default-src", ["'self'"]);
   ("script-src", ["'self'"; "'nonce-" +:+ nonce +:+ "'"; "'strict-dynamic'"] ++
                  (if isDevelopment then ["'unsafe-eval'"] else []));
   ("style-src", ["'self'"; "'unsafe-inline'"]);
   ("img-src", ["'self'"; "data:"; "blob:"]);
   ("font-src", ["'self'"]);
   ("connect-src", "'self'" :: origins);
   ("frame-ancestors", ["'none'"]);
   ("base-uri", ["'self'"]);
   ("form-action", ["'self'"]);
   ("object-src", ["'none'"])].

Definition print_directive (d : string * list string) : string := d.1 +:+ " " +:+ Str.join " " d.2.
Definition buildContentSecurityPolicy (nonce : string) (isDevelopment enforce : bool) (connectUrls : list string) : string :=
  Str.join "; " (map print_directive (directives nonce isDevelopment (connectOrigins connectUrls)) ++
                 (if enforce && negb isDevelopment then ["upgrade-insecure-requests"] else [])).

Definition isCspEnforced (env : Env) : bool := bool_decide (env CSP_ENFORCE_ENV = Some "true").
Definition cspHeaderName (enforce : bool) : string :=
  if enforce then "Content-Security-Policy" else "Content-Security-Policy-Report-Only".

(** ** The middleware: the headers of the request that is rendered, and of the response *)
Record Passed := { p_request : list (string * string); p_response : list (string * string) }.
Definition middleware (env : Env) (uuid : string) (request : list (string * string)) : res Passed :=
  let nonce := Base64.btoa uuid in
  let enforce := isCspEnforced env in
  let headerName := cspHeaderName enforce in
  let policy := buildContentSecurityPolicy nonce (bool_decide (env "NODE_ENV" = Some "development")) enforce (resolveConnectUrls env) in
  requestHeaders ← Headers.set request NONCE_HEADER nonce;
  requestHeaders ← Headers.set requestHeaders headerName policy;
  responseHeaders ← Headers.set [] headerName policy;
  Ok {| p_request := requestHeaders; p_response := responseHeaders |}.

(** The [nonce] of the bootstrap script. *)
Definition layout_nonce (headers : list (string * string)) : option string := Headers.get headers NONCE_HEADER.
End Policy.

(** ** How a browser reads a policy *)
Definition words (s : string) : list string := List.filter (fun w => negb (String.eqb w "")) (Str.split " " s).
Definition parse_policy (s : string) : list (string * list string) :=
  omap (fun part => match words part with name :: sources => Some (name, sources) | [] => None end) (Str.split ";" s).

Example btoa_tests :
  Base64.btoa "" = "" /\ Base64.btoa "f" = "Zg==" /\ Base64.btoa "fo" = "Zm8=" /\ Base64.btoa "foobar" = "Zm9vYmFy".
Proof. repeat split; reflexivity. Qed.

(** ** Splitting what was joined *)
Definition free (c : ascii) (s : string) : bool := Str.all (fun d => negb (Ascii.eqb c d)) s.

Lemma split_nonempty c s : Str.split c s <> [].
Proof. destruct s as [|d s]; cbn; [done|]. destruct (Ascii.eqb c d); [done|]. by destruct (Str.split c s). Qed.

Lemma split_app c s t : free c s = true -> Str.split c (s +:+ String c t) = s :: Str.split c t.
Proof.
  induction s as [|d s IH]; intros H; cbn.
  - by rewrite Ascii.eqb_refl.
  - cbn in H. apply andb_prop in H as [Hd Hs]. apply negb_true_iff in Hd. rewrite Hd.
    change ((fix append (s1 s2 : string) := match s1 with "" => s2 | String a s1' => String a (append s1' s2) end) s (String c t))
      with (s +:+ String c t). by rewrite IH.
Qed.
Lemma split_free c s : free c s = true -> Str.split c s = [s].
Proof.
  induction s as [|d s IH]; intros H; [done|]. cbn in *. apply andb_prop in H as [Hd Hs].
  apply negb_true_iff in Hd. by rewrite Hd, IH.
Qed.

Lemma free_app c s t : free c (s +:+ t) = free c s && free c t.
Proof. apply all_app. Qed.

(** A separator that starts with the character: what follows it stays with the next part. *)
Lemma split_join c sep l : l <> [] -> Forall (fun s => free c s = true) l -> free c sep = true ->
  Str.split c (Str.join (String c sep) l) = match l with [] => [] | s :: r => s :: map (fun t => sep +:+ t) r end.
Proof.
  intros Hne Hl Hsep. destruct l as [|s r]; [done|]. clear Hne. revert s Hl.
  induction r as [|t r IH]; intros s Hl; apply list.Forall_cons in Hl as [Hs Hr].
  - cbn. by apply split_free.
  - change (Str.join (String c sep) (s :: t :: r)) with (s +:+ String c (sep +:+ Str.join (String c sep) (t :: r))).
    rewrite split_app by done. f_equal. specialize (IH t Hr). cbn [map].
    assert (Hpre : forall u, free c sep = true -> Str.split c (sep +:+ u) =
      match Str.split c u with w :: ws => (sep +:+ w) :: ws | [] => [] end).
    { clear. intros u. induction sep as [|d sep IH]; intros H; [cbn; by destruct (Str.split c u)|].
      cbn [free Str.all] in H. apply andb_prop in H as [Hd Hs]. apply negb_true_iff in Hd.
      change (String d sep +:+ u) with (String d (sep +:+ u)). cbn [Str.split]. rewrite Hd, (IH Hs).
      pose proof (split_nonempty c u) as Hn. by destruct (Str.split c u). }
    by rewrite Hpre, IH.
Qed.

(** ** Tokens: what may stand between the separators of a policy *)
Definition printable (c : ascii) : bool := JsString.in_range 33 126 c && negb (Ascii.eqb ";" c).
Definition token (s : string) : bool := Str.all printable s.

Lemma all_weaken (p q : ascii -> bool) s : (forall c, p c = true -> q c = true) -> Str.all p s = true -> Str.all q s = true.
Proof. intros H. induction s as [|c s IH]; [done|]. cbn. intros [Hc Hs]%andb_prop. by rewrite (H c Hc), IH. Qed.

Lemma token_free s : token s = true -> free " " s = true /\ free ";" s = true.
Proof.
  intros H. split; eapply all_weaken; try exact H; intros c [Hr Hc]%andb_prop; [|done].
  destruct (Ascii.eqb_spec " " c) as [<-|]; done.
Qed.

Lemma words_free s : free " " s = true -> words s = if String.eqb s "" then [] else [s].
Proof. intros H. unfold words. rewrite split_free by done. cbn. by destruct (String.eqb s ""). Qed.

Lemma words_join l : Forall (fun s => free " " s = true /\ s <> "") l -> words (Str.join " " l) = l.
Proof.
  intros H. destruct l as [|s l]; [done|]. unfold words. rewrite (split_join " " "").
  - change (map (fun t => "" +:+ t) l) with (map (fun t : string => t) l). rewrite map_id.
    induction (s :: l) as [|t r IH]; [done|]. apply list.Forall_cons in H as [[_ Ht] Hr]. cbn.
    destruct (String.eqb_spec t ""); [done|]. cbn. f_equal. by apply IH.
  - done.
  - eapply list.Forall_impl; [exact H|]. by intros t [Ht _].
  - done.
Qed.
(** ** The characters of [btoa] *)
Lemma sextet_token z : printable (Base64.sextet z) = true.
Proof.
  unfold Base64.sextet. destruct (String.get (Z.to_nat z) Base64.alphabet) as [c|] eqn:E; [|done]. cbn [default].
  assert (H : forall s n, String.get n s = Some c -> Str.all printable s = true -> printable c = true).
  { clear. induction s as [|d s IH]; intros n; [done|]. cbn. intros Hn [Hd Hs]%andb_prop.
    destruct n as [|n]; [by injection Hn as <-|by apply (IH n)]. }
  by apply (H _ _ E).
Qed.

Lemma btoa_token s : token (Base64.btoa s) = true.
Proof.
  assert (H : forall n s, (Str.len s <= n)%nat -> token (Base64.btoa s) = true).
  { clear s. induction n as [|n IH]; intros s Hs; [destruct s; [done|cbn in Hs; lia]|].
    destruct s as [|a [|b [|c s]]]; cbn [Base64.btoa]; [done|..]; unfold token; cbn [Str.all]; rewrite !sextet_token; try done.
    cbn [andb]. apply IH. cbn in Hs. lia. }
  by apply (H (Str.len s)).
Qed.

(** ** Reading a policy back *)
Class UrlLaws (parse_url : string -> option (string * string)) := {
  (** An origin is ASCII without white space, and its punctuation is that of the URL. *)
  origin_printable u p o : parse_url u = Some (p, o) -> o <> "" /\ Str.all (JsString.in_range 33 126) o = true;
  origin_semicolon u p o : parse_url u = Some (p, o) -> free ";" u = true -> free ";" o = true }.

Section Facts.
Context (parse_url : string -> option (string * string)) {L : UrlLaws parse_url}.

Lemma all_and p q s : Str.all p s = true -> Str.all q s = true -> Str.all (fun c => p c && q c) s = true.
Proof. induction s as [|c s IH]; [done|]. cbn. intros [-> Hp]%andb_prop [-> Hq]%andb_prop. by rewrite IH. Qed.

Lemma origins_tokens urls : Forall (fun u => free ";" u = true) urls ->
  Forall (fun o => token o = true /\ o <> "") (connectOrigins parse_url urls).
Proof.
  intros Hu. apply list.Forall_forall. intros o Ho. apply (proj1 (select_all_spec _ []) o) in Ho as [Ho|Ho]; [set_solver|].
  apply list_elem_of_omap in Ho as (u & Hin & E). unfold toOrigin in E. destruct (String.eqb u ""); [done|].
  destruct (parse_url u) as [[p o']|] eqn:Ep; [|done]. destruct (negb _ && negb _); [done|]. injection E as ->.
  destruct (origin_printable _ _ _ Ep) as [Hne Hp]. rewrite list.Forall_forall in Hu.
  split; [|done]. by apply all_and, (origin_semicolon _ _ _ Ep), Hu.
Qed.

Definition good (d : string * list string) : Prop :=
  (free " " d.1 = true /\ d.1 <> "") /\ free ";" d.1 = true /\ Forall (fun s => token s = true /\ s <> "") d.2.

Lemma free_join c sep l : free c sep = true -> Forall (fun s => free c s = true) l -> free c (Str.join sep l) = true.
Proof.
  intros Hs Hl. induction l as [|s l IH]; [done|]. apply list.Forall_cons in Hl as [H Hl]. destruct l as [|t l]; [done|].
  change (Str.join sep (s :: t :: l)) with (s +:+ sep +:+ Str.join sep (t :: l)). rewrite !free_app, H, Hs, IH by done. done.
Qed.

Lemma directive_reads d : good d -> d.2 <> [] ->
  free ";" (print_directive d) = true /\ words (print_directive d) = d.1 :: d.2.
Proof.
  destruct d as [name sources]. intros (Hn & Hf & Hs) Hne. unfold print_directive. cbn [fst snd] in *. split.
  - rewrite !free_app, Hf. cbn [andb free Str.all]. rewrite free_join; [done|done|].
    eapply list.Forall_impl; [exact Hs|]. intros s [Ht _]. by apply token_free.
  - destruct sources as [|s l]; [done|].
    change (name +:+ " " +:+ Str.join " " (s :: l)) with (Str.join " " (name :: s :: l)). apply words_join.
    constructor; [done|]. eapply list.Forall_impl; [exact Hs|]. intros t [Ht ?]. split; [by apply token_free|done].
Qed.

Lemma directives_good nonce dev origins : token nonce = true -> Forall (fun o => token o = true /\ o <> "") origins ->
  Forall (fun d => good d /\ d.2 <> []) (directives nonce dev origins).
Proof.
  intros Hn Ho. assert (Hnonce : token ("'nonce-" +:+ nonce +:+ "'") = true).
  { unfold token in *. by rewrite !all_app, Hn. }
  unfold directives. set (q := "'nonce-" +:+ _) in *. assert (Hq : q <> "") by done. clearbody q. repeat (apply list.Forall_cons; split; [|]); try apply list.Forall_nil; try done;
    (split; [|done]); (split; [done|]); (split; [done|]); cbn [fst snd].
  all: try (repeat (apply list.Forall_cons; split; [done|]); by apply list.Forall_nil).
  - by destruct dev; cbn [app]; repeat (apply list.Forall_cons; split; [|]); try apply list.Forall_nil.
  - by apply list.Forall_cons.
Qed.

(** The policy a browser reads is the one that was meant. *)
Lemma policy_reads_back nonce dev enforce urls : token nonce = true -> Forall (fun u => free ";" u = true) urls ->
  parse_policy (buildContentSecurityPolicy parse_url nonce dev enforce urls) =
    directives nonce dev (connectOrigins parse_url urls) ++
    (if enforce && negb dev then [("upgrade-insecure-requests", [])] else []).
Proof.
  intros Hn Hu. unfold buildContentSecurityPolicy, parse_policy.
  pose proof (directives_good nonce dev _ Hn (origins_tokens _ Hu)) as Hg. set (ds := directives nonce dev _) in *.
  set (flags := if enforce && negb dev then ["upgrade-insecure-requests"] else []).
  assert (Hne : map print_directive ds ++ flags <> []) by done.
  assert (Hfree : Forall (fun s => free ";" s = true) (map print_directive ds ++ flags)).
  { apply list.Forall_app. split; [|unfold flags; destruct (enforce && negb dev); repeat constructor].
    apply list.Forall_fmap. eapply list.Forall_impl; [exact Hg|]. intros d [H1 H2]. by apply directive_reads. }
  rewrite (split_join ";" " ") by done.
  set (read := fun part => match words part with name :: sources => Some (name, sources) | [] => None end).
  assert (Hread : forall l, omap read (map (fun t => " " +:+ t) l) = omap read l).
  { intros l. induction l as [|t l IH]; [done|]. cbn [map omap list_omap].
    assert (E : read (" " +:+ t) = read t) by reflexivity. by rewrite E, IH. }
  assert (Hds : omap read (map print_directive ds) = ds).
  { clear - Hg. induction ds as [|d ds IH]; [done|]. apply list.Forall_cons in Hg as [[H1 H2] Hg].
    cbn [map omap list_omap]. unfold read at 1. rewrite (proj2 (directive_reads d H1 H2)), IH by done. by destruct d. }
  destruct (map print_directive ds ++ flags) as [|x r] eqn:E; [done|].
  transitivity (omap read (x :: r)).
  { cbn [omap list_omap]. by rewrite Hread. }
  rewrite <- E, omap_app, Hds. unfold flags. by destruct (enforce && negb dev).
Qed.

(** ** The headers *)
Definition header_char (c : ascii) : bool := JsString.in_range 32 126 c.

Lemma strip_right_id s c : Headers.http_space c = false -> Headers.strip_right (s +:+ String c "") = s +:+ String c "".
Proof.
  intros Hc. induction s as [|d s IH]; [cbn; by rewrite Hc|].
  change (String d s +:+ String c "") with (String d (s +:+ String c "")). cbn [Headers.strip_right]. rewrite IH. by destruct s.
Qed.

(** A text between two visible characters is kept as it is. *)
Lemma value_ok a s b : Headers.http_space a = false -> Headers.http_space b = false ->
  Str.all header_char (String a (s +:+ String b "")) = true ->
  Headers.value (String a (s +:+ String b "")) = Ok (String a (s +:+ String b "")).
Proof.
  intros Ha Hb H. unfold Headers.value. cbn [Headers.strip_left]. rewrite Ha.
  change (String a (s +:+ String b "")) with (String a s +:+ String b ""). rewrite strip_right_id by done.
  replace (Str.all _ _) with true; [done|]. symmetry. eapply all_weaken; [|exact H].
  intros c Hc. unfold header_char, JsString.in_range, Headers.bad_char in *.
  apply andb_prop in Hc as [H1%Z.leb_le H2%Z.leb_le]. rewrite !(proj2 (Z.eqb_neq _ _)) by lia. done.
Qed.

Lemma value_token s : token s = true -> Headers.value s = Ok s.
Proof.
  intros H. assert (Hsp : forall c, printable c = true -> Headers.http_space c = false).
  { intros c [Hr Hc]%andb_prop. unfold Headers.http_space, JsString.in_range in *.
    apply andb_prop in Hr as [H1%Z.leb_le H2%Z.leb_le]. rewrite !(proj2 (Z.eqb_neq _ _)) by lia.
    destruct (Ascii.eqb_spec c " ") as [->|]; [by cbn in H1|done]. }
  destruct s as [|a s]; [done|].
  assert (Hlast : s = "" \/ exists t b, s = t +:+ String b "").
  { clear. induction s as [|c s IH]; [by left|right]. destruct IH as [->|(t & b & ->)]; [by exists "", c|by exists (String c t), b]. }
  unfold token in H. destruct Hlast as [->|(t & b & ->)].
  - cbn in H. unfold Headers.value. cbn [Headers.strip_left Headers.strip_right]. rewrite Hsp by (by rewrite andb_true_r in H).
    cbn [Headers.strip_right]. rewrite Hsp by (by rewrite andb_true_r in H). cbn [Str.all].
    rewrite andb_true_r in H |- *. apply andb_prop in H as [Hr _]. unfold JsString.in_range in Hr.
    apply andb_prop in Hr as [H1%Z.leb_le H2%Z.leb_le]. unfold Headers.bad_char. by rewrite !(proj2 (Z.eqb_neq _ _)) by lia.
  - cbn [Str.all] in H. pose proof H as Hall. apply andb_prop in H as [Ha H]. rewrite all_app in H. apply andb_prop in H as [_ Hb].
    cbn in Hb. rewrite andb_true_r in Hb. apply value_ok; [by apply Hsp..|]. eapply all_weaken; [|exact Hall].
    intros c [Hr _]%andb_prop. unfold header_char, JsString.in_range in *. apply andb_prop in Hr as [H1%Z.leb_le H2%Z.leb_le].
    apply andb_true_intro. split; apply Z.leb_le; lia.
Qed.

Lemma all_join p sep l : Str.all p sep = true -> Forall (fun s => Str.all p s = true) l -> Str.all p (Str.join sep l) = true.
Proof.
  intros Hs Hl. induction l as [|s l IH]; [done|]. apply list.Forall_cons in Hl as [H Hl]. destruct l as [|t l]; [done|].
  change (Str.join sep (s :: t :: l)) with (s +:+ sep +:+ Str.join sep (t :: l)). by rewrite !all_app, H, Hs, IH.
Qed.

Lemma join_last sep l x : exists t, Str.join sep (l ++ [x]) = t +:+ x.
Proof.
  induction l as [|s l [t IH]]; [by exists ""|]. destruct l as [|u l]; [by exists (s +:+ sep); rewrite app_assoc_str|].
  exists (s +:+ sep +:+ t). change (Str.join sep ((s :: u :: l) ++ [x])) with (s +:+ sep +:+ Str.join sep ((u :: l) ++ [x])).
  by rewrite IH, !app_assoc_str.
Qed.

Lemma directive_chars d : good d -> Str.all header_char d.1 = true -> Str.all header_char (print_directive d) = true.
Proof.
  intros (_ & _ & Hs) Hn. unfold print_directive. rewrite !all_app, Hn. cbn [andb Str.all]. apply all_join; [done|].
  eapply list.Forall_impl; [exact Hs|]. intros s [Ht _]. eapply all_weaken; [|exact Ht].
  intros c [Hr _]%andb_prop. unfold header_char, JsString.in_range in *. apply andb_prop in Hr as [H1%Z.leb_le H2%Z.leb_le].
  apply andb_true_intro. split; apply Z.leb_le; lia.
Qed.

(** The policy is a header value as it stands. *)
Lemma policy_value nonce dev enforce urls : token nonce = true -> Forall (fun u => free ";" u = true) urls ->
  Headers.value (buildContentSecurityPolicy parse_url nonce dev enforce urls) =
    Ok (buildContentSecurityPolicy parse_url nonce dev enforce urls).
Proof.
  intros Hn Hu. pose proof (directives_good nonce dev _ Hn (origins_tokens _ Hu)) as Hg.
  set (flags := if enforce && negb dev then ["upgrade-insecure-requests"] else []).
  set (ds := directives nonce dev (connectOrigins parse_url urls)) in *.
  assert (Hall : Str.all header_char (Str.join "; " (map print_directive ds ++ flags)) = true).
  { apply all_join; [done|]. apply list.Forall_app. split; [|unfold flags; destruct (enforce && negb dev); repeat constructor].
    apply list.Forall_fmap. rewrite list.Forall_forall in Hg |- *. intros d Hd. apply directive_chars; [by apply Hg|].
    unfold ds, directives in Hd. repeat (apply elem_of_cons in Hd as [->|Hd]; [done|]). set_solver. }
  unfold buildContentSecurityPolicy. fold ds flags.
  assert (Hshape : exists s b, Str.join "; " (map print_directive ds ++ flags) = String "d" (s +:+ String b "") /\ Headers.http_space b = false).
  { assert (Hds : exists mid, ds = ("default-src", ["'self'"]) :: mid ++ [("object-src", ["'none'"])]) by (exists (take 8 (drop 1 ds)); reflexivity).
    destruct Hds as [mid ->]. cbn [map]. rewrite map_app, <- app_comm_cons, <- app_assoc.
    assert (Hend : exists l x b, map print_directive mid ++ map print_directive [("object-src", ["'none'"])] ++ flags = l ++ [x +:+ String b ""] /\
      Headers.http_space b = false).
    { unfold flags. destruct (enforce && negb dev).
      - exists (map print_directive mid ++ ["object-src 'none'"]), "upgrade-insecure-request", "s"%char. by rewrite <- app_assoc.
      - by exists (map print_directive mid), "object-src 'none", "'"%char. }
    destruct Hend as (l & x & b & -> & Hb). destruct (join_last "; " l (x +:+ String b "")) as [t Ht].
    exists ("efault-src 'self'" +:+ "; " +:+ t +:+ x), b. split; [|done].
    assert (Hcons : forall p m, m <> [] -> Str.join "; " (p :: m) = p +:+ "; " +:+ Str.join "; " m) by (intros p [|]; done).
    rewrite Hcons by (by destruct l). rewrite Ht, !app_assoc_str. done. }
  destruct Hshape as (s & b & E & Hb). rewrite E in *. by apply value_ok.
Qed.

Lemma get_app h1 h2 k : Headers.get (h1 ++ h2) k = match Headers.get h1 k with Some v => Some v | None => Headers.get h2 k end.
Proof. induction h1 as [|[k' v] h1 IH]; [done|]. cbn. by destruct (String.eqb _ _). Qed.
Lemma get_remove h k k' : Headers.get (Headers.remove h k) k' =
  if String.eqb (Str.to_lower k) (Str.to_lower k') then None else Headers.get h k'.
Proof.
  induction h as [|[k1 v] h IH]; cbn; [by destruct (String.eqb _ _)|].
  destruct (String.eqb_spec (Str.to_lower k) (Str.to_lower k1)) as [E|E]; cbn; rewrite IH.
  - rewrite <- E, (String.eqb_sym (Str.to_lower k')). by destruct (String.eqb _ _).
  - destruct (String.eqb_spec (Str.to_lower k') (Str.to_lower k1)) as [->|]; [|done].
    by rewrite (proj2 (String.eqb_neq _ _) E).
Qed.
Lemma set_ok h k v : Headers.value v = Ok v ->
  exists h', Headers.set h k v = Ok h' /\ forall k', Headers.get h' k' =
    if String.eqb (Str.to_lower k) (Str.to_lower k') then Some v else Headers.get h k'.
Proof.
  intros Hv. unfold Headers.set. rewrite Hv. eexists. split; [reflexivity|]. intros k'.
  rewrite get_app, get_remove. cbn. rewrite (String.eqb_sym (Str.to_lower k') (Str.to_lower k)).
  destruct (String.eqb _ _); [done|]. by destruct (Headers.get h k').
Qed.

(** The variables the policy is made from do not hold the character that ends a directive. *)
Definition clean (env : Env) : Prop :=
  Forall (fun u => free ";" u = true) (resolveConnectUrls env).

(** *** What the policy is meant to say ([docs/developer-guide/security-headers.md]) *)
(** The sources of a directive: those of the first one with its name. *)
Definition granted (policy name : string) : option (list string) :=
  snd <$> List.find (fun d : string * list string => String.eqb d.1 name) (parse_policy policy).
(** The URLs the app calls: of the API, of Horizon and of the RPC server, as configured or by
    default, and the defaults of the SDK, which does not see the configuration in a browser. *)
Definition called (env : Env) (u : string) : Prop :=
  (exists variable default_url,
     (variable, default_url) ∈ [("NEXT_PUBLIC_API_BASE_URL", "http://localhost:8080");
        ("NEXT_PUBLIC_HORIZON_URL", "https://horizon-testnet.stellar.org"); ("NEXT_PUBLIC_SOROBAN_RPC_URL", "https://soroban-testnet.stellar.org")] /\
     ((env variable = Some u /\ u <> "") \/ ((env variable = None \/ env variable = Some "") /\ u = default_url))) \/
  u = "https://horizon-testnet.stellar.org" \/ u = "https://soroban-testnet.stellar.org".
Definition development (env : Env) : bool := bool_decide (env "NODE_ENV" = Some "development").
Definition enforced (env : Env) : bool := bool_decide (env "CSP_ENFORCE" = Some "true").
Record meant (env : Env) (nonce policy : string) : Prop := {
  m_names : (parse_policy policy).*1 =
    ["default-src"; "script-src"; "style-src"; "img-src"; "font-src"; "connect-src"; "frame-ancestors"; "base-uri"; "form-action"; "object-src"] ++
    (if enforced env && negb (development env) then ["upgrade-insecure-requests"] else []);
  m_script : granted policy "script-src" =
    Some (["'self'"; "'nonce-" +:+ nonce +:+ "'"; "'strict-dynamic'"] ++ (if development env then ["'unsafe-eval'"] else []));
  m_style : granted policy "style-src" = Some ["'self'"; "'unsafe-inline'"];
  m_images : granted policy "img-src" = Some ["'self'"; "data:"; "blob:"];
  m_own : Forall (fun name => granted policy name = Some ["'self'"]) ["default-src"; "font-src"; "base-uri"; "form-action"];
  m_none : Forall (fun name => granted policy name = Some ["'none'"]) ["frame-ancestors"; "object-src"];
  m_connect : exists origins, granted policy "connect-src" = Some ("'self'" :: origins) /\ NoDup origins /\
    forall o, o ∈ origins <-> exists u p, called env u /\ parse_url u = Some (p, o) /\ (p = "http:" \/ p = "https:") }.

Lemma url_or_default (env : Env) u variable default_url : u = opt_str_or (env variable) default_url <->
  (env variable = Some u /\ u <> "") \/ ((env variable = None \/ env variable = Some "") /\ u = default_url).
Proof.
  unfold opt_str_or, str_or. destruct (env variable) as [v|]; cbn; [|split; [auto|by intros [[[=] _]|[_ ->]]]].
  destruct (String.eqb_spec v "") as [->|Hv]; cbn.
  - split; [by auto|intros [[[=] ?]|[_ ->]]; congruence].
  - split; [intros ->; by left|intros [[[=] _]|[[[=]|[=]] _]]; congruence].
Qed.
Lemma called_resolved env u : u ∈ resolveConnectUrls env <-> called env u.
Proof.
  unfold called, resolveConnectUrls. rewrite !elem_of_cons, elem_of_nil, !url_or_default.
  unfold DEFAULT_API_BASE_URL, DEFAULT_HORIZON_URL, DEFAULT_SOROBAN_RPC_URL. split.
  - intros [H|[H|[H|[H|[H|[]]]]]].
    + left. eexists _, _. split; [left|exact H].
    + left. eexists _, _. split; [right; left|exact H].
    + left. eexists _, _. split; [do 2 right; left|exact H].
    + by right; left.
    + by right; right.
  - intros [(v & d & Hin & H)|[H|H]]; [|tauto..]. rewrite !elem_of_cons, elem_of_nil in Hin.
    destruct Hin as [[= -> ->]|[[= -> ->]|[[= -> ->]|[]]]]; tauto.
Qed.
Lemma origins_of_calls env o : o ∈ connectOrigins parse_url (resolveConnectUrls env) <->
  exists u p, called env u /\ parse_url u = Some (p, o) /\ (p = "http:" \/ p = "https:").
Proof.
  unfold connectOrigins, set_of. destruct (select_all_spec (omap (toOrigin parse_url) (resolveConnectUrls env)) []) as (Hm & _ & _).
  rewrite Hm, list_elem_of_omap. split.
  - intros [[]%not_elem_of_nil|(u & Hu%called_resolved & Ho)]. unfold toOrigin in Ho. destruct (String.eqb u ""); [done|].
    destruct (parse_url u) as [[p o']|] eqn:E; [|done].
    destruct (String.eqb_spec p "http:") as [Hp|_]; [|destruct (String.eqb_spec p "https:") as [Hp|_]]; cbn in Ho; try done; injection Ho as ->; eauto 7.
  - intros (u & p & Hu & E & Hp). right. exists u. split; [by apply called_resolved|]. unfold toOrigin. rewrite E.
    assert (Hne : u <> "").
    { destruct Hu as [(v & d & Hin & [[_ ?]|[_ ->]])|[->| ->]]; try done. rewrite !elem_of_cons, elem_of_nil in Hin.
      by destruct Hin as [[= -> ->]|[[= -> ->]|[[= -> ->]|[]]]]. }
    destruct (String.eqb_spec u ""); [done|]. by destruct Hp as [->| ->].
Qed.
Lemma policy_meant env uuid : clean env ->
  meant env (Base64.btoa uuid) (buildContentSecurityPolicy parse_url (Base64.btoa uuid) (development env) (isCspEnforced env) (resolveConnectUrls env)).
Proof.
  intros Hc. pose proof (policy_reads_back (Base64.btoa uuid) (development env) (isCspEnforced env) _ (btoa_token uuid) Hc) as Hr.
  constructor; unfold granted; rewrite Hr.
  - change (isCspEnforced env) with (enforced env). by destruct (_ && _).
  - done.
  - done.
  - done.
  - by repeat constructor.
  - by repeat constructor.
  - exists (connectOrigins parse_url (resolveConnectUrls env)). split; [done|]. split; [|apply origins_of_calls].
    unfold connectOrigins, set_of. destruct (select_all_spec (omap (toOrigin parse_url) (resolveConnectUrls env)) []) as (_ & Hn & _).
    apply Hn. constructor.
Qed.

(** C33: whatever headers a request comes with, the page is rendered with the nonce of this
    request, in the [x-nonce] header that the layout reads and in the policy; the response carries
    that same policy, enforced exactly if [CSP_ENFORCE] is [true]; and a browser that parses it finds
    the documented directives and no other: scripts by that one nonce and never inline
    ([eval] only in development), nothing framed, no plugins, and connections to the origins of
    exactly the URLs the app calls. *)
Theorem middleware_policy env uuid request (Hc : clean env) :
  let nonce := Base64.btoa uuid in
  let name := if enforced env then "Content-Security-Policy" else "Content-Security-Policy-Report-Only" in
  exists passed policy, middleware parse_url env uuid request = Ok passed /\
    p_response passed = [(name, policy)] /\ Headers.get (p_request passed) name = Some policy /\
    layout_nonce (p_request passed) = Some nonce /\ meant env nonce policy.
Proof.
  cbn zeta. change (if enforced env then _ else _) with (cspHeaderName (isCspEnforced env)).
  set (dev := development env). set (enforce := isCspEnforced env).
  set (policy := buildContentSecurityPolicy parse_url (Base64.btoa uuid) dev enforce (resolveConnectUrls env)).
  pose proof (policy_value (Base64.btoa uuid) dev enforce _ (btoa_token uuid) Hc) as Hv. fold policy in Hv.
  destruct (set_ok request NONCE_HEADER _ (value_token _ (btoa_token uuid))) as (h1 & E1 & G1).
  destruct (set_ok h1 (cspHeaderName enforce) policy Hv) as (h2 & E2 & G2).
  assert (E3 : Headers.set [] (cspHeaderName enforce) policy = Ok [(cspHeaderName enforce, policy)])
    by (unfold Headers.set; by rewrite Hv).
  exists {| p_request := h2; p_response := [(cspHeaderName enforce, policy)] |}, policy. split.
  { unfold middleware. fold (development env). fold dev enforce policy. by rewrite E1; cbn [mbind result_bind]; rewrite E2; cbn [mbind result_bind]; rewrite E3. }
  split; [done|]. cbn [p_request]. split; [by rewrite G2, String.eqb_refl|]. split.
  { unfold layout_nonce. rewrite G2, G1. by destruct enforce. }
  by apply policy_meant.
Qed.
End Facts.

(** ** What the app calls *)
(** The API client, and the SDK whether or not the bundle sees the environment, call URLs the
    policy was made for. *)
Lemma app_calls_resolved `{Networks} {Env} {B : Backend Env} (e : gmap string string) (p : process) :
  env_api_base_url = e !! "NEXT_PUBLIC_API_BASE_URL" -> p = Some e \/ p = None ->
  getApiUrl ∈ resolveConnectUrls (fun k => e !! k) /\
  cfg_horizonUrl (initial_config p) ∈ resolveConnectUrls (fun k => e !! k) /\
  cfg_sorobanRpcUrl (initial_config p) ∈ resolveConnectUrls (fun k => e !! k).
Proof.
  intros He Hp. unfold resolveConnectUrls, getApiUrl, initial_config. rewrite He. cbn [cfg_horizonUrl cfg_sorobanRpcUrl].
  unfold DEFAULT_NETWORK. cbn [dn_horizonUrl dn_sorobanRpcUrl].
  unfold DEFAULT_API_BASE_URL, DEFAULT_HORIZON_URL, DEFAULT_SOROBAN_RPC_URL.
  rewrite !elem_of_cons. destruct Hp as [->| ->]; cbn; tauto.
Qed.

(** ** A concrete policy *)
Module MockUrl.
(** URLs without a path, as the defaults are. *)
Definition parse (u : string) : option (string * string) :=
  if Str.all (JsString.in_range 33 126) u && negb (String.eqb u "") then
    Some (if Str.starts_with u "http:" then "http:" else if Str.starts_with u "https:" then "https:" else "other:", u)
  else None.
#[local] Instance laws : UrlLaws parse.
Proof.
  split; intros u p o; unfold parse; destruct (Str.all _ u) eqn:E; cbn [andb]; try done;
    destruct (String.eqb_spec u "") as [|Hne]; cbn [negb]; try done; by intros [= _ <-].
Qed.
Definition env (k : string) : option string :=
  if String.eqb k "NEXT_PUBLIC_API_BASE_URL" then Some "https://api.trusttrove.example"
  else if String.eqb k "CSP_ENFORCE" then Some "true" else None.
End MockUrl.

Lemma middleware_policy_witness :
  exists passed policy, middleware MockUrl.parse MockUrl.env "5f0c" [("X-Nonce", "forged")] = Ok passed /\
    p_response passed = [("Content-Security-Policy", policy)] /\ layout_nonce (p_request passed) = Some "NWYwYw==" /\
    granted policy "script-src" = Some ["'self'"; "'nonce-NWYwYw=='"; "'strict-dynamic'"] /\
    exists origins, granted policy "connect-src" = Some ("'self'" :: origins) /\ "https://api.trusttrove.example" ∈ origins.
Proof.
  assert (Hc : clean MockUrl.env) by (repeat constructor).
  destruct (middleware_policy MockUrl.parse (L := MockUrl.laws) MockUrl.env "5f0c" [("X-Nonce", "forged")] Hc)
    as (passed & policy & H1 & H2 & _ & H3 & H4).
  exists passed, policy. split; [exact H1|]. split; [exact H2|]. split; [exact H3|]. split; [exact (m_script _ _ _ _ H4)|].
  destruct (m_connect _ _ _ _ H4) as (origins & Ho & _ & Hin). exists origins. split; [exact Ho|]. apply Hin.
  exists "https://api.trusttrove.example", "https:". split; [|split; [reflexivity|by right]].
  left. exists "NEXT_PUBLIC_API_BASE_URL", "http://localhost:8080". split; [left|]. by left.
Defined.
