(* ===== verification/ActionHooks.v ===== *)
(** * The hooks that act ([hooks/useInvoices.ts], [usePool.ts], [useProfile.ts],
      [useInvoiceDetailActions.ts])

    The SDK is loaded when an action first needs a client, and the client is kept.  The pool
    and the profile hook keep the promise of the client, the invoice hook the client itself;
    both are step functions over calls and the ends of [import("@trusttrove/sdk")].  What
    the hooks return are JavaScript objects: property lists over the values of the hook. *)

From S2P Require Import Prelude JsString JsValue Effects SdkConfig SdkTypes Base.
Local Open Scope Z_scope.

(** ** Clients built when needed *)
(** A client and its identity as an object: the number of clients built before it. *)
Definition client `{StellarSdk} : Type := BaseContractClient * nat.
(** [({ PoolClient }) => new PoolClient(id)], on an import that loaded. *)
Definition construct `{StellarSdk} (id : string) (built : nat) (loaded : res ()) : res client :=
  _ ← loaded; c ← new_BaseContractClient id None None; Ok (c, built).
(** A call of the getter, and the end of the [n]-th import. *)
Inductive memo_event := Get | Imported (n : nat) (loaded : res ()).
Definition count_one `{StellarSdk} (a : res client) : nat := if is_ok a then 1 else 0.

(** The promise is kept ([getPoolClient], [getRegistryClient]). *)
Module PromiseMemo.
Section Memo.
Context `{Sdk : StellarSdk}.
Context (id : string).
Record state := {
  promise : option nat;                    (* the [useRef] *)
  answers : list (option (res client));    (* every promise made, once it has settled *)
  built : nat }.
Definition initial : state := {| promise := None; answers := []; built := 0 |}.
Definition getClient (s : state) : state :=
  match promise s with
  | Some _ => s
  | None => {| promise := Some (length (answers s)); answers := answers s ++ [None]; built := built s |}
  end.
Definition step (s : state) (e : memo_event) : state :=
  match e with
  | Get => getClient s
  | Imported n loaded =>
      match answers s !! n with
      | Some None =>
          let a := construct id (built s) loaded in
          {| promise := promise s; answers := <[n := Some a]> (answers s);
             built := (built s + count_one a)%nat |}
      | _ => s
      end
  end.
(** What [await getClient()] gives a call made now, once it is there. *)
Definition answer (s : state) : option (res client) := promise s ≫= fun n => mjoin (answers s !! n).
End Memo.
End PromiseMemo.

(** The client is kept ([getInvoiceClient], [getPoolClient] of [useInvoiceActions]). *)
Module RefMemo.
Section Memo.
Context `{Sdk : StellarSdk}.
Context (id : string).
Record state := {
  ref : option client;             (* the [useRef] *)
  waiting : list nat;              (* calls that wait for their import *)
  imports : nat;
  answered : list (res client);    (* the latest first *)
  built : nat }.
Definition initial : state := {| ref := None; waiting := []; imports := 0; answered := []; built := 0 |}.
Definition getClient (s : state) : state :=
  match ref s with
  | Some c =>
      {| ref := ref s; waiting := waiting s; imports := imports s; answered := Ok c :: answered s; built := built s |}
  | None =>
      {| ref := None; waiting := imports s :: waiting s; imports := S (imports s); answered := answered s;
         built := built s |}
  end.
Definition step (s : state) (e : memo_event) : state :=
  match e with
  | Get => getClient s
  | Imported n loaded =>
      if decide (n ∈ waiting s) then
        let a := construct id (built s) loaded in
        {| ref := match a with Ok c => Some c | Throw _ => ref s end;
           waiting := filter (fun k => k <> n) (waiting s); imports := imports s; answered := a :: answered s;
           built := (built s + count_one a)%nat |}
      else s
  end.
End Memo.
End RefMemo.

(** ** What the hooks return *)
Definition object (V : Type) : Type := list (string * V).
Section Objects.
Context {V : Type} (undefined : V).
Definition prop (o : object V) (k : string) : V :=
  match find (fun kv => String.eqb kv.1 k) o with Some kv => kv.2 | None => undefined end.
(** [{ ...o, k: v, ... }]: a key that is there keeps its place and gets the new value. *)
Fixpoint put (o : object V) (k : string) (v : V) : object V :=
  match o with
  | [] => [(k, v)]
  | kv :: rest => if String.eqb kv.1 k then (k, v) :: rest else kv :: put rest k v
  end.
Definition spread (o with_ : object V) : object V := foldl (fun o kv => put o kv.1 kv.2) o with_.

(** What [useMutation] returns, as far as the hooks use it. *)
Record UseMutation := { mutateAsync : V; isPending : V; error : V }.
Inductive Action := Create | ListForFinancing | Fund | Ship | Confirm | Repay | Default.
Definition all_actions : list Action := [Create; ListForFinancing; Fund; Ship; Confirm; Repay; Default].
Definition action_names (a : Action) : string * string * string :=
  match a with
  | Create => ("createInvoice", "isCreating", "createError")
  | ListForFinancing => ("listInvoice", "isListing", "listError")
  | Fund => ("fundInvoice", "isFunding", "fundError")
  | Ship => ("shipInvoice", "isShipping", "shipError")
  | Confirm => ("confirmDelivery", "isConfirming", "confirmError")
  | Repay => ("repayInvoice", "isRepaying", "repayError")
  | Default => ("defaultInvoice", "isDefaulting", "defaultError")
  end.
Definition action_keys (a : Action) : list string := let '(f, p, e) := action_names a in [f; p; e].
Definition useInvoiceActions (mutation : Action -> UseMutation) : object V :=
  a ← all_actions; let '(f, p, e) := action_names a in
  [(f, mutateAsync (mutation a)); (p, isPending (mutation a)); (e, error (mutation a))].
(** [{ k: actions.k, ... }]. *)
Definition picked (actions : object V) (keys : list string) : object V := (fun k => (k, prop actions k)) <$> keys.

Definition useCreateInvoice (actions : object V) := picked actions ["createInvoice"; "isCreating"; "createError"].
Definition useListInvoice (actions : object V) := picked actions ["listInvoice"; "isListing"; "listError"].
Definition useFundInvoice (actions : object V) := picked actions ["fundInvoice"; "isFunding"; "fundError"].
Definition useShipInvoice (actions : object V) := picked actions ["shipInvoice"; "isShipping"; "shipError"].
Definition useConfirmDelivery (actions : object V) :=
  picked actions ["confirmDelivery"; "isConfirming"; "confirmError"].
Definition useRepayInvoice (actions : object V) := picked actions ["repayInvoice"; "isRepaying"; "repayError"].
Definition useDefaultInvoice (actions : object V) :=
  picked actions ["defaultInvoice"; "isDefaulting"; "defaultError"].
Definition useInvoices (list_ actions : object V) : object V :=
  spread list_ (picked actions (a ← all_actions; action_keys a)).
(** The hook of one action. *)
Definition hook_of (a : Action) : object V -> object V :=
  match a with
  | Create => useCreateInvoice | ListForFinancing => useListInvoice | Fund => useFundInvoice
  | Ship => useShipInvoice | Confirm => useConfirmDelivery | Repay => useRepayInvoice
  | Default => useDefaultInvoice
  end.
(** The keys of [useInvoicesList]. *)
Definition list_keys : list string :=
  ["invoices"; "total"; "totalPages"; "page"; "limit"; "isLoading"; "error"; "refetch"].

(** What [useQuery] returns, as far as the hooks use it. *)
Record UseQuery := { q_data : V; q_isLoading : V; q_error : V; q_refetch : V }.
Definition usePool (stats position : UseQuery) (deposit withdraw : UseMutation) (appError : V) : object V :=
  [("stats", q_data stats); ("isStatsLoading", q_isLoading stats); ("statsError", q_error stats);
   ("refetchStats", q_refetch stats);
   ("position", q_data position); ("isPositionLoading", q_isLoading position);
   ("positionError", q_error position); ("refetchPosition", q_refetch position);
   ("deposit", mutateAsync deposit); ("isDepositing", isPending deposit); ("depositError", error deposit);
   ("withdraw", mutateAsync withdraw); ("isWithdrawing", isPending withdraw); ("withdrawError", error withdraw);
   ("appError", appError)].
End Objects.
Arguments UseMutation : clear implicits.
Arguments UseQuery : clear implicits.

(** ** Properties *)
Section PromiseFacts.
Context `{Sdk : StellarSdk}.
Context (id : string).
Import PromiseMemo.
Abbreviation after := (foldl (step id) initial).

(** No call yet, or one import under way, or one answer for good. *)
Inductive promise_inv : state -> Prop :=
  | unused : promise_inv initial
  | loading : promise_inv {| promise := Some 0%nat; answers := [None]; built := 0 |}
  | settled loaded (a := construct id 0 loaded) :
      promise_inv {| promise := Some 0%nat; answers := [Some a]; built := count_one a |}.

Lemma promise_step s e : promise_inv s -> promise_inv (step id s e).
Proof.
  destruct e as [|[|n] r]; destruct 1 as [| |r']; cbn;
    first [exact unused | exact loading | exact (settled r') | exact (settled r)].
Qed.
Lemma promise_run l s : promise_inv s -> promise_inv (foldl (step id) s l).
Proof. revert s. induction l as [|e l IH]; intros s H; [done|]. by apply IH, promise_step. Qed.

Lemma answer_step s e a : promise_inv s -> answer s = Some a -> answer (step id s e) = Some a.
Proof. destruct e as [|[|n] r]; destruct 1; cbn; done. Qed.
Lemma answer_run l : forall s a, promise_inv s -> answer s = Some a -> answer (foldl (step id) s l) = Some a.
Proof.
  induction l as [|e l IH]; intros s a H Ha; [done|]. apply IH; [by apply promise_step|by apply answer_step].
Qed.

(** A component that keeps the promise imports once and builds one client at most, and
    every call is answered alike. *)
Lemma promise_memo_once l :
  (length (answers (after l)) <= 1)%nat /\ (built (after l) <= 1)%nat /\
  forall a l', answer (after l) = Some a -> answer (foldl (step id) (after l) l') = Some a.
Proof.
  pose proof (promise_run l initial unused) as H. split_and!; [by destruct H; cbn; lia | | by intros; apply answer_run].
  destruct H as [| |r]; cbn; [lia..|]. unfold count_one. destruct (is_ok _); lia.
Qed.

(** A failed import is kept like any other answer: no later call tries again. *)
Lemma failed_import_is_kept e l : answer (after (Get :: Imported 0 (Throw e) :: l)) = Some (Throw e).
Proof. cbn. by apply answer_run; [apply (settled (Throw e))|]. Qed.
End PromiseFacts.

Section RefFacts.
Context `{Sdk : StellarSdk}.
Context (id : string).
Import RefMemo.
Abbreviation after := (foldl (step id) initial).

(** Whether an answer is a client of the contract of the hook, one of the first [n] built,
    or why there is none: the import failed, or the constructor refused the id. *)
Definition explained (failures : list jsval) (n : nat) (a : res client) : Prop :=
  match a with
  | Ok c => new_BaseContractClient id None None = Ok c.1 /\ (c.2 < n)%nat
  | Throw e => e ∈ failures \/ new_BaseContractClient id None None = Throw e
  end.
Definition import_failures (l : list memo_event) : list jsval :=
  omap (fun e => match e with Imported _ (Throw err) => Some err | _ => None end) l.
Definition gets (l : list memo_event) : nat := length (List.filter (fun e => match e with Get => true | _ => false end) l).

Record ref_inv (l : list memo_event) (s : state) : Prop := {
  r_calls : (length (answered s) + length (waiting s))%nat = gets l;
  r_nodup : NoDup (waiting s);
  r_fresh : Forall (fun n => n < imports s)%nat (waiting s);
  r_ref : forall c, ref s = Some c -> explained [] (built s) (Ok c);
  r_answered : Forall (explained (import_failures l) (built s)) (answered s) }.

Lemma explained_mono f f' n n' a : f ⊆ f' -> (n <= n')%nat -> explained f n a -> explained f' n' a.
Proof. intros Hf Hn. destruct a as [c|e]; cbn; [intros [? ?]; split; [done|lia]|]. set_solver. Qed.

Lemma construct_explained b r : explained (import_failures [Imported 0 r]) (b + count_one (construct id b r)) (construct id b r).
Proof.
  unfold construct. destruct r as [[]|e]; cbn; [|left; left].
  destruct (new_BaseContractClient id None None) as [c|e] eqn:E; cbn; [split; [done|lia]|by right].
Qed.

Lemma filter_removed (l : list nat) n :
  NoDup l -> n ∈ l -> length l = S (length (filter (fun k => k <> n) l)).
Proof.
  induction 1 as [|x l Hx Hl IH]; intros Hn; [set_solver|].
  apply elem_of_cons in Hn as [->|Hn].
  - rewrite filter_cons_False by (intros H; by apply H). cbn. f_equal.
    clear - Hx. induction l as [|y l IH]; [done|]. rewrite filter_cons_True by set_solver. cbn. set_solver.
  - rewrite filter_cons_True by (intros ->; done). cbn. f_equal. by apply IH.
Qed.

Lemma ref_step l s e : ref_inv l s -> ref_inv (l ++ [e]) (step id s e).
Proof.
  intros [Hc Hn Hf Hr Ha].
  assert (G : gets (l ++ [e]) = (gets l + gets [e])%nat) by (unfold gets; by rewrite List.filter_app, length_app).
  assert (F : import_failures (l ++ [e]) = import_failures l ++ import_failures [e])
    by (unfold import_failures; by rewrite omap_app).
  assert (Hmono : forall b', (built s <= b')%nat -> Forall (explained (import_failures (l ++ [e])) b') (answered s)).
  { intros b' Hb. rewrite F. eapply list.Forall_impl; [exact Ha|]. intros a. apply explained_mono; [set_solver|done]. }
  destruct e as [|n r]; cbn [step].
  - unfold getClient. destruct (ref s) as [c|] eqn:Er; split; cbn; rewrite ?G; cbn; try done; try lia.
    + constructor; [|by apply Hmono]. by apply Hr.
    + constructor; [|done]. intros H. apply (proj1 (list.Forall_forall _ _) Hf) in H. lia.
    + constructor; [lia|]. eapply list.Forall_impl; [exact Hf|]. cbn. lia.
    + by apply Hmono.
  - destruct (decide (n ∈ waiting s)) as [Hin|]; [|split; try done; [by rewrite G; cbn; lia|by apply Hmono]].
    pose proof (construct_explained (built s) r) as Hx. split; cbn.
    + rewrite G. cbn. pose proof (filter_removed _ _ Hn Hin). lia.
    + by apply list.NoDup_filter.
    + apply list.Forall_forall. intros i Hi. apply list_elem_of_filter in Hi as [_ Hi].
      by eapply (proj1 (list.Forall_forall _ _)) in Hf.
    + intros c. destruct (construct id (built s) r) as [c'|e']; [intros [= <-]; done|].
      intros Hc'. destruct (Hr c Hc') as [H1 H2]. split; [done|lia].
    + constructor; [|apply Hmono; lia]. rewrite F. eapply explained_mono; [| |exact Hx]; [|done].
      cbn. destruct r; set_solver.
Qed.

(** A component that keeps the client answers every call whose import has ended, with a
    client of its contract or with the reason why there is none; once it has a client, a
    call is answered at once. *)
Theorem ref_memo_answers l :
  let s := after l in
  (length (answered s) + length (waiting s))%nat = gets l /\
  Forall (explained (import_failures l) (built s)) (answered s) /\
  (forall c, ref s = Some c -> answered (step id s Get) = Ok c :: answered s).
Proof.
  cbn zeta. assert (H : ref_inv l (after l)).
  { induction l as [|e l IH] using rev_ind; [by split; cbn; try done; constructor|].
    rewrite foldl_snoc. by apply ref_step. }
  split_and!; [apply H..|]. intros c Hc. cbn. unfold getClient. by rewrite Hc.
Qed.

(** After a failed import the next call imports again. *)
Lemma failed_import_is_retried e c :
  new_BaseContractClient id None None = Ok c ->
  answered (after [Get; Imported 0 (Throw e); Get; Imported 1 (Ok ())]) = [Ok (c, 0%nat); Throw e].
Proof. intros H. cbn. by rewrite H. Qed.

(** Calls that overlap the first import build a client each. *)
Lemma waiting_calls k s : ref s = None -> waiting s = rev (seq 0 (imports s)) ->
  let s' := foldl (step id) s (replicate k Get) in
  ref s' = None /\ waiting s' = rev (seq 0 (imports s')) /\ imports s' = (imports s + k)%nat /\ built s' = built s /\
  answered s' = answered s.
Proof.
  revert s. induction k as [|k IH]; intros s Hr Hw; cbn; [split_and!; try done; lia|].
  unfold getClient. rewrite Hr. cbn.
  destruct (IH {| ref := None; waiting := imports s :: waiting s; imports := S (imports s);
                  answered := answered s; built := built s |} eq_refl) as (H1 & H2 & H3 & H4 & H5).
  - cbn [waiting imports]. by rewrite Hw, seq_S, rev_app_distr.
  - cbn in *. split_and!; try done. lia.
Qed.

Lemma arrivals c (Hc : new_BaseContractClient id None None = Ok c) k : forall a s,
  (forall i, (a <= i < a + k)%nat -> i ∈ waiting s) ->
  built (foldl (step id) s ((fun n => Imported n (Ok ())) <$> seq a k)) = (built s + k)%nat.
Proof.
  induction k as [|k IH]; intros a s Hw; [cbn; lia|]. cbn. rewrite decide_True by (apply Hw; lia). rewrite IH.
  - cbn. rewrite Hc. cbn. lia.
  - intros i Hi. cbn. apply list_elem_of_filter. split; [lia|]. apply Hw. lia.
Qed.

Lemma overlapping_calls_build_apart c k :
  new_BaseContractClient id None None = Ok c ->
  built (after (replicate k Get ++ ((fun n => Imported n (Ok ())) <$> seq 0 k))) = k.
Proof.
  intros Hc. rewrite foldl_app.
  destruct (waiting_calls k initial eq_refl eq_refl) as (_ & Hw & Hi & Hb & _).
  rewrite (arrivals c Hc).
  - by rewrite Hb.
  - intros i Hlt. rewrite Hw, Hi. apply list_elem_of_In, in_rev. rewrite rev_involutive. apply in_seq. cbn. lia.
Qed.
End RefFacts.

(** ** The objects returned *)
Section ObjectFacts.
Context {V : Type} (undefined : V).

Lemma put_new (o : object V) k v : k ∉ o.*1 -> put o k v = o ++ [(k, v)].
Proof.
  induction o as [|[k' v'] o IH]; cbn; intros H; [done|].
  apply not_elem_of_cons in H as [Hk H]. destruct (String.eqb_spec k' k) as [->|]; [done|]. by rewrite IH.
Qed.

(** Spreading an object with no key in common appends its properties. *)
Lemma spread_disjoint (o o' : object V) : NoDup ((o ++ o').*1) -> spread o o' = o ++ o'.
Proof.
  unfold spread. revert o. induction o' as [|[k v] o' IH]; intros o H; cbn; [by rewrite app_nil_r|].
  rewrite put_new; [rewrite IH; [by rewrite <- (assoc app)|by rewrite <- (assoc app)]|].
  rewrite fmap_app in H. apply list.NoDup_app in H as (_ & H & _). intros Hk. apply (H k Hk). cbn. left.
Qed.

(** The hook of one action gives the mutation of that action and its state, and
    [useInvoices] gives the list unchanged and those of every action besides. *)
Theorem hooks_give_the_actions mutation (list_ : object V) (Hkeys : list_.*1 = list_keys) :
  let actions := useInvoiceActions mutation in
  (forall a, hook_of undefined a actions =
    let '(f, p, e) := action_names a in
    [(f, mutateAsync (mutation a)); (p, isPending (mutation a)); (e, error (mutation a))]) /\
  useInvoices undefined list_ actions = list_ ++ actions.
Proof.
  cbn zeta. split; [intros a; by destruct a|]. unfold useInvoices.
  assert (E : picked undefined (useInvoiceActions mutation) (a ← all_actions; action_keys a) =
    useInvoiceActions mutation)
    by reflexivity.
  rewrite E. apply spread_disjoint. rewrite fmap_app, Hkeys.
  apply (bool_decide_unpack (NoDup (list_keys ++ (useInvoiceActions mutation).*1))). reflexivity.
Qed.
End ObjectFacts.

Lemma hooks_give_the_actions_witness :
  let actions := useInvoiceActions (fun _ => {| mutateAsync := 1; isPending := 2; error := 3 |}%nat) in
  exists list_ : object nat, useInvoices 0%nat list_ actions = list_ ++ actions.
Proof.
  exists ((fun k => (k, 0%nat)) <$> list_keys). refine (proj2 (hooks_give_the_actions 0%nat _ _ _)). reflexivity.
Defined.
