(* ===== verification/InvoiceDisplay.v ===== *)
(** * How an invoice is shown ([components/invoice/InvoiceTable.tsx], [InvoiceCard.tsx],
      [InvoiceCompareModal.tsx], [InvoiceStatus.tsx], [InvoiceStatusTimeline.tsx],
      [components/shared/VerificationBadge.tsx], [app/invoice/[invoiceId]/InvoiceDetailClient.tsx])

    The texts of a row, a card, a comparison and the detail page of one invoice, the
    buttons of the card, and the links that share an invoice.  The date formats of the
    browser are arguments; a due date and the clock are whole numbers, as in
    [InvoiceViews]. *)

From S2P Require Import Prelude JsNumber JsString JsValue JsJson Effects SdkTypes Schemas WebParsers.
From S2P Require Import Assets Timeline InvoiceViews.
Local Open Scope Z_scope.

(** ** Parts shared by the views *)
Definition discountText (discountBps : num) : string :=
  if Num.gtb discountBps Num.zero then Num.to_fixed (Num.div discountBps (Num.of_Z 100)) 2 +:+ "%" else em_dash.

(** [InvoiceStatus]: its label, and whether the icon pulses. *)
Definition status_label (s : InvoiceStatus) : string := "Invoice status: " +:+ status_name s.
Definition isPulsing (s : InvoiceStatus) : bool :=
  match s with Active | Funded | Listed => true | _ => false end.

Inductive VerificationState := Unverified | Verified | VerificationFailed.
Definition stateLabel (s : VerificationState) : string :=
  match s with Unverified => "Unverified" | Verified => "Verified" | VerificationFailed => "Verification failed" end.
Definition middle_dot : string := String (chr 183) "".
Definition badge (state : VerificationState) (riskScoreBps : option num) : string * string :=
  match state, riskScoreBps with
  | Verified, Some risk =>
      let score := Num.to_fixed (Num.div risk (Num.of_Z 100)) 1 in
      ("Verified " +:+ middle_dot +:+ " risk score " +:+ score +:+ "%",
       "Verification: verified, risk score " +:+ score +:+ " percent")
  | _, _ => (stateLabel state, "Verification: " +:+ stateLabel state)
  end.
(** [invoice.riskScoreBps != null]. *)
Definition riskScore (inv : Invoice) : option num := mjoin (inv_riskScoreBps inv).
Definition verificationState (inv : Invoice) : VerificationState :=
  match riskScore inv with Some _ => Verified | None => Unverified end.

Section Views.
(** [new Date(ms).toLocaleDateString()] and [toLocaleString()]. *)
Context (toLocaleDateString toLocaleString : num -> string).
Definition dateText (seconds : num) : string := toLocaleDateString (Num.mul seconds (Num.of_Z 1000)).
Definition timeText (seconds : num) : string := toLocaleString (Num.mul seconds (Num.of_Z 1000)).

(** ** The row of the table *)
Definition row_cells (inv : Invoice) : list string :=
  [truncateAddress (inv_id inv); truncateAddress (inv_buyer inv);
   formatAmount (Some (inv_faceValue inv)) (Some (inv_asset inv)); discountText (inv_discountBps inv);
   dateText (inv_dueDate inv); status_name (inv_status inv)].
Definition row_headings : list string := ["Invoice ID"; "Buyer"; "Face Value"; "Discount"; "Due Date"; "Status"].

(** ** The comparison *)
Definition badge_label (s : InvoiceStatus) : string :=
  match s with
  | Created => "CREATED" | Listed => "LISTED" | Funded => "FUNDED" | Active => "ACTIVE"
  | Confirmed => "CONFIRMED" | Repaid => "REPAID" | Defaulted => "DEFAULTED"
  end.
Definition COMPARISON_FIELDS : list (string * string * (Invoice -> string)) :=
  [("id", "Invoice ID", inv_id); ("issuer", "Issuer", inv_issuer); ("buyer", "Buyer", inv_buyer);
   ("faceValue", "Face Value", fun inv => formatAmount (Some (inv_faceValue inv)) (Some (inv_asset inv)));
   ("asset", "Asset", fun inv => asset_name (inv_asset inv));
   ("discountBps", "Discount Rate", fun inv => discountText (inv_discountBps inv));
   ("fundedAmount", "Funded Amount", fun inv => formatAmount (Some (inv_fundedAmount inv)) (Some (inv_asset inv)));
   ("dueDate", "Due Date", fun inv => dateText (inv_dueDate inv));
   ("createdAt", "Created", fun inv => timeText (inv_createdAt inv));
   ("status", "Status", fun inv => badge_label (inv_status inv))].
Definition compared (key : string) (inv : Invoice) : option string :=
  (fun f => f.2 inv) <$> find (fun f => String.eqb f.1.1 key) COMPARISON_FIELDS.

(** ** The card *)
Record CardView := {
  cv_title : string; cv_badge : string * string; cv_status : string; cv_faceValue : string; cv_discount : string;
  cv_buyer : string; cv_dueDate : string;
  cv_dueStatus : option string;                      (* shown until the invoice is settled *)
  cv_funded : option (string * option string) }.     (* once it has been funded *)
Definition days_text (days : Z) : string :=
  Num.bigint_to_string days +:+ " " +:+ (if days =? 1 then "day" else "days") +:+ " remaining".
Definition card_view (inv : Invoice) (due nowMs : Z) : CardView :=
  {| cv_title := "INV#" +:+ truncateAddress (inv_id inv);
     cv_badge := badge (verificationState inv) (riskScore inv); cv_status := status_name (inv_status inv);
     cv_faceValue := formatAmount (Some (inv_faceValue inv)) (Some (inv_asset inv));
     cv_discount := discountText (inv_discountBps inv); cv_buyer := truncateAddress (inv_buyer inv);
     cv_dueDate := dateText (inv_dueDate inv);
     cv_dueStatus :=
       match inv_status inv with
       | Repaid | Defaulted => None
       | _ => Some (if isOverdue due nowMs then "OVERDUE" else days_text (daysRemaining due nowMs))
       end;
     cv_funded :=
       match inv_status inv with
       | Created | Listed => None
       | _ => Some (formatAmount (Some (inv_fundedAmount inv)) (Some (inv_asset inv)),
                    t ← inv_fundedAt inv; if Num.truthy t then Some (dateText t) else None)
       end |}.

(** ** The detail page *)
Inductive Screen := Fetching | NotFound (text : string) | Ledger (invoice : jsval).
Definition screen (invoiceId : string) (isLoading : bool) (invoice : jsval) : Screen :=
  if isLoading then Fetching
  else if truthy invoice then Ledger invoice
  else NotFound ("The invoice ID: " +:+ invoiceId +:+ " was not found on-chain. Please verify the address.").

(** [seedInvoice]: what the server sent, as the first answer of the query. *)
Definition seedInvoice `{Zod} (initialInvoice : jsval) : res jsval :=
  match initialInvoice with JUndef => Ok JUndef | v => parseInvoiceResponse v end.

Definition escrow_held (s : InvoiceStatus) : bool :=
  match s with Funded | Active | Confirmed => true | _ => false end.
Definition escrow_amount (inv : Invoice) : string :=
  if escrow_held (inv_status inv) then formatAmount (Some (inv_faceValue inv)) (Some (inv_asset inv))
  else "0.00 " +:+ asset_name (inv_asset inv).
Definition escrow_condition (s : InvoiceStatus) : string :=
  match s with
  | Funded => "Locked (Awaiting SME shipment proof)"
  | Active => "Locked (Goods Shipped, Awaiting Buyer delivery confirmation)"
  | Confirmed => "Active (Delivered, Awaiting Buyer repayment)"
  | Repaid => "Released (Repayment completed)"
  | _ => "Unlocked / Empty"
  end.
Definition maturity_status (s : InvoiceStatus) (due nowMs : Z) : string :=
  if isOverdue due nowMs && negb (bool_decide (s = Repaid)) then "OVERDUE"
  else Num.bigint_to_string (daysRemaining due nowMs) +:+ " days remaining".
Record DetailView := {
  dv_heading : string; dv_status : string; dv_hash : string; dv_faceValue : string; dv_issuer : string;
  dv_buyer : string; dv_escrow : string * string; dv_dueDate : string; dv_maturity : string; dv_discount : string;
  dv_fee : string }.
Definition detail_view (inv : Invoice) (due nowMs : Z) : DetailView :=
  {| dv_heading := "Invoice #" +:+ truncateAddress (inv_id inv); dv_status := status_name (inv_status inv);
     dv_hash := inv_id inv; dv_faceValue := formatAmount (Some (inv_faceValue inv)) None;
     dv_issuer := inv_issuer inv; dv_buyer := inv_buyer inv;
     dv_escrow := (escrow_amount inv, escrow_condition (inv_status inv));
     dv_dueDate := dateText (inv_dueDate inv); dv_maturity := maturity_status (inv_status inv) due nowMs;
     dv_discount := discountText (inv_discountBps inv);
     dv_fee := formatAmount (Some (inv_faceValue inv - inv_fundedAmount inv)) (Some (inv_asset inv)) |}.
End Views.

(** ** The timeline *)
(** The state of an entry in words, and whether the line below it is solid. *)
Definition entry_state (e : InvoiceTimelineEntry) : string :=
  if te_isCurrent e then "Current step" else if te_isComplete e then "Completed" else "Upcoming".
Definition solid_line (currentIndex index : nat) : bool := (index <? currentIndex)%nat.
Definition line_below (entries currentIndex index : nat) : option bool :=
  if (index <? entries - 1)%nat then Some (solid_line currentIndex index) else None.
Definition entry_link (e : InvoiceTimelineEntry) : option (string * string) :=
  match te_txHash e with
  | JStr h => if String.eqb h "" then None
              else Some ("https://stellar.expert/explorer/testnet/tx/" +:+ h, truncateTxHash h)
  | _ => None
  end.

(** ** The copy buttons of the page *)
Inductive CopyIcon := CircleAlert | Check | CopyMark.
Definition copy_icon (s : InvoiceViews.Copy.state) (key : InvoiceViews.Copy.CopyKey) : CopyIcon :=
  let shows (k : option InvoiceViews.Copy.CopyKey) := match k, key with
    | Some InvoiceViews.Copy.Id, InvoiceViews.Copy.Id
    | Some InvoiceViews.Copy.IssuerAddress, InvoiceViews.Copy.IssuerAddress
    | Some InvoiceViews.Copy.BuyerAddress, InvoiceViews.Copy.BuyerAddress
    | Some InvoiceViews.Copy.Link, InvoiceViews.Copy.Link => true
    | _, _ => false
    end in
  if shows (InvoiceViews.Copy.copyFailedKey s) then CircleAlert
  else if shows (InvoiceViews.Copy.copiedKey s) then Check else CopyMark.

(** ** The buttons of the card *)
(** What a press does: nothing, the listing form, the action, or the dialog that asks
    first.  Actions carry the message of a failure. *)
Inductive Response := Ignored | OpensForm | Runs (o : Offer) (errorMsg : string)
  | AsksFirst (label : string) (o : Offer) (errorMsg : string).
Definition card_press (isVerified : bool) (o : Offer) : Response :=
  if negb isVerified then Ignored
  else match o with
  | ListTerms => OpensForm
  | FundOffer => Runs FundOffer "Failed to fund invoice"
  | ShipOffer => Runs ShipOffer "Failed to mark as shipped"
  | ConfirmOffer => AsksFirst "Confirm Delivery" ConfirmOffer "Failed to confirm delivery"
  | RepayOffer => AsksFirst "Repay Invoice" RepayOffer "Failed to repay invoice"
  | DefaultOffer => AsksFirst "Trigger Default" DefaultOffer "Failed to trigger default"
  end.
Definition card_button (loading : bool) (o : Offer) : string :=
  match o with
  | ListTerms => "Configure financing terms"
  | FundOffer => if loading then "FUNDING ON-CHAIN..." else "FUND INVOICE"
  | ShipOffer => if loading then "SHIPPING..." else "MARK GOODS SHIPPED"
  | ConfirmOffer => if loading then "CONFIRMING..." else "CONFIRM DELIVERY"
  | RepayOffer => if loading then "REPAYING..." else "REPAY INVOICE"
  | DefaultOffer => if loading then "TRIGGERING DEFAULT..." else "TRIGGER DEFAULT"
  end.

(** ** Sharing *)
(** [encodeURIComponent], on strings in which the em dash is its stand-in. *)
Fixpoint encodeURIComponent (s : string) : string :=
  match s with
  | EmptyString => ""
  | String c r =>
      (if Ascii.eqb c (chr 151) then "%E2%80%94" else Uri.encode_component (String c "")) +:+ encodeURIComponent r
  end.
Definition whatsappUrl (shareMessage invoiceUrl : string) : string :=
  "https://wa.me/?text=" +:+ encodeURIComponent (shareMessage +:+ " " +:+ invoiceUrl).
Definition telegramUrl (shareMessage invoiceUrl : string) : string :=
  "https://t.me/share/url?url=" +:+ encodeURIComponent invoiceUrl +:+ "&text=" +:+ encodeURIComponent shareMessage.

(** The reader of such a link, as the URL standard has it: the pairs of the query, percent
    decoded as UTF-8. *)
Definition hex_value (c : ascii) : option Z :=
  let n := code c in
  if in_range 48 57 c then Some (n - 48) else if in_range 65 70 c then Some (n - 55) else None.
Definition byte_of (a b : ascii) : option Z :=
  h ← hex_value a; l ← hex_value b; Some (16 * h + l).
Fixpoint percent_decode (s : string) : option string :=
  match s with
  | String "%" (String a (String b r)) =>
      n ← byte_of a b;
      if n <? 128 then String (chr n) <$> percent_decode r
      else match r with
      | String "%" (String a2 (String b2 r2)) =>
          m ← byte_of a2 b2;
          if n <? 224 then String (chr ((n - 192) * 64 + (m - 128))) <$> percent_decode r2
          else match r2 with
          | String "%" (String a3 (String b3 r3)) =>
              k ← byte_of a3 b3;
              if bool_decide (n = 226 /\ m = 128 /\ k = 148) then String (chr 151) <$> percent_decode r3 else None
          | _ => None
          end
      | _ => None
      end
  | String "%" _ => None
  | String c r => String c <$> percent_decode r
  | EmptyString => Some ""
  end.
(** The text before the first [c] and the text after it. *)
Fixpoint cut_at (c : ascii) (s : string) : string * option string :=
  match s with
  | EmptyString => ("", None)
  | String d r => if Ascii.eqb d c then ("", Some r) else let '(a, b) := cut_at c r in (String d a, b)
  end.
Definition parameter (pair : string) : option (string * string) :=
  let '(k, v) := cut_at "=" pair in v ← v; v ← percent_decode v; Some (k, v).
Definition parameters (url : string) : option (list (string * string)) :=
  match (cut_at "?" url).2 with
  | None => Some []
  | Some q =>
      let '(first, rest) := cut_at "&" q in
      match rest with
      | None => p ← parameter first; Some [p]
      | Some rest => p ← parameter first; q ← parameter rest; Some [p; q]
      end
  end.

Example share_tests :
  encodeURIComponent ("a & b=" +:+ em_dash) = "a%20%26%20b%3D%E2%80%94" /\
  percent_decode "a%20%26%20b%3D%E2%80%94%C3%A9" = Some ("a & b=" +:+ em_dash +:+ String (chr 233) "") /\
  parameters (telegramUrl "m&m" "https://t/invoice/1?x=1") = Some [("url", "https://t/invoice/1?x=1"); ("text", "m&m")].
Proof. vm_compute. repeat split. Qed.

(** *** Round trip *)
Lemma percent_decode_char c s :
  percent_decode ((if Ascii.eqb c (chr 151) then "%E2%80%94" else Uri.encode_component (String c "")) +:+ s) =
  String c <$> percent_decode s.
Proof. destruct c as [[] [] [] [] [] [] [] []]; reflexivity. Qed.

Lemma percent_decode_encode s : percent_decode (encodeURIComponent s) = Some s.
Proof.
  induction s as [|c s IH]; [done|]. cbn [encodeURIComponent]. by rewrite percent_decode_char, IH.
Qed.

Fixpoint lacks (c : ascii) (s : string) : bool :=
  match s with EmptyString => true | String d r => negb (Ascii.eqb d c) && lacks c r end.
Lemma lacks_app c a b : lacks c (a +:+ b) = lacks c a && lacks c b.
Proof. induction a as [|d a IH]; [done|]. cbn. by rewrite IH, andb_assoc. Qed.
Lemma cut_at_lacks c a s : lacks c a = true -> cut_at c (a +:+ s) = let '(x, y) := cut_at c s in (a +:+ x, y).
Proof.
  induction a as [|d a IH]; cbn; intros H; [by destruct (cut_at c s)|].
  apply andb_true_iff in H as [Hd H]. apply negb_true_iff in Hd. rewrite Hd, IH by done. by destruct (cut_at c s).
Qed.
Lemma cut_at_end c a : lacks c a = true -> cut_at c a = (a, None).
Proof. intros H. pose proof (cut_at_lacks c a "" H) as E. cbn in E. by rewrite !app_nil_str in E. Qed.

(** An encoded text has none of the characters that separate parameters. *)
Definition separator (c : ascii) : bool := existsb (Ascii.eqb c) ["?"; "&"; "="]%char.
Lemma encoded_lacks c s : separator c = true -> lacks c (encodeURIComponent s) = true.
Proof.
  intros Hc. induction s as [|d s IH]; [done|]. cbn [encodeURIComponent]. rewrite lacks_app, IH, andb_true_r.
  unfold separator in Hc. cbn in Hc. rewrite orb_false_r in Hc.
  destruct (Ascii.eqb_spec c "?") as [->|_]; [|destruct (Ascii.eqb_spec c "&") as [->|_];
    [|destruct (Ascii.eqb_spec c "=") as [->|_]; [|done]]]; clear; destruct d as [[] [] [] [] [] [] [] []]; reflexivity.
Qed.

Lemma parameter_encoded k v : lacks "=" k = true -> parameter (k +:+ "=" +:+ encodeURIComponent v) = Some (k, v).
Proof.
  intros Hk. unfold parameter. rewrite cut_at_lacks by done. cbn. by rewrite app_nil_str, percent_decode_encode.
Qed.

Lemma query_parameters base q rest : lacks "?" base = true -> lacks "&" q = true ->
  parameters (base +:+ "?" +:+ q +:+ match rest with Some r => "&" +:+ r | None => "" end) =
  match rest with
  | None => p ← parameter q; Some [p]
  | Some rest => p ← parameter q; q ← parameter rest; Some [p; q]
  end.
Proof.
  intros Hb Hq. unfold parameters. rewrite cut_at_lacks by done. cbn. rewrite cut_at_lacks by done.
  destruct rest; cbn; by rewrite app_nil_str.
Qed.
Lemma pair_lacks k v c : separator c = true -> lacks c (k +:+ "=") = true ->
  lacks c (k +:+ "=" +:+ encodeURIComponent v) = true.
Proof. intros Hc Hk. rewrite <- app_assoc_str, lacks_app, Hk. by apply encoded_lacks. Qed.

(** The links to share an invoice carry the text and the address of the page whatever
    characters they contain: a reader of the link gets the message followed by the address
    from WhatsApp's, and the two of them apart from Telegram's. *)
Theorem share_links_carry_the_invoice message url :
  parameters (whatsappUrl message url) = Some [("text", message +:+ " " +:+ url)] /\
  parameters (telegramUrl message url) = Some [("url", url); ("text", message)].
Proof.
  split.
  - pose proof (query_parameters "https://wa.me/" ("text" +:+ "=" +:+ encodeURIComponent (message +:+ " " +:+ url)) None
      eq_refl (pair_lacks "text" _ "&" eq_refl eq_refl)) as E.
    rewrite !app_nil_str, parameter_encoded in E by done. exact E.
  - pose proof (query_parameters "https://t.me/share/url" ("url" +:+ "=" +:+ encodeURIComponent url)
      (Some ("text" +:+ "=" +:+ encodeURIComponent message)) eq_refl (pair_lacks "url" _ "&" eq_refl eq_refl)) as E.
    rewrite !parameter_encoded in E by done. cbn [mbind option_bind] in E. rewrite <- E. f_equal.
Qed.

(** ** Agreement of the views *)
Lemma gtb_zero_truthy n : Num.gtb n Num.zero = true -> Num.truthy n = true.
Proof. by destruct n as [[]|[]| |[]]. Qed.

(** The rate of the exported document is that of the views, for the rates an invoice can be
    listed with. *)
Lemma exported_rate bps : validateDiscountBps bps = true -> formatDiscountRate bps = discountText bps.
Proof.
  unfold validateDiscountBps, discountText, formatDiscountRate. rewrite !andb_true_iff. intros [[_ H] _].
  by rewrite H, (gtb_zero_truthy bps H).
Qed.

Lemma unit_of_amount z a b : formatAmount (Some z) (Some a) = formatAmount (Some z) (Some b) -> a = b.
Proof.
  unfold formatAmount. generalize (default "∞" (Num.to_locale2 (Num.div (Num.of_Z z) (Num.of_Z STROOP_DIVISOR)))).
  intros x H. induction x as [|c x IH]; cbn in H; [by destruct a, b|]. injection H as H. by apply IH.
Qed.

(** A text with a space in it is not the word. *)
Lemma days_not_overdue a b : a +:+ " " +:+ b <> "OVERDUE".
Proof. intros E. apply (f_equal (lacks " ")) in E. rewrite lacks_app in E. cbn in E. by rewrite andb_false_r in E. Qed.

Section Agreement.
Context (toLocaleDateString toLocaleString : num -> string).
Abbreviation row := (row_cells toLocaleDateString).
Abbreviation card := (card_view toLocaleDateString).
Abbreviation detail := (detail_view toLocaleDateString).
Abbreviation compare := (compared toLocaleDateString toLocaleString).

(** The table, the card, the comparison and the detail page show the same amount,
    rate, date and status of an invoice, and the exported document the same rate; card and
    page call an unsettled invoice overdue at the same time, and the page does whenever it
    offers the default.  The one exception is the amount in the heading of the detail page,
    which is that of the other views for USDC only. *)
Theorem views_agree inv due nowMs :
  let c := card inv due nowMs in let d := detail inv due nowMs in let s := inv_status inv in
  (row inv !! 2%nat = Some (cv_faceValue c) /\ compare "faceValue" inv = Some (cv_faceValue c) /\
   (dv_faceValue d = cv_faceValue c <-> inv_asset inv = USDC)) /\
  (row inv !! 3%nat = Some (cv_discount c) /\ compare "discountBps" inv = Some (cv_discount c) /\
   dv_discount d = cv_discount c /\
   (validateDiscountBps (inv_discountBps inv) = true -> formatDiscountRate (inv_discountBps inv) = cv_discount c)) /\
  (row inv !! 4%nat = Some (cv_dueDate c) /\ compare "dueDate" inv = Some (cv_dueDate c) /\ dv_dueDate d = cv_dueDate c) /\
  (row inv !! 5%nat = Some (cv_status c) /\ dv_status d = cv_status c) /\
  (s <> Repaid -> s <> Defaulted -> (cv_dueStatus c = Some "OVERDUE" <-> dv_maturity d = "OVERDUE")) /\
  (forall connected v, v_status v = s -> v_overdue v = isOverdue due nowMs ->
     Page.canDefault connected v = true -> dv_maturity d = "OVERDUE").
Proof.
  cbn zeta. split_and!; try reflexivity.
  - cbn. split; [intros H|intros ->; reflexivity]. symmetry. exact (unit_of_amount _ USDC _ H).
  - exact (exported_rate _).
  - intros H1 H2. cbn. unfold maturity_status. rewrite bool_decide_eq_false_2 by done. rewrite andb_true_r.
    destruct (inv_status inv); try done; destruct (isOverdue due nowMs); try done.
    all: cbn; split; [intros [= E]; by apply days_not_overdue in E|].
    all: intros E; by apply (days_not_overdue _ "days remaining") in E.
  - intros connected v Hs Ho H. apply andb_true_iff in H as [H Hd]. apply andb_true_iff in H as [_ H].
    unfold is_status in H. apply bool_decide_eq_true in H. cbn. unfold maturity_status.
    rewrite <- Hs, <- Ho, H, Hd. reflexivity.
Qed.
End Agreement.

(** An invoice that was repaid counts negative days once its due date is past. *)
Lemma repaid_counts_negative_days :
  maturity_status Repaid 0 (12 * 86400000) = "-12 days remaining" /\
  maturity_status Confirmed 0 (12 * 86400000) = "OVERDUE".
Proof. split; reflexivity. Qed.

(** The fee shown for an invoice that is not funded is its whole face value. *)
Lemma unfunded_fee_is_the_face_value date inv due nowMs : inv_fundedAmount inv = 0 ->
  dv_fee (detail_view date inv due nowMs) = cv_faceValue (card_view date inv due nowMs).
Proof. intros H. cbn. by rewrite H, Z.sub_0_r. Qed.

(** The card does nothing without verification, and asks first exactly for the steps that
    the detail page asks first for, shipping excepted. *)
Lemma card_press_asks o :
  card_press false o = Ignored /\
  ((exists label m, card_press true o = AsksFirst label o m) <-> o = ConfirmOffer \/ o = RepayOffer \/ o = DefaultOffer).
Proof.
  split; [done|]. destruct o; cbn; split; try (intros (? & ? & [=])); try (intros [|[|]]; discriminate); eauto.
Qed.

(** The line below an entry is solid exactly up to the current step. *)
Lemma entry_states label invoice i step e : timeline_entry label invoice i step = Ok e ->
  (entry_state e = "Current step" <-> i = getCurrentTimelineIndex invoice) /\
  (entry_state e = "Completed" <-> solid_line (getCurrentTimelineIndex invoice) i = true) /\
  (entry_state e = "Upcoming" <-> (getCurrentTimelineIndex invoice < i)%nat).
Proof.
  intros H. unfold timeline_entry in H. apply bind_ok in H as (l & _ & [= <-]).
  unfold entry_state, solid_line. cbn [te_isCurrent te_isComplete].
  destruct (Nat.eqb_spec i (getCurrentTimelineIndex invoice)), (Nat.leb_spec i (getCurrentTimelineIndex invoice)),
    (Nat.ltb_spec i (getCurrentTimelineIndex invoice)); try lia; split_and!; split; (done || lia).
Qed.
