(* ===== verification/InvoiceGrid.v ===== *)
(** * The pager and the rows of the invoice table ([components/invoice/InvoiceTable.tsx])

    The field and the buttons that ask for a page, and the rows with their selection and
    tab order.  Which rows are rendered is up to the virtualiser, an argument: a list of
    indices of rows, empty where it does not measure.  The arithmetic of pages and of
    selections is that of [InvoiceTable]. *)

From S2P Require Import Prelude JsNumber JsRounding JsString SdkTypes.
From S2P Require Import Marketplace InvoiceTable.
Local Open Scope Z_scope.

(** ** The pager *)
Module Pager.
Record props := { page : num; totalPages : num; limit : Z; total : Z }.
Record state := { given : props; pageInput : string }.
Definition mount (p : props) : state := {| given := p; pageInput := Num.to_string (page p) |}.
Inductive event :=
  | Typed (text : string)
  | Commit                 (* blur, or Enter in the field *)
  | Previous | Following   (* the buttons *)
  | ChooseLimit (limit : num)
  | Rerender (p : props).
Inductive ask := AskPage (page : num) | AskLimit (limit : num).
Definition previousDisabled (p : props) : bool := Num.leb (page p) (Num.of_Z 1).
Definition followingDisabled (p : props) : bool := Num.leb (totalPages p) (page p).
Definition with_input (s : state) (text : string) : state := {| given := given s; pageInput := text |}.
Definition step (s : state) (e : event) : state * option ask :=
  let p := given s in
  match e with
  | Typed text => (with_input s text, None)
  | Commit => let '(text, asked) := handleCommitPage (pageInput s) (page p) (totalPages p) in
              (with_input s text, AskPage <$> asked)
  | Previous => (s, if previousDisabled p then None
                    else Some (AskPage (clampPage (Num.sub (page p) (Num.of_Z 1)) (totalPages p))))
  | Following => (s, if followingDisabled p then None
                     else Some (AskPage (clampPage (Num.add (page p) (Num.of_Z 1)) (totalPages p))))
  | ChooseLimit l => (s, Some (AskLimit l))
  | Rerender p' =>
      ({| given := p';
          pageInput := if decide (page p' = page p) then pageInput s else Num.to_string (page p') |}, None)
  end.
Definition showing (p : props) (page_ : Z) : string :=
  let text z := Num.to_string (Num.of_Z z) in
  "Showing " +:+ text (startItem page_ (limit p) (total p)) +:+ "-" +:+ text (endItem page_ (limit p) (total p)) +:+
  " of " +:+ text (total p) +:+ " invoices".
Definition page_of (p : props) : string :=
  "Page " +:+ Num.to_string (page p) +:+ " of " +:+ Num.to_string (totalPages p).
End Pager.

(** ** The rows *)
Module Grid.
Definition ROW_HEIGHT : Z := 72.
Section Rows.
Context {I : Type} (id : I -> string) (cells : I -> list string).
Record props := {
  invoices : list I; activeId : option string; selectable : bool; selection : list string;
  interactive : bool }.     (* [onSelectInvoice] is given *)
Record row := { r_key : string; r_selected : bool; r_tabIndex : option Z; r_start : Z; r_cells : list string;
                r_checked : option bool }.

Definition rowsToRender (p : props) (virtual : list nat) : list nat :=
  match virtual with [] => seq 0 (length (invoices p)) | _ => virtual end.
(** [virtualSize] is the height the virtualiser gives. *)
Definition totalHeight (p : props) (virtual : list nat) (virtualSize : Z) : Z :=
  match virtual with [] => Z.of_nat (length (invoices p)) * ROW_HEIGHT | _ => virtualSize end.
Definition render_row (p : props) (focusedIndex : Z) (i : nat) (start : Z) (inv : I) : row :=
  let isChecked := bool_decide (id inv ∈ selection p) in
  {| r_key := id inv;
     r_selected := if selectable p then isChecked else bool_decide (activeId p = Some (id inv));
     r_tabIndex := if interactive p then Some (if Z.of_nat i =? focusedIndex then 0 else -1) else None;
     r_start := start; r_cells := cells inv;
     r_checked := if selectable p then Some isChecked else None |}.
(** [start] is the offset the virtualiser gives, or that of the row. *)
Definition render (p : props) (virtual : list nat) (start : nat -> Z) (focusedIndex : Z) : list row :=
  omap (fun i => render_row p focusedIndex i
    (match virtual with [] => Z.of_nat i * ROW_HEIGHT | _ => start i end) <$> invoices p !! i) (rowsToRender p virtual).

Inductive key := Move (k : Key) | Activate | OtherKey.
Inductive event :=
  | RowClick (i : nat) | RowFocus (i : nat)
  | RowKey (i : nat) (k : key) (on_row : bool).   (* [event.target === event.currentTarget] *)
(** The next roving index, and the invoice passed to [onSelectInvoice]. *)
Definition step (p : props) (focusedIndex : Z) (e : event) : Z * option I :=
  match e with
  | RowClick i => if interactive p then (Z.of_nat i, invoices p !! i) else (focusedIndex, None)
  | RowFocus i => (Z.of_nat i, None)
  | RowKey i k on_row =>
      if negb (interactive p) || negb on_row then (focusedIndex, None)
      else match k with
      | Move k => (InvoiceTable.handleRowKeyDown (Z.of_nat (length (invoices p))) focusedIndex k, None)
      | Activate => (focusedIndex, invoices p !! i)
      | OtherKey => (focusedIndex, None)
      end
  end.
(** The effect of a new roving index: the row that gets the focus. *)
Definition focused_row (p : props) (virtual : list nat) (focusedIndex : Z) : option nat :=
  find (fun i => Z.of_nat i =? focusedIndex) (rowsToRender p virtual).
End Rows.
Arguments props : clear implicits.

(** ** The empty table *)
Record EmptyStateAction := { label : string; href : option string }.
Record EmptyState := { e_title : string; e_description : string; e_link : option string; e_label : string }.
Definition InvoiceEmptyState (title description : option string) (action : option EmptyStateAction) : EmptyState :=
  let action := default {| label := "Create Your First Invoice"; href := Some "/dashboard" |} action in
  {| e_title := default "No invoices yet" title;
     e_description := default "Create your first invoice to start populating the ledger." description;
     e_link := if opt_str_truthy (href action) then href action else None; e_label := label action |}.

(** What the table shows: the empty state, or the rows and, if it pages, the pager. *)
Record Toolbar := { matching : option string; selected_text : option string; clear_shown : bool }.
Definition toolbar {I} (p : props I) (pagination : option Pager.props) : Toolbar :=
  {| matching := match pagination with
       | Some g => if (0 <? length (invoices p))%nat
                   then Some (Num.to_string (Num.of_Z (Pager.total g)) +:+ " matching invoices") else None
       | None => None
       end;
     selected_text := if selectable p
       then Some (Num.to_string (Num.of_Z (Z.of_nat (length (selection p)))) +:+ " selected") else None;
     clear_shown := selectable p && (0 <? length (selection p))%nat |}.
Definition pager_shown {I} (p : props I) (pagination : option Pager.props) : option Pager.props :=
  match invoices p with [] => None | _ => pagination end.
End Grid.

(** ** Properties of the pager *)
Section PagerFacts.
Import Pager.

Lemma clampPage_of_Z a t : Z.abs a < 2 ^ 53 -> Z.abs t < 2 ^ 53 ->
  clampPage (Num.of_Z a) (Num.of_Z t) = Num.of_Z (Z.min (Z.max a 1) (Z.max t 1)).
Proof.
  intros Ha Ht. unfold clampPage, math_min. rewrite !max_of_Z, !of_Z_not_nan by lia. cbn [orb].
  rewrite of_Z_ltb by lia. destruct (Z.ltb_spec (Z.max t 1) (Z.max a 1)); f_equal; lia.
Qed.

(** Whatever is typed or clicked on page [a] of [t], a page asked for is between the
    first and the last; the buttons ask for the neighbour of the current page, and are off
    exactly where there is none. *)
Theorem pager_asks_in_range s a t (Ha : 1 <= a <= t) (Ht : t < 2 ^ 52)
    (Hp : page (given s) = Num.of_Z a) (Hl : totalPages (given s) = Num.of_Z t) :
  (forall e n, (step s e).2 = Some (AskPage n) ->
     Num.leb (Num.of_Z 1) n = true /\ Num.leb n (Num.of_Z t) = true) /\
  (step s Previous).2 = (if a =? 1 then None else Some (AskPage (Num.of_Z (a - 1)))) /\
  (step s Following).2 = (if a =? t then None else Some (AskPage (Num.of_Z (a + 1)))).
Proof.
  assert (E1 : (step s Previous).2 = (if a =? 1 then None else Some (AskPage (Num.of_Z (a - 1))))).
  { cbn [step snd]. unfold previousDisabled. rewrite Hp, Hl, of_Z_leb by lia.
    destruct (Z.leb_spec a 1), (Z.eqb_spec a 1); try lia; [done|].
    rewrite sub_of_Z by lia. rewrite clampPage_of_Z by lia. repeat f_equal. lia. }
  assert (E2 : (step s Following).2 = (if a =? t then None else Some (AskPage (Num.of_Z (a + 1))))).
  { cbn [step snd]. unfold followingDisabled. rewrite Hp, Hl, of_Z_leb by lia.
    destruct (Z.leb_spec t a), (Z.eqb_spec a t); try lia; [done|].
    rewrite add_of_Z by lia. rewrite clampPage_of_Z by lia. repeat f_equal. lia. }
  split_and!; [|exact E1|exact E2]. intros e n H.
  assert (Hz : forall z, n = Num.of_Z z -> 1 <= z <= t -> Num.leb (Num.of_Z 1) n = true /\ Num.leb n (Num.of_Z t) = true).
  { intros z -> Hz. rewrite !of_Z_leb by lia. split; apply Z.leb_le; lia. }
  destruct e; try discriminate.
  - cbn [step] in H. pose proof (handleCommitPage_spec (pageInput s) (page (given s)) (totalPages (given s))) as [Hc _].
    { rewrite Hl. apply of_Z_not_nan. lia. }
    destruct (handleCommitPage _ _ _) as [text [m|]]; [|done]. injection H as <-. destruct Hc as (_ & H1 & H2).
    rewrite Hl, max_of_Z in H2 by lia. by replace (Z.max t 1) with t in H2 by lia.
  - rewrite E1 in H. destruct (Z.eqb_spec a 1); [done|]. injection H as <-. apply (Hz (a - 1)); [done|lia].
  - rewrite E2 in H. destruct (Z.eqb_spec a t); [done|]. injection H as <-. apply (Hz (a + 1)); [done|lia].
Qed.

(** A page that is asked for while it is shown does not change the field: what was typed
    stays there. *)
Lemma typed_page_stays p : page p = Num.of_Z 3 -> totalPages p = Num.of_Z 3 ->
  let '(s, asked) := step (step (mount p) (Typed "999")).1 Commit in
  asked = Some (AskPage (Num.of_Z 3)) /\ pageInput (step s (Rerender p)).1 = "999".
Proof.
  intros Hp Ht. cbn [step mount with_input given pageInput fst]. rewrite Hp, Ht.
  replace (handleCommitPage "999" (Num.of_Z 3) (Num.of_Z 3)) with ("999", Some (Num.of_Z 3)) by (vm_compute; reflexivity).
  split; [done|]. cbn [step given pageInput fst with_input]. by rewrite decide_True.
Qed.
End PagerFacts.

Lemma pager_asks_in_range_witness :
  let p := {| Pager.page := Num.of_Z 2; Pager.totalPages := Num.of_Z 3; Pager.limit := 10; Pager.total := 25 |} in
  (Pager.step (Pager.mount p) Pager.Following).2 = Some (Pager.AskPage (Num.of_Z 3)).
Proof.
  exact (proj2 (proj2 (pager_asks_in_range
    (Pager.mount {| Pager.page := Num.of_Z 2; Pager.totalPages := Num.of_Z 3; Pager.limit := 10; Pager.total := 25 |})
    2 3 ltac:(lia) ltac:(lia) eq_refl eq_refl))).
Defined.

(** ** Properties of the rows *)
Section GridFacts.
Import Grid.
Context {I : Type} (id : I -> string) (cells : I -> list string) (start : nat -> Z).

Definition in_tab_order (r : row) : bool := bool_decide (r_tabIndex r = Some 0).
Definition at_index (p : props I) (virtual : list nat) (f : Z) (i : nat) : option row :=
  render_row id cells p f i (match virtual with [] => Z.of_nat i * ROW_HEIGHT | _ => start i end) <$> invoices p !! i.

Lemma row_in_tab_order p f i s inv : interactive p = true ->
  in_tab_order (render_row id cells p f i s inv) = (Z.of_nat i =? f).
Proof. intros Hi. unfold in_tab_order, render_row. cbn. rewrite Hi. by destruct (Z.of_nat i =? f). Qed.

Lemma tab_order_of l p virtual f : interactive p = true -> NoDup l -> Forall (fun i => i < length (invoices p))%nat l ->
  List.filter in_tab_order (omap (at_index p virtual f) l) =
  option_list (find (fun i => Z.of_nat i =? f) l ≫= at_index p virtual f).
Proof.
  intros Hi. induction l as [|i l IH]; intros Hn Hl; [done|].
  apply list.NoDup_cons in Hn as [Hni Hn]. apply list.Forall_cons in Hl as [Hil Hl]. cbn.
  destruct (lookup_lt_is_Some_2 _ _ Hil) as [inv Hinv]. unfold at_index at 1. rewrite Hinv. cbn.
  rewrite row_in_tab_order, IH by done. destruct (Z.eqb_spec (Z.of_nat i) f) as [E|E]; [|done].
  cbn. unfold at_index at 2. rewrite Hinv. cbn.
  destruct (find _ l) as [j|] eqn:Hj; [|done]. apply List.find_some in Hj as [Hj Hjf].
  apply Z.eqb_eq in Hjf. assert (i = j) as -> by lia. by apply list_elem_of_In in Hj.
Qed.

(** The rows rendered are rows of the table, once each. *)
Record rendered (p : props I) (virtual : list nat) : Prop := {
  rd_nodup : NoDup virtual;
  rd_range : Forall (fun i => i < length (invoices p))%nat virtual }.
Lemma rendered_rows (p : props I) virtual : rendered p virtual ->
  NoDup (rowsToRender p virtual) /\ Forall (fun i => i < length (invoices p))%nat (rowsToRender p virtual).
Proof.
  intros [Hn Hr]. destruct virtual; [|done]. cbn. split; [apply NoDup_seq|].
  apply list.Forall_forall. intros i Hi. apply elem_of_seq in Hi. lia.
Qed.

(** The tab order has the row that a new roving index focuses, and no other. *)
Lemma tab_order_follows_focus (p : props I) virtual f : interactive p = true -> rendered p virtual ->
  List.filter in_tab_order (render id cells p virtual start f) =
  option_list (focused_row p virtual f ≫= at_index p virtual f).
Proof. intros Hi Hr. destruct (rendered_rows p virtual Hr) as [Hn Hl]. by apply tab_order_of. Qed.

Lemma focused_in_range (p : props I) f : reachable (Z.of_nat (length (invoices p))) f = true -> focused_row p [] f = Some (Z.to_nat f).
Proof.
  unfold reachable. intros [H1%Z.leb_le H2%Z.ltb_lt]%andb_prop. unfold focused_row. cbn.
  destruct (find _ _) as [j|] eqn:Hj.
  - apply List.find_some in Hj as [_ Hj]. apply Z.eqb_eq in Hj. f_equal. lia.
  - apply List.find_none with (x := Z.to_nat f) in Hj; [apply Z.eqb_neq in Hj; lia|]. apply in_seq. lia.
Qed.

Definition event_in (p : props I) (e : event) : Prop :=
  match e with RowClick i | RowFocus i | RowKey i _ _ => (i < length (invoices p))%nat end.
Lemma step_reachable (p : props I) f e : event_in p e -> reachable (Z.of_nat (length (invoices p))) f = true ->
  reachable (Z.of_nat (length (invoices p))) (step p f e).1 = true.
Proof.
  intros He Hf.
  assert (Hi : forall i, (i < length (invoices p))%nat -> reachable (Z.of_nat (length (invoices p))) (Z.of_nat i) = true).
  { intros i Hi. unfold reachable. apply andb_true_intro. rewrite Z.leb_le, Z.ltb_lt. lia. }
  destruct e as [i|i|i k b]; cbn in *; [destruct (interactive p); [by apply Hi|done]|by apply Hi|].
  destruct (negb (interactive p) || negb b); [done|]. destruct k; [|done..]. apply roving_stays; [lia|done].
Qed.

(** In a table whose rows can be opened and are all rendered, whatever keys, clicks and
    focus events its rows receive, exactly one row is in the tab order, and it is the one
    the roving index focuses; a row is opened exactly by a click on it, or by Enter or the
    space bar pressed on the row itself. *)
Theorem one_row_in_tab_order (p : props I) es (Hi : interactive p = true) (Hn : (0 < length (invoices p))%nat)
    (He : Forall (event_in p) es) :
  let f := foldl (fun f e => (step p f e).1) 0 es in
  (exists i r, focused_row p [] f = Some i /\ at_index p [] f i = Some r /\
               List.filter in_tab_order (render id cells p [] start f) = [r]) /\
  (forall f e inv, (step p f e).2 = Some inv <->
     exists i, invoices p !! i = Some inv /\ (e = RowClick i \/ e = RowKey i Activate true)).
Proof.
  cbn zeta. split.
  - assert (Hf : forall f, reachable (Z.of_nat (length (invoices p))) f = true ->
      reachable (Z.of_nat (length (invoices p))) (foldl (fun f e => (step p f e).1) f es) = true).
    { induction He as [|e es H _ IH]; intros f Hf; [done|]. cbn. apply IH. by apply step_reachable. }
    assert (H0 : reachable (Z.of_nat (length (invoices p))) 0 = true) by (apply andb_true_intro; rewrite Z.leb_le, Z.ltb_lt; lia).
    specialize (Hf 0 H0). set (f := foldl _ 0 es) in *. pose proof (focused_in_range p f Hf) as E.
    apply andb_prop in Hf as [H1%Z.leb_le H2%Z.ltb_lt].
    destruct (lookup_lt_is_Some_2 (invoices p) (Z.to_nat f) ltac:(lia)) as [inv Hinv].
    assert (Hat : at_index p [] f (Z.to_nat f) = Some (render_row id cells p f (Z.to_nat f) (Z.of_nat (Z.to_nat f) * ROW_HEIGHT) inv))
      by (unfold at_index; by rewrite Hinv).
    eexists _, _. split_and!; [exact E|exact Hat|].
    rewrite tab_order_follows_focus by (done || (split; constructor)). rewrite E. cbn [mbind option_bind]. by rewrite Hat.
  - intros f e inv. destruct e as [i|i|i k b]; cbn; rewrite ?Hi; cbn.
    + split; [intros H; exists i; auto|]. intros (j & Hj & [[= <-]|[=]]). done.
    + split; [done|]. by intros (j & _ & [|]).
    + split.
      * destruct b; [|done]. destruct k; try done. intros H. exists i. auto.
      * by intros (j & Hj & [[=]|[= <- -> ->]]).
Qed.

(** With a window of rows, a key may move the index to a row that is not rendered: then no
    row gets the focus and none is in the tab order. *)
Lemma end_leaves_the_window (p : props I) virtual f i : interactive p = true -> rendered p virtual -> virtual <> [] ->
  (length (invoices p) - 1)%nat ∉ virtual -> (i < length (invoices p))%nat ->
  let f' := (step p f (RowKey i (Move End_) true)).1 in
  focused_row p virtual f' = None /\ List.filter in_tab_order (render id cells p virtual start f') = [].
Proof.
  intros Hi Hr Hne Hlast Hlt. cbn. rewrite Hi. cbn.
  assert (E : focused_row p virtual (Z.of_nat (length (invoices p)) - 1) = None).
  { unfold focused_row. destruct virtual as [|j l]; [done|]. cbn [rowsToRender].
    destruct (find _ _) as [k|] eqn:Hk; [|done]. apply List.find_some in Hk as [Hk Hf].
    apply Z.eqb_eq in Hf. apply list_elem_of_In in Hk. destruct Hlast.
    by replace (length (invoices p) - 1)%nat with k by lia. }
  split; [done|]. rewrite tab_order_follows_focus by done. by rewrite E.
Qed.
End GridFacts.

Definition three_rows : Grid.props string :=
  {| Grid.invoices := ["a"; "b"; "c"]; Grid.activeId := None; Grid.selectable := false; Grid.selection := [];
     Grid.interactive := true |}.
Definition end_and_up : list Grid.event := [Grid.RowKey 0 (Grid.Move End_) true; Grid.RowKey 2 (Grid.Move ArrowUp) true].
Lemma one_row_in_tab_order_witness :
  let f := foldl (fun f e => (Grid.step three_rows f e).1) 0 end_and_up in
  f = 1 /\ exists i r, Grid.focused_row three_rows [] f = Some i /\
    at_index id (fun x => [x]) (fun _ => 0) three_rows [] f i = Some r /\
    List.filter in_tab_order (Grid.render id (fun x => [x]) three_rows [] (fun _ => 0) f) = [r].
Proof.
  split; [reflexivity|].
  exact (proj1 (one_row_in_tab_order id (fun x => [x]) (fun _ => 0) three_rows end_and_up eq_refl
    ltac:(cbn; lia) ltac:(repeat constructor; cbn; lia))).
Defined.
