(* ===== verification/Wire.v ===== *)
(** * What the indexer sends ([Raw*] of [apps/web/lib/api.ts])

    The wire shapes of the pool, of a position and of an event, and that the client reads
    them exactly: amounts travel as decimal strings, so none passes through a number.  The
    shapes are interfaces: an object has their members in any order and may have others, as
    the statistics have [updated_at] and a position its members sorted by name.  A response
    is the text of such an object, and white space may follow; it is read back by
    [JsonRoundTrip]. *)

From S2P Require Import Prelude JsNumber JsString JsValue JsJson JsonRoundTrip Effects Amounts SdkTypes.
From S2P Require Import WebParsers WebApi.
Import RoundTrip.
Local Open Scope Z_scope.

Record RawPoolStats := {
  total_deposits : string; total_funded : string; available_liquidity : string; utilization_rate_bps : num;
  total_yield_distributed : string; active_invoice_count : num; total_shares : option string }.
(** The objects of an interface. *)
Definition is_raw_pool_stats (fs : fields) (r : RawPoolStats) : Prop :=
  get fs "total_deposits" = Some (JStr (total_deposits r)) /\ get fs "total_funded" = Some (JStr (total_funded r)) /\
  get fs "available_liquidity" = Some (JStr (available_liquidity r)) /\
  get fs "utilization_rate_bps" = Some (JNum (utilization_rate_bps r)) /\
  get fs "total_yield_distributed" = Some (JStr (total_yield_distributed r)) /\
  get fs "active_invoice_count" = Some (JNum (active_invoice_count r)) /\
  get fs "total_shares" = JStr <$> total_shares r.

Record RawLPPosition := { shares : string; usdc_value : string; yield_earned : string; deposit_count : num }.
Definition is_raw_position (fs : fields) (r : RawLPPosition) : Prop :=
  get fs "shares" = Some (JStr (shares r)) /\ get fs "usdc_value" = Some (JStr (usdc_value r)) /\
  get fs "yield_earned" = Some (JStr (yield_earned r)) /\ get fs "deposit_count" = Some (JNum (deposit_count r)).

Record RawEventLog := {
  re_id : num; re_event_id : string; re_contract_id : string; re_ledger : num; re_ledger_closed_at : num;
  re_event_type : string; re_data : fields }.
Definition is_raw_event (fs : fields) (r : RawEventLog) : Prop :=
  get fs "id" = Some (JNum (re_id r)) /\ get fs "event_id" = Some (JStr (re_event_id r)) /\
  get fs "contract_id" = Some (JStr (re_contract_id r)) /\ get fs "ledger" = Some (JNum (re_ledger r)) /\
  get fs "ledger_closed_at" = Some (JNum (re_ledger_closed_at r)) /\ get fs "event_type" = Some (JStr (re_event_type r)) /\
  get fs "data" = Some (JObj (re_data r)).

(** An amount on the wire. *)
Definition decimal (z : Z) : string := Num.bigint_to_string z.
Definition pool_wire (p : PoolStats) : RawPoolStats :=
  {| total_deposits := decimal (ps_totalDeposits p); total_funded := decimal (ps_totalFunded p);
     available_liquidity := decimal (ps_availableLiquidity p); utilization_rate_bps := ps_utilizationRateBps p;
     total_yield_distributed := decimal (ps_totalYieldDistributed p); active_invoice_count := ps_activeInvoiceCount p;
     total_shares := Some (decimal (ps_totalShares p)) |}.
Definition position_wire (p : LPPosition) : RawLPPosition :=
  {| shares := decimal (lp_shares p); usdc_value := decimal (lp_usdcValue p); yield_earned := decimal (lp_yieldEarned p);
     deposit_count := lp_depositCount p |}.

(** ** Reading a printed bigint *)
Lemma sign_digits s : Str.all Str.is_digit s = true -> Str.sign s = (false, s).
Proof.
  destruct s as [|c s]; [done|]. intros [Hc _]%andb_prop. cbn.
  rewrite (proj1 (proj2 (digit_not c Hc))). destruct (Ascii.eqb_spec c "+"); [subst; cbv in Hc; done|done].
Qed.

Lemma bigint_of_decimal z : bigint_of_str (decimal z) = Ok z.
Proof.
  unfold decimal, Num.bigint_to_string. destruct (Z.ltb_spec z 0) as [Hz|Hz].
  - set (d := Num.digits (- z)). assert (Hd : Str.all Str.is_digit d = true) by (apply digits_all; lia).
    assert (Hne : d <> "") by apply digits_nonempty.
    assert (Ht : Str.trim (String "-" d) = String "-" d).
    { unfold Str.trim. rewrite trim_start_id by done. exact (trim_end_digit "-" d Hd Hne). }
    unfold bigint_of_str, Str.parse_bigint. rewrite Ht. cbn [Str.sign Ascii.eqb Bool.eqb].
    assert (Hp : Str.parse_radix (String "-" d) = None) by by destruct d.
    rewrite Hp, Hd. unfold Str.nonempty. rewrite (proj2 (String.eqb_neq d "") Hne).
    unfold d. rewrite digits_val_digits by lia. cbn. f_equal. lia.
  - rewrite bigint_of_digits; [by rewrite digits_val_digits|by apply digits_all|apply digits_nonempty].
Qed.

(** ** Exactness *)
(** A successful answer whose body is the text of an object, with white space after it. *)
Definition answers (resp : response) (fs : fields) : Prop :=
  r_ok resp = true /\
  exists text ws, Json.stringify (JObj fs) = Ok (Some text) /\ blank ws = true /\ r_text resp = Ok (text +:+ ws).
Lemma read_answer resp fs : answers resp fs -> storable (JObj fs) = true -> read_response resp = Ok (JObj fs).
Proof.
  intros (Hok & text & ws & Ht & Hws & Hr) Hv. destruct (parse_padded _ ws Hv Hws) as (t & Ht' & _ & Hp).
  rewrite Ht in Ht'. injection Ht' as ->. unfold read_response. rewrite Hr, Hok. exact Hp.
Qed.

Lemma pool_json_read fs p : is_raw_pool_stats fs (pool_wire p) -> parseRawPoolStats (JObj fs) = Ok p.
Proof.
  intros (H1 & H2 & H3 & H4 & H5 & H6 & H7). unfold parseRawPoolStats. cbn [record_or_empty isRecord is_object is_array andb negb field]. unfold prop.
  rewrite H1, H2, H3, H4, H5, H6, H7. cbn -[decimal bigint_of_str mbind].
  rewrite !bigint_of_decimal. cbn. by destruct p.
Qed.
Lemma position_json_read fs p : is_raw_position fs (position_wire p) -> parseRawLPPosition (JObj fs) = Ok p.
Proof.
  intros (H1 & H2 & H3 & H4). unfold parseRawLPPosition. cbn [record_or_empty isRecord is_object is_array andb negb field]. unfold prop.
  rewrite H1, H2, H3, H4. cbn -[decimal bigint_of_str mbind]. rewrite !bigint_of_decimal. cbn. by destruct p.
Qed.

(** C12: when an answer of the indexer is a JSON text of the statistics of the pool, or of the
    position of a provider, with the amounts in decimal, whatever the order of the members, the
    other members and the white space after it, the client returns those statistics and that
    position, every amount exactly, at any magnitude and of either sign. *)
Theorem amounts_arrive_exactly resp resp' fs fs' p q
    (Hp : is_raw_pool_stats fs (pool_wire p)) (Hq : is_raw_position fs' (position_wire q))
    (Hs : storable (JObj fs) = true) (Hs' : storable (JObj fs') = true)
    (Ht : answers resp fs) (Ht' : answers resp' fs') :
  read_response resp ≫= parseRawPoolStats = Ok p /\ read_response resp' ≫= parseRawLPPosition = Ok q.
Proof.
  split.
  - rewrite (read_answer _ _ Ht Hs). exact (pool_json_read fs p Hp).
  - rewrite (read_answer _ _ Ht' Hs'). exact (position_json_read fs' q Hq).
Qed.

(** An event arrives as it was sent; its payload is not looked at. *)
Lemma event_arrives fs r : is_raw_event fs r -> parseRawEventLog (JObj fs) =
  {| ev_id := re_id r; ev_event_id := re_event_id r; ev_contract_id := re_contract_id r; ev_ledger := re_ledger r;
     ev_ledger_closed_at := re_ledger_closed_at r; ev_event_type := re_event_type r; ev_data := JObj (re_data r) |}.
Proof.
  intros (H1 & H2 & H3 & H4 & H5 & H6 & H7). unfold parseRawEventLog. cbn [record_or_empty isRecord is_object is_array andb negb field]. unfold prop.
  by rewrite H1, H2, H3, H4, H5, H6, H7.
Qed.

(** Missing fields fall back to zero, but a string that is no integer throws. *)
Lemma invalid_amounts_throw :
  parseRawPoolStats (JObj []) =
    Ok {| ps_totalDeposits := 0; ps_totalFunded := 0; ps_availableLiquidity := 0; ps_utilizationRateBps := Num.zero;
          ps_totalYieldDistributed := 0; ps_activeInvoiceCount := Num.zero; ps_totalShares := 0 |} /\
  parseRawPoolStats (JObj [("total_deposits", JStr "n/a")]) =
    Throw (JErr CSyntaxError "Cannot convert n/a to a BigInt" []).
Proof. split; vm_compute; reflexivity. Qed.

(** ** Witness: the texts of the indexer *)
Definition q_ : string := String (chr 34) "".
Definition newline : string := String (chr 10) "".
Definition text_member (k v : string) : string := q_ +:+ k +:+ q_ +:+ ":" +:+ q_ +:+ v +:+ q_.
Definition number_member (k v : string) : string := q_ +:+ k +:+ q_ +:+ ":" +:+ v.
Definition sample_stats : PoolStats :=
  {| ps_totalDeposits := 10 ^ 30; ps_totalFunded := 5; ps_availableLiquidity := -1; ps_utilizationRateBps := Num.of_Z 8250;
     ps_totalYieldDistributed := 0; ps_activeInvoiceCount := Num.of_Z 3; ps_totalShares := 10 ^ 30 |}.
Definition stats_body : string :=
  "{" +:+ Str.join "," [text_member "total_deposits" "1000000000000000000000000000000"; text_member "total_funded" "5";
    text_member "available_liquidity" "-1"; number_member "utilization_rate_bps" "8250"; text_member "total_yield_distributed" "0";
    number_member "active_invoice_count" "3"; text_member "total_shares" "1000000000000000000000000000000";
    text_member "updated_at" "2025-05-24T12:00:00Z"] +:+ "}" +:+ newline.
Definition sample_position : LPPosition :=
  {| lp_shares := 2 ^ 63; lp_usdcValue := 2 ^ 63; lp_yieldEarned := 1; lp_depositCount := Num.of_Z 2 |}.
Definition position_body : string :=
  "{" +:+ Str.join "," [number_member "deposit_count" "2"; text_member "shares" "9223372036854775808";
    text_member "usdc_value" "9223372036854775808"; text_member "yield_earned" "1"] +:+ "}" +:+ newline.
Definition members_of (body : string) : fields := match Json.parse body with Ok (JObj fs) => fs | _ => [] end.
Definition text_of (v : jsval) : string := match Json.stringify v with Ok (Some t) => t | _ => "" end.
Lemma amounts_arrive_exactly_witness :
  read_response {| r_status := 200; r_text := Ok stats_body |} ≫= parseRawPoolStats = Ok sample_stats /\
  read_response {| r_status := 200; r_text := Ok position_body |} ≫= parseRawLPPosition = Ok sample_position.
Proof.
  apply (amounts_arrive_exactly _ _ (members_of stats_body) (members_of position_body)).
  - vm_compute. repeat split.
  - vm_compute. repeat split.
  - vm_compute. reflexivity.
  - vm_compute. reflexivity.
  - split; [reflexivity|]. exists (text_of (JObj (members_of stats_body))), newline. split; [vm_compute; reflexivity|].
    split; [reflexivity|vm_compute; reflexivity].
  - split; [reflexivity|]. exists (text_of (JObj (members_of position_body))), newline. split; [vm_compute; reflexivity|].
    split; [reflexivity|vm_compute; reflexivity].
Defined.
