(* ===== verification/MarketPage.v ===== *)
(** * The marketplace page as a whole ([app/marketplace/page.tsx])

    The controls of the page over the machines of [Marketplace]: filters with their slider,
    presets, pages, the invoice in the console and the invoices ticked for a comparison.
    Filters and presets share one [localStorage].  A control only produces what the page
    offers: an option of the status list, a position of the slider. *)

From S2P Require Import Prelude JsNumber JsString JsValue JsonRoundTrip SdkTypes Schemas.
From S2P Require Import Assets Storage Marketplace InvoiceTable InvoiceViews Dialogs.
Import RoundTrip.
Local Open Scope Z_scope.

Module MarketPage.
Definition status_options : list string :=
  ["ALL"; "Created"; "Listed"; "Funded"; "Active"; "Confirmed"; "Repaid"; "Defaulted"].
(** The range input: from 50 to 500 in steps of 50. *)
Definition slider : list Z := [50; 100; 150; 200; 250; 300; 350; 400; 450; 500].
Definition slider_text (k : Z) : string := Num.bigint_to_string k.

Record state := {
  browse : Browse; saved : Presets.state; selectedInvoiceIds : list string;
  showPresetsDropdown : bool; showCompareModal : bool }.
Definition with_ (s : state) (b : Browse) (p : Presets.state) : state :=
  {| browse := b; saved := p; selectedInvoiceIds := selectedInvoiceIds s;
     showPresetsDropdown := showPresetsDropdown s; showCompareModal := showCompareModal s |}.
Definition with_dropdown (s : state) (b : bool) : state :=
  {| browse := browse s; saved := saved s; selectedInvoiceIds := selectedInvoiceIds s;
     showPresetsDropdown := b; showCompareModal := showCompareModal s |}.

(** The first render: its effects persist the filters, then the presets. *)
Definition mount (s : storage) (address : option string) : state :=
  let '(s, b) := initial_browse s in
  {| browse := b; saved := Presets.mount s address; selectedInvoiceIds := [];
     showPresetsDropdown := false; showCompareModal := false |}.

Definition browsed (s : state) (e : BrowseEv) : state :=
  let '(store, b) := browse_step (Presets.store (saved s), browse s) e in
  with_ s b (Presets.with_store (saved s) store).

(** Whether a new value of a filter changes the dependencies of the effects; what is not a
    primitive value counts as new. *)
Definition same_value (a b : jsval) : bool :=
  match a, b with
  | JStr x, JStr y => String.eqb x y
  | JNum x, JNum y => bool_decide (x = y)
  | JBool x, JBool y => Bool.eqb x y
  | JNull, JNull | JUndef, JUndef => true
  | _, _ => false
  end.
Definition same_filters (f g : MarketplaceFilters) : bool :=
  same_value (statusFilter f) (statusFilter g) && same_value (minAmount f) (minAmount g) &&
  same_value (maxAmount f) (maxAmount g) && same_value (maxDiscount f) (maxDiscount g).
Definition set_filters (s : state) (f : MarketplaceFilters) : state :=
  if same_filters f (filters (browse s)) then s else browsed s (FilterChange f).

Definition with_status (f : MarketplaceFilters) (v : jsval) : MarketplaceFilters :=
  {| statusFilter := v; minAmount := minAmount f; maxAmount := maxAmount f; maxDiscount := maxDiscount f |}.
Definition with_min (f : MarketplaceFilters) (v : jsval) : MarketplaceFilters :=
  {| statusFilter := statusFilter f; minAmount := v; maxAmount := maxAmount f; maxDiscount := maxDiscount f |}.
Definition with_max (f : MarketplaceFilters) (v : jsval) : MarketplaceFilters :=
  {| statusFilter := statusFilter f; minAmount := minAmount f; maxAmount := v; maxDiscount := maxDiscount f |}.
Definition with_discount (f : MarketplaceFilters) (v : jsval) : MarketplaceFilters :=
  {| statusFilter := statusFilter f; minAmount := minAmount f; maxAmount := maxAmount f; maxDiscount := v |}.

Inductive event :=
  | StatusOption (status : string) | MinInput (text : string) | MaxInput (text : string) | Slide (position : Z)
  | ResetFilters                          (* the action of the empty table *)
  | ApplyPreset (preset : jsval)          (* a click on one of the presets shown *)
  | SavePreset (now : Z)
  | PresetEvent (e : Presets.event)       (* the rest of the presets menu, and the wallet *)
  | TogglePresets
  | PageTo (page : num) | LimitTo (limit : num)
  | SelectRow (inv : Invoice) | ClearConsole
  | Tick (ids : list string)              (* [onSelectionChange] of the table *)
  | Compare (open : bool).

Definition closes_dropdown (e : Presets.event) : bool := match e with Presets.Delete _ => true | _ => false end.
Definition step (s : state) (e : event) : state :=
  let f := filters (browse s) in
  match e with
  | StatusOption v => browsed (set_filters s (with_status f (JStr v))) (SelectInvoice None)
  | MinInput v => set_filters s (with_min f (JStr v))
  | MaxInput v => set_filters s (with_max f (JStr v))
  | Slide k => set_filters s (with_discount f (JStr (slider_text k)))
  | ResetFilters => browsed s (FilterChange default_filters)
  | ApplyPreset p =>
      match applyPreset p with
      | Ok g => with_dropdown (set_filters s g) false
      | Throw _ => s
      end
  | SavePreset now =>
      let p := Presets.savePreset (saved s) f now in
      let s' := with_ s (browse s) p in
      if (length (Presets.presets (saved s)) <? length (Presets.presets p))%nat then with_dropdown s' false else s'
  | PresetEvent e =>
      let s' := with_ s (browse s) (Presets.step (saved s) e) in
      if closes_dropdown e then with_dropdown s' false else s'
  | TogglePresets => with_dropdown s (negb (showPresetsDropdown s))
  | PageTo p => browsed s (PageChange p)
  | LimitTo l => browsed s (LimitChange l)
  | SelectRow i => browsed s (SelectInvoice (Some i))
  | ClearConsole => browsed s (SelectInvoice None)
  | Tick ids =>
      {| browse := browse s; saved := saved s; selectedInvoiceIds := handleSelectionChange ids;
         showPresetsDropdown := showPresetsDropdown s; showCompareModal := showCompareModal s |}
  | Compare b =>
      {| browse := browse s; saved := saved s; selectedInvoiceIds := selectedInvoiceIds s;
         showPresetsDropdown := showPresetsDropdown s; showCompareModal := b |}
  end.

(** What the page offers: the events a control can produce in a state. *)
Definition offered (s : state) (e : event) : Prop :=
  match e with
  | StatusOption v => v ∈ status_options
  | Slide k => k ∈ slider
  | ApplyPreset p => p ∈ Presets.presets (saved s)
  | SavePreset now => num_ok (Num.of_Z now) = true
  | PresetEvent (Presets.Save _ _) => False
  | _ => True
  end.

(** ** What is shown *)
Definition rows (s : state) (answer : list Invoice) : res (list Invoice) :=
  filteredAndSortedInvoices answer (filters (browse s)).
(** The texts of the slider and of the presets button. *)
Definition slider_label (f : MarketplaceFilters) : string :=
  Num.to_fixed (Num.div (Str.parse_int (to_str (maxDiscount f))) (Num.of_Z 100)) 1 +:+ "%".
Definition presets_label (presets : list jsval) : string :=
  match presets with
  | [] => "No saved searches"
  | [_] => "1 preset saved"
  | _ => Num.to_string (Num.of_Z (Z.of_nat (length presets))) +:+ " presets saved"
  end.
Definition saveDisabled (p : Presets.state) : bool :=
  String.eqb (Str.trim (Presets.newPresetName p)) "" || (10 <=? length (Presets.presets p))%nat.

(** The console: the role, and the cost of funding a listed invoice. *)
Definition console_role (connected : bool) (role publicView : string) : string := if connected then role else publicView.
Definition preview_shown (connected : bool) (role : ViewRole) (inv : Invoice) : bool :=
  bool_decide (inv_status inv = Listed) && bool_decide (role = LpView) && connected.
Definition funded_cost (inv : Invoice) : res string :=
  v ← fundedValueStroops (inv_faceValue inv) (inv_discountBps inv);
  Ok (formatAmount (Some v) (Some (inv_asset inv))).
Definition banner (connected isVerified : bool) : bool := connected && negb isVerified.
Definition liquidity (isStatsLoading : bool) (stats : option PoolStats) (syncing : string) : string :=
  if isStatsLoading then syncing else formatAmount (ps_availableLiquidity <$> stats) None.
(** A selection scrolls to the console on a narrow window: how. *)
Definition scrolls (selected : option Invoice) (wide prefersReducedMotion : bool) : option string :=
  match selected with
  | Some _ => if wide then None else Some (if prefersReducedMotion then "auto" else "smooth")
  | None => None
  end.
End MarketPage.

(** ** Properties *)
Module MarketPageFacts.
Import MarketPage Presets PresetFacts.

(** Filters as the controls leave them, and a preset of such filters. *)
Definition filters_ok (f : MarketplaceFilters) : Prop :=
  exists st lo hi k, k ∈ slider /\
    f = {| statusFilter := JStr st; minAmount := JStr lo; maxAmount := JStr hi; maxDiscount := JStr (slider_text k) |}.
Definition preset_good (p : jsval) : Prop := exists f, applyPreset p = Ok f /\ filters_ok f.

Lemma renamed_good n p : preset_ok p = true -> preset_good p -> preset_good (renamed n p).
Proof.
  intros Hp (f & Hf & Hok). destruct p as [| | | | | | | | |fs| | |]; try discriminate Hp. exists f. split; [|done].
  unfold applyPreset, renamed, member in *. cbn [is_nullish own_fields field] in *.
  unfold prop at 1. by rewrite get_set_ne.
Qed.
Lemma new_preset_good st f now : filters_ok f -> preset_good (new_preset st f now).
Proof. intros (a & b & c & k & Hk & ->). eexists. split; [reflexivity|]. by exists a, b, c, k. Qed.
Lemma drop_good l i id : Forall preset_good l -> Forall preset_good (drop_id l i id).
Proof. intros H. revert i. induction H as [|p l Hp _ IH]; intros i; cbn; [constructor|]. destruct (String.eqb _ _); [done|by constructor]. Qed.

(** What the presets become in one step. *)
Lemma step_presets_good st e (Hs : settled st) (Hg : forall b, Forall preset_good (readPresetsFromStorage (store st) b))
    (He : match e with Save f now => filters_ok f | _ => True end) : Forall preset_good (presets (step st e)).
Proof.
  assert (Hp : Forall preset_good (presets st)) by (rewrite <- (s_shown st Hs); apply Hg).
  assert (Hok : forallb preset_ok (presets st) = true) by (rewrite <- (s_shown st Hs); apply Hs).
  destruct e as [a|n|n|f now|id|id n|id]; cbn [step]; try exact Hp.
  - case_bool_decide; [exact Hp|]. unfold on_address. rewrite presets_persist. apply Hg.
  - unfold savePreset. destruct (String.eqb _ _); [exact Hp|]. destruct (_ <=? _)%nat; [exact Hp|].
    unfold setPresets. rewrite presets_persist. apply Forall_app. split; [exact Hp|].
    repeat constructor. by apply new_preset_good.
  - unfold deletePreset, setPresets. rewrite presets_persist. by apply drop_good.
  - unfold saveEditedPreset. destruct (String.eqb _ _); [exact Hp|]. unfold setPresets. rewrite presets_persist.
    cbn [presets with_presets with_names]. apply list.Forall_forall. intros p (i & q & -> & Hq)%elem_of_lookup_imap.
    apply list_elem_of_lookup_2 in Hq. pose proof (proj1 (list.Forall_forall _ _) Hp q Hq).
    destruct (String.eqb _ _); [|done]. apply renamed_good; [|done].
    rewrite forallb_forall in Hok. by apply Hok, list_elem_of_In.
Qed.

(** Filters and presets have keys of their own. *)
Lemma filters_write_presets s f b : available s ->
  readPresetsFromStorage (writeFiltersToStorage s f) b = readPresetsFromStorage s b.
Proof.
  intros Ha. unfold readPresetsFromStorage, writeFiltersToStorage, getItem.
  rewrite store_json_other; [|unfold key; by destruct (opt_str_truthy b)].
  destruct (store_json_available s MARKETPLACE_FILTERS_KEY (filters_value f) Ha) as [-> _]. by destruct Ha as [-> _].
Qed.
Lemma with_store_settled st f : settled st -> settled (with_store st (writeFiltersToStorage (store st) f)).
Proof.
  intros [Ha Hg Hp Hs]. constructor; cbn; [by apply store_json_available|done|by rewrite filters_write_presets|].
  intros b. by rewrite filters_write_presets.
Qed.

Record page_inv (s : MarketPage.state) : Prop := {
  pi_settled : settled (saved s);
  pi_filters : filters_ok (filters (browse s));
  pi_presets : forall b, Forall preset_good (readPresetsFromStorage (store (saved s)) b);
  pi_ticked : (length (selectedInvoiceIds s) <= 4)%nat }.

Lemma browsed_inv s e : page_inv s -> match e with FilterChange f => filters_ok f | _ => True end ->
  page_inv (browsed s e).
Proof.
  intros [H1 H2 H3 H4] He. destruct e; unfold browsed; cbn [browse_step].
  - split; cbn; [by apply with_store_settled|done| |done].
    intros b. rewrite filters_write_presets by apply H1. apply H3.
  - split; cbn; try done. by destruct H1; split.
  - split; cbn; try done. by destruct H1; split.
  - split; cbn; try done. by destruct H1; split.
Qed.
Lemma set_filters_inv s f : page_inv s -> filters_ok f -> page_inv (set_filters s f).
Proof. intros H Hf. unfold set_filters. destruct (same_filters _ _); [done|by apply browsed_inv]. Qed.
Lemma with_dropdown_inv s b : page_inv s -> page_inv (with_dropdown s b).
Proof. by intros [? ? ? ?]. Qed.

Lemma presets_inv s e : page_inv s -> event_ok e -> match e with Save f _ => filters_ok f | _ => True end ->
  page_inv (with_ s (browse s) (Presets.step (saved s) e)).
Proof.
  intros [H1 H2 H3 H4] He Hf. destruct (step_settled (saved s) e H1 He) as (Hst & Ho & _). split; cbn; try done.
  intros b. destruct (decide (key b = key (address (step (saved s) e)))) as [E|E]; [|rewrite Ho by done; apply H3].
  rewrite (read_key _ _ _ E), (s_shown _ Hst). by apply step_presets_good.
Qed.

Lemma page_step s e : page_inv s -> offered s e -> page_inv (MarketPage.step s e).
Proof.
  intros H He. pose proof (pi_filters s H) as (st & lo & hi & k & Hk & Hf).
  destruct e as [v|v|v|j| |p|now|e| |p|l|i| |ids|b]; cbn [MarketPage.step].
  - apply browsed_inv; [|done]. apply set_filters_inv; [done|]. rewrite Hf. by exists v, lo, hi, k.
  - apply set_filters_inv; [done|]. rewrite Hf. by exists st, v, hi, k.
  - apply set_filters_inv; [done|]. rewrite Hf. by exists st, lo, v, k.
  - apply set_filters_inv; [done|]. rewrite Hf. by exists st, lo, hi, j.
  - apply browsed_inv; [done|]. exists "Listed", "", "", 500. split; [set_solver|reflexivity].
  - pose proof (s_shown _ (pi_settled s H)) as Hs. cbn in He. rewrite <- Hs in He.
    destruct (proj1 (list.Forall_forall _ _) (pi_presets s H _) p He) as (g & -> & Hg).
    by apply with_dropdown_inv, set_filters_inv.
  - assert (Hi : page_inv (with_ s (browse s) (savePreset (saved s) (filters (browse s)) now))).
    { apply (presets_inv s (Save (filters (browse s)) now)); [done| |apply H]. split; [|exact He]. by rewrite Hf. }
    destruct (_ <? _)%nat; [by apply with_dropdown_inv|done].
  - assert (Hi : page_inv (with_ s (browse s) (Presets.step (saved s) e))).
    { apply presets_inv; [done| |]; by destruct e. }
    destruct (closes_dropdown e); [by apply with_dropdown_inv|done].
  - by apply with_dropdown_inv.
  - by apply browsed_inv.
  - by apply browsed_inv.
  - by apply browsed_inv.
  - by apply browsed_inv.
  - destruct H. split; cbn; try done. unfold handleSelectionChange. rewrite length_take. lia.
  - by destruct H.
Qed.

Lemma page_mount_inv s a : available s -> (forall c, forallb preset_ok (readPresetsFromStorage s c) = true) ->
  (forall c, Forall preset_good (readPresetsFromStorage s c)) -> filters_ok (initial_filters s) ->
  page_inv (MarketPage.mount s a).
Proof.
  intros Ha Hok Hg Hf. unfold MarketPage.mount, initial_browse. set (s' := writeFiltersToStorage s (initial_filters s)).
  assert (Hr : forall b, readPresetsFromStorage s' b = readPresetsFromStorage s b) by (intros; by apply filters_write_presets).
  assert (Ha' : available s') by by apply store_json_available.
  destruct (mount_settled s' a Ha') as (Hs & Haddr & Hp); [intros c; by rewrite Hr|].
  split; cbn; [done|done| |lia]. intros b.
  destruct (decide (key b = key a)) as [E|E].
  - rewrite (read_key _ b (address (mount s' a))) by (by rewrite Haddr). rewrite (s_shown _ Hs), Hp, Hr. apply Hg.
  - destruct (on_address_settled {| store := s'; address := a; presets := readPresetsFromStorage s' a;
      loadedPresetAddress := a; newPresetName := ""; editingPresetId := None; editingPresetName := ""; alerts := 0 |})
      as (_ & _ & _ & Ho); [done|done|cbn; intros c; by rewrite Hr|]. unfold mount. rewrite Ho by done. cbn. by rewrite Hr.
Qed.

(** The rows of filters that the controls left: all of them fit the slider. *)
Lemma slider_bound k z : k ∈ slider -> Num.leb (Num.of_Z z) (Str.parse_int (slider_text k)) = true -> Z.abs z < 2 ^ 53 -> z <= 500.
Proof.
  intros Hk Hle Hz. assert (E : Str.parse_int (slider_text k) = Num.of_Z k /\ Num.is_nan (Num.of_Z k) = false /\ 0 < k <= 500).
  { unfold slider in Hk. repeat (apply elem_of_cons in Hk as [->|Hk]; [vm_compute; repeat split; congruence|]). set_solver. }
  destruct E as (E & _ & Hb). rewrite E, of_Z_leb in Hle by lia. apply Z.leb_le in Hle. lia.
Qed.
Lemma rows_shown f answer : filters_ok f -> exists shown, filteredAndSortedInvoices answer f = Ok shown /\ shown ⊆ answer /\
  forall inv z, inv ∈ shown -> inv_discountBps inv = Num.of_Z z -> Z.abs z < 2 ^ 53 -> z <= 500.
Proof.
  intros (st & lo & hi & k & Hk & ->). unfold filteredAndSortedInvoices, by_min, by_max. cbn [minAmount maxAmount].
  destruct (parseFilterStroops_total lo) as [zlo ->], (parseFilterStroops_total hi) as [zhi ->]. cbn.
  eexists. split; [reflexivity|]. unfold by_discount. cbn [maxDiscount to_str].
  assert (Hn : Num.is_nan (Str.parse_int (slider_text k)) = false).
  { unfold slider in Hk. repeat (apply elem_of_cons in Hk as [->|Hk]; [vm_compute; reflexivity|]). set_solver. }
  rewrite Hn. split.
  - intros inv Hin. unfold by_face_value in Hin. rewrite sort_by_perm in Hin.
    rewrite !filter_option in Hin. repeat (apply elem_of_listfilter in Hin as [Hin _]). done.
  - intros inv z Hin Hd Hz. unfold by_face_value in Hin. rewrite sort_by_perm in Hin.
    apply elem_of_listfilter in Hin as [_ Hle]. rewrite Hd in Hle. by eapply slider_bound.
Qed.

Inductive reached (s0 : MarketPage.state) : MarketPage.state -> Prop :=
  | reached_start : reached s0 s0
  | reached_step s e : reached s0 s -> offered s e -> reached s0 (MarketPage.step s e).

Lemma reached_inv s0 s : reached s0 s -> page_inv s0 -> page_inv s.
Proof. intros Hr Hs0. induction Hr; [done|]. by apply page_step. Qed.

(** C24: whatever is done on the page, with any wallets, from a cache that the page wrote:
    the rows of every answer are some of its invoices and computing them never throws, at
    most four invoices are ticked, and no row has a rate above 500 basis points, the end of
    the slider. *)
Theorem market_page_rows s a (Ha : available s)
    (Hok : forall c, forallb preset_ok (readPresetsFromStorage s c) = true)
    (Hg : forall c, Forall preset_good (readPresetsFromStorage s c)) (Hf : filters_ok (initial_filters s)) :
  forall page, reached (MarketPage.mount s a) page -> forall answer, exists shown,
    rows page answer = Ok shown /\ shown ⊆ answer /\ (length (selectedInvoiceIds page) <= 4)%nat /\
    forall inv z, inv ∈ shown -> inv_discountBps inv = Num.of_Z z -> Z.abs z < 2 ^ 53 -> z <= 500.
Proof.
  intros page Hr answer. assert (H : page_inv page) by (by apply (reached_inv _ _ Hr), page_mount_inv).
  destruct (rows_shown (filters (browse page)) answer (pi_filters _ H)) as (shown & H1 & H2 & H3).
  exists shown. split_and!; try done. apply H.
Qed.

(** The card lists an invoice at up to 5000 basis points: above 500 it is on no page of
    the marketplace. *)
Lemma deep_discounts_not_shown a page answer shown inv :
  validateDiscountBps (Num.of_Z 501) = true /\ validateDiscountBps (Num.of_Z 5000) = true /\
  (reached (MarketPage.mount empty_storage a) page -> rows page answer = Ok shown ->
   inv_discountBps inv = Num.of_Z 501 -> inv ∉ shown).
Proof.
  split; [vm_compute; reflexivity|]. split; [vm_compute; reflexivity|]. intros Hr Hs Hd Hin.
  assert (H : page_inv page).
  { apply (reached_inv _ _ Hr), page_mount_inv; [apply empty_available|by intros|intros c; exact (list.Forall_nil_2 _)|].
    exists "Listed", "", "", 500. split; [set_solver|reflexivity]. }
  destruct (rows_shown (filters (browse page)) answer (pi_filters _ H)) as (shown' & H1 & _ & H3).
  unfold rows in Hs. rewrite H1 in Hs. injection Hs as ->. pose proof (H3 inv 501 Hin Hd ltac:(lia)). lia.
Qed.
End MarketPageFacts.

(** ** Witness *)
Section MarketPageWitness.
Import Presets MarketPageFacts MarketPage.
Definition slid : MarketPage.state := step (step (mount empty_storage None) (Slide 300)) (MinInput "10").
Lemma slid_reached : reached (mount empty_storage None) slid.
Proof. apply reached_step; [apply reached_step; [constructor|]|done]. unfold offered, slider. set_solver. Qed.
Lemma market_page_rows_witness : maxDiscount (filters (browse slid)) = JStr "300" /\
  exists shown, rows slid [] = Ok shown /\ shown ⊆ [] /\ (length (selectedInvoiceIds slid) <= 4)%nat /\
    forall inv z, inv ∈ shown -> inv_discountBps inv = Num.of_Z z -> Z.abs z < 2 ^ 53 -> z <= 500.
Proof.
  split; [vm_compute; reflexivity|].
  refine (market_page_rows empty_storage None empty_available (fun c => eq_refl) (fun c => _) _ slid slid_reached []).
  - exact (list.Forall_nil_2 _).
  - exists "Listed", "", "", 500. split; [unfold slider; set_solver|reflexivity].
Defined.
End MarketPageWitness.
