(* ===== verification/DatePicker.v ===== *)
(** * Picking a due date ([components/ui/date-picker.tsx] in [InvoiceForm.tsx])

    The calendar works on local days, counted like those of [JsDate]; the form keeps the text
    [yyyy-MM-dd] of the day that was picked.  Formatting and parsing of date-fns are
    arguments, with their documented behaviour on that pattern; the calendar itself is
    react-day-picker, which reports a click on an enabled day.  The last theorem composes
    the picker with the first step of [InvoiceForm]. *)

From S2P Require Import Prelude JsNumber JsString JsDate SdkTypes InvoiceForm.
Local Open Scope Z_scope.

(** [format(d, "yyyy-MM-dd")], [format(d, "PPP")] and [parse(s, "yyyy-MM-dd", now)]. *)
Class DateFns := { format_day : Z -> string; format_long : Z -> string; parse_day : string -> option Z }.
(** Days of four-digit years. *)
Definition common_day (d : Z) : Prop := let '(y, _, _) := Date.civil d in 0 <= y <= 9999.
Class DateFnsLaws (F : DateFns) := {
  format_iso d : common_day d -> format_day d = Date.iso_date (d * Date.ms_per_day);
  parse_format d : common_day d -> parse_day (format_day d) = Some d }.

Module Picker.
Section Picker.
Context `{DateFns}.
Record props := { value : string; minDay : option Z; disabled : bool }.
Definition selectedDate (p : props) : option Z := if String.eqb (value p) "" then None else parse_day (value p).
(** The text of the trigger; [format] of an invalid date throws. *)
Definition trigger (p : props) : option string :=
  if String.eqb (value p) "" then Some "Select due date" else format_long <$> selectedDate p.
(** The matcher of the days that cannot be picked. *)
Definition dayDisabled (p : props) (day : Z) : bool :=
  match minDay p with Some m => day <? m | None => false end.
Inductive event := OpenChange (open : bool) | SelectDay (day : option Z).
(** Whether the popover is open, and what [onChange] is called with. *)
Definition step (open : bool) (e : event) : bool * option string :=
  match e with
  | OpenChange o => (o, None)
  | SelectDay (Some d) => (false, Some (format_day d))
  | SelectDay None => (open, None)
  end.
End Picker.
End Picker.

(** In the form: the first day is today. *)
Definition setDueDate (f : InvoiceForm) (s : string) : InvoiceForm :=
  {| buyer := buyer f; faceValue := faceValue f; asset := asset f; dueDate := s; discountBps := discountBps f;
     immediateList := immediateList f; error := error f; InvoiceForm.step := InvoiceForm.step f; isListing := isListing f |}.
(** [today] is the local day of the render. *)
Definition due_date_props (today : Z) (f : InvoiceForm) : Picker.props :=
  {| Picker.value := dueDate f; Picker.minDay := Some today; Picker.disabled := false |}.
(** A click on a day of the form's calendar. *)
Definition pick `{DateFns} (today : Z) (f : InvoiceForm) (day : Z) : InvoiceForm :=
  if Picker.dayDisabled (due_date_props today f) day then f
  else match (Picker.step true (Picker.SelectDay (Some day))).2 with Some s => setDueDate f s | None => f end.

(** ** Reading a date that was written *)
Definition padded (n : nat) (z : Z) : string := Str.pad_start n "0" (Num.digits z).
Lemma padded_spec n z : 0 <= z < 10 ^ Z.of_nat (S n) ->
  Str.len (padded (S n) z) = S n /\ Str.all Str.is_digit (padded (S n) z) = true /\ Str.digits_val (padded (S n) z) = z.
Proof.
  intros Hz. unfold padded, Str.pad_start. pose proof (digits_len z n Hz).
  rewrite app_len, repeat_len, all_app, digits_all, digits_val_app, digits_val_zeros, digits_val_digits by lia.
  split_and!; [lia| |lia]. rewrite andb_true_r. generalize (S n - Str.len (Num.digits z))%nat.
  intros k. by induction k as [|k IH].
Qed.

Lemma slice_mid a b c : Str.slice (Str.len a) (Str.len a + Str.len b) (a +:+ b +:+ c) = b.
Proof.
  unfold Str.slice. replace (Str.len a + Str.len b - Str.len a)%nat with (Str.len b) by lia.
  assert (E : Str.drop (Str.len a) (a +:+ b +:+ c) = b +:+ c) by (induction a as [|x a IH]; [done|exact IH]).
  rewrite E. clear. induction b as [|x b IH]; cbn; [by destruct c|]. by rewrite IH.
Qed.
Lemma int_of_padded n z : 0 <= z < 10 ^ Z.of_nat (S n) -> Date.int_of (padded (S n) z) = Some z.
Proof.
  intros Hz. destruct (padded_spec n z Hz) as (Hl & Ha & Hv). unfold Date.int_of, Str.nonempty. rewrite Ha, Hv.
  destruct (String.eqb_spec (padded (S n) z) ""); [|done]. by rewrite e in Hl.
Qed.

Lemma parse_iso y m d : 0 <= y <= 9999 -> 1 <= m <= 12 ->
  1 <= d <= Date.days_before (Date.leap y) (m + 1) - Date.days_before (Date.leap y) m -> d <= 31 ->
  Date.parse_utc (padded 4 y +:+ "-" +:+ padded 2 m +:+ "-" +:+ padded 2 d) =
  Some (Date.day_of_civil y m d * Date.ms_per_day).
Proof.
  intros Hy Hm Hd Hd31. destruct (padded_spec 3 y ltac:(lia)) as (Ly & _ & _).
  destruct (padded_spec 1 m ltac:(lia)) as (Lm & _ & _). destruct (padded_spec 1 d ltac:(lia)) as (Ld & _ & _).
  set (Y := padded 4 y) in *. set (M := padded 2 m) in *. set (D := padded 2 d) in *.
  set (s := Y +:+ "-" +:+ M +:+ "-" +:+ D).
  assert (E0 : Str.slice 0 4 s = Y) by (pose proof (slice_mid "" Y ("-" +:+ M +:+ "-" +:+ D)) as E; by rewrite Ly in E).
  assert (E4 : Str.slice 4 5 s = "-").
  { pose proof (slice_mid Y "-" (M +:+ "-" +:+ D)) as E. by rewrite Ly in E. }
  assert (E5 : Str.slice 5 7 s = M).
  { pose proof (slice_mid (Y +:+ "-") M ("-" +:+ D)) as E. rewrite app_len, Ly, Lm, app_assoc_str in E. exact E. }
  assert (E7 : Str.slice 7 8 s = "-").
  { pose proof (slice_mid (Y +:+ "-" +:+ M) "-" D) as E. rewrite !app_len, Ly, Lm, !app_assoc_str in E. exact E. }
  assert (E8 : Str.slice 8 10 s = D).
  { pose proof (slice_mid (Y +:+ "-" +:+ M +:+ "-") D "") as E.
    rewrite !app_len, Ly, Lm, Ld, !app_assoc_str, app_nil_str in E. exact E. }
  assert (Hs : Str.len s = 10%nat) by (unfold s; rewrite !app_len, Ly, Lm, Ld; reflexivity).
  unfold Date.parse_utc, Date.date_part, Date.field_at, Date.sep. cbn [Nat.add].
  rewrite E0, E4, E5, E7, E8, Hs. unfold Y, M, D. rewrite !int_of_padded by lia. cbn [mbind option_bind].
  unfold Date.in_bounds. rewrite !String.eqb_refl.
  rewrite !(proj2 (Z.leb_le _ _)) by lia. reflexivity.
Qed.

Lemma month_length lp m : 1 <= m <= 12 -> Date.days_before lp (m + 1) - Date.days_before lp m <= 31.
Proof.
  intros Hm. assert (E : m = 1 \/ m = 2 \/ m = 3 \/ m = 4 \/ m = 5 \/ m = 6 \/ m = 7 \/ m = 8 \/ m = 9 \/ m = 10 \/
    m = 11 \/ m = 12) by lia.
  repeat destruct E as [->|E]; try (destruct lp; vm_compute; congruence). subst m. destruct lp; vm_compute; congruence.
Qed.

(** A day written as [yyyy-MM-dd] is read as its midnight in UTC. *)
Lemma parse_utc_iso d : common_day d -> Date.parse_utc (Date.iso_date (d * Date.ms_per_day)) = Some (d * Date.ms_per_day).
Proof.
  unfold common_day, Date.iso_date. rewrite Z.div_mul by done. pose proof (civil_spec d) as H.
  destruct (Date.civil d) as [[y m] dd]. destruct H as (Hd & Hm & Hdd). intros Hy.
  pose proof (month_length (Date.leap y) m Hm). rewrite <- Hd, <- parse_iso by (done || lia).
  unfold Date.iso_year, Date.pad2, padded, Num.bigint_to_string.
  rewrite (proj2 (Z.leb_le 0 y)), (proj2 (Z.leb_le y 9999)), !(proj2 (Z.ltb_ge _ 0)) by lia. done.
Qed.
Lemma parse_iso_date d : common_day d -> Date.parse (Date.iso_date (d * Date.ms_per_day)) = Num.of_Z (d * Date.ms_per_day).
Proof. intros Hc. unfold Date.parse. by rewrite parse_utc_iso. Qed.

(** ** Picker and form *)
Section PickAndSubmit.
Context `{F : DateFns} {L : DateFnsLaws F}.

(** The picker shows the day that was picked, and offers no day before its first. *)
Lemma picked_day_shown today f d : common_day d -> today <= d -> Date.iso_date (d * Date.ms_per_day) <> "" ->
  Picker.selectedDate (due_date_props today (pick today f d)) = Some d.
Proof.
  intros Hc Hd Hne. unfold pick, Picker.dayDisabled. cbn [Picker.minDay due_date_props Picker.step snd].
  rewrite (proj2 (Z.ltb_ge _ _)) by done. unfold Picker.selectedDate. cbn [Picker.value due_date_props dueDate setDueDate].
  destruct (String.eqb_spec (format_day d) "") as [E|]; [by rewrite format_iso in E|by apply parse_format].
Qed.

(** The local midnights of a time zone: the one that starts the day [k] days after [today] comes
    [behind k] milliseconds after that of UTC, less than a day before or after it.  An offset
    need not be of whole hours and, with summer time, may change in between. *)
Definition zone_of (startOfDay : Z -> Z -> Z) (now today : Z) (behind : Z -> Z) : Prop :=
  forall k, 0 <= k <= 365 -> startOfDay now k = (today + k) * Date.ms_per_day + behind k /\ Z.abs (behind k) < Date.ms_per_day.

(** C21: which due dates can be chosen, in any time zone: a form whose other terms are in order
    goes on to the second step exactly when the day picked is from the seventh to the 365th day
    after the local today, without the seventh if the midnight that starts it is later than
    that of UTC (west of Greenwich), and without the 365th if the midnight that starts it is
    earlier (east of it, with summer time as it then is). *)
Theorem acceptable_days valid startOfDay now today behind f d (Hs : InvoiceForm.step f = 1)
    (Hb : Str.trim (buyer f) <> "" /\ valid (Str.trim (buyer f)) = true) (Hv : Num.leb (parsedValue f) Num.zero = false)
    (Hz : zone_of startOfDay now today behind) (Ht : 0 <= today < 2 ^ 24) (Hc : common_day d) (Hd : today <= d < 2 ^ 24) :
  InvoiceForm.step (handleNextStep valid startOfDay now (pick today f d)) = 2 <->
  today + (if 0 <? behind 7 then 8 else 7) <= d <= today + (if behind 365 <? 0 then 364 else 365).
Proof.
  assert (E : pick today f d = setDueDate f (format_day d)).
  { unfold pick, Picker.dayDisabled. cbn [Picker.minDay due_date_props Picker.step snd]. by rewrite (proj2 (Z.ltb_ge _ _)) by lia. }
  rewrite E. set (g := setDueDate f (format_day d)).
  assert (Hp : Date.parse (dueDate g) = Num.of_Z (d * Date.ms_per_day)).
  { subst g. cbn [dueDate setDueDate]. rewrite format_iso by done. by apply parse_iso_date. }
  unfold zone_of, Date.ms_per_day in *.
  pose proof (handleNextStep_accepts valid startOfDay now g (d * 86400000) Hs Hp ltac:(lia)) as H.
  destruct (Hz 0 ltac:(lia)) as [E0 B0], (Hz 7 ltac:(lia)) as [E7 B7], (Hz 365 ltac:(lia)) as [E365 B365].
  destruct H as [Hok Hno]; [intros k Hk; destruct (Hz k Hk) as [-> ?]; lia|lia|].
  assert (Hr : startOfDay now 7 <= d * 86400000 <= startOfDay now 365 <->
    today + (if 0 <? behind 7 then 8 else 7) <= d <= today + (if behind 365 <? 0 then 364 else 365)).
  { rewrite E7, E365. destruct (Z.ltb_spec 0 (behind 7)), (Z.ltb_spec (behind 365) 0); lia. }
  split.
  - intros H2. apply Hr. destruct (decide (startOfDay now 7 <= d * 86400000 <= startOfDay now 365)) as [|Hn']; [done|].
    destruct Hno as [H1 _]; [intros (_ & _ & _ & Hin); by apply Hn'|]. lia.
  - intros H2. rewrite Hok; [done|]. destruct Hb. split_and!; try done; by apply Hr.
Qed.
End PickAndSubmit.

(** ** Witness *)
Module MockDateFns.
Definition fns : DateFns :=
  {| format_day d := Date.iso_date (d * Date.ms_per_day); format_long d := Date.iso_date (d * Date.ms_per_day);
     parse_day s := t ← Date.parse_utc s; Some (t / Date.ms_per_day) |}.
Lemma laws : DateFnsLaws fns.
Proof.
  split; intros d Hc; [done|]. cbn [parse_day format_day fns]. rewrite parse_utc_iso by done.
  cbn [mbind option_bind]. by rewrite Z.div_mul.
Qed.
End MockDateFns.

(** London on 29 March 2023: the day a year later comes before its summer time starts. *)
Definition in_london : Z := 19445.
Definition london (k : Z) : Z := if k <=? 214 then -3600000 else 0.
(** Mumbai, half an hour off, and New York, which changes in between. *)
Definition mumbai (_ : Z) : Z := -19800000.
Definition new_york (k : Z) : Z := if (k <=? 221) then 14400000 else if k <=? 347 then 18000000 else 14400000.
Definition zone_start (today : Z) (behind : Z -> Z) (_ k : Z) : Z := (today + k) * Date.ms_per_day + behind k.
Lemma acceptable_days_witness :
  let next behind k := InvoiceForm.step (handleNextStep (fun _ => true) (zone_start in_london behind) 0
    (@pick MockDateFns.fns in_london seventh_day_form (in_london + k))) in
  next london 7 = 2 /\ next london 365 = 2 /\ next mumbai 365 <> 2 /\ next mumbai 364 = 2 /\
  next new_york 7 <> 2 /\ next new_york 8 = 2 /\ next new_york 365 = 2.
Proof.
  cbn zeta.
  assert (A : forall behind k, (forall k, Z.abs (behind k) < Date.ms_per_day) -> 0 <= k < 400 -> common_day (in_london + k) ->
    InvoiceForm.step (handleNextStep (fun _ => true) (zone_start in_london behind) 0
      (@pick MockDateFns.fns in_london seventh_day_form (in_london + k))) = 2 <->
    in_london + (if 0 <? behind 7 then 8 else 7) <= in_london + k <= in_london + (if behind 365 <? 0 then 364 else 365)).
  { intros behind k Hb Hk Hc. apply (@acceptable_days MockDateFns.fns MockDateFns.laws (fun _ => true)).
    - reflexivity.
    - split; [discriminate|reflexivity].
    - vm_compute; reflexivity.
    - intros j _. split; [reflexivity|apply Hb].
    - unfold in_london. lia.
    - exact Hc.
    - unfold in_london. lia. }
  assert (L : forall k, Z.abs (london k) < Date.ms_per_day) by (intros k; unfold london; destruct (k <=? 214); reflexivity).
  assert (M : forall k, Z.abs (mumbai k) < Date.ms_per_day) by (intros k; reflexivity).
  assert (N : forall k, Z.abs (new_york k) < Date.ms_per_day)
    by (intros k; unfold new_york; destruct (k <=? 221), (k <=? 347); reflexivity).
  assert (C : common_day (in_london + 7) /\ common_day (in_london + 8) /\ common_day (in_london + 364) /\ common_day (in_london + 365))
    by (vm_compute; repeat split; congruence).
  destruct C as (C7 & C8 & C364 & C365). split_and!.
  - apply (A london 7 L); [lia|exact C7|cbn; lia].
  - apply (A london 365 L); [lia|exact C365|cbn; lia].
  - intros E. apply (A mumbai 365 M) in E; [cbn in E; lia|lia|exact C365].
  - apply (A mumbai 364 M); [lia|exact C364|cbn; lia].
  - intros E. apply (A new_york 7 N) in E; [cbn in E; lia|lia|exact C7].
  - apply (A new_york 8 N); [lia|exact C8|cbn; lia].
  - apply (A new_york 365 N); [lia|exact C365|cbn; lia].
Defined.
