(* ===== verification/Quickstart.v ===== *)
(** * The quickstart ([examples/sdk-quickstart/src/index.ts])

    The script configures the SDK ([quickstart_config] of [Cli]), asks Friendbot for the
    sample account and makes three reads.  Friendbot, the URL parser and Node's printing of
    values are arguments. *)

From S2P Require Import Prelude JsNumber JsString JsValue Effects SdkConfig SdkTypes Schemas Base Clients Cli.
Local Open Scope Z_scope.

(** An environment variable or its default. *)
Definition variable (e : env_vars) (name fallback : string) : string := nullish (e !! name) fallback.
Definition SIGNER_PUBLIC_KEY (e : env_vars) : string :=
  variable e "SIGNER_PUBLIC_KEY" "GD4D4DIAFNEYB3NBC7T5WQEZQUXRWNQAWJXGWLNVVC6WUWNMIQLB5BGR".
Definition FRIENDBOT_URL (e : env_vars) : string := variable e "FRIENDBOT_URL" "https://friendbot.stellar.org".
Definition REGISTRY_CONTRACT_ID (e : env_vars) : string :=
  variable e "REGISTRY_CONTRACT_ID" "CABGWVIZFF62FG67ZGFEP67NEEY4WYTMFURDMFTKKNRDAFPKPOJDTN4C".
Definition POOL_CONTRACT_ID (e : env_vars) : string :=
  variable e "POOL_CONTRACT_ID" "CAKEWH7SJCXGV2MH2WZYIX3QDPTSSBQFXYVYBOWAGLNBBZMPLE2US6CS".
Definition INVOICE_CONTRACT_ID (e : env_vars) : string :=
  variable e "INVOICE_CONTRACT_ID" "CA4O3MR7LWHRSUDBNU6FY6UDFFYBN7TGBZXBDZB4OYYXFYXIFJ6RJF6B".

Section Script.
Context `{Sdk : StellarSdk} {Enc : Encoders} {Env : Type} {Srv : Services Env} {zod : Zod}.
Abbreviation IO := (M Env Event).
(** [new URL(FRIENDBOT_URL)], which may throw, whether [fetch] answered, and how a value is
    printed. *)
Context (parse_url : string -> res ()) (friendbot : string -> bool) (inspect : jsval -> string).

(** The lines of [console.log] and of [console.warn] and [console.error], in order. *)
Definition say (line : string) (o : output) : output :=
{| stdout := stdout o ++ [line]; stderr := stderr o; exitCode := exitCode o |}.
Definition warn (line : string) (o : output) : output :=
{| stdout := stdout o; stderr := stderr o ++ [line]; exitCode := exitCode o |}.
Definition crashed (err : jsval) (o : output) : output :=
{| stdout := stdout o; stderr := stderr o ++ ["sdk-quickstart failed: " +:+ inspect err]; exitCode := 1 |}.

Definition ensureAccountExists (e : env_vars) (publicKey : string) : res output :=
parse_url (FRIENDBOT_URL e);;
Ok (if friendbot publicKey then say ("Sample account ensured via Friendbot: " +:+ publicKey) no_output
    else warn ("Could not reach Friendbot at " +:+ FRIENDBOT_URL e +:+ " " +:+ em_dash +:+
               " add testnet funds to " +:+ publicKey +:+ " manually.") no_output).

(** [await m], then the rest; a rejection ends the script ([main().catch]). *)
Definition step_ {A} (o : output) (m : IO A) (k : A -> IO output) : IO output :=
r ← attempt m; match r with Ok a => k a | Throw err => mret (crashed err o) end.

Definition main (e : env_vars) (config : SDKConfig) : IO output :=
let key := SIGNER_PUBLIC_KEY e in
step_ no_output (lift (ensureAccountExists e key)) (fun o =>
step_ o (lift (r ← new_BaseContractClient (REGISTRY_CONTRACT_ID e) None None;
               p ← new_BaseContractClient (POOL_CONTRACT_ID e) None None;
               i ← new_BaseContractClient (INVOICE_CONTRACT_ID e) None None; Ok (r, p, i)))
  (fun '(registry, pool, invoice) =>
step_ o (RegistryClient.isVerified registry config key key) (fun verified =>
let o := say ("isVerified(" +:+ key +:+ ") => " +:+ inspect (JBool verified)) o in
step_ o (PoolClient.getStats pool config key) (fun stats =>
let o := say ("Pool stats => " +:+ inspect stats) o in
step_ o (InvoiceClient.getByStatus invoice config Listed key) (fun listed =>
mret (say ("Listed invoices (" +:+ Num.to_string (Num.of_Z (Z.of_nat (length listed))) +:+ ") => " +:+
           inspect (JArr listed)) o)))))).

(** ** Properties *)
(** How many of the three reads were printed, after the line about the account. *)
Definition finished (o : output) : Prop :=
(exitCode o = 0 /\ length (stdout o ++ stderr o) = 4%nat) \/
(exitCode o = 1 /\ exists l err, stderr o = l ++ ["sdk-quickstart failed: " +:+ inspect err] /\
   (length (stdout o ++ l) <= 3)%nat).
Definition so_far (n : nat) (o : output) : Prop := exitCode o = 0 /\ length (stdout o ++ stderr o) = n.

Abbreviation reads l := (Forall (fun e => read_only e = true) l).
Definition good (m : IO output) : Prop := trace_spec m (fun l r => reads l /\ exists o, r = Ok o /\ finished o).

Lemma good_end o : finished o -> good (mret o).
Proof. intros H. apply trace_ret. split; [constructor|eauto]. Qed.
Lemma step_good {A} n o (m : IO A) k : so_far n o -> (n <= 3)%nat -> emits (fun e => read_only e = true) m ->
(forall a, good (k a)) -> good (step_ o m k).
Proof.
intros [He Hl] Hn Hm Hk. unfold step_. apply trace_attempt. eapply trace_weaken; [exact Hm|]. cbn. intros l [a|err] Hr.
- eapply trace_weaken; [apply Hk|]. cbn. intros l' r [Hl' Ho]. split; [by apply Forall_app|done].
- apply trace_ret. rewrite app_nil_r. split; [done|]. eexists. split; [reflexivity|]. right. split; [done|].
  exists (stderr o), err. split; [done|]. cbn. lia.
Qed.
Lemma said n line o : so_far n o -> so_far (S n) (say line o).
Proof. intros [He Hl]. split; [done|]. cbn. rewrite !length_app in *. cbn. lia. Qed.
Lemma crashed_good n o err : so_far n o -> (n <= 3)%nat -> finished (crashed err o).
Proof. intros [He Hl] Hn. right. split; [done|]. exists (stderr o), err. split; [done|]. cbn. lia. Qed.
Lemma step_lift_good {A} n o (r : res A) k : so_far n o -> (n <= 3)%nat -> (forall a, r = Ok a -> good (k a)) ->
good (step_ o (lift r) k).
Proof.
intros Ho Hn Hk. unfold step_. apply trace_attempt. intros w. exists []. rewrite app_nil_r.
destruct r as [a|err]; (split; [by destruct w|]); cbn; [by apply Hk|].
apply good_end. by eapply crashed_good.
Qed.

(** The script signs nothing and sends nothing, whatever Friendbot and the servers answer: it
    prints the three results and ends with code 0, or it prints those it got and then the
    error, and ends with code 1. *)
Theorem quickstart_only_reads e config env :
let '(r, l) := run (main e config) env in reads l /\ exists o, r = Ok o /\ finished o.
Proof.
assert (H : good (main e config)).
{ assert (H0 : so_far 0 no_output) by done. unfold main.
  apply (step_lift_good 0); [done|lia|]. intros o Ho.
  assert (H1 : so_far 1 o).
  { unfold ensureAccountExists in Ho. destruct (parse_url _); [|done]. injection Ho as <-. by destruct (friendbot _). }
  apply (step_lift_good 1); [done|lia|]. intros [[r p] i] _.
  apply (step_good 1); [done|lia|apply read_emits|]. intros v. cbn zeta.
  eapply (step_good 2); [by apply said|lia|apply read_emits|]. intros st.
  eapply (step_good 3); [by do 2 apply said|lia|apply read_emits|]. intros ls.
  apply good_end. left. by do 3 apply said. }
pose proof (trace_run _ _ env H) as Hr. by destruct (run (main e config) env).
Qed.
End Script.
