(* ===== verification/LpPage.v ===== *)
(** * The liquidity provider page as a whole ([app/lp/page.tsx], [components/shared/SimulationPreview.tsx])

    The two forms of the page over the preview and the handlers of [PoolPage] and the
    dialog that confirms a withdrawal.  The mutations of [usePool] are events: a call goes
    out, [isPending] holds, and it settles.  A form is submitted with its button, which
    is also what the Enter key does, so not while the button is disabled. *)

From S2P Require Import Prelude JsNumber JsString JsValue Effects SdkTypes Base Assets Storage PoolPage Dialogs.
Local Open Scope Z_scope.

(** ** [SimulationPreview] *)
Inductive SimulationView :=
  | Simulating
  | SimulationFailed (message : string)
  | SimulationUnavailable
  | NoPreview
  | TransactionPreview (badge method footprint fee : string).
Definition SimulationPreview {scval} (details : option (SimulationResult scval)) (error : option string)
  (isLoading isFallback : bool) : SimulationView :=
  if isLoading then Simulating
  else if opt_str_truthy error then SimulationFailed (default "" error)
  else match details with
       | None => if isFallback then SimulationUnavailable else NoPreview
       | Some d =>
           TransactionPreview (if isFallback then "Estimate" else "Ready to Sign") (functionName d)
             (Num.to_string (Num.of_Z (footprintSize d)) +:+ " " +:+
              (if footprintSize d =? 1 then "ledger entry" else "ledger entries"))
             (estimatedFeeXlm d +:+ " XLM")
       end.

Module LpPage.
Section Page.
Context {scval : Type}.
Abbreviation Sim := (SimulationResult scval).

(** What the stores and queries give to a render. *)
Record props := {
  connected : bool; address : option string;
  stats : option PoolStats; isStatsLoading : bool;
  position : option LPPosition; isPositionLoading : bool }.
Record fields := {
  depositAmount : string; withdrawShares : string;
  depositError : option string; withdrawError : option string }.
Record state := {
  data : props; form : fields; preview : Preview.state Sim;
  dialog : ConfirmDialog.state Z; isDepositing : bool; isWithdrawing : bool }.

Inductive effect :=
  | FocusDeposit | FocusWithdraw
  | CallDeposit (amount : Z) (asset : AssetType)
  | CallWithdraw (shares : Z).

Definition with_form (s : state) (f : fields) : state :=
  {| data := data s; form := f; preview := preview s; dialog := dialog s;
     isDepositing := isDepositing s; isWithdrawing := isWithdrawing s |}.
Definition with_preview (s : state) (p : Preview.state Sim) : state :=
  {| data := data s; form := form s; preview := p; dialog := dialog s;
     isDepositing := isDepositing s; isWithdrawing := isWithdrawing s |}.
Definition with_dialog (s : state) (d : ConfirmDialog.state Z) : state :=
  {| data := data s; form := form s; preview := preview s; dialog := d;
     isDepositing := isDepositing s; isWithdrawing := isWithdrawing s |}.
Definition pending (s : state) (depositing withdrawing : bool) : state :=
  {| data := data s; form := form s; preview := preview s; dialog := dialog s;
     isDepositing := depositing; isWithdrawing := withdrawing |}.
Definition set_depositError (s : state) (e : option string) : state :=
  with_form s {| depositAmount := depositAmount (form s); withdrawShares := withdrawShares (form s);
                 depositError := e; withdrawError := withdrawError (form s) |}.
Definition set_withdrawError (s : state) (e : option string) : state :=
  with_form s {| depositAmount := depositAmount (form s); withdrawShares := withdrawShares (form s);
                 depositError := depositError (form s); withdrawError := e |}.
Definition set_withdrawShares (s : state) (t : string) : state :=
  with_form s {| depositAmount := depositAmount (form s); withdrawShares := t;
                 depositError := depositError (form s); withdrawError := withdrawError (form s) |}.

(** The effect with the dependencies [[address, depositAmount]]: it runs after a render in
    which one of them changed. *)
Definition effect_runs (s : state) : state :=
  with_preview s (Preview.step (preview s) (Preview.Change (address (data s)) (depositAmount (form s)))).
Definition set_depositAmount (s : state) (t : string) : state :=
  let s' := with_form s {| depositAmount := t; withdrawShares := withdrawShares (form s);
                           depositError := depositError (form s); withdrawError := withdrawError (form s) |} in
  if String.eqb t (depositAmount (form s)) then s' else effect_runs s'.
Definition set_data (s : state) (d : props) : state :=
  let s' := {| data := d; form := form s; preview := preview s; dialog := dialog s;
               isDepositing := isDepositing s; isWithdrawing := isWithdrawing s |} in
  if bool_decide (address d = address (data s)) then s' else effect_runs s'.

Definition mount (d : props) : state :=
  effect_runs {| data := d;
                 form := {| depositAmount := ""; withdrawShares := ""; depositError := None; withdrawError := None |};
                 preview := Preview.initial; dialog := ConfirmDialog.initial;
                 isDepositing := false; isWithdrawing := false |}.

Inductive event :=
  | Data (d : props)
  | TypeDeposit (text : string) | SubmitDeposit | DepositSettled (r : res string)
  | TypeShares (text : string) | SubmitWithdraw | WithdrawSettled (r : res string)
  | DialogCancel | DialogConfirm
  | Timer (id : nat) | Simulated (id : nat) (r : res Sim).

Definition shares (s : state) : option Z := lp_shares <$> position (data s).
(** [disabled] of the two buttons. *)
Definition depositDisabled (s : state) : bool := isDepositing s.
Definition withdrawDisabled (s : state) : bool := isWithdrawing s || (default 0 (shares s) =? 0).

Definition submitDeposit (s : state) : state * list effect :=
  let text := depositAmount (form s) in
  if negb (positive_amount text) then (set_depositError s (Some "Enter an amount greater than zero."), [FocusDeposit])
  else
    let s := set_depositError s None in
    match stroops (amount_of text) with
    | Ok amount => (pending s true (isWithdrawing s), [CallDeposit amount USDC])
    | Throw _ => (s, [])
    end.
Definition submitWithdraw (s : state) : state * list effect :=
  match handleWithdraw (address (data s)) (shares s) (withdrawShares (form s)) with
  | Ok (Refused message) => (set_withdrawError s (Some message), [FocusWithdraw])
  | Ok (Requested action) => (with_dialog (set_withdrawError s None) (ConfirmDialog.request (dialog s) action), [])
  | Throw _ => (s, [])
  end.

(** The forms are only there for a connected wallet. *)
Definition step (s : state) (e : event) : state * list effect :=
  match e with
  | Data d => (set_data s d, [])
  | TypeDeposit text => if connected (data s) then (set_depositError (set_depositAmount s text) None, []) else (s, [])
  | SubmitDeposit => if connected (data s) && negb (depositDisabled s) then submitDeposit s else (s, [])
  | DepositSettled r =>
      if isDepositing s then
        let s := pending s false (isWithdrawing s) in
        (match r with Ok _ => set_depositAmount s "" | Throw _ => s end, [])
      else (s, [])
  | TypeShares text => if connected (data s) then (set_withdrawError (set_withdrawShares s text) None, []) else (s, [])
  | SubmitWithdraw => if connected (data s) && negb (withdrawDisabled s) then submitWithdraw s else (s, [])
  | WithdrawSettled r =>
      if isWithdrawing s then
        let s := pending s (isDepositing s) false in
        (match r with Ok _ => set_withdrawShares s "" | Throw _ => s end, [])
      else (s, [])
  | DialogCancel => (with_dialog s (ConfirmDialog.cancel (dialog s)), [])
  | DialogConfirm =>
      let '(d, run) := Confirm.handleConfirm (fun _ => None) (dialog s) in
      match run with
      | [] => (with_dialog s d, [])
      | _ => (pending (with_dialog s d) (isDepositing s) true, map CallWithdraw run)
      end
  | Timer id => (with_preview s (Preview.step (preview s) (Preview.Fire id)), [])
  | Simulated id r => (with_preview s (Preview.step (preview s) (Preview.Answer id r)), [])
  end.

Fixpoint run (s : state) (es : list event) : state * list effect :=
  match es with
  | [] => (s, [])
  | e :: es => let '(s1, o1) := step s e in let '(s2, o2) := run s1 es in (s2, o1 ++ o2)
  end.

(** ** What is shown *)
Definition formatShareValue (value : option Z) : string := formatAmount (Some (default 0 value)) None.
Definition Stat := (string * string)%type.
Record Overview := { ov_percent : string; ov_arc : num; ov_figures : list Stat }.
Definition overview (s : option PoolStats) : Overview :=
  let u := utilization (ps_utilizationRateBps <$> s) in
  {| ov_percent := Num.to_fixed u 1 +:+ "%"; ov_arc := u;
     ov_figures :=
       [("Total Deposits", formatShareValue (ps_totalDeposits <$> s));
        ("Available Liquidity", formatShareValue (ps_availableLiquidity <$> s));
        ("Yield Distributed", formatShareValue (ps_totalYieldDistributed <$> s));
        ("Active Invoices", Num.to_string (default Num.zero (ps_activeInvoiceCount <$> s)))] |}.
Definition position_card (p : option LPPosition) : string * list Stat :=
  (Num.to_string (default Num.zero (lp_depositCount <$> p)) +:+ " deposits",
   [("Current USDC Value", formatShareValue (lp_usdcValue <$> p));
    ("Redeemable Shares", formatShareValue (lp_shares <$> p));
    ("Accrued Yield", formatShareValue (lp_yieldEarned <$> p))]).

(** A field with its error below it. *)
Record FieldView := { fv_value : string; fv_invalid : bool; fv_describedby : option string; fv_alert : option string }.
Definition deposit_field (f : fields) : FieldView :=
  let shown := opt_str_truthy (depositError f) in
  {| fv_value := depositAmount f; fv_invalid := shown;
     fv_describedby := if shown then Some "deposit-amount-error" else None;
     fv_alert := if shown then depositError f else None |}.
Definition withdraw_field (f : fields) : FieldView :=
  let shown := opt_str_truthy (withdrawError f) in
  {| fv_value := withdrawShares f; fv_invalid := shown;
     fv_describedby := Some ("withdraw-available" +:+ if shown then " withdraw-shares-error" else "");
     fv_alert := if shown then withdrawError f else None |}.

Record LpView := {
  lv_overview : option Overview;            (* none: its skeleton *)
  lv_position : option (string * list Stat);
  lv_deposit : FieldView; lv_preview : SimulationView; lv_depositButton : string;
  lv_withdraw : FieldView; lv_available : string; lv_withdrawButton : string }.
Definition render (s : state) : option LpView :=
  if negb (connected (data s)) then None
  else Some
    {| lv_overview := if isStatsLoading (data s) then None else Some (overview (stats (data s)));
       lv_position := if isPositionLoading (data s) then None else Some (position_card (position (data s)));
       lv_deposit := deposit_field (form s);
       lv_preview := SimulationPreview (Preview.simDetails (preview s)) (Preview.simError (preview s))
                       (Preview.isSimulating (preview s)) false;
       lv_depositButton := if isDepositing s then "Depositing..." else "Deposit USDC";
       lv_withdraw := withdraw_field (form s);
       lv_available := "Available: " +:+ formatShareValue (shares s);
       lv_withdrawButton := if isWithdrawing s then "Withdrawing..." else "Withdraw Shares" |}.
End Page.
Arguments state : clear implicits.
Arguments event : clear implicits.
End LpPage.

(** ** Properties *)
Module LpPageFacts.
Import LpPage.
Section Facts.
Context {scval : Type}.
Implicit Types (s : state scval) (e : event scval).

(** A run of the effect for the account and the amount of a render. *)
Definition for_current s (p : Preview.phase) : Prop :=
  match p with
  | Preview.Waiting a n => address (data s) = Some a /\ n = amount_of (depositAmount (form s))
  | Preview.Running a z => address (data s) = Some a /\ stroops (amount_of (depositAmount (form s))) = Ok z
  end.
(** Whether there is something to simulate. *)
Definition previewed s : bool := opt_str_truthy (address (data s)) && positive_amount (depositAmount (form s)).

Record inv s : Prop := {
  i_preview : PreviewFacts.inv (preview s);
  i_current : forall id p, Preview.active (preview s) = Some id -> (id, p) ∈ Preview.runs (preview s) -> for_current s p;
  i_none : previewed s = false ->
    Preview.active (preview s) = None /\ Preview.simDetails (preview s) = None /\ Preview.simError (preview s) = None;
  i_dialog : isWithdrawing s = true -> dialog s = None;
  i_error : forall m, depositError (form s) = Some m -> positive_amount (depositAmount (form s)) = false }.

(** Of a state the invariant reads the preview with the two values it depends on, and the
    rest apart. *)
Definition preview_inv (address : option string) (text : string) (p : Preview.state (SimulationResult scval)) : Prop :=
  PreviewFacts.inv p /\
  (forall id ph, Preview.active p = Some id -> (id, ph) ∈ Preview.runs p ->
     match ph with
     | Preview.Waiting a n => address = Some a /\ n = amount_of text
     | Preview.Running a z => address = Some a /\ stroops (amount_of text) = Ok z
     end) /\
  (opt_str_truthy address && positive_amount text = false ->
     Preview.active p = None /\ Preview.simDetails p = None /\ Preview.simError p = None).
Lemma inv_split s : inv s <->
  preview_inv (address (data s)) (depositAmount (form s)) (preview s) /\
  (isWithdrawing s = true -> dialog s = None) /\
  (forall m, depositError (form s) = Some m -> positive_amount (depositAmount (form s)) = false).
Proof.
  split; [intros [H1 H2 H3 H4 H5]; exact (conj (conj H1 (conj H2 H3)) (conj H4 H5))|].
  intros ((H1 & H2 & H3) & H4 & H5). exact (Build_inv s H1 H2 H3 H4 H5).
Qed.

(** The effect starts from any earlier account and amount. *)
Lemma change_inv p address text : PreviewFacts.inv p ->
  preview_inv address text (Preview.step p (Preview.Change address text)).
Proof.
  intros Hp. split; [by apply PreviewFacts.preview_step_inv|].
  pose proof (PreviewFacts.cleanup_inv p Hp) as [[Hf _ _ _] _]. cbn [Preview.step].
  assert (Hneg : negb (opt_str_truthy address) || negb (positive_amount text) =
    negb (opt_str_truthy address && positive_amount text)) by by destruct (opt_str_truthy _), (positive_amount _).
  rewrite Hneg. destruct (_ && _) eqn:Ht; cbn; [|done]. split; [|done].
  intros id ph [= <-] [[= ->]|Hin%Hf]%elem_of_cons; [|cbn in Hin; lia].
  destruct address as [a|]; [done|done].
Qed.
Lemma settle_fields (p : Preview.state (SimulationResult scval)) id r : Preview.active (Preview.settle p id r) = Preview.active p /\
  Preview.runs (Preview.settle p id r) = Preview.without (Preview.runs p) id.
Proof. unfold Preview.settle. by case_bool_decide. Qed.
Lemma settle_preview_inv address text p id r : preview_inv address text p ->
  preview_inv address text (Preview.settle p id r).
Proof.
  intros (Hp & Hc & Hn). split; [by apply PreviewFacts.settle_inv|]. destruct (settle_fields p id r) as [Ha Hr].
  rewrite Ha, Hr. split.
  - intros k ph Hk [Hin _]%PreviewFacts.elem_without. by eapply Hc.
  - intros (Hn1 & Hn2 & Hn3)%Hn. unfold Preview.settle. rewrite Hn1. by case_bool_decide.
Qed.
Lemma fire_inv address text p id : preview_inv address text p -> preview_inv address text (Preview.step p (Preview.Fire id)).
Proof.
  intros (Hp & Hc & Hn). pose proof (PreviewFacts.preview_step_inv p (Preview.Fire id) Hp) as H. revert H.
  cbn [Preview.step]. destruct (Preview.phase_of p id) as [[a n|a z]|] eqn:Hph; [|by intros _; exact (conj Hp (conj Hc Hn))..].
  apply PreviewFacts.phase_of_elem in Hph. pose proof (PreviewFacts.i_waiting p Hp _ _ _ Hph) as Hact.
  assert (Hn0 : opt_str_truthy address && positive_amount text = false -> False).
  { intros [Hn1 _]%Hn. congruence. }
  intros H. destruct (stroops n) as [z|e] eqn:Hz.
  - split; [done|]. cbn. split; [|by intros []%Hn0].
    intros k ph Hk [[= -> ->]|[Hin _]%PreviewFacts.elem_without]%elem_of_cons; [|by eapply Hc].
    destruct (Hc _ _ Hk Hph) as [? <-]. done.
  - split; [done|]. split; [|by intros []%Hn0]. rewrite (proj1 (settle_fields _ _ _)), (proj2 (settle_fields _ _ _)).
    cbn. intros k ph Hk [Hin _]%PreviewFacts.elem_without. by eapply Hc.
Qed.
Lemma quiet_inv address text p pe : PreviewFacts.is_change pe = false -> preview_inv address text p ->
  preview_inv address text (Preview.step p pe).
Proof.
  intros He Hs. destruct pe as [|id|id r]; [done| |].
  - by apply fire_inv.
  - cbn [Preview.step]. destruct (Preview.phase_of p id) as [[a n|a z]|]; [done|by apply settle_preview_inv|done].
Qed.

(** The pieces of a step. *)
Lemma set_data_inv s d : inv s -> inv (set_data s d).
Proof.
  rewrite !inv_split. intros (Hp & Hd & He). unfold set_data. case_bool_decide as Ha; cbn.
  - by rewrite Ha.
  - split; [apply change_inv, Hp|done].
Qed.
Lemma typed_inv s t : inv s -> inv (set_depositError (set_depositAmount s t) None).
Proof.
  rewrite !inv_split. intros (Hp & Hd & He). unfold set_depositAmount.
  destruct (String.eqb_spec t (depositAmount (form s))) as [->|Hne]; cbn; [done|]. split; [apply change_inv, Hp|done].
Qed.
Lemma emptied_inv s : inv s -> inv (set_depositAmount s "").
Proof.
  rewrite !inv_split. intros (Hp & Hd & He). unfold set_depositAmount.
  destruct (String.eqb_spec "" (depositAmount (form s))) as [->|Hne]; cbn; [done|].
  split; [apply change_inv, Hp|]. split; [done|]. intros m _. by vm_compute.
Qed.
Lemma submitDeposit_inv s : inv s -> inv (submitDeposit s).1.
Proof.
  rewrite !inv_split. intros (Hp & Hd & He). unfold submitDeposit.
  destruct (positive_amount (depositAmount (form s))) eqn:Ht; cbn; [|done].
  destruct (stroops _); by cbn.
Qed.
Lemma submitWithdraw_inv s : isWithdrawing s = false -> inv s -> inv (submitWithdraw s).1.
Proof.
  rewrite !inv_split. intros Hw (Hp & Hd & He). unfold submitWithdraw.
  destruct (handleWithdraw _ _ _) as [[m|a]|]; cbn; [done| |done]. by rewrite Hw.
Qed.

Lemma page_step_inv s e : inv s -> inv (step s e).1.
Proof.
  intros Hs. destruct e; cbn [step].
  - by apply set_data_inv.
  - destruct (connected _); [by apply typed_inv|done].
  - destruct (connected _ && _); [by apply submitDeposit_inv|done].
  - destruct (isDepositing s); [|done]. destruct r; cbn [fst]; [apply emptied_inv|]; by rewrite ?inv_split in *.
  - destruct (connected _); [|done]. by rewrite !inv_split in *.
  - destruct (connected _ && _) eqn:Hc; [|done]. apply submitWithdraw_inv; [|done].
    unfold withdrawDisabled in Hc. by destruct (isWithdrawing s), (connected (data s)).
  - destruct (isWithdrawing s); [|done]. rewrite inv_split in *. destruct r; cbn; naive_solver.
  - rewrite inv_split in *. cbn. naive_solver.
  - rewrite inv_split in *. destruct (dialog s) as [a|]; cbn; naive_solver.
  - rewrite inv_split in *. cbn [fst data form preview with_preview dialog isWithdrawing].
    destruct Hs as [Hp Hr]. split; [by apply quiet_inv|done].
  - rewrite inv_split in *. cbn [fst data form preview with_preview dialog isWithdrawing].
    destruct Hs as [Hp Hr]. split; [by apply quiet_inv|done].
Qed.
Lemma page_mount_inv' d : inv (mount (scval := scval) d).
Proof. rewrite inv_split. split; [apply change_inv, PreviewFacts.preview_initial_inv|done]. Qed.
Lemma page_run_inv es : forall s, inv s -> inv (run s es).1.
Proof.
  induction es as [|e es IH]; intros s Hs; [done|]. cbn [run]. pose proof (page_step_inv s e Hs) as H1.
  destruct (step s e) as [s1 o1]. specialize (IH s1 H1). by destruct (run s1 es).
Qed.

(** C31: whatever is typed, submitted, answered and confirmed, in any order and while the
    wallet and the figures change: the simulation whose answer will be shown is for the
    connected account and the amount in the field; without a positive amount or an account
    neither a preview nor a simulation error is kept; and an error under the amount is an error of
    the amount that is there. *)
Theorem preview_is_for_the_field d es : let s := (run (mount (scval := scval) d) es).1 in
  (forall id p, Preview.active (preview s) = Some id -> (id, p) ∈ Preview.runs (preview s) -> for_current s p) /\
  (previewed s = false -> Preview.simDetails (preview s) = None /\ Preview.simError (preview s) = None) /\
  (forall m, depositError (form s) = Some m -> positive_amount (depositAmount (form s)) = false).
Proof.
  cbn zeta. destruct (page_run_inv es _ (page_mount_inv' d)) as [_ H1 H2 _ H3].
  split; [exact H1|]. split; [intros H; apply H2, H|exact H3].
Qed.

(** What a submission of the second form leaves to be confirmed. *)
Definition withdrawal_checked s (z : Z) : Prop :=
  connected (data s) = true /\ isWithdrawing s = false /\
  positive_amount (withdrawShares (form s)) = true /\ stroops (amount_of (withdrawShares (form s))) = Ok z /\
  z <= default 0 (shares s).

Lemma asked_by s e a : dialog (step s e).1 = Some a ->
  dialog s = Some a \/ (e = SubmitWithdraw /\ withdrawal_checked s (ConfirmDialog.fn a)).
Proof.
  destruct e; cbn [step].
  - unfold set_data. case_bool_decide; by left.
  - destruct (connected _); [|by left]. unfold set_depositAmount. destruct (String.eqb _ _); by left.
  - destruct (connected _ && _); [|by left]. unfold submitDeposit. destruct (negb _); [by left|]. destruct (stroops _); by left.
  - destruct (isDepositing s); [|by left]. destruct r; [|by left]. cbn. unfold set_depositAmount.
    destruct (String.eqb _ _); by left.
  - destruct (connected _); by left.
  - destruct (connected _ && _) eqn:Hc; [|by left]. apply andb_true_iff in Hc as [Hc Hd].
    unfold submitWithdraw. destruct (handleWithdraw _ _ _) as [[m|b]|] eqn:Hw; [by left| |by left].
    cbn. intros [= <-]. right. split; [done|]. apply handleWithdraw_spec in Hw as (H1 & H2 & H3).
    unfold withdrawal_checked. unfold withdrawDisabled in Hd. by destruct (isWithdrawing s).
  - destruct (isWithdrawing s); [|by left]. destruct r; by left.
  - done.
  - destruct (dialog s); done.
  - by left.
  - by left.
Qed.
Lemma withdraw_sent s e z : CallWithdraw z ∈ (step s e).2 ->
  e = DialogConfirm /\ exists a, dialog s = Some a /\ ConfirmDialog.fn a = z.
Proof.
  assert (Hnil : CallWithdraw z ∉ []) by apply not_elem_of_nil.
  destruct e; cbn [step].
  - done.
  - by destruct (connected _).
  - destruct (connected _ && _); [|done]. unfold submitDeposit. destruct (negb _); [|destruct (stroops _)]; set_solver.
  - destruct (isDepositing s); done.
  - by destruct (connected _).
  - destruct (connected _ && _); [|done]. unfold submitWithdraw. destruct (handleWithdraw _ _ _) as [[]|]; set_solver.
  - destruct (isWithdrawing s); done.
  - done.
  - destruct (dialog s) as [a|]; cbn; [|done]. intros [= ->]%list_elem_of_singleton. split; [done|]. by exists a.
  - done.
  - done.
Qed.
Lemma sent_from es : forall s z, CallWithdraw z ∈ (run s es).2 ->
  (DialogConfirm ∈ es /\ exists a, dialog s = Some a /\ ConfirmDialog.fn a = z) \/
  exists es1 es2, es = es1 ++ SubmitWithdraw :: es2 /\ withdrawal_checked (run s es1).1 z /\ DialogConfirm ∈ es2.
Proof.
  induction es as [|e es IH]; intros s z; [by intros ?%elem_of_nil|]. cbn [run].
  pose proof (asked_by s e) as Ha. pose proof (withdraw_sent s e z) as Hw.
  destruct (step s e) as [s1 o1] eqn:E. specialize (IH s1 z). destruct (run s1 es) as [s2 o2]. cbn [fst snd] in *.
  intros [[-> H]%Hw|Hin]%elem_of_app; [left; split; [by left|done]|].
  destruct (IH Hin) as [(Hc & a & [H| [-> H]]%Ha & <-)|(es1 & es2 & -> & Hch & Hc)].
  - left. split; [by right|]. by exists a.
  - right. by exists [], es.
  - right. exists (e :: es1), es2. split; [done|]. split; [|done]. cbn [run]. rewrite E. by destruct (run s1 es1).
Qed.

(** C30: a withdrawal is sent to the pool only after the form was submitted by a connected
    wallet with a positive amount of at most the shares of its position at that time, for
    exactly the stroops of that amount, and was confirmed afterwards; and never while another
    one is under way. *)
Theorem withdrawals_are_checked d es z (Hz : CallWithdraw z ∈ (run (mount (scval := scval) d) es).2) :
  (exists es1 es2, es = es1 ++ SubmitWithdraw :: es2 /\
     withdrawal_checked (run (mount (scval := scval) d) es1).1 z /\ DialogConfirm ∈ es2) /\
  (forall e z', CallWithdraw z' ∈ (step (run (mount (scval := scval) d) es).1 e).2 ->
     isWithdrawing (run (mount (scval := scval) d) es).1 = false).
Proof.
  split.
  - by destruct (sent_from es _ z Hz) as [(_ & a & Ha & _)|H].
  - intros e z' [_ (a & Ha & _)]%withdraw_sent.
    destruct (isWithdrawing _) eqn:Hw; [|done]. apply (i_dialog _ (page_run_inv es _ (page_mount_inv' d))) in Hw. congruence.
Qed.

(** A submission of the first form and its answer are one run of [handleDeposit]: the log
    is what the page does. *)
Definition logged s (ev : PoolUiEv) : state scval * list effect :=
  match ev with
  | SetDepositError m => (set_depositError s m, match m with Some _ => [FocusDeposit] | None => [] end)
  | DepositCall z a _ => (s, [CallDeposit z a])
  | SetDepositAmount t => (set_depositAmount s t, [])
  end.
Definition replay s (l : list PoolUiEv) : state scval * list effect :=
  foldl (fun '(s, o) ev => let '(s', o') := logged s ev in (s', o ++ o')) (s, []) l.
Lemma settled_is_idle s : isDepositing s = false ->
  pending (pending (set_depositError s None) true (isWithdrawing s)) false (isWithdrawing s) = set_depositError s None.
Proof. intros Hd. unfold pending, set_depositError, with_form. cbn. by rewrite Hd. Qed.
Lemma deposit_is_the_handler s r : connected (data s) = true -> isDepositing s = false ->
  run s [SubmitDeposit; DepositSettled r] =
  replay s (Effects.run (PoolPage.handleDeposit (fun _ _ env => (r, env)) (depositAmount (form s))) ()).2.
Proof.
  intros Hc Hd. cbn [run step]. unfold depositDisabled. rewrite Hc, Hd. cbn [andb negb]. unfold submitDeposit.
  unfold handleDeposit, Effects.run, mbind, M_bind, emit, lift, io. destruct (positive_amount _); cbn [negb].
  - destruct (stroops _) as [z|e]; cbn.
    + pose proof (settled_is_idle s Hd) as Hs. cbn in Hs. destruct r as [h|e]; cbn; by rewrite ?Hs.
    + by rewrite Hd.
  - cbn. by rewrite Hd.
Qed.
End Facts.
End LpPageFacts.

(** ** What is shown *)
(** Redeemable shares are shown with the unit of an amount, rounded, so the amount shown
    may be refused as more than there is. *)
Lemma shown_shares_may_be_refused :
  LpPage.formatShareValue (Some 19999999) = "2.00 USDC" /\
  handleWithdraw (Some "GA") (Some 19999999) "2.00" = Ok (Refused "Amount exceeds your redeemable shares.").
Proof. by vm_compute. Qed.

(** ** Witnesses *)
Module LpPageWitness.
Import LpPage.
Definition holder : LPPosition :=
  {| lp_shares := 50000000; lp_usdcValue := 51000000; lp_yieldEarned := 1000000; lp_depositCount := Num.of_Z 2 |}.
Definition session : props :=
  {| connected := true; address := Some "GA"; stats := None; isStatsLoading := false;
     position := Some holder; isPositionLoading := false |}.
Definition withdrawing : list (event string) := [TypeShares "3"; SubmitWithdraw; DialogConfirm].
End LpPageWitness.
Lemma withdrawals_are_checked_witness :
  (exists es1 es2, LpPageWitness.withdrawing = es1 ++ LpPage.SubmitWithdraw :: es2 /\
     LpPageFacts.withdrawal_checked (LpPage.run (LpPage.mount LpPageWitness.session) es1).1 30000000 /\
     LpPage.DialogConfirm ∈ es2) /\
  (forall e z', LpPage.CallWithdraw z' ∈ (LpPage.step (LpPage.run (LpPage.mount LpPageWitness.session) LpPageWitness.withdrawing).1 e).2 ->
     LpPage.isWithdrawing (LpPage.run (LpPage.mount LpPageWitness.session) LpPageWitness.withdrawing).1 = false).
Proof.
  apply (LpPageFacts.withdrawals_are_checked LpPageWitness.session LpPageWitness.withdrawing 30000000).
  apply list_elem_of_In. vm_compute. left. reflexivity.
Defined.
