(* ===== verification/FormPage.v ===== *)
(** * The invoice form on the page ([components/invoice/InvoiceForm.tsx], [components/shared/AmountInput.tsx])

    The controls of the form over [handleNextStep] and the outcomes of [handleCreate]
    ([InvoiceForm]) and the picker ([DatePicker]).  The first step loads the Stellar SDK
    before it checks the terms it was submitted with, so a check is an event of its own;
    so is the end of a submission.  The number format of the browser is an argument. *)

From S2P Require Import Prelude JsNumber JsString JsValue JsDate Effects SdkTypes Schemas WebApi WebErrors Assets InvoiceForm DatePicker.
Local Open Scope Z_scope.

Module FormPage.
Section FormPage.
Context `{F : DateFns} (isValidEd25519PublicKey : string -> bool) (startOfDay : Z -> Z -> Z).

(** [checking]: the submissions of the first step whose SDK is still loading, each with the
    form of its render; [isBusy]: a creation is under way ([isCreating || isListing]). *)
Record state := { form : InvoiceForm; checking : list (nat * InvoiceForm); next : nat; isBusy : bool }.
Definition initial : state := {| form := initial_form; checking := []; next := 0; isBusy := false |}.
Definition with_form (s : state) (f : InvoiceForm) : state :=
  {| form := f; checking := checking s; next := next s; isBusy := isBusy s |}.

Definition setFaceValue (f : InvoiceForm) (v : string) : InvoiceForm :=
  {| buyer := buyer f; faceValue := v; asset := asset f; dueDate := dueDate f; discountBps := discountBps f;
     immediateList := immediateList f; error := error f; InvoiceForm.step := InvoiceForm.step f; isListing := isListing f |}.
Definition setAsset (f : InvoiceForm) (a : AssetType) : InvoiceForm :=
  {| buyer := buyer f; faceValue := faceValue f; asset := a; dueDate := dueDate f; discountBps := discountBps f;
     immediateList := immediateList f; error := error f; InvoiceForm.step := InvoiceForm.step f; isListing := isListing f |}.
Definition setDiscountBps (f : InvoiceForm) (n : num) : InvoiceForm :=
  {| buyer := buyer f; faceValue := faceValue f; asset := asset f; dueDate := dueDate f; discountBps := n;
     immediateList := immediateList f; error := error f; InvoiceForm.step := InvoiceForm.step f; isListing := isListing f |}.
Definition setImmediateList (f : InvoiceForm) (b : bool) : InvoiceForm :=
  {| buyer := buyer f; faceValue := faceValue f; asset := asset f; dueDate := dueDate f; discountBps := discountBps f;
     immediateList := b; error := error f; InvoiceForm.step := InvoiceForm.step f; isListing := isListing f |}.

(** What a check does when the SDK has loaded: its answers are those for the form it was
    submitted with, [f0], and its updates go to the form there is then, [f]. *)
Definition settle_check (now : Z) (f0 f : InvoiceForm) : InvoiceForm :=
  let g := handleNextStep isValidEd25519PublicKey startOfDay now f0 in
  let f := if String.eqb (buyer g) (buyer f0) then f else setBuyer f (buyer g) in
  match error g with Some m => setError f (Some m) | None => setStep f 2 end.

Inductive ending := EndFailed (message : string) | EndFinished (done : res ()).
Inductive edit :=
  | EditBuyer (text : string) | EditFaceValue (text : string) | EditAsset (a : AssetType)
  | EditDueDate (today day : Z)           (* a click in the calendar *)
  | EditDiscount (position : Z) | EditList (b : bool).
Definition edited (f : InvoiceForm) (e : edit) : InvoiceForm :=
  match e with
  | EditBuyer t => setBuyer f t
  | EditFaceValue t => setFaceValue f t
  | EditAsset a => setAsset f a
  | EditDueDate today d => pick today f d
  | EditDiscount k => setDiscountBps f (Str.parse_int (Num.bigint_to_string k))
  | EditList b => setImmediateList f b
  end.
Inductive event :=
  | Edit (e : edit) | Review
  | Checked (id : nat) (now : Z) | NotLoaded (id : nat)
  | Back | CreateClick | Ended (r : ending).

(** The browser does not submit while a required field is empty. *)
Definition required (f : InvoiceForm) : bool := negb (String.eqb (buyer f) "") && negb (String.eqb (faceValue f) "").
Definition without (l : list (nat * InvoiceForm)) (id : nat) : list (nat * InvoiceForm) :=
  List.filter (fun c => negb (c.1 =? id)%nat) l.
Definition submitted (s : state) (id : nat) : option InvoiceForm :=
  snd <$> List.find (fun c => (c.1 =? id)%nat) (checking s).
Definition drop_check (s : state) (id : nat) : state :=
  {| form := form s; checking := without (checking s) id; next := next s; isBusy := isBusy s |}.
Definition end_of (r : ending) (f : InvoiceForm) : InvoiceForm :=
  match r with EndFailed m => failed f m | EndFinished d => finished f d end.

(** A step, and the form whose creation it asks for. *)
Definition step (s : state) (e : event) : state * option InvoiceForm :=
  let f := form s in
  match e with
  | Edit x => (if InvoiceForm.step f =? 1 then with_form s (edited f x) else s, None)
  | Review =>
      if (InvoiceForm.step f =? 1) && required f then
        ({| form := setError f None; checking := (next s, f) :: checking s; next := S (next s); isBusy := isBusy s |}, None)
      else (s, None)
  | Checked id now =>
      match submitted s id with
      | Some f0 => (with_form (drop_check s id) (settle_check now f0 f), None)
      | None => (s, None)
      end
  | NotLoaded id => (drop_check s id, None)
  | Back => (if (InvoiceForm.step f =? 2) && negb (isBusy s) then with_form s (setStep (setError f None) 1) else s, None)
  | CreateClick =>
      if (InvoiceForm.step f =? 2) && negb (isBusy s) then
        ({| form := setError f None; checking := checking s; next := next s; isBusy := true |}, Some f)
      else (s, None)
  | Ended r =>
      (if isBusy s then {| form := end_of r f; checking := checking s; next := next s; isBusy := false |} else s, None)
  end.
Fixpoint run (s : state) (es : list event) : state * list InvoiceForm :=
  match es with
  | [] => (s, [])
  | e :: es =>
      let '(s1, o) := step s e in
      let '(s2, os) := run s1 es in (s2, match o with Some f => f :: os | None => os end)
  end.

(** ** What is shown *)
Context (toLocaleString : num -> string).
Definition rate_text (f : InvoiceForm) : string := Num.to_fixed (Num.div (discountBps f) (Num.of_Z 100)) 2 +:+ "%".
Definition rate_label (f : InvoiceForm) : string :=
  rate_text f +:+ " (" +:+ Num.to_string (discountBps f) +:+ " bps)".
(** The slider: from 50 to 500 in steps of 10. *)
Definition slider : list Z := map (fun i => 50 + 10 * Z.of_nat i) (seq 0 46).
Record Summary := {
  su_faceValue : string; su_discount : option (string * string); su_payout : option string;
  su_buyer : string; su_dueDate : string }.
Definition amount_text (n : num) (f : InvoiceForm) : string := toLocaleString n +:+ " " +:+ asset_name (asset f).
Definition summary (f : InvoiceForm) : Summary :=
  {| su_faceValue := amount_text (parsedValue f) f;
     su_discount := if immediateList f then
                      Some ("Discount (" +:+ rate_text f +:+ "):", "-" +:+ amount_text (discountPaid f) f)
                    else None;
     su_payout := if immediateList f then Some (amount_text (payoutAmount f) f) else None;
     su_buyer := buyer f; su_dueDate := dueDate f |}.
Definition create_label (isListing isCreating : bool) : string :=
  if isListing then "LISTING..." else if isCreating then "CREATING..." else "CREATE INVOICE".

(** [AmountInput]: its label, the unit beside the field, and the preview below it. *)
Record AmountView := { av_label : string; av_unit : string; av_value : string; av_preview : option string }.
Definition AmountInput (value : string) (asset : AssetType) (label previewLabel : option string)
  (showPreview : bool) (previewValue : option num) : AmountView :=
  let unit := asset_name asset in
  let v := Str.parse_float (Str.remove_char ","%char value) in
  {| av_label := opt_str_or label ("Amount (" +:+ unit +:+ ")"); av_unit := unit; av_value := value;
     av_preview := if showPreview && (if previewValue then true else false) then
                     Some (opt_str_or previewLabel (toLocaleString (if Num.truthy v then v else Num.zero) +:+ " " +:+ unit))
                   else None |}.
Definition face_value_input (f : InvoiceForm) : AmountView :=
  AmountInput (faceValue f) (asset f) (Some "Face Value") None false None.
End FormPage.
End FormPage.

(** ** Properties *)
Module FormPageFacts.
Import FormPage.
Section Facts.
Context `{F : DateFns} {L : DateFnsLaws F} (valid : string -> bool) (startOfDay : Z -> Z -> Z).
Abbreviation step := (step valid startOfDay).
Abbreviation run := (run valid startOfDay).

(** The terms of [f] pass the checks made at [now]. *)
Definition accepted (now : Z) (f : InvoiceForm) : Prop :=
  valid (buyer f) = true /\ Num.leb (parsedValue f) Num.zero = false /\ dueDate f <> "" /\
  Num.ltb (Date.parse (dueDate f)) (Num.of_Z (startOfDay now 7)) = false /\
  Num.gtb (Date.parse (dueDate f)) (Num.of_Z (startOfDay now 365)) = false.
Lemma accepted_terms now f g : buyer g = buyer f -> faceValue g = faceValue f -> dueDate g = dueDate f ->
  accepted now f -> accepted now g.
Proof. intros Hb Hv Hd. unfold accepted, parsedValue. by rewrite Hb, Hv, Hd. Qed.

(** A check that shows no error accepts the terms it was submitted with; one that shows an
    error does not move on. *)
Lemma check_answers now f0 : let g := handleNextStep valid startOfDay now f0 in
  match error g with
  | None => g = setStep (setBuyer (setError f0 None) (Str.trim (buyer f0))) 2 /\ accepted now g
  | Some m => g = setError (setBuyer f0 (buyer g)) (Some m)
  end.
Proof.
  unfold handleNextStep. cbn [buyer setError].
  destruct (String.eqb _ "" || negb (valid _)) eqn:Hb; [by destruct f0|].
  apply orb_false_iff in Hb as [_ Hb%negb_false_iff].
  destruct (Num.leb (parsedValue _) Num.zero) eqn:Hv; [done|].
  destruct (String.eqb_spec (dueDate (setBuyer (setError f0 None) (Str.trim (buyer f0)))) "") as [|Hd]; [done|].
  destruct (Num.leb (Date.parse _) _); [done|].
  destruct (Num.ltb (Date.parse _) _) eqn:H7; [done|].
  destruct (Num.gtb (Date.parse _) _) eqn:H365; [done|]. cbn [error setStep setBuyer setError]. split; [done|].
  by repeat split.
Qed.
(** On the form it was submitted with, a check is [handleNextStep]. *)
Lemma settle_is_next_step now f0 :
  settle_check valid startOfDay now f0 (setError f0 None) = handleNextStep valid startOfDay now f0.
Proof.
  unfold settle_check. pose proof (check_answers now f0) as H. cbn zeta in H.
  destruct (error _) as [m|].
  - rewrite H. cbn [buyer setBuyer setError]. by destruct (String.eqb_spec (buyer (handleNextStep valid startOfDay now f0)) (buyer f0)) as [->|].
  - destruct H as [-> _]. cbn [buyer setStep setBuyer setError].
    destruct (String.eqb_spec (Str.trim (buyer f0)) (buyer f0)) as [->|]; by destruct f0.
Qed.

(** While a check runs, nothing happens but its end. *)
Definition ends_check (e : event) : bool := match e with Checked _ _ | NotLoaded _ => true | _ => false end.
Fixpoint calm (s : state) (es : list event) : bool :=
  match es with
  | [] => true
  | e :: es => (match checking s with [] => true | _ => ends_check e end) && calm (step s e).1 es
  end.
(** What the controls produce: a day the calendar shows, a position of the slider. *)
Definition calendar_day (d : Z) : Prop := common_day d /\ Z.abs d < 2 ^ 24.
Definition offered (e : event) : Prop :=
  match e with
  | Edit (EditDueDate _ d) => calendar_day d
  | Edit (EditDiscount k) => k ∈ slider
  | _ => True
  end.
Definition dated (f : InvoiceForm) : Prop := dueDate f = "" \/ exists d, calendar_day d /\ dueDate f = format_day d.
Definition rated (f : InvoiceForm) : Prop := exists k, k ∈ slider /\ discountBps f = Num.of_Z k.
(** [nows]: the times of the checks there are. *)
Record inv (nows : list Z) (s : state) : Prop := {
  i_checks : checking s = [] \/
    exists id f0, checking s = [(id, f0)] /\ form s = setError f0 None /\ InvoiceForm.step f0 = 1;
  i_terms : dated (form s) /\ rated (form s);
  i_review : InvoiceForm.step (form s) = 2 -> exists now, now ∈ nows /\ accepted now (form s) }.

Lemma slider_positions k : k ∈ slider -> Str.parse_int (Num.bigint_to_string k) = Num.of_Z k.
Proof.
  intros Hk. assert (H : Forall (fun k => Str.parse_int (Num.bigint_to_string k) = Num.of_Z k) slider).
  { repeat constructor. }
  by apply (proj1 (list.Forall_forall _ _) H).
Qed.
Lemma edited_step f x : InvoiceForm.step (edited f x) = InvoiceForm.step f.
Proof.
  destruct x; cbn; try done. unfold pick. destruct (Picker.dayDisabled _ _); [done|]. by destruct (Picker.step _ _).2.
Qed.
Lemma edited_terms f x : offered (Edit x) -> dated f /\ rated f -> dated (edited f x) /\ rated (edited f x).
Proof.
  intros Ho [Hd Hr]. destruct x as [t|t|a|today d|k|b]; cbn; try (by split).
  - unfold pick. destruct (Picker.dayDisabled _ _); cbn; [done|]. split; [|done]. right. by exists d.
  - split; [done|]. exists k. split; [done|]. by apply slider_positions.
Qed.
Lemma check_keeps_terms now f0 : let g := handleNextStep valid startOfDay now f0 in
  dueDate g = dueDate f0 /\ discountBps g = discountBps f0.
Proof. cbn zeta. pose proof (check_answers now f0) as H. cbn zeta in H. destruct (error _); [by rewrite H|by destruct H as [-> _]]. Qed.
Lemma checked_inv nows s id now : now ∈ nows -> inv nows s -> inv nows (step s (Checked id now)).1.
Proof.
  intros Hnow [Hc Ht Hr]. cbn [FormPage.step]. destruct (submitted s id) as [f0|] eqn:Hs; [|by constructor]. unfold submitted in Hs.
  destruct Hc as [Hc|(id' & g0 & Hc & Hf & H1)]; rewrite Hc in Hs; cbn in Hs; [done|].
  destruct (Nat.eqb_spec id' id) as [->|]; [|done]. cbn in Hs. injection Hs as ->.
  rewrite Hf, settle_is_next_step. constructor; cbn [form checking with_form drop_check fst].
  - left. rewrite Hc. cbn. by rewrite Nat.eqb_refl.
  - destruct (check_keeps_terms now f0) as [Hd Hb]. unfold dated, rated in *. rewrite Hd, Hb. by rewrite Hf in Ht.
  - pose proof (check_answers now f0) as H. cbn zeta in H. destruct (error _).
    + rewrite H. cbn. by rewrite H1.
    + intros _. exists now. split; [done|]. by destruct H.
Qed.
Lemma form_step_inv nows s e : (match checking s with [] => true | _ => ends_check e end) = true -> offered e ->
  (forall id now, e = Checked id now -> now ∈ nows) -> inv nows s -> inv nows (step s e).1.
Proof.
  intros Hq Ho Hn Hs. destruct e as [x| |id now|id| | |r].
  2, 3, 4: cbn [ends_check] in Hq.
  - destruct Hs as [Hc Ht Hr]. cbn in Hq |- *. destruct (Z.eqb_spec (InvoiceForm.step (form s)) 1) as [H1|]; [|by constructor].
    destruct (checking s) eqn:Hk; [|done]. constructor; cbn; [by left|by apply edited_terms|].
    rewrite edited_step. lia.
  - destruct Hs as [Hc Ht Hr]. cbn. destruct (checking s) eqn:Hk; [|done].
    destruct (Z.eqb_spec (InvoiceForm.step (form s)) 1) as [H1|]; cbn; [|by constructor; [left|..]].
    destruct (required (form s)); [|by constructor; [left|..]].
    constructor; cbn; [right; by eexists _, _|done|lia].
  - apply checked_inv; [by eapply Hn|done].
  - destruct Hs as [Hc Ht Hr]. constructor; cbn; [|done|done].
    destruct Hc as [->|(id' & f0 & -> & Hf & H1)]; [by left|]. cbn. destruct (Nat.eqb id' id); [by left|right; by eexists _, _].
  - destruct Hs as [Hc Ht Hr]. cbn in Hq |- *. destruct (_ && _); [|by constructor].
    destruct (checking s) eqn:Hk; [|done]. constructor; cbn; [by left|done|lia].
  - destruct Hs as [Hc Ht Hr]. cbn in Hq |- *. destruct (_ && _); [|by constructor].
    destruct (checking s) eqn:Hk; [|done]. by constructor; cbn; [left|..].
  - destruct Hs as [Hc Ht Hr]. cbn in Hq |- *. destruct (isBusy s); [|by constructor].
    destruct (checking s) eqn:Hk; [|done]. destruct r as [m|d]; constructor; cbn; try done; [by left|by left|].
    split; [by left|apply Ht].
Qed.
Lemma created_form nows s e f : inv nows s -> (step s e).2 = Some f ->
  dated f /\ rated f /\ exists now, now ∈ nows /\ accepted now f.
Proof.
  intros [_ [Hd Hr] Ha]. destruct e; cbn; try done; try (by destruct (_ && _)).
  - by destruct (submitted s id).
  - destruct (Z.eqb_spec (InvoiceForm.step (form s)) 2); [|done]. destruct (negb _); [|done]. intros [= <-].
    split; [done|]. split; [done|]. by apply Ha.
Qed.
Lemma created_in_run nows es : forall s, inv nows s -> calm s es = true -> Forall offered es ->
  (forall id now, Checked id now ∈ es -> now ∈ nows) -> forall f, f ∈ (run s es).2 ->
  dated f /\ rated f /\ exists now, now ∈ nows /\ accepted now f.
Proof.
  induction es as [|e es IH]; intros s Hs Hq Ho Hn f Hf; [by apply elem_of_nil in Hf|].
  cbn [calm] in Hq. apply andb_true_iff in Hq as [Hq1 Hq2]. apply list.Forall_cons in Ho as [Ho1 Ho2].
  pose proof (form_step_inv nows s e Hq1 Ho1 ltac:(intros; apply (Hn id); subst; by left) Hs) as H1.
  pose proof (created_form nows s e) as Hcr. cbn [FormPage.run] in Hf. destruct (step s e) as [s1 o].
  specialize (IH s1 H1 Hq2 Ho2 ltac:(intros; apply (Hn id); by right)).
  destruct (run s1 es) as [s2 os]. cbn [fst snd] in *. destruct o as [g|]; [|by apply IH].
  apply elem_of_cons in Hf as [->|Hf]; [by apply Hcr|by apply IH].
Qed.
Lemma initial_inv nows : inv nows initial.
Proof.
  constructor; cbn; [by left| |lia]. split; [by left|]. exists 200. split; [|done].
  apply (bool_decide_unpack _). by vm_compute.
Qed.
Lemma accepted_dates now f d (Hs : forall k, 0 <= k <= 365 -> Z.abs (startOfDay now k) < 2 ^ 53) :
  calendar_day d -> dueDate f = format_day d -> accepted now f ->
  startOfDay now 7 <= d * Date.ms_per_day <= startOfDay now 365.
Proof.
  intros [Hc Hd] Hf (_ & _ & _ & H7 & H365). rewrite Hf, format_iso, parse_iso_date in H7, H365 by done.
  unfold Date.ms_per_day in *. unfold Num.gtb in H365. fold (Num.ltb (Num.of_Z (startOfDay now 365)) (Num.of_Z (d * 86400000))) in H365.
  pose proof (Hs 7 ltac:(lia)). pose proof (Hs 365 ltac:(lia)).
  rewrite of_Z_ltb in H7, H365 by lia. apply Z.ltb_ge in H7, H365. lia.
Qed.

(** As long as the form is left alone while a check loads the SDK, an invoice is only
    created with terms that passed a check made before: an account as the buyer, a positive
    face value, a due date from the calendar that lies from the seventh to the 365th day
    of that check, and a rate of the slider. *)
Theorem created_terms_were_checked es f (Hq : calm initial es = true) (Ho : Forall offered es)
  (Hs : forall id now k, Checked id now ∈ es -> 0 <= k <= 365 -> Z.abs (startOfDay now k) < 2 ^ 53) (Hf : f ∈ (run initial es).2) :
  valid (buyer f) = true /\ Num.leb (parsedValue f) Num.zero = false /\
  (exists k, k ∈ slider /\ discountBps f = Num.of_Z k) /\
  exists id now d, Checked id now ∈ es /\ dueDate f = format_day d /\
    startOfDay now 7 <= d * Date.ms_per_day <= startOfDay now 365.
Proof.
  set (nows := omap (fun e => match e with Checked _ now => Some now | _ => None end) es).
  assert (Hn : forall now, now ∈ nows <-> exists id, Checked id now ∈ es).
  { intros now. unfold nows. rewrite list_elem_of_omap. split.
    - intros (e & He & Hm). destruct e; try done. injection Hm as <-. by eexists.
    - intros [id Hid]. by exists (Checked id now). }
  destruct (created_in_run nows es _ (initial_inv nows) Hq Ho ltac:(intros; apply Hn; by eexists) f Hf)
    as (Hd & Hr & now & Hnow & Ha).
  pose proof Ha as (Hv & Hp & Hne & _). split; [done|]. split; [done|]. split; [done|].
  apply Hn in Hnow as [id Hid]. destruct Hd as [Hd|(d & Hc & Hd)]; [done|].
  exists id, now, d. split; [done|]. split; [done|]. apply (accepted_dates now f); try done. intros k. by apply (Hs id).
Qed.
End Facts.
End FormPageFacts.

(** ** Witnesses *)
Module FormPageWitness.
Import FormPage.
(** 2024-03-01T12:00:00Z, its day, and the day a week later. *)
Definition noon : Z := 1709294400000.
Definition today : Z := 19783.
Definition day : Z := 19790.
Definition filled : list event :=
  [Edit (EditBuyer " G "); Edit (EditFaceValue "1,000.50"); Edit (EditDueDate today day); Edit (EditDiscount 150); Review].
Definition reviewed : list event := filled ++ [Checked 0 noon; CreateClick].
(** The face value is changed while the SDK loads. *)
Definition hurried : list event := filled ++ [Edit (EditFaceValue "-5"); Checked 0 noon; CreateClick].
#[local] Existing Instance MockDateFns.fns.
Definition created (es : list event) : list InvoiceForm := (run (fun _ => true) (zone_midnight 0) initial es).2.
Definition terms : InvoiceForm :=
  {| buyer := "G"; faceValue := "1,000.50"; asset := USDC; dueDate := "2024-03-08"; discountBps := Num.of_Z 150;
     immediateList := true; error := None; InvoiceForm.step := 2; isListing := false |}.
End FormPageWitness.

Lemma created_terms_were_checked_witness :
  FormPageWitness.created FormPageWitness.reviewed = [FormPageWitness.terms] /\
  Num.leb (parsedValue FormPageWitness.terms) Num.zero = false.
Proof.
  split; [vm_compute; reflexivity|].
  refine (proj1 (proj2 (@FormPageFacts.created_terms_were_checked MockDateFns.fns MockDateFns.laws (fun _ => true)
    (zone_midnight 0) FormPageWitness.reviewed FormPageWitness.terms _ _ _ _))).
  - vm_compute. reflexivity.
  - assert (Hd : FormPageFacts.calendar_day FormPageWitness.day) by (repeat split; by vm_compute).
    assert (Hk : 150 ∈ FormPage.slider) by (apply (bool_decide_unpack _); by vm_compute).
    apply list.Forall_forall. intros e He. set_unfold in He. by destruct_or! He; subst e.
  - intros id now k Hin Hk. assert (now = 1709294400000) as ->; [|by apply zone_range].
    set_unfold in Hin. naive_solver.
  - apply list_elem_of_In. vm_compute. left. reflexivity.
Defined.

(** The terms that are checked are those of the submission, those that are created are those
    of the form: a field edited while the SDK loads is not checked. *)
Lemma hurried_edit_is_not_checked :
  map faceValue (FormPageWitness.created FormPageWitness.hurried) = ["-5"] /\
  @FormPageFacts.calm MockDateFns.fns (fun _ => true) (zone_midnight 0) FormPage.initial FormPageWitness.hurried = false.
Proof. by vm_compute. Qed.
