(* ===== verification/Calculators.v ===== *)
(** * The calculators of the landing page ([components/shared/DiscountCalculator.tsx],
      [SmeCalculator.tsx], [LpCalculator.tsx], [LpYieldCalculator.tsx])

    Their sliders, lists and tabs over the figures of [Charts].  A slider holds the text of
    one of its positions.  The figures shown go through binary64; for every position of the
    sliders of the first calculator they are the exact amounts once rounded to whole
    units, and for those of the second the rate is a nearest one to the exact rate.  The
    number formats of the browser are arguments. *)

From Stdlib Require Import QArith Lqa SpecFloat.
From S2P Require Import Prelude JsNumber JsRounding JsString Charts.
Local Open Scope Z_scope.

(** The text of a slider with steps of a tenth, at [k] tenths. *)
Definition tenth_text (k : Z) : string :=
  Num.bigint_to_string (k / 10) +:+
  (if k mod 10 =? 0 then "" else "." +:+ Num.bigint_to_string (k mod 10)).
(** A rate and its basis points, as both calculators show them. *)
Definition rate_shown (rate : num) : string :=
  Num.to_fixed rate 1 +:+ "% (" +:+ Num.to_string (Num.round (Num.mul rate (Num.of_Z 100))) +:+ " bps)".

(** An [AnimatedValue] at rest; [whole] is [toLocaleString] with no digits after the point. *)
Definition animated (whole : num -> string) (prefix : string) (value : num) (suffix : string) : string := prefix +:+ whole value +:+ suffix.

Module Sme.
Record state := { faceValue : num; paymentTerms : num; discountRate : num }.
Definition initial : state :=
  {| faceValue := Num.of_Z 50000; paymentTerms := Num.of_Z 60; discountRate := Num.of_Z 2 |}.
Inductive event := FaceValue (text : string) | Terms (text : string) | Rate (text : string).
Definition step (s : state) (e : event) : state :=
  match e with
  | FaceValue t => {| faceValue := Str.parse_int t; paymentTerms := paymentTerms s; discountRate := discountRate s |}
  | Terms t => {| faceValue := faceValue s; paymentTerms := Str.parse_int t; discountRate := discountRate s |}
  | Rate t => {| faceValue := faceValue s; paymentTerms := paymentTerms s; discountRate := Str.parse_float t |}
  end.
(** From 1000 to 500000 in steps of 1000; Net 30, 60 and 90; from 0.5 to 5 in tenths. *)
Definition offered (e : event) : Prop :=
  match e with
  | FaceValue t => exists i, 1 <= i <= 500 /\ t = Num.bigint_to_string (1000 * i)
  | Terms t => t ∈ ["30"; "60"; "90"]
  | Rate t => exists k, 5 <= k <= 50 /\ t = tenth_text k
  end.
Record view := {
  sv_faceValue : string; sv_rate : string; sv_wait : string; sv_receive : string;
  sv_funded : string; sv_fee : string; sv_paid : string; sv_obligation : string }.
Section Render.
Context (toLocaleString whole : num -> string).
Definition render (s : state) : view :=
  let '(discountPaid, fundedAmount) := useSmeDerivedValues (faceValue s) (discountRate s) in
  {| sv_faceValue := toLocaleString (faceValue s) +:+ " USDC"; sv_rate := rate_shown (discountRate s);
     sv_wait := Num.to_string (paymentTerms s) +:+ " Days"; sv_receive := toLocaleString (faceValue s) +:+ " USDC";
     sv_funded := animated whole "" fundedAmount " USDC"; sv_fee := animated whole "-" discountPaid " USDC";
     sv_paid := animated whole "" discountPaid " USDC"; sv_obligation := toLocaleString (faceValue s) +:+ " USDC" |}.
End Render.
End Sme.

Module Lp.
Record state := { lpDeposit : num; lpUtilization : num; lpAvgDiscount : num; lpAvgMaturity : num }.
Definition initial : state :=
  {| lpDeposit := Num.of_Z 10000; lpUtilization := Num.of_Z 80; lpAvgDiscount := Num.of_Z 2; lpAvgMaturity := Num.of_Z 60 |}.
Inductive event := Deposit (text : string) | Utilization (text : string) | AvgDiscount (text : string) | AvgMaturity (text : string).
Definition step (s : state) (e : event) : state :=
  match e with
  | Deposit t => {| lpDeposit := Str.parse_int t; lpUtilization := lpUtilization s; lpAvgDiscount := lpAvgDiscount s; lpAvgMaturity := lpAvgMaturity s |}
  | Utilization t => {| lpDeposit := lpDeposit s; lpUtilization := Str.parse_int t; lpAvgDiscount := lpAvgDiscount s; lpAvgMaturity := lpAvgMaturity s |}
  | AvgDiscount t => {| lpDeposit := lpDeposit s; lpUtilization := lpUtilization s; lpAvgDiscount := Str.parse_float t; lpAvgMaturity := lpAvgMaturity s |}
  | AvgMaturity t => {| lpDeposit := lpDeposit s; lpUtilization := lpUtilization s; lpAvgDiscount := lpAvgDiscount s; lpAvgMaturity := Str.parse_int t |}
  end.
Definition offered (e : event) : Prop :=
  match e with
  | Deposit t => exists i, 1 <= i <= 200 /\ t = Num.bigint_to_string (500 * i)
  | Utilization t => exists i, 2 <= i <= 20 /\ t = Num.bigint_to_string (5 * i)
  | AvgDiscount t => exists k, 5 <= k <= 50 /\ t = tenth_text k
  | AvgMaturity t => exists i, 3 <= i <= 18 /\ t = Num.bigint_to_string (5 * i)
  end.
Record view := {
  lv_deposit : string; lv_utilization : string; lv_discount : string; lv_maturity : string;
  lv_apr : string; lv_formula : string; lv_annual : string; lv_principal : string }.
Definition multiplied : string := " " +:+ String (chr 215) "" +:+ " ".
Section Render.
Context (toLocaleString whole : num -> string).
Definition render (s : state) : view :=
  let '(apy, earnings) := useLpDerivedValues (lpDeposit s) (lpUtilization s) (lpAvgDiscount s) (lpAvgMaturity s) in
  {| lv_deposit := toLocaleString (lpDeposit s) +:+ " USDC"; lv_utilization := Num.to_string (lpUtilization s) +:+ "%";
     lv_discount := rate_shown (lpAvgDiscount s); lv_maturity := Num.to_string (lpAvgMaturity s) +:+ " Days";
     lv_apr := Num.to_fixed apy 2 +:+ "%";
     lv_formula := "Formula: Utilization (" +:+ Num.to_string (lpUtilization s) +:+ "%)" +:+ multiplied +:+
                   "Avg Discount (" +:+ Num.to_string (lpAvgDiscount s) +:+ "%)" +:+ multiplied +:+
                   "(365 / Avg Maturity (" +:+ Num.to_string (lpAvgMaturity s) +:+ "d))";
     lv_annual := animated whole "" earnings " USDC";
     lv_principal := "Earnings generated annually based on " +:+ toLocaleString (lpDeposit s) +:+ " USDC principal." |}.
End Render.
End Lp.

(** The calculator of the hero: the deposit is typed, the utilisation a slider. *)
Module LpYieldPanel.
Record state := { deposit : string; utilization : num }.
Definition initial : state := {| deposit := "10000"; utilization := Num.of_Z 75 |}.
Inductive event := Deposit (text : string) | Utilization (text : string).
Definition step (s : state) (e : event) : state :=
  match e with
  | Deposit t => {| deposit := t; utilization := utilization s |}
  | Utilization t => {| deposit := deposit s; utilization := Str.parse_int t |}
  end.
Definition offered (e : event) : Prop :=
  match e with
  | Deposit _ => True
  | Utilization t => exists i, 10 <= i <= 100 /\ t = Num.bigint_to_string i
  end.
(** A yield and the width of its bar. *)
Record view := { yv_yield : string; yv_monthly : string; yv_bars : list (string * string * string) }.
Definition width_of (w : num) : string := Num.to_string w +:+ "%".
Definition render (fixed2 : num -> string) (s : state) : view :=
  let u := utilization s in
  let pct n := Num.to_fixed n 2 +:+ "%" in
  {| yv_yield := pct (LpYield.annualYieldPct u);
     yv_monthly := fixed2 (LpYield.monthlyEarnings (deposit s) u) +:+ " USDC";
     yv_bars := [("TrusTrove LP", pct (LpYield.annualYieldPct u), width_of (math_min (LpYield.trustroveWidth u) (Num.of_Z 100)));
                 ("Savings Account", pct LpYield.SAVINGS_APY, width_of (LpYield.savingsWidth u));
                 ("T-Bills", pct LpYield.TBILLS_APY, width_of (LpYield.tbillWidth u))] |}.
End LpYieldPanel.

(** The two tabs: a panel that is not shown is unmounted, so it starts again. *)
Module Tabs.
Inductive tab := SmeTab | LpTab.
#[export] Instance tab_eq_dec : EqDecision tab.
Proof. solve_decision. Defined.
Inductive panel := SmePanel (s : Sme.state) | LpPanel (s : Lp.state).
Definition activeTab (p : panel) : tab := match p with SmePanel _ => SmeTab | LpPanel _ => LpTab end.
Definition mounted (t : tab) : panel := match t with SmeTab => SmePanel Sme.initial | LpTab => LpPanel Lp.initial end.
Definition tabIndex (p : panel) (t : tab) : Z := if bool_decide (activeTab p = t) then 0 else -1.
Definition ariaSelected (p : panel) (t : tab) : bool := bool_decide (activeTab p = t).
(** A click, which Enter and the space bar on the focused tab are too; the buttons have no
    other key handler.  And what a panel receives. *)
Inductive event := Click (t : tab) | InSme (e : Sme.event) | InLp (e : Lp.event).
Definition step (p : panel) (e : event) : panel :=
  match e, p with
  | Click t, _ => if bool_decide (activeTab p = t) then p else mounted t
  | InSme e, SmePanel s => SmePanel (Sme.step s e)
  | InLp e, LpPanel s => LpPanel (Lp.step s e)
  | _, _ => p
  end.
(** What the keyboard can do: the Tab key reaches what has a tab index that is not negative. *)
Definition by_keyboard (p : panel) (e : event) : bool := match e with Click t => 0 <=? tabIndex p t | _ => true end.
Fixpoint keyboard_run (p : panel) (es : list event) : bool :=
  match es with [] => true | e :: es => by_keyboard p e && keyboard_run (step p e) es end.
End Tabs.

(** ** Properties *)
(** The tab that is not shown is out of the tab order and no key moves between the tabs: with
    the keyboard alone, the other calculator cannot be opened. *)
Lemma keyboard_stays_on_the_tab es : forall p, Tabs.keyboard_run p es = true ->
  Tabs.activeTab (foldl Tabs.step p es) = Tabs.activeTab p.
Proof.
  induction es as [|e es IH]; intros p; [done|]. cbn [Tabs.keyboard_run foldl].
  intros [He Hes]%andb_true_iff. rewrite IH by done. destruct e as [t|e|e]; cbn in *.
  - unfold Tabs.tabIndex in He. case_bool_decide; [|done]. done.
  - by destruct p.
  - by destruct p.
Qed.
(** Exactly one tab is selected, and it is the one in the tab order. *)
Lemma one_tab_selected p : exists t, forall t', (Tabs.ariaSelected p t' = true <-> t' = t) /\ (Tabs.tabIndex p t' = 0 <-> t' = t).
Proof. exists (Tabs.activeTab p). intros t'. unfold Tabs.ariaSelected, Tabs.tabIndex. by case_bool_decide; split; split; intros; subst. Qed.

(** [Math.round] of a number less than a half away from an integer. *)
Lemma round_near x z : plain x -> 0 < z -> (inject_Z z - (1 # 2) < value x < inject_Z z + (1 # 2))%Q -> Num.round x = Num.of_Z z.
Proof.
  intros Hp Hz Hx. assert (1 <= inject_Z z)%Q by (change 1%Q with (inject_Z 1); rewrite <- Zle_Qle; lia).
  destruct x as [[]|?| |[] m e] eqn:Ex; try done; [cbn [value] in Hx; lra|].
  rewrite <- Ex in *. destruct (Num.exact x) as [[p q]|] eqn:E.
  2:{ exfalso. rewrite Ex in E. unfold Num.exact in E. destruct (0 <=? e); discriminate. }
  destruct (exact_value x p q Hp E) as [Hv H0].
  assert (Hr : (2 * p + Zpos q) / (2 * Zpos q) = z).
  { rewrite Hv in Hx. unfold Qlt in Hx. cbn [Qnum Qden inject_Z Qplus Qminus Qopp] in Hx. rewrite ?Z.mul_1_r in Hx.
    symmetry. apply (Z.div_unique_pos _ _ _ (2 * p + Zpos q - 2 * Zpos q * z)); [|ring]. lia. }
  rewrite Ex in *. unfold Num.round. rewrite E, Hr. by destruct (Z.eqb_spec z 0); [lia|].
Qed.

(** The rates of the sliders: their share of 100 is a thousandth of the tenths up to rounding. *)
Definition rate_of (k : Z) : num := Str.parse_float (tenth_text k).
Definition tenths : list Z := seqZ 5 46.
Lemma tenths_spec k : 5 <= k <= 50 -> k ∈ tenths.
Proof. intros Hk. apply elem_of_seqZ. lia. Qed.
Definition close (k : Z) : bool :=
  let x := percent (rate_of k) in
  match Num.exact x with
  | Some (p, q) => (Z.abs (1000 * p - k * Zpos q) * 2 ^ 40 <=? 1000 * Zpos q) && (0 <? p) &&
                   match x with S754_finite false _ _ => valid_binary Num.prec Num.emax x | _ => false end
  | None => false
  end.
Lemma rates_close : forallb close tenths = true.
Proof. by vm_compute. Qed.
Lemma rate_share k : 5 <= k <= 50 -> plain (percent (rate_of k)) /\
  ((k # 1000) - (1 # 2 ^ 40) <= value (percent (rate_of k)) <= (k # 1000) + (1 # 2 ^ 40))%Q.
Proof.
  intros Hk%tenths_spec. pose proof rates_close as H. rewrite forallb_forall in H.
  apply list_elem_of_In, H in Hk. unfold close in Hk. set (x := percent (rate_of k)) in *.
  destruct (Num.exact x) as [[p q]|] eqn:E; [|done].
  apply andb_true_iff in Hk as [[H1 H2]%andb_true_iff H3].
  assert (Hp : plain x) by (destruct x as [| | |[]]; done). split; [done|].
  destruct (exact_value x p q Hp E) as [-> _]. apply Z.leb_le in H1.
  unfold Qle. cbn [Qnum Qden Qplus Qminus Qopp]. clear -H1. rewrite !Pos2Z.inj_mul. change (Zpos (2 ^ 40)) with (2 ^ 40). lia.
Qed.

Lemma exact_product i k X (e : Q) : 1 <= i <= 500 -> 5 <= k <= 50 -> (- (1 # 2 ^ 40) <= e <= (1 # 2 ^ 40))%Q ->
  (X == inject_Z (1000 * i) * ((k # 1000) + e))%Q ->
  (inject_Z (i * k) - (1 # 2 ^ 20) <= X <= inject_Z (i * k) + (1 # 2 ^ 20))%Q /\ (5 - 1 <= X <= 25001)%Q.
Proof.
  intros Hi Hk He HX.
  assert (E : (inject_Z (1000 * i) * ((k # 1000) + e) == inject_Z (i * k) + 1000 * inject_Z i * e)%Q).
  { rewrite Qmult_plus_distr_r, !inject_Z_mult, (Qmake_Qdiv k 1000). change (inject_Z 1000) with (1000 # 1)%Q.
    change (inject_Z (Zpos 1000)) with (1000 # 1)%Q. field. }
  assert (HI : (1 <= inject_Z i <= 500)%Q).
  { change 1%Q with (inject_Z 1). change 500%Q with (inject_Z 500). rewrite <- !Zle_Qle. lia. }
  assert (HK : (5 <= inject_Z (i * k) <= 25000)%Q).
  { change 5%Q with (inject_Z 5). change 25000%Q with (inject_Z 25000). rewrite <- !Zle_Qle. nia. }
  assert (Hb : (- (1 # 2 ^ 20) <= 1000 * inject_Z i * e <= (1 # 2 ^ 20))%Q).
  { change (1 # 2 ^ 40)%Q with (1 # 1099511627776)%Q in *. change (1 # 2 ^ 20)%Q with (1 # 1048576)%Q in *. split; nra. }
  rewrite HX, E. change (1 # 2 ^ 20)%Q with (1 # 1048576)%Q in *. lra.
Qed.

(** One rounding of a number up to a million. *)
Lemma small_error x r : rounded x false r -> plain r -> (1 <= x <= 1000000)%Q ->
  (x - (1 # 2 ^ 20) <= value r <= x + (1 # 2 ^ 20))%Q.
Proof.
  intros Hr Hp Hx. pose proof (rounded_error _ _ Hr Hp) as He.
  assert (H1 : (pow2 (-1022) <= 1)%Q) by (change 1%Q with (pow2 0); by apply pow2_le).
  assert (H2 : (pow2 (-52) == 1 # 4503599627370496)%Q) by (by vm_compute).
  rewrite H2 in He. change (1 # 2 ^ 20)%Q with (1 # 1048576)%Q. specialize (He ltac:(lra)). lra.
Qed.

(** At every position of its sliders, the SME calculator shows the exact amounts once they are
    rounded to whole units, as they are shown: of [1000 i] at [k] tenths of a percent, [i k]
    is paid and the rest is received. *)
Lemma sme_figures i k : 1 <= i <= 500 -> 5 <= k <= 50 ->
  let '(discountPaid, fundedAmount) := useSmeDerivedValues (Num.of_Z (1000 * i)) (rate_of k) in
  Num.round discountPaid = Num.of_Z (i * k) /\ Num.round fundedAmount = Num.of_Z (1000 * i - i * k).
Proof.
  intros Hi Hk. unfold useSmeDerivedValues. destruct (rate_share k Hk) as [Pp Vp].
  destruct (of_Z_plain (1000 * i) ltac:(lia)) as [Pf Vf].
  set (p := percent (rate_of k)) in *. set (d := Num.mul _ p).
  pose proof (mul_rounded _ _ Pf Pp) as Hd. rewrite Vf in Hd. fold d in Hd.
  destruct (exact_product i k (inject_Z (1000 * i) * value p) (value p - (k # 1000)) Hi Hk) as [Hx Hr];
    [split; lra|apply Qmult_comp; [reflexivity|lra]|].
  destruct (rounded_plain _ _ 25001 Hd) as [Pd Bd]; [lia|change (inject_Z 25001) with (25001 # 1)%Q; lra|].
  pose proof (small_error _ _ Hd Pd ltac:(lra)) as He.
  assert (HF : (inject_Z (1000 * i) - inject_Z (i * k) == inject_Z (1000 * i - i * k))%Q).
  { unfold Qminus. by rewrite <- inject_Z_opp, <- inject_Z_plus. }
  assert (HG : (950 <= inject_Z (1000 * i - i * k) <= 500000)%Q).
  { change 950%Q with (inject_Z 950). change 500000%Q with (inject_Z 500000). rewrite <- !Zle_Qle. nia. }
  change (1 # 2 ^ 20)%Q with (1 # 1048576)%Q in *.
  split; [apply round_near; [done|nia|lra]|].
  assert (Hle : (value d <= value (Num.of_Z (1000 * i)))%Q) by (rewrite Vf; lra).
  pose proof (sub_rounded _ _ Pf Pd Hle) as Hs. rewrite Vf in Hs.
  destruct (sub_share _ _ Pf Pd Hle) as [Ps _].
  pose proof (small_error _ _ Hs Ps ltac:(lra)) as Hse. change (1 # 2 ^ 20)%Q with (1 # 1048576)%Q in *.
  apply round_near; [done|nia|lra].
Qed.

(** *** The estimated rate of the other calculator *)
(** A number within a share [d] of [x]. *)
Definition share_near (x d : Q) (r : num) : Prop := plain r /\ (0 < x)%Q /\ (x - x * d <= value r <= x + x * d)%Q.
Abbreviation ulp := (1 # 4503599627370496)%Q.
Lemma within_rounded x r : rounded x false r -> (1 # 1000000 <= x <= 1000000)%Q -> share_near x ulp r.
Proof.
  intros Hr Hx. destruct (rounded_plain _ _ 1000000 Hr) as [Hp _]; [lia|change (inject_Z 1000000) with (1000000 # 1)%Q; lra|].
  assert (Htiny : (pow2 (-1022) <= 1 # 16777216)%Q) by (apply (pow2_le (-1022) (-24)); lia).
  assert (Hu : (pow2 (-52) == ulp)%Q) by reflexivity.
  pose proof (rounded_error _ _ Hr Hp ltac:(lra)) as He. rewrite Hu in He. split; [done|]. split; lra.
Qed.
Lemma within_weaken x y d d' r : share_near x d r -> (x == y)%Q -> (d <= d')%Q -> share_near y d' r.
Proof. intros (Hp & H0 & Hv) E Hd. unfold share_near. rewrite <- E. split; [done|]. split; [done|]. nra. Qed.
(** The errors of both factors and of the rounding of their product. *)
Lemma share_mul (x y d a b : Q) : (0 < x)%Q -> (0 < y)%Q -> (0 <= d <= 1 # 1000)%Q ->
  (x - x * d <= a <= x + x * d)%Q -> (y - y * d <= b <= y + y * d)%Q ->
  (x * y - x * y * (3 * d) <= a * b <= x * y + x * y * (3 * d))%Q.
Proof.
  intros Hx Hy Hd Ha Hb. assert (Hxy : (0 < x * y)%Q) by nra. set (X := (x * y)%Q) in *.
  assert (Hl : ((x - x * d) * (y - y * d) == X - X * (2 * d) + X * (d * d))%Q) by (unfold X; ring).
  assert (Hh : ((x + x * d) * (y + y * d) == X + X * (2 * d) + X * (d * d))%Q) by (unfold X; ring).
  assert (Hd2 : (0 <= d * d <= d)%Q) by (split; nra).
  assert (Hdd : (X * (d * d) <= X * d)%Q) by (apply Qmult_le_l; [done|apply Hd2]).
  assert (Hd0 : (0 <= X * (d * d))%Q) by (apply Qmult_le_0_compat; [lra|apply Hd2]).
  assert (Ha0 : (0 < x - x * d)%Q) by nra. assert (Hb0 : (0 < y - y * d)%Q) by nra.
  assert (H1 : ((x - x * d) * (y - y * d) <= a * b)%Q) by nra. assert (H2 : (a * b <= (x + x * d) * (y + y * d))%Q) by nra.
  split; lra.
Qed.
Lemma within_mul x y d a b : share_near x d a -> share_near y d b -> (1 # 1125899906842624 <= d <= 1 # 1000)%Q ->
  (1 # 10000 <= x * y <= 10000)%Q -> share_near (x * y) (4 * d) (Num.mul a b).
Proof.
  intros (Pa & Hx & Ha) (Pb & Hy & Hb) Hd Hxy.
  pose proof (share_mul x y d _ _ Hx Hy ltac:(lra) Ha Hb) as Hp. pose proof (mul_rounded _ _ Pa Pb) as Hr.
  set (X := (x * y)%Q) in *. set (p := (value a * value b)%Q) in *.
  assert (H3 : (X * (3 * d) <= X * (3 # 1000))%Q) by nra.
  destruct (within_rounded p _ Hr ltac:(lra)) as (Pr & _ & Hv). split; [done|]. split; [lra|].
  assert (H4 : (p * ulp <= X * d)%Q); [|lra]. assert (p <= 2 * X)%Q by lra. nra.
Qed.

(** [toFixed(2)] shows a nearest number of hundredths. *)
Lemma to_fixed_near x : plain x -> (value x <= 1000000)%Q ->
  exists h, Num.to_fixed x 2 = Num.point_digits h 2 /\ (inject_Z h - (1 # 2) <= value x * 100 <= inject_Z h + (1 # 2))%Q.
Proof.
  intros Hp Hx. destruct (Num.exact x) as [[p q]|] eqn:E.
  2:{ exfalso. destruct x as [[]|?| |[] m e]; try done. unfold Num.exact in E. destruct (0 <=? e); discriminate. }
  destruct (exact_value x p q Hp E) as [Hv H0]. rewrite Hv in *. unfold Num.to_fixed. rewrite E.
  rewrite (Z.abs_eq p) by done. exists (Num.scaled p q 2).
  assert (Hs : (10 ^ 21 * Zpos q <=? p) = false).
  { apply Z.leb_gt. unfold Qle in Hx. cbn [Qnum Qden] in Hx. lia. }
  rewrite Hs. destruct (Z.ltb_spec p 0); [lia|]. split; [done|]. unfold Num.scaled. change (10 ^ Z.of_nat 2) with 100.
  pose proof (Z.div_mod (2 * p * 100 + Zpos q) (2 * Zpos q) ltac:(lia)). pose proof (Z.mod_pos_bound (2 * p * 100 + Zpos q) (2 * Zpos q) ltac:(lia)).
  set (h := _ / _) in *. rewrite Hv. unfold Qle. cbn [Qnum Qden inject_Z Qplus Qminus Qopp Qmult].
  rewrite ?Pos2Z.inj_mul, ?Z.mul_1_r. split; nia.
Qed.

Lemma ratio_within a b : 0 < a <= 1000 -> 0 < b <= 1000 -> share_near (inject_Z a / inject_Z b) ulp (Num.div (Num.of_Z a) (Num.of_Z b)).
Proof.
  intros Ha Hb. destruct (of_Z_plain a ltac:(lia)) as [Pa Va], (of_Z_plain b ltac:(lia)) as [Pb Vb].
  assert (HA : (1 <= inject_Z a <= 1000)%Q) by (change 1%Q with (inject_Z 1); change 1000%Q with (inject_Z 1000); rewrite <- !Zle_Qle; lia).
  assert (HB : (1 <= inject_Z b <= 1000)%Q) by (change 1%Q with (inject_Z 1); change 1000%Q with (inject_Z 1000); rewrite <- !Zle_Qle; lia).
  pose proof (div_rounded _ _ Pa Pb ltac:(rewrite Vb; lra)) as Hr. rewrite Va, Vb in Hr. apply within_rounded; [done|].
  split; [apply Qle_shift_div_l; nra|apply Qle_shift_div_r; nra].
Qed.
Lemma of_Z_within z d : 0 < z <= 1000 -> (0 <= d)%Q -> share_near (inject_Z z) d (Num.of_Z z).
Proof.
  intros Hz Hd. destruct (of_Z_plain z ltac:(lia)) as [Pz Vz]. pose proof (inject_pos z ltac:(lia)). split; [done|]. split; [done|].
  rewrite Vz. nra.
Qed.

(** At a utilisation of [u] percent, a discount of [k] tenths and [m] days. *)
Lemma apy_within u k m : 10 <= u <= 100 -> 5 <= k <= 50 -> 15 <= m <= 90 ->
  share_near (inject_Z (365 * u * k) / inject_Z (1000 * m)) (1 # 2 ^ 26) (projected_apy (Num.of_Z u) (rate_of k) (Num.of_Z m)).
Proof.
  intros Hu Hk Hm. destruct (rate_share k Hk) as [Pk Vk].
  assert (Kk : ((k # 1000) == inject_Z k / inject_Z 1000)%Q) by apply Qmake_Qdiv.
  assert (HU : (10 <= inject_Z u <= 100)%Q) by (change 10%Q with (inject_Z 10); change 100%Q with (inject_Z 100); rewrite <- !Zle_Qle; lia).
  assert (HK : (5 <= inject_Z k <= 50)%Q) by (change 5%Q with (inject_Z 5); change 50%Q with (inject_Z 50); rewrite <- !Zle_Qle; lia).
  assert (HM : (15 <= inject_Z m <= 90)%Q) by (change 15%Q with (inject_Z 15); change 90%Q with (inject_Z 90); rewrite <- !Zle_Qle; lia).
  change (inject_Z 1000) with (1000 # 1)%Q in Kk.
  assert (Kv : ((k # 1000) == inject_Z k * (1 # 1000))%Q) by (rewrite Kk; field).
  set (d := (1 # 4294967296)%Q).
  assert (W1 : share_near (inject_Z u * (1 # 100)) d (percent (Num.of_Z u))).
  { eapply within_weaken; [apply (ratio_within u 100); lia| |by vm_compute]. change (inject_Z 100) with (100 # 1)%Q. field. }
  assert (W2 : share_near (inject_Z k * (1 # 1000)) d (percent (rate_of k))).
  { split; [done|]. split; [lra|]. change (1 # 2 ^ 40)%Q with (1 # 1099511627776)%Q in Vk. unfold d. lra. }
  assert (H12 : (1 # 10000 <= inject_Z u * (1 # 100) * (inject_Z k * (1 # 1000)) <= 1)%Q) by (split; nra).
  pose proof (within_mul _ _ _ _ _ W1 W2 ltac:(by vm_compute) ltac:(split; lra)) as W12.
  set (r := (inject_Z 365 / inject_Z m)%Q).
  assert (Hr : (4 <= r <= 25)%Q).
  { unfold r. change (inject_Z 365) with (365 # 1)%Q. split; [apply Qle_shift_div_l; lra|apply Qle_shift_div_r; lra]. }
  assert (W3 : share_near r (4 * d) (Num.div (Num.of_Z 365) (Num.of_Z m))).
  { eapply within_weaken; [apply (ratio_within 365 m); lia|reflexivity|by vm_compute]. }
  assert (H123 : (1 # 10000 <= inject_Z u * (1 # 100) * (inject_Z k * (1 # 1000)) * r <= 25)%Q) by (split; nra).
  pose proof (within_mul _ _ _ _ _ W12 W3 ltac:(by vm_compute) ltac:(split; lra)) as W123.
  eapply within_weaken; [eapply (within_mul _ 100 _ _ (Num.of_Z 100)); [exact W123|by apply of_Z_within|by vm_compute|split; lra]| |by vm_compute].
  unfold r. rewrite !inject_Z_mult. change (inject_Z 1000) with (1000 # 1)%Q. field. lra.
Qed.

(** The rate shown is a nearest one: it is off by at most half of its last digit. *)
Lemma apy_shown u k m : 10 <= u <= 100 -> 5 <= k <= 50 -> 15 <= m <= 90 ->
  exists h, Num.to_fixed (projected_apy (Num.of_Z u) (rate_of k) (Num.of_Z m)) 2 = Num.point_digits h 2 /\
            Z.abs (20 * m * h - 730 * u * k) <= 10 * m.
Proof.
  intros Hu Hk Hm. destruct (apy_within u k m Hu Hk Hm) as (Pa & H0 & Hv). set (a := projected_apy _ _ _) in *.
  assert (HM : (15 <= inject_Z m <= 90)%Q) by (change 15%Q with (inject_Z 15); change 90%Q with (inject_Z 90); rewrite <- !Zle_Qle; lia).
  set (X := (inject_Z (365 * u * k) / inject_Z (1000 * m))%Q) in *.
  assert (HX : (X * (20 * inject_Z m) * 100 == inject_Z (730 * u * k))%Q).
  { unfold X. replace (730 * u * k) with (2 * (365 * u * k)) by lia. rewrite (inject_Z_mult 1000), (inject_Z_mult 2).
    change (inject_Z 1000) with (1000 # 1)%Q. change (inject_Z 2) with (2 # 1)%Q. field. lra. }
  assert (HN : (inject_Z (730 * u * k) <= 3650000)%Q) by (change 3650000%Q with (inject_Z 3650000); rewrite <- Zle_Qle; nia).
  change (1 # 2 ^ 26)%Q with (1 # 67108864)%Q in Hv.
  assert (HXb : (X <= 200)%Q) by nra.
  destruct (to_fixed_near a Pa ltac:(lra)) as (h & E & Hh). exists h. split; [done|].
  assert (Hd : (- (10 * inject_Z m + (1 # 2)) < 20 * inject_Z m * inject_Z h - inject_Z (730 * u * k) < 10 * inject_Z m + (1 # 2))%Q) by (split; nra).
  assert (HZ : (inject_Z (20 * m * h - 730 * u * k) == 20 * inject_Z m * inject_Z h - inject_Z (730 * u * k))%Q).
  { unfold Z.sub. by rewrite inject_Z_plus, inject_Z_opp, !(inject_Z_mult (20 * m)), (inject_Z_mult 20). }
  rewrite <- HZ in Hd. clear -Hd. set (z := 20 * m * h - 730 * u * k) in *. clearbody z.
  unfold Qlt in Hd. cbn [Qnum Qden inject_Z Qplus Qopp Qmult] in Hd. lia.
Qed.

(** What the sliders leave in the state. *)
Definition on_grid (s : Sme.state) : Prop :=
  exists i k, 1 <= i <= 500 /\ 5 <= k <= 50 /\ Sme.faceValue s = Num.of_Z (1000 * i) /\ Sme.discountRate s = rate_of k.
(** The positions of a slider in steps of [c]. *)
Lemma positions_parse c a n : forallb (fun i => bool_decide (Str.parse_int (Num.bigint_to_string (c * i)) = Num.of_Z (c * i))) (seqZ a n) = true ->
  forall i, a <= i < a + n -> Str.parse_int (Num.bigint_to_string (c * i)) = Num.of_Z (c * i).
Proof.
  intros H i Hi. rewrite forallb_forall in H. assert (Hin : i ∈ seqZ a n) by (apply elem_of_seqZ; lia).
  apply list_elem_of_In, H in Hin. by apply bool_decide_eq_true in Hin.
Qed.
Lemma face_positions i : 1 <= i <= 500 -> Str.parse_int (Num.bigint_to_string (1000 * i)) = Num.of_Z (1000 * i).
Proof. intros Hi. apply (positions_parse 1000 1 500); [by vm_compute|lia]. Qed.
Lemma deposit_positions i : 1 <= i <= 200 -> Str.parse_int (Num.bigint_to_string (500 * i)) = Num.of_Z (500 * i).
Proof. intros Hi. apply (positions_parse 500 1 200); [by vm_compute|lia]. Qed.
Lemma five_positions i : 1 <= i <= 20 -> Str.parse_int (Num.bigint_to_string (5 * i)) = Num.of_Z (5 * i).
Proof. intros Hi. apply (positions_parse 5 1 20); [by vm_compute|lia]. Qed.
Lemma initial_on_grid : on_grid Sme.initial.
Proof. exists 50, 20. by repeat split. Qed.
Lemma step_on_grid s e : Sme.offered e -> on_grid s -> on_grid (Sme.step s e).
Proof.
  intros Ho (i & k & Hi & Hk & Hf & Hd). destruct e as [t|t|t]; cbn in *.
  - destruct Ho as (j & Hj & ->). exists j, k. cbn. by rewrite face_positions.
  - by exists i, k.
  - destruct Ho as (j & Hj & ->). by exists i, j.
Qed.
Lemma run_on_grid es : forall s, Forall Sme.offered es -> on_grid s -> on_grid (foldl Sme.step s es).
Proof.
  induction es as [|e es IH]; intros s; [done|]. intros [He Hes]%list.Forall_cons Hs. by apply IH, step_on_grid.
Qed.

Definition lp_on_grid (s : Lp.state) : Prop :=
  exists i u k m, 1 <= i <= 200 /\ 2 <= u <= 20 /\ 5 <= k <= 50 /\ 3 <= m <= 18 /\ Lp.lpDeposit s = Num.of_Z (500 * i) /\
    Lp.lpUtilization s = Num.of_Z (5 * u) /\ Lp.lpAvgDiscount s = rate_of k /\ Lp.lpAvgMaturity s = Num.of_Z (5 * m).
Lemma lp_initial_on_grid : lp_on_grid Lp.initial.
Proof. exists 20, 16, 20, 12. by repeat split. Qed.
Lemma lp_step_on_grid s e : Lp.offered e -> lp_on_grid s -> lp_on_grid (Lp.step s e).
Proof.
  intros Ho (i & u & k & m & Hi & Hu & Hk & Hm & Hs & Hsu & Hsk & Hsm). destruct e as [t|t|t|t]; destruct Ho as (j & Hj & ->).
  - exists j, u, k, m. cbn. by rewrite deposit_positions.
  - exists i, j, k, m. cbn. rewrite five_positions by lia. done.
  - by exists i, u, j, m.
  - exists i, u, k, j. cbn. rewrite five_positions by lia. done.
Qed.

(** Wherever the sliders and the list of the SME calculator are moved, the fee and the
    payout, computed in binary64 and shown in whole units, are the exact ones: a face value
    of [1000 i] at [k] tenths of a percent pays [i k] and receives the rest. *)
Theorem sme_figures_exact es (Ho : Forall Sme.offered es) :
  let s := foldl Sme.step Sme.initial es in
  let '(discountPaid, fundedAmount) := useSmeDerivedValues (Sme.faceValue s) (Sme.discountRate s) in
  exists i k, 1 <= i <= 500 /\ 5 <= k <= 50 /\ Sme.faceValue s = Num.of_Z (1000 * i) /\ Sme.discountRate s = rate_of k /\
    Num.round discountPaid = Num.of_Z (i * k) /\ Num.round fundedAmount = Num.of_Z (1000 * i - i * k).
Proof.
  cbn zeta. destruct (run_on_grid es _ Ho initial_on_grid) as (i & k & Hi & Hk & -> & ->).
  pose proof (sme_figures i k Hi Hk) as H. destruct (useSmeDerivedValues _ _) as [d a]. by exists i, k.
Qed.

(** The rate is shown with its tenth and its exact basis points. *)
Lemma rates_shown k : 5 <= k <= 50 ->
  rate_shown (rate_of k) = Num.bigint_to_string (k / 10) +:+ "." +:+ Num.bigint_to_string (k mod 10) +:+ "% (" +:+
                           Num.bigint_to_string (10 * k) +:+ " bps)".
Proof.
  intros Hk%tenths_spec. assert (H : forallb (fun k => String.eqb (rate_shown (rate_of k))
    (Num.bigint_to_string (k / 10) +:+ "." +:+ Num.bigint_to_string (k mod 10) +:+ "% (" +:+
     Num.bigint_to_string (10 * k) +:+ " bps)")) tenths = true) by by vm_compute.
  rewrite forallb_forall in H. apply list_elem_of_In, H in Hk. by apply String.eqb_eq.
Qed.
Lemma lp_defaults : Lp.lv_apr (Lp.render (fun _ => "") (fun _ => "") Lp.initial) = "9.73%".
Proof. by vm_compute. Qed.
