(* ===== verification/StatViews.v ===== *)
(** * Figures of the protocol, where they are shown ([components/shared/StatValue.tsx],
      [HeroStats.tsx], [PillarStat.tsx], [PoolPerformanceChart.tsx], [app/analytics/AnalyticsClient.tsx],
      [app/dashboard/page.tsx])

    The same figures reach the landing page, the analytics page, the liquidity provider page
    and the dashboard through two queries, each with its own treatment of an answer that is
    missing, late or an error.  The number formats of the browser and the translations are
    arguments. *)

From Stdlib Require Import SpecFloat QArith Lqa.
From S2P Require Import Prelude JsNumber JsRounding JsString JsValue SdkTypes Assets PoolPage Charts Actions LpPage Calculators.
Local Open Scope Z_scope.

(** What the type of an answer of [/stats] says; [getProtocolStats] does not check it. *)
Record ProtocolStats := {
  total_usdc_financed : string; active_invoice_count : num; total_invoices : num; total_repaid : num;
  total_defaulted : num; average_yield_bps : num; pool_utilization_bps : num; registered_issuers : num }.

(** ** One figure *)
Inductive shown := Skeleton | Dash | Text (t : string).
(** [error instanceof Error ? error.message : error == null ? null : "..."] *)
Definition error_message (error : jsval) : option string :=
  match error with
  | JErr _ m _ => Some m
  | JNull | JUndef => None
  | _ => Some "An unexpected error occurred."
  end.
Definition StatValue (value : option string) (isLoading : bool) (error : jsval) : shown :=
  if isLoading then Skeleton
  else match error_message error, value with
       | None, Some v => Text v
       | _, _ => Dash
       end.
Definition StatTile (value : option string) (isLoading hasError : bool) : shown :=
  if isLoading then Skeleton
  else if hasError then Dash else match value with Some v => Text v | None => Dash end.
(** [error != null]. *)
Definition has_error (error : jsval) : bool := match error with JNull | JUndef => false | _ => true end.

Section Formats.
(** [toLocaleString()], its en-US form, and the compact form. *)
Context (toLocaleString toLocaleEnUS compact : num -> string).

(** ** The landing page *)
Definition HeroStats (stats : option PoolStats) : list (shown * string) :=
  let figure v := StatValue v false JUndef in
  [(figure (Reported.hero_formatCompactUsdc compact (ps_totalDeposits <$> stats)), "USDC POOL VALUE");
   (figure ((fun s => toLocaleEnUS (ps_activeInvoiceCount s)) <$> stats), "INVOICES FUNDED");
   (figure (Reported.hero_formatCompactUsdc compact (ps_totalYieldDistributed <$> stats)), "YIELD DISTRIBUTED")].

Inductive PillarStatKind := Issuers | Invoices | Utilization.
Definition PillarStat (kind : PillarStatKind) (stats : option PoolStats) (isStatsLoading : bool) (statsError : jsval)
  (protocolStats : option ProtocolStats) (isProtocolStatsLoading : bool) (protocolStatsError : jsval) : shown :=
  match kind with
  | Utilization =>
      if isStatsLoading || truthy statsError then Text "--.-%"
      else
        let bps := default Num.zero (ps_utilizationRateBps <$> stats) in
        Text (Num.to_string (Num.div (if Num.truthy bps then bps else Num.zero) (Num.of_Z 100)) +:+ "% capacity")
  | Issuers =>
      StatValue ((fun s => Num.to_string (registered_issuers s) +:+ " registered") <$> protocolStats)
        isProtocolStatsLoading protocolStatsError
  | Invoices =>
      StatValue ((fun s => toLocaleString (total_invoices s) +:+ " invoices") <$> protocolStats)
        isProtocolStatsLoading protocolStatsError
  end.

(** ** The analytics page *)
Definition bps_text (digits : nat) (bps : num) : string := Num.to_fixed (Num.div bps (Num.of_Z 100)) digits +:+ "%".
Definition analytics_tiles (stats : option ProtocolStats) (isLoading : bool) (error : jsval) : list (string * shown) :=
  let tile label f := (label, StatTile (f <$> stats) isLoading (has_error error)) in
  [("Total USDC Financed",
    StatTile (Reported.analytics_formatCompactUsdc compact (total_usdc_financed <$> stats)) isLoading (has_error error));
   tile "Pool Utilization" (fun s => bps_text 1 (pool_utilization_bps s));
   tile "Average Yield" (fun s => bps_text 2 (average_yield_bps s));
   tile "Registered Issuers" (fun s => Num.to_string (registered_issuers s));
   tile "Total Invoices" (fun s => toLocaleEnUS (total_invoices s));
   tile "Active Invoices" (fun s => toLocaleEnUS (active_invoice_count s));
   tile "Invoices Repaid" (fun s => toLocaleEnUS (total_repaid s));
   tile "Invoices Defaulted" (fun s => toLocaleEnUS (total_defaulted s))].
Definition analytics_note (error : jsval) : option string :=
  if has_error error then
    Some ("Live stats are temporarily unavailable " +:+ em_dash +:+ " showing placeholders.")
  else None.

(** ** The chart of the pool *)
Section Chart.
Context (toDate : num -> string) (fixed2 : num -> string).
Record chart_props := {
  cp_snapshots : option (list Reported.PoolSnapshot); cp_isLoading : bool; cp_error : jsval; cp_title : string }.
Record chart_query := { cq_data : option (list Reported.PoolSnapshot); cq_isLoading : bool; cq_error : jsval }.
Inductive chart_view :=
  | ChartError (label : string) | ChartLoading (label : string) | ChartEmpty (label : string)
  | Chart (label : string) (summary : option string) (points : list Reported.ChartPoint).
Definition given (p : chart_props) : bool := if cp_snapshots p then true else false.
Definition snapshots (p : chart_props) (q : chart_query) : list Reported.PoolSnapshot :=
  match cp_snapshots p with Some l => l | None => default [] (cq_data q) end.
(** [errorProp ?? queryError]. *)
Definition chart_error (p : chart_props) (q : chart_query) : jsval :=
  if has_error (cp_error p) then cp_error p else if given p then JNull else cq_error q.
Definition PoolPerformanceChart (p : chart_props) (q : chart_query) : chart_view :=
  let points := map (Reported.formatSnapshotPoint toDate) (snapshots p q) in
  if truthy (chart_error p q) then ChartError (cp_title p +:+ " (error)")
  else if cp_isLoading p || (negb (given p) && cq_isLoading q) then ChartLoading (cp_title p +:+ " (loading)")
  else match points with
       | [] => ChartEmpty (cp_title p +:+ " (empty)")
       | _ => Chart (cp_title p) (Reported.summary fixed2 points) points
       end.
End Chart.

(** ** The dashboard *)
Context (t : string -> list (string * string) -> string).
Definition dashboard_tiles (stats : InvoiceStats) : list (string * string * string) :=
  let count n := Num.to_string (Num.of_Z (Z.of_nat n)) in
  let tile key v := (t ("stats." +:+ key +:+ ".label") [], v, t ("stats." +:+ key +:+ ".hint") []) in
  [tile "created" (count (totalInvoicesCreated stats)); tile "listed" (count (totalListed stats));
   tile "fundedActive" (count (totalFundedActive stats)); tile "repaid" (count (totalRepaid stats));
   tile "financed" (formatAmount (Some (totalFunded stats)) None)].
(** The button that creates an invoice, and the checklist that explains why it is locked. *)
Record create_button := { cb_disabled : bool; cb_title : option string; cb_describedby : option string; cb_reason : option string }.
Definition createButton (isVerified : bool) : create_button :=
  let locked := t "header.createInvoiceLocked" [] in
  {| cb_disabled := negb isVerified; cb_title := if isVerified then None else Some locked;
     cb_describedby := if isVerified then None else Some "create-invoice-lock-reason";
     cb_reason := if isVerified then None else Some locked |}.
Definition checklist (isVerified : bool) : list (string * string * string) :=
  if isVerified then []
  else map (fun k => (t ("checklist." +:+ k +:+ ".title") [], t ("checklist." +:+ k +:+ ".description") [],
                      t ("checklist." +:+ k +:+ ".status") []))
         ["connectWallet"; "registerProfile"; "createInvoice"].
End Formats.

(** ** Properties *)
Section Facts.
Context (toLocaleString toLocaleEnUS compact : num -> string).

(** A figure is shown exactly when it is there, nothing is loading and there is no error. *)
Lemma figure_shown value isLoading error v :
  StatValue value isLoading error = Text v <-> value = Some v /\ isLoading = false /\ has_error error = false.
Proof.
  unfold StatValue. destruct isLoading; [by split; [|intros (_ & ? & _)]|].
  destruct error; cbn; destruct value as [w|]; split; try done; try (by intros (_ & _ & ?)); try (by intros [=]; subst);
    try (by intros ([=] & _ & _); subst); by intros (? & _ & _).
Qed.
(** The tiles of the analytics page are such figures. *)
Lemma tile_is_a_figure value isLoading error :
  StatTile value isLoading (has_error error) = StatValue value isLoading error.
Proof. unfold StatTile, StatValue. destruct isLoading; [done|]. by destruct error, value. Qed.

(** The hero passes no loading state: its figures are dashes while the first answer is under
    way, never the skeleton. *)
Lemma hero_never_loads stats f : f ∈ HeroStats toLocaleEnUS compact stats ->
  f.1 = match stats with None => Dash | Some _ => f.1 end /\ f.1 <> Skeleton.
Proof. unfold HeroStats. set_unfold. destruct stats; intros [->|[->|[->|[]]]]; cbn; done. Qed.

(** Snapshots that are handed over are those drawn, whatever the query answers. *)
Lemma given_snapshots_win toDate fixed2 p q q' l : cp_snapshots p = Some l ->
  PoolPerformanceChart toDate fixed2 p q = PoolPerformanceChart toDate fixed2 p q'.
Proof. intros Hp. unfold PoolPerformanceChart, chart_error, snapshots, given. by rewrite Hp. Qed.
End Facts.

(** ** The utilisation on the three pages *)
Lemma utilization_exact b : 0 <= b <= 10000 ->
  utilization (Some (Num.of_Z b)) = Num.div (Num.of_Z b) (Num.of_Z 100).
Proof.
  intros Hb. destruct (of_Z_plain b ltac:(lia)) as [Pb Vb], (of_Z_plain 100 ltac:(lia)) as [P100 V100].
  pose proof (div_rounded _ _ Pb P100 ltac:(rewrite V100; done)) as Hr.
  destruct (rounded_plain _ _ 100 Hr) as [Pd Vd]; [lia| |].
  { rewrite Vb, V100. apply Qle_shift_div_r; [done|]. rewrite <- inject_Z_mult, <- Zle_Qle. lia. }
  set (d := Num.div _ _) in *. unfold utilization. cbn [default from_option id]. fold d. pose proof (plain_nonneg d Pd) as Hd.
  assert (Hn : Num.is_nan d = false) by by destruct d. destruct (Z.eq_dec b 10000) as [->|Hne]; [by vm_compute|].
  assert (Hlt : (value d < 100)%Q).
  { assert (Hq : (value (Num.of_Z b) / value (Num.of_Z 100) == inject_Z b * (1 # 100))%Q).
    { rewrite Vb, V100. change (inject_Z 100) with (100 # 1)%Q. field. }
    assert (Hb' : (inject_Z b <= 9999)%Q) by (change 9999%Q with (inject_Z 9999); rewrite <- Zle_Qle; lia).
    destruct (Z.le_gt_cases b 100) as [Hs|Hs].
    - destruct (rounded_plain _ _ 1 Hr) as [_ V1]; [lia| |change (inject_Z 1) with (1 # 1)%Q in V1; lra].
      rewrite Hq. rewrite Zle_Qle in Hs. change (inject_Z 100) with (100 # 1)%Q in Hs. change (inject_Z 1) with (1 # 1)%Q. lra.
    - assert (H1 : (100 <= inject_Z b)%Q) by (change 100%Q with (inject_Z 100); rewrite <- Zle_Qle; lia).
      pose proof (small_error _ _ Hr Pd ltac:(rewrite Hq; lra)) as He. rewrite Hq in He.
      change (1 # 2 ^ 20)%Q with (1 # 1048576)%Q in He. lra. }
  assert (Hz : math_max Num.zero d = d).
  { unfold math_max. rewrite Hn. cbn [orb Num.is_nan Num.zero]. destruct (Num.ltb Num.zero d) eqn:E; [done|].
    by destruct d as [[]|?| |[] m e]. }
  rewrite Hz. unfold math_min. rewrite Hn. cbn [orb].
  replace (Num.is_nan (Num.of_Z 100)) with false by by vm_compute. cbn [orb].
  rewrite (proj2 (ltb_value d (Num.of_Z 100) Pd P100)); [done|]. rewrite V100. exact Hlt.
Qed.

(** Of a rate that is one, all pages show the same share of 100: the dial of the liquidity
    provider page and the tile of the analytics page with one decimal, the landing page in
    full. *)
Lemma utilization_views_agree b toLocaleString p s : 0 <= b <= 10000 ->
  ps_utilizationRateBps s = Num.of_Z b -> pool_utilization_bps p = Num.of_Z b ->
  LpPage.ov_percent (LpPage.overview (Some s)) = bps_text 1 (pool_utilization_bps p) /\
  PillarStat toLocaleString Utilization (Some s) false JNull (Some p) false JNull =
    Text (Num.to_string (LpPage.ov_arc (LpPage.overview (Some s))) +:+ "% capacity").
Proof.
  intros Hb Hs Hp. unfold LpPage.overview, bps_text. cbn [LpPage.ov_percent LpPage.ov_arc fmap option_fmap option_map].
  rewrite Hs, Hp, utilization_exact by done. split; [done|].
  cbn [PillarStat orb truthy default from_option fmap option_fmap option_map id]. rewrite Hs.
  destruct (Num.truthy (Num.of_Z b)) eqn:E; [done|].
  destruct (Z.eq_dec b 0) as [->|]; [done|]. exfalso.
  destruct (of_Z_plain b ltac:(lia)) as [Pb Vb]. destruct (Num.of_Z b) as [[]|?| |[] m e]; try done.
  cbn [value] in Vb. symmetry in Vb. apply (inject_Z_injective b 0) in Vb. lia.
Qed.
