(* ===== verification/ProfilePage.v ===== *)
(** * The profile page as a whole ([app/profile/page.tsx], [components/shared/TxHistory.tsx])

    The registration form and its pending dialog ([Registration]), the notification toggles
    ([Preferences]) and the transaction history ([TxHistory]) on one page, for the wallet
    that is connected.  The panels of a wallet are mounted while there is an address and
    receive a new one when it changes; without a connected wallet the page shows only the
    prompt, and what is below it is unmounted.  The date formats are arguments. *)

From S2P Require Import Prelude JsNumber JsString JsValue SdkTypes Storage Preferences Registration TxHistory.
Local Open Scope Z_scope.

(** ** What the page shows *)
Definition formatAddress (addr : string) : string := Str.slice 0 10 addr +:+ "..." +:+ Str.slice_last 10 addr.

Record ProfileCard := {
  pc_status : string; pc_heading : string; pc_address : string; pc_role : string; pc_wallet : string;
  pc_registeredAt : string; pc_onChain : string; pc_contract : string }.
Inductive screen := ConnectPrompt | LoadingProfile | ProfileScreen (card : ProfileCard) | RegistrationPrompt.

Section Views.
Context (toLocaleDateString toLocaleString : num -> string) (registryContractID : string).
Definition profile_card (profile : Profile) (address : option string) (isVerified : bool) : ProfileCard :=
  {| pc_status := if isVerified then "Verified Corporate" else "Pending Review";
     pc_heading := (match prof_role profile with Issuer => "SME / Issuer" | Buyer => "Buyer" end) +:+ " Profile";
     pc_address := if opt_str_truthy address then formatAddress (default "" address) else "Address unavailable";
     pc_role := role_name (prof_role profile); pc_wallet := formatAddress (prof_address profile);
     pc_registeredAt := toLocaleDateString (Num.mul (prof_registeredAt profile) (Num.of_Z 1000));
     pc_onChain := if isVerified then "Verified" else "Unverified";
     pc_contract := if String.eqb registryContractID "" then "Not Configured" else formatAddress registryContractID |}.
Definition profile_screen (connected : bool) (address : option string) (profile : option Profile)
  (isProfileLoading isVerified isVerifiedLoading : bool) : screen :=
  if negb connected then ConnectPrompt
  else if isProfileLoading || isVerifiedLoading then LoadingProfile
  else match profile with
       | Some p => ProfileScreen (profile_card p address isVerified)
       | None => RegistrationPrompt
       end.
(** The dialog of the form: its title, whether the role can be chosen, its button. *)
Definition dialog_texts (profile : option Profile) : string * bool * string :=
  match profile with
  | Some _ => ("Update Profile Metadata", false, "Save Changes")
  | None => ("Register Corporate Profile", true, "Submit Registration")
  end.

(** *** The history *)
Record TxRow := { tr_success : bool; tr_type : string; tr_time : string; tr_amount : option string; tr_hash : string; tr_link : string }.
Definition getStellarExpertUrl (hash : string) : string := "https://stellar.expert/explorer/testnet/tx/" +:+ hash.
Definition tx_row (tx : TxHistoryItem) : TxRow :=
  {| tr_success := it_success tx; tr_type := it_type tx;
     tr_time := toLocaleString (Num.mul (it_timestamp tx) (Num.of_Z 1000));
     tr_amount := if opt_str_truthy (it_amount tx)
                  then Some (default "" (it_amount tx) +:+ " " +:+ opt_str_or (it_token tx) "USDC") else None;
     tr_hash := Str.slice 0 6 (it_hash tx) +:+ "..." +:+ Str.slice_last 4 (it_hash tx);
     tr_link := getStellarExpertUrl (it_hash tx) |}.
Inductive history_body :=
  | HistoryError (message : string)         (* with the button that tries again *)
  | HistorySkeletons | HistoryEmpty
  | HistoryRows (rows : list TxRow) (page : string) (previousDisabled nextDisabled : bool).
Definition page_text (v : Hook.view) : string := "Page " +:+ Num.to_string (Num.of_Z (Z.of_nat (Hook.v_page v))).
Definition history_heading (v : Hook.view) : option string := if (1 <? Hook.v_page v)%nat then Some (page_text v) else None.
Definition history_view (v : Hook.view) (isLoading : bool) (error : jsval) : history_body :=
  if truthy error then
    HistoryError (if isRateLimitError error then "Horizon is rate limiting this request. Please wait a moment."
                  else "Failed to load transactions")
  else if isLoading then HistorySkeletons
  else match Hook.v_transactions v with
       | [] => HistoryEmpty
       | l => HistoryRows (map tx_row l) (page_text v) (negb (Hook.v_hasPrev v)) (negb (Hook.v_hasNext v))
       end.
End Views.

(** ** The page *)
Module ProfilePage.
Record wallet := { connected : bool; address : option string }.
(** The panels below the prompt: the pending dialog, and those of an address. *)
Record panels := { pending : Pending.state; owned : option (Toggles.state * Hook.state) }.
Record state := { session : wallet; disk : storage; registration : Page.state; mounted : option panels }.

Inductive event :=
  | Session (w : wallet)                  (* the wallet store *)
  | Form (e : Page.event)                 (* the form, its dialog, and what [register] answers *)
  | PendingTimer | PendingClose           (* the dialog of the pending transaction *)
  | Toggle (category : string)
  | History (e : Hook.event).             (* the pages of the history *)

(** The dialog is dismissed with its button, which is there while it is open. *)
Definition pending_props (r : Page.state) (p : Pending.state) : Pending.state :=
  Pending.step p (Pending.Props (Page.showPending r) (Page.pendingHash r)).
Definition truthy_address (w : wallet) : option string := if opt_str_truthy (address w) then address w else None.
Definition own (d : storage) (a : string) : Toggles.state * Hook.state :=
  (Toggles.mount d a, {| Hook.account := a; Hook.paging := Paging.initial |}).
(** A render of the panels after the wallet or the form changed: mounted, kept with their new
    values, or unmounted. *)
Definition rerender (s : state) : state :=
  if negb (connected (session s)) then
    {| session := session s; disk := disk s; registration := registration s; mounted := None |}
  else
    let p := match mounted s with Some p => pending p | None => Pending.closed end in
    let o := match truthy_address (session s), mounted s ≫= owned with
             | None, _ => None
             | Some a, None => Some (own (disk s) a)
             | Some a, Some (t, h) =>
                 Some (if String.eqb a (Toggles.address t) then t else Toggles.setAddress t a,
                       (Hook.step h (Hook.Account a)).1)
             end in
    {| session := session s; disk := disk s; registration := registration s;
       mounted := Some {| pending := pending_props (registration s) p; owned := o |} |}.

Definition with_registration (s : state) (r : Page.state) : state :=
  {| session := session s; disk := disk s; registration := r; mounted := mounted s |}.
Definition with_owned (s : state) (d : storage) (o : option (Toggles.state * Hook.state)) : state :=
  {| session := session s; disk := d; registration := registration s;
     mounted := (fun p => {| pending := pending p; owned := o |}) <$> mounted s |}.

(** What the user does reaches the page only through what is mounted; answers of [register]
    always do. *)
Definition is_answer (e : Page.event) : bool := match e with Page.Settle _ _ => true | _ => false end.
Definition step (s : state) (e : event) : state * list request :=
  match e with
  | Session w => (rerender {| session := w; disk := disk s; registration := registration s; mounted := mounted s |}, [])
  | Form e =>
      if connected (session s) || is_answer e then
        let '(r, o) := Page.step (registration s) e in (rerender (with_registration s r), o)
      else (s, [])
  | PendingTimer =>
      match mounted s with
      | Some p =>
          ({| session := session s; disk := disk s; registration := registration s;
              mounted := Some {| pending := Pending.step (pending p) Pending.Fire; owned := owned p |} |}, [])
      | None => (s, [])
      end
  | PendingClose =>
      match mounted s with
      | Some p =>
          if Pending.closeButton true (pending p)
          then (rerender (with_registration s (Page.step (registration s) Page.ClosePending).1), []) else (s, [])
      | None => (s, [])
      end
  | Toggle c =>
      match mounted s ≫= owned with
      | Some (t, h) =>
          match Toggles.toggleCategory t c with
          | Ok t' => (with_owned s (Toggles.store t') (Some (t', h)), [])
          | Throw _ => (s, [])
          end
      | None => (s, [])
      end
  | History e =>
      match mounted s ≫= owned, e with
      | Some (t, h), (Hook.GoNext _ | Hook.GoPrev) => (with_owned s (disk s) (Some (t, (Hook.step h e).1)), [])
      | _, _ => (s, [])
      end
  end.
Definition mount (d : storage) (w : wallet) : state :=
  rerender {| session := w; disk := d; registration := Page.initial; mounted := None |}.
Fixpoint run (s : state) (es : list event) : state * list request :=
  match es with
  | [] => (s, [])
  | e :: es => let '(s1, o1) := step s e in let '(s2, o2) := run s1 es in (s2, o1 ++ o2)
  end.
End ProfilePage.

(** ** Properties *)
Module ProfilePageFacts.
Import ProfilePage.

(** The panels are those of the session: the pending dialog has what the form gave it, and
    the toggles and the history are those of the address there is. *)
Definition panels_ok (w : wallet) (d : storage) (r : Page.state) (p : panels) : Prop :=
  Pending.isOpen (pending p) = Page.showPending r /\ Pending.txHash (pending p) = Page.pendingHash r /\
  match owned p with
  | Some (t, h) => truthy_address w = Some (Toggles.address t) /\ Hook.account h = Toggles.address t /\ Toggles.store t = d
  | None => truthy_address w = None
  end.
Definition inv (s : state) : Prop :=
  match mounted s with
  | Some p => connected (session s) = true /\ panels_ok (session s) (disk s) (registration s) p
  | None => connected (session s) = false
  end.
(** What a rerender needs of the panels it starts from. *)
Definition owned_ok (d : storage) (o : option (Toggles.state * Hook.state)) : Prop :=
  match o with Some (t, h) => Hook.account h = Toggles.address t /\ Toggles.store t = d | None => True end.

Lemma pending_props_spec r p :
  Pending.isOpen (pending_props r p) = Page.showPending r /\ Pending.txHash (pending_props r p) = Page.pendingHash r.
Proof.
  unfold pending_props, Pending.step. destruct (_ && _) eqn:E.
  - apply andb_true_iff in E as [E1%bool_decide_eq_true_1 E2%bool_decide_eq_true_1]. by rewrite E1, E2.
  - unfold Pending.effect. by destruct (_ || _).
Qed.
Lemma history_account h a : Hook.account (Hook.step h (Hook.Account a)).1 = a.
Proof. cbn. by destruct (String.eqb_spec a (Hook.account h)). Qed.
Lemma rerender_inv s : owned_ok (disk s) (mounted s ≫= owned) -> inv (rerender s).
Proof.
  intros Ho. unfold rerender, inv. destruct (connected (session s)) eqn:Hc; cbn [negb mounted session]; [|done].
  split; [done|]. destruct (pending_props_spec (registration s) (match mounted s with Some p => pending p | None => Pending.closed end)) as [H1 H2].
  split; [done|]. split; [done|]. cbn [owned disk session]. destruct (truthy_address (session s)) as [a|]; [|done].
  destruct (mounted s ≫= owned) as [[t h]|]; [|done]. destruct Ho as [Ha Hd]. rewrite history_account.
  by destruct (String.eqb_spec a (Toggles.address t)) as [->|].
Qed.
Lemma inv_owned s : inv s -> owned_ok (disk s) (mounted s ≫= owned).
Proof.
  unfold inv. destruct (mounted s) as [p|]; [|done]. intros (_ & _ & _ & Ho). cbn. by destruct (owned p) as [[t h]|]; [apply Ho|].
Qed.
Lemma toggle_keeps t t' c : Toggles.toggleCategory t c = Ok t' -> Toggles.address t' = Toggles.address t.
Proof. unfold Toggles.toggleCategory. destruct (member _ _); [|done]. by intros [= <-]. Qed.
Lemma pending_fire p : Pending.isOpen (Pending.step p Pending.Fire) = Pending.isOpen p /\
  Pending.txHash (Pending.step p Pending.Fire) = Pending.txHash p.
Proof. cbn. by destruct (Pending.timer p). Qed.

Lemma profile_step_inv s e : inv s -> inv (step s e).1 /\ Forall complete (step s e).2.
Proof.
  intros Hs. pose proof (inv_owned s Hs) as Ho.
  assert (Hsame : inv s /\ Forall complete []) by (split; [done|constructor]). destruct e as [w|e| | |c|e]; cbn [step].
  - split; [by apply rerender_inv|constructor].
  - destruct (_ || _); [|by split]. pose proof (page_step_requests (registration s) e) as Hr.
    destruct (Page.step (registration s) e) as [r o]. split; [by apply rerender_inv|done].
  - destruct (mounted s) as [p|] eqn:Hm; [|by split]. split; [|constructor]. unfold inv in *. rewrite Hm in Hs.
    cbn [mounted session fst]. destruct Hs as (Hc & H1 & H2 & H3). split; [done|].
    destruct (pending_fire (pending p)) as [F1 F2]. unfold panels_ok. cbn [pending owned]. by rewrite F1, F2.
  - destruct (mounted s) as [p|] eqn:Hm; [|by split]. destruct (Pending.closeButton _ _); [|by split].
    split; [|constructor]. apply rerender_inv. cbn [disk mounted with_registration]. by rewrite Hm.
  - unfold inv in Hs. destruct (mounted s) as [p|] eqn:Hm; cbn [mbind option_bind]; [|done].
    destruct Hs as (Hc & H1 & H2 & H3). destruct (owned p) as [[t h]|] eqn:Hw; [|done].
    destruct (Toggles.toggleCategory t c) as [t'|] eqn:Ht; [|done].
    apply toggle_keeps in Ht. split; [|constructor]. unfold inv. cbn. rewrite Hm. cbn. destruct H3 as (Ha & Hh & _).
    unfold panels_ok. cbn. by rewrite Ht.
  - unfold inv in Hs. destruct (mounted s) as [p|] eqn:Hm; cbn [mbind option_bind]; [|done].
    destruct Hs as (Hc & H1 & H2 & H3). destruct (owned p) as [[t h]|] eqn:Hw; [|done].
    destruct e; [done|..]; (split; [|constructor]); unfold inv; cbn; rewrite Hm; cbn; unfold panels_ok; cbn; done.
Qed.
Lemma profile_run_inv es : forall s, inv s -> inv (run s es).1 /\ Forall complete (run s es).2.
Proof.
  induction es as [|e es IH]; intros s Hs; [by split; [|constructor]|]. cbn [run].
  pose proof (profile_step_inv s e Hs) as [H1 H2]. destruct (step s e) as [s1 o1]. specialize (IH s1 H1) as [IH1 IH2].
  destruct (run s1 es) as [s2 o2]. cbn [fst snd] in *. split; [done|]. by apply list.Forall_app.
Qed.

(** *** The toggles shown are those stored *)
Definition read_back (s : state) : Prop :=
  available (disk s) /\ ToggleFacts.togglable (disk s) /\
  match mounted s ≫= owned with
  | Some (t, _) => Toggles.store t = disk s /\ Toggles.prefs t = readStoredPrefs (disk s) (prefsStorageKey (Toggles.address t))
  | None => True
  end.
Lemma rerender_read_back s : read_back s -> read_back (rerender s) /\ disk (rerender s) = disk s.
Proof.
  intros (Ha & Ht & Ho). unfold rerender. destruct (negb _); [done|]. split; [|done]. split; [done|]. split; [done|].
  cbn [mounted mbind option_bind owned disk]. destruct (truthy_address (session s)) as [a|]; [|done].
  destruct (mounted s ≫= owned) as [[t h]|]; [|done]. destruct Ho as [Hs Hp].
  destruct (String.eqb a (Toggles.address t)); [done|]. split; [done|]. cbn. by rewrite Hs.
Qed.
Lemma toggled_read_back d t c t' : available d -> ToggleFacts.togglable d -> Toggles.store t = d ->
  Toggles.prefs t = readStoredPrefs d (prefsStorageKey (Toggles.address t)) -> Toggles.toggleCategory t c = Ok t' ->
  available (Toggles.store t') /\ ToggleFacts.togglable (Toggles.store t') /\
  Toggles.prefs t' = readStoredPrefs (Toggles.store t') (prefsStorageKey (Toggles.address t')).
Proof.
  intros Ha Ht Hs Hp. destruct (Ht (Toggles.address t)) as (fs & Hfs & Hst). rewrite Hfs in Hp.
  destruct t as [d' a p]. cbn in *. subst d' p. rewrite ToggleFacts.toggle_runs. cbv zeta. intros [= <-]. cbn.
  destruct (ToggleFacts.toggled_prefs d a fs c Ha Hst) as (Hn & Hself & Hother).
  split; [by apply store_json_available|]. split; [|symmetry; exact Hself].
  intros b. destruct (decide (b = a)) as [->|Hb]; [by eexists|]. rewrite Hother by done. apply Ht.
Qed.
Lemma step_read_back s e : read_back s -> read_back (step s e).1.
Proof.
  intros Hs. pose proof Hs as (Ha & Ht & Ho). destruct e as [w|e| | |c|e]; cbn [step].
  - by apply rerender_read_back.
  - destruct (_ || _); [|done]. destruct (Page.step (registration s) e). by apply rerender_read_back.
  - destruct (mounted s) as [p|] eqn:Hm; [|done]. by (split; [|split]).
  - destruct (mounted s) as [p|] eqn:Hm; [|done]. destruct (Pending.closeButton _ _); [|done]. apply rerender_read_back.
    split; [done|]. split; [done|]. cbn [mounted with_registration]. by rewrite Hm.
  - destruct (mounted s) as [p|] eqn:Hm; cbn [mbind option_bind] in *; [|done]. destruct (owned p) as [[t h]|] eqn:Hw; [|done].
    destruct (Toggles.toggleCategory t c) as [t'|] eqn:Htc; [|done]. destruct Ho as [Hst Hp].
    destruct (toggled_read_back (disk s) t c t' Ha Ht Hst Hp Htc) as (H1 & H2 & H3).
    split; [done|]. split; [done|]. cbn. by rewrite Hm.
  - destruct (mounted s) as [p|] eqn:Hm; cbn [mbind option_bind] in *; [|done]. destruct (owned p) as [[t h]|] eqn:Hw; [|done].
    destruct e; [done|..]; (split; [done|]); (split; [done|]); cbn; by rewrite Hm.
Qed.
Lemma run_read_back es : forall s, read_back s -> read_back (run s es).1.
Proof.
  induction es as [|e es IH]; intros s Hs; [done|]. cbn [run]. pose proof (step_read_back s e Hs) as H1.
  destruct (step s e) as [s1 o1]. specialize (IH s1 H1). by destruct (run s1 es).
Qed.

(** *** What a change of the wallet does to the panels *)
(** [kept]: the panels of an address that stays; otherwise fresh ones, with the toggles
    stored for the new address and the history on its first page. *)
Definition panels_after (before after : option (Toggles.state * Hook.state)) (d : storage) (w : wallet) : Prop :=
  match after with
  | Some (t', h') =>
      connected w = true /\ truthy_address w = Some (Toggles.address t') /\
      (before = Some (t', h') \/
       ((forall t h, before = Some (t, h) -> Toggles.address t <> Toggles.address t') /\
        Toggles.prefs t' = readStoredPrefs d (prefsStorageKey (Toggles.address t')) /\ Hook.paging h' = Paging.initial))
  | None => connected w = false \/ truthy_address w = None
  end.
Lemma session_panels s w : inv s -> panels_after (mounted s ≫= owned) (mounted (step s (Session w)).1 ≫= owned) (disk s) w.
Proof.
  intros Hs. pose proof (inv_owned s Hs) as Ho. cbn [step fst]. unfold rerender. cbn [session disk mounted].
  destruct (connected w) eqn:Hc; cbn [negb mounted mbind option_bind owned]; [|by left].
  destruct (truthy_address w) as [a|] eqn:Ha; [|by right].
  destruct (mounted s ≫= owned) as [[t h]|] eqn:Hm; cbn [panels_after].
  - destruct Ho as [Hacc Hst]. destruct (String.eqb_spec a (Toggles.address t)) as [->|Hne].
    + split; [done|]. split; [done|]. left. cbn. by rewrite Hacc, String.eqb_refl.
    + split; [done|]. split; [done|]. right. split; [by intros t0 h0 [= <- <-]|]. split; [cbn; by rewrite Hst|].
      cbn. rewrite Hacc. by destruct (String.eqb_spec a (Toggles.address t)).
  - split; [done|]. split; [done|]. by right.
Qed.

(** C39: whatever the user, the wallet and the answers do in any order: the toggles and the
    history on the page are always those of the address of the session and there is none
    without one; as long as storage works and holds preferences that can be toggled, the toggles shown are
    those stored for that address; a change of the wallet keeps the panels of an address that
    stays and otherwise shows the toggles stored for the new one and the first page of its
    history; the pending dialog shows what the form last gave it, nothing is mounted without a
    connected wallet, and every registration asked for is complete. *)
Theorem panels_follow_the_wallet d w es : let '(s, asked) := run (mount d w) es in
  Forall complete asked /\
  match mounted s with
  | None => connected (session s) = false
  | Some p =>
      connected (session s) = true /\
      Pending.isOpen (pending p) = Page.showPending (registration s) /\
      Pending.txHash (pending p) = Page.pendingHash (registration s) /\
      match owned p with
      | Some (t, h) =>
          truthy_address (session s) = Some (Toggles.address t) /\ Hook.account h = Toggles.address t /\
          (available d -> ToggleFacts.togglable d ->
             Toggles.prefs t = readStoredPrefs (disk s) (prefsStorageKey (Toggles.address t)))
      | None => truthy_address (session s) = None
      end
  end /\
  forall w', panels_after (mounted s ≫= owned) (mounted (step s (Session w')).1 ≫= owned) (disk s) w'.
Proof.
  assert (H0 : inv (mount d w)) by by apply rerender_inv.
  pose proof (profile_run_inv es _ H0) as [H1 H2]. pose proof (run_read_back es (mount d w)) as Hr.
  assert (Hm : available d -> ToggleFacts.togglable d -> read_back (mount d w))
    by (intros Ha Ht; by apply rerender_read_back).
  destruct (run (mount d w) es) as [s o]. cbn [fst snd] in *.
  split; [done|]. split; [|intros w'; by apply session_panels]. unfold inv in H1.
  destruct (mounted s) as [p|] eqn:Hp; [|done]. destruct H1 as (Hc & Hi & Ht & Ho).
  split; [done|]. split; [done|]. split; [done|]. destruct (owned p) as [[t h]|] eqn:Hw; [|done]. destruct Ho as (? & ? & _).
  split; [done|]. split; [done|]. intros Ha Htg. destruct (Hr (Hm Ha Htg)) as (_ & _ & Hb). rewrite Hp in Hb. cbn in Hb. rewrite Hw in Hb. apply Hb.
Qed.

(** The form is the page's, not the wallet's: what was typed, and the error of a
    registration that failed, are there for the next wallet too. *)
Lemma form_survives_the_wallet s w : registration (step s (Session w)).1 = registration s.
Proof. cbn. unfold rerender. by destruct (negb _). Qed.
End ProfilePageFacts.

(** ** Witness: a category is toggled, then another wallet connects *)
Definition wallet_of (a : string) : ProfilePage.wallet := {| ProfilePage.connected := true; ProfilePage.address := Some a |}.
Definition after_the_switch : ProfilePage.state :=
  (ProfilePage.run (ProfilePage.mount empty_storage (wallet_of "GA")) [ProfilePage.Toggle "Invoice Listed"; ProfilePage.Session (wallet_of "GB")]).1.
Lemma panels_follow_the_wallet_witness : exists t h,
  ProfilePage.mounted after_the_switch ≫= ProfilePage.owned = Some (t, h) /\ Toggles.address t = "GB" /\
  Toggles.prefs t = readStoredPrefs (ProfilePage.disk after_the_switch) (prefsStorageKey "GB").
Proof.
  assert (Es : ProfilePage.session after_the_switch = wallet_of "GB") by (vm_compute; reflexivity).
  pose proof (ProfilePageFacts.panels_follow_the_wallet empty_storage (wallet_of "GA")
    [ProfilePage.Toggle "Invoice Listed"; ProfilePage.Session (wallet_of "GB")]) as H.
  unfold after_the_switch in *. destruct (ProfilePage.run _ _) as [s asked]. cbn [fst] in *.
  destruct H as (_ & H & _). rewrite Es in H. destruct (ProfilePage.mounted s) as [p|]; [|discriminate H].
  destruct H as (_ & _ & _ & H). cbn [mbind option_bind]. destruct (ProfilePage.owned p) as [[t h]|]; [|discriminate H].
  destruct H as (Ha & _ & Hp). injection Ha as Ha. rewrite <- Ha in Hp. exists t, h. split; [reflexivity|]. split; [by symmetry|].
  apply Hp; [exact empty_available|]. intros a. eexists. split; [reflexivity|vm_compute; reflexivity].
Defined.
