(* ===== verification/CreateDialog.v ===== *)
(** * Creating an invoice from the dashboard ([app/dashboard/page.tsx] with [InvoiceForm.tsx])

    The dialog of the dashboard over the page ([Dashboard.Page]) and the form ([FormPage]).  A
    form is mounted each time the dialog opens and unmounted when it closes; a submission that
    is under way then goes on without its form, and reports to the dashboard all the
    same.  Each mounting has a number, so that several submissions can be told apart. *)

From S2P Require Import Prelude JsNumber JsString JsValue JsDate SdkTypes InvoiceForm DatePicker FormPage Queries Dashboard.
Local Open Scope Z_scope.

Module CreateDialog.
Section CreateDialog.
Context `{F : DateFns} (valid : string -> bool) (startOfDay : Z -> Z -> Z).

Record state := {
  page : Page.state; connected : bool;
  mounted : option (nat * FormPage.state);   (* the form of the dialog *)
  submissions : list nat;                    (* the mountings whose [handleCreate] is running *)
  fresh : nat }.

(** What a render mounts or unmounts. *)
Definition visible (s : state) : bool := connected s && Page.showCreateModal (page s).
Definition rerender (s : state) : state :=
  match visible s, mounted s with
  | true, None =>
      {| page := page s; connected := connected s; mounted := Some (fresh s, FormPage.initial);
         submissions := submissions s; fresh := S (fresh s) |}
  | false, Some _ =>
      {| page := page s; connected := connected s; mounted := None; submissions := submissions s; fresh := fresh s |}
  | _, _ => s
  end.
Definition with_page (s : state) (p : Page.state) : state :=
  {| page := p; connected := connected s; mounted := mounted s; submissions := submissions s; fresh := fresh s |}.
Definition mount (c : bool) (p : Page.state) : state :=
  rerender {| page := p; connected := c; mounted := None; submissions := []; fresh := 0 |}.

Inductive event :=
  | OnPage (e : Page.event)          (* the page without its dialog's form *)
  | Connection (c : bool)
  | InForm (e : FormPage.event)      (* the form, except the end of a submission *)
  | Ended (id : nat) (r : FormPage.ending).

Definition is_end (e : FormPage.event) : bool := match e with FormPage.Ended _ => true | _ => false end.
Definition is_created (e : Page.event) : bool := match e with Page.Created => true | _ => false end.
(** [onSuccess] closes the dialog there is and clears the console. *)
Definition onSuccess (s : state) : state := with_page s (Page.step (page s) Page.Created).
Definition ended (s : state) (id : nat) (r : FormPage.ending) : state :=
  {| page := page s; connected := connected s;
     mounted := match mounted s with
                | Some (i, f) =>
                    if (i =? id)%nat then Some (i, (FormPage.step valid startOfDay f (FormPage.Ended r)).1) else Some (i, f)
                | None => None
                end;
     submissions := List.filter (fun i => negb (i =? id)%nat) (submissions s); fresh := fresh s |}.
Definition step (s : state) (e : event) : state * option InvoiceForm :=
  match e with
  | OnPage e => (if is_created e || negb (connected s) then s else rerender (with_page s (Page.step (page s) e)), None)
  | Connection c =>
      (rerender {| page := page s; connected := c; mounted := mounted s; submissions := submissions s; fresh := fresh s |}, None)
  | InForm e =>
      match mounted s with
      | Some (i, f) =>
          if is_end e then (s, None)
          else
            let '(f', o) := FormPage.step valid startOfDay f e in
            ({| page := page s; connected := connected s; mounted := Some (i, f');
                submissions := match o with Some _ => i :: submissions s | None => submissions s end;
                fresh := fresh s |}, o)
      | None => (s, None)
      end
  | Ended id r =>
      (if bool_decide (id ∈ submissions s) then
         let s := ended s id r in
         match r with FormPage.EndFinished _ => rerender (onSuccess s) | FormPage.EndFailed _ => s end
       else s, None)
  end.
End CreateDialog.
End CreateDialog.

(** ** Properties *)
Module CreateDialogFacts.
Import CreateDialog.
Section Facts.
Context `{F : DateFns} (valid : string -> bool) (startOfDay : Z -> Z -> Z).
Abbreviation step := (step valid startOfDay).

Record inv (s : state) : Prop := {
  i_mounted : (if mounted s then true else false) = visible s;
  i_busy : forall i f, mounted s = Some (i, f) -> (i < fresh s)%nat /\ (FormPage.isBusy f = true <-> i ∈ submissions s);
  i_fresh : forall i, i ∈ submissions s -> (i < fresh s)%nat;
  i_once : NoDup (submissions s) }.

(** What a render starts from. *)
Lemma dialog_rerender_inv s :
  (forall i f, mounted s = Some (i, f) -> (i < fresh s)%nat /\ (FormPage.isBusy f = true <-> i ∈ submissions s)) ->
  (forall i, i ∈ submissions s -> (i < fresh s)%nat) -> NoDup (submissions s) -> inv (rerender s).
Proof.
  intros Hm Hf Hn. unfold rerender. destruct (visible s) eqn:Hv, (mounted s) as [[i f]|] eqn:E.
  - constructor; [by rewrite E, Hv|by rewrite E|done|done].
  - constructor; cbn; [by unfold visible in *; cbn|intros i f [= <- <-]; split; [lia|]|intros i Hi%Hf; lia|done].
    split; [done|]. intros Hi%Hf. lia.
  - constructor; cbn; [by unfold visible in *; cbn|done|done|done].
  - constructor; [by rewrite E, Hv|by rewrite E|done|done].
Qed.

(** A form asks for a creation exactly when it was idle and becomes busy. *)
Lemma form_busy f e : is_end e = false -> let '(f', o) := FormPage.step valid startOfDay f e in
  match o with
  | Some _ => FormPage.isBusy f = false /\ FormPage.isBusy f' = true
  | None => FormPage.isBusy f' = FormPage.isBusy f
  end.
Proof.
  destruct e as [x| |id now|id| | |r]; intros He; try done; cbn.
  - by destruct (_ =? 1).
  - by destruct (_ && _).
  - by destruct (FormPage.submitted f id).
  - by destruct (_ && _).
  - destruct (_ =? 2); [|done]. by destruct (FormPage.isBusy f) eqn:E.
Qed.
Lemma form_ended f r : FormPage.isBusy (FormPage.step valid startOfDay f (FormPage.Ended r)).1 = false.
Proof. cbn. by destruct (FormPage.isBusy f) eqn:E. Qed.

Lemma ended_inv s id r : inv s ->
  (forall i f, mounted (ended valid startOfDay s id r) = Some (i, f) ->
     (i < fresh s)%nat /\ (FormPage.isBusy f = true <-> i ∈ submissions (ended valid startOfDay s id r))) /\
  (forall i, i ∈ submissions (ended valid startOfDay s id r) -> (i < fresh s)%nat) /\
  NoDup (submissions (ended valid startOfDay s id r)).
Proof.
  intros [Hm Hb Hf Hn]. unfold ended. cbn.
  assert (Hin : forall i, i ∈ List.filter (fun i => negb (i =? id)%nat) (submissions s) <-> i ∈ submissions s /\ i <> id).
  { intros i. rewrite !list_elem_of_In, filter_In, negb_true_iff, Nat.eqb_neq. done. }
  split; [|split].
  - intros i f E. rewrite Hin. destruct (mounted s) as [[j g]|] eqn:Hg; [|done]. destruct (Hb j g eq_refl) as [Hlt Hbusy].
    destruct (Nat.eqb_spec j id) as [->|Hne]; injection E as <- <-; (split; [done|]).
    + pose proof (form_ended g r) as He. cbn in He. rewrite He. split; [done|]. by intros [_ ?].
    + rewrite Hbusy. by split; [|intros [? _]].
  - intros i [Hi _]%Hin. by apply Hf.
  - by apply NoDup_ListNoDup, NoDup_filter, NoDup_ListNoDup.
Qed.
Lemma dialog_step_inv s e : inv s -> inv (step s e).1.
Proof.
  intros Hs. pose proof Hs as [Hm Hb Hf Hn]. destruct e as [e|c|e|id r]; cbn [CreateDialog.step].
  - destruct (_ || _); [done|]. by apply dialog_rerender_inv.
  - by apply dialog_rerender_inv.
  - destruct (mounted s) as [[i f]|] eqn:E; [|done]. destruct (is_end e) eqn:He; [done|].
    pose proof (form_busy f e He) as H. destruct (Hb i f eq_refl) as [Hlt Hbusy].
    destruct (FormPage.step valid startOfDay f e) as [f' [g|]]; (constructor; cbn; [done| | |]).
    + intros j h [= <- <-]. destruct H as [_ ->]. split; [done|]. split; [by left|done].
    + intros j [->|Hj]%elem_of_cons; [done|by apply Hf].
    + constructor; [|done]. destruct H as [Hi _]. rewrite <- Hbusy. by rewrite Hi.
    + intros j h [= <- <-]. by rewrite H.
    + done.
    + done.
  - case_bool_decide; [|done]. destruct (ended_inv s id r Hs) as (H1 & H2 & H3). destruct r as [m|d].
    + constructor; [|done|done|done]. cbn [fst]. unfold ended, visible in *. cbn. rewrite <- Hm.
      destruct (mounted s) as [[i f]|]; [|done]. by destruct (i =? id)%nat.
    + cbn [fst]. apply dialog_rerender_inv; done.
Qed.

(** After any events: the form is there exactly while the dialog is open for a connected
    wallet, it is busy exactly while a submission of its own is under way, and no form has two
    under way. *)
Lemma dialog_inv c p es : inv (foldl (fun s e => (step s e).1) (mount c p) es).
Proof.
  assert (H0 : inv (mount c p)) by (apply dialog_rerender_inv; [done|by intros i ?%elem_of_nil|constructor]).
  revert H0. generalize (mount c p). induction es as [|e es IH]; intros s Hs; [done|]. cbn. by apply IH, dialog_step_inv.
Qed.

(** A submission whose dialog was closed reports to nobody when it fails: neither the page nor
    the form of another dialog changes. *)
Lemma late_failure_is_not_shown s id m : inv s -> id ∈ submissions s -> (forall f, mounted s <> Some (id, f)) ->
  let s' := (step s (Ended id (FormPage.EndFailed m))).1 in page s' = page s /\ mounted s' = mounted s.
Proof.
  intros Hs Hid Hno. cbn. rewrite bool_decide_true by done. cbn. split; [done|].
  destruct (mounted s) as [[i f]|]; [|done]. destruct (Nat.eqb_spec i id) as [->|]; [|done]. by destruct (Hno f).
Qed.
(** When it succeeds it closes whatever dialog is open by then, with what was typed in it. *)
Lemma late_success_closes_the_next_dialog s id j f d : inv s -> id ∈ submissions s -> mounted s = Some (j, f) -> j <> id ->
  let s' := (step s (Ended id (FormPage.EndFinished d))).1 in mounted s' = None /\ Page.showCreateModal (page s') = false.
Proof.
  intros Hs Hid Hm Hne. cbn. rewrite bool_decide_true by done. unfold rerender, onSuccess, ended, visible. cbn.
  rewrite Hm, andb_false_r. by rewrite (proj2 (Nat.eqb_neq j id)).
Qed.
End Facts.
End CreateDialogFacts.

(** Such a run: the dialog is closed while its invoice is created, opened again and filled in. *)
Module CreateDialogExample.
Import CreateDialog.
#[local] Existing Instance MockDateFns.fns.
Definition reopened : list event :=
  [OnPage Page.CreateClick] ++ map InForm FormPageWitness.reviewed ++
  [OnPage Page.CloseCreate; OnPage Page.CreateClick; InForm (FormPage.Edit (FormPage.EditBuyer "GB"))].
Definition after (es : list event) : state :=
  foldl (fun s e => (step (fun _ => true) (zone_midnight 0) s e).1) (mount true (Page.initial (Some "GA") true)) es.
End CreateDialogExample.
Lemma typed_terms_are_lost :
  (buyer ∘ FormPage.form ∘ snd <$> CreateDialog.mounted (CreateDialogExample.after CreateDialogExample.reopened)) = Some "GB" /\
  CreateDialog.mounted (CreateDialogExample.after
    (CreateDialogExample.reopened ++ [CreateDialog.Ended 0 (FormPage.EndFinished (Ok tt))])) = None.
Proof. by vm_compute. Qed.
