(* ===== verification/Markup.v ===== *)
(** * Rendered markup and what a user can do with it

    A component returns a tree of elements; its handlers are the only way for a user to send
    it events.  A tree keeps what JSX says about elements, their texts, their labelling
    attributes, their disabled and checked states and their handlers; class names are left
    out.  The events of one action are what React dispatches for it: a click runs the
    handlers of the element clicked and then those of its ancestors up to the first that
    stops it, and whether it was stopped or not what the click does to the element comes
    after: a checkbox changes, a radio button is chosen, a submit button submits its form once
    the required fields are filled.  A disabled control dispatches nothing, and a [select] changes
    to one of its options.  (Space and Enter on a control, and Enter in a field of a form, are
    clicks too; a click on a label is followed by one on its control.)
    [act] says which lists of events one action may dispatch, [Interactive] closes a component
    under the actions its own view offers, and [well_labelled] checks that every control has
    a name and every reference a target. *)

From S2P Require Import Prelude.

Section Nodes.
Context {Ev : Type}.

(** [OnClickSelf] is a handler under [event.target === event.currentTarget], [StopClick] calls
    [stopPropagation]; [OnToggle] is the change of a checkbox, [OnCheck] that of a radio button,
    and [OnAmong] that of a range input, to one of the values its bounds and step leave;
    [OnKey] is a key pressed in the element or a part of it. *)
Inductive attr :=
  | A (name value : string)
  | Flag (name : string) (b : bool)
  | OnClick (es : list Ev)
  | OnClickSelf (es : list Ev)
  | StopClick
  | OnChange (f : string -> Ev)
  | OnToggle (f : bool -> Ev)
  | OnCheck (e : Ev)
  | OnKey (key : string) (e : Ev)
  | OnAmong (l : list string) (f : string -> Ev)
  | OnSubmit (e : Ev).
Inductive node :=
  | Txt (s : string)
  | Icon (name : string)
  | Frag (kids : list node)
  | El (tag : string) (attrs : list attr) (kids : list node).

(** The induction principle with the hypothesis for the children. *)
Section Induction.
Context (P : node -> Prop).
Context (HT : forall s, P (Txt s)) (HI : forall s, P (Icon s)) (HF : forall ks, Forall P ks -> P (Frag ks))
  (HE : forall tag attrs ks, Forall P ks -> P (El tag attrs ks)).
Fixpoint node_nested_ind (n : node) : P n :=
  let fix all ks : Forall P ks :=
    match ks with [] => list.Forall_nil_2 P | k :: r => list.Forall_cons_2 P k r (node_nested_ind k) (all r) end in
  match n with
  | Txt s => HT s
  | Icon s => HI s
  | Frag ks => HF ks (all ks)
  | El tag attrs ks => HE tag attrs ks (all ks)
  end.
End Induction.

(** [{cond && <X/>}]. *)
Definition when (b : bool) (n : node) : node := if b then n else Frag [].
Definition when_some {X} (o : option X) (f : X -> node) : node := match o with Some x => f x | None => Frag [] end.

(** ** Reading a tree *)
Fixpoint elements (n : node) : list (string * list attr * list node) :=
  match n with
  | Txt _ | Icon _ => []
  | Frag ks => flat_map elements ks
  | El tag attrs ks => (tag, attrs, ks) :: flat_map elements ks
  end.
Fixpoint texts (n : node) : list string :=
  match n with
  | Txt s => [s]
  | Icon _ => []
  | Frag ks | El _ _ ks => flat_map texts ks
  end.

Fixpoint attribute (name : string) (attrs : list attr) : option string :=
  match attrs with
  | [] => None
  | A k v :: rest => if String.eqb k name then Some v else attribute name rest
  | _ :: rest => attribute name rest
  end.
Definition is_attr (name value : string) (attrs : list attr) : bool :=
  match attribute name attrs with Some v => String.eqb v value | None => false end.
Definition flag (name : string) (attrs : list attr) : bool :=
  existsb (fun a => match a with Flag k b => String.eqb k name && b | _ => false end) attrs.
Definition disabled (attrs : list attr) : bool := flag "disabled" attrs.
Definition has (name : string) (attrs : list attr) : bool := if attribute name attrs then true else false.

(** ** Clicks *)
Definition on_click (attrs : list attr) : list Ev := flat_map (fun a => match a with OnClick es => es | _ => [] end) attrs.
Definition on_self (attrs : list attr) : list Ev := flat_map (fun a => match a with OnClickSelf es => es | _ => [] end) attrs.
Definition stops (attrs : list attr) : bool := existsb (fun a => match a with StopClick => true | _ => false end) attrs.

(** What a click on each element of the tree dispatches, and whether it was stopped. *)
Fixpoint bubbling (n : node) : list (list Ev * bool) :=
  match n with
  | Txt _ | Icon _ => []
  | Frag ks => flat_map bubbling ks
  | El _ attrs ks =>
      if disabled attrs then []
      else
        (on_click attrs ++ on_self attrs, stops attrs) ::
        map (fun ib : list Ev * bool => if ib.2 then ib else (ib.1 ++ on_click attrs, stops attrs)) (flat_map bubbling ks)
  end.
Definition clicks (n : node) : list (list Ev) := map fst (bubbling n).

(** ** Fields and forms *)
Inductive control := Types (f : string -> Ev) | Picks (l : list Ev).
Definition option_values (ks : list node) : list string :=
  flat_map (fun '(tag, attrs, _) =>
    if String.eqb tag "option" then match attribute "value" attrs with Some v => [v] | None => [] end else [])
  (flat_map elements ks).
Definition fields_of (el : string * list attr * list node) : list control :=
  let '(tag, attrs, ks) := el in
  if disabled attrs then []
  else flat_map (fun a =>
    match a with
    | OnChange f =>
        if String.eqb tag "select" then [Picks (map f (option_values ks))] else [Types f]
    | OnAmong l f => [Picks (map f l)]
    | _ => []
    end) attrs.
Definition input_fields (n : node) : list control := flat_map fields_of (elements n).

Definition filled_in (el : string * list attr * list node) : bool :=
  let '(_, attrs, _) := el in
  negb (flag "required" attrs) || negb (String.eqb (default "" (attribute "value" attrs)) "").
Definition submit_button (el : string * list attr * list node) : bool :=
  let '(tag, attrs, _) := el in
  String.eqb tag "button" && is_attr "type" "submit" attrs && negb (disabled attrs).
Definition on_submit (attrs : list attr) : list Ev := flat_map (fun a => match a with OnSubmit e => [e] | _ => [] end) attrs.
(** The submission of a form whose required fields are filled. *)
Definition ready (attrs : list attr) (ks : list node) : list Ev :=
  if forallb filled_in (flat_map elements ks) then on_submit attrs else [].
(** The submissions there are. *)
Definition submits (n : node) : list Ev :=
  flat_map (fun '(tag, attrs, ks) =>
    if String.eqb tag "form" && existsb submit_button (flat_map elements ks) && negb (disabled attrs)
    then ready attrs ks else []) (elements n).

(** ** What one click dispatches *)
(** [hit]: the element clicked, [told]: the click handlers that run, [stopped]: whether one of
    them stopped it, [after]: what the click does to its element, [sub] being the submission of
    the form around. *)
Record target := { hit : string * list attr * list node; told : list Ev; stopped : bool; after : list Ev }.
Definition reaction (sub : list Ev) (tag : string) (attrs : list attr) : list Ev :=
  if submit_button (tag, attrs, []) then sub
  else flat_map (fun a =>
    match a with
    | OnToggle f => [f (negb (flag "checked" attrs))]
    | OnCheck e => if flag "checked" attrs then [] else [e]
    | _ => []
    end) attrs.
Definition within (sub : list Ev) (tag : string) (attrs : list attr) (ks : list node) : list Ev :=
  if String.eqb tag "form" then ready attrs ks else sub.
(** A click on a part of an element. *)
Definition pass (attrs : list attr) (own : list Ev) (t : target) : target :=
  {| hit := hit t; told := if stopped t then told t else told t ++ on_click attrs; stopped := stopped t || stops attrs;
     after := match own with [] => after t | _ => own end |}.
Fixpoint targets (sub : list Ev) (n : node) : list target :=
  match n with
  | Txt _ | Icon _ => []
  | Frag ks => flat_map (targets sub) ks
  | El tag attrs ks =>
      if disabled attrs then []
      else
        {| hit := (tag, attrs, ks); told := on_click attrs ++ on_self attrs; stopped := stops attrs; after := reaction sub tag attrs |} ::
        map (pass attrs (reaction sub tag attrs)) (flat_map (targets (within sub tag attrs ks)) ks)
  end.
Definition dispatched (sub : list Ev) (n : node) : list (list Ev) := map (fun t => told t ++ after t) (targets sub n).

(** ** Keys *)
(** What a key dispatches while an element is focused, for each of them. *)
Definition on_key (key : string) (attrs : list attr) : list Ev :=
  flat_map (fun a => match a with OnKey k e => if String.eqb k key then [e] else [] | _ => [] end) attrs.
Fixpoint pressing (key : string) (n : node) : list (list Ev) :=
  match n with
  | Txt _ | Icon _ => []
  | Frag ks => flat_map (pressing key) ks
  | El _ attrs ks =>
      if disabled attrs then [] else on_key key attrs :: map (fun es => es ++ on_key key attrs) (flat_map (pressing key) ks)
  end.

(** ** What one action dispatches *)
(** On a part of a form whose submission is [sub]; outside of forms there is none. *)
Inductive act_in (sub : list Ev) (n : node) : list Ev -> Prop :=
  | act_click es : es ∈ dispatched sub n -> act_in sub n es
  | act_type f v : Types f ∈ input_fields n -> act_in sub n [f v]
  | act_pick l e : Picks l ∈ input_fields n -> e ∈ l -> act_in sub n [e].

(** ** Names of controls *)
Definition has_text (ks : list node) : bool := match flat_map texts ks with [] => false | _ => true end.
Definition label_fors (n : node) : list string :=
  flat_map (fun '(tag, attrs, ks) =>
    if String.eqb tag "label" && has_text ks then match attribute "htmlFor" attrs with Some i => [i] | None => [] end
    else []) (elements n).
Definition ids (n : node) : list string :=
  flat_map (fun '(_, attrs, _) => match attribute "id" attrs with Some i => [i] | None => [] end) (elements n).
Definition references (n : node) : list string :=
  flat_map (fun '(_, attrs, _) =>
    flat_map (fun a => match attribute a attrs with Some i => [i] | None => [] end) ["aria-labelledby"; "aria-describedby"; "htmlFor"])
  (elements n).
Definition is_field (tag : string) : bool := existsb (String.eqb tag) ["input"; "select"; "textarea"].
Definition is_pressed (tag : string) : bool := existsb (String.eqb tag) ["button"; "a"].

(** [fors] are the fields that some label names; [inside] tells if a label is around. *)
Fixpoint named (fors : list string) (inside : bool) (n : node) : bool :=
  match n with
  | Txt _ | Icon _ => true
  | Frag ks => forallb (named fors inside) ks
  | El tag attrs ks =>
      (if has "aria-label" attrs || has "aria-labelledby" attrs then true
       else if is_pressed tag then has_text ks || has "title" attrs
       else if is_field tag then
         inside || has "title" attrs || match attribute "id" attrs with Some i => existsb (String.eqb i) fors | None => false end
       else negb (is_attr "role" "dialog" attrs)) &&
      forallb (named fors (inside || (String.eqb tag "label" && has_text ks))) ks
  end.
Definition well_labelled (n : node) : bool :=
  named (label_fors n) false n && forallb (fun r => existsb (String.eqb r) (ids n)) (references n).
End Nodes.
Arguments attr : clear implicits.
Arguments node : clear implicits.
Arguments control : clear implicits.
Arguments target : clear implicits.
Abbreviation act := (act_in []).

(** ** A component inside another *)
Section Lift.
Context {E F : Type} (g : E -> F).
Definition lift_attr (a : attr E) : attr F :=
  match a with
  | A k v => A k v
  | Flag k b => Flag k b
  | OnClick es => OnClick (map g es)
  | OnClickSelf es => OnClickSelf (map g es)
  | StopClick => StopClick
  | OnChange f => OnChange (fun v => g (f v))
  | OnToggle f => OnToggle (fun b => g (f b))
  | OnCheck e => OnCheck (g e)
  | OnKey k e => OnKey k (g e)
  | OnAmong l f => OnAmong l (fun v => g (f v))
  | OnSubmit e => OnSubmit (g e)
  end.
Fixpoint lift (n : node E) : node F :=
  match n with
  | Txt s => Txt s
  | Icon s => Icon s
  | Frag ks => Frag (map lift ks)
  | El tag attrs ks => El tag (map lift_attr attrs) (map lift ks)
  end.
End Lift.

(** ** Every event comes from a handler of an enabled element *)
Section Live.
Context {Ev : Type}.
Implicit Types (n : node Ev) (P : Ev -> Prop).

Definition live n : list (attr Ev) :=
  flat_map (fun '(_, attrs, _) => if disabled attrs then [] else attrs) (elements n).
Definition fires P (a : attr Ev) : Prop :=
  match a with
  | OnClick es | OnClickSelf es => Forall P es
  | OnChange f => forall v, P (f v)
  | OnToggle f => forall b, P (f b)
  | OnAmong l f => Forall (fun v => P (f v)) l
  | OnCheck e | OnKey _ e | OnSubmit e => P e
  | A _ _ | Flag _ _ | StopClick => True
  end.

(** The same for all handlers but those of submissions. *)
Definition presses P (a : attr Ev) : Prop := match a with OnSubmit _ => True | _ => fires P a end.
Lemma fires_presses P l : Forall (fires P) l -> Forall (presses P) l.
Proof. intros H. eapply list.Forall_impl; [exact H|]. by intros []. Qed.

Lemma live_el tag attrs ks :
  live (El tag attrs ks) = (if disabled attrs then [] else attrs) ++ flat_map live ks.
Proof.
  unfold live. cbn. f_equal. induction ks as [|k ks IH]; [done|]. cbn. by rewrite flat_map_app, IH.
Qed.
Lemma live_frag ks : live (Frag ks) = flat_map live ks.
Proof. unfold live. cbn. induction ks as [|k ks IH]; [done|]. cbn. by rewrite flat_map_app, IH. Qed.

Lemma Forall_flat_map {X Y} (Q : Y -> Prop) (f : X -> list Y) l :
  Forall Q (flat_map f l) <-> Forall (fun x => Forall Q (f x)) l.
Proof.
  induction l as [|x l IH]; cbn; [by split|]. by rewrite Forall_app, IH, list.Forall_cons.
Qed.

Lemma presses_clicks P attrs : Forall (presses P) attrs -> Forall P (on_click attrs) /\ Forall P (on_self attrs).
Proof.
  unfold on_click, on_self. rewrite !Forall_flat_map.
  intros H; split; (eapply list.Forall_impl; [exact H|]); intros [| | | | | | | | | |]; cbn; auto; done.
Qed.

Lemma bubbling_presses P n : Forall (presses P) (live n) -> Forall (fun ib => Forall P ib.1) (bubbling n).
Proof.
  induction n as [s|s|ks IH|tag attrs ks IH] using node_nested_ind; [done|done| |].
  - rewrite live_frag, Forall_flat_map. intros H. cbn [bubbling]. rewrite Forall_flat_map.
    rewrite list.Forall_forall in *. intros k Hk. by apply IH, H.
  - rewrite live_el, Forall_app, Forall_flat_map. intros [Ha Hk]. cbn [bubbling].
    destruct (disabled attrs); [done|]. destruct (presses_clicks P attrs Ha) as [Hc Hs].
    constructor; [by apply Forall_app|]. apply list.Forall_fmap.
    assert (Hi : Forall (fun ib : list Ev * bool => Forall P ib.1) (flat_map bubbling ks)).
    { rewrite Forall_flat_map. rewrite list.Forall_forall in *. intros k Hin. by apply IH, Hk. }
    eapply list.Forall_impl; [exact Hi|]. intros [es []]; cbn; [done|]. intros He. by apply Forall_app.
Qed.

(** What the handlers of a target tell is what bubbles. *)
Lemma targets_bubble sub n : map (fun t => (told t, stopped t)) (targets sub n) = bubbling n.
Proof.
  revert sub. assert (Hf : forall sub (ks : list (node Ev)), Forall (fun k : node Ev => forall sub, map (fun t => (told t, stopped t)) (targets sub k) = bubbling k) ks ->
    map (fun t => (told t, stopped t)) (flat_map (targets sub) ks) = flat_map bubbling ks).
  { intros sub ks H. induction H as [|k ks Hk _ IH]; [done|]. cbn. by rewrite map_app, Hk, IH. }
  induction n as [s|s|ks IH|tag attrs ks IH] using node_nested_ind; intros sub; [done|done|by apply Hf|].
  cbn [targets bubbling]. destruct (disabled attrs); [done|]. cbn [map told stopped]. f_equal.
  rewrite <- (Hf (within sub tag attrs ks) ks IH), !map_map. apply map_ext. intros [h l [] a]; done.
Qed.
Lemma target_bubbles sub n t : t ∈ targets sub n -> (told t, stopped t) ∈ bubbling n.
Proof. intros H. rewrite <- (targets_bubble sub). apply list_elem_of_fmap. by exists t. Qed.
Lemma target_clicks sub n t : t ∈ targets sub n -> told t ∈ clicks n.
Proof. intros H%target_bubbles. apply list_elem_of_fmap. by exists (told t, stopped t). Qed.

Lemma elem_of_flat_map {X Y} (f : X -> list Y) l y : y ∈ flat_map f l <-> exists x, x ∈ l /\ y ∈ f x.
Proof. rewrite list_elem_of_In, in_flat_map. by setoid_rewrite list_elem_of_In. Qed.

(** The attributes of an enabled element are live. *)
Lemma live_attr n tag attrs ks a : (tag, attrs, ks) ∈ elements n -> disabled attrs = false -> a ∈ attrs -> a ∈ live n.
Proof. intros Hel Hd Ha. apply elem_of_flat_map. exists (tag, attrs, ks). by rewrite Hd. Qed.

Lemma fields_fire P n fd : Forall (presses P) (live n) -> fd ∈ input_fields n ->
  match fd with Types f => forall v, P (f v) | Picks l => Forall P l end.
Proof.
  intros HP ([[tag attrs] ks] & Hel & Hf)%elem_of_flat_map. unfold fields_of in Hf.
  destruct (disabled attrs) eqn:Hd; [by apply not_elem_of_nil in Hf|].
  apply elem_of_flat_map in Hf as (a & Ha & Hf). rewrite list.Forall_forall in HP.
  pose proof (HP _ (live_attr n _ _ _ _ Hel Hd Ha)) as Hfire.
  destruct a; cbn in Hf, Hfire; try (by apply not_elem_of_nil in Hf).
  - destruct (String.eqb tag "select"); apply list_elem_of_singleton in Hf as ->;
      [apply list.Forall_fmap, list.Forall_forall; auto|done].
  - apply list_elem_of_singleton in Hf as ->. by apply list.Forall_fmap.
Qed.

Lemma submits_el tag (attrs : list (attr Ev)) ks :
  submits (El tag attrs ks) =
    (if String.eqb tag "form" && existsb submit_button (flat_map elements ks) && negb (disabled attrs) then ready attrs ks else []) ++
    flat_map submits ks.
Proof. unfold submits. cbn [elements flat_map]. f_equal. induction ks as [|k ks IH]; [done|]. cbn. by rewrite flat_map_app, IH. Qed.
Lemma submits_frag (ks : list (node Ev)) : submits (Frag ks) = flat_map submits ks.
Proof. unfold submits. cbn. induction ks as [|k ks IH]; [done|]. cbn. by rewrite flat_map_app, IH. Qed.
Lemma submits_live n e : e ∈ submits n -> OnSubmit e ∈ live n.
Proof.
  intros ([[tag attrs] ks] & Hel & He)%elem_of_flat_map.
  destruct (disabled attrs) eqn:Hd; [by rewrite andb_false_r in He; apply not_elem_of_nil in He|]. unfold ready, on_submit in He.
  destruct (_ && _); [|by apply not_elem_of_nil in He]. destruct (forallb _ _); [|by apply not_elem_of_nil in He].
  apply elem_of_flat_map in He as (a & Ha & He).
  destruct a; cbn in He; try (by apply not_elem_of_nil in He). apply list_elem_of_singleton in He as ->.
  by apply (live_attr n tag attrs ks).
Qed.
Lemma submits_fire P n e : Forall (fires P) (live n) -> e ∈ submits n -> P e.
Proof. intros HP He%submits_live. rewrite list.Forall_forall in HP. by apply (HP _ He). Qed.

(** What a click does to its element: a submission, of the form around or of one inside, or the
    change of a box. *)
Definition changes (a : attr Ev) (e : Ev) : Prop :=
  match a with OnToggle f => exists b, e = f b | OnCheck e' => e = e' | _ => False end.
Definition explained (sub : list Ev) n (e : Ev) : Prop :=
  (e ∈ sub /\ existsb submit_button (elements n) = true) \/ e ∈ submits n \/ exists a, a ∈ live n /\ changes a e.
Lemma reaction_explained sub tag attrs ks e : disabled attrs = false -> e ∈ reaction sub tag attrs ->
  explained sub (El tag attrs ks) e.
Proof.
  unfold reaction. intros Hd He. destruct (submit_button (tag, attrs, [])) eqn:Hb.
  - left. split; [done|]. cbn [elements existsb]. by apply orb_true_iff; left.
  - right. right. apply elem_of_flat_map in He as (a & Ha & He). exists a. split; [rewrite live_el, Hd; set_solver|].
    destruct a; try (by apply not_elem_of_nil in He); cbn.
    + apply list_elem_of_singleton in He as ->. by eexists.
    + destruct (flag _ _); [by apply not_elem_of_nil in He|]. by apply list_elem_of_singleton in He.
Qed.
Lemma explained_parts sub n (ks : list (node Ev)) e : (exists k, k ∈ ks /\ explained sub k e) ->
  (forall k el, k ∈ ks -> el ∈ elements k -> el ∈ elements n) -> (forall k (e : Ev), k ∈ ks -> e ∈ submits k -> e ∈ submits n) ->
  (forall k a, k ∈ ks -> a ∈ live k -> a ∈ live n) -> explained sub n e.
Proof.
  intros (k & Hk & [[He Hs]|[He|(a & Ha & He)]]) H1 H2 H3; [left|right; left; by eapply H2|right; right; exists a; split; [by eapply H3|done]].
  split; [done|]. apply existsb_exists in Hs as (el & Hel & Hs). apply existsb_exists. exists el. split; [|done].
  apply list_elem_of_In. eapply H1; [exact Hk|]. by apply list_elem_of_In.
Qed.
Lemma target_explained n : forall sub t e, t ∈ targets sub n -> e ∈ after t -> explained sub n e.
Proof.
  induction n as [s|s|ks IH|tag attrs ks IH] using node_nested_ind; intros sub t e Ht He; [by apply not_elem_of_nil in Ht..| |].
  - rewrite list.Forall_forall in IH. apply elem_of_flat_map in Ht as (k & Hk & Ht). apply (explained_parts sub _ ks).
    + exists k. split; [done|]. by apply (IH k Hk sub t).
    + intros k' el Hk' Hel. cbn. apply elem_of_flat_map. by exists k'.
    + intros k' e' Hk' He'. rewrite submits_frag. apply elem_of_flat_map. by exists k'.
    + intros k' a Hk' Ha. rewrite live_frag. apply elem_of_flat_map. by exists k'.
  - rewrite list.Forall_forall in IH. cbn [targets] in Ht. destruct (disabled attrs) eqn:Hd; [by apply not_elem_of_nil in Ht|].
    apply elem_of_cons in Ht as [->|Ht]; [by apply reaction_explained|].
    apply list_elem_of_fmap in Ht as (t' & -> & (k & Hk & Ht)%elem_of_flat_map). cbn [after pass] in He.
    destruct (reaction sub tag attrs) as [|x l] eqn:Hr; [|by apply reaction_explained; [|rewrite Hr]].
    pose proof (IH k Hk _ t' e Ht He) as Hx. unfold within in Hx. destruct (String.eqb tag "form") eqn:Hform.
    + destruct Hx as [[Hx Hs]|Hx].
      * right. left. rewrite submits_el, Hform, Hd. cbn [negb andb]. apply elem_of_app. left.
        assert (existsb submit_button (flat_map elements ks) = true) as ->; [|done].
        apply existsb_exists in Hs as (el & Hel & Hs). apply existsb_exists. exists el. split; [|done].
        apply in_flat_map. exists k. split; [by apply list_elem_of_In|done].
      * destruct Hx as [Hx|(a & Ha & Hx)]; right; [left|right].
        -- rewrite submits_el. apply elem_of_app. right. apply elem_of_flat_map. by exists k.
        -- exists a. split; [|done]. rewrite live_el. apply elem_of_app. right. apply elem_of_flat_map. by exists k.
    + apply (explained_parts sub _ ks); [by exists k|..].
      * intros k' el Hk' Hel. cbn. right. apply elem_of_flat_map. by exists k'.
      * intros k' e' Hk' He'. rewrite submits_el. apply elem_of_app. right. apply elem_of_flat_map. by exists k'.
      * intros k' a Hk' Ha. rewrite live_el. apply elem_of_app. right. apply elem_of_flat_map. by exists k'.
Qed.

(** The submissions are treated apart: they depend on more than the handler being there. *)
Lemma act_presses P n es : act n es -> Forall (presses P) (live n) -> (forall e, e ∈ submits n -> P e) -> Forall P es.
Proof.
  intros [es' Hc|f v Hf|l e Hf He] HP Hs.
  - apply list_elem_of_fmap in Hc as (t & -> & Ht). apply Forall_app. split.
    + pose proof (bubbling_presses P n HP) as H. rewrite list.Forall_forall in H. by apply (H _ (target_bubbles _ _ _ Ht)).
    + apply list.Forall_forall. intros e He. destruct (target_explained _ _ _ _ Ht He) as [[[]%not_elem_of_nil _]|[Hx|(a & Ha & Hx)]]; [by apply Hs|].
      rewrite list.Forall_forall in HP. specialize (HP a Ha). destruct a; cbn in HP, Hx; try done; [by destruct Hx as [b ->]|by subst].
  - constructor; [|done]. by apply (fields_fire P n _ HP Hf).
  - constructor; [|done]. pose proof (fields_fire P n _ HP Hf) as H. cbn in H. rewrite list.Forall_forall in H. by apply H.
Qed.

Lemma act_fires P n es : act n es -> Forall (fires P) (live n) -> Forall P es.
Proof. intros Ha HP. eapply act_presses; [done|by apply fires_presses|]. intros e. by apply submits_fire. Qed.
End Live.

Lemma live_lift {E F} (g : E -> F) (n : node E) : live (lift g n) = map (lift_attr g) (live n).
Proof.
  assert (Hd : forall attrs, disabled (map (lift_attr g) attrs) = disabled attrs).
  { intros attrs. unfold disabled, flag. induction attrs as [|a attrs IH]; [done|]. cbn. rewrite IH. by destruct a. }
  assert (Hf : forall ks, Forall (fun k => live (lift g k) = map (lift_attr g) (live k)) ks ->
    flat_map live (map (lift g) ks) = map (lift_attr g) (flat_map live ks)).
  { intros ks H. induction H as [|k ks Hk _ IH]; [done|]. cbn. by rewrite map_app, Hk, IH. }
  induction n as [s|s|ks IH|tag attrs ks IH] using node_nested_ind; [done|done| |]; cbn [lift].
  - rewrite !live_frag. by apply Hf.
  - rewrite !live_el, map_app, Hf, Hd by done. by destruct (disabled attrs).
Qed.

(** The events of a part are those of the component it is part of. *)
Lemma fires_lift {E F} (g : E -> F) (P : F -> Prop) (n : node E) :
  Forall (fires (fun e => P (g e))) (live n) -> Forall (fires P) (live (lift g n)).
Proof.
  rewrite live_lift. intros H. apply list.Forall_fmap. eapply list.Forall_impl; [exact H|].
  intros [| | | | | | | | | |]; cbn; auto; intros Ha; by apply list.Forall_fmap.
Qed.
Lemma fires_frag {E} (P : E -> Prop) ks :
  Forall (fun k => Forall (fires P) (live k)) ks -> Forall (fires P) (live (Frag ks)).
Proof. by rewrite live_frag, Forall_flat_map. Qed.

(** ** Parts that only show something *)
Section Inert.
Context {Ev : Type}.
Implicit Types n : node Ev.
Definition quiet (a : attr Ev) : Prop :=
  match a with StopClick | OnAmong _ _ => False | A k v => String.eqb k "type" && String.eqb v "submit" = false | _ => True end.
Definition inert n : Prop := Forall (fires (fun _ => False)) (live n) /\ Forall quiet (live n).

Lemma inert_el tag attrs ks : disabled attrs = false ->
  inert (El tag attrs ks) <-> (Forall (fires (fun _ => False)) attrs /\ Forall quiet attrs) /\ Forall inert ks.
Proof.
  intros Hd. unfold inert. rewrite live_el, Hd, !Forall_app, !Forall_flat_map, !list.Forall_forall. naive_solver.
Qed.

Lemma stops_none (attrs : list (attr Ev)) : Forall quiet attrs -> stops attrs = false.
Proof. intros H. unfold stops. induction H as [|a l Ha _ IH]; [done|]. cbn. rewrite IH. by destruct a. Qed.
Lemma live_part tag attrs ks k (a : attr Ev) : k ∈ ks -> a ∈ live k -> a ∈ live (El tag attrs ks).
Proof. intros Hk Ha. rewrite live_el. apply elem_of_app. right. apply elem_of_flat_map. by exists k. Qed.
Lemma live_own tag attrs ks (a : attr Ev) : disabled attrs = false -> a ∈ attrs -> a ∈ live (El tag attrs ks).
Proof. intros Hd Ha. rewrite live_el, Hd. set_solver. Qed.
(** Properties of all handlers, part by part. *)
Lemma live_all (Q : attr Ev -> Prop) tag attrs ks :
  (disabled attrs = false -> Forall Q attrs) -> Forall (fun k => Forall Q (live k)) ks -> Forall Q (live (El tag attrs ks)).
Proof.
  intros Ha Hk. rewrite live_el, Forall_app, Forall_flat_map. split; [|done]. destruct (disabled attrs); [done|auto].
Qed.
Lemma inert_live n : inert n ->
  Forall (fun a => match a with OnChange _ | OnToggle _ | OnCheck _ | OnAmong _ _ | OnSubmit _ => False | _ => True end) (live n).
Proof.
  intros [H Hq]. rewrite list.Forall_forall in *. intros a Ha. specialize (H a Ha). specialize (Hq a Ha).
  destruct a as [| | | | |f|f| | | |]; cbn in *; try done; [exact (H "")|exact (H true)].
Qed.
Lemma forall_false_nil (l : list Ev) : Forall (fun _ => False) l -> l = [].
Proof. by intros []. Qed.

Lemma inert_bubbling n : inert n -> Forall (fun ib => ib = ([], false)) (bubbling n).
Proof.
  induction n as [s|s|ks IH|tag attrs ks IH] using node_nested_ind; [done|done| |].
  - unfold inert. rewrite live_frag, !Forall_flat_map. intros [H1 H2]. cbn [bubbling]. rewrite Forall_flat_map.
    rewrite list.Forall_forall in *. intros k Hk. by apply IH; [|split; [apply H1|apply H2]].
  - destruct (disabled attrs) eqn:Hd; [by cbn; rewrite Hd|]. rewrite inert_el by done.
    intros [[Ha Hs] Hk]. cbn [bubbling]. rewrite Hd.
    destruct (presses_clicks _ _ (fires_presses _ _ Ha)) as [->%forall_false_nil ->%forall_false_nil].
    rewrite (stops_none _ Hs). constructor; [done|]. apply list.Forall_fmap.
    assert (H : Forall (fun ib : list Ev * bool => ib = ([], false)) (flat_map bubbling ks)).
    { rewrite Forall_flat_map. rewrite list.Forall_forall in *. auto. }
    eapply list.Forall_impl; [exact H|]. by intros ib ->.
Qed.
Lemma inert_click n es b : inert n -> (es, b) ∈ bubbling n -> es = [] /\ b = false.
Proof. intros H%inert_bubbling Hin. rewrite list.Forall_forall in H. by injection (H _ Hin) as -> ->. Qed.

Lemma inert_clicks n es : inert n -> es ∈ clicks n -> es = [].
Proof. intros Hn ([es' b] & -> & Hb)%list_elem_of_fmap. by apply (inert_click _ _ _ Hn) in Hb as [-> _]. Qed.

Lemma quiet_submit tag attrs : Forall quiet attrs -> submit_button (tag, attrs, []) = false.
Proof.
  intros Hq. unfold submit_button, is_attr. assert (match attribute "type" attrs with Some v => String.eqb v "submit" | None => false end = false) as ->;
    [|by rewrite andb_false_r].
  induction Hq as [|a l Ha _ IH]; [done|]. destruct a as [k v| | | | | | | | | |]; cbn; try done. cbn in Ha. by destruct (String.eqb k "type").
Qed.
Definition nothing (t : target Ev) : Prop := told t = [] /\ stopped t = false /\ after t = [].
Lemma inert_targets sub n : inert n -> Forall nothing (targets sub n).
Proof.
  revert sub. induction n as [s|s|ks IH|tag attrs ks IH] using node_nested_ind; intros sub Hn; [done|done| |].
  - unfold inert in Hn. rewrite live_frag, !Forall_flat_map in Hn. destruct Hn as [H1 H2]. cbn [targets]. rewrite Forall_flat_map.
    rewrite list.Forall_forall in *. intros k Hk. by apply IH; [|split; [apply H1|apply H2]].
  - cbn [targets]. destruct (disabled attrs) eqn:Hd; [done|]. apply inert_el in Hn as [[Ha Hs] Hk]; [|done].
    assert (reaction sub tag attrs = []) as ->.
    { unfold reaction. rewrite (quiet_submit tag attrs Hs). clear -Ha. generalize (flag "checked" attrs). intros c. induction Ha as [|a l Ha _ IH]; [done|]. cbn. rewrite IH.
      destruct a; cbn in *; try done. }
    destruct (presses_clicks _ _ (fires_presses _ _ Ha)) as [Hc%forall_false_nil Hf%forall_false_nil].
    rewrite Hc, Hf, (stops_none _ Hs). constructor; [done|]. apply list.Forall_fmap.
    assert (H : Forall nothing (flat_map (targets (within sub tag attrs ks)) ks)).
    { rewrite Forall_flat_map. rewrite list.Forall_forall in *. auto. }
    eapply list.Forall_impl; [exact H|]. intros t (H1 & H2 & H3). unfold compose, pass, nothing. cbn. by rewrite H1, H2, H3, Hc, (stops_none _ Hs).
Qed.
Lemma inert_dispatched sub n es : inert n -> es ∈ dispatched sub n -> es = [].
Proof.
  intros Hn (t & -> & Ht)%list_elem_of_fmap. pose proof (inert_targets sub n Hn) as H. rewrite list.Forall_forall in H.
  destruct (H t Ht) as (-> & _ & ->). done.
Qed.

(** Without fields and forms, actions are clicks. *)
Definition clicks_only n : Prop :=
  Forall (fun a => match a with OnChange _ | OnToggle _ | OnCheck _ | OnAmong _ _ | OnSubmit _ => False | _ => True end) (live n).
Lemma clicks_only_fields n : clicks_only n -> input_fields n = [].
Proof.
  unfold clicks_only. intros Hc. apply elem_of_nil_inv. intros fd ([[tag attrs] ks] & Hel & Hf)%elem_of_flat_map.
  unfold fields_of in Hf. destruct (disabled attrs) eqn:Hd; [by apply not_elem_of_nil in Hf|].
  apply elem_of_flat_map in Hf as (a & Ha & Hf). rewrite list.Forall_forall in Hc.
  specialize (Hc _ (live_attr n _ _ _ _ Hel Hd Ha)). destruct a; try done; by apply not_elem_of_nil in Hf.
Qed.
(** Where nothing changes but fields that are typed in, a click does what its handlers do. *)
Definition formless n : Prop := Forall (fun a => match a with OnToggle _ | OnCheck _ | OnSubmit _ => False | _ => True end) (live n).
Lemma clicks_only_formless n : clicks_only n -> formless n.
Proof. intros H. eapply list.Forall_impl; [exact H|]. by intros []. Qed.
Lemma formless_after n t : formless n -> t ∈ targets [] n -> after t = [].
Proof.
  intros H Ht. apply elem_of_nil_inv. intros e He. unfold formless in H. rewrite list.Forall_forall in H.
  destruct (target_explained _ _ _ _ Ht He) as [[[]%not_elem_of_nil _]|[Hx%submits_live|(a & Ha & Hx)]]; [by apply H in Hx|].
  apply H in Ha. by destruct a.
Qed.
Lemma formless_clicks n es : formless n -> es ∈ dispatched [] n -> es ∈ clicks n.
Proof.
  intros H (t & -> & Ht)%list_elem_of_fmap. rewrite (formless_after _ _ H Ht), app_nil_r. by eapply target_clicks.
Qed.
Lemma formless_act n es : formless n -> es ∈ clicks n -> act n es.
Proof.
  intros H ([l b] & -> & Hin)%list_elem_of_fmap. rewrite <- (targets_bubble []) in Hin. apply list_elem_of_fmap in Hin as (t & [= -> ->] & Ht).
  apply act_click, list_elem_of_fmap. exists t. split; [|done]. cbn. by rewrite (formless_after _ _ H Ht), app_nil_r.
Qed.
Lemma clicks_only_act n es : clicks_only n -> act n es -> es ∈ clicks n.
Proof.
  intros Hc. destruct 1 as [es' H|f v H|l e H _]; [by apply formless_clicks in H; [|apply clicks_only_formless]|..];
  rewrite ?(clicks_only_fields n Hc) in H; by apply not_elem_of_nil in H.
Qed.

(** A click inside an element passes it. *)
Lemma click_el tag (attrs : list (attr Ev)) ks es b : (es, b) ∈ bubbling (El tag attrs ks) ->
  disabled attrs = false /\
  ((es = on_click attrs ++ on_self attrs /\ b = stops attrs) \/
   exists k es' b', k ∈ ks /\ (es', b') ∈ bubbling k /\ (es, b) = if b' : bool then (es', b') else (es' ++ on_click attrs, stops attrs)).
Proof.
  cbn [bubbling]. destruct (disabled attrs); [by intros ?%not_elem_of_nil|]. intros [[= -> ->]|H]%elem_of_cons; [auto|].
  split; [done|]. right. apply list_elem_of_fmap in H as ([es' b'] & E & (k & Hk & Hin)%elem_of_flat_map). eauto 8.
Qed.
Lemma click_frag (ks : list (node Ev)) es b : (es, b) ∈ bubbling (Frag ks) -> exists k, k ∈ ks /\ (es, b) ∈ bubbling k.
Proof. cbn [bubbling]. by rewrite elem_of_flat_map. Qed.

(** An element without click handlers adds nothing to the clicks on its parts. *)
Lemma click_through tag (attrs : list (attr Ev)) ks es : on_click attrs = [] -> on_self attrs = [] ->
  es ∈ clicks (El tag attrs ks) -> es = [] \/ exists k, k ∈ ks /\ es ∈ clicks k.
Proof.
  intros Hc Hs ([es' b] & -> & Hb)%list_elem_of_fmap. apply click_el in Hb as [_ [[-> _]|(k & es1 & b1 & Hk & Hb & E)]].
  - left. cbn. by rewrite Hc, Hs.
  - right. exists k. split; [done|]. apply list_elem_of_fmap. exists (es1, b1). split; [|done].
    rewrite Hc in E. destruct b1; injection E as -> ->; cbn; by rewrite ?app_nil_r.
Qed.
Lemma click_frag_through (ks : list (node Ev)) es : es ∈ clicks (Frag ks) -> exists k, k ∈ ks /\ es ∈ clicks k.
Proof.
  intros ([es' b] & -> & (k & Hk & Hb)%click_frag)%list_elem_of_fmap. exists k. split; [done|].
  apply list_elem_of_fmap. by exists (es', b).
Qed.

Lemma input_fields_el tag (attrs : list (attr Ev)) ks :
  input_fields (El tag attrs ks) = fields_of (tag, attrs, ks) ++ flat_map input_fields ks.
Proof.
  unfold input_fields. cbn [elements flat_map]. f_equal. induction ks as [|k ks IH]; [done|]. cbn. by rewrite flat_map_app, IH.
Qed.
Lemma input_fields_box tag (ks : list (node Ev)) : input_fields (El tag [] ks) = flat_map input_fields ks.
Proof. by rewrite input_fields_el. Qed.
Lemma input_fields_frag (ks : list (node Ev)) : input_fields (Frag ks) = flat_map input_fields ks.
Proof. unfold input_fields. cbn. induction ks as [|k ks IH]; [done|]. cbn. by rewrite flat_map_app, IH. Qed.
End Inert.

(** The clicks on a part are those of the component, renamed. *)
Lemma bubbling_lift {E F} (g : E -> F) n : bubbling (lift g n) = map (fun ib => (map g ib.1, ib.2)) (bubbling n).
Proof.
  assert (Hd : forall attrs, disabled (map (lift_attr g) attrs) = disabled attrs).
  { intros attrs. unfold disabled, flag. induction attrs as [|a attrs IH]; [done|]. cbn. rewrite IH. by destruct a. }
  assert (Hc : forall attrs, on_click (map (lift_attr g) attrs) = map g (on_click attrs)).
  { intros attrs. unfold on_click. induction attrs as [|a attrs IH]; [done|]. cbn. rewrite IH, map_app. by destruct a. }
  assert (Hs : forall attrs, on_self (map (lift_attr g) attrs) = map g (on_self attrs)).
  { intros attrs. unfold on_self. induction attrs as [|a attrs IH]; [done|]. cbn. rewrite IH, map_app. by destruct a. }
  assert (Ht : forall attrs, stops (map (lift_attr g) attrs) = stops attrs).
  { intros attrs. unfold stops. induction attrs as [|a attrs IH]; [done|]. cbn. rewrite IH. by destruct a. }
  assert (Hf : forall ks, Forall (fun k => bubbling (lift g k) = map (fun ib => (map g ib.1, ib.2)) (bubbling k)) ks ->
    flat_map bubbling (map (lift g) ks) = map (fun ib => (map g ib.1, ib.2)) (flat_map bubbling ks)).
  { intros ks H. induction H as [|k ks Hk _ IH]; [done|]. cbn. by rewrite map_app, Hk, IH. }
  induction n as [s|s|ks IH|tag attrs ks IH] using node_nested_ind; [done|done| |]; cbn [lift bubbling]; [by apply Hf|].
  rewrite Hd, Hc, Hs, Ht, Hf by done. destruct (disabled attrs); [done|]. cbn [map fst snd]. rewrite map_app. f_equal.
  rewrite !map_map. apply map_ext. intros [es []]; cbn; [done|]. by rewrite map_app.
Qed.
Lemma clicks_only_lift {E F} (g : E -> F) n : clicks_only n -> clicks_only (lift g n).
Proof.
  unfold clicks_only. rewrite live_lift. intros H. apply list.Forall_fmap. eapply list.Forall_impl; [exact H|]. by intros [].
Qed.
Lemma clicks_lift {E F} (g : E -> F) n es : es ∈ clicks (lift g n) -> exists es', es = map g es' /\ es' ∈ clicks n.
Proof.
  unfold clicks. rewrite bubbling_lift. intros ([es' b] & -> & ([es1 b1] & E1 & Hin)%list_elem_of_fmap)%list_elem_of_fmap.
  injection E1 as -> ->. exists es1. split; [done|]. apply list_elem_of_fmap. by exists (es1, b1).
Qed.

(** An action on a part, renamed, is one on the component's. *)
Section ActLift.
Context {E F : Type} (g : E -> F).
Lemma attribute_lift name (attrs : list (attr E)) : attribute name (map (lift_attr g) attrs) = attribute name attrs.
Proof. induction attrs as [|a attrs IH]; [done|]. destruct a; cbn; rewrite ?IH; done. Qed.
Lemma flag_lift name (attrs : list (attr E)) : flag name (map (lift_attr g) attrs) = flag name attrs.
Proof. unfold flag. induction attrs as [|a attrs IH]; [done|]. cbn. rewrite IH. by destruct a. Qed.
Definition lift_el (el : string * list (attr E) * list (node E)) : string * list (attr F) * list (node F) :=
  let '(tag, attrs, ks) := el in (tag, map (lift_attr g) attrs, map (lift g) ks).
Lemma elements_lift n : elements (lift g n) = map lift_el (elements n).
Proof.
  assert (Hf : forall ks, Forall (fun k => elements (lift g k) = map lift_el (elements k)) ks ->
    flat_map elements (map (lift g) ks) = map lift_el (flat_map elements ks)).
  { intros ks H. induction H as [|k ks Hk _ IH]; [done|]. cbn. by rewrite map_app, Hk, IH. }
  induction n as [s|s|ks IH|tag attrs ks IH] using node_nested_ind; [done|done| |]; cbn [lift elements map]; rewrite Hf; done.
Qed.
Lemma flat_elements_lift ks : flat_map elements (map (lift g) ks) = map lift_el (flat_map elements ks).
Proof. induction ks as [|k ks IH]; [done|]. cbn. by rewrite map_app, elements_lift, IH. Qed.
Lemma option_values_lift ks : option_values (map (lift g) ks) = option_values ks.
Proof.
  unfold option_values. rewrite flat_elements_lift. induction (flat_map elements ks) as [|[[tag attrs] k] l IH]; [done|].
  cbn. by rewrite IH, attribute_lift.
Qed.
Definition lift_control (c : control E) : control F :=
  match c with Types f => Types (fun v => g (f v)) | Picks l => Picks (map g l) end.
Lemma fields_of_lift el : fields_of (lift_el el) = map lift_control (fields_of el).
Proof.
  destruct el as [[tag attrs] ks]. unfold fields_of, lift_el, disabled. rewrite flag_lift.
  destruct (flag "disabled" attrs); [done|]. rewrite option_values_lift.
  induction attrs as [|a attrs IH]; [done|]. cbn [map flat_map]. rewrite IH, map_app. f_equal.
  destruct a; cbn; try done; [|by rewrite map_map].
  destruct (String.eqb tag "select"); [cbn; by rewrite map_map|done].
Qed.
Lemma input_fields_lift n : input_fields (lift g n) = map lift_control (input_fields n).
Proof.
  unfold input_fields. rewrite elements_lift. induction (elements n) as [|el l IH]; [done|].
  cbn [map flat_map]. by rewrite map_app, fields_of_lift, IH.
Qed.
Lemma forallb_lift l : forallb filled_in (map lift_el l) = forallb filled_in l.
Proof.
  induction l as [|[[tag attrs] ks] l IH]; [done|]. cbn -[flag attribute]. by rewrite IH, flag_lift, attribute_lift.
Qed.
Lemma submit_button_lift tag attrs ks ks' : submit_button (tag, map (lift_attr g) attrs, ks') = submit_button (tag, attrs, ks : list (node E)).
Proof. unfold submit_button, is_attr, disabled. by rewrite attribute_lift, flag_lift. Qed.
Lemma ready_lift attrs ks : ready (map (lift_attr g) attrs) (map (lift g) ks) = map g (ready attrs ks).
Proof.
  unfold ready. rewrite flat_elements_lift, forallb_lift. destruct (forallb _ _); [|done].
  unfold on_submit. induction attrs as [|a attrs IH]; [done|]. cbn. rewrite IH. by destruct a.
Qed.
Lemma reaction_lift sub tag attrs : reaction (map g sub) tag (map (lift_attr g) attrs) = map g (reaction sub tag attrs).
Proof.
  unfold reaction. rewrite (submit_button_lift tag attrs []). destruct (submit_button _); [done|]. rewrite flag_lift.
  generalize (flag "checked" attrs). intros c. induction attrs as [|a attrs IH]; [done|]. cbn. rewrite IH, map_app. f_equal.
  destruct a; cbn; try done. by destruct c.
Qed.
Definition lift_target (t : target E) : target F := {| hit := lift_el (hit t); told := map g (told t); stopped := stopped t; after := map g (after t) |}.
Lemma targets_lift n : forall sub, targets (map g sub) (lift g n) = map lift_target (targets sub n).
Proof.
  assert (Hf : forall ks sub, Forall (fun k => forall sub, targets (map g sub) (lift g k) = map lift_target (targets sub k)) ks ->
    flat_map (targets (map g sub)) (map (lift g) ks) = map lift_target (flat_map (targets sub) ks)).
  { intros ks sub H. induction H as [|k ks Hk _ IH]; [done|]. cbn. by rewrite map_app, Hk, IH. }
  assert (Hc : forall attrs, on_click (map (lift_attr g) attrs) = map g (on_click attrs)).
  { intros attrs. unfold on_click. induction attrs as [|a attrs IH]; [done|]. cbn. rewrite IH, map_app. by destruct a. }
  assert (Hs : forall attrs, on_self (map (lift_attr g) attrs) = map g (on_self attrs)).
  { intros attrs. unfold on_self. induction attrs as [|a attrs IH]; [done|]. cbn. rewrite IH, map_app. by destruct a. }
  assert (Ht : forall attrs, stops (map (lift_attr g) attrs) = stops attrs).
  { intros attrs. unfold stops. induction attrs as [|a attrs IH]; [done|]. cbn. rewrite IH. by destruct a. }
  induction n as [s|s|ks IH|tag attrs ks IH] using node_nested_ind; intros sub; [done|done| |]; cbn [lift targets]; [by apply Hf|].
  unfold disabled. rewrite flag_lift. destruct (flag "disabled" attrs); [done|].
  assert (within (map g sub) tag (map (lift_attr g) attrs) (map (lift g) ks) = map g (within sub tag attrs ks)) as ->.
  { unfold within. destruct (String.eqb tag "form"); [apply ready_lift|done]. }
  rewrite Hf, reaction_lift, Hc, Hs, Ht by done. cbn [map]. f_equal; [unfold lift_target; cbn; by rewrite map_app|].
  rewrite !map_map. apply map_ext. intros [h l b r]. unfold lift_target, pass. cbn. rewrite Hc, Ht.
  destruct b, (reaction sub tag attrs); cbn; by rewrite ?map_app.
Qed.
Lemma dispatched_lift sub n es : es ∈ dispatched (map g sub) (lift g n) -> exists es', es = map g es' /\ es' ∈ dispatched sub n.
Proof.
  unfold dispatched. rewrite targets_lift. intros (t & -> & (t' & -> & Ht)%list_elem_of_fmap)%list_elem_of_fmap.
  exists (told t' ++ after t'). split; [cbn; by rewrite map_app|]. apply list_elem_of_fmap. by exists t'.
Qed.
Lemma act_in_lift sub n es : act_in (map g sub) (lift g n) es -> exists es', es = map g es' /\ act_in sub n es'.
Proof.
  intros [es' H|f v H|l e H He].
  - apply dispatched_lift in H as (es1 & -> & H). eauto using act_click.
  - rewrite input_fields_lift in H. apply list_elem_of_fmap in H as ([f'|l'] & E1 & H); try discriminate E1.
    injection E1 as ->. exists [f' v]. eauto using act_type.
  - rewrite input_fields_lift in H. apply list_elem_of_fmap in H as ([f'|l'] & E1 & H); try discriminate E1.
    injection E1 as ->. apply list_elem_of_fmap in He as (e' & -> & He). exists [e']. eauto using act_pick.
Qed.
Lemma act_lift n es : act (lift g n) es -> exists es', es = map g es' /\ act n es'.
Proof. apply (act_in_lift []). Qed.
Lemma pressing_lift key n : pressing key (lift g n) = map (map g) (pressing key n).
Proof.
  assert (Hk : forall attrs, on_key key (map (lift_attr g) attrs) = map g (on_key key attrs)).
  { intros attrs. unfold on_key. induction attrs as [|a attrs IH]; [done|]. cbn. rewrite IH, map_app. destruct a; try done. cbn. by destruct (String.eqb _ _). }
  assert (Hf : forall ks, Forall (fun k => pressing key (lift g k) = map (map g) (pressing key k)) ks ->
    flat_map (pressing key) (map (lift g) ks) = map (map g) (flat_map (pressing key) ks)).
  { intros ks H. induction H as [|k ks Hk' _ IH]; [done|]. cbn. by rewrite map_app, Hk', IH. }
  induction n as [s|s|ks IH|tag attrs ks IH] using node_nested_ind; [done|done| |]; cbn [lift pressing]; [by apply Hf|].
  unfold disabled. rewrite flag_lift. destruct (flag "disabled" attrs); [done|]. cbn [map]. rewrite Hk, Hf by done. f_equal.
  rewrite !map_map. apply map_ext. intros es. by rewrite map_app.
Qed.
End ActLift.

(** ** One event at a time *)
Section Offers.
Context {Ev : Type}.
Implicit Types (n : node Ev) (P : Ev -> Prop).
Definition one P (es : list Ev) : Prop := es = [] \/ exists e, es = [e] /\ P e.
(** Every action sends at most one event, one of [P]; [sub] is the submission of the form around. *)
Definition offers_in (sub : list Ev) P n : Prop := forall es, act_in sub n es -> one P es.

Lemma one_mono P (Q : Ev -> Prop) es : (forall e, P e -> Q e) -> one P es -> one Q es.
Proof. intros H [->|(e & -> & He)]; [by left|]. right. eauto. Qed.

Lemma offers_parts sub P ks n :
  (forall es, es ∈ dispatched sub n -> one P es \/ exists k, k ∈ ks /\ es ∈ dispatched sub k) ->
  (forall fd, fd ∈ input_fields n -> fd ∈ flat_map input_fields ks) ->
  Forall (offers_in sub P) ks -> offers_in sub P n.
Proof.
  intros Hc Hf Hk es H. rewrite list.Forall_forall in Hk. destruct H as [es H|f v H|l e H He].
  - destruct (Hc _ H) as [Ho|(k & Hin & H')]; [done|]. apply (Hk _ Hin). by apply act_click.
  - apply Hf, elem_of_flat_map in H as (k & Hin & H). apply (Hk _ Hin). by apply act_type.
  - apply Hf, elem_of_flat_map in H as (k & Hin & H). apply (Hk _ Hin). by apply (act_pick _ k l).
Qed.
Lemma offers_frag sub P ks : Forall (offers_in sub P) ks -> offers_in sub P (Frag ks).
Proof.
  apply offers_parts; [|intros fd; by rewrite input_fields_frag].
  intros es (t & -> & (k & Hk & Ht)%elem_of_flat_map)%list_elem_of_fmap. right. exists k. split; [done|].
  apply list_elem_of_fmap. by exists t.
Qed.

(** The clicks on an element: those on itself, those on its parts. *)
Lemma dispatched_el sub tag (attrs : list (attr Ev)) ks es : es ∈ dispatched sub (El tag attrs ks) ->
  disabled attrs = false /\
  (es = on_click attrs ++ on_self attrs ++ reaction sub tag attrs \/
   exists k t, k ∈ ks /\ t ∈ targets (within sub tag attrs ks) k /\
     es = told t ++ (if stopped t then [] else on_click attrs) ++ match reaction sub tag attrs with [] => after t | _ => reaction sub tag attrs end).
Proof.
  unfold dispatched. cbn [targets]. destruct (disabled attrs); [by intros ?%not_elem_of_nil|]. cbn [map].
  intros [->|H]%elem_of_cons; (split; [done|]); [left; cbn [told after]; by rewrite <- app_assoc|right].
  apply list_elem_of_fmap in H as (t & -> & (t' & -> & (k & Hk & Ht)%elem_of_flat_map)%list_elem_of_fmap).
  exists k, t'. split; [done|]. split; [done|]. unfold pass. cbn [told after]. destruct (stopped t'); by rewrite <- ?app_assoc.
Qed.

(** An element that only groups others. *)
Definition plain (tag : string) (attrs : list (attr Ev)) : bool :=
  negb (String.eqb tag "form") && negb (submit_button (tag, attrs, [])) &&
  forallb (fun a => match a with A _ _ | Flag _ _ | StopClick => true | _ => false end) attrs.
Lemma plain_quiet tag attrs : plain tag attrs = true ->
  on_click attrs = [] /\ on_self attrs = [] /\ (forall ks, fields_of (tag, attrs, ks) = []) /\ (forall sub, reaction sub tag attrs = []) /\
  forall sub ks, within sub tag attrs ks = sub.
Proof.
  unfold plain. intros [[Hform%negb_true_iff Hb%negb_true_iff]%andb_true_iff H]%andb_true_iff. rewrite forallb_forall in H.
  assert (Hn : forall X (f : attr Ev -> list X), (forall a, In a attrs -> f a = []) -> flat_map f attrs = []).
  { clear. induction attrs as [|a l IH]; intros X f Hf; [done|]. cbn. rewrite (Hf a), IH; cbn; auto. intros b Hb. apply Hf. by right. }
  split_and!.
  - apply Hn. intros a Ha%H. by destruct a.
  - apply Hn. intros a Ha%H. by destruct a.
  - intros ks. unfold fields_of. destruct (disabled attrs); [done|]. apply Hn. intros a Ha%H. by destruct a.
  - intros sub. unfold reaction. rewrite Hb. apply Hn. intros a Ha%H. by destruct a.
  - intros sub ks. unfold within. by rewrite Hform.
Qed.
Lemma offers_box sub P tag attrs ks : plain tag attrs = true -> Forall (offers_in sub P) ks -> offers_in sub P (El tag attrs ks).
Proof.
  intros Hp. destruct (plain_quiet tag attrs Hp) as (Hc & Hs & Hf & Hr & Hw). apply offers_parts.
  - intros es [_ [->|(k & t & Hk & Ht & ->)]]%dispatched_el; rewrite Hc, ?Hs, Hr; [left; by left|right].
    exists k. split; [done|]. rewrite Hw in Ht. apply list_elem_of_fmap. exists t. split; [|done]. by destruct (stopped t).
  - intros fd. rewrite input_fields_el, Hf. done.
Qed.
(** A control: what it sends itself, around parts that only show something. *)
Lemma offers_control sub P tag attrs ks :
  (disabled attrs = false -> one P (on_click attrs ++ on_self attrs ++ reaction sub tag attrs) /\ one P (on_click attrs ++ reaction sub tag attrs)) ->
  Forall (fun fd => match fd with Types f => forall v, P (f v) | Picks l => Forall P l end) (fields_of (tag, attrs, ks)) ->
  Forall inert ks -> offers_in sub P (El tag attrs ks).
Proof.
  intros Hc Hf Hk.
  assert (Hfields : input_fields (El tag attrs ks) = fields_of (tag, attrs, ks)).
  { rewrite input_fields_el. assert (flat_map input_fields ks = []) as ->; [|by rewrite app_nil_r].
    clear -Hk. induction Hk as [|k ks Hk _ IH]; [done|]. cbn. by rewrite IH, (clicks_only_fields _ (inert_live _ Hk)). }
  rewrite list.Forall_forall in Hf. rewrite list.Forall_forall in Hk. intros es [es' H|f v H|l e H He].
  - apply dispatched_el in H as [Hd H]. destruct (Hc Hd) as [Ho Ho']. destruct H as [->|(k & t & Hin & Ht & ->)]; [done|].
    pose proof (inert_targets (within sub tag attrs ks) _ (Hk _ Hin)) as Hi. rewrite list.Forall_forall in Hi. destruct (Hi t Ht) as (-> & -> & ->).
    cbn. by destruct (reaction sub tag attrs).
  - right. exists (f v). split; [done|]. rewrite Hfields in H. apply (Hf _ H).
  - right. exists e. split; [done|]. rewrite Hfields in H. specialize (Hf _ H). cbn in Hf. rewrite list.Forall_forall in Hf. auto.
Qed.

(** A form: its parts, with its submission once the required fields are filled. *)
Lemma offers_form P e ks :
  (forall sub, (forall x, x ∈ sub -> sub = [x] /\ x = e /\ forallb filled_in (flat_map elements ks) = true) -> Forall (offers_in sub P) ks) ->
  offers_in [] P (El "form" [OnSubmit e] ks).
Proof.
  intros Hk. specialize (Hk (ready [OnSubmit e] ks)). unfold ready in Hk. cbn [on_submit flat_map app] in Hk.
  assert (Hk' : Forall (offers_in (ready [OnSubmit e] ks) P) ks).
  { unfold ready. cbn [on_submit flat_map app]. apply Hk. intros x Hx. destruct (forallb _ _); [|by apply not_elem_of_nil in Hx].
    by apply list_elem_of_singleton in Hx as ->. }
  clear Hk. rewrite list.Forall_forall in Hk'. intros es [es' H|f v H|l e' H Hin].
  - apply dispatched_el in H as [_ [->|(k & t & Hk & Ht & ->)]]; [by left|]. apply (Hk' k Hk). apply act_click, list_elem_of_fmap.
    exists t. split; [|done]. by destruct (stopped t).
  - rewrite input_fields_el in H. apply elem_of_flat_map in H as (k & Hk & H). apply (Hk' _ Hk). by apply act_type.
  - rewrite input_fields_el in H. apply elem_of_flat_map in H as (k & Hk & H). apply (Hk' _ Hk). by apply (act_pick _ k l).
Qed.
(** The button of a form. *)
Lemma one_submission P e (sub : list Ev) (F : Prop) : (forall x, x ∈ sub -> sub = [x] /\ x = e /\ F) -> (F -> P e) -> one P sub.
Proof.
  intros Hs He. destruct sub as [|x l]; [by left|]. destruct (Hs x ltac:(left)) as ([= ->] & -> & H). right. exists e. auto.
Qed.

(** A panel keeps the clicks on it to itself. *)
Lemma click_panel tag (ks : list (node Ev)) es b : (es, b) ∈ bubbling (El tag [StopClick] ks) -> b = true.
Proof. intros [_ [[_ ->]|(k & es1 & b1 & _ & _ & E)]]%click_el; [done|]. destruct b1; by injection E as _ ->. Qed.
(** An element with a handler of its own around panels and parts that only show something: a
    dialog on its backdrop, a row with a box to tick. *)
Definition guarded sub P n : Prop := inert n \/ exists tag ks, n = El tag [StopClick] ks /\ plain tag [StopClick] = true /\ Forall (offers_in sub P) ks.
Lemma offers_around sub P tag attrs ks : one P (on_click attrs ++ on_self attrs) -> one P (on_click attrs) ->
  (forall ks, fields_of (tag, attrs, ks) = []) -> reaction sub tag attrs = [] -> String.eqb tag "form" = false -> Forall (guarded sub P) ks ->
  offers_in sub P (El tag attrs ks).
Proof.
  intros Hc Hc' Hf Hr Hw Hk. apply (offers_parts sub P ks).
  - unfold dispatched. intros es [_ [->|(k & t & Hin & Ht & ->)]]%dispatched_el; [left; by rewrite Hr, app_nil_r|].
    unfold within in Ht. rewrite Hw in Ht. rewrite Hr.
    rewrite list.Forall_forall in Hk. destruct (Hk k Hin) as [Hi|(tag' & ks' & -> & _)].
    + pose proof (inert_targets sub _ Hi) as Hn. rewrite list.Forall_forall in Hn. destruct (Hn t Ht) as (-> & -> & ->). left. cbn. by rewrite app_nil_r.
    + right. eexists. split; [exact Hin|]. pose proof (click_panel _ _ _ _ (target_bubbles _ _ _ Ht)) as ->.
      apply list_elem_of_fmap. by exists t.
  - intros fd. by rewrite input_fields_el, Hf.
  - eapply list.Forall_impl; [exact Hk|]. intros k [Hi|(tag' & ks' & -> & Hp & Ho)]; [|by apply offers_box].
    intros es [es' H|f v H|l e H _]; [left; by eapply inert_dispatched|..];
      rewrite (clicks_only_fields _ (inert_live _ Hi)) in H; by apply not_elem_of_nil in H.
Qed.

Lemma offers_inert sub P n : inert n -> offers_in sub P n.
Proof.
  intros Hi es [es' H|f v H|l e H _]; [left; by eapply inert_dispatched|..];
    rewrite (clicks_only_fields _ (inert_live _ Hi)) in H; by apply not_elem_of_nil in H.
Qed.
Lemma offers_txt sub P s : offers_in sub P (Txt s).
Proof. apply offers_inert. by repeat constructor. Qed.
Lemma offers_icon sub P s : offers_in sub P (Icon s).
Proof. apply offers_inert. by repeat constructor. Qed.
Lemma offers_when sub P (b : bool) n : (b = true -> offers_in sub P n) -> offers_in sub P (when b n).
Proof. destruct b; cbn; [auto|]. intros _. by apply offers_frag. Qed.
Lemma offers_some sub P {X} (o : option X) (f : X -> node Ev) : (forall x, o = Some x -> offers_in sub P (f x)) -> offers_in sub P (when_some o f).
Proof. destruct o; cbn; [auto|]. intros _. by apply offers_frag. Qed.
Lemma offers_map sub P {X} (f : X -> node Ev) l : (forall x, x ∈ l -> offers_in sub P (f x)) -> Forall (offers_in sub P) (map f l).
Proof. intros H. apply list.Forall_fmap, list.Forall_forall. exact H. Qed.
Lemma offers_mono sub P (Q : Ev -> Prop) n : (forall e, P e -> Q e) -> offers_in sub P n -> offers_in sub Q n.
Proof. intros H Ho es Ha. eapply one_mono; [exact H|auto]. Qed.
End Offers.
Abbreviation offers := (offers_in []).
Lemma offers_lift {E F} (g : E -> F) (P : F -> Prop) n : offers (fun e => P (g e)) n -> offers P (lift g n).
Proof.
  intros Ho es (es' & -> & H)%act_lift. destruct (Ho es' H) as [->|(e & -> & He)]; [by left|]. right. eauto.
Qed.

(** ** A component driven through its own view *)
Section Interactive.
Context {St Ev : Type} (view : St -> node Ev) (step : St -> Ev -> St) (outside : St -> Ev -> Prop).

(** One turn: an action the view offers, or something from outside (an answer, a timer, a
    key the document listens to). *)
Inductive turn : St -> St -> Prop :=
  | by_user s es : act (view s) es -> turn s (foldl step s es)
  | by_outside s e : outside s e -> turn s (step s e).

Lemma turns_invariant (I : St -> Prop) :
  (forall s es, I s -> act (view s) es -> I (foldl step s es)) -> (forall s e, I s -> outside s e -> I (step s e)) ->
  forall s s', I s -> rtc turn s s' -> I s'.
Proof.
  intros Hu Ho s s' Hs H. induction H as [|s1 s2 s3 [s es Ha|s e He] _ IH]; [done| |]; apply IH; auto.
Qed.

(** Where every single event keeps the invariant, whatever is offered does. *)
Lemma step_invariant (I : St -> Prop) : (forall s e, I s -> I (step s e)) ->
  forall s s', I s -> rtc turn s s' -> I s'.
Proof.
  intros Hi. apply turns_invariant; [|auto]. intros s es Hs _. revert s Hs. induction es as [|e es IH]; cbn; auto.
Qed.
End Interactive.

(** Membership in a computed list, case by case. *)
Ltac in_cases H :=
  repeat (apply elem_of_cons in H as [H|H]; [try discriminate H; simplify_eq/=|]);
  try (by apply not_elem_of_nil in H).
(** The actions of a tree whose handlers are known: one goal for each. *)
Ltac acts H :=
  inversion H as [? Hact|? ? Hact|? ? Hact ?]; subst; clear H; cbn in Hact; in_cases Hact.
(** An action is a member of one of those lists. *)
Ltac offer := apply act_click; cbn; set_solver.
(** An element none of whose parts does anything. *)
Ltac showing := by split; repeat constructor.
Ltac in_attrs := repeat match goal with H : _ ∈ _ :: _ |- _ => apply elem_of_cons in H as [H|H]; [discriminate H|] end;
  match goal with H : _ ∈ [] |- _ => by apply not_elem_of_nil in H end.
(** What a tree offers, element by element; the controls whose events need a reason are left. *)
Ltac offering :=
  lazymatch goal with
  | |- Forall _ (map _ _) => apply offers_map; intros ? ?; cbv beta; offering
  | |- Forall _ [] => constructor
  | |- Forall _ (_ :: _) => constructor; [offering|offering]
  | |- Forall _ (_ ++ _) => apply Forall_app; split; offering
  | |- offers_in _ _ (Txt _) => apply offers_txt
  | |- offers_in _ _ (Icon _) => apply offers_icon
  | |- offers_in _ _ (when _ _) => apply offers_when; intros ?; offering
  | |- offers_in _ _ (when_some _ _) => apply offers_some; intros ? ?; offering
  | |- offers_in _ _ (Frag _) => apply offers_frag; offering
  | |- offers_in _ _ (lift _ _) => apply offers_lift
  | |- offers_in _ _ (El _ _ _) =>
      first [ apply offers_box; [reflexivity|offering]
            | apply offers_control;
                [intros ?; first [split; by left|split; right; (eexists; split; [reflexivity|])|cbn; by split|idtac]
                |try (by repeat constructor); try (by unfold fields_of; case_match; repeat constructor)
                |try (by repeat constructor)] ]
  | |- _ => idtac
  end.
