(* ===== verification/DialogViews.v ===== *)
(** * The markup of the dialogs ([components/shared/TransactionPending.tsx], [ConfirmationDialog.tsx],
      [OnboardingTour.tsx], [components/profile/RegistrationModal.tsx],
      [components/invoice/InvoiceCompareModal.tsx])

    What each dialog renders in a state of [Registration] and [Dialogs], as a tree of [Markup]
    whose handlers send the events of that component.  The theorems say which events a user
    can cause: the guards that the step functions assume are those the markup enforces. *)

From S2P Require Import Prelude JsNumber JsString JsValue SdkTypes Assets Storage Markup.
From S2P Require Import Registration Dialogs InvoiceDisplay.
Local Open Scope Z_scope.

(** [Number.prototype.toString] of an index. *)
Definition show_nat (n : nat) : string := Num.bigint_to_string (Z.of_nat n).

(** The characters outside Latin-1 stand for themselves under a code of the controls, as [em_dash] does. *)
Definition en_dash : string := String (chr 150) "".

(** ** [TransactionPending] *)
Module PendingView.
Import Registration.Pending.
Inductive ev := CloseDialog.

Definition explorer_link (hash : string) : string := "https://stellar.expert/explorer/testnet/tx/" +:+ hash.
(** [{txHash && ...}]: the hash and its link. *)
Definition hash_panel (s : state) : node ev :=
  when (opt_str_truthy (txHash s))
    (El "div" []
      [El "div" [] [El "span" [] [Txt "TX HASH"]; El "span" [] [Txt "TESTNET"]];
       El "div" [] [Txt (default "" (txHash s))];
       El "a" [A "href" (explorer_link (default "" (txHash s))); A "target" "_blank"; A "rel" "noopener noreferrer"]
         [El "span" [] [Txt "VIEW ON STELLAR EXPERT"]; Icon "ExternalLink"]]).
Definition orbit (shouldReduceMotion : bool) : node ev :=
  El "div" []
    [El "div" [] [Icon "ShieldCheck"]; El "div" [] [];
     El "div" [A "data-testid" "transaction-pending-orbit";
               Flag "animated" (negb shouldReduceMotion)] []].
Definition view (onClose shouldReduceMotion : bool) (statusText : string) (s : state) : node ev :=
  when (isOpen s)
    (El "div"
      [A "role" "dialog"; Flag "aria-modal" true; A "aria-label" "Transaction Pending"; A "tabIndex" "-1";
       OnClickSelf (if canDismiss onClose s then [CloseDialog] else [])]
      [El "div" []
        [orbit shouldReduceMotion;
         El "h3" [] [Txt "TRANSACTION SIGNED"];
         El "p" [] [Icon "Loader2"; Txt (shown_status statusText s)];
         hash_panel s;
         when onClose (El "button" [OnClick [CloseDialog]] [Txt "Close Dialog"])]]).
End PendingView.

(** ** [ConfirmationDialog] *)
Module ConfirmView.
Inductive ev := Cancel | Confirm.
#[export] Instance ev_eq_dec : EqDecision ev.
Proof. solve_decision. Defined.
Definition detail (name : string) (value : node ev) : node ev :=
  El "div" [] [El "span" [] [Txt name]; value].
Definition details {X} (a : ConfirmDialog.PendingAction X) : node ev :=
  El "div" []
    [detail "Action:" (El "span" [] [Txt (ConfirmDialog.label a)]);
     detail "Invoice ID:" (El "span" [A "title" (ConfirmDialog.invoiceId a)] [Txt (truncateAddress (ConfirmDialog.invoiceId a))]);
     detail "Estimated Fee:" (El "span" [] [Txt "Network fee applies"])].
Definition view {X} (s : ConfirmDialog.state X) : node ev :=
  when_some s (fun pendingAction =>
    El "div" [A "role" "dialog"; Flag "aria-modal" true; A "aria-labelledby" "confirmation-dialog-title"; OnClick [Cancel]]
      [El "div" [StopClick]
        [El "div" []
          [El "h4" [A "id" "confirmation-dialog-title"] [Txt "Confirm "; Txt (ConfirmDialog.label pendingAction)];
           El "button" [OnClick [Cancel]; A "aria-label" "Close confirmation dialog"] [Icon "X"]];
         details pendingAction;
         El "p" [] [Txt "This action is irreversible once submitted on-chain. Review carefully before confirming."];
         El "div" []
          [El "button" [OnClick [Cancel]] [Txt "Cancel"];
           El "button" [OnClick [Confirm]] [Txt "CONFIRM"]]]]).
End ConfirmView.

(** ** [RegistrationModal] *)
Module RegistrationView.
Import Registration.Modal.

Definition with_role (f : Form) (r : Role) : Form :=
  {| regRole := r; companyName := companyName f; taxId := taxId f; country := country f; website := website f; email := email f |}.
Definition with_company (f : Form) (v : string) : Form :=
  {| regRole := regRole f; companyName := v; taxId := taxId f; country := country f; website := website f; email := email f |}.
Definition with_taxId (f : Form) (v : string) : Form :=
  {| regRole := regRole f; companyName := companyName f; taxId := v; country := country f; website := website f; email := email f |}.
Definition with_country (f : Form) (v : string) : Form :=
  {| regRole := regRole f; companyName := companyName f; taxId := taxId f; country := v; website := website f; email := email f |}.
Definition with_website (f : Form) (v : string) : Form :=
  {| regRole := regRole f; companyName := companyName f; taxId := taxId f; country := country f; website := v; email := email f |}.
Definition with_email (f : Form) (v : string) : Form :=
  {| regRole := regRole f; companyName := companyName f; taxId := taxId f; country := country f; website := website f; email := v |}.

Definition same_role (a b : Role) : bool :=
  match a, b with Issuer, Issuer | Buyer, Buyer => true | _, _ => false end.
Definition role_option (f : Form) (value label : string) (r : Role) : node event :=
  El "label" []
    [El "input" [A "type" "radio"; A "name" "registration-role"; A "value" value; Flag "checked" (same_role (regRole f) r);
                 OnChange (fun _ => Edit (with_role f r))] [];
     Txt label].
Definition role_fieldset (f : Form) : node event :=
  El "fieldset" []
    [El "legend" [] [Txt "Select On-Chain Business Role"];
     El "div" [] [role_option f "issuer" "SME / Issuer" Issuer; role_option f "buyer" "Obligor / Buyer" Buyer]].

(** One labelled input; [icon] is drawn inside it. *)
Definition text_field (id label icon kind placeholder : string) (required : bool) (value : string) (edit : string -> Form) : node event :=
  El "div" []
    [El "label" [A "htmlFor" id] [Txt label];
     El "div" []
       [Icon icon;
        El "input" [A "id" id; A "type" kind; Flag "required" required; A "placeholder" placeholder; A "value" value;
                    OnChange (fun v => Edit (edit v))] []]].
Definition company_field (f : Form) : node event :=
  text_field "registration-company-name" "Company Name" "Building2" "text" "e.g. Acme Corporation" true
    (companyName f) (with_company f).
Definition identity_fields (f : Form) : node event :=
  El "div" []
    [text_field "registration-tax-id" "Tax ID / Registration No." "FileText" "text" "e.g. EU123456789" true (taxId f) (with_taxId f);
     text_field "registration-country" "Country of Incorporation" "Globe" "text" "e.g. Germany" true (country f) (with_country f)].
Definition website_field (f : Form) : node event :=
  text_field "registration-website" "Corporate Website URL (Optional)" "Globe" "url" "e.g. https://acme.corp" false
    (website f) (with_website f).
Definition email_field (f : Form) : node event :=
  text_field "registration-email" "Contact Email (Optional)" "Mail" "email" "e.g. contact@acme.corp" false (email f) (with_email f).

Definition alert (s : state) : node event :=
  when_some (error_shown s) (fun m => El "div" [A "role" "alert"] [Icon "ShieldAlert"; El "span" [] [Txt m]]).
Definition notice : node event :=
  El "div" []
    [Icon "Lock";
     El "span" [] [Txt "Signing this registration requires Freighter authorization. You will submit a Soroban write transaction, which whitelists your wallet address and locks your business credentials."]].
Definition buttons (s : state) : node event :=
  El "div" []
    [El "button" [A "type" "button"; OnClick [Close]; Flag "disabled" (isRegistering s)] [Txt "Cancel"];
     El "button" [A "type" "submit"; Flag "disabled" (isRegistering s)]
       [Txt (if isRegistering s then "Signing..." else "Register Profile")]].
Definition header : node event :=
  El "div" []
    [El "h2" [A "id" "registration-dialog-title"] [Icon "Building2"; Txt "Register Business Metadata"];
     El "p" [] [Txt "Input your company credentials. This metadata maps to your wallet address on-chain."]].
Definition registration_form (s : state) : node event :=
  let f := form s in
  El "form" [OnSubmit Submit]
    [role_fieldset f; company_field f; identity_fields f; website_field f; email_field f; alert s; notice; buttons s].
Definition dialog (s : state) : node event :=
  when (isOpen s)
    (El "div" [A "role" "dialog"; Flag "aria-modal" true; A "aria-labelledby" "registration-dialog-title"; A "tabIndex" "-1";
               OnClickSelf [Close]]
      [El "div" [StopClick]
        [El "button" [OnClick [Close]; A "aria-label" "Close registration dialog"] [Txt "[Close]"];
         header; registration_form s]]).

(** The dialog of the pending transaction can only be closed once there is a hash: its
    [onClose] is undefined before. *)
Definition pending_view (reduce : bool) (s : state) (p : Pending.state) : node event :=
  lift (fun _ : PendingView.ev => ClosePending)
    (PendingView.view (opt_str_truthy (pendingHash s)) reduce (pendingText s) p).
(** The two dialogs with the state of the second. *)
Record page := { modal : state; pending : Pending.state }.
(** [TransactionPending] receives the props of each render. *)
Definition rendered (m : state) (p : Pending.state) : page :=
  {| modal := m; pending := Pending.step p (Pending.Props (showPending m) (pendingHash m)) |}.
Definition initial_page : page := rendered initial Pending.closed.
Inductive page_event := Dialog (e : event) | Timer.
Definition page_step (s : page) (e : page_event) : page :=
  match e with
  | Dialog e => rendered (step (modal s) e).1 (pending s)
  | Timer => {| modal := modal s; pending := Pending.step (pending s) Pending.Fire |}
  end.
Definition view (reduce : bool) (s : page) : node page_event :=
  lift Dialog (Frag [dialog (modal s); pending_view reduce (modal s) (pending s)]).
(** What happens without the markup: answers, the timer, Escape in the dialog that traps the
    focus, and the button of the page that opens the form, which an open dialog covers. *)
Definition outside (s : page) (e : page_event) : Prop :=
  match e with
  | Timer | Dialog (Settle _) => True
  | Dialog Open => showPending (modal s) = false
  | Dialog Close => isOpen (modal s) = true
  | Dialog ClosePending => Pending.canDismiss (opt_str_truthy (pendingHash (modal s))) (pending s) = true
  | Dialog (Edit _) | Dialog Submit => False
  end.
End RegistrationView.

(** ** [OnboardingTour] *)
Module TourView.
Import Dialogs.Tour.
Definition HIGHLIGHT_PADDING : num := Num.of_Z 6.
(** The cut-out around the highlighted element. *)
Definition highlight (rect : Rect) : Rect :=
  {| top := Num.sub (top rect) HIGHLIGHT_PADDING; left := Num.sub (left rect) HIGHLIGHT_PADDING;
     width := Num.add (width rect) (Num.mul HIGHLIGHT_PADDING (Num.of_Z 2));
     height := Num.add (height rect) (Num.mul HIGHLIGHT_PADDING (Num.of_Z 2)) |}.
Definition backdrop (rect : option Rect) : node event :=
  match rect with
  | Some _ => El "div" [A "aria-hidden" "true"; A "data-testid" "onboarding-highlight"] []
  | None => El "div" [A "aria-hidden" "true"] []
  end.
Definition step_id (s : state) : string := default "" (fst <$> TOUR_STEPS !! stepIndex s).
Definition target (s : state) : option string := TOUR_STEPS !! stepIndex s ≫= snd.

Section View.
Context (t : string -> list (string * string) -> string).
Definition tour_buttons (s : state) : node event :=
  El "div" []
    [if isLast s then El "span" [] [] else El "button" [A "type" "button"; OnClick [Skip]] [Txt (t "skip" [])];
     El "div" []
       [when (negb (isFirst s)) (El "button" [A "type" "button"; OnClick [Back]] [Txt (t "back" [])]);
        El "button" [A "type" "button"; OnClick [Next]] [Txt (if isLast s then t "finish" [] else t "next" [])]]].
Definition TourDialog (rect : option Rect) (s : state) : node event :=
  let titleId := "onboarding-step-" +:+ step_id s +:+ "-title" in
  let bodyId := "onboarding-step-" +:+ step_id s +:+ "-body" in
  El "div" [A "data-testid" "onboarding-tour"]
    [backdrop rect;
     El "div" [A "role" "dialog"; Flag "aria-modal" true; A "aria-labelledby" titleId; A "aria-describedby" bodyId]
       [El "p" [] [Txt (t "progress" [("current", show_nat (S (stepIndex s))); ("total", show_nat (length TOUR_STEPS))])];
        El "h2" [A "id" titleId; A "tabIndex" "-1"] [Txt (t ("steps." +:+ step_id s +:+ ".title") [])];
        El "p" [A "id" bodyId] [Txt (t ("steps." +:+ step_id s +:+ ".body") [])];
        tour_buttons s]].
Definition view (rect : option Rect) (s : state) : node event := when (isOpen s) (TourDialog rect s).
End View.
End TourView.

(** ** [InvoiceCompareModal] *)
Module CompareView.
Inductive ev := Close | Scroll (e : Dialogs.Compare.event).
Section View.
(** The dates of the browser. *)
Context (dateText timeText : num -> string).
Definition column_heads (n scrollOffset : nat) (visible : list Invoice) : list (node ev) :=
  imap (fun index (_ : Invoice) =>
    El "th" [A "scope" "col"]
      [El "div" []
        [El "span" [] [Txt ("Invoice " +:+ show_nat (scrollOffset + index + 1))];
         when (4 <? n)%nat
           (El "span" [] [Txt ("#" +:+ show_nat (scrollOffset + index + 1) +:+ " of " +:+ show_nat n)])]]) visible.
Definition comparison_table (n scrollOffset : nat) (visible : list Invoice) : node ev :=
  El "table" [A "role" "table"]
    [El "thead" [] [El "tr" [] (El "th" [A "scope" "col"] [Txt "Attribute"] :: column_heads n scrollOffset visible)];
     El "tbody" []
       (map (fun field =>
          El "tr" [] (El "th" [A "scope" "row"] [Txt field.1.2] ::
                      map (fun invoice => El "td" [] [El "span" [] [Txt (field.2 invoice)]]) visible))
        (COMPARISON_FIELDS dateText timeText))].
Definition scroll_bar (n scrollOffset : nat) : node ev :=
  when (4 <? n)%nat
    (El "div" []
      [El "button" [A "type" "button"; OnClick [Scroll Dialogs.Compare.Previous]; Flag "disabled" (scrollOffset =? 0)%nat;
                    A "aria-label" "Show previous invoice"] [Icon "ChevronLeft"];
       El "span" [] [Txt ("Showing " +:+ show_nat (scrollOffset + 1) +:+ en_dash +:+
                          show_nat (Nat.min (scrollOffset + 4) n) +:+ " of " +:+ show_nat n)];
       El "button" [A "type" "button"; OnClick [Scroll Dialogs.Compare.Following];
                    Flag "disabled" (Dialogs.Compare.maxScroll n <=? scrollOffset)%nat;
                    A "aria-label" "Show next invoice"] [Icon "ChevronRight"]]).
Definition view (invoices : list Invoice) (scrollOffset : nat) : node ev :=
  let n := length invoices in
  El "div" [OnClick [Close]; A "role" "dialog"; Flag "aria-modal" true; A "aria-labelledby" "compare-modal-title"]
    [El "div" [StopClick]
      [El "div" []
        [El "h2" [A "id" "compare-modal-title"] [Txt "Invoice Comparison"];
         El "button" [A "type" "button"; OnClick [Close]; A "aria-label" "Close comparison"] [Icon "X"]];
       El "div" []
        [El "div" [] [comparison_table n scrollOffset (Dialogs.Compare.visibleInvoices invoices scrollOffset)];
         scroll_bar n scrollOffset];
       El "div" []
        [El "p" [] [Txt "Compare up to 4 invoices side by side. Use arrow buttons to scroll through more selections."]]]].
End View.
End CompareView.

(** ** Properties *)
Module PendingViewFacts.
Import Registration.Pending PendingView.

(** Nothing but the button and, once it may, the backdrop closes the dialog, and one action
    closes it once. *)
Lemma pending_actions onClose reduce text s es :
  act (view onClose reduce text s) es -> es = [] \/ es = [CloseDialog] /\ isOpen s = true /\ onClose = true.
Proof.
  unfold view, hash_panel, canDismiss, when. intros H.
  destruct (isOpen s), onClose, (timedOut s), (opt_str_truthy (txHash s)); acts H; auto.
Qed.
Lemma pending_button reduce text s : isOpen s = true -> act (view true reduce text s) [CloseDialog].
Proof.
  intros H. unfold view, hash_panel, when. rewrite H. destruct (canDismiss true s), (opt_str_truthy (txHash s)); offer.
Qed.
Lemma pending_labelled onClose reduce text s : well_labelled (view onClose reduce text s) = true.
Proof. unfold view, hash_panel, when. by destruct (isOpen s), onClose, (opt_str_truthy (txHash s)). Qed.
End PendingViewFacts.

Module ConfirmViewFacts.
Import ConfirmView.
Lemma confirm_actions {X} (a : ConfirmDialog.PendingAction X) es :
  act (view (Some a)) es -> es = [] \/ es = [Cancel] \/ es = [Confirm].
Proof. intros H. acts H; auto. Qed.
Definition to_event {X} (e : ev) : Dialogs.Confirm.event X :=
  match e with Cancel => Dialogs.Confirm.Cancel | Confirm => Dialogs.Confirm.Confirm end.
(** One action on the dialog runs the pending action at most once, and if it runs or is
    cancelled, the dialog is closed first; a click on the card itself does neither. *)
Lemma confirm_click {X} (a : ConfirmDialog.PendingAction X) es :
  act (view (Some a)) es ->
  Dialogs.Confirm.run (fun _ => None) (Some a) (map to_event es) =
    (if bool_decide (es = []) then Some a else None, if bool_decide (es = [Confirm]) then [ConfirmDialog.fn a] else []).
Proof. intros [->|[->| ->]]%confirm_actions; done. Qed.
Lemma confirm_labelled {X} (s : ConfirmDialog.state X) : well_labelled (view s) = true.
Proof. by destruct s. Qed.
End ConfirmViewFacts.

Module RegistrationViewFacts.
Import Registration.Modal RegistrationView.

(** What the form asks of its fields before the browser submits it. *)
Definition required_filled (f : Form) : Prop := companyName f <> "" /\ taxId f <> "" /\ country f <> "".

Lemma registration_submits s e : e ∈ submits (dialog s) ->
  e = Submit /\ isOpen s = true /\ isRegistering s = false /\ required_filled (form s).
Proof.
  unfold dialog, when. destruct (isOpen s) eqn:Ho; [|by intros ?%not_elem_of_nil].
  unfold registration_form, alert, when_some.
  destruct (isRegistering s) eqn:Hr; destruct (error_shown s); cbn; rewrite ?Hr; cbn; try (by intros ?%not_elem_of_nil);
  unfold ready; cbn; unfold required_filled; destruct (String.eqb_spec (companyName (form s)) ""), (String.eqb_spec (taxId (form s)) ""),
    (String.eqb_spec (country (form s)) ""); cbn; try (by intros ?%not_elem_of_nil);
  by intros ->%list_elem_of_singleton.
Qed.

(** The dialog offers its handlers only while it is open, and a submission only while no
    registration is under way: the guards of [Registration.Modal.step] are those of the markup. *)
Lemma registration_offers s es : act (dialog s) es ->
  isOpen s = true /\
  Forall (fun e => match e with
                   | Edit _ | Close => True
                   | Submit => isRegistering s = false /\ required_filled (form s)
                   | Open | ClosePending | Settle _ => False
                   end) es.
Proof.
  intros H. assert (Ho : isOpen s = true).
  { unfold dialog, when in H. destruct (isOpen s); [done|]. by acts H. }
  split; [done|]. eapply act_presses; [exact H| |].
  - unfold dialog, when. rewrite Ho. unfold registration_form, alert, when_some.
    destruct (isRegistering s) eqn:Hr, (error_shown s); cbn; rewrite ?Hr; repeat constructor.
  - intros e He%registration_submits. by destruct He as (-> & _ & Hr & Hf).
Qed.

(** At most one of the two dialogs is open, and the second one shows the state of the first. *)
Record one_dialog (s : page) : Prop := {
  od_exclusive : isOpen (modal s) = true -> showPending (modal s) = false;
  od_open : Pending.isOpen (pending s) = showPending (modal s);
  od_hash : Pending.txHash (pending s) = pendingHash (modal s) }.
Lemma props_reach_the_dialog p o h :
  Pending.isOpen (Pending.step p (Pending.Props o h)) = o /\ Pending.txHash (Pending.step p (Pending.Props o h)) = h.
Proof.
  cbn. do 2 case_bool_decide; cbn; try done; unfold Pending.effect; cbn; by case_match.
Qed.
Lemma rendered_one_dialog m p : (isOpen m = true -> showPending m = false) -> one_dialog (rendered m p).
Proof. intros H. destruct (props_reach_the_dialog p (showPending m) (pendingHash m)). by constructor. Qed.

Lemma settle_keeps_open m r : isOpen (settle m r) = isOpen m /\ (showPending m = false -> showPending (settle m r) = false).
Proof. unfold settle. by repeat case_match. Qed.
Lemma page_step_one_dialog s e : (e = Dialog Open -> showPending (modal s) = false) ->
  one_dialog s -> one_dialog (page_step s e).
Proof.
  intros Hopen [Hx Ho Hh]. destruct e as [e|]; cbn [page_step].
  - apply rendered_one_dialog. destruct e; cbn [step fst].
    + exact Hx.
    + destruct (isOpen (modal s)) eqn:Hop; [intros _; by apply Hx|]. intros _. cbn. by apply Hopen.
    + done.
    + by destruct (opt_str_truthy _).
    + destruct (isOpen (modal s) && _); cbn [fst]; [|exact Hx].
      unfold submit. by destruct (invalid _).
    + destruct (isRegistering (modal s)); cbn [fst]; [|done].
      destruct (settle_keeps_open (modal s) r) as [-> H]. auto.
  - constructor; cbn [modal pending]; [done| |]; cbn; by destruct (Pending.timer (pending s)).
Qed.

Lemma page_offers reduce s es : act (view reduce s) es ->
  Forall (fun e => match e with Dialog (Edit _ | Close | ClosePending | Submit) => True | _ => False end) es.
Proof.
  intros H. eapply act_fires; [exact H|]. apply fires_lift, fires_frag. rewrite !list.Forall_cons. split; [|split; [|done]].
  - unfold dialog, registration_form, alert, when, when_some.
    destruct (isOpen (modal s)), (isRegistering (modal s)) eqn:Hr, (error_shown (modal s)); cbn; rewrite ?Hr; cbn;
    repeat constructor.
  - apply fires_lift. unfold PendingView.view, PendingView.hash_panel, when.
    destruct (Pending.isOpen _); [|by constructor].
    destruct (Pending.canDismiss _ _), (opt_str_truthy (Pending.txHash _)), (opt_str_truthy (pendingHash _)); cbn; repeat constructor.
Qed.

Definition modals {E} (n : node E) : nat := length (List.filter (fun el => flag "aria-modal" el.1.2) (elements n)).

(** Whatever the user does with what the two dialogs offer, whatever the registration
    answers and whenever, at most one of them is in the document. *)
Theorem one_dialog_at_a_time reduce s : rtc (turn (view reduce) page_step outside) initial_page s ->
  one_dialog s /\ (modals (view reduce s) <= 1)%nat.
Proof.
  intros H. assert (Hi : one_dialog s).
  { revert H. apply turns_invariant.
    - intros s0 es Hs Ha%page_offers. clear -Hs Ha. revert s0 Hs.
      induction Ha as [|e es He _ IH]; intros s0 Hs; [done|]. cbn [foldl]. apply IH, page_step_one_dialog; [|done].
      by intros ->.
    - intros s0 e Hs Ho. apply page_step_one_dialog; [|done]. by intros ->.
    - by apply rendered_one_dialog. }
  split; [done|]. destruct Hi as [Hx Ho _]. revert Hx Ho.
  unfold view, dialog, registration_form, alert, pending_view, PendingView.view, PendingView.hash_panel, when, when_some.
  destruct (isOpen (modal s)); intros Hx Ho.
  - rewrite Ho, Hx by done. destruct (error_shown (modal s)); cbn; lia.
  - destruct (Pending.isOpen _); [|cbn; lia].
    destruct (opt_str_truthy (Pending.txHash _)), (opt_str_truthy (pendingHash _)); cbn; lia.
Qed.

(** From the submission on, until a hash is known, the dialog offers nothing at all, not even
    after the minute when it says that it can be closed. *)
Lemma pending_registration_offers_nothing reduce s es : one_dialog s -> showPending (modal s) = true ->
  opt_str_truthy (pendingHash (modal s)) = false -> act (view reduce s) es -> es = [].
Proof.
  intros [Hx Ho Hh] Hs Hp H. assert (Hopen : isOpen (modal s) = false) by (destruct (isOpen (modal s)); [specialize (Hx eq_refl); congruence|done]).
  revert H. unfold view, pending_view, dialog, PendingView.view, PendingView.hash_panel, Pending.canDismiss, when.
  rewrite Hopen, Hh, Hp. intros H. destruct (Pending.isOpen _); by acts H.
Qed.

Lemma timed_out_page f : invalid f = None ->
  foldl page_step initial_page [Dialog Open; Dialog (Edit f); Dialog Submit; Timer] =
  {| modal := {| isOpen := false; isRegistering := true; registerError := None; form := f; localError := None;
                 showPending := true; pendingHash := None; pendingText := pending_text f |};
     pending := {| Pending.isOpen := true; Pending.txHash := None; Pending.timedOut := true;
                   Pending.localStatus := Some Pending.timeout_text; Pending.timer := false |} |}.
Proof. intros Hv. cbn -[invalid]. unfold submit. cbn -[invalid]. rewrite Hv. reflexivity. Qed.
Lemma timed_out_registration_cannot_be_closed f reduce : invalid f = None ->
  let s := foldl page_step initial_page [Dialog Open; Dialog (Edit f); Dialog Submit; Timer] in
  In Pending.timeout_text (texts (view reduce s)) /\
  (forall es, act (view reduce s) es -> es = []) /\
  (forall e, outside s e -> e = Timer \/ (exists r, e = Dialog (Settle r))).
Proof.
  intros Hv. rewrite (timed_out_page f Hv). cbn zeta. split; [|split].
  - cbn. auto 20.
  - intros es. apply pending_registration_offers_nothing; try done.
  - intros [[| | | | |r]|]; cbn; eauto; done.
Qed.
End RegistrationViewFacts.

Module TourViewFacts.
Import Dialogs.Tour TourView.
Section Facts.
Context (t : string -> list (string * string) -> string) (rect : option Rect).

(** What the card offers depends on the step only: no way back from the first, no way to
    skip the last. *)
Lemma tour_offers s es : act (view t rect s) es -> es <> [] -> isOpen s = true /\
  (es = [Next] \/ (es = [Back] /\ isFirst s = false) \/ (es = [Skip] /\ isLast s = false)).
Proof.
  unfold view, TourDialog, tour_buttons, backdrop, when. intros H Hn.
  destruct (isOpen s); [|by acts H]. destruct rect, (isFirst s), (isLast s); acts H; try done; auto 6.
Qed.

Definition valid (s : state) : Prop := (stepIndex s < length TOUR_STEPS)%nat.
(** Every card is the text of one of the steps, and its title and body are those it is named by. *)
Lemma tour_labelled s : valid s -> well_labelled (view t rect s) = true.
Proof.
  unfold valid, view, when. destruct (isOpen s); [|done]. destruct s as [d c o i]. cbn. intros Hi.
  destruct rect; do 8 (destruct i as [|i]; [reflexivity|]); lia.
Qed.

(** Each thing offered changes the step by one within the steps or closes the tour. *)
Lemma tour_moves s es : valid s -> act (view t rect s) es ->
  let s' := foldl (fun s e => (step s e).1) s es in
  valid s' /\ (isOpen s' = true -> (stepIndex s' <= S (stepIndex s) /\ stepIndex s <= S (stepIndex s'))%nat).
Proof.
  intros Hv Ha. destruct (decide (es = [])) as [->|Hn]; [split; [done|cbn; lia]|].
  unfold valid in *. destruct (tour_offers s es Ha Hn) as [Ho Hes].
  destruct Hes as [->|[[-> Hf]|[-> Hl]]]; cbn [foldl step fst]; rewrite Ho; cbn [fst].
  - unfold next. destruct (isLast s) eqn:El.
    + cbn. rewrite andb_false_r. split; [lia|done].
    + unfold isLast in El. apply Nat.eqb_neq in El. cbn [at_step stepIndex]. change (length TOUR_STEPS) with 8%nat in *. lia.
  - cbn [back at_step stepIndex]. lia.
  - cbn. rewrite andb_false_r. split; [lia|done].
Qed.

(** The button is offered at every step, and as many clicks as there are steps left end the tour. *)
Lemma tour_ends n : forall s, isOpen s = true -> valid s -> (stepIndex s + n = length TOUR_STEPS)%nat ->
  act (view t rect s) [Next] /\
  isOpen (foldl (fun s e => (step s e).1) s (repeat Next n)) = false.
Proof.
  assert (Hoff : forall s, isOpen s = true -> act (view t rect s) [Next]).
  { intros s Ho. unfold view, TourDialog, tour_buttons, backdrop, when. rewrite Ho.
    destruct rect, (isFirst s), (isLast s); offer. }
  induction n as [|n IH]; intros s Ho Hv Hn; [unfold valid in Hv; lia|]. split; [by apply Hoff|].
  cbn [repeat foldl step]. rewrite Ho. cbn [fst]. unfold next. destruct (isLast s) eqn:El.
  - unfold isLast in El. apply Nat.eqb_eq in El. assert (n = 0)%nat as -> by (cbn in *; lia). done.
  - unfold isLast in El. apply Nat.eqb_neq in El.
    apply IH; [done| |cbn; cbn in Hn; lia]. unfold valid in *. cbn in *. lia.
Qed.
End Facts.
End TourViewFacts.

Module CompareViewFacts.
Import CompareView.
Section Facts.
Context (dateText timeText : num -> string).

Lemma table_inert n off visible : inert (comparison_table dateText timeText n off visible).
Proof.
  apply inert_el; [done|]. split; [repeat constructor; done|]. rewrite !list.Forall_cons. split; [|split; [|done]].
  - apply inert_el; [done|]. split; [by repeat constructor|]. apply list.Forall_singleton, inert_el; [done|].
    split; [by repeat constructor|]. constructor; [split; repeat constructor; done|].
    apply list.Forall_lookup. intros i k Hk. unfold column_heads in Hk. rewrite list_lookup_imap in Hk.
    apply fmap_Some in Hk as (inv & _ & ->). unfold when. destruct (4 <? n)%nat; split; repeat constructor; done.
  - apply inert_el; [done|]. split; [by repeat constructor|]. apply list.Forall_fmap, list.Forall_forall. intros f _.
    apply inert_el; [done|]. split; [by repeat constructor|]. constructor; [split; repeat constructor; done|].
    apply list.Forall_fmap, list.Forall_forall. intros inv _. split; repeat constructor; done.
Qed.

Lemma compare_clicks_only invoices off : clicks_only (view dateText timeText invoices off).
Proof.
  assert (Ht := fun n visible => inert_live _ (table_inert n off visible)).
  apply live_all; [repeat constructor|]. apply list.Forall_singleton, live_all; [repeat constructor|].
  rewrite !list.Forall_cons. split; [|split; [|split; [|done]]].
  - repeat constructor.
  - apply live_all; [constructor|]. rewrite !list.Forall_cons. split; [|split; [|done]].
    + apply live_all; [constructor|]. by apply list.Forall_singleton.
    + unfold scroll_bar, when. destruct (4 <? length invoices)%nat; [|constructor].
      destruct (off =? 0)%nat eqn:H1, (Dialogs.Compare.maxScroll (length invoices) <=? off)%nat eqn:H2; cbn; rewrite ?H1, ?H2;
      repeat constructor.
  - repeat constructor.
Qed.

(** The dialog is closed by its backdrop and its button, not by clicks on the table, and a
    scroll is only offered where there is something to scroll to. *)
Lemma compare_offers invoices off es : act (view dateText timeText invoices off) es ->
  es = [] \/ es = [Close] \/
  (es = [Scroll Dialogs.Compare.Previous] /\ (0 < off)%nat) \/
  (es = [Scroll Dialogs.Compare.Following] /\ (off < Dialogs.Compare.maxScroll (length invoices))%nat).
Proof.
  intros Ha%(clicks_only_act _ _ (compare_clicks_only invoices off)).
  apply list_elem_of_fmap in Ha as ([es' b] & -> & Hb). cbn [fst].
  apply click_el in Hb as [_ [[-> _]|(k & es1 & b1 & Hk & Hb & E)]]; [auto|]. apply list_elem_of_singleton in Hk as ->.
  apply click_el in Hb as [_ [[-> ->]|(k & es2 & b2 & Hk & Hb & E2)]]; [by injection E as -> ->; auto|].
  assert (b1 = true /\ es1 = es2) as [-> ->] by (destruct b2; injection E2 as -> ->; cbn; by rewrite ?app_nil_r).
  injection E as -> ->. clear E2. rewrite !elem_of_cons in Hk.
  destruct Hk as [->|[->|[->|[]%not_elem_of_nil]]]; [cbn in Hb; in_cases Hb; auto| |cbn in Hb; in_cases Hb; auto].
  apply click_el in Hb as [_ [[-> _]|(k & es3 & b3 & Hk & Hb & E)]]; [auto|].
  assert (es2 = es3) as -> by (destruct b3; injection E as -> ->; cbn; by rewrite ?app_nil_r).
  rewrite !elem_of_cons in Hk. destruct Hk as [->|[->|[]%not_elem_of_nil]].
  - apply click_el in Hb as [_ [[-> _]|(k & es4 & b4 & Hk & Hb & E')]]; [auto|]. apply list_elem_of_singleton in Hk as ->.
    destruct (inert_click _ _ _ (table_inert _ _ _) Hb) as [-> ->]. injection E' as -> ->. auto.
  - unfold scroll_bar, when in Hb. destruct (4 <? length invoices)%nat; [|cbn in Hb; in_cases Hb].
    destruct (Nat.eqb_spec off 0), (Nat.leb_spec (Dialogs.Compare.maxScroll (length invoices)) off); cbn in Hb; in_cases Hb;
    auto with lia.
Qed.

(** So every scroll that is offered moves the window by one, and it never leaves the list. *)
Lemma compare_scroll_moves invoices off e : (off <= Dialogs.Compare.maxScroll (length invoices))%nat ->
  act (view dateText timeText invoices off) [Scroll e] ->
  let off' := Dialogs.Compare.step (length invoices) off e in
  (off' <= Dialogs.Compare.maxScroll (length invoices))%nat /\ (off' = S off \/ off = S off')%nat.
Proof.
  intros Hb [H|[H|[[H Ho]|[H Ho]]]]%compare_offers; [done|done|injection H as ->|injection H as ->];
  cbv zeta; rewrite Dialogs.CompareFacts.step_clamps by done; unfold Dialogs.Compare.maxScroll in *; lia.
Qed.
End Facts.
End CompareViewFacts.
