(* ===== verification/FrameViews.v ===== *)
(** * The frame of every page ([components/shared/Navbar.tsx], [NotificationBell.tsx],
      [WalletConnect.tsx], [ThemeToggle.tsx], [PageLayout.tsx])

    What the bar renders, and the state it keeps: the menu of small screens and one open bell
    in the bar and one in that menu, both over the same notifications.  The theme button of the
    bar and the one of the settings page are two instances of [useTheme] over one document. *)

From S2P Require Import Prelude JsNumber JsString JsValue JsJson SdkTypes WebParsers Effects Assets Storage.
From S2P Require Import Wallet Actions Notifications EventViews Dialogs Dashboard Markup.
Local Open Scope Z_scope.

(** ** [ThemeToggle] *)
Module ThemeToggleView.
Inductive ev := Press.
Definition label (theme : Theme) : string :=
  match theme with Dark => "Switch to light theme" | Light => "Switch to dark theme" end.
Definition view (theme : Theme) (mounted : bool) : node ev :=
  El "button"
    ([A "type" "button"; OnClick [Press]; A "aria-label" (label theme); A "title" (label theme)] ++
     (if mounted then [Flag "aria-pressed" (negb (bool_decide (theme = Dark)))] else []))
    [Icon (match theme with Dark => "Moon" | Light => "Sun" end)].
End ThemeToggleView.

(** ** [NotificationBell] *)
Module BellView.
Inductive ev := ToggleOpen.
(** [notif.timestamp] as a number. *)
Definition timestamp (n : jsval) : num := match field n "timestamp" with JNum x => x | _ => Num.nan end.
Definition item (nowMs : Z) (n : jsval) : node ev :=
  El "div" []
    [El "div" []
       [El "span" [Flag "data-read" (truthy (field n "read"))] [Txt (to_str (field n "type"))];
        El "span" [] [Txt (EventViews.formatTime nowMs (timestamp n))]];
     El "p" [] [Txt (to_str (field n "message"))]].
Definition dropdown (nowMs : Z) (s : Bell.state) : node ev :=
  El "div" []
    [El "div" [A "tabIndex" "-1"]
       [El "div" []
          [El "span" [] [Txt "Notifications"];
           when (0 <? Bell.unreadCount s)%nat
             (El "span" [] [Txt (Num.bigint_to_string (Z.of_nat (Bell.unreadCount s)) +:+ " new")])];
        match notifications (Bell.seen s) with
        | [] => El "div" [] [Txt "No notifications yet"]
        | l => El "div" [] (map (item nowMs) l)
        end]].
Definition view (nowMs : Z) (s : Bell.state) : node ev :=
  El "div" []
    [El "button" [A "type" "button"; OnClick [ToggleOpen]; A "aria-label" "Notifications"; Flag "aria-expanded" (Bell.isOpen s)]
       [Icon "Bell"; when (0 <? Bell.unreadCount s)%nat (El "span" [] [])];
     when (Bell.isOpen s) (dropdown nowMs s)].
End BellView.

(** ** [WalletConnect] *)
Module WalletView.
Import WalletButton.
Inductive ev := Copy | SwitchToTestnet | Disconnect | ConnectWallet.
Record state := {
  installed : option bool; connected : bool; address : option string; network : option string; loading : bool;
  walletError : option string; errorCode : option string;
  copied : bool; copyError : option string; switchingNetwork : bool; networkSwitchError : option string }.

Definition install_link : node ev :=
  El "a" [A "href" "https://www.freighter.app/"; A "target" "_blank"; A "rel" "noopener noreferrer"]
    [El "span" [] [Txt "Install Freighter"]; Icon "ExternalLink"].
Definition badge_view (b : badge) : node ev :=
  match b with
  | NoBadge => Frag []
  | TestnetBadge => El "span" [] [Txt "Testnet"]
  | MainnetBadge => El "span" [] [Txt "Mainnet"]
  | SwitchButton switching =>
      El "button" [OnClick [SwitchToTestnet]; Flag "disabled" switching]
        [when switching (Icon "Loader2"); Txt (if switching then "SWITCHING..." else "Switch to Testnet")]
  end.
Definition switch_error (m : string) : node ev :=
  El "div" []
    [El "span" []
       [Icon "AlertCircle"; El "span" [] [Txt "Open Freighter, switch its network to Testnet, then reconnect your wallet."]];
     El "span" [A "role" "alert"] [Txt m];
     El "a" [A "href" "https://www.freighter.app/"; A "target" "_blank"; A "rel" "noopener noreferrer"]
       [El "span" [] [Txt "Open Freighter"]; Icon "ExternalLink"]].
(** [{error && <X/>}] for a string. *)
Definition when_message (m : option string) (f : string -> node ev) : node ev :=
  match m with Some t => when (negb (String.eqb t "")) (f t) | None => Frag [] end.
Definition network_part (s : state) : node ev :=
  when (connected s)
    (El "div" []
      [El "div" [] [badge_view (network_badge (connected s) (network s) (switchingNetwork s))];
       when_message (networkSwitchError s) switch_error]).
Definition account_part (s : state) : node ev :=
  if connected s && opt_str_truthy (address s) then
    El "div" []
      [El "span" [] []; El "span" [] [Txt (truncateAddress (default "" (address s)))];
       El "button" [OnClick [Copy]; A "title" "Copy Address"; A "aria-label" "Copy wallet address"]
         [Icon (if copied s then "Check" else "Copy")];
       El "button" [OnClick [Disconnect]; A "title" "Disconnect Wallet"; A "aria-label" "Disconnect wallet"] [Icon "LogOut"]]
  else
    El "button" [OnClick [ConnectWallet]; Flag "disabled" (loading s)]
      [Icon (if loading s then "Loader2" else "Wallet");
       El "span" [] [Txt (if loading s then "CONNECTING..." else "CONNECT WALLET")]].
Definition rejected (s : state) : node ev :=
  when_message (walletError s) (fun _ =>
    when (bool_decide (errorCode s = Some "user_rejected"))
      (El "div" [] [Icon "AlertCircle"; El "span" [A "role" "status"] [Txt "You cancelled the connection request"]])).
Definition other_error (s : state) : node ev :=
  when_message (walletError s) (fun m =>
    if bool_decide (errorCode s = Some "not_installed") then
      El "a" [A "href" "https://www.freighter.app/"; A "target" "_blank"; A "rel" "noopener noreferrer"]
        [El "span" [A "role" "status"] [Txt "Install Freighter"]; Icon "ExternalLink"]
    else
      when (negb (bool_decide (errorCode s = Some "user_rejected")))
        (El "div" [] [Icon "AlertCircle"; El "span" [A "role" "alert"] [Txt m]])).
Definition copy_failure (s : state) : node ev :=
  when_message (copyError s) (fun m => El "div" [A "role" "alert"] [Icon "AlertCircle"; El "span" [] [Txt m]]).
Definition view (s : state) : node ev :=
  if bool_decide (installed s = Some false) then install_link
  else
    El "div" []
      [El "div" [A "role" "status"; A "aria-live" "polite"] [Txt (if copied s then "Address copied" else "")];
       network_part s; El "div" [] [account_part s]; rejected s; copy_failure s; other_error s].
End WalletView.

(** ** [Navbar] *)
Module NavbarView.
Import Nav.

(** The state of the bar, with what the hooks give it. *)
Record state := {
  mobileMenuOpen : bool; barBell : bool; menuBell : bool; tourOpen : bool;
  session : WalletState; notes : Notifications.view;
  pathname : string; balances : Balances; balancesLoading : bool; isVerified : bool; now : Z;
  wallet : WalletView.state; theme : Theme; mounted : bool }.
(** The bell and the wallet button are there twice: [menu] tells those of the menu. *)
Inductive event :=
  | CloseMenu | ToggleMenu | SelectRole (value : string) | StartTour
  | BellEv (menu : bool) (e : BellView.ev) | WalletEv (e : WalletView.ev) | ThemeEv (e : ThemeToggleView.ev).

(** The bell of the menu is unmounted with it. *)
Definition with_menu (s : state) (o : bool) : state :=
  {| mobileMenuOpen := o; barBell := barBell s; menuBell := menuBell s && o; tourOpen := tourOpen s; session := session s;
     notes := notes s; pathname := pathname s; balances := balances s; balancesLoading := balancesLoading s;
     isVerified := isVerified s; now := now s; wallet := wallet s; theme := theme s; mounted := mounted s |}.
Definition bell (menu : bool) (s : state) : Bell.state :=
  {| Bell.isOpen := if menu then menuBell s else barBell s; Bell.seen := notes s |}.
Definition with_bell (menu : bool) (s : state) (b : Bell.state) : state :=
  {| mobileMenuOpen := mobileMenuOpen s; barBell := if menu then barBell s else Bell.isOpen b;
     menuBell := if menu then Bell.isOpen b else menuBell s; tourOpen := tourOpen s; session := session s;
     notes := Bell.seen b; pathname := pathname s; balances := balances s; balancesLoading := balancesLoading s;
     isVerified := isVerified s; now := now s; wallet := wallet s; theme := theme s; mounted := mounted s |}.
(** The events of the wallet and of the theme are those of [WalletButton] and [UseTheme]. *)
Definition step (s : state) (e : event) : state :=
  match e with
  | CloseMenu => with_menu s false
  | ToggleMenu => with_menu s (negb (mobileMenuOpen s))
  | SelectRole v =>
      {| mobileMenuOpen := mobileMenuOpen s; barBell := barBell s; menuBell := menuBell s; tourOpen := tourOpen s;
         session := foldl apply_op (session s) (selectRole v); notes := notes s; pathname := pathname s;
         balances := balances s; balancesLoading := balancesLoading s; isVerified := isVerified s; now := now s;
         wallet := wallet s; theme := theme s; mounted := mounted s |}
  | StartTour =>
      {| mobileMenuOpen := mobileMenuOpen s; barBell := barBell s; menuBell := menuBell s;
         tourOpen := Onboarding.start (tourOpen s); session := session s; notes := notes s; pathname := pathname s;
         balances := balances s; balancesLoading := balancesLoading s; isVerified := isVerified s; now := now s;
         wallet := wallet s; theme := theme s; mounted := mounted s |}
  | BellEv menu BellView.ToggleOpen => with_bell menu s (Bell.toggleOpen (address (session s)) (bell menu s))
  | WalletEv _ | ThemeEv _ => s
  end.

Section View.
Context (t : string -> list (string * jsval) -> string) (toLocaleString : num -> string).

Definition role_text (r : WalletRole) : string := match r with RIssuer => "issuer" | RBuyer => "buyer" | RLp => "lp" end.
Definition verified_mark (s : state) (item : string * string) : node event :=
  when (verifiedDot item (connected (session s)) (isVerified s)) (El "span" [A "title" (t "verifiedProfile" [])] []).
Definition brand : node event :=
  El "a" [A "href" "/"; OnClick [CloseMenu]]
    [El "div" [] [Icon "Terminal"]; El "span" [] [Txt "TRUST"; El "span" [] [Txt "TROVE"]]].
Definition bar_link (s : state) (item : string * string) : node event :=
  El "a" [A "href" item.2; A "data-tour" ("nav-" +:+ item.1); Flag "data-active" (isActive (pathname s) item)]
    [Icon item.1; El "span" [] [Txt (t ("nav." +:+ item.1) [])]; verified_mark s item].
Definition menu_link (s : state) (item : string * string) : node event :=
  El "a" [A "href" item.2; OnClick [CloseMenu]; Flag "data-active" (isActive (pathname s) item)]
    [El "span" [] [Icon item.1; Txt (t ("nav." +:+ item.1) [])]; verified_mark s item].

Definition skeleton : node event := El "div" [] [].
Definition faucet : node event :=
  El "div" []
    [El "a" [A "href" "https://demo.stellar.org"; A "target" "_blank"; A "rel" "noopener noreferrer"]
       [Txt (t "getTestnetUsdc" []); Txt " "; Icon "ExternalLink"]].
Definition usdc_balance (s : state) : node event :=
  El "div" []
    (Icon "Wallet" ::
     if balancesLoading s then [skeleton]
     else [El "span" [] [Txt (usdc_text t toLocaleString (balances s))]; when (needs_usdc (balances s)) faucet]).
Definition xlm_balance (s : state) : node event :=
  El "div" []
    [Icon "Wallet";
     if balancesLoading s then skeleton else El "span" [] [Txt (xlm_text t toLocaleString (balances s))]].
Definition balances_markup (s : state) : node event :=
  El "div" [A "data-tour" "balances"] [usdc_balance s; El "div" [] []; xlm_balance s].

Definition role_select (s : state) : node event :=
  El "div" [A "data-tour" "role-switcher"]
    [Icon "Shield"; El "span" [] [Txt (t "roleLabel" [])];
     El "select" [A "aria-label" (t "roleSelectLabel" []); A "value" (role_text (role (session s))); OnChange SelectRole]
       [El "option" [A "value" "issuer"] [Txt (t "roles.issuer" [])];
        El "option" [A "value" "buyer"] [Txt (t "roles.buyer" [])];
        El "option" [A "value" "lp"] [Txt (t "roles.lp" [])]]].
Definition bell_markup (menu : bool) (s : state) : node event := lift (BellEv menu) (BellView.view (now s) (bell menu s)).
Definition wallet_view (s : state) : node event := lift WalletEv (WalletView.view (wallet s)).
Definition controls (s : state) : node event :=
  El "div" []
    [bell_markup false s;
     El "button" [A "type" "button"; A "data-tour" "tour-launcher"; OnClick [StartTour]; A "aria-label" (t "takeTour" []);
                  A "title" (t "takeTour" [])] [Icon "Compass"];
     lift ThemeEv (ThemeToggleView.view (theme s) (mounted s))].
Definition menu_button (s : state) : node event :=
  El "button" [A "type" "button"; A "aria-label" (if mobileMenuOpen s then t "closeMenu" [] else t "openMenu" []);
               Flag "aria-expanded" (mobileMenuOpen s); OnClick [ToggleMenu]]
    [Icon (if mobileMenuOpen s then "X" else "Menu")].
Definition mobile_menu (s : state) : node event :=
  when (mobileMenuOpen s)
    (El "div" []
      [El "div" []
         (map (menu_link s) NAV_ITEMS ++
          [El "button" [A "type" "button"; A "data-tour" "tour-launcher"; OnClick [CloseMenu; StartTour]]
             [Icon "Compass"; Txt (t "takeTour" [])]]);
       El "div" [] [bell_markup true s; wallet_view s]]).
Definition view (s : state) : node event :=
  El "nav" []
    [El "div" []
       [El "div" []
         [El "div" [] [brand; El "div" [] (map (bar_link s) NAV_ITEMS)];
          El "div" []
            [when (connected (session s)) (Frag [balances_markup s; role_select s]);
             controls s; El "div" [] [wallet_view s]; menu_button s]]];
     mobile_menu s].
End View.
End NavbarView.

(** ** Properties of the parts *)
Module WalletViewFacts.
Import WalletButton WalletView.

Lemma message_inert m f : (forall t, inert (f t)) -> inert (when_message m f).
Proof. intros H. destruct m as [t|]; [|split; constructor]. cbn. destruct (negb _); [apply H|split; constructor]. Qed.
Lemma rejected_inert s : inert (rejected s).
Proof. apply message_inert. intros _. unfold when. case_match; split; repeat constructor; done. Qed.
Lemma copy_failure_inert s : inert (copy_failure s).
Proof. apply message_inert. intros m. split; repeat constructor; done. Qed.
Lemma other_error_inert s : inert (other_error s).
Proof. apply message_inert. intros m. unfold when. repeat case_match; split; repeat constructor; done. Qed.
Lemma switch_error_inert m : inert (switch_error m).
Proof. split; repeat constructor; done. Qed.

Lemma network_clicks s es : es ∈ clicks (network_part s) ->
  es = [] \/ (es = [SwitchToTestnet] /\ connected s = true /\ switchingNetwork s = false /\
              network s <> Some "testnet" /\ network s <> Some "mainnet").
Proof.
  unfold network_part, when. destruct (connected s); [|intros H; cbn in H; in_cases H].
  intros [->|(k & Hk & H)]%click_through; [auto| |done|done]. rewrite !elem_of_cons in Hk.
  destruct Hk as [->|[->|[]%not_elem_of_nil]].
  - apply click_through in H as [->|(k & ->%list_elem_of_singleton & H)]; [auto| |done|done].
    revert H. unfold network_badge. cbn [negb]. do 2 (case_bool_decide; [intros H1; cbn in H1; in_cases H1; auto|]).
    destruct (switchingNetwork s); intros H1; cbn in H1; in_cases H1; auto 6.
  - left. by apply (inert_clicks _ _ (message_inert _ _ switch_error_inert)) in H.
Qed.
Lemma account_clicks s es : es ∈ clicks (account_part s) ->
  es = [] \/
  (es = [ConnectWallet] /\ loading s = false /\ (connected s = false \/ opt_str_truthy (address s) = false)) \/
  ((es = [Copy] \/ es = [Disconnect]) /\ connected s = true /\ opt_str_truthy (address s) = true).
Proof.
  unfold account_part. destruct (connected s) eqn:Hc, (opt_str_truthy (address s)) eqn:Ha; cbn [andb];
  try destruct (loading s) eqn:Hl; intros H; cbn in H; in_cases H; auto 10.
Qed.
Lemma wallet_clicks_only s : clicks_only (view s).
Proof.
  unfold clicks_only, view. case_bool_decide; [repeat constructor|]. apply live_all; [constructor|].
  rewrite !list.Forall_cons. repeat split; try done; try (by apply inert_live; (apply rejected_inert || apply copy_failure_inert || apply other_error_inert)).
  - repeat constructor.
  - unfold network_part, when. destruct (connected s); [|constructor]. apply live_all; [constructor|].
    rewrite !list.Forall_cons. repeat split; [| |done].
    + apply live_all; [constructor|]. apply list.Forall_singleton. destruct (network_badge _ _ _) as [| | |[]]; repeat constructor.
    + apply inert_live, message_inert, switch_error_inert.
  - apply live_all; [constructor|]. apply list.Forall_singleton. unfold account_part.
    destruct (_ && _), (loading s) eqn:Hl; cbn; rewrite ?Hl; repeat constructor.
Qed.

(** The button offers one thing at a time: an account to connect, or the account's copy and
    disconnect; a switch of the network only while connected to an unknown one. *)
Lemma wallet_actions s es : act (view s) es ->
  es = [] \/
  (es = [ConnectWallet] /\ loading s = false /\ (connected s = false \/ opt_str_truthy (address s) = false)) \/
  ((es = [Copy] \/ es = [Disconnect]) /\ connected s = true /\ opt_str_truthy (address s) = true) \/
  (es = [SwitchToTestnet] /\ connected s = true /\ switchingNetwork s = false /\
   network s <> Some "testnet" /\ network s <> Some "mainnet").
Proof.
  intros H%(clicks_only_act _ _ (wallet_clicks_only s)). revert H. unfold view.
  case_bool_decide as Hi; [intros Hc; cbn in Hc; in_cases Hc; auto|].
  intros [->|(k & Hk & H)]%click_through; [auto| |done|done]. rewrite !elem_of_cons in Hk.
  destruct Hk as [->|[->|[->|[->|[->|[->|[]%not_elem_of_nil]]]]]].
  - cbn in H. in_cases H. auto.
  - apply network_clicks in H as [?|?]; auto.
  - apply click_through in H as [->|(k & ->%list_elem_of_singleton & H)]; [auto| |done|done].
    apply account_clicks in H as [?|[?|?]]; auto.
  - left. apply (inert_clicks _ _ (rejected_inert s) H).
  - left. apply (inert_clicks _ _ (copy_failure_inert s) H).
  - left. apply (inert_clicks _ _ (other_error_inert s) H).
Qed.
End WalletViewFacts.

Module NavbarFacts.
Import Nav NavbarView.

Lemma bell_clicks_only now s : clicks_only (BellView.view now s).
Proof.
  unfold clicks_only, BellView.view. apply live_all; [constructor|]. rewrite !list.Forall_cons. split; [|split; [|done]].
  - unfold when. destruct (0 <? _)%nat; repeat constructor.
  - unfold when, BellView.dropdown. destruct (Bell.isOpen s); [|constructor].
    apply live_all; [constructor|]. apply list.Forall_singleton, live_all; [repeat constructor|].
    rewrite !list.Forall_cons. split; [|split; [|done]]; [unfold when; destruct (0 <? _)%nat; repeat constructor|].
    destruct (notifications (Bell.seen s)) as [|n l]; [repeat constructor|]. apply live_all; [constructor|].
    apply list.Forall_fmap, list.Forall_forall. intros m _. repeat constructor.
Qed.
Lemma dropdown_inert now s : inert (BellView.dropdown now s).
Proof.
  unfold BellView.dropdown. apply inert_el; [done|]. split; [by repeat constructor|].
  apply list.Forall_singleton, inert_el; [done|]. split; [repeat constructor; done|]. rewrite !list.Forall_cons.
  split; [|split; [|done]]; [unfold when; destruct (0 <? _)%nat; split; repeat constructor; done|].
  destruct (notifications (Bell.seen s)) as [|m l]; [split; repeat constructor; done|].
  apply inert_el; [done|]. split; [by repeat constructor|]. apply list.Forall_fmap, list.Forall_forall. intros k _.
  split; repeat constructor; done.
Qed.
Lemma bell_actions now s es : es ∈ clicks (BellView.view now s) -> es = [] \/ es = [BellView.ToggleOpen].
Proof.
  intros [->|(k & Hk & H)]%click_through; [auto| |done|done]. rewrite !elem_of_cons in Hk.
  destruct Hk as [->|[->|[]%not_elem_of_nil]].
  - unfold when in H. destruct (0 <? _)%nat; cbn in H; in_cases H; auto.
  - left. unfold when in H. destruct (Bell.isOpen s); [|cbn in H; in_cases H].
    eapply inert_clicks; [|exact H]. apply dropdown_inert.
Qed.

Section Facts.
Context (t : string -> list (string * jsval) -> string) (toLocaleString : num -> string).
Abbreviation view := (view t toLocaleString).

Lemma role_select_fields s :
  input_fields (role_select t s) = [Picks (map SelectRole ROLES)].
Proof. done. Qed.
Lemma rest_clicks_only s : clicks_only (controls t s) /\ clicks_only (wallet_view s) /\ clicks_only (mobile_menu t s) /\
  clicks_only (balances_markup t toLocaleString s).
Proof.
  assert (Hb : forall m, clicks_only (bell_markup m s)) by (intros m; apply clicks_only_lift, bell_clicks_only).
  assert (Hw : clicks_only (wallet_view s)) by apply clicks_only_lift, WalletViewFacts.wallet_clicks_only.
  assert (Hk : clicks_only (lift ThemeEv (ThemeToggleView.view (theme s) (mounted s))))
    by (apply clicks_only_lift; unfold ThemeToggleView.view; destruct (mounted s); repeat constructor).
  repeat split; [|exact Hw| |].
  - apply live_all; [constructor|]. rewrite !list.Forall_cons. repeat split; try done; [apply Hb|repeat constructor].
  - unfold mobile_menu, when. destruct (mobileMenuOpen s); [|constructor]. apply live_all; [constructor|].
    rewrite !list.Forall_cons. repeat split; [| |done].
    + apply live_all; [constructor|]. apply Forall_app. split; [|repeat constructor].
      apply list.Forall_fmap, list.Forall_forall. intros item _. unfold compose, menu_link, verified_mark, when.
      destruct (verifiedDot _ _ _); repeat constructor.
    + apply live_all; [constructor|]. rewrite !list.Forall_cons. repeat split; [apply Hb|apply Hw|done].
  - apply live_all; [repeat constructor|]. rewrite !list.Forall_cons. unfold usdc_balance, xlm_balance, when.
    destruct (balancesLoading s), (needs_usdc (balances s)); repeat constructor.
Qed.

(** Everything the bar can be told to do, with what has to be there for it. *)
Definition offered (s : state) (es : list event) : Prop :=
  es = [] \/ es = [CloseMenu] \/ es = [ToggleMenu] \/ es = [StartTour] \/ es = [ThemeEv ThemeToggleView.Press] \/
  (mobileMenuOpen s = true /\ es = [CloseMenu; StartTour]) \/
  (exists menu, es = [BellEv menu BellView.ToggleOpen] /\ (menu = true -> mobileMenuOpen s = true)) \/
  (exists w, es = [WalletEv w] /\ act (WalletView.view (wallet s)) [w]) \/
  (exists r, es = [SelectRole (role_text r)] /\ connected (session s) = true).

Lemma wallet_part s es : es ∈ clicks (wallet_view s) -> offered s es.
Proof.
  intros (es' & -> & H)%clicks_lift. assert (Ha : act (WalletView.view (wallet s)) es')
    by (apply formless_act; [apply clicks_only_formless, WalletViewFacts.wallet_clicks_only|done]).
  destruct (WalletViewFacts.wallet_actions _ _ Ha) as [->|[[-> _]|[[[->| ->] _]|[-> _]]]]; [by left|..];
  unfold offered; cbn [map]; do 7 right; left; eauto.
Qed.
Lemma bell_part menu s es : (menu = true -> mobileMenuOpen s = true) -> es ∈ clicks (bell_markup menu s) -> offered s es.
Proof.
  intros Hm (es' & -> & [->| ->]%bell_actions)%clicks_lift; [by left|]. unfold offered. cbn [map]. do 6 right. left. eauto.
Qed.

Lemma menu_part s es : es ∈ clicks (mobile_menu t s) -> offered s es.
Proof.
  unfold mobile_menu, when. destruct (mobileMenuOpen s) eqn:Ho; [|intros H; cbn in H; in_cases H].
  intros [->|(k & Hk & H)]%click_through; [by left| |done|done]. rewrite !elem_of_cons in Hk.
  destruct Hk as [->|[->|[]%not_elem_of_nil]].
  - apply click_through in H as [->|(k & Hk & H)]; [by left| |done|done].
    apply elem_of_app in Hk as [(item & -> & _)%list_elem_of_fmap| ->%list_elem_of_singleton].
    + unfold menu_link, verified_mark, when in H. right. left. destruct (verifiedDot _ _ _); cbn in H; in_cases H; done.
    + cbn in H. in_cases H. unfold offered. auto 8.
  - apply click_through in H as [->|(k & Hk & H)]; [by left| |done|done]. rewrite !elem_of_cons in Hk.
    destruct Hk as [->|[->|[]%not_elem_of_nil]]; [by apply (bell_part true)|by apply wallet_part].
Qed.

Lemma controls_part s es : es ∈ clicks (controls t s) -> offered s es.
Proof.
  intros [->|(k & Hk & H)]%click_through; [by left| |done|done]. rewrite !elem_of_cons in Hk.
  destruct Hk as [->|[->|[->|[]%not_elem_of_nil]]]; [by apply (bell_part false)| |].
  - cbn in H. in_cases H; unfold offered; auto.
  - apply clicks_lift in H as (es' & -> & H). unfold ThemeToggleView.view in H.
    destruct (mounted s); cbn in H; in_cases H; unfold offered; cbn; auto 8.
Qed.

Lemma brand_part s es : es ∈ clicks (El "div" [] [brand; El "div" [] (map (bar_link t s) NAV_ITEMS)]) -> offered s es.
Proof.
  intros [->|(k & Hk & H)]%click_through; [by left| |done|done]. rewrite !elem_of_cons in Hk.
  destruct Hk as [->|[->|[]%not_elem_of_nil]]; [cbn in H; in_cases H; unfold offered; auto|].
  left. apply click_through in H as [->|(k & (item & -> & _)%list_elem_of_fmap & H)]; [done| |done|done].
  unfold bar_link, verified_mark, when in H. destruct (verifiedDot _ _ _); cbn in H; in_cases H; done.
Qed.

Lemma session_part s es :
  es ∈ clicks (when (connected (session s)) (Frag [balances_markup t toLocaleString s; role_select t s])) -> es = [].
Proof.
  unfold when. destruct (connected (session s)); [|intros H; cbn in H; in_cases H].
  intros (k & Hk & H)%click_frag_through. rewrite !elem_of_cons in Hk. destruct Hk as [->|[->|[]%not_elem_of_nil]].
  - eapply inert_clicks; [|exact H]. unfold balances_markup, usdc_balance, xlm_balance, when.
    destruct (balancesLoading s), (needs_usdc (balances s)); split; repeat constructor; done.
  - cbn in H. by in_cases H.
Qed.

Lemma navbar_clicks s es : es ∈ clicks (view s) -> offered s es.
Proof.
  intros [->|(k & Hk & H)]%click_through; [by left| |done|done]. rewrite !elem_of_cons in Hk.
  destruct Hk as [->|[->|[]%not_elem_of_nil]]; [|by apply menu_part].
  apply click_through in H as [->|(k & ->%list_elem_of_singleton & H)]; [by left| |done|done].
  apply click_through in H as [->|(k & Hk & H)]; [by left| |done|done]. rewrite !elem_of_cons in Hk.
  destruct Hk as [->|[->|[]%not_elem_of_nil]]; [by apply brand_part|].
  apply click_through in H as [->|(k & Hk & H)]; [by left| |done|done]. rewrite !elem_of_cons in Hk.
  destruct Hk as [->|[->|[->|[->|[]%not_elem_of_nil]]]].
  - left. by apply (session_part s).
  - by apply controls_part.
  - apply click_through in H as [->|(k & ->%list_elem_of_singleton & H)]; [by left|by apply wallet_part|done|done].
  - cbn in H. in_cases H; unfold offered; auto.
Qed.

Lemma bar_clicks_only s : clicks_only (El "div" [] [brand; El "div" [] (map (bar_link t s) NAV_ITEMS)]).
Proof.
  apply live_all; [constructor|]. rewrite !list.Forall_cons. repeat split; [repeat constructor| |done].
  apply live_all; [constructor|]. apply list.Forall_fmap, list.Forall_forall. intros item _. unfold compose, bar_link, verified_mark, when.
  destruct (verifiedDot _ _ _); repeat constructor.
Qed.
Lemma navbar_fields s :
  input_fields (view s) = if connected (session s) then [Picks (map SelectRole ROLES)] else [].
Proof.
  destruct (rest_clicks_only s) as (Hc & Hw & Hm & Hb). unfold view, NavbarView.view.
  do 3 (rewrite !input_fields_box; cbn [flat_map]).
  rewrite (clicks_only_fields _ (bar_clicks_only s)), (clicks_only_fields _ Hm), input_fields_box. cbn [flat_map].
  rewrite (clicks_only_fields _ Hc), input_fields_box. cbn [flat_map]. rewrite (clicks_only_fields _ Hw).
  change (input_fields (menu_button t s)) with ([] : list (control event)). rewrite !app_nil_r. cbn [app].
  unfold when. destruct (connected (session s)); [|done]. rewrite input_fields_frag. cbn [flat_map].
  by rewrite (clicks_only_fields _ Hb).
Qed.
Lemma navbar_formless s : formless (view s).
Proof.
  destruct (rest_clicks_only s) as (Hc & Hw & Hm & Hb).
  apply live_all; [constructor|]. rewrite !list.Forall_cons. repeat split; [|by apply clicks_only_formless|done].
  apply live_all; [constructor|]. apply list.Forall_singleton, live_all; [constructor|].
  rewrite !list.Forall_cons. repeat split; [apply clicks_only_formless, bar_clicks_only| |done].
  apply live_all; [constructor|]. rewrite !list.Forall_cons. repeat split; [|by apply clicks_only_formless| | |done].
  - unfold when. destruct (connected (session s)); [|constructor]. rewrite live_frag, Forall_flat_map, !list.Forall_cons.
    repeat split; [by apply clicks_only_formless|repeat constructor|done].
  - apply live_all; [constructor|]. apply list.Forall_singleton. by apply clicks_only_formless.
  - repeat constructor.
Qed.

Lemma navbar_actions s es : act (view s) es -> offered s es.
Proof.
  intros [es' H|f v H|l e H He].
  - apply navbar_clicks. by apply (formless_clicks _ _ (navbar_formless s)).
  - rewrite navbar_fields in H. destruct (connected _); in_cases H.
  - rewrite navbar_fields in H. destruct (connected (session s)) eqn:Hc; [|by apply not_elem_of_nil in H].
    apply list_elem_of_singleton in H as [= ->]. unfold offered. do 8 right.
    cbn in He. in_cases He; [exists RIssuer|exists RBuyer|exists RLp]; done.
Qed.

(** Every step of the tour that highlights something has its element in the bar: the links and
    the launcher always, the balances and the role switch while a wallet is connected. *)
Lemma tour_target_shown s x : Some x ∈ Tour.TOUR_STEPS.*2 ->
  (connected (session s) = true \/ (x <> "balances" /\ x <> "role-switcher")) -> A "data-tour" x ∈ live (view s).
Proof.
  intros Hx Hc. unfold view, NavbarView.view. eapply live_part; [left|]. eapply live_part; [left|].
  assert (Hbar : forall item, item ∈ NAV_ITEMS -> A "data-tour" ("nav-" +:+ item.1) ∈
      live (El "div" [] [brand; El "div" [] (map (bar_link t s) NAV_ITEMS)])).
  { intros item Hi. apply live_part with (k := El "div" [] (map (bar_link t s) NAV_ITEMS)); [set_solver|].
    apply live_part with (k := bar_link t s item); [by apply list_elem_of_fmap_2|]. apply live_own; [done|]. set_solver. }
  assert (Hsess : connected (session s) = true -> forall y, y = "balances" \/ y = "role-switcher" ->
    A "data-tour" y ∈ live (when (connected (session s)) (Frag [balances_markup t toLocaleString s; role_select t s]))).
  { intros -> y Hy. cbn [when]. rewrite live_frag. apply elem_of_flat_map.
    destruct Hy as [->| ->]; eexists; split; [left|apply live_own; [done|by left]|right; left|apply live_own; [done|by left]]. }
  cbn in Hx. in_cases Hx.
  - destruct Hc as [Hc|[_ H]]; [|done]. eapply live_part; [by right; left|]. eapply live_part; [by left|]. apply Hsess; auto.
  - destruct Hc as [Hc|[H _]]; [|done]. eapply live_part; [by right; left|]. eapply live_part; [by left|]. apply Hsess; auto.
  - eapply live_part; [by left|]. apply (Hbar ("dashboard", "/dashboard")). set_solver.
  - eapply live_part; [by left|]. apply (Hbar ("lp", "/lp")). set_solver.
  - eapply live_part; [by left|]. apply (Hbar ("marketplace", "/marketplace")). set_solver.
  - eapply live_part; [by left|]. apply (Hbar ("profile", "/profile")). set_solver.
  - eapply live_part; [by right; left|]. eapply live_part; [by right; left|]. unfold controls.
    eapply live_part; [by right; left|]. apply live_own; [done|]. set_solver.
Qed.

(** A role chosen in the bar is the role of the session, and nothing else in the bar changes
    the session; leaving by the menu closes it; a bell that opens leaves nothing unread in
    either of them. *)
Lemma navbar_effects s es : act (view s) es ->
  let s' := foldl step s es in
  match es with
  | [SelectRole v] => role_text (role (session s')) = v /\ connected (session s) = true
  | _ => session s' = session s
  end /\
  (es = [CloseMenu; StartTour] -> mobileMenuOpen s' = false /\ tourOpen s' = true) /\
  (forall menu menu', es = [BellEv menu BellView.ToggleOpen] -> Bell.isOpen (bell menu s) = false ->
     opt_str_truthy (address (session s)) = true -> Bell.unreadCount (bell menu' s') = 0%nat).
Proof.
  intros H%navbar_actions. cbn zeta. split; [|split].
  - destruct H as [->|[->|[->|[->|[->|[[_ ->]|[(menu & -> & _)|[(w & -> & _)|(r & -> & Hc)]]]]]]]]; try done.
    by destruct r.
  - by intros ->.
  - intros menu menu' -> Ho Ha. cbn [foldl step]. unfold Bell.unreadCount, with_bell, bell. cbn [Bell.seen notes].
    unfold Bell.toggleOpen. unfold bell in Ho. cbn [Bell.isOpen Bell.seen] in *. rewrite Ho. cbn [negb Bell.seen].
    unfold markAllAsRead. rewrite Ha. cbn [notifications negb].
    induction (notifications (notes s)) as [|n l IH]; [done|]. cbn [map List.filter].
    unfold Bell.is_unread at 1. rewrite with_read_field. exact IH.
Qed.

(** The bell of the menu is never open without the menu. *)
Lemma menu_bell_needs_menu s s' : (menuBell s = true -> mobileMenuOpen s = true) ->
  rtc (turn view step (fun _ _ => False)) s s' -> menuBell s' = true -> mobileMenuOpen s' = true.
Proof.
  intros Hs0 Hr. refine (turns_invariant view step (fun _ _ => False)
    (fun s => menuBell s = true -> mobileMenuOpen s = true) _ _ s s' Hs0 Hr); [|done].
  clear. intros s es Hs H%navbar_actions.
  destruct H as [->|[->|[->|[->|[->|[[_ ->]|[(menu & -> & Hm)|[(w & -> & _)|(r & -> & Hc)]]]]]]]]; cbn; try done.
  - by intros [_ ?]%andb_prop.
  - by intros [_ ?]%andb_prop.
  - by intros [_ ?]%andb_prop.
  - destruct menu; [intros _; auto|exact Hs].
Qed.
End Facts.
End NavbarFacts.
