(* ===== verification/SettingsPage.v ===== *)
(** * The settings page ([app/settings/page.tsx])

    The page around the parts of [Preferences]: the display preferences, the theme button and
    the one of the bar over it, the notification toggles of the connected wallet and the wipe,
    all over one storage.  Its three sections are components declared in the body of
    [SettingsPage], so every render of the page makes new ones and React mounts their contents
    again: a theme button reads the theme, the toggles read the storage, and an element of a
    section that had the focus is gone. *)

From S2P Require Import Prelude JsNumber JsString JsValue JsJson JsonRoundTrip Assets Storage Marketplace.
From S2P Require Import Notifications Preferences Markup FrameViews.

Module Settings.
(** A theme button: what its instance of [useTheme] keeps. *)
Record Button := { bt_theme : Theme; bt_mounted : bool }.
Inductive control := DensityRadio (d : string) | AnimationsBox | ReducedBox | OwnTheme | BarTheme | CategoryBox (c : string) | ClearButton.
Record state := {
  disk : storage; media : option bool; doc : document; shown : Display.prefs; root : Display.root;
  bar : Button; own : Button; connected : bool; address : option string; toggles : option jsval; focus : option control }.

(** ** Parts of a render *)
Definition use_theme (s : state) (b : Button) : UseTheme.state :=
  {| UseTheme.st_storage := disk s; UseTheme.st_media := media s; UseTheme.st_doc := doc s;
     UseTheme.theme := bt_theme b; UseTheme.mounted := bt_mounted b |}.
Definition button_of (u : UseTheme.state) : Button := {| bt_theme := UseTheme.theme u; bt_mounted := UseTheme.mounted u |}.
(** [connected && address]. *)
Definition account (s : state) : option string :=
  if connected s && opt_str_truthy (address s) then address s else None.
(** The preferences a mount of [NotificationPreferences] reads. *)
Definition read_toggles (s : state) : option jsval := (fun a => readStoredPrefs (disk s) (prefsStorageKey a)) <$> account s.

(** The sections are mounted anew. *)
Definition remount (s : state) : state :=
  let u := UseTheme.mount (UseTheme.initial (disk s) (media s) (doc s)) in
  {| disk := disk s; media := media s; doc := UseTheme.st_doc u; shown := shown s; root := root s; bar := bar s;
     own := button_of u; connected := connected s; address := address s; toggles := read_toggles s;
     focus := match focus s with Some BarTheme => Some BarTheme | _ => None end |}.
(** The effect that saves and publishes the preferences. *)
Definition sync (s : state) : state :=
  let d := Display.sync {| Display.store := disk s; Display.shown := shown s; Display.doc := root s |} in
  {| disk := Display.store d; media := media s; doc := doc s; shown := shown s; root := Display.doc d; bar := bar s;
     own := own s; connected := connected s; address := address s; toggles := toggles s; focus := focus s |}.
Definition with_shown (s : state) (p : Display.prefs) : state :=
  {| disk := disk s; media := media s; doc := doc s; shown := p; root := root s; bar := bar s; own := own s;
     connected := connected s; address := address s; toggles := toggles s; focus := focus s |}.
Definition rerender (s : state) (p : Display.prefs) : state := sync (remount (with_shown s p)).

(** The first render has the defaults; its effects read the stored preferences, save and
    publish the defaults, and the next render has the preferences read. *)
Definition mount (d : storage) (m : option bool) (dc : document) (r : Display.root) (c : bool) (a : option string) : state :=
  let b := UseTheme.mount (UseTheme.initial d m dc) in
  let first := {| disk := d; media := m; doc := UseTheme.st_doc b; shown := Display.defaults; root := r; bar := button_of b;
                  own := button_of b; connected := c; address := a; toggles := None; focus := None |} in
  rerender (sync (remount first)) (Display.load d Display.defaults).

(** ** Events *)
Inductive event :=
  | SetDensity (d : string) | SetAnimations (b : bool) | SetReducedMotion (b : bool)
  | ToggleCategory (c : string) | PressOwn | PressBar | ClearAll (confirmed : bool)
  | Wallet (c : bool) (a : option string) | Focus (c : control).

(** A state setter that gets the value there is does not render again. *)
Definition same_density (p : Display.prefs) (d : string) : bool :=
  match Display.density p with JStr d' => String.eqb d' d | _ => false end.
Definition set_display (s : state) (e : event) : state :=
  let p := shown s in
  match e with
  | SetDensity d =>
      if same_density p d then s
      else rerender s {| Display.density := JStr d; Display.animations := Display.animations p; Display.reducedMotion := Display.reducedMotion p |}
  | SetAnimations b =>
      if Bool.eqb (Display.animations p) b then s
      else rerender s {| Display.density := Display.density p; Display.animations := b; Display.reducedMotion := Display.reducedMotion p |}
  | SetReducedMotion b =>
      if Bool.eqb (Display.reducedMotion p) b then s
      else rerender s {| Display.density := Display.density p; Display.animations := Display.animations p; Display.reducedMotion := b |}
  | _ => s
  end.
Definition toggle (s : state) (c : string) : state :=
  match account s, toggles s with
  | Some a, Some p =>
      match Toggles.toggleCategory {| Toggles.store := disk s; Toggles.address := a; Toggles.prefs := p |} c with
      | Ok st =>
          {| disk := Toggles.store st; media := media s; doc := doc s; shown := shown s; root := root s; bar := bar s; own := own s;
             connected := connected s; address := address s; toggles := Some (Toggles.prefs st); focus := focus s |}
      | Throw _ => s
      end
  | _, _ => s
  end.
Definition press (in_bar : bool) (s : state) : state :=
  let u := UseTheme.toggleTheme (use_theme s (if in_bar then bar s else own s)) in
  {| disk := UseTheme.st_storage u; media := media s; doc := UseTheme.st_doc u; shown := shown s; root := root s;
     bar := if in_bar then button_of u else bar s; own := if in_bar then own s else button_of u;
     connected := connected s; address := address s; toggles := toggles s; focus := focus s |}.
Definition set_wallet (s : state) (c : bool) (a : option string) : state :=
  if Bool.eqb c (connected s) && bool_decide (a = address s) then s
  else remount {| disk := disk s; media := media s; doc := doc s; shown := shown s; root := root s; bar := bar s; own := own s;
                  connected := c; address := a; toggles := toggles s; focus := focus s |}.
(** After the reload the document is new and no wallet is connected. *)
Definition clear (s : state) (confirmed : bool) : state :=
  let '(d, _, reload) := clearAllLocalData confirmed (disk s) in
  if reload then mount d (media s) (bootstrap d (media s)) (root s) false None
  else s.
Definition step (s : state) (e : event) : state :=
  match e with
  | SetDensity _ | SetAnimations _ | SetReducedMotion _ => set_display s e
  | ToggleCategory c => toggle s c
  | PressOwn => press false s
  | PressBar => press true s
  | ClearAll confirmed => clear s confirmed
  | Wallet c a => set_wallet s c a
  | Focus c => {| disk := disk s; media := media s; doc := doc s; shown := shown s; root := root s; bar := bar s; own := own s;
                  connected := connected s; address := address s; toggles := toggles s; focus := Some c |}
  end.

(** ** Markup *)
Definition heading (icon title text : string) : list (node event) :=
  [El "h4" [] [Icon icon; Txt title]; El "p" [] [Txt text]].
Definition density_option (s : state) (density : string) : node event :=
  El "label" []
    [El "input" [A "type" "radio"; A "name" "density"; A "value" density; Flag "checked" (same_density (shown s) density);
                 OnCheck (SetDensity density)] [];
     El "div" [] [El "span" [] [Txt density]]].
Definition switch (title text : string) (checked : bool) (set : bool -> event) : node event :=
  El "label" []
    [El "div" [] [El "span" [] [Txt title]; El "span" [] [Txt text]];
     El "input" [A "type" "checkbox"; Flag "checked" checked; OnToggle set] []].
Definition AppearanceSection (s : state) : node event :=
  El "div" []
    [El "div" []
       (heading "Palette" "Theme" "Choose your preferred color scheme. System preference follows your OS setting." ++
        [lift (fun _ => PressOwn) (ThemeToggleView.view (bt_theme (own s)) (bt_mounted (own s)))]);
     El "div" []
       (heading "Monitor" "Display Density" "Adjust the spacing and size of UI elements." ++
        [El "div" [] (map (density_option s) ["comfortable"; "compact"])]);
     El "div" []
       (heading "Layers" "Motion & Animation" "Control UI animations and transitions." ++
        [El "div" []
           [switch "UI Animations" "Enable transitions, hover effects, and micro-interactions" (Display.animations (shown s)) SetAnimations;
            switch "Reduced Motion" "Minimize non-essential motion (respects OS preference)" (Display.reducedMotion (shown s)) SetReducedMotion]])].

(** [`${address.slice(0, 6)}...${address.slice(-4)}`]. *)
Definition short_address (a : string) : string :=
  Str.slice 0 6 a +:+ "..." +:+ Str.slice_last 4 a.
Definition category_row (p : jsval) (category : string) : node event :=
  El "div" []
    [El "span" [] [Txt category];
     El "label" []
       [El "input" [A "type" "checkbox"; A "aria-label" (category +:+ " notifications");
                    Flag "checked" (match Toggles.checked p category with Ok b => b | Throw _ => false end);
                    OnToggle (fun _ => ToggleCategory category)] []]].
Definition NotificationPreferences (p : jsval) : node event := El "div" [] (map (category_row p) NOTIFICATION_CATEGORIES).
Definition NotificationsSection (s : state) : node event :=
  El "div" []
    [El "p" []
       [Txt "Notification preferences are managed per connected wallet address.";
        Txt (if connected s then " Currently configured for " +:+ match address s with Some a => short_address a | None => "undefined...undefined" end +:+ "."
             else " Connect a wallet to manage notification preferences.")];
     when_some (toggles s) NotificationPreferences;
     when (negb (connected s))
       (El "div" [] [Icon "Bell"; El "p" [] [Txt "Connect your wallet to configure notification preferences"]])].
Definition clear_question : string :=
  "This will clear all locally stored data (theme, filters, saved searches, display settings, notification preferences and history). This cannot be undone.".
(** The answer to the question is the browser's: a click may clear or not. *)
Definition DataPrivacySection (answer : bool) : node event :=
  El "div" []
    [El "div" []
       (heading "Shield" "Local Storage" "TrusTrove stores preferences locally in your browser. No personal data is sent to external servers without your consent." ++
        [El "button" [A "type" "button"; OnClick [ClearAll answer]] [Txt "Clear All Local Data"]]);
     El "div" []
       (heading "Database" "Saved Marketplace Searches" "Your saved filter presets are stored locally and scoped to your connected wallet address (or a generic key when not connected). Maximum of 10 presets per address." ++
        [El "p" [] [Txt "Manage presets from the "; El "strong" [] [Txt "Marketplace"]; Txt " page."]])].
Definition wallet_status (a : string) : node event :=
  El "div" []
    [El "div" [] [Icon "Shield"; El "div" [] [El "p" [] [Txt "Wallet Connected"]; El "p" [] [Txt (short_address a)]]];
     El "span" [] [Txt "Settings scoped to this address"]].
Definition section (id icon title text : string) (body : node event) : node event :=
  El "section" [A "aria-labelledby" id]
    [El "header" [] [Icon icon; El "div" [] [El "h2" [A "id" id] [Txt title]; El "p" [] [Txt text]]]; El "div" [] [body]].
(** [PageLayout] puts the bar over the page; its theme button is the part that matters here. *)
Definition view (answer : bool) (s : state) : node event :=
  El "div" []
    [lift (fun _ => PressBar) (ThemeToggleView.view (bt_theme (bar s)) (bt_mounted (bar s)));
     El "div" []
       [El "div" []
          [El "h1" [] [Txt "Settings"];
           El "p" [] [Txt "Manage your application preferences. Settings are stored locally in your browser and scoped to your connected wallet where applicable."]];
        when_some (account s) wallet_status;
        El "div" []
          [section "section-appearance" "Palette" "Appearance" "Customize how TrusTrove looks on your device" (AppearanceSection s);
           section "section-notifications" "Bell" "Notifications" "Configure which events trigger notifications" (NotificationsSection s);
           section "section-data-privacy" "Database" "Data & Privacy" "Manage local data storage and privacy settings" (DataPrivacySection answer)]]].
(** The wallet changes elsewhere, and the focus moves. *)
Definition outside (s : state) (e : event) : Prop :=
  match e with Wallet _ _ | Focus _ => True | _ => False end.
End Settings.

(** ** Properties *)
Module SettingsFacts.
Import Settings ToggleFacts.

Definition shows (b : Button) (dc : document) : Prop := dc = applyTheme (bt_theme b) /\ bt_mounted b = true.
Record inv (s : state) : Prop := {
  i_available : available (disk s);
  i_good : DisplayFacts.good (shown s);
  i_stored : Display.load (disk s) Display.defaults = shown s;
  i_root : root s = Display.publish (shown s);
  i_togglable : togglable (disk s);
  i_toggles : toggles s = read_toggles s;
  i_theme : shows (bar s) (doc s) \/ shows (own s) (doc s);
  i_mounted : bt_mounted (bar s) = true /\ bt_mounted (own s) = true }.

Lemma keys_apart a : Display.DISPLAY_KEY <> prefsStorageKey a /\ THEME_STORAGE_KEY <> prefsStorageKey a /\
  THEME_STORAGE_KEY <> Display.DISPLAY_KEY.
Proof. split_and!; discriminate. Qed.

(** Reading one key does not see a write to another. *)
Lemma load_other d d' p : readable d' = readable d ->
  lookup_item (items d') Display.DISPLAY_KEY = lookup_item (items d) Display.DISPLAY_KEY ->
  Display.load d' p = Display.load d p.
Proof. intros Hr Hl. unfold Display.load, getItem. by rewrite Hr, Hl. Qed.

Lemma save_prefs d p a : available d ->
  readStoredPrefs (Display.saveDisplayPrefs d p) (prefsStorageKey a) = readStoredPrefs d (prefsStorageKey a).
Proof.
  intros Ha. apply prefs_other.
  - destruct (store_json_available d Display.DISPLAY_KEY (Display.prefs_value p) Ha) as [H _]. by rewrite (proj1 Ha).
  - apply store_json_other. by destruct (keys_apart a).
Qed.

Lemma read_toggles_same s s' : connected s' = connected s -> address s' = address s ->
  (forall a, readStoredPrefs (disk s) (prefsStorageKey a) = readStoredPrefs (disk s') (prefsStorageKey a)) ->
  read_toggles s = read_toggles s'.
Proof.
  intros Hc Ha H. unfold read_toggles, account. rewrite Hc, Ha. destruct (connected s && _); [|done].
  destruct (address s) as [a|]; [|done]. cbn [fmap option_fmap option_map]. by rewrite H.
Qed.

(** A render of the page establishes everything but what it is given. *)
Lemma settings_rerender_inv s p : available (disk s) -> DisplayFacts.good p -> togglable (disk s) -> bt_mounted (bar s) = true ->
  inv (rerender s p).
Proof.
  intros Ha Hg Ht Hb. unfold rerender, sync. constructor; cbn [disk shown root toggles bar own doc Display.sync Display.store Display.shown Display.doc remount with_shown].
  - by apply (store_json_available _ Display.DISPLAY_KEY).
  - done.
  - by apply DisplayFacts.load_saved.
  - done.
  - intros a. destruct (Ht a) as (fs & Hfs & Hst). exists fs. by rewrite save_prefs.
  - apply read_toggles_same; [done|done|]. intros a. symmetry. by apply save_prefs.
  - right. by split.
  - done.
Qed.

Lemma theme_other d t a : available d -> available (storeTheme d t) /\
  readStoredPrefs (storeTheme d t) (prefsStorageKey a) = readStoredPrefs d (prefsStorageKey a) /\
  forall p, Display.load (storeTheme d t) p = Display.load d p.
Proof.
  intros [Hr Hw]. assert (Hr' : readable (storeTheme d t) = readable d)
    by (unfold storeTheme, setItem_safe, setItem; by rewrite Hw).
  split; [|split].
  - unfold storeTheme, setItem_safe, setItem. by rewrite Hw.
  - apply prefs_other; [done|]. apply setItem_safe_other. by destruct (keys_apart a) as (_ & ? & _).
  - intros p. apply load_other; [done|]. apply setItem_safe_other. by destruct (keys_apart a) as (_ & _ & ?).
Qed.

Lemma toggle_inv s c : inv s -> inv (toggle s c).
Proof.
  intros H. unfold toggle. destruct (account s) as [a|] eqn:Ea; [|done].
  assert (Hts : toggles s = Some (readStoredPrefs (disk s) (prefsStorageKey a)))
    by (rewrite (i_toggles s H); unfold read_toggles; by rewrite Ea).
  destruct (i_togglable s H a) as (fs & Hfs & Hst). rewrite Hts, Hfs, toggle_runs. cbv zeta.
  destruct (toggled_prefs (disk s) a fs c (i_available s H) Hst) as (Hn & Hself & Hother).
  set (next := JObj (JsValue.set fs c _)) in *. pose proof (store_json_available (disk s) (prefsStorageKey a) next (i_available s H)) as Hav.
  constructor; cbn [disk shown root toggles bar own doc Toggles.store Toggles.prefs]; try apply H.
  - exact Hav.
  - rewrite <- (i_stored s H). apply load_other; [by rewrite (proj1 Hav), (proj1 (i_available s H))|].
    apply store_json_other. destruct (keys_apart a) as (Hk & _). by intros ?.
  - intros b. destruct (decide (b = a)) as [->|Hb]; [by eexists|]. rewrite Hother by done. apply (i_togglable s H).
  - unfold read_toggles. unfold account in *. cbn [connected address disk]. rewrite Ea. cbn [fmap option_fmap option_map]. by rewrite Hself.
Qed.

Lemma press_inv b s : inv s -> inv (press b s).
Proof.
  intros H. unfold press. set (t := if dark (doc s) then Light else Dark).
  destruct (theme_other (disk s) t "" (i_available s H)) as (Hav & _ & Hload).
  assert (Hp : forall a, readStoredPrefs (storeTheme (disk s) t) (prefsStorageKey a) = readStoredPrefs (disk s) (prefsStorageKey a))
    by (intros a; exact (proj1 (proj2 (theme_other (disk s) t a (i_available s H))))).
  destruct (i_mounted s H) as [Hb Ho].
  assert (Hu : UseTheme.toggleTheme (use_theme s (if b then bar s else own s)) = UseTheme.setTheme (use_theme s (if b then bar s else own s)) t)
    by reflexivity.
  rewrite Hu. constructor; cbn; try apply H.
  - exact Hav.
  - rewrite Hload. apply H.
  - intros a. rewrite Hp. apply (i_togglable s H).
  - rewrite (i_toggles s H). apply read_toggles_same; [done|done|]. intros a. by rewrite <- Hp.
  - destruct b; [left|right]; split; done.
  - destruct b; by rewrite ?Hb, ?Ho.
Qed.

Lemma remount_inv s : available (disk s) -> DisplayFacts.good (shown s) -> Display.load (disk s) Display.defaults = shown s ->
  root s = Display.publish (shown s) -> togglable (disk s) -> bt_mounted (bar s) = true -> inv (remount s).
Proof. intros Ha Hg Hl Hr Ht Hb. constructor; try done. by right. Qed.

Lemma settings_mount_inv d m dc r c a : available d -> DisplayFacts.good (Display.load d Display.defaults) -> togglable d ->
  inv (mount d m dc r c a).
Proof.
  intros Ha Hg Ht. unfold mount. apply settings_rerender_inv; [|done| |done].
  - by apply (store_json_available d Display.DISPLAY_KEY).
  - intros b. destruct (Ht b) as (fs & Hfs & Hst). exists fs. split; [|done]. rewrite <- Hfs. by apply save_prefs.
Qed.

Lemma clear_inv s confirmed : inv s -> inv (clear s confirmed).
Proof.
  intros H. unfold clear. destruct (clearAllLocalData confirmed (disk s)) as [[d msg] reload] eqn:E. destruct reload; [|done].
  destruct confirmed; [|done]. unfold clearAllLocalData in E. destruct (clearAppStorage (disk s)) as [[removed s']|e] eqn:Hc; [|done].
  injection E as <- <-.
  assert (Hg : forall k, isAppStorageKey k = true -> getItem s' k = Ok None).
  { intros k Hk. destruct (clear_lookup (disk s) removed s' k Hc) as [Hread Hl]. unfold getItem. by rewrite Hread, Hl, Hk. }
  apply settings_mount_inv.
  - pose proof (i_available s H) as [Hr Hw]. unfold clearAppStorage in Hc. rewrite Hr in Hc. injection Hc as _ <-.
    assert (Hfold : forall l d, available d -> available (foldl removeItem d l)).
    { clear. induction l as [|k l IH]; intros d Hd; [done|]. cbn. apply IH. by destruct Hd. }
    by apply Hfold.
  - unfold Display.load. by rewrite Hg.
  - intros a. eexists. split; [unfold readStoredPrefs; by rewrite Hg|]. by vm_compute.
Qed.

Definition event_ok (e : event) : Prop := match e with SetDensity d => d <> "" | _ => True end.
Lemma step_inv s e : event_ok e -> inv s -> inv (step s e).
Proof.
  intros He H. pose proof H as [Ha [Hs Ht] Hl Hr Htg _ Hth Hm].
  assert (Hre : forall p, DisplayFacts.good p -> inv (rerender s p)) by (intros p Hp; by apply settings_rerender_inv; [| | |apply Hm]).
  destruct e as [d|b|b|c| | |confirmed|c a|c]; cbn [step set_display].
  - destruct (same_density (shown s) d); [done|]. apply Hre. split; [done|]. cbn in *. by destruct (String.eqb_spec d "").
  - destruct (Bool.eqb _ b); [done|]. by apply Hre.
  - destruct (Bool.eqb _ b); [done|]. by apply Hre.
  - by apply toggle_inv.
  - by apply press_inv.
  - by apply press_inv.
  - by apply clear_inv.
  - unfold set_wallet. destruct (Bool.eqb _ _ && _); [done|]. apply remount_inv; try done. by apply Hm.
  - destruct H. by constructor.
Qed.

Lemma settings_offers answer s es : act (view answer s) es -> Forall event_ok es.
Proof.
  intros H. eapply act_fires; [exact H|]. unfold view, NotificationsSection, ThemeToggleView.view, when_some, when.
  destruct (bt_mounted (bar s)) eqn:Hb, (bt_mounted (own s)) eqn:Ho, (account s), (toggles s), (connected s); cbn; rewrite ?Hb, ?Ho; cbn;
  repeat constructor; done.
Qed.

(** One turn of the page, whatever the browser answers to a question of the wipe. *)
Definition page_turn (s s' : state) : Prop := exists answer, turn (view answer) step outside s s'.

Lemma turns_inv s s' : rtc page_turn s s' -> inv s -> inv s'.
Proof.
  induction 1 as [|s1 s2 s3 [answer Ht] _ IH]; [done|]. intros Hi. apply IH. clear IH. destruct Ht as [s es Ha|s e Ho].
  - apply settings_offers in Ha. revert s Hi. induction Ha as [|e es He _ IH]; intros s Hi; [done|]. cbn. by apply IH, step_inv.
  - apply step_inv; [|done]. by destruct e.
Qed.

(** C17: whatever is done on the settings page, with any wallets, the toggles shown are those stored
    for the connected wallet and nothing without one, the document carries the display
    preferences shown, a reload shows the same, and one of the two theme buttons shows the
    theme of the document. *)
Theorem settings_page_shows_what_is_stored d m dc r c a s (Ha : available d)
  (Hd : DisplayFacts.good (Display.load d Display.defaults)) (Ht : togglable d)
  (Hr : rtc page_turn (mount d m dc r c a) s) :
  toggles s = read_toggles s /\
  root s = Display.publish (shown s) /\
  (forall m' dc' r' c' a', shown (mount (disk s) m' dc' r' c' a') = shown s /\
     toggles (mount (disk s) m' dc' r' (connected s) (address s)) = toggles s) /\
  (shows (bar s) (doc s) \/ shows (own s) (doc s)).
Proof.
  pose proof (turns_inv _ _ Hr (settings_mount_inv d m dc r c a Ha Hd Ht)) as Hi. split; [apply Hi|]. split; [apply Hi|]. split; [|apply Hi].
  intros m' dc' r' c' a'. split; [exact (i_stored s Hi)|].
  assert (Hi' : inv (mount (disk s) m' dc' r' (connected s) (address s))).
  { apply settings_mount_inv; [apply Hi| |apply Hi]. rewrite (i_stored s Hi). apply Hi. }
  rewrite (i_toggles _ Hi'), (i_toggles _ Hi). apply read_toggles_same; [done|done|]. intros b.
  unfold mount, rerender, sync. cbn [disk remount with_shown Display.sync Display.store Display.shown].
  pose proof (store_json_available (disk s) Display.DISPLAY_KEY (Display.prefs_value Display.defaults) (i_available s Hi)) as Hav.
  rewrite save_prefs by exact Hav. by rewrite save_prefs by apply Hi.
Qed.

(** Either button flips the theme of the document, and shows it; the other one, and so one of
    the two, does not until the page renders again. *)
Lemma two_theme_buttons_disagree b s : dark (doc (press b s)) = negb (dark (doc s)) /\
  (shows (bar s) (doc s) -> shows (own s) (doc s) ->
   shows (if b then bar (press b s) else own (press b s)) (doc (press b s)) /\
   ~ shows (if b then own (press b s) else bar (press b s)) (doc (press b s))).
Proof.
  split; [by destruct b; cbn; destruct (dark (doc s))|]. intros [Hb Hbm] [Ho Hom]. unfold press, shows.
  destruct b; cbn; rewrite ?Hbm, ?Hom; (split; [done|]); intros [Hd _]; revert Hd; rewrite ?Hb, ?Ho; cbn;
  [rewrite Hb in Ho; destruct (bt_theme (own s)), (bt_theme (bar s))|rewrite Ho in Hb; destruct (bt_theme (own s)), (bt_theme (bar s))]; done.
Qed.

(** Changing a display preference with the keyboard loses the focus: its control is replaced. *)
Lemma display_change_drops_the_focus s e : set_display s e <> s -> focus (set_display s e) = None \/ focus s = Some BarTheme.
Proof.
  destruct e; cbn [set_display]; try done;
  (case_match; [done|]); intros _; cbn; destruct (focus s) as [[]|]; auto.
Qed.
Lemma toggling_animations_drops_the_focus s : focus s = Some AnimationsBox ->
  focus (step s (SetAnimations (negb (Display.animations (shown s))))) = None.
Proof. intros H. cbn. by destruct (Display.animations (shown s)); cbn; rewrite H. Qed.

(** A toggle that cannot be stored is shown until the next render of the page, which undoes it. *)
Lemma unstored_toggle_is_undone s c p : writable (disk s) = (fun _ _ => false) -> toggles s = read_toggles s ->
  toggles (rerender (toggle s c) p) = toggles s.
Proof.
  intros Hw Hts. assert (Hd : disk (toggle s c) = disk s /\ connected (toggle s c) = connected s /\ address (toggle s c) = address s).
  { unfold toggle. destruct (account s) as [a|]; [|done]. destruct (toggles s) as [q|]; [|done].
    unfold Toggles.toggleCategory. cbn [Toggles.prefs Toggles.store Toggles.address].
    destruct (member q c) as [v|]; [|done]. cbn [mbind result_bind disk Toggles.store connected address].
    split; [|done]. unfold store_json, setItem_safe, setItem. rewrite Hw. by repeat case_match. }
  destruct Hd as (Hd & Hc & Ha). rewrite Hts. cbn. symmetry. apply read_toggles_same; [done|done|]. intros b. by rewrite <- Hd.
Qed.
End SettingsFacts.

(** ** Witness *)
Lemma settings_page_shows_what_is_stored_witness :
  let s := Settings.step (Settings.mount empty_storage None (applyTheme Dark) (Display.publish Display.defaults) false None)
             (Settings.Wallet true (Some "GA")) in
  Settings.toggles s = Some default_prefs.
Proof.
  cbn zeta. set (s := Settings.step _ _).
  assert (Hr : rtc SettingsFacts.page_turn
    (Settings.mount empty_storage None (applyTheme Dark) (Display.publish Display.defaults) false None) s)
    by (apply rtc_once; exists true; by apply by_outside).
  assert (Ht : ToggleFacts.togglable empty_storage) by (intros a; eexists; split; [reflexivity|vm_compute; reflexivity]).
  rewrite (proj1 (SettingsFacts.settings_page_shows_what_is_stored empty_storage None (applyTheme Dark)
    (Display.publish Display.defaults) false None s empty_available ltac:(split; reflexivity)
    Ht Hr)).
  vm_compute. reflexivity.
Defined.
