(* ===== verification/Console.v ===== *)
(** * The invoice card and the consoles it is in ([components/invoice/InvoiceCard.tsx],
      [app/dashboard/page.tsx], [app/marketplace/page.tsx])

    The markup of the card, with the events its controls send, and the console beside the
    table of the dashboard and of the marketplace: the invoice selected and the card that
    shows it.  The card of the dashboard is keyed by the invoice, so another selection mounts
    another card; the marketplace keeps one card for all selections.  [InvoiceViews.Card] is
    the state of a card and its handlers.  The exit transition of framer-motion, which keeps the
    card that is replaced for an instant, is left out: the model replaces it at once. *)

From S2P Require Import Prelude JsNumber JsString JsValue SdkTypes Assets InvoiceViews InvoiceDisplay Markup.
Local Open Scope Z_scope.

(** ** The card *)
Module CardMarkup.
Inductive press :=
  | OpenInvoice | CopyId | CopyBuyer
  | ShowForm (b : bool) | Input (text : string) | SubmitTerms
  | Press (o : Offer).
#[export] Instance press_eq_dec : EqDecision press.
Proof. solve_decision. Defined.

(** What a render knows: the props, the stores and the state. *)
Record props := {
  p_view : View; p_texts : CardView; p_card : Card.state; p_isVerified : bool;
  p_copiedId : bool; p_copiedBuyer : bool; p_selectable : bool; p_inputId : string }.
Definition busy (p : props) : bool := Card.loading (p_card p) || negb (p_isVerified p).

Definition copy_button (label : string) (copied : bool) (e : press) : node press :=
  El "button" [StopClick; OnClick [e]; A "aria-label" label] [Icon (if copied then "Check" else "Copy")].
Definition title_row (p : props) : node press :=
  El "div" []
    [El "div" []
       [El "div" [] [El "span" [] [Txt (cv_title (p_texts p))]; copy_button "Copy invoice ID" (p_copiedId p) CopyId];
        El "h3" [] [Txt "Invoice obligation"]];
     El "div" []
       [El "span" [A "aria-label" (cv_badge (p_texts p)).2] [Txt (cv_badge (p_texts p)).1];
        El "span" [A "aria-label" (status_label (v_status (p_view p)))] [Txt (cv_status (p_texts p))]]].
Definition figures (p : props) : node press :=
  El "div" []
    [El "div" [] [El "span" [] [Txt "Face Value"]; El "span" [] [Txt (cv_faceValue (p_texts p))]];
     El "div" [] [El "span" [] [Txt "Discount Rate"]; El "span" [] [Txt (cv_discount (p_texts p))]]].
Definition details (p : props) : node press :=
  El "div" []
    [El "div" []
       [El "span" [] [Txt "Buyer Address:"];
        El "div" [] [El "span" [] [Txt (cv_buyer (p_texts p))]; copy_button "Copy buyer address" (p_copiedBuyer p) CopyBuyer]];
     El "div" [] [El "span" [] [Icon "Calendar"; Txt " Due Date:"]; El "span" [] [Txt (cv_dueDate (p_texts p))]];
     when_some (cv_dueStatus (p_texts p)) (fun s =>
       El "div" [] [El "span" [] [Icon "Clock"; Txt " Due Status:"]; El "span" [] [Txt s]])].
Definition funding (p : props) : node press :=
  when_some (cv_funded (p_texts p)) (fun f =>
    El "div" []
      [El "div" [] [El "span" [] [Txt "Funded liquidity:"]; El "span" [] [Txt f.1]];
       when_some f.2 (fun d => El "div" [] [El "span" [] [Txt "Liquidity timestamp:"]; El "span" [] [Txt d]])]).
Definition error_box (p : props) : node press :=
  when (opt_str_truthy (Card.error (p_card p)))
    (El "div" [A "role" "alert"] [Icon "ShieldAlert"; El "span" [] [Txt (default "" (Card.error (p_card p)))]]).

(** The button of an action; its handler returns at once without verification. *)
Definition offer_button (p : props) (o : Offer) : node press :=
  El "button"
    [OnClick (if p_isVerified p then [match o with ListTerms => ShowForm true | _ => Press o end] else []);
     Flag "disabled" (busy p)] [Txt (card_button (Card.loading (p_card p)) o)].
Definition list_form (p : props) : node press :=
  when (Card.showListForm (p_card p))
    (El "div" []
      [El "div" []
         [El "label" [A "htmlFor" (p_inputId p)] [Txt "Discount Basis Points (e.g. 200 = 2.00%, max 5,000 = 50%)"];
          El "input" [A "id" (p_inputId p); A "type" "number"; A "min" "1"; A "max" "5000"; A "step" "1";
                      A "value" (Card.discountBpsInput (p_card p)); OnChange Input; Flag "disabled" (negb (p_isVerified p))] []];
       El "div" []
         [El "button" [OnClick [ShowForm false]] [Txt "Cancel"];
          El "button" [OnClick [SubmitTerms]; Flag "disabled" (busy p)]
            [Txt (if Card.loading (p_card p) then "SUBMITTING..." else "LIST TERMS")]]]).
(** The listing button comes before its form, the others after it. *)
Definition actions (p : props) : node press :=
  when (Card.showActions (p_view p))
    (El "div" [StopClick]
      ([when (negb (p_isVerified p))
          (El "div" [] [Icon "ShieldAlert"; El "span" [] [Txt "Verification required to execute smart contract operations."]])] ++
       map (offer_button p) (List.filter (fun o => bool_decide (o = ListTerms)) (Card.offers (p_view p))) ++
       [list_form p] ++
       map (offer_button p) (List.filter (fun o => negb (bool_decide (o = ListTerms))) (Card.offers (p_view p))))).
Definition view (p : props) : node press :=
  El "div" [OnClick (if p_selectable p then [OpenInvoice] else [])]
    [title_row p; figures p; details p; funding p; error_box p; actions p].
End CardMarkup.

(** ** Properties of the card *)
Module CardMarkupFacts.
Import CardMarkup.

Lemma offer_click p o es : es ∈ clicks (offer_button p o) ->
  es = [] \/ (busy p = false /\ es = [match o with ListTerms => ShowForm true | _ => Press o end]).
Proof.
  unfold offer_button. destruct (busy p) eqn:Hb, (p_isVerified p) eqn:Hv; intros H; cbn in H; in_cases H; auto;
  unfold busy in Hb; rewrite Hv, orb_true_r in Hb; done.
Qed.
Lemma form_click p es : es ∈ clicks (list_form p) ->
  es = [] \/ (Card.showListForm (p_card p) = true /\ (es = [ShowForm false] \/ (busy p = false /\ es = [SubmitTerms]))).
Proof.
  unfold list_form, when. destruct (Card.showListForm (p_card p)), (busy p), (p_isVerified p); intros H; cbn in H; in_cases H; auto 6.
Qed.

Lemma title_click p es b : (es, b) ∈ bubbling (title_row p) -> (es = [] /\ b = false) \/ (es = [CopyId] /\ b = true).
Proof. intros H. cbn in H. in_cases H; auto. Qed.
Lemma details_click p es b : (es, b) ∈ bubbling (details p) -> (es = [] /\ b = false) \/ (es = [CopyBuyer] /\ b = true).
Proof. unfold details, when_some. destruct (cv_dueStatus (p_texts p)); intros H; cbn in H; in_cases H; auto. Qed.
Lemma texts_inert p : inert (figures p) /\ inert (funding p) /\ inert (error_box p).
Proof.
  unfold funding, error_box, when, when_some. destruct (cv_funded (p_texts p)) as [[f [d|]]|], (opt_str_truthy _);
  repeat split; repeat constructor; done.
Qed.

(** What one action on the card can be, with what it needs. *)
Definition card_offers (p : props) (es : list press) : Prop :=
  es = [] \/ (es = [OpenInvoice] /\ p_selectable p = true) \/ es = [CopyId] \/ es = [CopyBuyer] \/
  (Card.showActions (p_view p) = true /\
   ((exists o, o ∈ Card.offers (p_view p) /\ busy p = false /\ es = [match o with ListTerms => ShowForm true | _ => Press o end]) \/
    (Card.showListForm (p_card p) = true /\
     (es = [ShowForm false] \/ (busy p = false /\ es = [SubmitTerms]) \/
      (exists t, es = [Input t] /\ p_isVerified p = true))))).

Lemma actions_click p es b : (es, b) ∈ bubbling (actions p) -> b = true /\ card_offers p es.
Proof.
  unfold actions, when. destruct (Card.showActions (p_view p)) eqn:Hs; [|intros H; cbn in H; in_cases H].
  intros [_ [[-> ->]|(k & es1 & b1 & Hk & Hb & E)]]%click_el; [split; [done|by left]|].
  assert (b = true /\ es = es1) as [-> ->] by (destruct b1; injection E as -> ->; by rewrite ?app_nil_r). split; [done|].
  assert (Hc : es1 ∈ clicks k) by (apply list_elem_of_fmap; by exists (es1, b1)).
  rewrite !elem_of_app in Hk. destruct Hk as [Hk|[Hk|[Hk|Hk]]].
  - apply list_elem_of_singleton in Hk as ->. left. destruct (negb (p_isVerified p)); cbn in Hc; in_cases Hc; done.
  - apply list_elem_of_fmap in Hk as (o & -> & Ho). apply list_elem_of_In, filter_In in Ho as [Ho%list_elem_of_In _].
    apply offer_click in Hc as [->|[Hb1 ->]]; [by left|]. do 4 right. split; [done|]. left. by exists o.
  - apply list_elem_of_singleton in Hk as ->. apply form_click in Hc as [->|[Hf Hc]]; [by left|].
    do 4 right. split; [done|]. right. split; [done|]. tauto.
  - apply list_elem_of_fmap in Hk as (o & -> & Ho). apply list_elem_of_In, filter_In in Ho as [Ho%list_elem_of_In _].
    apply offer_click in Hc as [->|[Hb1 ->]]; [by left|]. do 4 right. split; [done|]. left. by exists o.
Qed.

Lemma card_clicks p es : es ∈ clicks (view p) -> card_offers p es.
Proof.
  assert (Hopen : forall l, l = (if p_selectable p then [OpenInvoice] else []) -> card_offers p l).
  { intros l ->. unfold card_offers. destruct (p_selectable p); auto. }
  destruct (texts_inert p) as (Hf & Hu & He). intros ([es' b] & -> & Hb)%list_elem_of_fmap. cbn [fst].
  apply click_el in Hb as [_ [[-> _]|(k & es1 & b1 & Hk & Hb & E)]]; [apply Hopen; cbn; by rewrite !app_nil_r|].
  cbn in E. rewrite app_nil_r in E.
  assert (Hplain : es1 = [] -> b1 = false -> card_offers p es').
  { intros -> ->. apply Hopen. by injection E as -> _. }
  rewrite !elem_of_cons in Hk. destruct Hk as [->|[->|[->|[->|[->|[->|[]%not_elem_of_nil]]]]]].
  - apply title_click in Hb as [[-> ->]|[-> ->]]; [auto|]. injection E as -> _. unfold card_offers; auto.
  - destruct (inert_click _ _ _ Hf Hb) as [-> ->]. auto.
  - apply details_click in Hb as [[-> ->]|[-> ->]]; [auto|]. injection E as -> _. unfold card_offers; auto.
  - destruct (inert_click _ _ _ Hu Hb) as [-> ->]. auto.
  - destruct (inert_click _ _ _ He Hb) as [-> ->]. auto.
  - apply actions_click in Hb as [-> H]. by injection E as -> _.
Qed.

Lemma buttons_clicks_only p l : Forall clicks_only (map (offer_button p) l).
Proof.
  apply list.Forall_fmap, list.Forall_forall. intros o _. unfold compose, offer_button.
  apply live_all; [repeat constructor|]. by repeat constructor.
Qed.
Lemma flat_fields_nil (l : list (node press)) : Forall clicks_only l -> flat_map input_fields l = [].
Proof. induction 1 as [|n l Hn _ IH]; [done|]. cbn. by rewrite clicks_only_fields, IH. Qed.
Lemma texts_clicks_only p : Forall clicks_only [title_row p; figures p; details p; funding p; error_box p].
Proof.
  unfold details, funding, error_box, when, when_some.
  destruct (cv_dueStatus (p_texts p)), (cv_funded (p_texts p)) as [[f [d|]]|], (opt_str_truthy _); repeat constructor.
Qed.
Lemma form_fields p : input_fields (list_form p) =
  if Card.showListForm (p_card p) && p_isVerified p then [Types Input] else [].
Proof.
  unfold list_form, when. destruct (Card.showListForm (p_card p)); [|done]. unfold busy.
  by destruct (p_isVerified p) eqn:Hv, (Card.loading (p_card p)) eqn:Hl; cbn; rewrite ?Hv, ?Hl.
Qed.
Lemma card_fields p fd : fd ∈ input_fields (view p) ->
  fd = Types Input /\ Card.showActions (p_view p) = true /\ Card.showListForm (p_card p) = true /\ p_isVerified p = true.
Proof.
  unfold view. rewrite input_fields_el.
  assert (fields_of ("div", [OnClick (if p_selectable p then [OpenInvoice] else [])],
    [title_row p; figures p; details p; funding p; error_box p; actions p]) = []) as -> by done.
  pose proof (texts_clicks_only p) as Ht. rewrite !list.Forall_cons in Ht. destruct Ht as (H1 & H2 & H3 & H4 & H5 & _).
  cbn [flat_map app]. rewrite !clicks_only_fields by done. cbn [app]. rewrite app_nil_r.
  unfold actions, when. destruct (Card.showActions (p_view p)); [|by intros ?%not_elem_of_nil].
  rewrite input_fields_el, !flat_map_app. rewrite (flat_fields_nil _ (buttons_clicks_only p _)).
  rewrite (flat_fields_nil _ (buttons_clicks_only p _)). cbn [flat_map]. rewrite form_fields.
  assert (input_fields (if negb (p_isVerified p) then
      El "div" [] [Icon "ShieldAlert"; El "span" [] [Txt "Verification required to execute smart contract operations."]]
      else Frag []) = ([] : list (control press))) as -> by (by destruct (p_isVerified p)).
  destruct (Card.showListForm (p_card p)), (p_isVerified p); cbn; intros H; in_cases H; done.
Qed.
Lemma card_formless p : formless (view p).
Proof.
  apply live_all; [repeat constructor|]. pose proof (texts_clicks_only p) as Ht. rewrite !list.Forall_cons in Ht.
  destruct Ht as (H1 & H2 & H3 & H4 & H5 & _). rewrite !list.Forall_cons.
  repeat split; try (by apply clicks_only_formless); try done.
  unfold actions, when. destruct (Card.showActions (p_view p)); [|constructor]. apply live_all; [repeat constructor|].
  pose proof (fun l => buttons_clicks_only p l) as Hb.
  assert (Hl : forall l, Forall (fun k => formless k) (map (offer_button p) l)).
  { intros l. eapply list.Forall_impl; [apply Hb|]. intros k. apply clicks_only_formless. }
  rewrite !Forall_app. repeat split; [|apply Hl| |apply Hl]; apply list.Forall_singleton.
  - destruct (negb _); repeat constructor.
  - unfold list_form, when. destruct (Card.showListForm (p_card p)); [|constructor].
    destruct (busy p) eqn:Hb1, (p_isVerified p) eqn:Hv; cbn; rewrite ?Hb1, ?Hv; cbn; repeat constructor.
Qed.

Lemma card_offers_one p es : card_offers p es -> one (fun _ => True) es.
Proof. unfold card_offers. intros H. destruct (decide (es = [])) as [->|]; [by left|]. right. naive_solver. Qed.

Lemma card_act p es : act (view p) es -> card_offers p es.
Proof.
  intros [es' H|f v H|l e H He].
  - apply card_clicks. by apply (formless_clicks _ _ (card_formless p)).
  - apply card_fields in H as (E & Hs & Hf & Hv). injection E as ->. do 4 right. split; [done|]. right. split; [done|].
    right. right. by exists v.
  - by apply card_fields in H as [E _].
Qed.

(** One action on a card sends what its control is for and nothing else: a copy or an action
    never opens the invoice as well, an action is one of those offered for the status and the
    role, and none can be started while one runs or before the wallet is verified. *)
Theorem card_actions p es : act (view p) es -> card_offers p es /\ one (fun _ => True) es.
Proof. intros H%card_act. split; [exact H|by eapply card_offers_one]. Qed.
End CardMarkupFacts.

(** ** The console *)
Module Console.
(** A mounted card: [k_id] is the invoice it was mounted for, [k_inst] tells it from others. *)
Record card := { k_inst : nat; k_id : string; k_state : Card.state }.
(** [keyed]: the card of the dashboard has the id of the invoice as its key.  [rows] is what
    the table shows, the last answer of its query. *)
Record state := { keyed : bool; selected : option Invoice; mounted : option card; next : nat; rows : list Invoice }.
Definition initial (keyed : bool) : state := {| keyed := keyed; selected := None; mounted := None; next := 0; rows := [] |}.

Definition fresh (n : nat) (i : Invoice) : card := {| k_inst := n; k_id := inv_id i; k_state := Card.initial |}.
(** The card of the next render: the same one where React finds it at the same place under
    the same key. *)
Definition reconcile (s : state) (i : Invoice) : option card :=
  match mounted s with
  | Some c => if negb (keyed s) || String.eqb (k_id c) (inv_id i) then Some c else Some (fresh (next s) i)
  | None => Some (fresh (next s) i)
  end.
Definition select (s : state) (i : Invoice) : state :=
  {| keyed := keyed s; selected := Some i; mounted := reconcile s i; next := S (next s); rows := rows s |}.
Definition clear (s : state) : state :=
  {| keyed := keyed s; selected := None; mounted := None; next := next s; rows := rows s |}.
Definition with_card (s : state) (c : card) : state :=
  {| keyed := keyed s; selected := selected s; mounted := Some c; next := next s; rows := rows s |}.

(** A setter called by a handler of the card [inst], whenever its call returns, and what is
    typed into the card shown. *)
Inductive event :=
  | Select (i : Invoice) | Clear | Refetch (answer : list Invoice)
  | Set_ (inst : nat) (e : Card.Ev) | Type_ (text : string).
Definition typed (c : Card.state) (text : string) : Card.state :=
  {| Card.loading := Card.loading c; Card.error := Card.error c; Card.discountBpsInput := text; Card.showListForm := Card.showListForm c |}.
Definition step (s : state) (e : event) : state :=
  match e with
  | Select i => select s i
  | Clear => clear s
  | Refetch answer => {| keyed := keyed s; selected := selected s; mounted := mounted s; next := next s; rows := answer |}
  | Set_ inst e =>
      match mounted s with
      | Some c => if (k_inst c =? inst)%nat
                  then with_card s {| k_inst := k_inst c; k_id := k_id c; k_state := Card.apply (k_state c) e |} else s
      | None => s
      end
  | Type_ text =>
      match mounted s with
      | Some c => with_card s {| k_inst := k_inst c; k_id := k_id c; k_state := typed (k_state c) text |}
      | None => s
      end
  end.

(** What the card in the console offers. *)
Definition card_view_of (address : option string) (role : option ViewRole) (overdue : bool) (i : Invoice) (c : Card.state) : View :=
  {| v_address := address; v_role := role; v_status := inv_status i; v_overdue := overdue;
     v_buyerConfirmed := inv_buyerConfirmed i; v_showListForm := Card.showListForm c |}.
Definition offers (address : option string) (role : option ViewRole) (overdue : bool) (s : state) : list Offer :=
  match selected s, mounted s with
  | Some i, Some c => Card.offers (card_view_of address role overdue i (k_state c))
  | _, _ => []
  end.
(** The invoice the listing form of the console would list: it is there whatever the status. *)
Definition listed_by_form (address : option string) (s : state) : option Invoice :=
  match selected s, mounted s with
  | Some i, Some c => if opt_str_truthy address && Card.showListForm (k_state c) then Some i else None
  | _, _ => None
  end.
End Console.

Module ConsoleFacts.
Import Console.

(** The card is there with a selection, has a number that was given out, and with keys it was
    mounted for the invoice selected. *)
Record inv (s : state) : Prop := {
  ci_both : mounted s = None <-> selected s = None;
  ci_next : forall c, mounted s = Some c -> (k_inst c < next s)%nat;
  ci_keyed : keyed s = true -> forall c i, mounted s = Some c -> selected s = Some i -> k_id c = inv_id i }.

Lemma console_initial_inv k : inv (initial k).
Proof. constructor; done. Qed.
Lemma console_step_inv s e : inv s -> inv (step s e).
Proof.
  intros [Hb Hn Hk]. destruct e as [i| |answer|inst e|text]; cbn [step].
  - unfold select, reconcile. destruct (mounted s) as [c|] eqn:Hm.
    + destruct (keyed s) eqn:Ek, (String.eqb_spec (k_id c) (inv_id i)); cbn; constructor; cbn; try done;
      try (intros c' [= <-]; cbn; specialize (Hn c eq_refl); lia); intros _ c' i' [= <-] [= <-]; done.
    + constructor; cbn; [done|intros c [= <-]; cbn; lia|]. by intros _ c i' [= <-] [= <-].
  - constructor; done.
  - constructor; done.
  - destruct (mounted s) as [c|] eqn:Hm; [|by constructor; rewrite ?Hm].
    destruct (k_inst c =? inst)%nat; [|by constructor; rewrite ?Hm]. constructor; cbn.
    + split; [done|]. intros H. by apply Hb in H.
    + intros c' [= <-]. cbn. by apply Hn.
    + intros H c' i [= <-] Hi. cbn. by apply (Hk H).
  - destruct (mounted s) as [c|] eqn:Hm; [|by constructor; rewrite ?Hm]. constructor; cbn.
    + split; [done|]. intros H. by apply Hb in H.
    + intros c' [= <-]. cbn. by apply Hn.
    + intros H c' i [= <-] Hi. cbn. by apply (Hk H).
Qed.
Lemma run_inv es : forall s, inv s -> inv (foldl step s es).
Proof. induction es as [|e es IH]; intros s H; [done|]. cbn. by apply IH, console_step_inv. Qed.
Lemma run_keyed es : forall s, keyed (foldl step s es) = keyed s.
Proof.
  induction es as [|e es IH]; intros s; [done|]. cbn [foldl]. rewrite IH.
  destruct e; cbn [step]; try done; unfold with_card; by repeat case_match.
Qed.
Lemma run_next es : forall s, (next s <= next (foldl step s es))%nat.
Proof.
  induction es as [|e es IH]; intros s; [done|]. cbn [foldl]. etransitivity; [|apply IH].
  destruct e; cbn [step]; unfold with_card; repeat case_match; cbn; lia.
Qed.

(** Once another card is mounted, the old one never comes back. *)
Lemma replaced_card_is_gone inst es : forall s, inv s ->
  (forall c, mounted s = Some c -> k_inst c <> inst) -> (inst < next s)%nat ->
  forall c, mounted (foldl step s es) = Some c -> k_inst c <> inst.
Proof.
  induction es as [|e es IH]; intros s Hi Hne Hlt; [done|]. cbn [foldl]. apply IH.
  - by apply console_step_inv.
  - destruct e as [i| |answer|j e|text]; cbn [step]; try done.
    + unfold select, reconcile. cbn. destruct (mounted s) as [c|] eqn:Hm.
      * destruct (negb (keyed s) || _); intros c' [= <-]; [by apply Hne|cbn; lia].
      * intros c' [= <-]. cbn. lia.
    + destruct (mounted s) as [c|] eqn:Hm; [|by rewrite Hm]. destruct (k_inst c =? j)%nat; [|by rewrite Hm].
      intros c' [= <-]. cbn. by apply Hne.
    + destruct (mounted s) as [c|] eqn:Hm; [|by rewrite Hm]. intros c' [= <-]. cbn. by apply Hne.
  - pose proof (run_next [e] s) as H. cbn in H. lia.
Qed.

(** C36: in the console of the dashboard the error, the progress and the form shown belong to the
    invoice shown: the card was mounted for it, and what a handler of the card of another
    invoice reports, however late, changes nothing. *)
Theorem dashboard_console_is_of_the_invoice es c i :
  mounted (foldl step (initial true) es) = Some c -> selected (foldl step (initial true) es) = Some i ->
  k_id c = inv_id i /\
  forall j, inv_id j <> inv_id i ->
    let s := step (foldl step (initial true) es) (Select j) in
    (exists c', mounted s = Some c' /\ k_state c' = Card.initial /\ k_id c' = inv_id j) /\
    forall es' e, step (foldl step s es') (Set_ (k_inst c) e) = foldl step s es'.
Proof.
  intros Hm Hs. set (s0 := foldl step (initial true) es) in *.
  assert (Hi : inv s0) by apply run_inv, console_initial_inv. assert (Hk : keyed s0 = true) by apply run_keyed.
  split; [by apply (ci_keyed s0 Hi Hk)|]. intros j Hj s.
  assert (Hc : k_id c = inv_id i) by (by apply (ci_keyed s0 Hi Hk)).
  assert (Hs' : mounted s = Some (fresh (next s0) j)).
  { unfold s. cbn. unfold reconcile. rewrite Hm, Hk. cbn. destruct (String.eqb_spec (k_id c) (inv_id j)) as [E|]; [congruence|done]. }
  split.
  - exists (fresh (next s0) j). done.
  - intros es' e. assert (Hgone : forall c', mounted (foldl step s es') = Some c' -> k_inst c' <> k_inst c).
    { apply replaced_card_is_gone.
      - by apply console_step_inv.
      - rewrite Hs'. intros c' [= <-]. cbn. pose proof (ci_next s0 Hi c Hm). lia.
      - unfold s. cbn. pose proof (ci_next s0 Hi c Hm). lia. }
    cbn [step]. destruct (mounted (foldl step s es')) as [c'|] eqn:E; [|done].
    destruct (Nat.eqb_spec (k_inst c') (k_inst c)) as [H|]; [by apply (Hgone c') in H|done].
Qed.

(** The card of the marketplace stays when another invoice is selected: what failed for the
    first is shown at the second, also when it fails later, and a form opened for the first
    lists the second, whatever its status. *)
Lemma marketplace_card_carries_over a b m address : opt_str_truthy address = true ->
  let s := foldl step (initial false)
             [Select a; Set_ 0 (Card.SetShowListForm true); Select b; Set_ 0 (Card.SetError (Some m))] in
  selected s = Some b /\ (exists c, mounted s = Some c /\ k_id c = inv_id a /\ Card.error (k_state c) = Some m) /\
  listed_by_form address s = Some b.
Proof. intros H. split; [done|]. split; [by eexists|]. unfold listed_by_form. cbn. by rewrite H. Qed.
Lemma dashboard_card_does_not a b m address : inv_id a <> inv_id b ->
  let s := foldl step (initial true)
             [Select a; Set_ 0 (Card.SetShowListForm true); Select b; Set_ 0 (Card.SetError (Some m))] in
  selected s = Some b /\ mounted s = Some (fresh 1 b) /\ listed_by_form address s = None.
Proof.
  intros H. apply String.eqb_neq in H. unfold listed_by_form. cbn. unfold reconcile. cbn. rewrite !H. cbn. rewrite !H. cbn.
  split; [done|]. split; [done|]. by rewrite andb_false_r.
Qed.

(** Both consoles keep the invoice as it was when it was selected: after an action has
    succeeded and the table shows the new status, the card offers what it offered before. *)
Lemma console_keeps_the_old_status k a answer address role overdue : opt_str_truthy address = true ->
  inv_status a = Created -> role = Some IssuerView ->
  let s := foldl step (initial k) [Select a; Set_ 0 (Card.SetShowListForm true); Set_ 0 (Card.SetShowListForm false); Refetch answer] in
  rows s = answer /\ selected s = Some a /\ offers address role overdue s = [ListTerms].
Proof.
  intros Ha Hs ->. split; [by destruct k|]. split; [by destruct k|]. unfold offers. cbn.
  unfold Card.offers, Card.showActions, is_status, is_role. cbn. by rewrite Ha, Hs.
Qed.
End ConsoleFacts.

(** ** Witnesses *)
Definition sample_props : CardMarkup.props :=
  {| CardMarkup.p_view := {| v_address := Some "GA"; v_role := Some LpView; v_status := Listed; v_overdue := false;
                             v_buyerConfirmed := false; v_showListForm := false |};
     CardMarkup.p_texts := {| cv_title := "INV#1"; cv_badge := ("Unverified", "Verification: Unverified"); cv_status := "Listed";
                              cv_faceValue := "1.00 USDC"; cv_discount := "2.00%"; cv_buyer := "GB"; cv_dueDate := "1/1/2027";
                              cv_dueStatus := None; cv_funded := None |};
     CardMarkup.p_card := Card.initial; CardMarkup.p_isVerified := true; CardMarkup.p_copiedId := false;
     CardMarkup.p_copiedBuyer := false; CardMarkup.p_selectable := true; CardMarkup.p_inputId := "r1" |}.
Lemma card_actions_witness :
  act (CardMarkup.view sample_props) [CardMarkup.Press FundOffer] /\
  CardMarkupFacts.card_offers sample_props [CardMarkup.Press FundOffer] /\ one (fun _ => True) [CardMarkup.Press FundOffer].
Proof.
  assert (H : act (CardMarkup.view sample_props) [CardMarkup.Press FundOffer]) by (apply act_click; vm_compute; set_solver).
  split; [exact H|exact (CardMarkupFacts.card_actions _ _ H)].
Defined.
Definition sample_deal (id : string) (status : InvoiceStatus) : Invoice :=
  {| inv_id := id; inv_issuer := "GA"; inv_buyer := "GB"; inv_faceValue := 10000000; inv_asset := USDC; inv_discountBps := Num.of_Z 200;
     inv_fundedAmount := 0; inv_dueDate := Num.of_Z 1800000000; inv_status := status; inv_createdAt := Num.of_Z 1700000000;
     inv_fundedAt := None; inv_shippedAt := None; inv_issuerConfirmed := false; inv_buyerConfirmed := false;
     inv_buyerConfirmedAt := None; inv_repaidAt := None; inv_defaultedAt := None; inv_attestationAgentId := None;
     inv_riskScoreBps := None; inv_evidenceHash := None; inv_attestedAt := None |}.
Lemma dashboard_console_is_of_the_invoice_witness :
  let a := sample_deal "a" Created in let s := Console.step (foldl Console.step (Console.initial true) [Console.Select a]) (Console.Select (sample_deal "b" Listed)) in
  (exists c', Console.mounted s = Some c' /\ Console.k_state c' = Card.initial /\ Console.k_id c' = "b") /\
  forall es' e, Console.step (foldl Console.step s es') (Console.Set_ 0 e) = foldl Console.step s es'.
Proof.
  exact (proj2 (ConsoleFacts.dashboard_console_is_of_the_invoice [Console.Select (sample_deal "a" Created)]
    (Console.fresh 0 (sample_deal "a" Created)) (sample_deal "a" Created) eq_refl eq_refl) (sample_deal "b" Listed) ltac:(by cbn)).
Defined.
