(* ===== verification/Skeletons.v ===== *)
(** * Placeholders of content that is loading ([components/shared/SkeletonLoader.tsx])

    Each placeholder is a status region with a name around blocks that are hidden from
    assistive technology: it offers nothing, and it says nothing but its name and, in the
    table, the headings of the columns. *)

From S2P Require Import Prelude Markup.

Module Skeletons.
Section Skeletons.
Context {Ev : Type}.
Abbreviation markup := (node Ev).

(** The block; its size is a class. *)
Definition SkeletonShimmer : markup := El "div" [A "aria-hidden" "true"] [El "div" [] []].
Definition region (label : string) (kids : list markup) : markup :=
  El "div" [A "role" "status"; A "aria-busy" "true"; A "aria-label" label] kids.
Definition box (kids : list markup) : markup := El "div" [] kids.
Definition pair_ : markup := box [SkeletonShimmer; SkeletonShimmer].

Definition InvoiceCardSkeleton : markup :=
  region "Loading invoices"
    [box [pair_; SkeletonShimmer]; box [pair_; pair_]; box [pair_; pair_]; SkeletonShimmer].
Definition PoolStatsPanelSkeleton : markup :=
  region "Loading pool statistics" [box [box []; pair_]; box (replicate 4 pair_)].
Definition InvoiceFeedSkeleton : markup :=
  region "Loading recent activity" (replicate 3 (box [box [SkeletonShimmer; pair_]; pair_])).
Definition table_heads : list string := ["Invoice ID"; "Buyer"; "Face Value"; "Discount"; "Due Date"; "Status"].
Definition InvoiceTableSkeleton : markup :=
  region "Loading invoices"
    [box [El "table" []
       [El "thead" [] [El "tr" [] (map (fun h => El "th" [] [Txt h]) table_heads)];
        El "tbody" [] (replicate 5 (El "tr" [] (replicate 6 (El "td" [] [SkeletonShimmer]))))]]].
Definition LPPositionCardSkeleton : markup :=
  region "Loading your position" [pair_; box [pair_; box [pair_; pair_]]].
Definition ActivityTimelineSkeleton : markup :=
  region "Loading activity timeline"
    [box [SkeletonShimmer]; box (replicate 5 (box [pair_; SkeletonShimmer]))].

Definition all_skeletons : list markup :=
  [InvoiceCardSkeleton; PoolStatsPanelSkeleton; InvoiceFeedSkeleton; InvoiceTableSkeleton; LPPositionCardSkeleton;
   ActivityTimelineSkeleton].

(** ** Properties *)
Lemma skeletons_offer_nothing P : Forall (offers P) all_skeletons.
Proof. unfold all_skeletons. repeat apply list.Forall_cons_2; try (apply offers_inert; showing). constructor. Qed.
(** The names are all that is said, and the table has a cell for each of its headings. *)
Lemma skeletons_say : 
  map (fun n : markup => match n with El _ attrs _ => attribute "aria-label" attrs | _ => None end) all_skeletons =
    map Some ["Loading invoices"; "Loading pool statistics"; "Loading recent activity"; "Loading invoices";
              "Loading your position"; "Loading activity timeline"] /\
  flat_map texts all_skeletons = table_heads /\ forallb well_labelled all_skeletons = true /\
  Forall (fun el : string * list (attr Ev) * list markup => el.1.1 = "tr" -> length el.2 = length table_heads) (elements InvoiceTableSkeleton).
Proof. split_and!; try reflexivity. repeat constructor; done. Qed.
End Skeletons.
End Skeletons.
