(* ===== verification/TableView.v ===== *)
(** * The markup of the invoice table ([components/invoice/InvoiceTable.tsx])

    What the table renders over its rows ([InvoiceGrid.Grid]) and its pager
    ([InvoiceGrid.Pager]), with the calls of its props that its controls make.  The rows are
    there twice, as the rows of a grid and as cards for narrow screens; which of them are
    displayed is up to the style sheet.  The status in a row is given by its text.  Keys and
    the field of the page, which commits when it is left, are [InvoiceGrid]'s. *)

From S2P Require Import Prelude JsNumber JsRounding JsString SdkTypes Marketplace InvoiceTable InvoiceGrid InvoiceDisplay Markup Console.
Local Open Scope Z_scope.

Module TableView.
Import Grid.
(** The calls of the props, and what stays in the table or in one of its cards. *)
Inductive call :=
  | OpenRow (index : nat) (inv : Invoice) | OpenCard (inv : Invoice)
  | ChangeSelection (ids : list string) | EmptyAction
  | ChangePage (page : num) | ChangeLimit (limit : num)
  | TypePage (text : string) | InCard (inv : Invoice) (e : CardMarkup.press).

Section View.
Context (cells : Invoice -> list string) (card : Invoice -> CardMarkup.props).
(** The virtualiser, the roving index and the text in the field of the page. *)
Record given := {
  t_props : props Invoice; t_pagination : option Pager.props; t_title : option string; t_description : option string;
  t_action : option EmptyStateAction; t_virtual : list nat; t_start : nat -> Z; t_focused : Z; t_pageInput : string }.
Definition pageIds (g : given) : list string := map inv_id (invoices (t_props g)).

(** *** The pager *)
Definition limit_option (z : Z) : node call := El "option" [A "value" (Num.bigint_to_string z)] [Txt (Num.bigint_to_string z)].
Definition limit_select (p : Pager.props) : node call :=
  El "div" []
    [El "label" [A "htmlFor" "items-per-page-select"] [Txt "Items per page"];
     El "select" [A "id" "items-per-page-select"; A "value" (Num.bigint_to_string (Pager.limit p));
                  OnChange (fun v => ChangeLimit (Str.parse_number v))]
       (map limit_option (options (Pager.limit p) DEFAULT_PAGE_SIZES))].
Definition page_field (p : Pager.props) (text : string) : node call :=
  El "label" []
    [El "span" [] [Txt "Jump to page"];
     El "input" [A "type" "number"; A "min" "1"; A "max" (Num.to_string (Pager.totalPages p)); A "value" text; OnChange TypePage] []].
Definition page_button (p : Pager.props) (to : num) (off : bool) (label : list (node call)) : node call :=
  El "button" [A "type" "button"; OnClick [ChangePage (clampPage to (Pager.totalPages p))]; Flag "disabled" off] label.
Definition pager (p : Pager.props) (text : string) : node call :=
  El "div" []
    [El "div" []
       [limit_select p;
        El "div" []
          [page_field p text;
           El "div" []
             [El "span" [] [Txt "Navigation"];
              El "div" []
                [page_button p (Num.sub (Pager.page p) (Num.of_Z 1)) (Pager.previousDisabled p) [Icon "ChevronLeft"; Txt "Prev"];
                 page_button p (Num.add (Pager.page p) (Num.of_Z 1)) (Pager.followingDisabled p) [Txt "Next"; Icon "ChevronRight"]]]]];
     El "div" [] [El "span" [] [Txt (Pager.showing p (default 0 (Num.to_Z (Pager.page p))))]; El "span" [] [Txt (Pager.page_of p)]]].

(** *** The rows *)
Definition head (g : given) : node call :=
  El "thead" []
    [El "tr" []
       ((if selectable (t_props g) then
           [El "th" [A "scope" "col"]
              [El "input" [A "type" "checkbox"; Flag "checked" (allOnPageSelected (selection (t_props g)) (pageIds g));
                           OnToggle (fun _ => ChangeSelection (toggleAllOnPage (selection (t_props g)) (pageIds g)));
                           A "aria-label" "Select all invoices on this page"] []]]
         else []) ++
        map (fun h => El "th" [A "scope" "col"] [Txt h]) row_headings)].
(** The cell of the box keeps its clicks from the row. *)
Definition box_cell (g : given) (inv : Invoice) (checked : bool) : node call :=
  El "td" [StopClick]
    [El "input" [A "type" "checkbox"; Flag "checked" checked;
                 OnToggle (fun _ => ChangeSelection (toggleRowSelection (selection (t_props g)) (inv_id inv)));
                 A "aria-label" ("Select invoice " +:+ inv_id inv)] []].
Definition row_view (g : given) (i : nat) (inv : Invoice) (r : row) : node call :=
  El "tr"
    ([OnClick (if interactive (t_props g) then [OpenRow i inv] else []); Flag "aria-selected" (r_selected r)] ++
     match r_tabIndex r with Some z => [A "tabIndex" (Num.bigint_to_string z)] | None => [] end)
    (match r_checked r with Some b => [box_cell g inv b] | None => [] end ++ map (fun c => El "td" [] [Txt c]) (r_cells r)).
(** The virtualiser is asked for [invoices.length] rows, so its indices are those of rows. *)
Definition rows (g : given) : list (node call) :=
  omap (fun i => (fun inv => row_view g i inv (render_row inv_id cells (t_props g) (t_focused g) i (t_start g i) inv)) <$>
                 invoices (t_props g) !! i)
    (rowsToRender (t_props g) (t_virtual g)).
Definition grid (g : given) : node call :=
  El "div" [] [El "table" [A "role" "grid"; A "aria-label" "Invoice Ledger"] [head g; El "tbody" [] (rows g)]].

(** *** The cards, the empty table and the bars *)
Definition card_call (inv : Invoice) (e : CardMarkup.press) : call :=
  match e with CardMarkup.OpenInvoice => OpenCard inv | _ => InCard inv e end.
Definition cards (g : given) : node call :=
  El "div" [] (map (fun inv => lift (card_call inv) (CardMarkup.view (card inv))) (invoices (t_props g))).
Definition empty_view (e : EmptyState) : node call :=
  El "div" []
    [El "div" [] [Icon "Inbox"];
     El "div" [] [El "p" [] [Txt "Empty Ledger"]; El "h3" [] [Txt (e_title e)]; El "p" [] [Txt (e_description e)]];
     El "div" []
       [match e_link e with
        | Some href => El "a" [A "href" href] [Icon "FilePlus2"; El "span" [] [Txt (e_label e)]]
        | None => El "button" [A "type" "button"; OnClick [EmptyAction]] [Icon "FilePlus2"; El "span" [] [Txt (e_label e)]]
        end]].
Definition ledger_bar (g : given) : node call :=
  El "div" []
    [El "div" [] [El "p" [] [Icon "ReceiptText"; Txt "Invoice Ledger"];
                  El "p" [] [Txt "Browse, filter, and inspect tokenized trade obligations."]];
     when_some (matching (toolbar (t_props g) (t_pagination g))) (fun m => El "div" [] [Txt m])].
Definition selection_bar (g : given) : node call :=
  let b := toolbar (t_props g) (t_pagination g) in
  when_some (selected_text b) (fun m =>
    El "div" [A "role" "status"; A "aria-live" "polite"]
      [El "span" [] [Txt m];
       when (clear_shown b) (El "button" [A "type" "button"; OnClick [ChangeSelection clearSelection]] [Txt "Clear selection"])]).
Definition view (g : given) : node call :=
  El "div" []
    [ledger_bar g; selection_bar g;
     match invoices (t_props g) with
     | [] => El "div" [] [empty_view (InvoiceEmptyState (t_title g) (t_description g) (t_action g))]
     | _ => Frag [grid g; cards g; when_some (pager_shown (t_props g) (t_pagination g)) (fun p => pager p (t_pageInput g))]
     end].
End View.
End TableView.

(** ** Properties *)
Module TableViewFacts.
Import Grid TableView.
Section Facts.
Context (cells : Invoice -> list string) (card : Invoice -> CardMarkup.props).

(** What a table may call: its own rows when they can be opened, selections made of the current
    one, pages next to the current one where there is one. *)
Definition calls (g : given) (c : call) : Prop :=
  let p := t_props g in
  match c with
  | OpenRow i inv => interactive p = true /\ invoices p !! i = Some inv
  | OpenCard inv | InCard inv _ => inv ∈ invoices p
  | ChangeSelection ids =>
      selectable p = true /\ exists e, ids = next_selection (selection p) e /\
      match e with ToggleRow id => id ∈ pageIds g | ToggleAll ids => ids = pageIds g | Clear => selection p <> [] end
  | EmptyAction => invoices p = []
  | ChangePage n => exists pg, t_pagination g = Some pg /\
      ((Pager.previousDisabled pg = false /\ n = clampPage (Num.sub (Pager.page pg) (Num.of_Z 1)) (Pager.totalPages pg)) \/
       (Pager.followingDisabled pg = false /\ n = clampPage (Num.add (Pager.page pg) (Num.of_Z 1)) (Pager.totalPages pg)))
  | ChangeLimit l => exists pg z, t_pagination g = Some pg /\ z ∈ options (Pager.limit pg) DEFAULT_PAGE_SIZES /\
      l = Str.parse_number (Num.bigint_to_string z)
  | TypePage _ => is_Some (t_pagination g)
  end.

Lemma ledger_bar_offers P g : offers P (ledger_bar g).
Proof. unfold ledger_bar. offering. Qed.
Lemma selection_offers g : offers (calls g) (selection_bar g).
Proof.
  unfold selection_bar. cbv zeta. cbn. destruct (selectable (t_props g)) eqn:Hs; [|by apply offers_frag]. cbn.
  destruct (selection (t_props g)) as [|x l] eqn:Hl; cbn; offering;
    (split; [done|]; exists Clear; split; [done|by rewrite Hl]).
Qed.
Lemma pager_offers g pg text : t_pagination g = Some pg -> offers (calls g) (pager pg text).
Proof.
  intros Hg. unfold pager, limit_select, page_field, page_button. offering.
  - constructor; [|done]. apply list.Forall_fmap.
    assert (E : option_values (map limit_option (options (Pager.limit pg) DEFAULT_PAGE_SIZES)) =
                map Num.bigint_to_string (options (Pager.limit pg) DEFAULT_PAGE_SIZES)).
    { induction (options _ _) as [|z l IH]; [done|]. unfold option_values in *. cbn. by rewrite IH. }
    rewrite E. apply list.Forall_fmap, list.Forall_forall. intros z Hz. exists pg, z. done.
  - apply list.Forall_fmap, list.Forall_forall. intros z _. showing.
  - constructor; [|done]. intros v. cbn. by rewrite Hg.
  - exists pg. split; [done|]. left. split; [|done]. by destruct (Pager.previousDisabled pg).
  - exists pg. split; [done|]. left. split; [|done]. by destruct (Pager.previousDisabled pg).
  - exists pg. split; [done|]. right. split; [|done]. by destruct (Pager.followingDisabled pg).
  - exists pg. split; [done|]. right. split; [|done]. by destruct (Pager.followingDisabled pg).
Qed.

Lemma head_offers g : offers (calls g) (head g).
Proof.
  unfold head. offering. destruct (selectable (t_props g)) eqn:Hs; offering;
  (split; [done|]; by exists (ToggleAll (pageIds g))).
Qed.
Lemma row_offers g i inv r : invoices (t_props g) !! i = Some inv ->
  r = render_row inv_id cells (t_props g) (t_focused g) i (t_start g i) inv -> offers (calls g) (row_view g i inv r).
Proof.
  intros Hi ->. unfold row_view. cbn [r_checked r_tabIndex r_selected r_cells render_row].
  assert (Hc : Forall (guarded [] (calls g)) (map (fun c => El "td" [] [Txt c]) (cells inv))).
  { apply list.Forall_fmap, list.Forall_forall. intros c _. left. showing. }
  assert (Hone : one (calls g) (if interactive (t_props g) then [OpenRow i inv] else [])).
  { destruct (interactive (t_props g)) eqn:He; [right; by eexists|by left]. }
  apply offers_around.
  - destruct (interactive (t_props g)); cbn; [|by left]. exact Hone.
  - destruct (interactive (t_props g)); cbn; [|by left]. exact Hone.
  - intros ks. by destruct (interactive (t_props g)).
  - by destruct (interactive (t_props g)).
  - done.
  - destruct (selectable (t_props g)) eqn:Hs; [|exact Hc]. constructor; [|exact Hc]. right. eexists _, _. split; [reflexivity|].
    split; [reflexivity|]. offering; (split; [done|]; exists (ToggleRow (inv_id inv)); split; [done|];
    apply list_elem_of_fmap; exists inv; split; [done|]; by apply list_elem_of_lookup_2 in Hi).
Qed.
Lemma rows_offer g : Forall (offers (calls g)) (rows cells g).
Proof.
  unfold rows. apply list.Forall_forall. intros n (i & _ & Hn)%list_elem_of_omap.
  destruct (invoices (t_props g) !! i) as [inv|] eqn:Hi; [|done]. injection Hn as <-. by apply row_offers.
Qed.
Lemma cards_offer g : offers (calls g) (cards card g).
Proof.
  unfold cards. offering. intros es Ha%CardMarkupFacts.card_act%CardMarkupFacts.card_offers_one.
  eapply one_mono; [|exact Ha]. by intros [] _.
Qed.
Lemma table_offers g : offers (calls g) (view cells card g).
Proof.
  unfold view. offering; [apply ledger_bar_offers|apply selection_offers|].
  destruct (invoices (t_props g)) as [|inv l] eqn:Hi.
  - unfold empty_view. offering. case_match; offering; by cbn.
  - offering.
    + unfold grid. offering; [apply head_offers|]. offering. apply rows_offer.
    + apply cards_offer.
    + apply pager_offers. unfold pager_shown in *. by rewrite Hi in *.
Qed.

(** One action on the table calls at most one of its props: ticking an invoice does not open
    it, an invoice opened is one of its rows, a selection is the current one with one change,
    and on page [a] of [t] the buttons ask for a page from 1 to [t], the page before or after. *)
Theorem table_calls_one_prop g es : act (view cells card g) es ->
  one (calls g) es /\
  forall pg a t n, t_pagination g = Some pg -> Pager.page pg = Num.of_Z a -> Pager.totalPages pg = Num.of_Z t ->
    1 <= a <= t -> t < 2 ^ 52 -> es = [ChangePage n] ->
    (1 < a /\ n = Num.of_Z (a - 1)) \/ (a < t /\ n = Num.of_Z (a + 1)).
Proof.
  intros Ha. pose proof (table_offers g es Ha) as Ho. split; [done|].
  intros pg a t n Hg Hp Ht Hat Ht52 ->. destruct Ho as [|(c & [= <-] & pg' & Hg' & Hn)]; [done|].
  rewrite Hg in Hg'. injection Hg' as <-. unfold Pager.previousDisabled, Pager.followingDisabled in Hn. rewrite Hp, Ht in Hn.
  rewrite !of_Z_leb in Hn by lia. destruct Hn as [[Hd ->]|[Hd ->]]; apply Z.leb_gt in Hd.
  - left. split; [done|]. rewrite sub_of_Z by lia. rewrite clampPage_of_Z by lia. f_equal. lia.
  - right. split; [done|]. rewrite add_of_Z by lia. rewrite clampPage_of_Z by lia. f_equal. lia.
Qed.
End Facts.
End TableViewFacts.

(** ** Witness *)
Definition sample_card (_ : Invoice) : CardMarkup.props := sample_props.
Definition sample_table : TableView.given :=
  {| TableView.t_props := {| Grid.invoices := [sample_deal "a" Listed]; Grid.activeId := None; Grid.selectable := true; Grid.selection := ["a"];
                             Grid.interactive := true |};
     TableView.t_pagination := Some {| Pager.page := Num.of_Z 2; Pager.totalPages := Num.of_Z 3; Pager.limit := 10; Pager.total := 25 |};
     TableView.t_title := None; TableView.t_description := None; TableView.t_action := None; TableView.t_virtual := [];
     TableView.t_start := fun _ => 0; TableView.t_focused := 0; TableView.t_pageInput := "2" |}.
Lemma table_calls_one_prop_witness :
  act (TableView.view (fun i => [inv_id i]) sample_card sample_table) [TableView.ChangePage (Num.of_Z 3)] /\
  TableViewFacts.calls sample_table (TableView.ChangePage (Num.of_Z 3)) /\
  ((1 < 2 /\ Num.of_Z 3 = Num.of_Z (2 - 1)) \/ (2 < 3 /\ Num.of_Z 3 = Num.of_Z (2 + 1))).
Proof.
  assert (H : act (TableView.view (fun i => [inv_id i]) sample_card sample_table) [TableView.ChangePage (Num.of_Z 3)]).
  { apply act_click, list_elem_of_In. vm_compute. tauto. }
  split; [exact H|]. destruct (TableViewFacts.table_calls_one_prop (fun i => [inv_id i]) sample_card sample_table _ H) as [Ho Hn].
  split; [by destruct Ho as [|(c & [= <-] & Hc)]|].
  exact (Hn _ 2 3 _ eq_refl eq_refl eq_refl ltac:(lia) ltac:(lia) eq_refl).
Defined.
