(* ===== verification/DetailPage.v ===== *)
(** * The page of an invoice ([app/invoice/[invoiceId]/InvoiceDetailClient.tsx] with
      [InvoiceStatus.tsx], [InvoiceStatusTimeline.tsx])

    The markup of the page over its parts: the texts of [InvoiceDisplay], the entries of
    [Timeline], the copy buttons and the export of [InvoiceViews], the actions of
    [Actions.DetailActions] and the dialog of a pending transaction.  The theorem joins it to
    [InvoiceViews.offers_follow_lifecycle]: what the page lets a user start is what the contract
    accepts. *)

From S2P Require Import Prelude JsNumber JsString JsValue SdkTypes Registration Timeline Actions InvoiceViews InvoiceDisplay.
From S2P Require Import Markup DialogViews Console.
Local Open Scope Z_scope.

Module DetailPage.
Inductive ev := CopyPress (key : Copy.CopyKey) | Export | Ask (o : Offer) | ClosePending.

(** ** The badge and the timeline *)
Definition status_icon (s : InvoiceStatus) : string :=
  match s with
  | Created => "FilePlus" | Listed => "Tag" | Funded => "Banknote" | Active => "Clock" | Confirmed => "CheckCircle2"
  | Repaid => "CheckCheck" | Defaulted => "Flame"
  end.
Definition status_badge (s : InvoiceStatus) : node ev :=
  El "span" [A "role" "status"; A "aria-label" (status_label s); A "title" (status_name s)]
    [Icon (status_icon s); El "span" [] [Txt (status_name s)]].

Definition STEP_ICONS (k : TimelineStepKey) : string :=
  match k with
  | created => "FilePlus2" | listed => "ReceiptText" | funded => "Banknote" | shipped => "Send"
  | issuerConfirmed => "PackageCheck" | buyerConfirmed => "ShieldCheck" | settled => "CheckCircle2"
  end.
Definition timeline_link (e : InvoiceTimelineEntry) : node ev :=
  match entry_link e with
  | Some (href, text) =>
      El "a" [A "href" href; A "target" "_blank"; A "rel" "noreferrer"] [El "span" [] [Txt text]; Icon "ExternalLink"]
  | None => El "span" [] [Txt "No tx hash recorded"]
  end.
(** The classes of the lines are kept: they are what tells a step that is done. *)
Definition timeline_item (n currentIndex index : nat) (e : InvoiceTimelineEntry) : node ev :=
  El "li" (if te_isCurrent e then [A "aria-current" "step"] else [])
    [El "span" [] [Txt (entry_state e)];
     when_some (line_below n currentIndex index) (fun solid => El "span" [A "class" (if solid then "border-teal-400" else "border-dashed")] []);
     El "div" []
       [when (te_isCurrent e) (El "span" [A "data-testid" "timeline-current-pulse"] []);
        El "span" [] [if te_isComplete e then Icon (STEP_ICONS (te_key e)) else El "span" [] []]];
     El "div" []
       [El "div" [] [El "div" [] [Icon (STEP_ICONS (te_key e)); El "span" [] [Txt (te_label e)]]; El "span" [] [Txt (te_timestampLabel e)]];
        El "div" [] [Icon "Clock3"; timeline_link e]]].
Definition timeline (entries : list InvoiceTimelineEntry) (currentIndex : nat) : node ev :=
  El "ol" [] (imap (timeline_item (length entries) currentIndex) entries).

(** ** The page *)
(** [d_timeline] are the entries and the index of the current one. *)
Record data := {
  d_connected : bool; d_role : ViewRole; d_invoice : Invoice; d_due : Z; d_nowMs : Z; d_dateText : num -> string;
  d_timeline : list InvoiceTimelineEntry * nat; d_copy : Copy.state; d_pdf : Pdf.state; d_invoiceUrl : string; d_actions : DetailActions.state;
  d_pending : Pending.state; d_reduceMotion : bool }.
Definition d_texts (d : data) : DetailView := detail_view (d_dateText d) (d_invoice d) (d_due d) (d_nowMs d).
Definition d_view (d : data) : View :=
  {| v_address := None; v_role := Some (d_role d); v_status := inv_status (d_invoice d); v_overdue := isOverdue (d_due d) (d_nowMs d);
     v_buyerConfirmed := inv_buyerConfirmed (d_invoice d); v_showListForm := false |}.

Definition breadcrumb (d : data) : node ev :=
  El "nav" [A "aria-label" "Breadcrumb"]
    [El "ol" []
       [El "li" [] [El "a" [A "href" "/dashboard"] [Icon "ArrowLeft"; Txt "Dashboard"]];
        El "li" [] [Icon "ChevronRight"];
        El "li" [] [El "span" [A "aria-current" "page"] [Txt (dv_heading (d_texts d))]]]].
Definition icon_of (i : CopyIcon) : string :=
  match i with CircleAlert => "CircleAlert" | InvoiceDisplay.Check => "Check" | CopyMark => "Copy" end.
Definition is_copied (d : data) (key : Copy.CopyKey) : bool :=
  match Copy.copiedKey (d_copy d), key with
  | Some Copy.Id, Copy.Id | Some Copy.IssuerAddress, Copy.IssuerAddress
  | Some Copy.BuyerAddress, Copy.BuyerAddress | Some Copy.Link, Copy.Link => true
  | _, _ => false
  end.
Definition copy_id (d : data) : node ev :=
  El "button" [A "type" "button"; OnClick [CopyPress Copy.Id]; A "aria-label" "Copy invoice ID"] [Icon (icon_of (copy_icon (d_copy d) Copy.Id))].
Definition title_block (d : data) : node ev :=
  El "div" []
    [El "div" []
       [El "div" [] [El "h1" [] [Txt "INVOICE AUDIT LEDGER"]; status_badge (inv_status (d_invoice d))];
        El "div" [] [El "span" [] [Txt "HASH: "; El "strong" [] [Txt (dv_hash (d_texts d))]]; copy_id d]];
     El "div" [] [El "span" [] [Txt "Face Value Obligations"]; El "span" [] [Txt (dv_faceValue (d_texts d))]]].
Definition party (d : data) (key : Copy.CopyKey) (title label address : string) : node ev :=
  El "div" []
    [El "div" [] [El "span" [] [Txt title]; El "span" [] [Txt address]];
     El "button" [A "type" "button"; OnClick [CopyPress key]; A "aria-label" label]
       [Icon (icon_of (copy_icon (d_copy d) key)); El "span" [] [Txt (if is_copied d key then "COPIED" else "COPY")]]].
Definition parties (d : data) : node ev :=
  El "div" []
    [El "h2" [] [Icon "Users"; Txt "Obligation Parties"];
     El "div" []
       [party d Copy.IssuerAddress "SME Issuer (Vendor)" "Copy issuer address" (dv_issuer (d_texts d));
        party d Copy.BuyerAddress "Buyer Party (Debtor)" "Copy buyer address" (dv_buyer (d_texts d))]].
Definition vault (d : data) : node ev :=
  El "div" []
    [El "h2" [] [Icon "Lock"; Txt "Escrow Security Vault"];
     El "div" []
       [El "div" [] [El "span" [] [Txt (asset_name (inv_asset (d_invoice d)) +:+ " Locked in Escrow")]; El "span" [] [Txt (dv_escrow (d_texts d)).1]];
        El "div" [] [El "span" [] [Txt "Escrow Condition"]; El "span" [] [Txt (dv_escrow (d_texts d)).2]]]].
Definition figure (label value : string) : node ev := El "div" [] [El "span" [] [Txt label]; El "span" [] [Txt value]].
Definition maturity (d : data) : node ev :=
  El "div" []
    [El "h2" [] [Icon "Calendar"; Txt "Maturity Parameters"];
     El "div" []
       [figure "Maturity Date:" (dv_dueDate (d_texts d)); figure "Maturity Status:" (dv_maturity (d_texts d));
        figure "Discount Rate:" (dv_discount (d_texts d)); figure "Net Discount Fee:" (dv_fee (d_texts d))]].

Definition shareText (d : data) : string := shareMessage (inv_id (d_invoice d)) (inv_faceValue (d_invoice d)).
Definition share_link (href label : string) : node ev :=
  El "a" [A "href" href; A "target" "_blank"; A "rel" "noreferrer"] [Txt label].
Definition share (d : data) : node ev :=
  El "div" []
    [El "h2" [] [Icon "Share2"; Txt "Share Invoice"];
     El "div" []
       [El "button" [OnClick [Export]; Flag "disabled" (Pdf.isExportingPdf (d_pdf d)); Flag "aria-busy" (Pdf.isExportingPdf (d_pdf d))]
          [El "span" [] [Txt (if Pdf.isExportingPdf (d_pdf d) then "Generating PDF..." else "Download PDF")];
           Icon (if Pdf.isExportingPdf (d_pdf d) then "Loader2" else "FileDown")];
        when (opt_str_truthy (Pdf.pdfError (d_pdf d))) (El "p" [A "role" "alert"] [Txt (default "" (Pdf.pdfError (d_pdf d)))]);
        El "button" [OnClick [CopyPress Copy.Link]; Flag "disabled" (String.eqb (d_invoiceUrl d) "")]
          [El "span" [] [Txt (if is_copied d Copy.Link then "LINK COPIED" else "Copy Invoice Link")]; Icon "Copy"];
        El "div" []
          [share_link (whatsappUrl (shareText d) (d_invoiceUrl d)) "WhatsApp"; share_link (telegramUrl (shareText d) (d_invoiceUrl d)) "Telegram"]]].

Definition action_label (o : Offer) : string :=
  match o with
  | ShipOffer => "MARK GOODS SHIPPED" | ConfirmOffer => "CONFIRM DELIVERY" | RepayOffer => "REPAY INVOICE"
  | DefaultOffer => "DEFAULT INVOICE" | ListTerms | FundOffer => ""
  end.
Definition action_button (d : data) (o : Offer) : node ev :=
  El "button" [Flag "disabled" (DetailActions.submitting (d_actions d)); OnClick [Ask o]] [Txt (action_label o)].
Definition available (d : data) : node ev :=
  match InvoiceViews.Page.offers (d_connected d) (d_view d) with
  | [] => Frag []
  | l =>
      El "div" []
        ([El "h2" [] [Icon "TrendingUp"; Txt "Available Action"]] ++ map (action_button d) l ++
         [when (opt_str_truthy (DetailActions.error (d_actions d)))
            (El "p" [A "role" "alert"] [Txt (default "" (DetailActions.error (d_actions d)))])])
  end.
Definition pending_dialog (d : data) : node ev :=
  lift (fun _ => ClosePending) (PendingView.view true (d_reduceMotion d) (DetailActions.pendingText (d_actions d)) (d_pending d)).
Definition ledger (d : data) : node ev :=
  Frag
    [El "div" []
       [El "p" [A "role" "status"; A "aria-live" "polite"] [Txt (Copy.copyAnnouncement (d_copy d))];
        breadcrumb d; title_block d;
        El "div" [] [El "h2" [] [Icon "Activity"; Txt "Soroban Transaction Progress"]; timeline (d_timeline d).1 (d_timeline d).2];
        El "div" []
          [El "div" [] [parties d; vault d]; El "div" [] [maturity d; share d; available d]]];
     pending_dialog d].
Definition fetching : node ev := El "div" [A "role" "status"] [Txt "Fetching invoice state from ledger..."].
Definition not_found (text : string) : node ev :=
  El "div" [] [Icon "ShieldAlert"; El "h1" [] [Txt "Ledger entry not found"]; El "p" [] [Txt text]; El "a" [A "href" "/dashboard"] [Txt "Return to Dashboard"]].
(** [d] is what the hooks give once there is an invoice. *)
Definition view (s : Screen) (d : data) : node ev :=
  match s with Fetching => fetching | NotFound text => not_found text | Ledger _ => ledger d end.
End DetailPage.

(** ** Properties *)
Module DetailPageFacts.
Import DetailPage.

(** What the page lets a user start. *)
Definition starts (d : data) (e : ev) : Prop :=
  match e with
  | CopyPress Copy.Link => d_invoiceUrl d <> ""
  | CopyPress _ => True
  | Export => Pdf.isExportingPdf (d_pdf d) = false
  | Ask o => o ∈ InvoiceViews.Page.offers (d_connected d) (d_view d) /\ DetailActions.submitting (d_actions d) = false
  | ClosePending => Pending.isOpen (d_pending d) = true
  end.
Lemma timeline_inert entries i : inert (timeline entries i).
Proof.
  unfold timeline. apply inert_el; [done|]. split; [done|]. apply list.Forall_forall.
  intros n (index & e & -> & _)%elem_of_lookup_imap. unfold timeline_item, timeline_link, when, when_some.
  destruct (te_isCurrent e), (te_isComplete e), (line_below _ _ _), (entry_link e) as [[h x]|]; showing.
Qed.
Lemma pending_offers d : offers (starts d) (pending_dialog d).
Proof.
  unfold pending_dialog. offering. intros es Ha%PendingViewFacts.pending_actions. destruct Ha as [->|(-> & Ho & _)]; [by left|right].
  by eexists.
Qed.
Lemma share_offers d : offers (starts d) (share d).
Proof.
  unfold share, share_link. offering; try (cbn; by destruct (Pdf.isExportingPdf (d_pdf d)));
    try (cbn; by destruct (String.eqb_spec (d_invoiceUrl d) "")).
Qed.
Lemma available_offers d : offers (starts d) (available d).
Proof.
  unfold available. destruct (InvoiceViews.Page.offers (d_connected d) (d_view d)) as [|o l] eqn:E; [by apply offers_frag|].
  rewrite <- E. unfold action_button. offering; (split; [done|by destruct (DetailActions.submitting (d_actions d))]).
Qed.
Lemma ledger_offers d : offers (starts d) (ledger d).
Proof.
  unfold ledger, breadcrumb, title_block, copy_id, parties, party, vault, maturity, figure, status_badge. offering; try done.
  - apply offers_inert, timeline_inert.
  - apply share_offers.
  - apply available_offers.
  - apply pending_offers.
Qed.

(** C27: one action on the page of an invoice starts at most one thing, and an action on the
    invoice only in a status and at a time its documentation names, for a connected wallet, not
    while another one is submitted, and only for the role the action is for; except for a
    default, which the page offers to every role once a confirmed invoice is overdue.
    Without an invoice the page offers nothing. *)
Theorem detail_page_actions s d es : act (view s d) es ->
  match s with
  | Ledger _ =>
      one (starts d) es /\
      forall o, Ask o ∈ es ->
        allowed o (inv_status (d_invoice d)) (isOverdue (d_due d) (d_nowMs d)) = true /\
        d_connected d = true /\ DetailActions.submitting (d_actions d) = false /\
        match in_charge o with
        | Some r => d_role d = r
        | None => o = DefaultOffer /\ inv_status (d_invoice d) = Confirmed
        end
  | _ => es = []
  end.
Proof.
  intros Ha. destruct s as [|text|i].
  - by acts Ha.
  - by acts Ha.
  - apply ledger_offers in Ha. split; [done|]. intros o Ho.
    destruct Ha as [->|(e & -> & He)]; [by apply not_elem_of_nil in Ho|].
    apply list_elem_of_singleton in Ho as <-. destruct He as [He Hs].
    destruct (offers_follow_lifecycle (d_view d) (d_connected d) o) as (Hl & _ & Hn & _).
    destruct (Hl (or_introl He)) as [H1 H2]. assert (Hc : d_connected d = true).
    { destruct (d_connected d); [done|]. rewrite Hn in He. by apply not_elem_of_nil in He. }
    split_and!; [done..|]. destruct (in_charge o) as [r|] eqn:Hr; [by injection (H2 r eq_refl)|].
    destruct o; try done. split; [done|]. rewrite Hc in He. by apply (proj1 (proj2 (default_offered_apart (d_view d) true))) in He as [? _].
Qed.

(** The documentation leaves the default to the admin and the pool contract; the page offers it
    to whoever is connected, whatever the role. *)
Lemma default_is_offered_to_anyone d : inv_status (d_invoice d) = Confirmed -> isOverdue (d_due d) (d_nowMs d) = true ->
  d_connected d = true -> DetailActions.submitting (d_actions d) = false ->
  in_charge DefaultOffer = None /\ DefaultOffer ∈ InvoiceViews.Page.offers (d_connected d) (d_view d) /\
  act (action_button d DefaultOffer) [Ask DefaultOffer].
Proof.
  intros Hst Ho Hc Hs. split; [done|]. rewrite Hc. split.
  - by apply (proj1 (proj2 (default_offered_apart (d_view d) true))).
  - apply act_click. unfold dispatched, action_button. rewrite Hs. cbn. by left.
Qed.
End DetailPageFacts.

(** ** Witness *)
Definition sample_page : DetailPage.data :=
  {| DetailPage.d_connected := true; DetailPage.d_role := BuyerView; DetailPage.d_invoice := sample_deal "a" Confirmed; DetailPage.d_due := 1800000000;
     DetailPage.d_nowMs := 1700000000000; DetailPage.d_dateText := fun _ => ""; DetailPage.d_timeline := ([], 0%nat);
     DetailPage.d_copy := Copy.initial; DetailPage.d_pdf := {| Pdf.isExportingPdf := false; Pdf.pdfError := None |};
     DetailPage.d_invoiceUrl := ""; DetailPage.d_actions := DetailActions.initial; DetailPage.d_pending := Pending.closed;
     DetailPage.d_reduceMotion := false |}.
Lemma detail_page_actions_witness :
  act (DetailPage.view (Ledger JNull) sample_page) [DetailPage.Ask RepayOffer] /\ allowed RepayOffer Confirmed false = true.
Proof.
  assert (H : act (DetailPage.view (Ledger JNull) sample_page) [DetailPage.Ask RepayOffer]).
  { apply act_click, list_elem_of_In. vm_compute. tauto. }
  split; [exact H|].
  exact (proj1 (proj2 (DetailPageFacts.detail_page_actions (Ledger JNull) sample_page _ H) RepayOffer ltac:(left))).
Defined.
