(* ===== verification/PageViews.v ===== *)
(** * The markup of the dashboard and of the marketplace ([app/dashboard/page.tsx],
      [app/marketplace/page.tsx])

    What the two pages render, with the table of [TableView] and the card of [Console], and
    the events of [Dashboard.Page] and [MarketPage].  Translations are an argument; a rich one
    gives the text before, inside and after its tag.  The theorems show that the controls
    produce only what the step functions take for granted. *)

From S2P Require Import Prelude JsNumber JsString JsValue JsonRoundTrip SdkTypes Schemas Assets Storage Marketplace InvoiceTable InvoiceViews.
From S2P Require Import WebParsers Actions EventViews Dialogs Dashboard MarketPage StatViews Markup Console DialogViews FrameViews Skeletons.
From S2P Require Import InvoiceDisplay InvoiceGrid TableView.
Local Open Scope Z_scope.

(** Signs outside Latin-1, as [en_dash]. *)
Definition infinity_sign : string := String (chr 128) "".
Definition at_most_sign : string := String (chr 129) "".

(** ** The marketplace *)
Module MarketMarkup.
Import MarketPage.
(** The events of the page, of the card in its console, of the table and of the comparison. *)
Inductive ev :=
  | OnPage (e : event) | OnCard (e : CardMarkup.press) | OnTable (c : TableView.call) | OnCompare (e : Dialogs.Compare.event).
(** What the table keeps: the virtualiser, the roving index and the field of the page. *)
Record Table := { tb_virtual : list nat; tb_start : nat -> Z; tb_focused : Z; tb_pageInput : string }.
Section Market.
Context (t tCommon : string -> list (string * jsval) -> string) (rich : string -> list (string * jsval) -> string * string * string).

(** What the hooks give a render; [d_role] is the role of the store and [d_roleName] its name.
    The cards are given their role and invoice, [d_table] is the state of the table for its
    props, [d_offset] that of the comparison. *)
Record data := {
  d_connected : bool; d_isVerified : bool; d_role : ViewRole; d_roleName : string;
  d_isStatsLoading : bool; d_stats : option PoolStats; d_isLoading : bool; d_now : Z;
  d_invoices : list Invoice; d_total : Z; d_totalPages : num; d_table : Table;
  d_card : option ViewRole -> Invoice -> CardMarkup.props; d_rowCard : ViewRole -> Invoice -> CardMarkup.props; d_offset : nat; d_dates : (num -> string) * (num -> string) }.

Definition header (d : data) : node event :=
  El "div" []
    [El "div" [] [El "h1" [] [Txt (t "header.title" [])]; El "p" [] [Txt (t "header.description" [])]];
     El "div" []
       [El "span" [] [Txt (t "header.liquidityLabel" [])];
        El "span" [] [Txt (liquidity (d_isStatsLoading d) (d_stats d) (t "syncing" []))]]].
Definition verification_banner (d : data) : node event :=
  when (banner (d_connected d) (d_isVerified d))
    (El "div" []
      [Icon "ShieldAlert";
       El "div" []
         [El "span" [] [Txt (t "verificationBanner.title" [])];
          let '(before, chunks, after) := rich "verificationBanner.body" [] in
          El "p" [] [Txt before; El "a" [A "href" "/profile"] [Txt chunks]; Txt after]]]).

Definition status_option (v key : string) : node event :=
  El "option" [A "value" v] [Txt (t ("filters.status.options." +:+ key) [])].
Definition status_filter (s : state) : node event :=
  El "div" []
    [El "label" [A "htmlFor" "marketplace-status"] [Txt (t "filters.status.label" [])];
     El "select" [A "id" "marketplace-status"; A "value" (to_str (statusFilter (filters (browse s)))); OnChange StatusOption]
       [status_option "ALL" "all"; status_option "Created" "created"; status_option "Listed" "listed";
        status_option "Funded" "funded"; status_option "Active" "active"; status_option "Confirmed" "confirmed";
        status_option "Repaid" "repaid"; status_option "Defaulted" "defaulted"]].
Definition amount_filter (id key : string) (value : jsval) (e : string -> event) : node event :=
  El "div" []
    [El "label" [A "htmlFor" id] [Txt (t ("filters." +:+ key +:+ ".label") [])];
     El "input" [A "id" id; A "type" "number"; A "placeholder" (t ("filters." +:+ key +:+ ".placeholder") []);
                 A "value" (to_str value); OnChange e] []].
(** [onChange] gets the text of a position of the slider. *)
Definition slide_event (v : string) : event :=
  Slide (default 50 (List.find (fun k => String.eqb (slider_text k) v) slider)).
Definition discount_slider (s : state) : node event :=
  El "div" []
    [El "div" []
       [El "span" [] [Txt (t "filters.maxDiscount.label" [])]; El "span" [] [Txt (slider_label (filters (browse s)))]];
     El "input" [A "type" "range"; A "min" "50"; A "max" "500"; A "step" "50"; A "value" (to_str (maxDiscount (filters (browse s))));
                 OnAmong (map slider_text slider) slide_event; A "aria-label" (t "filters.maxDiscount.ariaLabel" [])] []].

(** The range of a preset, as its button shows it. *)
Definition preset_range (f : MarketplaceFilters) : res string :=
  n ← to_number (maxDiscount f);
  Ok ("(" +:+ to_str (statusFilter f) +:+ ", " +:+ str_or (to_str (minAmount f)) "0" +:+ "-" +:+
      str_or (to_str (maxAmount f)) infinity_sign +:+ " " +:+ at_most_sign +:+
      Num.to_string (Num.div n (Num.of_Z 100)) +:+ "%)").
Definition edited_preset (s : state) (id : string) : node event :=
  El "div" []
    [El "input" [A "type" "text"; A "value" (Presets.editingPresetName (saved s));
                 OnChange (fun v => PresetEvent (Presets.TypeEditing v))] [];
     El "button" [A "type" "button"; OnClick [PresetEvent (Presets.SaveEdited id)]] [Txt "Save"]].
Definition preset_buttons (id : string) (p : jsval) (range : string) : node event :=
  El "div" []
    [El "button" [A "type" "button"; OnClick [ApplyPreset p]; A "role" "option"; A "aria-selected" "false"]
       [El "span" [] [Txt (to_str (field p "name"))]; El "span" [] [Txt range]];
     El "div" []
       [El "button" [A "type" "button"; StopClick; OnClick [PresetEvent (Presets.StartEditing id (to_str (field p "name")))];
                     A "aria-label" "Rename preset"] [Icon "Menu"];
        El "button" [A "type" "button"; StopClick; OnClick [PresetEvent (Presets.Delete id)]; A "aria-label" "Delete preset"] [Icon "Trash2"]]].
(** The range is computed for the rows that are not being edited. *)
Definition preset_row (s : state) (index : nat) (p : jsval) : res (node event) :=
  let id := Presets.index_id index in
  if bool_decide (Presets.editingPresetId (saved s) = Some id) then Ok (El "li" [] [edited_preset s id])
  else f ← applyPreset p; range ← preset_range f; Ok (El "li" [] [preset_buttons id p range]).
Fixpoint preset_rows (s : state) (index : nat) (l : list jsval) : res (list (node event)) :=
  match l with
  | [] => Ok []
  | p :: rest => row ← preset_row s index p; rows ← preset_rows s (S index) rest; Ok (row :: rows)
  end.
Definition save_row (s : state) (now : Z) : node event :=
  El "div" []
    [El "input" [A "type" "text"; A "placeholder" "Preset name..."; A "value" (Presets.newPresetName (saved s));
                 OnChange (fun v => PresetEvent (Presets.TypeName v)); A "aria-label" "New preset name"] [];
     El "button" [A "type" "button"; OnClick [SavePreset now]; Flag "disabled" (saveDisabled (saved s))] [Icon "Save"]].
Definition presets_menu (s : state) (now : Z) (rows : list (node event)) : node event :=
  when (showPresetsDropdown s)
    (El "div" [A "role" "listbox"]
      [save_row s now;
       match Presets.presets (saved s) with
       | [] => El "p" [] [Txt "No saved searches yet"]
       | _ => El "ul" [A "role" "listbox"] rows
       end;
       when (10 <=? length (Presets.presets (saved s)))%nat (El "p" [] [Txt "Maximum of 10 presets reached"])]).
Definition presets (s : state) (now : Z) (rows : list (node event)) : node event :=
  El "div" []
    [El "span" [] [Txt "Saved Searches"];
     El "div" []
       [El "button" [A "type" "button"; OnClick [TogglePresets]; A "aria-haspopup" "listbox"; Flag "aria-expanded" (showPresetsDropdown s)]
          [El "span" [] [Txt (presets_label (Presets.presets (saved s)))]; Icon "Menu"];
        presets_menu s now rows]].
Definition filter_bar (s : state) (now : Z) (rows : list (node event)) : node event :=
  El "div" []
    [status_filter s;
     amount_filter "marketplace-min-value" "minValue" (minAmount (filters (browse s))) MinInput;
     amount_filter "marketplace-max-value" "maxValue" (maxAmount (filters (browse s))) MaxInput;
     discount_slider s; presets s now rows].

(** The list, with what compares the invoices that are ticked. *)
Definition list_title (d : data) (shown : list Invoice) : node event :=
  El "div" []
    [El "h2" [A "aria-live" "polite"; A "aria-atomic" "true"] [Txt (t "invoices.title" [("count", JNum (Num.of_Z (Z.of_nat (length shown))))])];
     when (d_isLoading d) (El "span" [A "role" "status"] [Txt (t "syncing" [])])].
Definition compare_toolbar (s : state) : node event :=
  let ids := selectedInvoiceIds s in
  when (Dialogs.Compare.toolbar ids)
    (El "div" []
      [El "div" [] [El "span" [] [Txt (show_nat (length ids) +:+ " selected")]; El "span" [] [Txt "(max 4 for comparison)"]];
       El "button" [A "type" "button"; OnClick [Compare true]; Flag "disabled" (4 <? length ids)%nat]
         [Icon "RotateCcw"; Txt "Compare Selected"]]).
Definition compare_event (e : CompareView.ev) : ev :=
  match e with CompareView.Close => OnPage (Compare false) | CompareView.Scroll e => OnCompare e end.
Definition compare_modal (s : state) (d : data) (shown : list Invoice) : node ev :=
  when_some (Dialogs.Compare.modal (showCompareModal s) shown (selectedInvoiceIds s)) (fun chosen =>
    lift compare_event (CompareView.view (d_dates d).1 (d_dates d).2 chosen (d_offset d))).
Definition table_given (s : state) (d : data) (shown : list Invoice) : TableView.given :=
  {| TableView.t_props := {| Grid.invoices := shown; Grid.activeId := inv_id <$> selectedInvoice (browse s); Grid.selectable := true;
                             Grid.selection := selectedInvoiceIds s; Grid.interactive := true |};
     TableView.t_pagination := Some {| Pager.page := invoicePage (browse s); Pager.totalPages := d_totalPages d;
                                       Pager.limit := default 20 (Num.to_Z (invoiceLimit (browse s))); Pager.total := d_total d |};
     TableView.t_title := Some (t "invoices.emptyState.title" []); TableView.t_description := Some (t "invoices.emptyState.description" []);
     TableView.t_action := Some {| Grid.label := t "invoices.emptyState.action" []; Grid.href := None |};
     TableView.t_virtual := tb_virtual (d_table d); TableView.t_start := tb_start (d_table d);
     TableView.t_focused := tb_focused (d_table d); TableView.t_pageInput := tb_pageInput (d_table d) |}.
(** The props of the table. *)
Definition table_call (c : TableView.call) : ev :=
  match c with
  | TableView.OpenRow _ inv | TableView.OpenCard inv => OnPage (SelectRow inv)
  | TableView.ChangeSelection ids => OnPage (Tick ids)
  | TableView.EmptyAction => OnPage ResetFilters
  | TableView.ChangePage n => OnPage (PageTo n)
  | TableView.ChangeLimit l => OnPage (LimitTo l)
  | TableView.TypePage _ | TableView.InCard _ _ => OnTable c
  end.
Definition table (s : state) (d : data) (shown : list Invoice) : node ev :=
  lift table_call (TableView.view (row_cells (d_dates d).1) (d_rowCard d (d_role d)) (table_given s d shown)).
Definition list_section (s : state) (d : data) (shown : list Invoice) : node ev :=
  El "div" []
    [lift OnPage (list_title d shown); table s d shown; lift OnPage (compare_toolbar s); compare_modal s d shown].

(** The console.  The cost is computed by the page, outside the boundary around its card. *)
Definition funding_preview (d : data) (inv : Invoice) : res (node event) :=
  if preview_shown (d_connected d) (d_role d) inv then
    cost ← funded_cost inv;
    Ok (El "div" []
         [El "span" [] [Txt (t "console.fundingPreview.title" [])];
          El "div" [] [El "span" [] [Txt (t "console.fundingPreview.faceValue" [])];
                       El "span" [] [Txt (formatAmount (Some (inv_faceValue inv)) (Some (inv_asset inv)))]];
          El "div" [] [El "span" [] [Txt (t "console.fundingPreview.fundedCost" [("bps", JNum (inv_discountBps inv))])];
                       El "span" [] [Txt cost]];
          El "div" [] [Txt (t "console.fundingPreview.note" [])]])
  else Ok (Frag []).
Definition console_bar (d : data) : node event :=
  El "div" []
    [(let '(before, chunks, after) :=
        rich "console.role" [("role", JStr (console_role (d_connected d) (d_roleName d) (t "console.publicView" [])))] in
      El "span" [] [Txt before; El "strong" [] [Txt chunks]; Txt after]);
     El "button" [OnClick [ClearConsole]] [Txt (t "console.clear" [])]].
Definition console_body (s : state) (d : data) : res (node ev) :=
  match selectedInvoice (browse s) with
  | Some inv =>
      preview ← funding_preview d inv;
      Ok (El "div" []
           [lift OnPage (console_bar d); lift OnPage preview;
            lift OnCard (CardMarkup.view (d_card d (if d_connected d then Some (d_role d) else None) inv))])
  | None =>
      Ok (El "div" [] [El "p" [] [Txt (t "console.emptyState.title" [])]; El "p" [] [Txt (t "console.emptyState.description" [])]])
  end.
Definition console (s : state) (body : node ev) : node ev :=
  El "div" []
    [El "h2" [A "tabIndex" "-1"] [Txt (t "console.title" [])];
     El "p" [A "role" "status"; A "aria-live" "polite"; A "aria-atomic" "true"]
       [Txt (match selectedInvoice (browse s) with Some inv => tCommon "invoiceSelected" [("id", JStr (inv_id inv))] | None => "" end)];
     body].

(** A render of the page, which fails where an expression of it throws. *)
Definition view (s : state) (d : data) : res (node ev) :=
  shown ← rows s (d_invoices d);
  menu ← (if showPresetsDropdown s then preset_rows s 0 (Presets.presets (saved s)) else Ok []);
  body ← console_body s d;
  Ok (El "div" []
       [lift OnPage (header d); lift OnPage (verification_banner d); lift OnPage (filter_bar s (d_now d) menu);
        El "div" [] [list_section s d shown; console s body]]).
End Market.
End MarketMarkup.

Module MarketMarkupFacts.
Import RoundTrip MarketPage MarketPageFacts MarketMarkup.
Section Facts.
Context (t tCommon : string -> list (string * jsval) -> string) (rich : string -> list (string * jsval) -> string * string * string).

(** A rate that [BigInt] accepts. *)
Definition whole_rate (i : Invoice) : Prop := Num.is_integer (inv_discountBps i) = true.
Lemma cost_of_whole i : (exists v, funded_cost i = Ok v) <-> whole_rate i.
Proof.
  unfold whole_rate, funded_cost, fundedValueStroops, bigint_of_num, Num.is_integer.
  destruct (Num.to_Z _); cbn; [split; [done|by eexists]|by split; [intros [? ?]|]].
Qed.
Definition sent (s : state) (e : event) : Prop :=
  offered s e /\ match e with SelectRow i => whole_rate i | _ => True end.
Definition sent_by (s : state) (e : ev) : Prop := match e with OnPage e => sent s e | _ => True end.

Lemma market_header_offers P d : offers P (header t d).
Proof. apply offers_inert. showing. Qed.
Lemma banner_offers P d : offers P (verification_banner t rich d).
Proof. unfold verification_banner. destruct (rich _ _) as [[b c] a]. offering. Qed.
Lemma status_offers s : offers (sent s) (status_filter t s).
Proof. unfold status_filter. offering. Qed.
Lemma amount_offers s id key v e : (forall w, sent s (e w)) -> offers (sent s) (amount_filter t id key v e).
Proof. intros H. unfold amount_filter. offering. by constructor. Qed.
Lemma slider_offers s : offers (sent s) (discount_slider t s).
Proof. unfold discount_slider. offering. Qed.

Lemma edited_offers s id : offers (sent s) (edited_preset s id).
Proof. unfold edited_preset. offering; [constructor; [|done]; by split|by split]. Qed.
Lemma preset_offers s id p range : p ∈ Presets.presets (saved s) -> offers (sent s) (preset_buttons id p range).
Proof. intros Hp. unfold preset_buttons. offering; by split. Qed.
(** Rows of presets that the page saved can be drawn. *)
Lemma preset_rows_offer s l : (forall p, p ∈ l -> p ∈ Presets.presets (saved s)) -> Forall preset_good l ->
  forall i, exists rows, preset_rows s i l = Ok rows /\ Forall (offers (sent s)) rows.
Proof.
  intros Hl H. induction H as [|p l (f & Hf & (a & b & c & k & _ & ->)) _ IH]; intros i; [by exists []|].
  destruct (IH ltac:(set_solver) (S i)) as (rows & Hr & Hrows). cbn [preset_rows]. rewrite Hr. unfold preset_row.
  case_bool_decide.
  - eexists. split; [reflexivity|]. constructor; [|done]. offering. apply edited_offers.
  - rewrite Hf. eexists. split; [reflexivity|]. constructor; [|done]. offering. apply preset_offers. set_solver.
Qed.
Lemma presets_offer s now rows : num_ok (Num.of_Z now) = true -> Forall (offers (sent s)) rows -> offers (sent s) (presets s now rows).
Proof.
  intros Hn Hr. unfold presets, presets_menu, save_row. offering; try (by split).
  destruct (Presets.presets _); offering. done.
Qed.

Lemma toolbar_offers s : offers (sent s) (compare_toolbar s).
Proof. unfold compare_toolbar. cbv zeta. offering; by split. Qed.
Lemma title_offers P d shown : offers P (list_title t d shown).
Proof. apply offers_inert. unfold list_title, when. destruct (d_isLoading d); showing. Qed.
Lemma market_modal_offers s d shown : offers (sent_by s) (compare_modal s d shown).
Proof.
  unfold compare_modal. offering. intros es Ha%CompareViewFacts.compare_offers.
  destruct Ha as [->|[->|[[-> _]|[-> _]]]]; [by left| | |]; right; eexists; (split; [reflexivity|]); by repeat split.
Qed.
Lemma market_table_offers s d shown : Forall whole_rate shown -> offers (sent_by s) (table t s d shown).
Proof.
  intros Hw. unfold table. offering. eapply offers_mono; [|apply TableViewFacts.table_offers]. rewrite list.Forall_forall in Hw.
  intros [i inv|inv|ids| |n|l|v|inv e] Hc; try done; (split; [done|]); apply Hw.
  - by apply (list_elem_of_lookup_2 _ i), Hc.
  - exact Hc.
Qed.
Lemma list_offers s d shown : Forall whole_rate shown -> offers (sent_by s) (list_section t s d shown).
Proof. intros H. unfold list_section. offering; [apply title_offers|by apply market_table_offers|apply toolbar_offers|apply market_modal_offers]. Qed.

Lemma preview_offers d inv : whole_rate inv -> exists n, funding_preview t d inv = Ok n /\ forall P, offers P n.
Proof.
  intros [v Hv]%cost_of_whole. unfold funding_preview.
  destruct (preview_shown _ _ _); [|eexists; split; [reflexivity|intros P; by apply offers_frag]].
  rewrite Hv. eexists. split; [reflexivity|]. intros P. apply offers_inert. showing.
Qed.
Lemma bar_offers s d : offers (sent s) (console_bar t rich d).
Proof. unfold console_bar. destruct (rich _ _) as [[b c] a]. offering; by split. Qed.
Lemma body_offers s d : (forall i, selectedInvoice (browse s) = Some i -> whole_rate i) ->
  exists n, console_body t rich s d = Ok n /\ offers (sent_by s) n.
Proof.
  intros Hw. unfold console_body. destruct (selectedInvoice (browse s)) as [i|].
  - destruct (preview_offers d i (Hw i eq_refl)) as (n & -> & Hn). eexists. split; [reflexivity|]. offering; [apply bar_offers|apply Hn|].
    intros es Ha%CardMarkupFacts.card_act%CardMarkupFacts.card_offers_one. by eapply one_mono.
  - eexists. split; [reflexivity|]. apply offers_inert. showing.
Qed.

(** What is needed of a render: a clock, and invoices with whole rates. *)
Record lawful (d : data) : Prop := {
  l_now : num_ok (Num.of_Z (d_now d)) = true;
  l_whole : Forall whole_rate (d_invoices d) }.
Definition page_ok (s : state) : Prop := page_inv s /\ forall i, selectedInvoice (browse s) = Some i -> whole_rate i.

Lemma market_view s d : page_ok s -> lawful d ->
  exists n, view t tCommon rich s d = Ok n /\ offers (sent_by s) n.
Proof.
  intros [Hi Hw] [Hn Hd]. unfold view, rows. destruct (rows_shown _ (d_invoices d) (pi_filters _ Hi)) as (shown & -> & Hs & _).
  assert (exists menu, (if showPresetsDropdown s then preset_rows s 0 (Presets.presets (saved s)) else Ok []) = Ok menu /\
    Forall (offers (sent s)) menu) as (menu & E & Hm).
  { destruct (showPresetsDropdown s); [|by exists []]. apply preset_rows_offer; [done|].
    rewrite <- (PresetFacts.s_shown _ (pi_settled _ Hi)). apply Hi. }
  destruct (body_offers s d Hw) as (body & Hb & Ho). cbn [mbind result_bind]. rewrite E. cbn [mbind result_bind]. rewrite Hb.
  eexists. split; [reflexivity|]. offering; [apply market_header_offers|apply banner_offers| |apply list_offers|..].
  - unfold filter_bar. offering; [apply status_offers| | |apply slider_offers|by apply presets_offer]; apply amount_offers; by split.
  - rewrite list.Forall_forall in *. intros i Hin. by apply Hd, Hs.
  - unfold console. offering. done.
Qed.

(** An action runs its events; a key or a field left does what a button does. *)
Definition run (s : state) (e : ev) : state := match e with OnPage e => step s e | _ => s end.
Inductive used (s0 : state) : state -> Prop :=
  | used_start : used s0 s0
  | used_action s d n es : used s0 s -> lawful d -> view t tCommon rich s d = Ok n -> act n es -> used s0 (foldl run s es)
  | used_enter s now : used s0 s -> num_ok (Num.of_Z now) = true -> used s0 (step s (SavePreset now))
  | used_blur s id : used s0 s -> Presets.editingPresetId (saved s) = Some id -> used s0 (step s (PresetEvent (Presets.SaveEdited id)))
  | used_account s a : used s0 s -> used s0 (step s (PresetEvent (Presets.SetAddress a))).

Lemma set_filters_selects s f i : selectedInvoice (browse (set_filters s f)) = Some i -> selectedInvoice (browse s) = Some i.
Proof. unfold set_filters. by destruct (same_filters _ _). Qed.
Lemma step_selects s e i : selectedInvoice (browse (step s e)) = Some i ->
  selectedInvoice (browse s) = Some i \/ e = SelectRow i.
Proof.
  destruct e as [v|v|v|j| |p|now|e| |p|l|j| |ids|b]; cbn [step]; try done; try (intros H; left; exact H).
  - by intros H%set_filters_selects; left.
  - by intros H%set_filters_selects; left.
  - by intros H%set_filters_selects; left.
  - destruct (applyPreset p) as [g|]; [|by left]. cbn. by intros H%set_filters_selects; left.
  - destruct (_ <? _)%nat; by left.
  - destruct (closes_dropdown e); by left.
  - intros [= ->]. by right.
Qed.
Lemma step_ok s e : page_ok s -> sent s e -> page_ok (step s e).
Proof.
  intros [Hi Hw] [Ho He]. split; [by apply page_step|]. intros i H. apply step_selects in H as [H| ->]; [auto|done].
Qed.
Lemma used_ok s0 s : page_ok s0 -> used s0 s -> page_ok s.
Proof.
  intros H0 H. induction H as [|s d n es _ IH Hd Hv Ha|s now _ IH Hn|s id _ IH _|s a _ IH]; try done; try (apply step_ok; [done|by split]).
  destruct (market_view s d IH Hd) as (n' & E & Ho). rewrite Hv in E. injection E as <-.
  destruct (Ho es Ha) as [->|(e & -> & He)]; [done|]. cbn. destruct e; try done. by apply step_ok.
Qed.


(** A rate that is not whole, which the API's numbers may be, makes the page itself throw when a
    liquidity provider selects the invoice: the cost is computed outside the boundary that is
    around the console. *)
Lemma fractional_rate_breaks_the_page s d i shown : selectedInvoice (browse s) = Some i -> ~ whole_rate i ->
  preview_shown (d_connected d) (d_role d) i = true -> showPresetsDropdown s = false -> rows s (d_invoices d) = Ok shown ->
  exists m, view t tCommon rich s d = Throw m.
Proof.
  intros Hs Hw Hp Hd Hr. unfold view, console_body, funding_preview. rewrite Hr, Hd, Hs, Hp. cbn.
  destruct (funded_cost i) as [c|m] eqn:E; [|by eexists]. exfalso. apply Hw, cost_of_whole. by exists c.
Qed.
(** The button that saves a preset and the field that renames one have no name. *)
Lemma presets_menu_unlabelled s now id : well_labelled (save_row s now) = false /\ well_labelled (edited_preset s id) = false.
Proof. done. Qed.
End Facts.
End MarketMarkupFacts.

(** ** The dashboard *)
Module DashboardMarkup.
Import Dashboard.Page Skeletons.
Section Page.
(** The events of the page and of its parts; [F] are those of the form in the dialog. *)
Context {F : Type}.
Inductive ev :=
  | OnPage (e : event) | OnCard (e : CardMarkup.press) | OnTable (c : TableView.call) | OnWallet (e : WalletView.ev) | OnForm (e : F).
Context (t : string -> list (string * string) -> string) (tv : string -> list (string * jsval) -> string)
  (tCommon : string -> list (string * string) -> string).
Record data := {
  d_connected : bool; d_roleName : string; d_stats : InvoiceStats; d_isLoading : bool; d_invoices : list Invoice; d_total : Z;
  d_totalPages : num; d_table : MarketMarkup.Table; d_rowCard : Invoice -> CardMarkup.props; d_dateText : num -> string;
  d_eventsLoading : bool; d_events : list EventLog; d_now : Z; d_card : Invoice -> CardMarkup.props;
  d_wallet : WalletView.state; d_form : node F }.

Definition connect_prompt (d : data) : node ev :=
  El "div" []
    [El "div" [] [Icon "Layers"]; El "h1" [] [Txt (t "connectPrompt.title" [])]; El "p" [] [Txt (t "connectPrompt.body" [])];
     lift OnWallet (WalletView.view (d_wallet d))].

Definition create_button (verified : bool) : node event :=
  let b := createButton t verified in
  El "div" []
    [El "button" ([OnClick (if verified then [CreateClick] else []); Flag "disabled" (cb_disabled b)] ++
                  match cb_title b with Some v => [A "title" v] | None => [] end ++
                  match cb_describedby b with Some v => [A "aria-describedby" v] | None => [] end)
       [Icon "Plus"; El "span" [] [Txt (t "header.createInvoice" [])]];
     when_some (cb_reason b) (fun r => El "p" [A "id" "create-invoice-lock-reason"] [Txt r])].
Definition header (s : state) (d : data) : node event :=
  El "div" []
    [El "div" []
       [El "h1" [] [Txt (t "header.title" [])];
        El "p" [] [Txt (t "header.operator" [("address", match address s with Some a => if String.eqb a "" then "" else truncateAddress a | None => "" end);
                                             ("role", Str.to_upper (d_roleName d))])]];
     create_button (isVerified s)].
Definition checklist_step (icon : string) (texts : string * string * string) : node event :=
  El "div" []
    [Icon icon; El "div" [] [El "span" [] [Txt texts.1.1]; El "p" [] [Txt texts.1.2]]; El "span" [] [Txt texts.2]].
Definition onboarding (s : state) : node event :=
  when (negb (isVerified s))
    (El "div" []
      ([El "div" [] [El "div" [] [El "span" [] [Txt "!"]];
                     El "div" [] [El "h3" [] [Txt (t "checklist.title" [])]; El "p" [] [Txt (t "checklist.description" [])]]]] ++
       zip_with checklist_step ["CheckCircle2"; "Circle"; "Lock"] (checklist t (isVerified s)) ++
       [El "a" [A "href" "/profile"] [El "span" [] [Txt (t "checklist.cta" [])]]])).
Definition tile (x : string * string * string) : node event :=
  El "div" [] [El "span" [] [Txt x.1.1]; El "span" [] [Txt x.1.2]; El "span" [] [Txt x.2]].
Definition stats_row (d : data) : node event := El "div" [] (map tile (dashboard_tiles t (d_stats d))).

Definition activity_row (x : EventDisplay) : node event :=
  El "div" []
    [El "div" [] [El "span" [] [Txt (ed_type x)]; El "p" [] [Txt (ed_details x)]]; El "span" [] [Txt (ed_time x)]].
Definition activity (d : data) : node event :=
  if d_eventsLoading d then ActivityTimelineSkeleton
  else El "div" []
    [El "h3" [] [Txt (t "activity.title" [])];
     El "div" []
       (match d_events d with [] => [El "p" [] [Txt (t "activity.empty" [])]] | _ => [] end ++
        map (fun e => activity_row (formatEventDisplay tv (d_now d) e)) (d_events d))].
Definition table_given (s : state) (d : data) : TableView.given :=
  {| TableView.t_props := {| Grid.invoices := d_invoices d; Grid.activeId := inv_id <$> selectedInvoice s; Grid.selectable := false;
                             Grid.selection := []; Grid.interactive := true |};
     TableView.t_pagination := Some {| Pager.page := invoicePage s; Pager.totalPages := d_totalPages d;
                                       Pager.limit := default 20 (Num.to_Z (invoiceLimit s)); Pager.total := d_total d |};
     TableView.t_title := Some (t "invoices.emptyState.title" []); TableView.t_description := Some (t "invoices.emptyState.description" []);
     TableView.t_action := Some {| Grid.label := t "invoices.emptyState.action" []; Grid.href := None |};
     TableView.t_virtual := MarketMarkup.tb_virtual (d_table d); TableView.t_start := MarketMarkup.tb_start (d_table d);
     TableView.t_focused := MarketMarkup.tb_focused (d_table d); TableView.t_pageInput := MarketMarkup.tb_pageInput (d_table d) |}.
(** The props of the table, which is not selectable here. *)
Definition table_call (c : TableView.call) : ev :=
  match c with
  | TableView.OpenRow _ inv | TableView.OpenCard inv => OnPage (Select inv)
  | TableView.EmptyAction => OnPage EmptyAction
  | TableView.ChangePage n => OnPage (PageChange n)
  | TableView.ChangeLimit l => OnPage (LimitChange l)
  | TableView.ChangeSelection _ | TableView.TypePage _ | TableView.InCard _ _ => OnTable c
  end.
Definition invoices (s : state) (d : data) : node ev :=
  if d_isLoading d then InvoiceTableSkeleton
  else lift table_call (TableView.view (row_cells (d_dateText d)) (d_rowCard d) (table_given s d)).
Definition main_column (s : state) (d : data) : node ev :=
  El "div" [] [El "h2" [] [Txt (t "invoices.title" [])]; invoices s d; lift OnPage (activity d)].

Definition console_bar : node event :=
  El "div" [] [El "span" [] [Txt (t "console.selectedDetails" [])]; El "button" [OnClick [Clear]] [Txt (t "console.clear" [])]].
Definition console_body (s : state) (d : data) : node ev :=
  match selectedInvoice s with
  | Some i =>
      El "div" []
        [lift OnPage console_bar; lift OnCard (CardMarkup.view (d_card d i));
         El "a" [A "href" ("/invoice/" +:+ inv_id i)] [Txt (t "console.viewAuditLedger" [])]]
  | None => El "div" [] [Txt (t "console.emptyState" [])]
  end.
Definition console (s : state) (d : data) : node ev :=
  El "div" []
    [El "h2" [A "tabIndex" "-1"] [Txt (t "console.title" [])];
     El "p" [A "role" "status"; A "aria-live" "polite"; A "aria-atomic" "true"]
       [Txt (match selectedInvoice s with Some i => tCommon "invoiceSelected" [("id", inv_id i)] | None => "" end)];
     console_body s d].

(** The dialog: its backdrop and Escape in it close it, the panel keeps clicks to itself. *)
Definition create_modal (s : state) (d : data) : node ev :=
  when (showCreateModal s)
    (El "div" [A "role" "dialog"; Flag "aria-modal" true; A "aria-label" (t "createModal.label" []); A "tabIndex" "-1";
               OnClick [OnPage CloseCreate]; OnKey "Escape" (OnPage CloseCreate)]
      [El "div" [StopClick]
        [El "div" [] [El "span" [] [Txt (t "createModal.title" [])];
                      El "button" [OnClick [OnPage CloseCreate]] [Txt (t "createModal.close" [])]];
         El "div" [] [lift OnForm (d_form d)]]]).
(** What [useFocusTrap] hears on the document while the dialog is asked for, wherever the focus
    [active] is; [container] are the focusable elements of the dialog. *)
Definition heard (s : state) (container : option (list nat)) (active : option nat) (k : Trap.Key) : list ev :=
  if showCreateModal s && Trap.escaped (Trap.handleKeyDown container active k) then [OnPage CloseCreate] else [].
Definition view (s : state) (d : data) : node ev :=
  if d_connected d then
    Frag
      [El "div" []
         [lift OnPage (header s d); lift OnPage (onboarding s); lift OnPage (stats_row d);
          El "div" [] [main_column s d; console s d]];
       create_modal s d]
  else connect_prompt d.
End Page.
Arguments ev : clear implicits.
Arguments data : clear implicits.
End DashboardMarkup.

Module DashboardMarkupFacts.
Import Dashboard.Page DashboardMarkup.
Section Facts.
Context {F : Type} (t : string -> list (string * string) -> string) (tv : string -> list (string * jsval) -> string)
  (tCommon : string -> list (string * string) -> string).

(** What the page sends itself, apart from its dialog: creating is for verified accounts,
    clearing for an invoice in the console, and an invoice selected is one shown. *)
Definition page_sends (shown : list Invoice) (s : state) (e : event) : Prop :=
  match e with
  | CreateClick => isVerified s = true
  | Clear => selectedInvoice s <> None
  | CloseCreate => False
  | Select i => i ∈ shown
  | EmptyAction => shown = []
  | PageChange _ | LimitChange _ => True
  | Account _ | Verified _ | Created => False
  end.
Definition beside (s : state) (connected : bool) (shown : list Invoice) (e : ev F) : Prop :=
  match e with
  | OnPage e => connected = true /\ page_sends shown s e
  | OnCard _ => connected = true /\ selectedInvoice s <> None
  | OnTable c => connected = true /\ match c with TableView.ChangeSelection _ => False | _ => True end
  | OnWallet _ => connected = false
  | OnForm _ => False
  end.
(** And with the dialog, which closes itself and holds the form. *)
Definition sent (s : state) (connected : bool) (shown : list Invoice) (e : ev F) : Prop :=
  match e with
  | OnPage CloseCreate | OnForm _ => connected = true /\ showCreateModal s = true
  | e => beside s connected shown e
  end.
Lemma beside_sent s c shown e : beside s c shown e -> sent s c shown e.
Proof. destruct e as [e| | | |]; cbn; try done. destruct e; cbn; try done. by intros [? []]. Qed.

Lemma create_offers shown s : offers (page_sends shown s) (create_button t (isVerified s)).
Proof.
  unfold create_button. cbv zeta. destruct (isVerified s) eqn:Hv; cbn; offering; try done.
Qed.
Lemma header_offers shown s (d : data F) : offers (page_sends shown s) (header t s d).
Proof. unfold header. offering. apply create_offers. Qed.
Lemma onboarding_offers P s : offers P (onboarding t s).
Proof. apply offers_inert. unfold onboarding, checklist_step. destruct (isVerified s); cbn; showing. Qed.
Lemma stats_offers P (d : data F) : offers P (stats_row t d).
Proof. apply offers_inert. unfold stats_row, dashboard_tiles, tile. cbn. showing. Qed.
Lemma activity_offers P (d : data F) : offers P (activity t tv d).
Proof.
  unfold activity, activity_row. destruct (d_eventsLoading d); [apply offers_inert; showing|].
  offering. destruct (d_events d); offering.
Qed.
Lemma main_offers s (d : data F) : offers (beside s true (d_invoices d)) (main_column t tv s d).
Proof.
  unfold main_column, invoices. offering; [|apply activity_offers].
  destruct (d_isLoading d); [apply offers_inert; showing|]. offering. eapply offers_mono; [|apply TableViewFacts.table_offers].
  intros [i inv|inv|ids| |n|l|v|inv e] Hc; cbn in *; try done; (split; [done|]); try done.
  - by apply (list_elem_of_lookup_2 _ i), Hc.
  - by destruct Hc.
Qed.
Lemma console_offers shown s (d : data F) : offers (beside s true shown) (console t tCommon s d).
Proof.
  unfold console, console_body. offering. destruct (selectedInvoice s) as [i|] eqn:Hs; offering.
  - unfold console_bar. offering; cbn; by rewrite Hs.
  - intros es Ha%CardMarkupFacts.card_act%CardMarkupFacts.card_offers_one. eapply one_mono; [|exact Ha]. intros e _. cbn. by rewrite Hs.
Qed.
Lemma modal_offers shown s (d : data F) : offers (fun _ => True) (d_form d) -> offers (sent s true shown) (create_modal t s d).
Proof.
  intros Hf. unfold create_modal. apply offers_when. intros Hs.
  apply offers_around; [right; by eexists|right; by eexists|done|done|done|]. constructor; [|done].
  right. eexists _, _. split; [reflexivity|]. split; [reflexivity|]. offering; try done. eapply offers_mono; [|exact Hf]. done.
Qed.
Lemma prompt_offers shown s (d : data F) : offers (beside s false shown) (connect_prompt t d).
Proof.
  unfold connect_prompt. offering. intros es Ha%WalletViewFacts.wallet_actions.
  unfold one. naive_solver.
Qed.
(** Everything but the dialog. *)
Definition body (s : state) (d : data F) : node (ev F) :=
  El "div" []
    [lift OnPage (header t s d); lift OnPage (onboarding t s); lift OnPage (stats_row t d);
     El "div" [] [main_column t tv s d; console t tCommon s d]].
Lemma but_dialog_offers s (d : data F) : offers (beside s true (d_invoices d)) (body s d).
Proof.
  unfold body. offering.
  - eapply offers_mono; [|apply header_offers]. done.
  - apply onboarding_offers.
  - apply stats_offers.
  - apply main_offers.
  - apply console_offers.
Qed.
Lemma dashboard_offers s (d : data F) : offers (fun _ => True) (d_form d) ->
  offers (sent s (d_connected d) (d_invoices d)) (view t tv tCommon s d).
Proof.
  intros Hf. unfold view. destruct (d_connected d).
  - fold (body s d). apply offers_frag. constructor; [|constructor; [by apply modal_offers|done]].
    eapply offers_mono; [apply beside_sent|apply but_dialog_offers].
  - eapply offers_mono; [apply beside_sent|apply prompt_offers].
Qed.

(** *** What closes the dialog *)
Definition on_backdrop (el : string * list (attr (ev F)) * list (node (ev F))) : Prop :=
  el.1.1 = "div" /\ is_attr "role" "dialog" el.1.2 = true.
Definition on_close_button (el : string * list (attr (ev F)) * list (node (ev F))) : Prop :=
  el.1.1 = "button" /\ flat_map texts el.2 = [t "createModal.close" []].
Definition closing (tg : target (ev F)) : Prop := OnPage CloseCreate ∈ told tg ++ after tg.
Lemma form_targets (n : node F) tg : tg ∈ targets [] (lift OnForm n) -> ~ closing tg.
Proof.
  pose proof (targets_lift OnForm n []) as E. cbn [map] in E. rewrite E. intros (x & -> & _)%list_elem_of_fmap. unfold closing. cbn [told after lift_target].
  rewrite <- map_app. by intros (y & ? & _)%list_elem_of_fmap.
Qed.
Lemma modal_closes s (d : data F) tg : tg ∈ targets [] (create_modal t s d) -> closing tg ->
  on_backdrop (hit tg) \/ on_close_button (hit tg).
Proof.
  unfold create_modal, when. destruct (showCreateModal s); [|by intros ?%not_elem_of_nil].
  intros Htg Hc. cbn in Htg.
  unfold closing in Hc. repeat (apply elem_of_cons in Htg as [->|Htg]; [cbn in Hc|]).
  - left. done.
  - by apply not_elem_of_nil in Hc.
  - by apply not_elem_of_nil in Hc.
  - by apply not_elem_of_nil in Hc.
  - right. done.
  - by apply not_elem_of_nil in Hc.
  - exfalso. rewrite !app_nil_r in Htg. apply list_elem_of_fmap in Htg as (t1 & -> & (t2 & -> & (t3 & -> & Ht)%list_elem_of_fmap)%list_elem_of_fmap).
    apply form_targets in Ht. apply Ht. unfold closing. cbn in Hc. destruct (stopped t3); cbn in Hc; by rewrite ?app_nil_r in Hc.
Qed.
Lemma closing_sent s c shown n tg : offers (beside s c shown) n -> tg ∈ targets [] n -> ~ closing tg.
Proof.
  intros Ho Ht Hc. assert (Ha : act n (told tg ++ after tg)) by (apply act_click, list_elem_of_fmap; by exists tg).
  unfold closing in Hc. destruct (Ho _ Ha) as [E|(e & E & He)]; rewrite E in Hc; [by apply not_elem_of_nil in Hc|].
  apply list_elem_of_singleton in Hc as <-. by destruct He.
Qed.
Lemma dashboard_closes s (d : data F) tg : tg ∈ targets [] (view t tv tCommon s d) -> closing tg ->
  d_connected d = true /\ showCreateModal s = true /\ (on_backdrop (hit tg) \/ on_close_button (hit tg)).
Proof.
  unfold view. destruct (d_connected d); [|by intros Ht Hc; destruct (closing_sent s false (d_invoices d) _ _ (prompt_offers _ s d) Ht)].
  fold (body s d). cbn [targets flat_map]. rewrite app_nil_r. intros [Ht|Ht]%elem_of_app Hc.
  - by destruct (closing_sent _ _ _ _ _ (but_dialog_offers s d) Ht).
  - split; [done|]. pose proof (modal_closes s d tg Ht Hc) as H. split; [|done].
    unfold create_modal, when in Ht. destruct (showCreateModal s); [done|by apply not_elem_of_nil in Ht].
Qed.
(** Both are there. *)
Lemma modal_can_close s (d : data F) : d_connected d = true -> showCreateModal s = true ->
  (exists tg, tg ∈ targets [] (view t tv tCommon s d) /\ on_backdrop (hit tg) /\ closing tg) /\
  (exists tg, tg ∈ targets [] (view t tv tCommon s d) /\ on_close_button (hit tg) /\ closing tg).
Proof.
  intros Hc Hs. assert (Hin : forall tg, tg ∈ targets [] (create_modal t s d) -> tg ∈ targets [] (view t tv tCommon s d)).
  { intros tg Ht. unfold view. rewrite Hc. fold (body s d). cbn [targets flat_map]. rewrite app_nil_r. apply elem_of_app. by right. }
  unfold create_modal in Hin. rewrite Hs in Hin. cbn [when] in Hin. unfold closing. split; eexists.
  - split; [apply Hin; left|]. cbn. split; [done|by left].
  - split; [apply Hin; cbn; do 4 right; left|]. cbn. split; [done|by left].
Qed.
(** The keys: Escape with the focus in the dialog, or anywhere on the document. *)
Lemma modal_keys s (d : data F) key es : es ∈ pressing key (create_modal t s d) -> OnPage CloseCreate ∈ es <-> key = "Escape".
Proof.
  unfold create_modal, when. destruct (showCreateModal s); [|by intros ?%not_elem_of_nil]. intros He.
  assert (exists l : list F, es = map OnForm l ++ (if String.eqb "Escape" key then [OnPage CloseCreate] else [])) as [l ->].
  { cbn in He. rewrite !app_nil_r in He. repeat (apply elem_of_cons in He as [->|He]; [exists []; cbn; by rewrite ?app_nil_r|]).
    rewrite pressing_lift, !map_map in He. apply list_elem_of_fmap in He as (l & -> & _). exists l. by rewrite ?app_nil_r. }
  rewrite elem_of_app. destruct (String.eqb_spec "Escape" key) as [<-|]; [split; [done|intros _; right; by left]|].
  split; [|congruence]. intros [(y & ? & _)%list_elem_of_fmap|?%not_elem_of_nil]; done.
Qed.
Lemma trap_escapes (container : option (list nat)) active k : Trap.escaped (Trap.handleKeyDown container active k) = true <-> k = Trap.KEscape.
Proof.
  destruct k as [|shift|]; cbn; [done| |done]. split; [|done]. destruct container as [[|x l]|]; cbn; [done| |done].
  by repeat case_match.
Qed.
Lemma heard_escape s container active k :
  OnPage CloseCreate ∈ @heard F s container active k <-> showCreateModal s = true /\ k = Trap.KEscape.
Proof.
  unfold heard. rewrite <- (trap_escapes container active). destruct (showCreateModal s), (Trap.escaped _); cbn [andb].
  1: split; [done|intros _; by left].
  all: split; [by intros ?%not_elem_of_nil|by intros []].
Qed.

Definition run (s : state) (e : ev F) : state := match e with OnPage e => step s e | _ => s end.
(** C35: one action on the dashboard sends at most one event to one of its parts, and only what
    the state allows; the dialog that creates an invoice is opened by a verified account or by
    the action of the empty table.  A click closes it exactly when it lands on its backdrop or
    on its close button, and a key exactly when it is Escape, pressed in the dialog or, the focus trap
    listening on the document, anywhere else. *)
Theorem dashboard_actions s (d : data F) es : offers (fun _ => True) (d_form d) ->
  act (view t tv tCommon s d) es ->
  one (sent s (d_connected d) (d_invoices d)) es /\
  (showCreateModal (foldl run s es) = true -> showCreateModal s = true \/ isVerified s = true \/ es = [OnPage EmptyAction]) /\
  (showCreateModal s = true -> showCreateModal (foldl run s es) = false -> es = [OnPage CloseCreate]) /\
  (forall tg, tg ∈ targets [] (view t tv tCommon s d) -> closing tg ->
     d_connected d = true /\ showCreateModal s = true /\ (on_backdrop (hit tg) \/ on_close_button (hit tg))) /\
  (d_connected d = true -> showCreateModal s = true ->
     (exists tg, tg ∈ targets [] (view t tv tCommon s d) /\ on_backdrop (hit tg) /\ closing tg) /\
     (exists tg, tg ∈ targets [] (view t tv tCommon s d) /\ on_close_button (hit tg) /\ closing tg)) /\
  (forall key pressed, pressed ∈ pressing key (create_modal t s d) -> OnPage CloseCreate ∈ pressed <-> key = "Escape") /\
  (forall container active k, OnPage CloseCreate ∈ @heard F s container active k <-> showCreateModal s = true /\ k = Trap.KEscape).
Proof.
  intros Hf Ha. pose proof (dashboard_offers s d Hf es Ha) as Ho. split; [done|].
  refine (conj _ (conj _ (conj (dashboard_closes s d) (conj (modal_can_close s d) (conj (modal_keys s d) (heard_escape s)))))).
  all: destruct Ho as [->|(e & -> & He)]; [cbn; by auto || congruence|]; cbn; destruct e as [e| | | |]; cbn; try (by auto || congruence).
  all: destruct e; cbn in *; try done; try (by auto || congruence); destruct He as [_ He]; by (rewrite ?He; auto).
Qed.
End Facts.
End DashboardMarkupFacts.

(** ** Witnesses: pages with a table of their invoices *)
Section MarketWitness.
Import MarketPage MarketPageFacts MarketMarkup MarketMarkupFacts.
Definition plain_t (k : string) (_ : list (string * jsval)) : string := k.
Definition plain_rich (k : string) (_ : list (string * jsval)) : string * string * string := ("", k, "").
Definition sample_render (connected : bool) : MarketMarkup.data :=
  {| d_connected := connected; d_isVerified := true; d_role := LpView; d_roleName := "lp"; d_isStatsLoading := false; d_stats := None;
     d_isLoading := false; d_now := 0; d_invoices := [sample_deal "a" Listed]; d_total := 1; d_totalPages := Num.of_Z 1;
     d_table := {| tb_virtual := []; tb_start := fun i => Z.of_nat i * 72; tb_focused := 0; tb_pageInput := "1" |};
     d_card := fun _ _ => sample_props; d_rowCard := fun _ _ => sample_props; d_offset := 0; d_dates := (fun _ => "", fun _ => "") |}.
Lemma sample_lawful c : lawful (sample_render c).
Proof. split; [reflexivity|by repeat constructor]. Qed.
(** A click on the row of the listed invoice selects it, and its cost is shown to a liquidity
    provider. *)
Definition first : MarketPage.state := mount empty_storage None.
Definition opens_a (es : list MarketMarkup.ev) : bool :=
  match es with [OnPage (SelectRow i)] => String.eqb (inv_id i) "a" | _ => false end.
Lemma row_offered : match view plain_t plain_t plain_rich first (sample_render true) with
  | Ok n => existsb opens_a (dispatched [] n) | Throw _ => false end = true.
Proof. vm_compute. reflexivity. Qed.
Lemma row_opened : exists i, inv_id i = "a" /\ used plain_t plain_t plain_rich first (step first (SelectRow i)).
Proof.
  pose proof row_offered as H. destruct (view _ _ _ first (sample_render true)) as [n|] eqn:Hv; [|done].
  apply existsb_exists in H as (es & Hes%list_elem_of_In & Ho).
  destruct es as [|[e| | |] [|e2 l]]; try discriminate Ho; [|by destruct e]. destruct e as [| | | | | | | | | | |i| | |]; try discriminate Ho. exists i. split; [by apply String.eqb_eq|].
  exact (used_action plain_t plain_t plain_rich _ _ _ n _ (used_start _ _ _ _) (sample_lawful true) Hv (act_click _ _ _ Hes)).
Qed.
End MarketWitness.

Section DashboardWitness.
Import Dashboard.Page DashboardMarkup DashboardMarkupFacts.
Definition dash_t (k : string) (_ : list (string * string)) : string := k.
Definition open_dialog : Dashboard.Page.state := step (initial (Some "GA") true) CreateClick.
Definition sample_dashboard : DashboardMarkup.data () :=
  {| d_connected := true; d_roleName := "issuer"; d_stats := EMPTY_INVOICE_STATS; d_isLoading := false;
     d_invoices := [sample_deal "a" Listed];
     d_total := 1; d_totalPages := Num.of_Z 1; d_table := MarketMarkup.d_table (sample_render true); d_rowCard := fun _ => sample_props;
     d_dateText := fun _ => ""; d_eventsLoading := true; d_events := []; d_now := 0;
     d_card := fun _ => sample_props;
     d_wallet := {| WalletView.installed := None; WalletView.connected := true; WalletView.address := None; WalletView.network := None;
                    WalletView.loading := false; WalletView.walletError := None; WalletView.errorCode := None; WalletView.copied := false;
                    WalletView.copyError := None; WalletView.switchingNetwork := false; WalletView.networkSwitchError := None |};
     d_form := El "div" [] [El "button" [OnClick [tt]] [Txt "NEXT"]] |}.
(** A click on a button of the form is the form's alone. *)
Lemma dashboard_actions_witness :
  act (view dash_t plain_t dash_t open_dialog sample_dashboard) [OnForm tt] /\
  (showCreateModal open_dialog = true ->
   showCreateModal (foldl run open_dialog [OnForm tt]) = false -> [@OnForm () tt] = [OnPage CloseCreate]).
Proof.
  assert (H : act (view dash_t plain_t dash_t open_dialog sample_dashboard) [OnForm tt]).
  { apply act_click, list_elem_of_In. vm_compute. tauto. }
  split; [exact H|]. refine (proj1 (proj2 (proj2 (dashboard_actions dash_t plain_t dash_t open_dialog sample_dashboard _ _ H)))).
  cbn. offering; done.
Defined.
End DashboardWitness.
