(* ===== verification/FormView.v ===== *)
(** * The markup of the invoice form ([components/invoice/InvoiceForm.tsx] with
      [components/shared/AmountInput.tsx] and [components/ui/date-picker.tsx])

    The two steps of the form as they are rendered over [FormPage], and the form driven through
    them: what a user can send it is what its controls send in the render that is shown.  The
    calendar inside the picker is react-day-picker's, an argument that reports a click on a day;
    the popover around it is rendered in a portal, outside the element of the form. *)

From S2P Require Import Prelude JsNumber JsString JsValue JsDate Effects SdkTypes Assets InvoiceForm DatePicker FormPage Markup.
Local Open Scope Z_scope.

(** The field of an amount, whatever its form. *)
Definition amount_field {E} (inputId : string) (v : FormPage.AmountView) (placeholder : string) (isDisabled isRequired : bool)
  (onChange : string -> E) : node E :=
  El "div" []
    [El "label" [A "htmlFor" inputId] [Txt (FormPage.av_label v)];
     El "div" []
       [El "input" [A "id" inputId; A "type" "text"; A "inputMode" "decimal"; A "placeholder" placeholder; A "value" (FormPage.av_value v);
                    OnChange onChange; Flag "disabled" isDisabled; Flag "required" isRequired] [];
        El "div" [] [El "span" [] [Txt (FormPage.av_unit v)]]];
     when_some (FormPage.av_preview v) (fun p => El "span" [] [Txt p])].

Module FormView.
Import FormPage.
Section FormView.
Context `{F : DateFns} (isValidEd25519PublicKey : string -> bool) (startOfDay : Z -> Z -> Z) (toLocaleString : num -> string).
(** The ids of React for the form and its amount; the calendar over the day that is selected
    and the days that are disabled. *)
Context (fieldId inputId : string) (calendar : option Z -> (Z -> bool) -> node (option Z)).

Record state := { page : FormPage.state; pickerOpen : bool }.
Definition initial : state := {| page := FormPage.initial; pickerOpen := false |}.
(** [PickDay]: what the calendar reports on the local day [today]. *)
Inductive ev := InForm (e : FormPage.event) | OpenPicker (open : bool) | PickDay (today : Z) (day : option Z).
(** The event of the form there is in it. *)
Definition sent (e : ev) : option FormPage.event :=
  match e with
  | InForm e => Some e
  | OpenPicker _ => None
  | PickDay today day => (fun d => Edit (EditDueDate today d)) <$> day
  end.
Definition picker_after (opened : bool) (e : ev) : bool :=
  match e with
  | InForm _ => opened
  | OpenPicker o => (Picker.step opened (Picker.OpenChange o)).1
  | PickDay _ day => (Picker.step opened (Picker.SelectDay day)).1
  end.
(** The picker is mounted with the first step, and closed when it is. *)
Definition step (s : state) (e : ev) : state :=
  let p := match sent e with
           | Some x => (FormPage.step isValidEd25519PublicKey startOfDay (page s) x).1
           | None => page s
           end in
  {| page := p; pickerOpen := picker_after (pickerOpen s) e && (InvoiceForm.step (form p) =? 1) |}.

Definition buyerId : string := fieldId +:+ "-buyer".
Definition assetId : string := fieldId +:+ "-asset".
Definition dueDateId : string := fieldId +:+ "-due-date".
Definition dueDateHelpId : string := fieldId +:+ "-due-date-help".

(** *** The controls of the first step *)
Definition buyer_field (f : InvoiceForm) : node ev :=
  El "div" []
    [El "label" [A "htmlFor" buyerId] [Txt "Buyer Wallet Address"];
     El "input" [A "id" buyerId; A "type" "text"; A "placeholder" "e.g. GBBD47IF6L... (Stellar Public Key)"; A "value" (buyer f);
                 OnChange (fun v => InForm (Edit (EditBuyer v))); Flag "required" true] []].
Definition asset_event (v : string) : ev :=
  InForm (Edit (EditAsset (match List.find (fun o => String.eqb (asset_name o.1) v) ASSET_OPTIONS with Some o => o.1 | None => USDC end))).
Definition asset_field (f : InvoiceForm) : node ev :=
  El "div" []
    [El "label" [A "htmlFor" assetId] [Txt "Asset"];
     El "select" [A "id" assetId; A "value" (asset_name (asset f)); OnChange asset_event]
       (map (fun o => El "option" [A "value" (asset_name o.1)] [Txt o.2]) ASSET_OPTIONS)].
(** The trigger gets its type and its click from the popover. *)
Definition picker_trigger (open : bool) (text : string) : node ev :=
  El "button" [A "type" "button"; A "id" dueDateId; A "aria-describedby" dueDateHelpId; A "aria-haspopup" "dialog"; Flag "aria-expanded" open;
               Flag "disabled" false; OnClick [OpenPicker (negb open)]]
    [Icon "CalendarIcon"; El "span" [] [Txt text]].
Definition due_date_field (open : bool) (text : string) : node ev :=
  El "div" []
    [El "label" [A "htmlFor" dueDateId] [Txt "Due Date"]; picker_trigger open text;
     El "span" [A "id" dueDateHelpId] [Txt "Select invoice maturity date"]].
Definition slide (v : string) : ev :=
  InForm (Edit (EditDiscount (default 50 (List.find (fun k => String.eqb (Num.bigint_to_string k) v) slider)))).
Definition rate_field (f : InvoiceForm) : node ev :=
  El "div" []
    [El "div" [] [El "span" [] [Txt "Financing Discount Rate"]; El "span" [] [Txt (rate_label f)]];
     El "input" [A "type" "range"; A "min" "50"; A "max" "500"; A "step" "10"; A "value" (Num.to_string (discountBps f));
                 OnAmong (map Num.bigint_to_string slider) slide; A "aria-label" "Financing Discount Rate"] [];
     El "div" [] [El "span" [] [Txt "0.5% (50 bps)"]; El "span" [] [Txt "5.0% (500 bps)"]]].
Definition list_field (f : InvoiceForm) : node ev :=
  El "div" []
    [El "input" [A "type" "checkbox"; A "id" "immediateList"; Flag "checked" (immediateList f);
                 OnToggle (fun b => InForm (Edit (EditList b)))] [];
     El "label" [A "htmlFor" "immediateList"] [Txt "List for immediate LP financing at creation"]].
Definition error_alert (f : InvoiceForm) : node ev :=
  when (opt_str_truthy (error f)) (El "div" [A "role" "alert"] [Icon "ShieldAlert"; El "span" [] [Txt (default "" (error f))]]).
Definition first_step (s : state) (text : string) : node ev :=
  let f := form (page s) in
  El "form" [OnSubmit (InForm Review)]
    [buyer_field f;
     El "div" []
       [El "div" [] [amount_field inputId (face_value_input toLocaleString f) "50,000.00" false true (fun v => InForm (Edit (EditFaceValue v)))];
        asset_field f; due_date_field (pickerOpen s) text];
     rate_field f; list_field f; error_alert f;
     El "button" [A "type" "submit"] [Txt "REVIEW FINANCING TERMS"]].

(** *** The second step *)
Definition summary_row (label value : string) : node ev := El "div" [] [El "span" [] [Txt label]; El "span" [] [Txt value]].
Definition summary_panel (f : InvoiceForm) : node ev :=
  let v := summary toLocaleString f in
  El "div" []
    [summary_row "Invoice Face Value:" (su_faceValue v);
     when_some (su_discount v) (fun d => summary_row d.1 d.2); when_some (su_payout v) (summary_row "Net Payout Today:");
     summary_row "Buyer:" (su_buyer v); summary_row "Due Date:" (su_dueDate v)].
Definition second_step (s : state) : node ev :=
  let f := form (page s) in
  El "div" []
    [summary_panel f; error_alert f;
     El "div" []
       [El "button" [A "type" "button"; Flag "disabled" (isBusy (page s)); OnClick [InForm Back]] [Txt "BACK"];
        El "button" [A "type" "button"; Flag "disabled" (isBusy (page s)); OnClick [InForm CreateClick]]
          [Txt (create_label (isListing f) (isBusy (page s)))]]].

(** *** The form *)
Definition step_marks : node ev :=
  El "div" [] [El "div" [] [El "div" [] [Txt "1"]; El "span" [] [Txt "Terms"]]; El "div" [] [];
               El "div" [] [El "div" [] [Txt "2"]; El "span" [] [Txt "Sign"]]].
Definition popover (today : Z) (s : state) : node ev :=
  let p := due_date_props today (form (page s)) in
  when (pickerOpen s) (El "div" [A "role" "dialog"] [lift (PickDay today) (calendar (Picker.selectedDate p) (Picker.dayDisabled p))]).
Definition view (today : Z) (s : state) : res (node ev) :=
  let f := form (page s) in
  let heading := El "div" [] [Icon "PlusCircle"; El "h2" [] [Txt "Create trade Invoice"]] in
  if InvoiceForm.step f =? 1 then
    match Picker.trigger (due_date_props today f) with
    | Some text => Ok (Frag [El "div" [] [heading; step_marks; first_step s text]; popover today s])
    | None => Throw (JErr CRangeError "Invalid time value" [])
    end
  else Ok (El "div" [] [heading; step_marks; second_step s]).

(** ** The form driven through its view *)
(** What does not come from a control: the SDK that has loaded or failed to, the end of a
    submission, a click beside the popover or Escape in it. *)
Definition outside (s : state) (e : ev) : Prop :=
  match e with
  | InForm (Checked _ _) | InForm (NotLoaded _) => True
  | InForm (Ended _) => isBusy (page s) = true
  | OpenPicker o => o = false
  | _ => False
  end.
(** Any control of any render, at any moment, and what comes from outside. *)
Inductive used : state -> list ev -> Prop :=
  | used_start : used initial []
  | used_action s es today n acts : used s es -> view today s = Ok n -> act n acts ->
      used (foldl step s acts) (es ++ acts)
  | used_outside s es e : used s es -> outside s e -> used (step s e) (es ++ [e]).
End FormView.
End FormView.

(** ** Properties *)
Module FormViewFacts.
Import FormPage FormView.
Section Facts.
Context `{F : DateFns} {L : DateFnsLaws F} (valid : string -> bool) (startOfDay : Z -> Z -> Z) (toLocaleString : num -> string).
Context (fieldId inputId : string) (calendar : option Z -> (Z -> bool) -> node (option Z)).
(** The calendar reports one day at a time, of those it shows and that are enabled; a click on
    the selected day takes the selection back. *)
Context (calendar_days : forall selected off,
  offers (fun day => match day with Some d => off d = false /\ FormPageFacts.calendar_day d | None => is_Some selected end) (calendar selected off)).
Abbreviation view := (view toLocaleString fieldId inputId calendar).
Abbreviation step := (step valid startOfDay).
Abbreviation run := (FormPage.run valid startOfDay).
Abbreviation used := (used valid startOfDay toLocaleString fieldId inputId calendar).

(** Whatever the controls send, the form acts on. *)
Definition sensible (s : state) (e : ev) : Prop :=
  let p := page s in
  match e with
  | InForm (Edit (EditDiscount k)) => InvoiceForm.step (form p) = 1 /\ k ∈ slider
  | InForm (Edit (EditDueDate _ _)) => False
  | InForm (Edit _) => InvoiceForm.step (form p) = 1
  | InForm Review => InvoiceForm.step (form p) = 1 /\ required (form p) = true
  | InForm Back | InForm CreateClick => InvoiceForm.step (form p) <> 1 /\ isBusy p = false
  | InForm _ => False
  | OpenPicker o => InvoiceForm.step (form p) = 1 /\ o = negb (pickerOpen s)
  | PickDay today day => InvoiceForm.step (form p) = 1 /\ pickerOpen s = true /\
      match day with Some d => today <= d /\ FormPageFacts.calendar_day d | None => True end
  end.

Lemma alert_offers sub P f : offers_in sub P (error_alert f).
Proof. unfold error_alert. offering. Qed.
Lemma popover_offers today s : InvoiceForm.step (form (page s)) = 1 -> offers (sensible s) (popover calendar today s).
Proof.
  intros H1. unfold popover. cbv zeta. offering. eapply offers_mono; [|apply calendar_days].
  intros [d|] Hd; cbn; [|done]. destruct Hd as [Hd Hc]. split_and!; try done. unfold Picker.dayDisabled in Hd. cbn in Hd. lia.
Qed.
Lemma slide_in v : exists k, k ∈ slider /\ slide v = InForm (Edit (EditDiscount k)).
Proof.
  unfold slide. destruct (List.find _ slider) as [k|] eqn:E.
  - apply List.find_some in E as [Hk _]. exists k. by rewrite list_elem_of_In.
  - exists 50. split; [by left|done].
Qed.
Lemma rate_offers sub s f : InvoiceForm.step (form (page s)) = 1 -> offers_in sub (sensible s) (rate_field f).
Proof.
  intros H1. unfold rate_field. apply offers_box; [done|]. constructor; [offering|]. constructor; [|constructor; [offering|done]].
  apply offers_control; [intros _; by split; left| |done].
  constructor; [|done]. apply list.Forall_fmap, list.Forall_forall. intros v _. destruct (slide_in v) as (k & Hk & E).
  change (sensible s (slide v)). by rewrite E.
Qed.
Lemma first_offers s text : InvoiceForm.step (form (page s)) = 1 ->
  offers (sensible s) (first_step toLocaleString fieldId inputId s text).
Proof.
  intros H1. unfold first_step. cbv zeta. apply offers_form. intros sub Hs.
  assert (Hr : one (sensible s) sub).
  { apply (one_submission _ _ _ _ Hs). intros H. split; [done|]. cbn in H. unfold required.
    destruct (String.eqb (buyer _) ""), (String.eqb (faceValue _) ""); done. }
  unfold buyer_field, amount_field, asset_field, due_date_field, picker_trigger, list_field. offering;
    first [by apply rate_offers|apply alert_offers|by split|done].
Qed.
Lemma second_offers s : InvoiceForm.step (form (page s)) <> 1 -> offers (sensible s) (second_step toLocaleString s).
Proof.
  intros H1. unfold second_step, summary_panel, summary_row. cbv zeta. offering; [apply alert_offers|..].
  all: split; [done|]; by destruct (isBusy (page s)).
Qed.
Lemma form_offers today s n : view today s = Ok n -> offers (sensible s) n.
Proof.
  unfold FormView.view, step_marks. cbv zeta. destruct (Z.eqb_spec (InvoiceForm.step (form (page s))) 1) as [H1|H1].
  - destruct (Picker.trigger _); [|done]. intros [= <-]. offering; [by apply first_offers|by apply popover_offers].
  - intros [= <-]. offering. by apply second_offers.
Qed.

(** *** Runs of the form and of the component *)
Lemma run_app es1 : forall es2 p, run p (es1 ++ es2) =
  ((run (run p es1).1 es2).1, (run p es1).2 ++ (run (run p es1).1 es2).2).
Proof.
  induction es1 as [|e es1 IH]; intros es2 p; [cbn; by destruct (run p es2)|]. cbn.
  destruct (FormPage.step valid startOfDay p e) as [p1 o]. rewrite IH. destruct (run p1 es1) as [p2 l]. by destruct o.
Qed.
Lemma step_page s e : page (step s e) = (run (page s) (option_list (sent e))).1.
Proof.
  unfold FormView.step. destruct (sent e) as [x|]; cbn; [|done]. by destruct (FormPage.step valid startOfDay (page s) x) as [p [f|]].
Qed.
(** Whenever it comes, no event makes a due date or a rate the form cannot show. *)
Lemma terms_step p e : FormPageFacts.offered e -> FormPageFacts.dated (form p) /\ FormPageFacts.rated (form p) ->
  let s' := (FormPage.step valid startOfDay p e).1 in FormPageFacts.dated (form s') /\ FormPageFacts.rated (form s').
Proof.
  intros Ho Ht. destruct e as [x| |id now|id| | |r]; cbn.
  - destruct (_ =? 1); [by apply FormPageFacts.edited_terms|done].
  - by destruct (_ && _).
  - destruct (submitted p id) as [f0|]; [|done]. cbn. unfold settle_check. cbv zeta.
    destruct (error _), (String.eqb _ _); done.
  - done.
  - by destruct (_ && _).
  - by destruct (_ && _).
  - destruct (isBusy p); [|done]. destruct r; cbn; [done|]. split; [by left|apply Ht].
Qed.
Lemma terms_run es : forall p, Forall FormPageFacts.offered es -> FormPageFacts.dated (form p) /\ FormPageFacts.rated (form p) ->
  FormPageFacts.dated (form (run p es).1) /\ FormPageFacts.rated (form (run p es).1) /\
  forall f, f ∈ (run p es).2 -> FormPageFacts.dated f /\ FormPageFacts.rated f.
Proof.
  induction es as [|e es IH]; intros p Ho Ht; [split_and!; try apply Ht; by intros f ?%elem_of_nil|].
  apply list.Forall_cons in Ho as [Ho1 Ho2]. pose proof (terms_step p e Ho1 Ht) as Hs. specialize (IH _ Ho2 Hs).
  assert (Hc : forall f, (FormPage.step valid startOfDay p e).2 = Some f -> f = form p).
  { intros f. destruct e; cbn; try done; try (by destruct (_ && _)); [by destruct (submitted p id)|].
    destruct (_ && _); [by intros [= <-]|done]. }
  cbn. destruct (FormPage.step valid startOfDay p e) as [p1 [g|]]; cbn in *; destruct (run p1 es) as [p2 l]; cbn in *; [|done].
  destruct IH as (Hd & Hr & IH). split_and!; [done..|]. intros f [->|Hf]%elem_of_cons; [|by apply IH]. by rewrite (Hc g eq_refl).
Qed.

(** What the controls send are events of the form as [FormPage] has them. *)
Lemma sensible_offered s e x : sensible s e -> sent e = Some x -> FormPageFacts.offered x.
Proof.
  destruct e as [x'|o|today [d|]]; intros Hs [= <-]; [|by apply Hs].
  destruct x' as [[]| | | | | |]; try done. by apply Hs.
Qed.
Lemma outside_offered s e x : outside s e -> sent e = Some x -> FormPageFacts.offered x.
Proof. destruct e as [[]|o|today [d|]]; by intros ? [= <-]. Qed.

Lemma i_terms_initial : FormPageFacts.dated (form FormPage.initial) /\ FormPageFacts.rated (form FormPage.initial).
Proof. apply (FormPageFacts.i_terms valid startOfDay [] _ (FormPageFacts.initial_inv valid startOfDay [])). Qed.
Record follows (s : state) (es : list ev) : Prop := {
  f_page : page s = (run FormPage.initial (omap sent es)).1;
  f_offered : Forall FormPageFacts.offered (omap sent es) }.
Lemma follows_step s es e : follows s es -> (forall x, sent e = Some x -> FormPageFacts.offered x) -> follows (step s e) (es ++ [e]).
Proof.
  intros [Hp Ho] He. assert (E : omap sent (es ++ [e]) = omap sent es ++ option_list (sent e)).
  { rewrite omap_app. cbn. by destruct (sent e). }
  constructor; rewrite E.
  - rewrite step_page, Hp, run_app. done.
  - apply Forall_app. split; [done|]. destruct (sent e) as [x|]; [|done]. constructor; [|done]. by apply He.
Qed.
Lemma used_follows s es : used s es -> follows s es.
Proof.
  induction 1 as [|s es today n acts _ IH Hv Ha|s es e _ IH He]; [done| |].
  - destruct (form_offers today s n Hv acts Ha) as [->|(e & -> & He)]; [by rewrite app_nil_r|].
    apply follows_step; [done|]. intros x. by apply (sensible_offered s e).
  - apply follows_step; [done|]. intros x. by apply (outside_offered s e).
Qed.
(** The invoices that were created, and that from every review to the end of its check, for
    which the SDK is loaded, the form was left alone. *)
Definition created (es : list ev) : list InvoiceForm := (run FormPage.initial (omap sent es)).2.
Definition left_alone (es : list ev) : Prop := FormPageFacts.calm valid startOfDay FormPage.initial (omap sent es) = true.
Definition checks_in_range (es : list ev) : Prop :=
  forall id now k, InForm (Checked id now) ∈ es -> 0 <= k <= 365 -> Z.abs (startOfDay now k) < 2 ^ 53.

End Facts.
End FormViewFacts.

(** ** Witness *)
Module FormViewWitness.
Import FormPage FormView FormPageWitness.
#[local] Existing Instance MockDateFns.fns.
(** A calendar that shows one day. *)
Definition calendar (selected : option Z) (off : Z -> bool) : node (option Z) :=
  El "td" [] [El "button" [Flag "disabled" (off day); OnClick [if bool_decide (selected = Some day) then None else Some day]] [Txt "8"]].
Definition plain_number (n : num) : string := Num.to_string n.
Abbreviation used := (used (fun _ => true) (zone_midnight 0) plain_number ":r1:" ":r2:" calendar).
Abbreviation view := (view plain_number ":r1:" ":r2:" calendar).
Definition driven : list ev :=
  [InForm (Edit (EditBuyer " G ")); InForm (Edit (EditFaceValue "1,000.50")); OpenPicker true; PickDay today (Some day);
   InForm (Edit (EditDiscount 150)); InForm Review; InForm (Checked 0 noon); InForm CreateClick].
(** The same, with a new face value typed while the SDK loads. *)
Definition hurried : list ev := take 6 driven ++ [InForm (Edit (EditFaceValue "-5"))] ++ drop 6 driven.
Definition after (es : list ev) : state := foldl (step (fun _ => true) (zone_midnight 0)) initial es.
Definition at_form (es : list ev) : node ev := match view today (after es) with Ok n => n | Throw _ => Frag [] end.

Lemma calendar_days selected off :
  offers (fun d => match d with Some d => off d = false /\ FormPageFacts.calendar_day d | None => is_Some selected end) (calendar selected off).
Proof.
  assert (Hd : FormPageFacts.calendar_day day) by (repeat split; by vm_compute).
  assert (H : off day = false -> match (if bool_decide (selected = Some day) then None else Some day) with
    Some d => off d = false /\ FormPageFacts.calendar_day d | None => is_Some selected end).
  { intros Ho. case_bool_decide; [by eexists|done]. }
  unfold calendar. offering; [apply H; cbn in *; by destruct (off day)..|].
  unfold fields_of. by destruct (disabled _); constructor.
Qed.
(** The next action of the list. *)
Lemma next_action es e : used (after es) es ->
  view today (after es) = Ok (at_form es) -> act (at_form es) [e] -> used (after (es ++ [e])) (es ++ [e]).
Proof.
  intros Hu Hv Ha. unfold after at 1. rewrite foldl_app. by apply (used_action _ _ _ _ _ _ _ _ today (at_form es)).
Qed.
Lemma next_outside es e : used (after es) es -> outside (after es) e -> used (after (es ++ [e])) (es ++ [e]).
Proof. intros Hu Ho. unfold after at 1. rewrite foldl_app. by apply used_outside. Qed.
Ltac found := apply list_elem_of_In; vm_compute; tauto.
Lemma reviewed_used : used (after (take 6 driven)) (take 6 driven).
Proof.
  apply (next_action (take 5 driven)); [|by vm_compute|apply act_click; found].
  apply (next_action (take 4 driven)); [|by vm_compute|].
  2: { eapply act_pick; [apply list_elem_of_In; vm_compute; do 3 right; left; reflexivity|found]. }
  apply (next_action (take 3 driven)); [|by vm_compute|apply act_click; found].
  apply (next_action (take 2 driven)); [|by vm_compute|apply act_click; found].
  apply (next_action (take 1 driven)); [|by vm_compute|apply (act_type _ _ (fun v => InForm (Edit (EditFaceValue v))) "1,000.50"); found].
  apply (next_action []); [constructor|reflexivity|apply (act_type _ _ (fun v => InForm (Edit (EditBuyer v))) " G "); found].
Qed.
Lemma driven_used : used (after driven) driven.
Proof.
  apply (next_action (take 7 driven)); [|by vm_compute|apply act_click; found].
  apply (next_outside (take 6 driven)); [exact reviewed_used|done].
Qed.
Lemma hurried_used : used (after hurried) hurried.
Proof.
  apply (next_action (take 8 hurried)); [|by vm_compute|apply act_click; found].
  apply (next_outside (take 7 hurried)); [|done].
  apply (next_action (take 6 driven)); [exact reviewed_used|by vm_compute|].
  apply (act_type _ _ (fun v => InForm (Edit (EditFaceValue v))) "-5"); found.
Qed.
(** The face value is changed through its field while the SDK loads, and so created unchecked. *)
Lemma hurried_edit_is_created_unchecked : used (after hurried) hurried /\
  map faceValue (FormViewFacts.created (fun _ => true) (zone_midnight 0) hurried) = ["-5"].
Proof. split; [exact hurried_used|by vm_compute]. Qed.
End FormViewWitness.

