(* ===== verification/ProfileView.v ===== *)
(** * The markup of the profile page ([app/profile/page.tsx], [components/shared/TxHistory.tsx])

    The page over its states ([ProfilePage]): the card of a profile or the prompt to register,
    the toggles and the history of the address, the dialog of the registration and that of its
    transaction.  The theorem of the file says which requests one action can lead to. *)

From S2P Require Import Prelude JsNumber JsString JsValue SdkTypes Storage Preferences Registration TxHistory ProfilePage.
From S2P Require Import Markup DialogViews FrameViews Skeletons.
Local Open Scope Z_scope.

(** Characters outside Latin-1, under codes of the controls. *)
Definition bullet : string := String (chr 149) "".
Definition ballot_cross : string := String (chr 152) "".

Module ProfileView.
Import ProfilePage.ProfilePage Skeletons.Skeletons.
(** [Refetch] is the query's, [CopyHash] the clipboard's, [OnWallet] the wallet store's. *)
Inductive ev := OnPage (e : event) | OnWallet (e : WalletView.ev) | CopyHash (hash : string) | Refetch.
Section View.
Context (toLocaleDateString toLocaleString : num -> string) (registryContractID headingId : string).
(** What the hooks give a render. *)
Record data := {
  d_profile : option Profile; d_isProfileLoading : bool; d_isVerified : bool; d_isVerifiedLoading : bool;
  d_history : option page; d_historyLoading : bool; d_historyError : jsval; d_copiedHash : option string;
  d_wallet : WalletView.state; d_reduceMotion : bool }.

(** *** The profile *)
Definition wallet_prompt (d : data) : node ev :=
  El "div" []
    [El "div" [] [Icon "Building2"]; El "h1" [] [Txt "Connect Your Wallet"];
     El "p" [] [Txt "Connect your Freighter wallet to check your on-chain verification credentials, register a new business profile, or update your metadata."];
     lift OnWallet (WalletView.view (d_wallet d))].
Definition loading_box : node ev :=
  El "div" [A "role" "status"] [El "span" [A "aria-hidden" "true"] []; El "span" [] [Txt "Loading profile credentials..."]].
Definition detail (label value : string) : node ev := El "div" [] [El "span" [] [Txt label]; El "span" [] [Txt value]].
Definition status_banner (isVerified : bool) (c : ProfileCard) : node ev :=
  El "div" []
    [El "div" []
       [El "div" [] [Icon (if isVerified then "ShieldCheck" else "ShieldAlert")];
        El "div" []
          [El "div" [] [El "span" [] [Txt "Status:"]; El "span" [] [Txt (pc_status c)]];
           El "h2" [] [Txt (pc_heading c)];
           El "p" [] [Txt "Registered on Registry Contract "; Txt bullet; Txt " Address: "; Txt (pc_address c)]]];
     El "div" []
       [El "button" [Flag "disabled" true; A "aria-describedby" "metadata-update-note"] [Txt "Update Metadata"];
        El "p" [A "id" "metadata-update-note"]
          [Txt "Registration on the Registry contract is a one-time action and the stored profile has no metadata fields, so an existing profile cannot be updated from here."]]].
Definition credentials (isVerified : bool) (c : ProfileCard) : node ev :=
  El "div" []
    [El "div" []
       [El "h3" [] [Icon "Building"; Txt "Corporate Information"];
        El "div" [] [detail "Role" (pc_role c); detail "Wallet Address" (pc_wallet c); detail "Registered At" (pc_registeredAt c)]];
     El "div" []
       [El "h3" [] [Icon "FileBadge2"; Txt "Verification Credentials"];
        El "div" []
          [detail "On-Chain Status" (pc_onChain c);
           El "div" [] [El "span" [] [Txt "Registry Contract"]; El "span" [A "title" registryContractID] [Txt (pc_contract c)]];
           detail "Network" "Stellar Testnet"]]].
Definition registration_prompt : node ev :=
  El "div" []
    [El "div" [] [Icon "Fingerprint"];
     El "div" []
       [El "h2" [] [Txt "No Business Profile Found"];
        El "p" [] [Txt "Your connected wallet is not yet registered on the TrusTrove Registry contract. Register as an SME Issuer to tokenize invoices or as a Buyer to verify and settle them."]];
     El "button" [OnClick [OnPage (Form Page.OpenModal)]] [Txt "Register Business Profile"]].
Definition content (s : state) (d : data) : node ev :=
  match profile_screen toLocaleDateString registryContractID (connected (session s)) (address (session s)) (d_profile d)
          (d_isProfileLoading d) (d_isVerified d) (d_isVerifiedLoading d) with
  | ConnectPrompt => Frag []
  | LoadingProfile => loading_box
  | ProfileScreen c => El "div" [] [status_banner (d_isVerified d) c; credentials (d_isVerified d) c]
  | RegistrationPrompt => registration_prompt
  end.

(** *** The panels of the address *)
Definition preference_row (p : jsval) (category : string) : node ev :=
  El "div" []
    [El "span" [] [Txt category];
     El "label" []
       [El "input" [A "type" "checkbox"; A "aria-label" (category +:+ " notifications");
                    Flag "checked" (match Toggles.checked p category with Ok b => b | Throw _ => false end);
                    OnToggle (fun _ => OnPage (Toggle category))] []; El "div" [] []]].
Definition preferences (p : jsval) : node ev :=
  El "div" []
    [El "div" [] [El "h2" [] [Icon "BellRing"; Txt "Notification Preferences"];
                  El "p" [] [Txt "Choose which on-chain events trigger in-app notifications."]];
     El "div" [] (map (preference_row p) NOTIFICATION_CATEGORIES)].

Definition TxRowSkeleton : node ev :=
  El "div" [] [El "div" [] [SkeletonShimmer; El "div" [] [SkeletonShimmer; SkeletonShimmer]]; El "div" [] [SkeletonShimmer; SkeletonShimmer]].
Definition history_row (copied : option string) (tx : TxHistoryItem) : node ev :=
  let r := tx_row toLocaleString tx in
  El "div" []
    [El "div" [] [Icon (if tr_success r then "CheckCircle" else "XCircle"); El "div" [] [El "span" [] [Txt (tr_type r)]; El "span" [] [Txt (tr_time r)]]];
     El "div" []
       [when_some (tr_amount r) (fun a => El "span" [] [Txt a]);
        El "div" []
          [El "button" [A "type" "button"; OnClick [CopyHash (it_hash tx)]; A "title" "Copy transaction hash"; A "aria-label" "Copy transaction hash"]
             [if bool_decide (copied = Some (it_hash tx)) then El "span" [] [Txt "Copied!"] else Icon "Copy"];
           El "a" [A "href" (tr_link r); A "target" "_blank"; A "rel" "noopener noreferrer"] [Txt (tr_hash r); Icon "ExternalLink"]]]].
Definition history_pager (d : data) (v : Hook.view) : node ev :=
  El "div" []
    [El "button" [A "type" "button"; OnClick [OnPage (History Hook.GoPrev)]; Flag "disabled" (negb (Hook.v_hasPrev v))] [Icon "ChevronLeft"; Txt "Previous"];
     El "span" [] [Txt (page_text v)];
     El "button" [A "type" "button"; OnClick [OnPage (History (Hook.GoNext (d_history d)))]; Flag "disabled" (negb (Hook.v_hasNext v))]
       [Txt "Next"; Icon "ChevronRight"]].
Definition history_content (d : data) (v : Hook.view) : node ev :=
  match history_view toLocaleString v (d_historyLoading d) (d_historyError d) with
  | HistoryError m => El "div" [] [El "p" [] [Txt m]; El "button" [A "type" "button"; OnClick [Refetch]] [Txt "Try again"]]
  | HistorySkeletons => El "div" [] (replicate 3 TxRowSkeleton)
  | HistoryEmpty => El "p" [] [Txt "No TrusTrove transactions found for this wallet."]
  | HistoryRows _ _ _ _ => Frag [El "div" [] (map (history_row (d_copiedHash d)) (Hook.v_transactions v)); history_pager d v]
  end.
Definition history (d : data) (h : Hook.state) : node ev :=
  let v := Hook.shown h (d_history d) in
  El "section" [A "aria-labelledby" headingId]
    [El "div" [] [El "h2" [A "id" headingId] [Txt "Transaction History"]; when_some (history_heading v) (fun p => El "span" [] [Txt p])];
     history_content d v].

(** *** The dialog of the registration *)
Definition edit_form (f : Registration.Form) : ev := OnPage (Form (Page.Edit f)).
Definition role_button (f : Registration.Form) (r : Role) (text : string) : node ev :=
  El "button" [A "type" "button"; OnClick [edit_form (RegistrationView.with_role f r)]] [Txt text].
(** The labels of the dialog are not tied to its fields. *)
Definition plain_field (label kind placeholder value : string) (set : string -> Registration.Form) : node ev :=
  El "div" []
    [El "label" [] [Txt label];
     El "input" [A "type" kind; A "value" value; OnChange (fun v => edit_form (set v)); A "placeholder" placeholder] []].
Definition profile_form (s : Page.state) (profile : option Profile) : node ev :=
  let f := Page.form s in
  El "form" [OnSubmit (OnPage (Form Page.Submit))]
    [when (dialog_texts profile).1.2
       (El "div" [] [El "label" [] [Txt "Role"]; El "div" [] [role_button f Issuer "SME / Issuer"; role_button f Buyer "Buyer"]]);
     plain_field "Company Name *" "text" "e.g. Acme Corporation" (companyName f) (RegistrationView.with_company f);
     plain_field "Tax ID / Registration Number *" "text" "e.g. REG-123456789" (taxId f) (RegistrationView.with_taxId f);
     plain_field "Country of Incorporation *" "text" "e.g. United States" (country f) (RegistrationView.with_country f);
     El "div" []
       [plain_field "Website (Optional)" "text" "https://acme.com" (website f) (RegistrationView.with_website f);
        plain_field "Email (Optional)" "email" "contact@acme.com" (email f) (RegistrationView.with_email f)];
     El "div" []
       [El "button" [A "type" "button"; OnClick [OnPage (Form Page.CloseModal)]] [Txt "Cancel"];
        El "button" [A "type" "submit"] [Txt (dialog_texts profile).2]]].
Definition registration_dialog (s : Page.state) (profile : option Profile) : node ev :=
  when (Page.showRegModal s)
    (El "div" [A "role" "dialog"; A "aria-modal" "true"; A "aria-labelledby" "registration-dialog-title"; A "tabIndex" "-1"]
      [El "div" []
         [El "div" []
            [El "h2" [A "id" "registration-dialog-title"] [Txt (dialog_texts profile).1.1];
             El "button" [A "type" "button"; OnClick [OnPage (Form Page.CloseModal)]; A "aria-label" "Close registration dialog"] [Txt ballot_cross]];
          when (opt_str_truthy (Page.localError s)) (El "div" [] [Icon "ShieldAlert"; El "span" [] [Txt (default "" (Page.localError s))]]);
          profile_form s profile]]).

(** *** The page *)
Definition view (s : state) (d : data) : node ev :=
  match mounted s with
  | None => wallet_prompt d
  | Some p =>
      El "div" []
        [El "div" []
           [El "h1" [] [Txt "Business profile & Verification"];
            El "p" [] [Txt "Manage your on-chain corporate credentials and verification states on the TrusTrove Registry contract."]];
         content s d;
         when_some (owned p) (fun o => Frag [preferences (Toggles.prefs o.1); history d o.2]);
         registration_dialog (registration s) (d_profile d);
         lift (fun _ => OnPage PendingClose)
           (PendingView.view true (d_reduceMotion d) (Page.pendingText (registration s)) (pending p))]
  end.
End View.
End ProfileView.

(** ** Properties *)
Module ProfileViewFacts.
Import ProfilePage.ProfilePage ProfileView.
Section Facts.
Context (toLocaleDateString toLocaleString : num -> string) (registryContractID headingId : string).
Abbreviation view := (view toLocaleDateString toLocaleString registryContractID headingId).

(** What the page lets a user do. *)
Definition allowed (s : state) (d : data) (e : ev) : Prop :=
  let r := registration s in
  match e with
  | OnWallet _ => mounted s = None
  | CopyHash h => exists tx, it_hash tx = h /\ exists p, d_history d = Some p /\ tx ∈ pg_items p
  | Refetch => truthy (d_historyError d) = true
  | OnPage (Form Page.OpenModal) => d_profile d = None /\ d_isProfileLoading d = false /\ d_isVerifiedLoading d = false
  | OnPage (Form (Page.Edit f)) => Page.showRegModal r = true /\ (is_Some (d_profile d) -> regRole f = regRole (Page.form r))
  | OnPage (Form Page.CloseModal) | OnPage (Form Page.Submit) => Page.showRegModal r = true
  | OnPage PendingClose => exists p, mounted s = Some p /\ Pending.isOpen (pending p) = true
  | OnPage (Toggle c) => c ∈ NOTIFICATION_CATEGORIES
  | OnPage (History Hook.GoPrev) => exists t h, mounted s ≫= owned = Some (t, h) /\ Paging.hasPrev (Hook.paging h) = true
  | OnPage (History (Hook.GoNext data)) => data = d_history d /\ opt_str_truthy (data ≫= pg_nextCursor) = true
  | OnPage _ => False
  end.
Definition sent (e : ev) : option event := match e with OnPage e => Some e | _ => None end.

Lemma content_offers s d : offers (allowed s d) (content toLocaleDateString registryContractID s d).
Proof.
  unfold content, profile_screen. destruct (negb _); [by apply offers_frag|].
  destruct (d_isProfileLoading d) eqn:H1; cbn [orb]; [unfold loading_box; offering|].
  destruct (d_isVerifiedLoading d) eqn:H2; cbn [orb]; [unfold loading_box; offering|].
  destruct (d_profile d) as [pr|] eqn:H3; [unfold status_banner, credentials, detail|unfold registration_prompt]; offering; done.
Qed.
Lemma dialog_offers s d : offers (allowed s d) (registration_dialog (registration s) (d_profile d)).
Proof.
  unfold registration_dialog. apply offers_when. intros Hm. offering; [done..|]. unfold profile_form. apply offers_form. intros sub Hs. assert (one (allowed s d) sub) by (by apply (one_submission _ _ _ _ Hs)).
  unfold role_button, plain_field, dialog_texts. offering; try done.
  all: try (constructor; [|done]; intros v; by split).
  all: split; [done|]; by destruct (d_profile d); [|intros []].
Qed.
Lemma copied_hash d h tx : tx ∈ Hook.v_transactions (Hook.shown h (d_history d)) ->
  exists tx', it_hash tx' = it_hash tx /\ exists p, d_history d = Some p /\ tx' ∈ pg_items p.
Proof. cbn. destruct (d_history d) as [p|]; [|by intros ?%not_elem_of_nil]. intros H. exists tx. split; [done|]. by exists p. Qed.
Lemma history_offers s d t h : mounted s ≫= owned = Some (t, h) -> offers (allowed s d) (history toLocaleString headingId d h).
Proof.
  intros Ho. unfold history. cbv zeta. offering. unfold history_content, history_view.
  destruct (truthy (d_historyError d)) eqn:He; cbv iota; [offering; done|].
  destruct (d_historyLoading d); cbv iota; [apply offers_inert; showing|].
  destruct (Hook.v_transactions (Hook.shown h (d_history d))) as [|x l] eqn:E; cbv iota; [offering|]. rewrite <- E. unfold history_row, history_pager. cbv zeta. offering.
  - by apply (copied_hash d h).
  - by apply (copied_hash d h).
  - constructor; [|done]. case_bool_decide; showing.
  - exists t, h. split; [done|]. match goal with Hd : disabled _ = false |- _ => change (negb (Paging.hasPrev (Hook.paging h)) || false = false) in Hd end.
    by destruct (Paging.hasPrev (Hook.paging h)).
  - exists t, h. split; [done|]. match goal with Hd : disabled _ = false |- _ => change (negb (Paging.hasPrev (Hook.paging h)) || false = false) in Hd end.
    by destruct (Paging.hasPrev (Hook.paging h)).
  - split; [done|]. match goal with Hd : disabled _ = false |- _ => change (negb (opt_str_truthy (d_history d ≫= pg_nextCursor)) || false = false) in Hd end.
    by destruct (opt_str_truthy (d_history d ≫= pg_nextCursor)).
  - split; [done|]. match goal with Hd : disabled _ = false |- _ => change (negb (opt_str_truthy (d_history d ≫= pg_nextCursor)) || false = false) in Hd end.
    by destruct (opt_str_truthy (d_history d ≫= pg_nextCursor)).
Qed.
Lemma profile_page_offers s d : offers (allowed s d) (view s d).
Proof.
  unfold ProfileView.view. destruct (mounted s) as [p|] eqn:Hm.
  - offering.
    + apply content_offers.
    + unfold preferences, preference_row. offering; done.
    + destruct x as [t h]. apply (history_offers s d t). by rewrite Hm.
    + apply dialog_offers.
    + intros es Ha%PendingViewFacts.pending_actions. destruct Ha as [->|(-> & Ho & _)]; [by left|right].
      eexists. split; [done|]. by exists p.
  - unfold wallet_prompt. offering. intros es Ha%WalletViewFacts.wallet_actions.
    destruct Ha as [->|[[-> _]|[[[E|E] _]|[-> _]]]]; try subst es; [by left|..]; right; by eexists.
Qed.

(** C37: one action on the profile page sends at most one event, one the page allows in its
    state; a registration is asked for only by submitting the open dialog with its
    required fields filled, with what the dialog shows; where there is a profile its fields keep the role. *)
Theorem profile_page_actions s d es : act (view s d) es ->
  one (allowed s d) es /\
  forall r, r ∈ (ProfilePage.ProfilePage.run s (omap sent es)).2 ->
    es = [OnPage (Form Page.Submit)] /\ connected (session s) = true /\ Page.showRegModal (registration s) = true /\
    invalid (Page.form (registration s)) = None /\
    r = (regRole (Page.form (registration s)), metadata (Page.form (registration s))).
Proof.
  intros Ha%profile_page_offers. split; [done|]. intros r. destruct Ha as [->|(e & -> & He)]; [by intros ?%not_elem_of_nil|].
  destruct e as [e| | |]; cbn; [|by intros ?%not_elem_of_nil..].
  intros Hr. assert (Hr' : r ∈ (step s e).2) by (destruct (step s e); cbn in *; by rewrite app_nil_r in Hr). clear Hr.
  destruct e as [w|e| | |c|e]; try done; cbn in Hr'.
  - destruct e as [f| | | | |id a]; try done; destruct (connected (session s)) eqn:Hc; cbn in Hr'; try (by apply not_elem_of_nil in Hr').
    cbn in He. rewrite He in Hr'. unfold Page.submit in Hr'. destruct (invalid _) eqn:Hi; cbn in Hr'; [by apply not_elem_of_nil in Hr'|].
    by apply list_elem_of_singleton in Hr' as ->.
  - destruct (mounted s); [|by apply not_elem_of_nil in Hr']. destruct (Pending.closeButton _ _); by apply not_elem_of_nil in Hr'.
  - destruct (mounted s ≫= owned) as [[t h]|]; [|by apply not_elem_of_nil in Hr']. destruct (Toggles.toggleCategory t c); by apply not_elem_of_nil in Hr'.
  - destruct (mounted s ≫= owned) as [[t h]|]; [destruct e|]; by apply not_elem_of_nil in Hr'.
Qed.
End Facts.

(** The labels of the dialog name none of its fields. *)
Lemma registration_fields_unnamed s : Page.showRegModal s = true -> well_labelled (registration_dialog s None) = false.
Proof. intros Hm. unfold registration_dialog. rewrite Hm. by destruct (opt_str_truthy (Page.localError s)). Qed.
End ProfileViewFacts.

(** ** Witness *)
Definition sample_business : Registration.Form :=
  {| regRole := Issuer; companyName := "Acme"; taxId := "REG-1"; country := "NG"; website := ""; email := "" |}.
Definition sample_profile_page : ProfilePage.ProfilePage.state :=
  (ProfilePage.ProfilePage.run
     (ProfilePage.ProfilePage.mount empty_storage {| ProfilePage.ProfilePage.connected := true; ProfilePage.ProfilePage.address := None |})
     [ProfilePage.ProfilePage.Form Page.OpenModal; ProfilePage.ProfilePage.Form (Page.Edit sample_business)]).1.
Definition sample_profile_data : ProfileView.data :=
  {| ProfileView.d_profile := None; ProfileView.d_isProfileLoading := false; ProfileView.d_isVerified := false; ProfileView.d_isVerifiedLoading := false;
     ProfileView.d_history := None; ProfileView.d_historyLoading := true; ProfileView.d_historyError := JNull; ProfileView.d_copiedHash := None;
     ProfileView.d_wallet := {| WalletView.installed := None; WalletView.connected := true; WalletView.address := None; WalletView.network := None;
                    WalletView.loading := false; WalletView.walletError := None; WalletView.errorCode := None; WalletView.copied := false;
                    WalletView.copyError := None; WalletView.switchingNetwork := false; WalletView.networkSwitchError := None |};
     ProfileView.d_reduceMotion := false |}.
Lemma profile_page_actions_witness :
  let submit := ProfileView.OnPage (ProfilePage.ProfilePage.Form Page.Submit) in
  act (ProfileView.view Num.to_string Num.to_string "" ":r1:" sample_profile_page sample_profile_data) [submit] /\
  (regRole sample_business, metadata sample_business) ∈ (ProfilePage.ProfilePage.run sample_profile_page (omap ProfileViewFacts.sent [submit])).2 /\
  invalid (Page.form (ProfilePage.ProfilePage.registration sample_profile_page)) = None.
Proof.
  intros submit.
  assert (H : act (ProfileView.view Num.to_string Num.to_string "" ":r1:" sample_profile_page sample_profile_data) [submit]).
  { apply act_click, list_elem_of_In. vm_compute. tauto. }
  assert (Hr : (regRole sample_business, metadata sample_business) ∈ (ProfilePage.ProfilePage.run sample_profile_page (omap ProfileViewFacts.sent [submit])).2).
  { apply list_elem_of_In. vm_compute. tauto. }
  split; [exact H|]. split; [exact Hr|].
  exact (proj1 (proj2 (proj2 (proj2 (proj2 (ProfileViewFacts.profile_page_actions Num.to_string Num.to_string "" ":r1:" _ _ _ H) _ Hr))))).
Defined.
