(* ===== verification/PublicPages.v ===== *)
(** * Pages and bars that need no wallet

    The status bar and the live feed over the events they show ([EventViews]), the page that
    leads to the documentation with its boot log, the questions and answers of the help page,
    and the pages of errors ([components/shared/TopStatusBar.tsx], [InvoiceFeed.tsx], [app/docs/page.tsx],
    [app/help/page.tsx], [app/not-found.tsx], [app/error.tsx], [app/global-error.tsx]).  The
    frame around the pages (bars, footer) is [FrameViews]'. *)

From S2P Require Import Prelude JsNumber JsString JsValue SdkTypes WebParsers EventViews Markup Skeletons.
Local Open Scope Z_scope.

(** Characters outside Latin-1, under codes of the controls. *)
Definition check_mark : string := String (chr 153) "".
Definition minus_sign : string := String (chr 154) "".

(** ** The ticker *)
Module TickerView.
Import Ticker.
Inductive ev := PauseClick.
Definition item_view (hidden : bool) (i : TickerItem) : node ev :=
  El "div" (if hidden then [A "aria-hidden" "true"] else [])
    [El "span" [] [Txt (country i)]; El "span" [] [Txt (sme i)]; El "span" [] [Txt (amount i)]; El "span" [] [Txt "at"];
     El "span" [] [Txt (discount i); Txt " discount"]; El "span" [] [Txt ("(" +:+ time i +:+ ")")]; Icon "ArrowUpRight"].
(** The items are there twice, so that the scrolling has no seam. *)
Definition ticker_body (s : state) : node ev :=
  if isLoading (q s) then El "div" [] [El "span" [] []; El "span" [] [Txt "Loading live network activity..."]]
  else if isError (q s) then El "div" [] [El "span" [] []; El "span" [] [Txt "Live feed unavailable"]]
  else El "div" [] (map (item_view false) (tickerItems s) ++ map (item_view true) (tickerItems s)).
Definition pause_button (s : state) : node ev :=
  El "button" [OnClick [PauseClick]; A "aria-label" (if isPaused s then "Play ticker" else "Pause ticker")]
    [Icon (if isPaused s then "Play" else "Pause")].
Definition view (s : state) : node ev :=
  El "div" []
    [El "div" [] [El "span" [] [El "span" [] []; El "span" [] []]; El "span" [] [Txt ("SOROBAN TESTNET " +:+ em_dash +:+ " PROTOCOL V1.0")]];
     when (negb (isMobile s))
       (El "div" [A "role" "status"; A "aria-live" "polite"; A "aria-label" "Recent network activity"]
          [pause_button s; El "div" [] [ticker_body s]])].
End TickerView.

(** ** The feed *)
Module FeedView.
Section FeedView.
Context {Ev : Type}.
Definition FEED_HEADING_ID : string := "invoice-feed-heading".
Definition icon_name (i : FeedIcon) : string :=
  match i with
  | FilePlus2 => "FilePlus2" | Tag => "Tag" | Coins => "Coins" | Truck => "Truck" | PackageCheck => "PackageCheck"
  | BadgeCheck => "BadgeCheck" | AlertTriangle => "AlertTriangle" | Activity => "Activity"
  end.
Definition feed_item (e : FeedEntry) : node Ev :=
  El "li" []
    [El "div" [] [El "div" [] [Icon (icon_name (fe_icon e))]; El "div" [] [El "span" [] [Txt (fe_label e)]; El "span" [] [Txt (fe_time e)]]];
     El "div" [] [El "span" [] [Txt (fe_details e)]]].
Definition announcement (items : list FeedEntry) (newest : FeedEntry) : string :=
  Num.bigint_to_string (Z.of_nat (length items)) +:+ " recent events. Newest: " +:+ fe_label newest +:+ ", " +:+ fe_time newest +:+ ".".
Definition feed_body (isLoading : bool) (items : list FeedEntry) : node Ev :=
  if isLoading then Skeletons.InvoiceFeedSkeleton
  else match items with
       | [] => El "div" [A "role" "status"] [Icon "Activity"; El "span" [] [Txt "Awaiting on-chain activity"]]
       | newest :: _ => Frag [El "ul" [A "role" "list"] (map feed_item items); El "p" [A "role" "status"] [Txt (announcement items newest)]]
       end.
Definition view (isLoading : bool) (nowMs : Z) (events : list EventLog) : node Ev :=
  El "section" [A "aria-labelledby" FEED_HEADING_ID]
    [El "div" [] [El "h2" [A "id" FEED_HEADING_ID] [Icon "Zap"; Txt "Live Financing Feed"]; El "span" [] [Txt "Realtime testnet activity"]];
     El "div" [] [feed_body isLoading (feed_items nowMs events)]].
End FeedView.
End FeedView.

(** ** The way to the documentation *)
Module Docs.
Definition docUrl : string := "https://k1ngd4vid.gitbook.io/trustrove/".
Definition logMessages : list string :=
  ["INITIATING SECURE DOCS DISPATCH ROUTER..."; "RESOLVING SYSTEM ROUTE: /docs"; "ESTABLISHING CONNECTION WITH GITBOOK PROTOCOL...";
   "FEDERATED SPACE IDENTIFIED: TrusTrove Docs"; "EXTERNAL GATEWAY SECURED: k1ngd4vid.gitbook.io"; "DELEGATING TRAFFIC TO SECURE SOURCE..."].
(** [None] is the [undefined] of an index past the end. *)
Record state := { logs : list (option string); currentLogIndex : nat; ticking : bool; bootFinished : bool }.
Definition mount (prefersReducedMotion : bool) : state :=
  if prefersReducedMotion then {| logs := map Some logMessages; currentLogIndex := 0; ticking := false; bootFinished := true |}
  else {| logs := []; currentLogIndex := 0; ticking := true; bootFinished := false |}.
(** A tick of the interval.  The updater given to [setLogs] reads the index when React runs it: [at_once],
    while the tick still has the old one, or in the render that follows. *)
Definition tick (s : state) (at_once : bool) : state :=
  if ticking s then
    let i := currentLogIndex s in
    if (i <? length logMessages)%nat then
      {| logs := logs s ++ [logMessages !! (if at_once then i else S i)]; currentLogIndex := S i; ticking := true; bootFinished := bootFinished s |}
    else {| logs := logs s; currentLogIndex := i; ticking := false; bootFinished := true |}
  else s.

Section Markup.
Context {Ev : Type}.
Definition doc_link (kids : list (node Ev)) : node Ev := El "a" [A "href" docUrl; A "target" "_blank"; A "rel" "noopener noreferrer"] kids.
Definition log_line (idx : nat) (log : option string) : node Ev :=
  El "div" [] [El "span" [] [Txt ("[LOG_" +:+ Num.bigint_to_string (Z.of_nat idx) +:+ "]")]; El "span" [] (match log with Some m => [Txt m] | None => [] end)].
Definition resolving : node Ev :=
  Frag [El "div" [] [Icon "Loader2"; El "span" [] [Txt "RESOLVING..."]]; El "div" [] [doc_link [Txt "[Skip to Docs]"]]].
Definition terminal (s : state) : node Ev :=
  El "div" []
    [El "div" [A "role" "status"; A "aria-live" "polite"] (imap log_line (logs s));
     when (negb (bootFinished s)) resolving;
     when (bootFinished s) (El "div" [] [Txt check_mark; Txt " HANDSHAKE RESOLVED. READY WHEN YOU ARE."])].
Definition view (s : state) : node Ev :=
  El "main" [A "id" "main-content"; A "tabIndex" "-1"]
    [El "div" []
       [El "div" [] [El "div" [] [Icon "Terminal"; El "span" [] [Txt "SYSTEM MODULE: ROUTING_GATEWAY"]]; El "div" [] [El "span" [] []; El "span" [] []; El "span" [] []]];
        terminal s;
        El "div" []
          [El "div" [] [El "div" [] [Icon "BookOpen"];
                        El "div" [] [El "h1" [] [Txt "TrusTrove GitBook"];
                                     El "p" [] [Txt "Protocol mechanics, economic modeling, smart contracts, and developer references."]]];
           doc_link [El "span" [] [Txt "Access Docs"]; Icon "ExternalLink"]];
        El "div" [] [El "span" [] [Txt "SECURE GATEWAY ENFORCED"]; El "span" [] [Txt "STATUS: ACTIVE"]]]].
End Markup.
End Docs.

(** ** Questions and answers *)
Module Help.
Record FaqItem := { id : string; question : string; answer : string }.
Definition faqItems : list FaqItem :=
  [{| id := "what-is-trusttrove"; question := "What is TrusTrove?";
      answer := "TrusTrove is a decentralized invoice factoring platform that connects small and medium enterprises (SMEs) with liquidity providers (LPs)." |};
   {| id := "verify-profile"; question := "How do I verify my profile?";
      answer := "You can verify your profile by navigating to the Profile page and completing the required identity and business verification steps." |};
   {| id := "wallet-freighter"; question := "How do I set up a Wallet and Freighter basics?";
      answer := "To interact with TrusTrove, you need a Stellar-compatible wallet like Freighter. Install the Freighter browser extension, secure your seed phrase, and connect it to TrusTrove to manage your identity, sign transactions, and hold your funds." |};
   {| id := "invoice-tokenization"; question := "How does invoice tokenization work?";
      answer := "TrusTrove converts traditional invoices into digital tokens on the stellar blockchain. Each token represents a fractional ownership in the invoice, allowing multiple liquidity providers to fund a single invoice." |};
   {| id := "discount-rate-bps"; question := "What is the discount rate and BPS?";
      answer := "The discount rate is the fee charged to the SME for early financing, typically expressed in basis points (BPS). For example, 100 BPS equals 1%. This rate determines the return for Liquidity Providers." |};
   {| id := "funding-flow"; question := "How does the funding flow work?";
      answer := "Once an SME lists a tokenized invoice, LPs can fund it using stablecoins. Funds are held in a smart contract escrow until the invoice target is met. Then, funds are released to the SME minus the discount rate." |};
   {| id := "delivery-confirmation"; question := "How does delivery confirmation work?";
      answer := "Before funds are fully settled, the buyer must confirm receipt of goods or services. This delivery confirmation triggers the final stages of the smart contract to ensure all parties have fulfilled their obligations." |};
   {| id := "lp-yield"; question := "How do LPs earn yield?";
      answer := "Liquidity Providers earn yield from the discount rate applied to the invoices they fund. When the buyer repays the full invoice amount at maturity, the LP receives their principal plus their proportional share of the discount fee." |};
   {| id := "default-handling"; question := "What happens in case of a default?";
      answer := "If the buyer fails to pay the invoice by the due date, the smart contract initiates default handling procedures. This may include locking collateral, applying late penalties, or routing the issue to a decentralized arbitration protocol." |}].
Definition state := option string.   (* [openId] *)
Inductive ev := HeaderClick (i : string).
Definition step (openId : state) (e : ev) : state :=
  match e with HeaderClick i => if bool_decide (openId = Some i) then None else Some i end.

Definition AccordionItem (item : FaqItem) (isOpen : bool) : node ev :=
  El "div" []
    [El "button" [A "type" "button"; OnClick [HeaderClick (id item)]; Flag "aria-expanded" isOpen; A "aria-controls" ("faq-content-" +:+ id item);
                  A "id" ("faq-header-" +:+ id item)]
       [Txt (question item); El "span" [A "aria-hidden" "true"] [Txt (if isOpen then minus_sign else "+")]];
     El "div" [A "id" ("faq-content-" +:+ id item); A "role" "region"; A "aria-labelledby" ("faq-header-" +:+ id item);
               A "class" (if isOpen then "block" else "hidden")] [Txt (answer item)]].
Definition view (openId : state) : node ev :=
  El "div" []
    [El "h1" [] [Txt "Help & FAQ"];
     El "div" [] (map (fun item => AccordionItem item (bool_decide (openId = Some (id item)))) faqItems);
     El "section" []
       [El "h2" [] [Txt "Need more help?"];
        El "p" [] [Txt "If you have additional questions, please reach out to our support team at support@trusttrove.com."]]].
End Help.

(** ** Pages of errors *)
Module ErrorPages.
Inductive ev := Reset.
Definition NotFound : node ev :=
  El "main" [A "id" "main-content"; A "tabIndex" "-1"]
    [El "div" []
       [El "div" [] [El "div" [] [Icon "FileQuestion"]]; El "h1" [] [Txt "404"]; El "p" [] [Txt "This page doesn't exist."];
        El "p" [] [Txt "The route you tried to reach isn't part of TrusTrove."];
        El "div" [] [El "a" [A "href" "/"] [Icon "Home"; Txt "Go Home"]; El "a" [A "href" "/marketplace"] [Icon "ListChecks"; Txt "View Invoices"]]]].
Definition error_main (heading message button : string) : node ev :=
  El "main" [A "id" "main-content"; A "tabIndex" "-1"]
    [El "div" [A "role" "alert"; A "aria-live" "assertive"]
       [El "h1" [] [Txt heading]; El "p" [] [Txt message]; El "button" [OnClick [Reset]] [Txt button]]].
Definition RootError (message : string) : node ev :=
  error_main "Something went wrong." (str_or message "An unexpected error occurred while loading this page.") "Try again".
Definition GlobalError (message : string) : node ev :=
  El "html" [A "lang" "en"] [El "body" [] [error_main "The app crashed." (str_or message "An unexpected error occurred.") "Reload"]].
End ErrorPages.

(** ** Properties *)
Module PublicPagesFacts.

(** *** The bars *)
Lemma ticker_actions s es : act (TickerView.view s) es -> es = [] \/ (es = [TickerView.PauseClick] /\ Ticker.isMobile s = false).
Proof.
  intros Ha. assert (Ho : offers (fun _ => Ticker.isMobile s = false) (TickerView.view s)).
  { unfold TickerView.view, TickerView.pause_button. offering; [by destruct (Ticker.isMobile s)..|]. unfold TickerView.ticker_body, TickerView.item_view.
    destruct (Ticker.isLoading (Ticker.q s)); [offering|]. destruct (Ticker.isError (Ticker.q s)); offering.
  }
  destruct (Ho es Ha) as [->|([] & -> & He)]; [by left|by right].
Qed.
(** The copy for the scrolling repeats what is there, and is hidden. *)
Lemma ticker_repeats s : Ticker.isLoading (Ticker.q s) = false -> Ticker.isError (Ticker.q s) = false ->
  let shown := flat_map (fun i => texts (TickerView.item_view false i)) (Ticker.tickerItems s) in
  texts (TickerView.ticker_body s) = shown ++ shown.
Proof.
  intros Hl He. cbv zeta. unfold TickerView.ticker_body. rewrite Hl, He. cbn [texts]. rewrite flat_map_app. f_equal;
    induction (Ticker.tickerItems s) as [|i l IH]; cbn [map flat_map]; by rewrite ?IH.
Qed.
Lemma feed_inert {Ev} loading now events : inert (@FeedView.view Ev loading now events).
Proof.
  unfold FeedView.view. apply inert_el; [done|]. split; [by split; repeat constructor|]. constructor; [showing|]. constructor; [|done].
  apply inert_el; [done|]. split; [showing|]. constructor; [|done]. unfold FeedView.feed_body. destruct loading; [showing|].
  destruct (feed_items now events) as [|e l] eqn:E; [showing|]. rewrite <- E.
  unfold inert. rewrite live_frag, !Forall_flat_map. split; (constructor; [|constructor; [repeat constructor|done]]); rewrite live_el; cbn [disabled flag existsb app];
    rewrite Forall_app, Forall_flat_map; (split; [repeat constructor|]); apply list.Forall_fmap, list.Forall_forall; intros x _; repeat constructor.
Qed.
Lemma feed_rows now events : (length (feed_items now events) <= 6)%nat.
Proof. unfold feed_items. rewrite length_map, length_take. unfold FEED_LIMIT. lia. Qed.

(** *** The boot log *)
Lemma ticks_done bs : forall s, Docs.ticking s = false -> foldl Docs.tick s bs = s.
Proof. induction bs as [|b bs IH]; intros s Hs; [done|]. cbn. unfold Docs.tick at 2. rewrite Hs. by apply IH. Qed.
(** The boot log ends with its seventh tick, whenever React runs the updaters: it then has
    one line for each message, the one of its own tick or the one after it. *)
Theorem docs_boot_ends at_once (Hl : (7 <= length at_once)%nat) :
  let s := foldl Docs.tick (Docs.mount false) at_once in
  Docs.bootFinished s = true /\ Docs.ticking s = false /\ length (Docs.logs s) = length Docs.logMessages /\
  forall i b, (i < 6)%nat -> at_once !! i = Some b -> Docs.logs s !! i = Some (Docs.logMessages !! (if b : bool then i else S i)).
Proof.
  destruct at_once as [|b0 [|b1 [|b2 [|b3 [|b4 [|b5 [|b6 rest]]]]]]]; cbn in Hl; try lia. clear Hl. cbn [foldl].
  rewrite ticks_done by done. cbv zeta. split_and!; [done..|]. intros i b Hi Hb.
  do 6 (destruct i as [|i]; [by injection Hb as <-|]). lia.
Qed.
(** What React documents, that updaters run in the next render, loses the second message and
    leaves the last line empty; only the first one runs at once, since nothing is queued. *)
Lemma boot_log_skips_a_message :
  Docs.logs (foldl Docs.tick (Docs.mount false) [true; false; false; false; false; false; true]) =
  [Docs.logMessages !! 0; Docs.logMessages !! 2; Docs.logMessages !! 3; Docs.logMessages !! 4; Docs.logMessages !! 5; None]%nat.
Proof. reflexivity. Qed.
(** With reduced motion the log is complete at once. *)
Lemma reduced_boot_log : Docs.logs (Docs.mount true) = map Some Docs.logMessages /\ Docs.bootFinished (Docs.mount true) = true.
Proof. done. Qed.

(** *** The answers *)
Definition open_regions (n : node Help.ev) : list string :=
  flat_map (fun '(_, attrs, _) => if is_attr "role" "region" attrs && is_attr "class" "block" attrs
    then match attribute "id" attrs with Some i => [i] | None => [] end else []) (elements n).
Definition opened (o : Help.state) : Prop := o = None \/ exists item, item ∈ Help.faqItems /\ o = Some (Help.id item).
Lemma help_offers o : offers (fun e => match e with Help.HeaderClick i => exists item, item ∈ Help.faqItems /\ i = Help.id item end) (Help.view o).
Proof. unfold Help.view, Help.AccordionItem. offering; by exists x. Qed.
Lemma help_cases (P : Help.state -> Prop) o : opened o -> P None -> Forall (fun item => P (Some (Help.id item))) Help.faqItems -> P o.
Proof. intros [->|(item & Hi & ->)] Hn Hs; [done|]. rewrite list.Forall_forall in Hs. by apply Hs. Qed.
(** Every header has its region, at most one answer is shown, and a click on a header shows
    its answer alone, or none when it was shown. *)
Lemma help_accordion o : opened o ->
  well_labelled (Help.view o) = true /\
  open_regions (Help.view o) = match o with Some i => ["faq-content-" +:+ i] | None => [] end /\
  forall es, act (Help.view o) es -> opened (foldl Help.step o es).
Proof.
  intros Ho. split_and!.
  - apply (help_cases (fun o => well_labelled (Help.view o) = true) o Ho); repeat constructor.
  - apply (help_cases (fun o => open_regions (Help.view o) = match o with Some i => ["faq-content-" +:+ i] | None => [] end) o Ho); repeat constructor.
  - intros es Ha. destruct (help_offers o es Ha) as [->|([i] & -> & item & Hi & ->)]; [done|]. cbn. case_bool_decide; [by left|].
    right. by exists item.
Qed.

(** *** The pages of errors *)
Lemma error_pages_reset m es : act (ErrorPages.RootError m) es \/ act (ErrorPages.GlobalError m) es -> es = [] \/ es = [ErrorPages.Reset].
Proof. intros [H|H]; acts H; auto. Qed.
Lemma errors_are_named m : texts (ErrorPages.RootError m) !! 1%nat <> Some "" /\ texts (ErrorPages.GlobalError m) !! 1%nat <> Some "".
Proof. cbn. unfold str_or. by destruct (String.eqb_spec m ""); split; intros [=]. Qed.
End PublicPagesFacts.

(** ** Witness *)
Lemma docs_boot_ends_witness :
  (7 <= length (replicate 8 true))%nat /\ Docs.logs (foldl Docs.tick (Docs.mount false) (replicate 8 true)) !! 5%nat = Some (Docs.logMessages !! 5%nat).
Proof.
  assert (H : (7 <= length (replicate 8 true))%nat) by (cbn; lia). split; [exact H|].
  exact (proj2 (proj2 (proj2 (PublicPagesFacts.docs_boot_ends (replicate 8 true) H))) 5%nat true ltac:(lia) eq_refl).
Defined.
