(* ===== verification/HomePage.v ===== *)
(** * The landing page and the frames of the pages ([app/page.tsx], [components/shared/HomePanels.tsx],
      [StatValue.tsx], [HeroStats.tsx], [PillarStat.tsx], [PageLayout.tsx], [app/layout.tsx])

    The landing page over its parts: the bars ([PublicPages], [FrameViews]), the feed and the
    figures ([StatViews]), with the two calculators ([Calculators]) as arguments.  What the
    skip link of the root layout reaches, and that no link opens a window that can reach back. *)

From S2P Require Import Prelude JsNumber JsString JsValue SdkTypes WebParsers EventViews StatViews Markup FrameViews Skeletons PublicPages.
Local Open Scope Z_scope.

(** Characters outside Latin-1, under codes of the controls. *)
Definition open_quote : string := String (chr 147) "".
Definition close_quote : string := String (chr 148) "".
Definition copyright : string := String (chr 169) "".

(** ** Frames *)
Definition skip_link {E} : node E := El "a" [A "href" "#main-content"] [Txt "Skip to main content"].
Definition RootLayout {E} (page : node E) : node E := El "body" [] [skip_link; page].
Definition PageLayout {E} (navbar : node E) (year : Z) (children : list (node E)) : node E :=
  El "div" []
    [El "div" [] []; El "div" [] []; navbar;
     El "main" [A "id" "main-content"; A "tabIndex" "-1"] children;
     El "footer" []
       [El "div" [] [El "p" [] [Txt (copyright +:+ " " +:+ Num.bigint_to_string year +:+ " TrusTrove. Built on Stellar Soroban Smart Contracts.")]]]].

(** ** Panels *)
Section Panels.
Context {E : Type}.
Definition stat_value (v : shown) : node E :=
  match v with
  | Skeleton => Skeletons.SkeletonShimmer
  | Dash => El "span" [] [Txt em_dash]
  | Text t => El "span" [] [Txt t]
  end.
Definition hero_stats (l : list (shown * string)) : node E :=
  El "div" [] (map (fun vl => El "div" [] [stat_value vl.1; El "span" [] [Txt vl.2]]) l).
(** While the chunk of a calculator loads. *)
Definition LpLoading : node E :=
  let s := Skeletons.SkeletonShimmer in
  El "div" [] [s; El "div" [] [s; El "div" [] [s; s]]; El "div" [] [s; s; s; s]].
Definition DiscountLoading : node E :=
  let s := Skeletons.SkeletonShimmer in
  El "div" [] [El "div" [] [s; s]; El "div" [] [El "div" [] [El "div" [] [s; s; s]; El "div" [] [s; s]]]].
Definition calculator_panel (loading : node E) (calculator : option (node E)) : node E := default loading calculator.
Definition HomeLpCalculator := calculator_panel LpLoading.
Definition HomeDiscountCalculator := calculator_panel DiscountLoading.
Definition workflow_step (icon heading text : string) : node E :=
  El "div" [] [El "div" [] [Icon icon]; El "h3" [] [Txt heading]; El "p" [] [Txt text]].
Definition pillar (icon heading text label : string) (value : shown) : node E :=
  El "div" [] [El "div" [] [Icon icon; El "h3" [] [Txt heading]]; El "p" [] [Txt text]; El "div" [] [El "span" [] [Txt label]; stat_value value]].
Definition section_title (over title : string) : node E :=
  El "div" [] [El "p" [A "aria-hidden" "true"] [Txt over]; El "h2" [] [Txt title]].
End Panels.

(** ** The page *)
Module HomePage.
Definition specificationUrl : string := "https://k1ngd4vid.gitbook.io/trustrove/".
Definition stellarExpertUrl (NEXT_PUBLIC_POOL_CONTRACT_ID : option string) : string :=
  if opt_str_truthy NEXT_PUBLIC_POOL_CONTRACT_ID
  then "https://stellar.expert/explorer/testnet/contract/" +:+ default "" NEXT_PUBLIC_POOL_CONTRACT_ID
  else "https://stellar.expert/explorer/testnet".
Inductive ev (C : Type) := OnTicker (e : TickerView.ev) | OnNavbar (e : NavbarView.event) | OnCalculator (e : C).
Arguments OnTicker {C}. Arguments OnNavbar {C}. Arguments OnCalculator {C}.

Section HomePage.
Context {C : Type} (t : string -> list (string * jsval) -> string) (toLocaleString : num -> string) (poolId : option string).
(** [h_pillar] are the figures of [PillarStat]; a calculator is there once its chunk has loaded. *)
Record data := {
  h_ticker : Ticker.state; h_navbar : NavbarView.state; h_feedLoading : bool; h_nowMs : Z; h_events : list EventLog;
  h_stats : list (shown * string); h_pillar : PillarStatKind -> shown; h_lp : option (node C); h_discount : option (node C) }.

Definition feed_column (d : data) : node (ev C) :=
  El "div" []
    [FeedView.view (h_feedLoading d) (h_nowMs d) (h_events d);
     El "div" []
       [El "span" [] [Txt "STELLAR INTEGRATION"];
        Txt "Every entry represents a cryptographically secure, on-chain event emitted by the Soroban network and synced by our indexer."]].
Definition hero (d : data) : node (ev C) :=
  El "div" []
    [El "div" []
       [El "span" [] [Txt "DECENTRALIZED TRADE FINANCE"];
        El "h1" [] [Txt "ELIMINATE THE "; El "br" [] []; El "span" [] [Txt "$2.5 TRILLION"]; Txt " "; El "br" [] []; Txt "TRADE FINANCE GAP"];
        El "p" [] [Txt "TrusTrove tokenizes outstanding trade obligations on Stellar. SMEs secure immediate working capital at fair rates, and liquidity providers earn direct yield."]];
     hero_stats (h_stats d);
     El "div" [] [Txt (open_quote +:+ "From invoice to USDC in minutes. Not weeks." +:+ close_quote)]].
Definition workflow : node (ev C) :=
  El "div" []
    [section_title "PROTOCOL WORKFLOW" "HOW TRUSTROVE ELIMINATES MIDDLEMEN";
     El "div" []
       [workflow_step "ShieldCheck" "1. REGISTER AS SME" "Verify your business identity on-chain via the registry contract to establish trusted credentials.";
        workflow_step "FileCheck2" "2. TOKENIZE INVOICE" "Generate a unique invoice cryptographic hash on-chain representing your commercial shipment.";
        workflow_step "Coins" "3. RECEIVE USDC LIQUIDITY" "Pool contract immediately funds the invoice at the agreed discount rate directly into your wallet.";
        workflow_step "Landmark" "4. BUYER MATURITY SETTLEMENT" "Buyer pays full invoice face value to the pool upon due date, releasing escrow and yielding LP interest."]].
Definition pillars (d : data) : node (ev C) :=
  El "div" []
    [section_title "SYSTEM ARCHITECTURE" "SOROBAN SMART CONTRACT PIPELINE";
     El "div" []
       [pillar "Database" "REGISTRY_CONTRACT" "Manages decentralized profiles and KYC verification status for issuers and buyers." "VERIFIED ISSUERS:" (h_pillar d Issuers);
        pillar "Layers" "INVOICE_CONTRACT" "Stores tokenized invoices, discount rates, status lifecycle events, and compliance signatures." "TOTAL OBLIGATIONS:" (h_pillar d Invoices);
        pillar "ArrowRightLeft" "POOL & ESCROW" "Controls USDC liquidity deposits, share-based yield parameters, and locks obligations securely in escrow." "UTILIZATION RATE:" (h_pillar d Utilization)]].
Definition footer_link (href label : string) : node (ev C) :=
  El "a" [A "href" href; A "target" "_blank"; A "rel" "noopener noreferrer"] [Txt label].
Definition footer : node (ev C) :=
  El "footer" []
    [El "div" []
       [El "span" [] [Txt (copyright +:+ " 2026 TRUSTROVE PROTOCOL " +:+ em_dash +:+ " VERIFIED TRADE FINANCE")];
        El "div" []
          [footer_link specificationUrl "SPECIFICATION"; footer_link (stellarExpertUrl poolId) "STELLAR EXPERT";
           El "a" [A "href" "/docs"] [Txt "DOCUMENTATION"]]]].
(** Its [main] has the id that the skip link names, and no tab index. *)
Definition main (d : data) : node (ev C) :=
  El "main" [A "id" "main-content"]
    [El "div" [] [];
     El "div" [] [El "div" [] [feed_column d]; hero d; El "div" [] [HomeLpCalculator (lift OnCalculator <$> h_lp d)]];
     workflow; pillars d;
     El "div" [] [section_title "FINANCIAL FEASIBILITY" "INTERACTIVE ECONOMIC COMPILER"; HomeDiscountCalculator (lift OnCalculator <$> h_discount d)]].
Definition view (d : data) : node (ev C) :=
  El "div" []
    [lift OnTicker (TickerView.view (h_ticker d)); lift OnNavbar (NavbarView.view t toLocaleString (h_navbar d)); main d; footer].
End HomePage.
Arguments data : clear implicits.
End HomePage.

(** ** Properties *)
Module HomePageFacts.
Import HomePage.
Section Facts.
Context {C : Type}.

(** The frames and the copy offer nothing: what the page offers besides its bars are the calculators. *)
Lemma stat_offers {E} (P : E -> Prop) v : offers P (stat_value v).
Proof. destruct v; apply offers_inert; showing. Qed.
Lemma home_main_offers (P : C -> Prop) (d : data C) : (forall n, h_lp d = Some n \/ h_discount d = Some n -> offers P n) ->
  offers (fun e : ev C => match e with OnCalculator e => P e | _ => False end) (main d).
Proof.
  intros Hc. unfold main, feed_column, hero, hero_stats, workflow, pillars, section_title, workflow_step, pillar. offering.
  all: try apply stat_offers.
  - apply offers_inert, PublicPagesFacts.feed_inert.
  - unfold HomeLpCalculator, calculator_panel. destruct (h_lp d) as [n|] eqn:E; cbn; [|apply offers_inert; showing]. apply offers_lift, Hc. auto.
  - unfold HomeDiscountCalculator, calculator_panel. destruct (h_discount d) as [n|] eqn:E; cbn; [|apply offers_inert; showing]. apply offers_lift, Hc. auto.
Qed.
Lemma footer_safe poolId : Forall (fun el : string * list (attr (ev C)) * list (node (ev C)) =>
  is_attr "target" "_blank" el.1.2 = true -> is_attr "rel" "noopener noreferrer" el.1.2 = true) (elements (footer poolId)).
Proof. repeat constructor; done. Qed.
End Facts.

(** What the skip link can move the focus to. *)
Definition skip_targets {E} (n : node E) : list (list (attr E)) :=
  flat_map (fun '(_, attrs, _) => if is_attr "id" "main-content" attrs then [attrs] else []) (elements n).
Definition skip_moves_focus {E} (n : node E) : bool := match skip_targets n with a :: _ => has "tabIndex" a | [] => false end.
Lemma frames_take_the_focus {E} year (children : list (node E)) s m :
  skip_moves_focus (PageLayout (Frag []) year children) = true /\ skip_moves_focus (Docs.view s : node E) = true /\
  skip_moves_focus ErrorPages.NotFound = true /\ skip_moves_focus (ErrorPages.RootError m) = true /\
  skip_moves_focus (ErrorPages.GlobalError m) = true.
Proof. done. Qed.
(** The landing page has the target, which cannot take the focus. *)
Lemma landing_page_keeps_the_focus {C} (d : HomePage.data C) : exists rest, skip_targets (main d) = [A "id" "main-content"] :: rest /\
  skip_moves_focus (main d) = false.
Proof. by eexists. Qed.
End HomePageFacts.
