(* ===== verification/LpView.v ===== *)
(** * The markup of the liquidity provider page ([app/lp/page.tsx], [components/shared/SimulationPreview.tsx])

    The page over [LpPage], with the dialog that confirms a withdrawal, which [app/providers.tsx]
    renders beside every page.  Its two forms can be submitted only with their buttons
    enabled, and money moves only by them: the theorem of the file says which action asks for
    a deposit and which for a withdrawal, and with which amount. *)

From S2P Require Import Prelude JsNumber JsString JsValue Effects SdkTypes Base Assets Storage PoolPage Dialogs LpPage.
From S2P Require Import Markup DialogViews FrameViews Skeletons.
Local Open Scope Z_scope.

(** ** The preview of a transaction *)
Section Preview.
Context {E : Type}.
Definition labelled (label value : string) : node E := El "div" [] [El "span" [] [Txt label]; El "span" [] [Txt value]].
Definition preview_view (v : SimulationView) : node E :=
  match v with
  | Simulating =>
      El "div" [] [El "div" [] [El "div" [] [Icon "Sparkles"; El "span" [] [Txt "Simulating Transaction..."]]; El "div" [] []];
                   El "div" [] [El "div" [] []; El "div" [] []]]
  | SimulationFailed m => El "div" [] [El "div" [] [Icon "ShieldAlert"; El "span" [] [Txt "Simulation Failed"]]; El "p" [] [Txt m]]
  | SimulationUnavailable =>
      El "div" [] [El "div" [] [Icon "ShieldAlert"; El "span" [] [Txt "Simulation Unavailable"]];
                   El "p" [] [Txt "Live simulation data is currently unavailable. The fee shown at signing time may differ from this preview."]]
  | NoPreview => Frag []
  | TransactionPreview badge method footprint fee =>
      El "div" []
        [El "div" [] [El "div" [] [Icon "Sparkles"; El "span" [] [Txt "Transaction Preview"]];
                      El "div" [] [El "span" [] [Txt badge]; El "span" [] [El "span" [] []; El "span" [] []]]];
         El "div" [] [El "div" [] [El "span" [] [Txt "Method"]; El "span" [] [Icon "Cpu"; Txt method]]; labelled "Footprint Size" footprint;
                      El "div" [] [El "span" [] [Icon "Coins"; Txt "Estimated network fee"]; El "span" [] [Txt fee]]]]
  end.
End Preview.

Module LpMarkup.
Import LpPage.
Section View.
Context {scval : Type}.
Inductive ev := OnPage (e : event scval) | OnWallet (e : WalletView.ev).

Definition stat_view (s : Stat) : node ev := labelled s.1 s.2.
Definition overview_section (o : option Overview) : node ev :=
  El "section" [A "aria-labelledby" "pool-overview-heading"]
    [El "h2" [A "id" "pool-overview-heading"] [Txt "Pool Overview"];
     match o with
     | None => Skeletons.PoolStatsPanelSkeleton
     | Some v =>
         El "div" []
           [El "div" [] [El "div" [] [El "span" [] [Txt (ov_percent v)]; El "span" [] [Txt "Utilization"]]];
            El "div" [] (map stat_view (ov_figures v))]
     end].
Definition position_section (p : option (string * list Stat)) : node ev :=
  El "section" [A "aria-labelledby" "position-heading"]
    [El "h2" [A "id" "position-heading"] [Txt "My Position"];
     match p with
     | None => Skeletons.LPPositionCardSkeleton
     | Some v =>
         El "div" []
           [El "div" [] [El "span" [] [Txt "Active LP Position"]; El "span" [] [Txt v.1]]; El "div" [] (map stat_view v.2)]
     end].
Definition number_field (id : string) (f : FieldView) (onChange : string -> ev) : node ev :=
  El "input"
    ([A "id" id; A "type" "number"; A "step" "any"; A "value" (fv_value f); OnChange onChange] ++
     (if fv_invalid f then [A "aria-invalid" "true"] else []) ++
     match fv_describedby f with Some d => [A "aria-describedby" d] | None => [] end) [].
Definition field_alert (id : string) (f : FieldView) : node ev := when_some (fv_alert f) (fun m => El "p" [A "id" id; A "role" "alert"] [Txt m]).
Definition deposit_form (s : state scval) (v : LpView) : node ev :=
  El "form" [OnSubmit (OnPage SubmitDeposit)]
    [El "h2" [] [Txt "Deposit USDC"]; El "label" [A "htmlFor" "deposit-amount"] [Txt "Deposit amount"];
     number_field "deposit-amount" (lv_deposit v) (fun t => OnPage (TypeDeposit t)); field_alert "deposit-amount-error" (lv_deposit v);
     preview_view (lv_preview v);
     El "button" [A "type" "submit"; Flag "disabled" (depositDisabled s)] [Txt (lv_depositButton v)]].
Definition withdraw_form (s : state scval) (v : LpView) : node ev :=
  El "form" [OnSubmit (OnPage SubmitWithdraw)]
    [El "h2" [] [Txt "Withdraw Liquidity"]; El "label" [A "htmlFor" "withdraw-shares"] [Txt "Shares to redeem"];
     number_field "withdraw-shares" (lv_withdraw v) (fun t => OnPage (TypeShares t)); field_alert "withdraw-shares-error" (lv_withdraw v);
     El "p" [A "id" "withdraw-available"] [Txt (lv_available v)];
     El "button" [A "type" "submit"; Flag "disabled" (withdrawDisabled s)] [Txt (lv_withdrawButton v)]].
Definition connect_first (w : WalletView.state) : node ev :=
  El "div" [] [El "h1" [] [Txt "Connect Your Wallet"]; lift OnWallet (WalletView.view w)].
Definition page (s : state scval) (w : WalletView.state) : node ev :=
  match render s with
  | None => connect_first w
  | Some v =>
      El "div" []
        [El "div" [] [El "h1" [] [Txt "Liquidity Provider Portal"];
                      El "p" [] [Txt "Supply USDC liquidity, track pool performance, and manage your position."]];
         overview_section (lv_overview v); position_section (lv_position v);
         El "div" [] [deposit_form s v; withdraw_form s v]]
  end.
Definition dialog_event (e : ConfirmView.ev) : ev := OnPage (match e with ConfirmView.Cancel => DialogCancel | ConfirmView.Confirm => DialogConfirm end).
Definition view (s : state scval) (w : WalletView.state) : node ev := Frag [page s w; lift dialog_event (ConfirmView.view (dialog s))].
End View.
Arguments ev : clear implicits.
End LpMarkup.

(** ** Properties *)
Module LpMarkupFacts.
Import LpPage LpMarkup.
Section Facts.
Context {scval : Type}.
Implicit Types (s : state scval).

Definition allowed s (e : ev scval) : Prop :=
  match e with
  | OnWallet _ => connected (data s) = false
  | OnPage (TypeDeposit _) | OnPage (TypeShares _) => connected (data s) = true
  | OnPage SubmitDeposit => connected (data s) = true /\ depositDisabled s = false
  | OnPage SubmitWithdraw => connected (data s) = true /\ withdrawDisabled s = false
  | OnPage DialogCancel | OnPage DialogConfirm => is_Some (dialog s)
  | OnPage _ => False
  end.
Definition sent (e : ev scval) : option (event scval) := match e with OnPage e => Some e | OnWallet _ => None end.

Lemma preview_inert (v : SimulationView) : inert (preview_view v : node (ev scval)).
Proof. destruct v; showing. Qed.
Lemma field_offers sub (P : ev scval -> Prop) id f g : (forall t, P (g t)) -> offers_in sub P (number_field id f g).
Proof.
  intros Hg. unfold number_field. cbn [app]. destruct (fv_invalid f), (fv_describedby f); cbn [app]; offering; by constructor.
Qed.
Lemma lp_alert_offers sub (P : ev scval -> Prop) id f : offers_in sub P (field_alert id f).
Proof. unfold field_alert. offering. Qed.
Lemma overview_offers (P : ev scval -> Prop) o : offers P (overview_section o).
Proof. unfold overview_section, stat_view, labelled. offering. destruct o; [offering|apply offers_inert; showing]. Qed.
Lemma position_offers (P : ev scval -> Prop) p : offers P (position_section p).
Proof. unfold position_section, stat_view, labelled. offering. destruct p; [offering|apply offers_inert; showing]. Qed.

Lemma deposit_offers s v : connected (data s) = true -> offers (allowed s) (deposit_form s v).
Proof.
  intros Hc. unfold deposit_form. apply offers_form. intros sub Hs.
  offering; [by apply field_offers|apply lp_alert_offers|apply offers_inert, preview_inert|..].
  destruct (depositDisabled s) eqn:Hd; [done|]. assert (one (allowed s) sub) by (by apply (one_submission _ _ _ _ Hs)). by split.
Qed.
Lemma withdraw_offers s v : connected (data s) = true -> offers (allowed s) (withdraw_form s v).
Proof.
  intros Hc. unfold withdraw_form. apply offers_form. intros sub Hs.
  offering; [by apply field_offers|apply lp_alert_offers|..].
  destruct (withdrawDisabled s) eqn:Hd; [done|]. assert (one (allowed s) sub) by (by apply (one_submission _ _ _ _ Hs)). by split.
Qed.
Lemma lp_page_offers s w : offers (allowed s) (page s w).
Proof.
  unfold page, render. destruct (connected (data s)) eqn:Hc; cbn [negb].
  - offering; [apply overview_offers|apply position_offers|by apply deposit_offers|by apply withdraw_offers].
  - unfold connect_first. offering. intros es Ha%WalletViewFacts.wallet_actions. cbn.
    destruct Ha as [->|[(-> & _)|[([-> | ->] & _)|(-> & _)]]]; [by left|right; by eexists..].
Qed.
Lemma lp_offers s w : offers (allowed s) (view s w).
Proof.
  unfold LpMarkup.view. offering; [apply lp_page_offers|]. destruct (dialog s) as [a|] eqn:Hd; [|by apply offers_inert; showing].
  intros es [->|[->| ->]]%ConfirmViewFacts.confirm_actions; [by left|right; eexists; (split; [done|]); cbn; by rewrite Hd..].
Qed.

Lemma deposit_called s e z a : CallDeposit z a ∈ (step s e).2 ->
  e = SubmitDeposit /\ isDepositing s = false /\ positive_amount (depositAmount (form s)) = true /\
  stroops (amount_of (depositAmount (form s))) = Ok z /\ a = USDC.
Proof.
  destruct e; cbn [step].
  - by intros ?%elem_of_nil.
  - by destruct (connected _); intros ?%elem_of_nil.
  - unfold depositDisabled, submitDeposit. destruct (isDepositing s); [rewrite andb_false_r; by intros ?%elem_of_nil|].
    destruct (_ && _); [|by intros ?%elem_of_nil]. destruct (positive_amount _); cbn; [|by intros [=]%list_elem_of_singleton].
    destruct (stroops _); cbn; [|by intros ?%elem_of_nil]. by intros [= -> ->]%list_elem_of_singleton.
  - by destruct (isDepositing s); intros ?%elem_of_nil.
  - by destruct (connected _); intros ?%elem_of_nil.
  - destruct (_ && _); [|by intros ?%elem_of_nil]. unfold submitWithdraw. destruct (handleWithdraw _ _ _) as [[]|]; cbn.
    + by intros [=]%list_elem_of_singleton.
    + by intros ?%elem_of_nil.
    + by intros ?%elem_of_nil.
  - by destruct (isWithdrawing s); intros ?%elem_of_nil.
  - by intros ?%elem_of_nil.
  - destruct (dialog s); cbn; [by intros [=]%list_elem_of_singleton|by intros ?%elem_of_nil].
  - by intros ?%elem_of_nil.
  - by intros ?%elem_of_nil.
Qed.
Lemma run_one s e : (run s [e]).2 = (step s e).2.
Proof. cbn. destruct (step s e) as [s' o]. cbn. by rewrite app_nil_r. Qed.

(** C26: one action on the liquidity provider page or its dialog sends at most one event, one
    the page acts on: a submission only for a connected wallet and with its button enabled.  Only
    the submission of the first form asks for a deposit, of exactly the positive amount in its
    field and while none is under way; and only the confirmation in the dialog for a
    withdrawal, of the amount it holds. *)
Theorem lp_page_actions s w es (Ha : act (LpMarkup.view s w) es) :
  one (allowed s) es /\
  (forall z a, CallDeposit z a ∈ (run s (omap sent es)).2 ->
     es = [OnPage SubmitDeposit] /\ isDepositing s = false /\ positive_amount (depositAmount (form s)) = true /\
     stroops (amount_of (depositAmount (form s))) = Ok z /\ a = USDC) /\
  (forall z, CallWithdraw z ∈ (run s (omap sent es)).2 ->
     es = [OnPage DialogConfirm] /\ exists a, dialog s = Some a /\ ConfirmDialog.fn a = z).
Proof.
  apply lp_offers in Ha. split; [done|]. destruct Ha as [->|([e|e] & -> & _)]; [split; by intros ? ? ?%elem_of_nil || (intros ? ?%elem_of_nil)| |].
  - cbn [omap list_omap sent]. rewrite run_one. split; [intros z a H|intros z H].
    + apply deposit_called in H as [-> H]. by split.
    + apply LpPageFacts.withdraw_sent in H as [-> H]. by split.
  - split; [by intros ? ? ?%elem_of_nil|by intros ? ?%elem_of_nil].
Qed.
End Facts.
End LpMarkupFacts.

(** ** Witness *)
Definition lp_wallet : WalletView.state :=
  {| WalletView.installed := Some true; WalletView.connected := true; WalletView.address := Some "GA"; WalletView.network := Some "testnet";
     WalletView.loading := false; WalletView.walletError := None; WalletView.errorCode := None; WalletView.copied := false;
     WalletView.copyError := None; WalletView.switchingNetwork := false; WalletView.networkSwitchError := None |}.
Definition filled_lp_page : LpPage.state string := (LpPage.run (LpPage.mount LpPageWitness.session) [LpPage.TypeDeposit "1.5"]).1.
Lemma lp_page_actions_witness :
  act (LpMarkup.view filled_lp_page lp_wallet) [LpMarkup.OnPage LpPage.SubmitDeposit] /\
  LpPage.CallDeposit 15000000 USDC ∈ (LpPage.run filled_lp_page [LpPage.SubmitDeposit]).2 /\
  positive_amount (LpPage.depositAmount (LpPage.form filled_lp_page)) = true.
Proof.
  assert (H : act (LpMarkup.view filled_lp_page lp_wallet) [LpMarkup.OnPage LpPage.SubmitDeposit]).
  { apply act_click, list_elem_of_In. vm_compute. tauto. }
  assert (Hc : LpPage.CallDeposit 15000000 USDC ∈ (LpPage.run filled_lp_page [LpPage.SubmitDeposit]).2).
  { apply list_elem_of_In. vm_compute. tauto. }
  split; [exact H|]. split; [exact Hc|].
  exact (proj1 (proj2 (proj2 (proj1 (proj2 (LpMarkupFacts.lp_page_actions filled_lp_page lp_wallet _ H)) 15000000 USDC Hc)))).
Defined.
