(* ===== verification/CalcViews.v ===== *)
(** * The markup of the calculators ([components/shared/DiscountCalculator.tsx], [SmeCalculator.tsx],
      [LpCalculator.tsx], [LpYieldCalculator.tsx])

    The panels over the figures of [Calculators], with the amounts at rest where
    [AnimatedValue] counts up to them ([Charts]).  A slider offers the positions between its
    bounds.  The theorem of the file drives the two tabs through what they render: whatever is
    moved and chosen, the figures are those of exact arithmetic. *)

From S2P Require Import Prelude JsNumber JsRounding JsString SdkTypes Assets Charts Calculators FormPage Markup DialogViews FormView.
Local Open Scope Z_scope.

Module CalcViews.
(** ** Parts *)
Section Parts.
Context {E : Type}.
Definition slider (id label lo hi step : string) (value : num) (positions : list string) (onChange : string -> E) : node E :=
  El "input"
    [A "id" id; A "type" "range"; A "min" lo; A "max" hi; A "step" step; A "value" (Num.to_string value); OnAmong positions onChange;
     A "aria-label" label; A "aria-valuenow" (Num.to_string value); A "aria-valuemin" lo; A "aria-valuemax" hi] [].
Definition slider_block (label shown from to : string) (input : node E) : node E :=
  El "div" []
    [El "div" [] [El "span" [] [Txt label]; El "span" [] [Txt shown]]; input; El "div" [] [El "span" [] [Txt from]; El "span" [] [Txt to]]].
Definition figure (label value : string) : node E := El "div" [] [El "span" [] [Txt label]; El "span" [] [Txt value]].
Definition noted (label value note : string) : node E :=
  El "div" [] [El "span" [] [Txt label]; El "span" [] [Txt value]; El "span" [] [Txt note]].
End Parts.
Definition steps_of (c first count : Z) : list string := map (fun i => Num.bigint_to_string (c * i)) (seqZ first count).
Definition rates : list string := map tenth_text (seqZ 5 46).

(** ** The panels *)
Section Panels.
Context (toLocaleString whole : num -> string).

Definition sme_terms (paymentTermsId : string) (s : Sme.state) : node Sme.event :=
  El "div" []
    [El "label" [A "htmlFor" paymentTermsId] [Txt "Payment Due Terms"];
     El "select" [A "id" paymentTermsId; A "value" (Num.to_string (Sme.paymentTerms s)); OnChange Sme.Terms]
       [El "option" [A "value" "30"] [Txt "Net 30 (30 days maturity)"]; El "option" [A "value" "60"] [Txt "Net 60 (60 days maturity)"];
        El "option" [A "value" "90"] [Txt "Net 90 (90 days maturity)"]]].
Definition sme_inputs (paymentTermsId : string) (s : Sme.state) (v : Sme.view) : node Sme.event :=
  El "div" []
    [El "h3" [] [Icon "Sparkles"; Txt "Configure Invoice parameters"];
     slider_block "Invoice Face Value" (Sme.sv_faceValue v) "$1K USDC" "$500K USDC"
       (slider "discount-sme-face-value" "Invoice Face Value" "1000" "500000" "1000" (Sme.faceValue s) (steps_of 1000 1 500) Sme.FaceValue);
     sme_terms paymentTermsId s;
     slider_block "Financing Discount Rate" (Sme.sv_rate v) "0.5% (50 bps)" "5.0% (500 bps)"
       (slider "discount-sme-discount-rate" "Financing Discount Rate" "0.5" "5.0" "0.1" (Sme.discountRate s) rates Sme.Rate)].
Definition without_trusttrove (v : Sme.view) : node Sme.event :=
  El "div" []
    [El "div" []
       [El "div" [] [Txt "Without TrusTrove"];
        El "div" []
          [figure "You wait:" (Sme.sv_wait v);
           noted "You receive:" (Sme.sv_receive v) "Full payment received late, freezing working capital."]];
     El "div" [] [figure "Opportunity cost:" "Lost production orders"; figure "Bank alternative:" ("8" +:+ en_dash +:+ "15% APR, 3-week wait")]].
Definition with_trusttrove (v : Sme.view) : node Sme.event :=
  El "div" []
    [El "div" []
       [El "div" [] [Txt "With TrusTrove"];
        El "div" []
          [figure "You wait:" "0 Days (Instant)";
           noted "You receive today:" (Sme.sv_funded v) ("Face Value minus " +:+ Sme.sv_fee v +:+ " discount fee.")]];
     El "div" []
       [figure "Discount paid:" (Sme.sv_paid v); figure "Yield distributed:" (Sme.sv_paid v); figure "Buyer obligation:" (Sme.sv_obligation v)]].
Definition sme_view (paymentTermsId : string) (s : Sme.state) : node Sme.event :=
  let v := Sme.render toLocaleString whole s in
  El "div" [] [sme_inputs paymentTermsId s v; El "div" [] [without_trusttrove v; with_trusttrove v]].

Definition lp_inputs (s : Lp.state) (v : Lp.view) : node Lp.event :=
  El "div" []
    [El "h3" [] [Icon "TrendingUp"; Txt "LP Yield projection inputs"];
     slider_block "Total USDC Deposit" (Lp.lv_deposit v) "$500 USDC" "$100K USDC"
       (slider "discount-lp-deposit" "Total USDC Deposit" "500" "100000" "500" (Lp.lpDeposit s) (steps_of 500 1 200) Lp.Deposit);
     slider_block "Target Pool Utilization" (Lp.lv_utilization v) "10% (Low)" "100% (Max)"
       (slider "discount-lp-utilization" "Target Pool Utilization" "10" "100" "5" (Lp.lpUtilization s) (steps_of 5 2 19) Lp.Utilization);
     slider_block "Avg Invoice Discount Bps" (Lp.lv_discount v) "0.5%" "5.0%"
       (slider "discount-lp-avg-discount" "Avg Invoice Discount Bps" "0.5" "5.0" "0.1" (Lp.lpAvgDiscount s) rates Lp.AvgDiscount);
     slider_block "Avg Days to Maturity" (Lp.lv_maturity v) "15 Days" "90 Days"
       (slider "discount-lp-avg-maturity" "Avg Days to Maturity" "15" "90" "5" (Lp.lpAvgMaturity s) (steps_of 5 3 16) Lp.AvgMaturity)].
Definition lp_metrics (v : Lp.view) : node Lp.event :=
  El "div" []
    [El "div" []
       [El "div" [] [Txt "Projected Yield Metrics"];
        El "div" [] [noted "Estimated APR:" (Lp.lv_apr v) (Lp.lv_formula v); noted "Projected Annual Yield:" (Lp.lv_annual v) (Lp.lv_principal v)]];
     El "div" []
       [El "span" [] [Txt "PROTOCOL YIELD MECHANIC"];
        Txt "USDC is never idle. Invoices listed by SMEs are funded automatically by the pool contract using liquid deposits, allocating discount fees to LPs proportionally."]].
Definition lp_view (s : Lp.state) : node Lp.event :=
  let v := Lp.render toLocaleString whole s in El "div" [] [lp_inputs s v; lp_metrics v].

(** ** The tabs *)
Definition tab_name (t : Tabs.tab) : string := match t with Tabs.SmeTab => "sme" | Tabs.LpTab => "lp" end.
Definition tab_button (p : Tabs.panel) (t : Tabs.tab) (label : string) : node Tabs.event :=
  El "button"
    [A "role" "tab"; A "id" ("tab-" +:+ tab_name t); A "aria-controls" ("tabpanel-" +:+ tab_name t);
     Flag "aria-selected" (Tabs.ariaSelected p t); A "tabIndex" (Num.bigint_to_string (Tabs.tabIndex p t)); OnClick [Tabs.Click t]]
    [Txt label].
Definition tab_panel (p : Tabs.panel) (content : node Tabs.event) : node Tabs.event :=
  let name := tab_name (Tabs.activeTab p) in
  El "div" [A "role" "tabpanel"; A "id" ("tabpanel-" +:+ name); A "aria-labelledby" ("tab-" +:+ name)] [content].
Definition view (paymentTermsId : string) (p : Tabs.panel) : node Tabs.event :=
  El "div" []
    [El "div" [A "role" "tablist"; A "aria-label" "Calculator type"]
       [tab_button p Tabs.SmeTab "SME Financing Calculator"; tab_button p Tabs.LpTab "LP Yield Estimator"];
     El "div" []
       [tab_panel p
          match p with Tabs.SmePanel s => lift Tabs.InSme (sme_view paymentTermsId s) | Tabs.LpPanel s => lift Tabs.InLp (lp_view s) end;
        El "div" []
          [El "span" [] [Txt "TrusTrove charges what the market sets. Discount rates are agreed between the SME and the protocol. No hidden fees."]]]].

(** ** The calculator of the hero *)
Definition bar_icon (name : string) : string :=
  if String.eqb name "TrusTrove LP" then "TrendingUp" else if String.eqb name "Savings Account" then "PiggyBank" else "Landmark".
Definition yield_bar (b : string * string * string) : node LpYieldPanel.event :=
  let '(name, percent, width) := b in
  El "div" []
    [El "div" [] [El "span" [] [Icon (bar_icon name); Txt name]; El "span" [] [Txt percent]];
     El "div" [] [El "div" [A "style" ("width: " +:+ width)] []]].
Definition yield_view (inputId : string) (s : LpYieldPanel.state) : node LpYieldPanel.event :=
  let v := LpYieldPanel.render whole s in
  let u := LpYieldPanel.utilization s in
  El "div" []
    [El "h3" [] [El "span" [] [Txt "I'm an LP"]; El "span" [] [Txt "YIELD CALC"]];
     El "div" []
       [amount_field inputId (FormPage.AmountInput toLocaleString (LpYieldPanel.deposit s) USDC (Some "Deposit Amount (USDC)") None false None)
          "10,000" false false LpYieldPanel.Deposit;
        slider_block "Pool Utilization" (Num.to_string u +:+ "%") "10%" "100%"
          (slider "lp-yield-utilization" "Pool Utilization" "10" "100" "1" u (steps_of 1 10 91) LpYieldPanel.Utilization)];
     El "div" [] [figure "Estimated Annual Yield" (LpYieldPanel.yv_yield v); figure "Monthly Earnings" (LpYieldPanel.yv_monthly v)];
     El "div" [] [El "span" [] [Txt "Yield Comparison"]; El "div" [] (map yield_bar (LpYieldPanel.yv_bars v))];
     El "div" [] [El "span" [] [Txt "Yield depends on pool utilization and invoice repayment rate. Smart contract risk exists."]]].
End Panels.
End CalcViews.

(** ** Properties *)
Module CalcViewsFacts.
Import CalcViews.
Section Facts.
Context (toLocaleString whole : num -> string).

Lemma steps_offered c first count t : t ∈ steps_of c first count -> exists i, first <= i < first + count /\ t = Num.bigint_to_string (c * i).
Proof. intros (i & -> & Hi%elem_of_seqZ)%list_elem_of_fmap. by exists i. Qed.
Lemma rates_offered t : t ∈ rates -> exists k, 5 <= k <= 50 /\ t = tenth_text k.
Proof. intros (k & -> & Hk%elem_of_seqZ)%list_elem_of_fmap. exists k. split; [lia|done]. Qed.
Lemma range_offers {E} (P : E -> Prop) id label lo hi step v l f : (forall t, t ∈ l -> P (f t)) -> offers P (slider id label lo hi step v l f).
Proof.
  intros H. unfold slider. apply offers_control; [intros _; split; by left| |by constructor].
  cbn. constructor; [|done]. apply list.Forall_fmap, list.Forall_forall. exact H.
Qed.
Ltac on_slider := intros t [j [Hj ->]]%steps_offered; exists j; split; [lia|done].

Lemma sme_offers id s : offers Sme.offered (sme_view toLocaleString whole id s).
Proof.
  unfold sme_view, sme_inputs, sme_terms, without_trusttrove, with_trusttrove, slider_block, figure, noted. cbv zeta. offering.
  - apply range_offers. on_slider.
  - apply range_offers. exact rates_offered.
Qed.
Lemma lp_panel_offers s : offers Lp.offered (lp_view toLocaleString whole s).
Proof.
  unfold lp_view, lp_inputs, lp_metrics, slider_block, noted. cbv zeta. offering; apply range_offers; try on_slider. exact rates_offered.
Qed.
Lemma yield_offers id s : offers LpYieldPanel.offered (yield_view toLocaleString whole id s).
Proof.
  unfold yield_view, amount_field, slider_block, figure. cbv zeta. offering.
  - apply range_offers. intros t (j & Hj & ->)%steps_offered. exists j. rewrite Z.mul_1_l. split; [lia|done].
  - unfold yield_bar. destruct x as [[??]?]. offering.
Qed.

(** What the controls of a panel send. *)
Definition sends (p : Tabs.panel) (e : Tabs.event) : Prop :=
  match e, p with
  | Tabs.Click _, _ => True
  | Tabs.InSme e, Tabs.SmePanel _ => Sme.offered e
  | Tabs.InLp e, Tabs.LpPanel _ => Lp.offered e
  | _, _ => False
  end.
Lemma tabs_offers id p : offers (sends p) (view toLocaleString whole id p).
Proof.
  unfold view, tab_button, tab_panel. cbv zeta. offering; [done..|]. destruct p as [s|s]; apply offers_lift; [apply sme_offers|apply lp_panel_offers].
Qed.
Definition grid (p : Tabs.panel) : Prop := match p with Tabs.SmePanel s => on_grid s | Tabs.LpPanel s => lp_on_grid s end.
Lemma send_grid p e : sends p e -> grid p -> grid (Tabs.step p e).
Proof.
  destruct e as [t|e|e], p as [s|s]; cbn; try done; [| |by apply step_on_grid|by apply lp_step_on_grid];
    intros _ Hg; case_bool_decide; try done; destruct t; apply initial_on_grid || apply lp_initial_on_grid || done.
Qed.

(** The tabs used through what they render. *)
Abbreviation used id := (rtc (turn (view toLocaleString whole id) Tabs.step (fun _ _ => False))).
Lemma used_grid id t p : used id (Tabs.mounted t) p -> grid p.
Proof.
  apply (turns_invariant _ _ _ grid); [|done|destruct t; [apply initial_on_grid|apply lp_initial_on_grid]].
  intros q es Hq Ha. apply tabs_offers in Ha as [->|(e & -> & He)]; [done|]. by apply send_grid.
Qed.

(** C38: whatever is done with the controls of the two calculators, every action sends at most
    one event, and the figures computed in binary64 are those of exact arithmetic: of a face
    value of [1000 i] at [k] tenths of a percent, [i k] is paid and the rest received, in whole
    units; and the rate shown to a liquidity provider, [h] hundredths of a percent, is a nearest
    one to [365 u k / (1000 m)] percent, for a utilisation of [u] percent, a discount of [k] tenths and
    [m] days. *)
Theorem calculators_are_exact id t p (Hu : used id (Tabs.mounted t) p) :
  offers (sends p) (view toLocaleString whole id p) /\
  match p with
  | Tabs.SmePanel s =>
      let '(discountPaid, fundedAmount) := useSmeDerivedValues (Sme.faceValue s) (Sme.discountRate s) in
      exists i k, Sme.faceValue s = Num.of_Z (1000 * i) /\ Sme.discountRate s = Str.parse_float (tenth_text k) /\
        1 <= i <= 500 /\ 5 <= k <= 50 /\ Num.round discountPaid = Num.of_Z (i * k) /\ Num.round fundedAmount = Num.of_Z (1000 * i - i * k)
  | Tabs.LpPanel s =>
      exists u k m h, Lp.lpUtilization s = Num.of_Z u /\ Lp.lpAvgDiscount s = Str.parse_float (tenth_text k) /\ Lp.lpAvgMaturity s = Num.of_Z m /\
        10 <= u <= 100 /\ 5 <= k <= 50 /\ 15 <= m <= 90 /\
        Lp.lv_apr (Lp.render toLocaleString whole s) = Num.point_digits h 2 +:+ "%" /\ Z.abs (20 * m * h - 730 * u * k) <= 10 * m
  end.
Proof.
  split; [apply tabs_offers|]. apply used_grid in Hu. destruct p as [s|s].
  - destruct Hu as (i & k & Hi & Hk & -> & ->). pose proof (sme_figures i k Hi Hk) as H.
    destruct (useSmeDerivedValues _ _) as [d a]. by exists i, k.
  - destruct Hu as (i & u & k & m & Hi & Hu & Hk & Hm & Ed & Eu & Ek & Em).
    destruct (apy_shown (5 * u) k (5 * m)) as (h & E & Hh); [lia..|]. exists (5 * u), k, (5 * m), h.
    split_and!; try done; try lia. unfold Lp.render. cbn [Lp.lv_apr]. rewrite Eu, Ek, Em. unfold useLpDerivedValues. cbn [Lp.lv_apr]. by rewrite E.
Qed.
End Facts.
End CalcViewsFacts.

(** Half of a hundredth can go either way: 10 percent, 0.5 percent and 50 days are exactly
    0.365 percent, and the shown number is the one below. *)
Lemma a_half_may_go_down :
  Lp.lv_apr (Lp.render (fun _ => "") (fun _ => "")
    (foldl Lp.step Lp.initial [Lp.Utilization "10"; Lp.AvgDiscount "0.5"; Lp.AvgMaturity "50"])) = "0.36%" /\
  365 * 10 * 5 * 100 * 2 = 73 * (1000 * 50).
Proof. by vm_compute. Qed.

(** ** Witness *)
Definition lp_tab : Tabs.panel := Tabs.step (Tabs.mounted Tabs.SmeTab) (Tabs.Click Tabs.LpTab).
Lemma calculators_are_exact_witness :
  rtc (turn (CalcViews.view (fun _ => "") (fun _ => "") "r1") Tabs.step (fun _ _ => False)) (Tabs.mounted Tabs.SmeTab) lp_tab /\
  exists u k m h, Lp.lpUtilization Lp.initial = Num.of_Z u /\ Lp.lpAvgDiscount Lp.initial = Str.parse_float (tenth_text k) /\
    Lp.lpAvgMaturity Lp.initial = Num.of_Z m /\ 10 <= u <= 100 /\ 5 <= k <= 50 /\ 15 <= m <= 90 /\
    Lp.lv_apr (Lp.render (fun _ => "") (fun _ => "") Lp.initial) = Num.point_digits h 2 +:+ "%" /\
    Z.abs (20 * m * h - 730 * u * k) <= 10 * m.
Proof.
  assert (H : rtc (turn (CalcViews.view (fun _ => "") (fun _ => "") "r1") Tabs.step (fun _ _ => False)) (Tabs.mounted Tabs.SmeTab) lp_tab).
  { apply rtc_once.
    change lp_tab with (foldl Tabs.step (Tabs.mounted Tabs.SmeTab) [Tabs.Click Tabs.LpTab]). apply by_user. apply act_click, list_elem_of_In. vm_compute. tauto. }
  split; [exact H|]. exact (proj2 (CalcViewsFacts.calculators_are_exact (fun _ => "") (fun _ => "") "r1" Tabs.SmeTab lp_tab H)).
Defined.
