(* ===== verification/LoadingPages.v ===== *)
(** * What the routes show while they load ([app/*/loading.tsx])

    Pages of placeholders ([Skeletons]) in the shape of what is to come.  They offer nothing; two
    of them keep the element that the skip link of the root layout ([HomePage]) names, and two
    have a part that says the page is loading. *)

From S2P Require Import Prelude Markup Skeletons HomePage.

Module LoadingPages.
Import Skeletons.
Section Loading.
Context {E : Type}.
Abbreviation page := (node E).
Abbreviation S := (SkeletonShimmer : page).

Definition header : page := box [pair_; S].
Definition rows (n : nat) (cell : string) (cells : nat) : list page := replicate n (El "tr" [] (replicate cells (El cell [] [S]))).
Definition dashboard_table : page :=
  box [box [El "table" [] [El "thead" [] (rows 1 "th" 6); El "tbody" [] (rows 5 "td" 6)]]].
Definition dashboard_activity : page := box [box [S]; box (replicate 5 (box [pair_; S]))].
Definition DashboardLoading : page :=
  box
    [header; box (replicate 5 (box [S; S; S]));
     box [box [S; dashboard_table; dashboard_activity]; box [S; box [pair_]]]].

Definition sme_card : page := box [box [pair_; S]; box [pair_; pair_]; S].
Definition event_row : page := box [box [S; pair_]; pair_].
Definition SmeLoading : page :=
  box [pair_; box (replicate 4 pair_); box [box (replicate 3 sme_card); box (replicate 4 event_row)]].

Definition SkeletonCardSkeleton : page := box [box [S; pair_]; pair_].
Definition MarketplaceLoading : page :=
  box
    [box [header]; box (replicate 4 pair_);
     box [box [S; InvoiceTableSkeleton; box (replicate 3 SkeletonCardSkeleton)]; box [S; box (S :: replicate 3 S)]]].

Definition lp_form : page := box [S; S; S; S; S].
Definition LPLoading : page := box [S; S; PoolStatsPanelSkeleton; LPPositionCardSkeleton; box [lp_form; lp_form]].

Definition ProfileLoading : page := box [pair_; box [box [S; box [S; S; S]]; box (replicate 4 pair_); S]].

Definition DocsLoading : page :=
  box
    [pair_;
     El "main" [A "id" "main-content"; A "tabIndex" "-1"] [box [pair_; S; box [pair_; pair_]; S; pair_; S]]].

Definition invoice_blocks : page := box [box [box [S; S; S]; box (replicate 2 S); box (replicate 4 S)]].
Definition InvoiceLoading (navbar : page) (year : Z) : page := PageLayout navbar year [invoice_blocks].
End Loading.
End LoadingPages.

(** ** Properties *)
Module LoadingPagesFacts.
Import LoadingPages HomePageFacts.
Section Facts.
Context {E : Type}.
Definition own : list (node E) := [DashboardLoading; SmeLoading; MarketplaceLoading; LPLoading; ProfileLoading; DocsLoading].
Lemma loading_offers_nothing P : Forall (offers P) own.
Proof. repeat apply list.Forall_cons_2; try (apply offers_inert; showing). constructor. Qed.
Lemma invoice_loading_offers P navbar year : offers P navbar -> offers P (InvoiceLoading navbar year : node E).
Proof. intros H. unfold InvoiceLoading, PageLayout. offering; [done|]. apply offers_inert. showing. Qed.

(** While the dashboard, the marketplace, the portals or the profile load, the skip link of the
    root layout leads nowhere. *)
Lemma skip_link_while_loading navbar year :
  map skip_moves_focus own = [false; false; false; false; false; true] /\
  Forall (fun n => skip_targets n = []) (take 5 own) /\
  (skip_targets navbar = [] -> skip_moves_focus (InvoiceLoading navbar year : node E) = true).
Proof.
  split; [done|]. split; [by repeat constructor|]. intros H. unfold InvoiceLoading, PageLayout, skip_moves_focus.
  assert (skip_targets navbar ++ [] = []) as Hn by (by rewrite H). unfold skip_targets in *.
  cbn [elements flat_map app]. rewrite flat_map_app. cbn in Hn |- *. rewrite app_nil_r in Hn. by rewrite Hn.
Qed.

(** Only the marketplace and the portal of the liquidity provider say that they are loading:
    the other pages have no status and no text. *)
Definition announces (n : node E) : bool := existsb (fun '(_, attrs, _) => is_attr "role" "status" attrs) (elements n).
Lemma who_says_it_is_loading :
  map announces own = [false; false; true; true; false; false] /\
  map (fun n : node E => flat_map texts [n]) own = [[]; []; Skeletons.Skeletons.table_heads; []; []; []].
Proof. done. Qed.
End Facts.
End LoadingPagesFacts.
